(* ===== verification/_CoqProject ===== *)
-Q . S2P
Prelude.v
Text.v
Float64.v
DomainTypes.v
Identifiers.v
Digest.v
PageWorkflow.v
PageWorkflowFacts.v
JobLifecycle.v
Geometry.v
Document.v
DocumentFacts.v
SemanticMemory.v
StoreTypes.v
StoreChecks.v
StoreDb.v
StoreJobs.v
StorePages.v
StoreUploads.v
StoreOutbox.v
StoreRun.v
StoreJobsFacts.v
StorePagesFacts.v
StoreUploadsFacts.v
StoreOutboxFacts.v
Isolation.v
PageRunner.v
PageRunnerFacts.v
Temporal.v
TemporalFacts.v
Eval.v
Benchmark.v
Relay.v
RelayFacts.v
ParserProcess.v
Importer.v
Storage.v
Promotion.v
ParserProcessFacts.v
StorageFacts.v
PromotionFacts.v
ImporterFacts.v
Dispatcher.v
Artifacts.v
Assembly.v
NativePages.v
Recognition.v
Finalizer.v
DocumentCache.v
ArtifactsFacts.v
AssemblyFacts.v
FinalizerFacts.v
NativePagesFacts.v
ApiTypes.v
WorkloadIdentity.v
Mcp.v
McpFacts.v
StatusCache.v
UploadIntents.v
Api.v
ApiFacts.v
Malware.v
DocumentAi.v
DocumentAiFacts.v
Engine.v
Sandbox.v
SandboxFacts.v
ParserIsolation.v
Nutrition.v
NutritionFacts.v
ModelProfile.v
ImageQuality.v
ImageQualityFacts.v
Activities.v
ActivitiesFacts.v
Configuration.v
ConfigurationFacts.v
Router.v
RouterFacts.v
