(* ===== verification/Prelude.v ===== *)
(** * Verification of the document-intelligence service

    The program (a Rust workspace under [src/crates/]) takes uploads of documents for
    many products and tenants, inspects them, recognises the text of their pages and
    publishes a result per job.  Everything durable is in a Postgres store and in object
    storage; workers claim work from the store under leases, crash, retry and race.  This
    library translates the program's own logic into executable definitions and proves
    what makes it correct.

    ** Parts, and the files that model them

    Foundations.  [Prelude] (results, machine integers, lists, stable sorting,
    automation), [Text] (a [&str] as its UTF-8 bytes, decimal numbers), [Float64]
    ([f64] as the Standard Library's [spec_float], and its casts to integers),
    [Digest] (hexadecimal and digests; [ocr-service/src/digest.rs]).

    The domain crate [ocr-domain].  [DomainTypes] and [Identifiers] (validated string
    newtypes, the class [DomainId]), [Geometry] and [Document] (checked values and the
    result contract; the class [Wire] is the check [serde] runs on them),
    [JobLifecycle] (the job state machine), [PageWorkflow] (the page checkpoint of a
    job), [SemanticMemory].

    The store crate [ocr-store].  [StoreTypes] and [StoreChecks] are its vocabulary and
    validators; [StoreDb] is the database, a record of tables; [StoreJobs],
    [StorePages], [StoreUploads], [StoreOutbox] and [NativePages] are the methods of
    [PgJobStore], statement by statement; [StoreRun] makes them a transition system,
    whose [reachable] databases all invariants speak of, and [Isolation] keeps the rows
    of its tenants apart.

    The service crate [ocr-service].  Uploads: [Storage] (locations and verified
    reads), [UploadIntents] (signed uploads), [Malware] (the scanner client),
    [ParserProcess] and [ParserIsolation] (the filter of its system calls),
    [Promotion], [Importer].  Pages: [Recognition], [DocumentCache],
    [DocumentAi], [PageRunner], [Artifacts].  Results: [Assembly], [Nutrition],
    [Finalizer].  Events: [Relay].  The network boundary: [ApiTypes],
    [WorkloadIdentity], [Mcp], [StatusCache], [Api] (the handlers), [Router] (the routes
    and the application behind the identity check), [Configuration] (what the programs
    read from their environment).

    The crates around them.  [Temporal], [Activities] and [Dispatcher]
    ([ocr-temporal]), [Engine], [ModelProfile] and [ImageQuality] ([ocr-engine]),
    [Sandbox] ([ocr-parser-sandbox]), [Eval] and [Benchmark] ([ocr-eval]).

    The theorems on [X] are at the end of its file, or in [XFacts] when they are many or
    need later files.

    ** How the code is translated

    - A fallible function returns [result], [Err] carrying the error the code returns;
      [let?] is the [?] operator.  A method on [&mut self] returns the new value.
    - A transaction of the store is a function from the database to a result and a
      database ([Tx]); an [Err] leaves the database unchanged, as a dropped
      transaction does.  Transactions are atomic and run one at a time; a row that
      [for update skip locked] skips is chosen by an argument [locked].
    - Code with several transactions takes what the other workers did between them as
      an argument [between], [meanwhile] or [disturb], constrained in theorems to
      operations of the store ([effect_of_ops]), and the times of its statements as [now] or [clock].
      Times are in seconds, in [WorkloadIdentity] and [Mcp] in nanoseconds where the
      code compares durations.
    - Services (object stores, Temporal, the scanner, the OCR provider, the cache
      server) are functions on a state [G] whose answers are arbitrary; a deadline that
      interrupts a request is a request that fails.  The order in which a query without
      [order by] returns its rows, or concurrent tasks finish, is a function [arrange].
    - Third-party code is an argument: SHA-256, HMAC, signatures, JSON text, the image
      and PDF libraries, Unicode normalisation and case mapping, trigonometry.  What a
      theorem needs of one is a hypothesis on that argument, which its witness
      instantiates with a concrete function; the documented behaviour of a service that
      several lemmas need is a class over its state, such as [PromotionServices].
      Nothing is assumed of the strength of a hash or a MAC: where two different
      messages could agree, the theorem names the two messages.
    - The kernel's interpreter of system call filters is an interface ([ClassicBpf]) with
      the documented meaning of the instructions used.
    - A [u64] or [i64] is a number in [Z]; the checks on widths are where the code has
      them ([checked], [saturating_add]).  Sizes of JSON texts are arguments.

    ** What the theorems show

    The store ([StoreJobsFacts], [StorePagesFacts], [StoreUploadsFacts],
    [StoreOutboxFacts]): over every reachable database, jobs follow the domain's
    lifecycle, a delivered job is never cancelled nor the reverse, revisions and their
    artifacts are never lost, leases exclude other workers, the outbox is a durable
    log, accepted sources and results always load.  Whatever the database, no operation
    reaches the rows of another tenant ([Isolation]).

    Workers: an upload is accepted only after every inspection, one of them a scan of
    all that the store streams, and an undisturbed import settles it ([ImporterFacts],
    [Malware]); reads are verified, and a promoted object was read back or is Google's
    copy of the very generation inspected, which is not hashed again ([StorageFacts],
    [PromotionFacts]); runs of the page runner commit whole batches and settle the job
    ([PageRunnerFacts]); the durable workflow terminates ([TemporalFacts]), and a workflow
    the starter reports as started delivers a result of its job, its activities failing
    retryably where they should ([ActivitiesFacts]); the relay publishes no
    event before its workflow is stored ([RelayFacts]); a pass of the dispatch worker
    fails exactly when the lease of a scope is lost, and the worker goes on to the next
    ([Dispatcher]).

    Pages: the parser process reports what the sandbox found, within its limits
    ([ParserProcessFacts], [SandboxFacts]), and only runs with its system calls filtered
    ([ParserIsolation]); a page of the local engine shows its regions
    ([Engine]), read by a model whose artifact was signed ([ModelProfile])
    from an image worth reading ([ImageQualityFacts]); a page recognised elsewhere is
    the page that was sent ([DocumentAiFacts]).

    Results: an assembled result is that of a reference ([AssemblyFacts]), a label's
    values cite the lines and columns they were read from ([NutritionFacts]), a
    published result stands for a settled workflow and is served unchanged
    ([FinalizerFacts]); artifacts read back ([ArtifactsFacts]); native
    text is agreed by all workers ([NativePagesFacts]); the document cache is bounded
    and single-flight ([DocumentCache]).

    The network boundary: a signature binds the identity, the method, the path
    and query and the time of a request, and not its body ([WorkloadIdentity]), a grant
    one tool call with its arguments ([McpFacts]); creating is idempotent, an upload completes only
    with its verified object, a cached status is true ([ApiFacts]); a request acts for
    the tenant that signed it, and its answer depends on that tenant's rows only
    ([RouterFacts]); programs configured alike agree on their buckets
    ([ConfigurationFacts]).

    ** Bounds and fuel

    [show_dec] prints 20 digits, enough for any [u64].  [plan_runs] recurses at most
    the page count, [execute_workflow] the 60 iterations the code allows, the rewrite
    loop of a promotion the 32 calls of the code; [quantities_from], [chunks_from],
    [decode_frames] and [validate_chunks] take at least one byte or character a round,
    so the length of their input is enough.  Each bound is proved enough by the
    theorems of its component.

    ** Not modelled

    The installation of tracing, spans, log lines and timing; sockets, signals, pools and
    the start of the programs; getters and the traits that only name an interface; the timeout, body limit and span layers of the HTTP server, and signing of URLs,
    which belong to libraries; the neural models, which are files outside of the
    source.  The SQL schema is modelled as the store uses it; CHECK constraints and row
    security are not.  Killing process groups and waking waiting tasks have no effect on
    the values modelled.  Tasks that only hash bytes are assumed to finish. *)

From Stdlib Require Export ZArith Lia Ascii String Sorted.
From stdpp Require Export base tactics list gmap strings numbers sorting.

#[global] Open Scope Z_scope.
#[global] Open Scope bool_scope.

(** ** Results *)

(** Rust's [Result<A, E>]. *)
Inductive result (E A : Type) : Type :=
| Ok (a : A)
| Err (e : E).
Arguments Ok {E A} a.
Arguments Err {E A} e.

Declare Scope rust_scope.
Delimit Scope rust_scope with rust.

(** The [?] operator. *)
Definition and_then {E A B : Type} (m : result E A) (k : A → result E B) : result E B :=
  match m with
  | Ok a => k a
  | Err e => Err e
  end.

Notation "'let?' x := m 'in' k" := (and_then m (λ x, k))
  (at level 10, x pattern, m at level 200, k at level 200, only parsing) : rust_scope.
#[global] Open Scope rust_scope.

(** [Option::ok_or]. *)
Definition ok_or {E A : Type} (o : option A) (e : E) : result E A :=
  match o with
  | Some a => Ok a
  | None => Err e
  end.

(** [Result::map_err]. *)
Definition map_err {E F A : Type} (m : result E A) (f : E → F) : result F A :=
  match m with
  | Ok a => Ok a
  | Err e => Err (f e)
  end.

(** [Result::ok]. *)
Definition result_ok {E A : Type} (m : result E A) : option A :=
  match m with
  | Ok a => Some a
  | Err _ => None
  end.

Definition is_ok {E A : Type} (m : result E A) : bool :=
  match m with
  | Ok _ => true
  | Err _ => false
  end.

(** [iter.map(f).collect::<Result<Vec<_>, _>>()]: the first error wins. *)
Fixpoint collect_results {E A B : Type} (f : A → result E B) (l : list A) : result E (list B) :=
  match l with
  | [] => Ok []
  | a :: l' => let? b := f a in let? bs := collect_results f l' in Ok (b :: bs)
  end.

Lemma collect_results_Ok {E A B : Type} (f : A → result E B) (l : list A) (bs : list B) :
  collect_results f l = Ok bs ↔ Forall2 (λ a b, f a = Ok b) l bs.
Proof.
  revert bs. induction l as [|a l IH]; intros bs; simpl.
  - split; [intros [= <-]; constructor | inversion 1; done].
  - split.
    + destruct (f a) as [b|e] eqn:Ha; simpl; [|done].
      destruct (collect_results f l) as [bs'|e] eqn:Hl; simpl; [|done].
      intros [= <-]. constructor; [done | by apply IH].
    + inversion 1 as [|? b ? bs' Hb Hbs]; subst. rewrite Hb. simpl.
      apply IH in Hbs. by rewrite Hbs.
Qed.

Lemma collect_results_length {E A B : Type} (f : A → result E B) l bs :
  collect_results f l = Ok bs → length bs = length l.
Proof. rewrite collect_results_Ok. intros H. symmetry. by eapply Forall2_length. Qed.

(** ** Machine integers

    A Rust integer is its value in [Z]; each bound is written where the code
    computes with it.  [usize] is 64 bits wide, as on the deployed targets. *)
Definition u8_max : Z := 255.
Definition u16_max : Z := 65535.
Definition u32_max : Z := 4294967295.
Definition u64_max : Z := 18446744073709551615.
Definition usize_max : Z := u64_max.
Definition i32_max : Z := 2147483647.
Definition i64_max : Z := 9223372036854775807.

Definition in_width (max z : Z) : Prop := 0 ≤ z ≤ max.

(** [checked_add], [checked_sub], [checked_mul] and [TryFrom] on unsigned types. *)
Definition checked (max z : Z) : option Z :=
  if (0 <=? z) && (z <=? max) then Some z else None.
Definition checked_add (max a b : Z) : option Z := checked max (a + b).
Definition checked_sub (max a b : Z) : option Z := checked max (a - b).
Definition checked_mul (max a b : Z) : option Z := checked max (a * b).
Definition saturating_add (max a b : Z) : Z := Z.min (a + b) max.
Definition saturating_sub (a b : Z) : Z := Z.max (a - b) 0.

(** [(lo..=hi).contains(&z)]. *)
Definition contains (lo hi z : Z) : bool := (lo <=? z) && (z <=? hi).

Lemma checked_Some max z v : checked max z = Some v ↔ v = z ∧ in_width max z.
Proof.
  unfold checked, in_width.
  destruct (0 <=? z) eqn:H1, (z <=? max) eqn:H2; simpl;
    (split; [intros [= <-] || done | intros [-> ?]]); try (split; [done|lia]); try lia; done.
Qed.

Lemma checked_None max z : checked max z = None ↔ ¬ in_width max z.
Proof.
  unfold checked, in_width.
  destruct (0 <=? z) eqn:H1, (z <=? max) eqn:H2; simpl; split; intros; try done; lia.
Qed.

Lemma contains_true lo hi z : contains lo hi z = true ↔ lo ≤ z ≤ hi.
Proof. unfold contains. rewrite andb_true_iff, !Z.leb_le. done. Qed.

Lemma contains_false lo hi z : contains lo hi z = false ↔ ¬ (lo ≤ z ≤ hi).
Proof. rewrite <- contains_true. by destruct (contains lo hi z). Qed.

(** The length of a list as a [usize]. *)
Definition zlen {A : Type} (l : list A) : Z := Z.of_nat (length l).

Lemma zlen_nonneg {A} (l : list A) : 0 ≤ zlen l.
Proof. unfold zlen. lia. Qed.

Lemma zlen_nil {A} : zlen ([] : list A) = 0.
Proof. done. Qed.

Lemma zlen_cons {A} (a : A) l : zlen (a :: l) = zlen l + 1.
Proof. unfold zlen. simpl. lia. Qed.

Lemma zlen_app {A} (l k : list A) : zlen (l ++ k) = zlen l + zlen k.
Proof. unfold zlen. rewrite length_app. lia. Qed.

Lemma checked_in_width max z : in_width max z → checked max z = Some z.
Proof. intros H. by apply checked_Some. Qed.

Lemma ok_or_Ok {E A} (o : option A) (e : E) a : ok_or o e = Ok a ↔ o = Some a.
Proof. destruct o; simpl; naive_solver. Qed.

Lemma map_err_Ok {E F A} (m : result E A) (f : E → F) a : map_err m f = Ok a ↔ m = Ok a.
Proof. destruct m; simpl; naive_solver. Qed.

Lemma and_then_Ok {E A B} (m : result E A) (k : A → result E B) b :
  and_then m k = Ok b ↔ ∃ a, m = Ok a ∧ k a = Ok b.
Proof. destruct m; simpl; naive_solver. Qed.

(** ** Automation *)

Create HintDb rust discriminated.
Create Rewrite HintDb rust_bool.
#[export] Hint Resolve zlen_nonneg : rust.
#[export] Hint Rewrite andb_true_iff andb_false_iff orb_true_iff orb_false_iff negb_true_iff
  negb_false_iff Z.leb_le Z.leb_gt Z.ltb_lt Z.ltb_ge Z.eqb_eq Z.eqb_neq
  @contains_true @contains_false @bool_decide_eq_true @bool_decide_eq_false : rust_bool.

(** Turn every boolean test of the context and goal into the proposition it decides. *)
Ltac boolify := autorewrite with rust_bool in *.

(** Split the [if], [match] and [let?] that a hypothesis [H : _ = Ok _] or
    [H : _ = Some _] runs through, discarding the branches that fail. *)
Ltac destruct_result H :=
  repeat first
    [ discriminate H
    | progress (simpl in H; unfold and_then in H)
    | match type of H with
      | context [if ?b then _ else _] => destruct b eqn:?
      | context [match ?m with _ => _ end] =>
          lazymatch m with
          | context [match _ with _ => _ end] => fail
          | _ => destruct m eqn:?
          end
      end ];
  simplify_eq.

(** ** Lists *)

(** [slice.windows(2).any(|w| f(w[0], w[1]))]. *)
Fixpoint any_adjacent {A : Type} (f : A → A → bool) (l : list A) : bool :=
  match l with
  | a :: (b :: _) as l' => f a b || any_adjacent f l'
  | _ => false
  end.

Lemma any_adjacent_false {A} (f : A → A → bool) (l : list A) :
  any_adjacent f l = false ↔ Sorted (λ a b, f a b = false) l.
Proof.
  induction l as [|a [|b l] IH]; simpl.
  - split; [constructor | done].
  - split; [repeat constructor | done].
  - rewrite orb_false_iff. simpl in IH. rewrite IH. split.
    + intros [Hab Hs]. constructor; [done | by constructor].
    + inversion 1 as [|?? Hs Hd]; subst. inversion Hd; subst. done.
Qed.

Lemma existsb_false {A : Type} (f : A → bool) l :
  existsb f l = false ↔ ∀ a, a ∈ l → f a = false.
Proof.
  induction l as [|a l IH]; simpl.
  - split; [intros _ b Hb; by apply elem_of_nil in Hb|done].
  - rewrite orb_false_iff, IH. split.
    + intros [Ha Hl] b [-> |Hb]%elem_of_cons; auto.
    + intros H. split; [apply H; left|intros b Hb; apply H; by right].
Qed.

(** *** Stable sorting

    [slice::sort_by] and [sort_by_key] are stable; insertion from the right keeps
    the input order of elements that compare equal, so [sort_by] is the same
    function of its input whatever algorithm the standard library uses. *)
Section Sorting.
Context {A : Type} (le : A → A → bool).

Fixpoint insert_by (x : A) (l : list A) : list A :=
  match l with
  | [] => [x]
  | y :: l' => if le x y then x :: l else y :: insert_by x l'
  end.

Definition sort_by (l : list A) : list A := foldr insert_by [] l.

Lemma insert_by_Permutation x l : insert_by x l ≡ₚ x :: l.
Proof.
  induction l as [|y l IH]; simpl; [done|].
  destruct (le x y); [done|]. rewrite IH. apply perm_swap.
Qed.

Lemma sort_by_Permutation l : sort_by l ≡ₚ l.
Proof.
  induction l as [|x l IH]; simpl; [done|]. by rewrite insert_by_Permutation, IH.
Qed.

Lemma sort_by_length l : length (sort_by l) = length l.
Proof. by rewrite sort_by_Permutation. Qed.

Lemma elem_of_sort_by x l : x ∈ sort_by l ↔ x ∈ l.
Proof. by rewrite sort_by_Permutation. Qed.

Lemma Forall_sort_by P l : Forall P (sort_by l) ↔ Forall P l.
Proof. by rewrite sort_by_Permutation. Qed.

Lemma insert_by_head x l : HdRel (λ a b, le a b = true) x l → insert_by x l = x :: l.
Proof. destruct l as [|y l]; simpl; [done|]. inversion 1. by destruct (le x y). Qed.

(** Sorting a sorted list changes nothing. *)
Lemma sort_by_sorted_id l : Sorted (λ a b, le a b = true) l → sort_by l = l.
Proof.
  induction 1 as [|x l Hs IH Hd]; simpl; [done|]. rewrite IH. by apply insert_by_head.
Qed.

Context (le_total : ∀ a b, le a b = true ∨ le b a = true).

Lemma insert_by_Sorted x l :
  Sorted (λ a b, le a b = true) l → Sorted (λ a b, le a b = true) (insert_by x l).
Proof.
  induction 1 as [|y l Hs IH Hd]; simpl; [repeat constructor|].
  destruct (le x y) eqn:Hxy; [by repeat constructor|].
  constructor; [done|].
  destruct l as [|z l]; simpl.
  - constructor. destruct (le_total x y); congruence.
  - destruct (le x z); constructor.
    + destruct (le_total x y); congruence.
    + by inversion Hd.
Qed.

Lemma sort_by_Sorted l : Sorted (λ a b, le a b = true) (sort_by l).
Proof. induction l; simpl; [constructor | by apply insert_by_Sorted]. Qed.

Lemma sort_by_idemp l : sort_by (sort_by l) = sort_by l.
Proof. apply sort_by_sorted_id, sort_by_Sorted. Qed.

Context (le_trans : ∀ a b c, le a b = true → le b c = true → le a c = true).

Lemma sort_by_StronglySorted l : StronglySorted (λ a b, le a b = true) (sort_by l).
Proof. apply Sorted.Sorted_StronglySorted; [intros a b c; apply le_trans | apply sort_by_Sorted]. Qed.
End Sorting.

Lemma StronglySorted_mono {A : Type} (R S : A → A → Prop) l :
  (∀ a b, R a b → S a b) → StronglySorted R l → StronglySorted S l.
Proof. intros HRS. induction 1; constructor; [done|]. eapply Forall_impl; eauto. Qed.

(** [sort_by_key] with an integer key. *)
Definition le_key {A : Type} (key : A → Z) (a b : A) : bool := key a <=? key b.
Definition sort_by_key {A : Type} (key : A → Z) (l : list A) : list A := sort_by (le_key key) l.

Section SortByKey.
Context {A : Type} (key : A → Z).

Lemma le_key_total a b : le_key key a b = true ∨ le_key key b a = true.
Proof. unfold le_key. rewrite !Z.leb_le. lia. Qed.

Lemma le_key_trans a b c :
  le_key key a b = true → le_key key b c = true → le_key key a c = true.
Proof. unfold le_key. rewrite !Z.leb_le. lia. Qed.

Lemma sort_by_key_StronglySorted l :
  StronglySorted (λ a b, key a ≤ key b) (sort_by_key key l).
Proof.
  eapply StronglySorted_mono; [|apply sort_by_StronglySorted].
  - intros a b. unfold le_key. by rewrite Z.leb_le.
  - apply le_key_total.
  - apply le_key_trans.
Qed.
End SortByKey.

(** A list sorted strictly by an integer key is determined by its elements. *)
Lemma strictly_sorted_unique {A : Type} (key : A → Z) (l k : list A) :
  StronglySorted (λ a b, key a < key b) l → StronglySorted (λ a b, key a < key b) k →
  l ≡ₚ k → l = k.
Proof. apply StronglySorted_unique_strong. intros x y _ _ ? ?. lia. Qed.

(** Sorting by a key that tells the elements apart. *)
Section DistinctKeys.
Context {A : Type} (key : A → Z).

Lemma StronglySorted_lt_key l :
  StronglySorted (λ a b, key a ≤ key b) l → NoDup (key <$> l) →
  StronglySorted (λ a b, key a < key b) l.
Proof.
  induction 1 as [|a l Hs IH Hall]; [constructor|]. rewrite fmap_cons, NoDup_cons.
  intros [Hni Hnd]. constructor; [auto|].
  rewrite Forall_forall in *. intros b Hb. specialize (Hall b Hb).
  assert (key a ≠ key b); [|lia].
  intros Heq. apply Hni. rewrite Heq. by apply list_elem_of_fmap_2.
Qed.

Lemma NoDup_keys_sorted l :
  StronglySorted (λ a b, key a < key b) l → NoDup (key <$> l).
Proof.
  induction 1 as [|a l Hs IH Hall]; [constructor|]. rewrite fmap_cons, NoDup_cons.
  split; [|done]. intros (b & Heq & Hb)%list_elem_of_fmap.
  rewrite Forall_forall in Hall. specialize (Hall b Hb). lia.
Qed.

Lemma sort_by_key_lt l :
  NoDup (key <$> l) → StronglySorted (λ a b, key a < key b) (sort_by_key key l).
Proof.
  intros Hnd. apply StronglySorted_lt_key; [apply sort_by_key_StronglySorted|].
  unfold sort_by_key. by rewrite sort_by_Permutation.
Qed.

(** The order in which such elements arrive does not matter. *)
Lemma sort_by_key_unique l k :
  l ≡ₚ k → NoDup (key <$> l) → sort_by_key key l = sort_by_key key k.
Proof.
  intros Hp Hnd. apply (strictly_sorted_unique key).
  - by apply sort_by_key_lt.
  - apply sort_by_key_lt. by rewrite <- Hp.
  - unfold sort_by_key. by rewrite !sort_by_Permutation.
Qed.

Lemma sort_by_key_sorted_id l :
  StronglySorted (λ a b, key a < key b) l → sort_by_key key l = l.
Proof.
  intros Hs. apply sort_by_sorted_id, Sorted.StronglySorted_Sorted.
  eapply StronglySorted_mono; [|done]. intros a b. simpl. unfold le_key. rewrite Z.leb_le. lia.
Qed.

(** [sort_by_key] then [windows(2)] finds two elements with the same key. *)
Lemma any_adjacent_sort_by_key (eqk : A → A → bool) l :
  (∀ a b, eqk a b = true ↔ key a = key b) →
  any_adjacent eqk (sort_by_key key l) = false ↔ NoDup (key <$> l).
Proof.
  intros Heqk. rewrite any_adjacent_false. split.
  - intros Hd. rewrite <- (sort_by_Permutation (le_key key) l).
    apply NoDup_keys_sorted, Sorted.Sorted_StronglySorted; [intros a b c ? ?; lia|].
    assert (Hle := sort_by_key_StronglySorted key l).
    apply Sorted.StronglySorted_Sorted in Hle. unfold sort_by_key in *.
    revert Hle. induction Hd as [|a s Hd IH Hh]; intros Hle; [constructor|].
    inversion Hle as [|? ? Hle' Hh']; subst. constructor; [auto|].
    destruct Hh as [|b s Hab]; constructor. inversion Hh'; simpl in *; subst.
    assert (key a ≠ key b); [|lia]. intros Heq. apply Heqk in Heq. congruence.
  - intros Hnd. apply Sorted.StronglySorted_Sorted.
    eapply StronglySorted_mono; [|by apply sort_by_key_lt].
    intros a b Hlt. simpl in Hlt |- *. destruct (eqk a b) eqn:He; [|done]. apply Heqk in He. lia.
Qed.
End DistinctKeys.

(** A boolean fact about bytes, by evaluation on all of them. *)
Lemma byte_cases (P : Z → bool) :
  forallb P (map Z.of_nat (List.seq 0 256)) = true → ∀ b, 0 ≤ b < 256 → P b = true.
Proof.
  rewrite forallb_forall. intros H b Hb. apply H. rewrite <- (Z2Nat.id b) by lia.
  apply in_map, in_seq. lia.
Qed.
