(* ===== verification/Text.v ===== *)
(** * Text: Rust strings as byte sequences

    A Rust [&str] is its sequence of UTF-8 bytes, modelled as a [string] (a list of
    8-bit [ascii]).  The file holds the byte classes of [u8], the slicing and
    splitting operations of [str], the decoding of UTF-8 needed by [chars] and
    [trim], and decimal formatting ([{n}] and [{n:04}]) with the injectivity facts
    that make formatted keys usable as identities. *)

From S2P Require Import Prelude.

#[global] Open Scope string_scope.
#[global] Open Scope Z_scope.

(** ** Bytes *)

(** The value of a byte. *)
Definition code (a : ascii) : Z := Z.of_N (N_of_ascii a).

Definition is_ascii_lowercase (a : ascii) : bool := contains 97 122 (code a).
Definition is_ascii_uppercase (a : ascii) : bool := contains 65 90 (code a).
Definition is_ascii_alphabetic (a : ascii) : bool := is_ascii_lowercase a || is_ascii_uppercase a.
Definition is_ascii_digit (a : ascii) : bool := contains 48 57 (code a).
Definition is_ascii_alphanumeric (a : ascii) : bool := is_ascii_alphabetic a || is_ascii_digit a.
Definition is_ascii_hexdigit (a : ascii) : bool :=
  is_ascii_digit a || contains 97 102 (code a) || contains 65 70 (code a).
Definition is_ascii_graphic (a : ascii) : bool := contains 33 126 (code a).

(** [matches!(byte, b'x' | b'y' | ...)]. *)
Definition byte_in (set : string) (a : ascii) : bool :=
  existsb (Ascii.eqb a) (list_ascii_of_string set).

(** [value.len()], in bytes. *)
Definition strlen (s : string) : Z := Z.of_nat (String.length s).

Definition is_empty (s : string) : bool :=
  match s with
  | EmptyString => true
  | _ => false
  end.

(** [value.bytes().all(p)]. *)
Fixpoint all_bytes (p : ascii → bool) (s : string) : bool :=
  match s with
  | EmptyString => true
  | String a s' => p a && all_bytes p s'
  end.

(** [value.as_bytes().first()] and [.last()]. *)
Definition first_byte (s : string) : option ascii :=
  match s with
  | EmptyString => None
  | String a _ => Some a
  end.

Fixpoint last_byte (s : string) : option ascii :=
  match s with
  | EmptyString => None
  | String a EmptyString => Some a
  | String _ s' => last_byte s'
  end.

(** [option.is_some_and(p)]. *)
Definition is_some_and {A : Type} (p : A → bool) (o : option A) : bool :=
  match o with
  | Some a => p a
  | None => false
  end.

(** [value.strip_prefix(p)]. *)
Fixpoint strip_prefix (p s : string) : option string :=
  match p, s with
  | EmptyString, _ => Some s
  | String a p', String b s' => if Ascii.eqb a b then strip_prefix p' s' else None
  | String _ _, EmptyString => None
  end.

(** [value.contains(p)] at a substring. *)
Fixpoint has_substring (p s : string) : bool :=
  is_some_and (λ _, true) (strip_prefix p s)
  || match s with
     | EmptyString => false
     | String _ s' => has_substring p s'
     end.

Definition starts_with_str (p s : string) : bool := is_some_and (λ _, true) (strip_prefix p s).

(** [value.split_once(c)]. *)
Fixpoint split_once (c : ascii) (s : string) : option (string * string) :=
  match s with
  | EmptyString => None
  | String a s' =>
      if Ascii.eqb a c then Some ("", s')
      else match split_once c s' with
           | Some (before, after) => Some (String a before, after)
           | None => None
           end
  end.

(** [option.unwrap_or_default()] at [&str]. *)
Definition unwrap_or_default (o : option string) : string :=
  match o with
  | Some s => s
  | None => ""
  end.

(** [value.split(c)]: one more part than there are separators. *)
Fixpoint split_on (c : ascii) (s : string) : list string :=
  match s with
  | EmptyString => [""]
  | String a s' =>
      if Ascii.eqb a c then "" :: split_on c s'
      else match split_on c s' with
           | part :: parts => String a part :: parts
           | [] => [String a ""]
           end
  end.

(** ** Lemmas on byte strings *)

#[global] Arguments String.append !s1 s2 /.

Lemma append_nil_r s : s +:+ "" = s.
Proof. induction s as [|a s IH]; simpl; [done | by rewrite IH]. Qed.

Lemma append_assoc s t u : (s +:+ t) +:+ u = s +:+ (t +:+ u).
Proof. induction s as [|a s IH]; simpl; [done | by rewrite IH]. Qed.

Lemma strlen_append s t : strlen (s +:+ t) = strlen s + strlen t.
Proof.
  unfold strlen. induction s as [|a s IH]; simpl; [done|]. rewrite !Nat2Z.inj_succ, IH. lia.
Qed.

Lemma strlen_nonneg s : 0 ≤ strlen s.
Proof. unfold strlen. lia. Qed.
#[export] Hint Resolve strlen_nonneg : rust.

Lemma is_empty_true s : is_empty s = true ↔ s = "".
Proof. by destruct s. Qed.

Lemma is_empty_false s : is_empty s = false ↔ 0 < strlen s.
Proof. destruct s as [|a s]; unfold strlen; simpl; [done|]. split; [lia|done]. Qed.

Lemma all_bytes_append p s t : all_bytes p (s +:+ t) = all_bytes p s && all_bytes p t.
Proof. induction s as [|a s IH]; simpl; [done|]. by rewrite IH, andb_assoc. Qed.

Lemma all_bytes_impl (p q : ascii → bool) s :
  (∀ a, p a = true → q a = true) → all_bytes p s = true → all_bytes q s = true.
Proof.
  intros Hpq. induction s as [|a s IH]; simpl; [done|].
  rewrite !andb_true_iff. intros [Ha Hs]. auto.
Qed.

Lemma strip_prefix_Some p s t : strip_prefix p s = Some t ↔ s = p +:+ t.
Proof.
  revert s. induction p as [|a p IH]; intros s; simpl; [split; [by intros [= ->] | by intros ->]|].
  destruct s as [|b s]; [done|].
  destruct (Ascii.eqb_spec a b) as [->|Hne].
  - rewrite IH. split; [by intros -> | by intros [= ->]].
  - split; [done | by intros [= -> ?]].
Qed.

Lemma strip_prefix_append p t : strip_prefix p (p +:+ t) = Some t.
Proof. by apply strip_prefix_Some. Qed.

(** Two strings cut at the first [c] have the same parts. *)
Lemma cut_unique c s1 s2 t1 t2 :
  all_bytes (λ a, negb (Ascii.eqb a c)) s1 = true →
  all_bytes (λ a, negb (Ascii.eqb a c)) s2 = true →
  s1 +:+ String c t1 = s2 +:+ String c t2 → s1 = s2 ∧ t1 = t2.
Proof.
  revert s2. induction s1 as [|a s1 IH]; intros [|b s2]; simpl; rewrite ?andb_true_iff, ?negb_true_iff.
  - by intros _ _ [= ->].
  - intros _ [Hb _] [= -> _]. by rewrite Ascii.eqb_refl in Hb.
  - intros [Ha _] _ [= -> _]. by rewrite Ascii.eqb_refl in Ha.
  - intros [Ha H1] [Hb H2] [= -> H]. destruct (IH s2 H1 H2 H) as [-> ->]. done.
Qed.

(** ** Decimal formatting

    [format!("{n}")] for an unsigned integer: 20 digits hold every [u64]. *)
Definition digit (d : Z) : ascii := ascii_of_N (Z.to_N (48 + d)).
Definition digit_value (a : ascii) : Z := code a - 48.

Fixpoint show_go (fuel : nat) (n : Z) (acc : string) : string :=
  match fuel with
  | O => acc
  | S fuel' =>
      let acc' := String (digit (n mod 10)) acc in
      if n <? 10 then acc' else show_go fuel' (n / 10) acc'
  end.

Definition show_dec (n : Z) : string := show_go 20 n "".

(** [format!("{n:04}")]: zero-padded to four digits. *)
Definition show_dec4 (n : Z) : string :=
  let s := show_dec n in
  string_of_list_ascii (replicate (4 - String.length s) "0"%char) +:+ s.

(** The value of a digit string, read left to right from [acc]. *)
Fixpoint read_dec (acc : Z) (s : string) : Z :=
  match s with
  | EmptyString => acc
  | String a s' => read_dec (acc * 10 + digit_value a) s'
  end.

(** [value.parse::<i64>()]. *)
Definition parse_digits (digits : string) : option Z :=
  if negb (is_empty digits) && all_bytes is_ascii_digit digits then Some (read_dec 0 digits)
  else None.

Definition parse_i64 (value : string) : option Z :=
  match strip_prefix "-" value with
  | Some digits =>
      match parse_digits digits with
      | Some n => if n <=? i64_max + 1 then Some (- n) else None
      | None => None
      end
  | None =>
      match parse_digits (default value (strip_prefix "+" value)) with
      | Some n => if n <=? i64_max then Some n else None
      | None => None
      end
  end.

(** [format!("{value}")] at [i64]. *)
Definition show_i64 (value : Z) : string :=
  if value <? 0 then "-" +:+ show_dec (- value) else show_dec value.

(** [value.parse()] at an unsigned type of the given maximum. *)
Definition parse_unsigned (maximum : Z) (value : string) : option Z :=
  match parse_digits (default value (strip_prefix "+" value)) with
  | Some n => if n <=? maximum then Some n else None
  | None => None
  end.

Lemma code_digit d : 0 ≤ d < 10 → code (digit d) = 48 + d.
Proof. intros H. unfold code, digit. rewrite N_ascii_embedding; lia. Qed.

Lemma code_range a : 0 ≤ code a < 256.
Proof. unfold code. pose proof (N_ascii_bounded a). lia. Qed.

Lemma code_inj a b : code a = code b → a = b.
Proof.
  unfold code. intros H.
  rewrite <- (ascii_N_embedding a), <- (ascii_N_embedding b). f_equal. lia.
Qed.

Lemma digit_is_digit d : 0 ≤ d < 10 → is_ascii_digit (digit d) = true.
Proof. intros H. unfold is_ascii_digit. apply contains_true. rewrite code_digit by done. lia. Qed.

Lemma read_dec_acc fuel n acc s :
  0 ≤ n < 10 ^ Z.of_nat fuel →
  read_dec acc (show_go fuel n s) =
  read_dec (acc * 10 ^ strlen (show_go fuel n "") + n) s.
Proof.
  revert n acc s. induction fuel as [|fuel IH]; intros n acc s Hn.
  { simpl in *. f_equal. unfold strlen. simpl. lia. }
  assert (Hd : 0 ≤ n mod 10 < 10) by (apply Z.mod_pos_bound; lia).
  assert (Hv : digit_value (digit (n mod 10)) = n mod 10)
    by (unfold digit_value; rewrite code_digit by done; lia).
  simpl. destruct (Z.ltb_spec n 10) as [Hlt|Hge].
  - simpl. rewrite Hv. f_equal. unfold strlen. simpl. rewrite Z.mod_small; lia.
  - assert (Hdiv : 0 ≤ n / 10 < 10 ^ Z.of_nat fuel).
    { split; [apply Z.div_pos; lia|]. apply Z.div_lt_upper_bound; [lia|].
      rewrite Nat2Z.inj_succ, Z.pow_succ_r in Hn; lia. }
    assert (Hlen : ∀ t, strlen (show_go fuel (n / 10) t) =
                        strlen (show_go fuel (n / 10) "") + strlen t).
    { clear. generalize (n / 10). induction fuel as [|fuel IH]; intros m t; simpl; [done|].
      destruct (m <? 10); [unfold strlen; simpl; lia|].
      rewrite IH, (IH _ (String _ "")). unfold strlen; simpl; lia. }
    rewrite IH by done. simpl. rewrite Hv. f_equal.
    rewrite (Hlen (String _ "")).
    replace (strlen (String (digit (n mod 10)) "")) with 1 by done.
    rewrite Z.pow_add_r by (auto using strlen_nonneg with lia).
    pose proof (Z.div_mod n 10). lia.
Qed.

(** The printed digits read back as the number. *)
Lemma read_show_dec n : 0 ≤ n ≤ u64_max → read_dec 0 (show_dec n) = n.
Proof. unfold u64_max. intros H. unfold show_dec. rewrite read_dec_acc; [simpl; lia|].
  change (10 ^ Z.of_nat 20) with 100000000000000000000. lia.
Qed.

Lemma show_dec_inj m n : 0 ≤ m ≤ u64_max → 0 ≤ n ≤ u64_max → show_dec m = show_dec n → m = n.
Proof. intros Hm Hn H. by rewrite <- (read_show_dec m), <- (read_show_dec n), H. Qed.

Lemma show_go_digits fuel n s :
  0 ≤ n → all_bytes is_ascii_digit s = true → all_bytes is_ascii_digit (show_go fuel n s) = true.
Proof.
  revert n s. induction fuel as [|fuel IH]; intros n s Hn Hs; simpl; [done|].
  assert (Hd : 0 ≤ n mod 10 < 10) by (apply Z.mod_pos_bound; lia).
  assert (Hs' : all_bytes is_ascii_digit (String (digit (n mod 10)) s) = true).
  { simpl. by rewrite digit_is_digit. }
  destruct (n <? 10); [done|]. apply IH; [|done]. apply Z.div_pos; lia.
Qed.

Lemma show_dec_digits n : 0 ≤ n → all_bytes is_ascii_digit (show_dec n) = true.
Proof. intros H. by apply show_go_digits. Qed.

Lemma show_go_length fuel n s :
  strlen s ≤ strlen (show_go fuel n s) ≤ Z.of_nat fuel + strlen s.
Proof.
  revert n s. induction fuel as [|fuel IH]; intros n s; simpl; [lia|].
  assert (strlen (String (digit (n mod 10)) s) = strlen s + 1) by (unfold strlen; simpl; lia).
  destruct (n <? 10); [lia|]. specialize (IH (n / 10) (String (digit (n mod 10)) s)). lia.
Qed.

Lemma show_go_short k : ∀ fuel n s, 0 ≤ n < 10 ^ Z.of_nat (S k) →
  strlen (show_go fuel n s) ≤ Z.of_nat (S k) + strlen s.
Proof.
  induction k as [|k IH]; intros [|fuel] n s Hn; simpl; try lia;
    assert (strlen (String (digit (n mod 10)) s) = strlen s + 1) by (unfold strlen; simpl; lia);
    destruct (Z.ltb_spec n 10); try lia.
  assert (0 ≤ n / 10 < 10 ^ Z.of_nat (S k)).
  { split; [apply Z.div_pos; lia|]. apply Z.div_lt_upper_bound; [lia|].
    rewrite Nat2Z.inj_succ, Z.pow_succ_r in Hn; lia. }
  specialize (IH fuel (n / 10) (String (digit (n mod 10)) s)). lia.
Qed.

Lemma show_i64_inj m n :
  - i64_max - 1 ≤ m ≤ i64_max → - i64_max - 1 ≤ n ≤ i64_max → show_i64 m = show_i64 n → m = n.
Proof.
  unfold show_i64, i64_max. intros Hm Hn.
  assert (Hneg : ∀ k s, 0 ≤ k → show_dec k = "-" +:+ s → False).
  { intros k s Hk He. pose proof (show_dec_digits k Hk) as Hd. rewrite He in Hd. done. }
  destruct (Z.ltb_spec m 0), (Z.ltb_spec n 0); intros He.
  - injection He as He. apply show_dec_inj in He; unfold u64_max; lia.
  - symmetry in He. apply Hneg in He; [done|lia].
  - apply Hneg in He; [done|lia].
  - apply show_dec_inj in He; unfold u64_max; lia.
Qed.

Lemma show_dec_short k n : 0 ≤ n < 10 ^ Z.of_nat (S k) → strlen (show_dec n) ≤ Z.of_nat (S k).
Proof. intros H. pose proof (show_go_short k 20 n "" H). unfold show_dec, strlen in *. simpl in *. lia. Qed.

Lemma show_dec_nonempty n : 0 < strlen (show_dec n).
Proof.
  unfold show_dec. simpl. destruct (n <? 10); [unfold strlen; simpl; lia|].
  pose proof (show_go_length 19 (n / 10) (String (digit (n mod 10)) "")) as H.
  unfold strlen in *. simpl in *. lia.
Qed.

Example show_dec_1000 : show_dec 1000 = "1000".
Proof. reflexivity. Qed.
Example show_dec4_7 : show_dec4 7 = "0007".
Proof. reflexivity. Qed.

Lemma split_once_Some c s before after :
  split_once c s = Some (before, after) → s = before +:+ String c after.
Proof.
  revert before. induction s as [|a s IH]; intros before; simpl; [done|].
  destruct (Ascii.eqb_spec a c) as [->|]; [by intros [= <- <-]|].
  destruct (split_once c s) as [[b t]|]; [|done]. intros [= <- <-]. simpl. by rewrite (IH b).
Qed.

Lemma read_dec_nonneg s acc : 0 ≤ acc → all_bytes is_ascii_digit s = true → 0 ≤ read_dec acc s.
Proof.
  revert acc. induction s as [|a s IH]; intros acc Hacc; simpl; [done|].
  rewrite andb_true_iff. intros [Ha Hs]. apply IH; [|done].
  unfold is_ascii_digit in Ha. apply contains_true in Ha. unfold digit_value. lia.
Qed.

Lemma parse_digits_nonneg s n : parse_digits s = Some n → 0 ≤ n.
Proof.
  unfold parse_digits. destruct (_ && _) eqn:H; [|done]. apply andb_true_iff in H as [_ H].
  intros [= <-]. by apply read_dec_nonneg.
Qed.

Lemma parse_i64_range s n : parse_i64 s = Some n → n ≤ i64_max.
Proof.
  unfold parse_i64. destruct (strip_prefix "-" s).
  - destruct (parse_digits _) as [k|] eqn:Hk; [|done]. apply parse_digits_nonneg in Hk.
    destruct (Z.leb_spec k (i64_max + 1)); [|done]. intros [= <-]. unfold i64_max. lia.
  - destruct (parse_digits _) as [k|]; [|done]. destruct (Z.leb_spec k i64_max); [|done].
    by intros [= <-].
Qed.

Lemma parse_i64_bounds s n : parse_i64 s = Some n → - i64_max - 1 ≤ n ≤ i64_max.
Proof.
  intros H. split; [|by eapply parse_i64_range]. revert H. unfold parse_i64.
  destruct (strip_prefix "-" s).
  - destruct (parse_digits _) as [k|] eqn:Hk; [|done]. apply parse_digits_nonneg in Hk.
    destruct (Z.leb_spec k (i64_max + 1)); [|done]. intros [= <-]. lia.
  - destruct (parse_digits _) as [k|] eqn:Hk; [|done]. apply parse_digits_nonneg in Hk.
    destruct (Z.leb_spec k i64_max); [|done]. intros [= <-]. unfold i64_max. lia.
Qed.

(** A digit string contains no byte outside the digits. *)
Lemma digits_without c s :
  is_ascii_digit c = false → all_bytes is_ascii_digit s = true →
  all_bytes (λ a, negb (Ascii.eqb a c)) s = true.
Proof.
  intros Hc. apply all_bytes_impl. intros a Ha. rewrite negb_true_iff.
  destruct (Ascii.eqb_spec a c) as [->|]; congruence.
Qed.

Lemma strlen_cons a s : strlen (String a s) = strlen s + 1.
Proof. unfold strlen. simpl. lia. Qed.

(** ** Characters *)

(** [value.chars()]: the code points of a UTF-8 byte string (a [&str] is valid UTF-8;
    a truncated sequence, which no [&str] holds, ends the list). *)
Fixpoint chars (s : string) : list Z :=
  match s with
  | EmptyString => []
  | String a s1 =>
      if code a <? 128 then code a :: chars s1
      else match s1 with
           | EmptyString => []
           | String b s2 =>
               if code a <? 224 then
                 (code a mod 32) * 64 + code b mod 64 :: chars s2
               else match s2 with
                    | EmptyString => []
                    | String c s3 =>
                        if code a <? 240 then
                          (code a mod 16) * 4096 + (code b mod 64) * 64 + code c mod 64
                            :: chars s3
                        else match s3 with
                             | EmptyString => []
                             | String d s4 =>
                                 (code a mod 8) * 262144 + (code b mod 64) * 4096
                                   + (code c mod 64) * 64 + code d mod 64 :: chars s4
                             end
                    end
           end
  end.

(** [char::is_whitespace] (the Unicode [White_Space] property). *)
Definition is_whitespace (c : Z) : bool :=
  contains 9 13 c || (c =? 32) || (c =? 133) || (c =? 160) || (c =? 5760)
  || contains 8192 8202 c || (c =? 8232) || (c =? 8233) || (c =? 8239) || (c =? 8287)
  || (c =? 12288).

(** [value.trim().is_empty()]. *)
Definition trim_is_empty (s : string) : bool := forallb is_whitespace (chars s).

(** [value.trim() == value]: no white space at either end. *)
Definition is_trimmed (s : string) : bool :=
  let cs := chars s in
  is_some_and (λ c, negb (is_whitespace c)) (head cs)
  && is_some_and (λ c, negb (is_whitespace c)) (last cs)
  || is_empty s.

(** The characters of an ASCII string are its bytes. *)
Lemma chars_ascii s : all_bytes (λ a, code a <? 128) s = true →
  chars s = code <$> list_ascii_of_string s.
Proof.
  induction s as [|a s IH]; simpl; [done|]. rewrite andb_true_iff. intros [-> Hs].
  by rewrite IH.
Qed.

Lemma trim_is_empty_empty : trim_is_empty "" = true.
Proof. done. Qed.

(** ** Byte order of strings ([Ord for str]) *)
Definition string_le (s t : string) : bool := String.leb s t.

Lemma string_compare_lt_trans s t u :
  String.compare s t = Lt → String.compare t u = Lt → String.compare s u = Lt.
Proof.
  revert t u. induction s as [|a s IH]; intros [|b t] [|c u]; simpl; try done.
  unfold Ascii.compare.
  destruct (N.compare_spec (N_of_ascii a) (N_of_ascii b)) as [Hab|Hab|Hab],
    (N.compare_spec (N_of_ascii b) (N_of_ascii c)) as [Hbc|Hbc|Hbc]; try done; intros H1 H2.
  - rewrite Hab, Hbc, N.compare_refl. eauto.
  - rewrite Hab. by apply N.compare_lt_iff in Hbc as ->.
  - rewrite <- Hbc. by apply N.compare_lt_iff in Hab as ->.
  - assert (N_of_ascii a < N_of_ascii c)%N as H by lia. by apply N.compare_lt_iff in H as ->.
Qed.

Lemma string_le_total s t : string_le s t = true ∨ string_le t s = true.
Proof.
  unfold string_le, String.leb. rewrite (String.compare_antisym t s).
  destruct (String.compare s t); simpl; auto.
Qed.

Lemma string_le_antisym s t : string_le s t = true → string_le t s = true → s = t.
Proof.
  unfold string_le, String.leb. rewrite (String.compare_antisym t s).
  destruct (String.compare s t) eqn:H; simpl; try done.
  intros _ _. by apply String.compare_eq_iff.
Qed.

Lemma string_le_trans s t u :
  string_le s t = true → string_le t u = true → string_le s u = true.
Proof.
  unfold string_le, String.leb.
  destruct (String.compare s t) eqn:Hst, (String.compare t u) eqn:Htu; try done; intros _ _.
  - apply String.compare_eq_iff in Hst as ->. by rewrite Htu.
  - apply String.compare_eq_iff in Hst as ->. by rewrite Htu.
  - apply String.compare_eq_iff in Htu as ->. by rewrite Hst.
  - by rewrite (string_compare_lt_trans s t u).
Qed.

(** Sorting strings then looking for equal neighbours finds every duplicate. *)
Lemma sort_strings_NoDup (l : list string) :
  any_adjacent String.eqb (sort_by string_le l) = false ↔ NoDup l.
Proof.
  rewrite <- (sort_by_Permutation string_le l) at 2.
  assert (Hs := sort_by_StronglySorted string_le string_le_total string_le_trans l).
  induction Hs as [|a k Hk IH Ha]; [split; [constructor|done]|].
  rewrite any_adjacent_false, NoDup_cons, <- IH, any_adjacent_false. split.
  - inversion 1 as [|?? Hs' Hd]; subst. split; [|done]. intros Hin.
    destruct k as [|b k]; [by apply elem_of_nil in Hin|].
    inversion Hd as [|?? Hne]; subst. apply String.eqb_neq in Hne. apply Hne.
    inversion Hk as [|?? Hk' Hb]; inversion Ha as [|?? Hab Hak]; subst.
    apply elem_of_cons in Hin as [?|Hin]; [done|].
    rewrite Forall_forall in Hb. apply string_le_antisym; [done|]. by apply Hb.
  - intros [Hnin Hs']. constructor; [done|]. destruct k as [|b k]; constructor.
    apply String.eqb_neq. intros ->. apply Hnin. left.
Qed.
