(* ===== verification/Float64.v ===== *)
(** * Float64: [f64] as IEEE-754 binary64

    An [f64] is a [spec_float] of the Standard Library with 53 bits of precision and
    a maximal exponent of 1024: the operations below are the correctly rounded ones,
    so a test such as [0.0 <= x && x <= 1.0] treats NaN, infinities and signed zeros
    as the hardware does.  A NaN has no payload or sign here.

    [f64::floor], [ceil], [round], the remainder and the casts to unsigned integers, on
    the numbers of [Float64]: a finite number is [m * 2^e], so each of them is exact
    integer arithmetic. *)

From Stdlib Require Import SpecFloat.
From S2P Require Import Prelude.

Definition f64 : Type := spec_float.

#[export] Instance spec_float_eq_dec : EqDecision spec_float.
Proof. solve_decision. Defined.

Definition f64_add (x y : f64) : f64 := SFadd 53 1024 x y.
Definition f64_sub (x y : f64) : f64 := SFsub 53 1024 x y.
Definition f64_mul (x y : f64) : f64 := SFmul 53 1024 x y.
Definition f64_div (x y : f64) : f64 := SFdiv 53 1024 x y.
Definition f64_abs (x : f64) : f64 := SFabs x.

(** [x < y], [x <= y], [x == y]: all false when an operand is NaN. *)
Definition f64_lt (x y : f64) : bool := SFltb x y.
Definition f64_le (x y : f64) : bool := SFleb x y.
Definition f64_eq (x y : f64) : bool := SFeqb x y.

(** [u32 as f64] and small literals: exact below 2^53. *)
Definition f64_of_Z (z : Z) : f64 := binary_normalize 53 1024 z 0 false.

(** The literal [m / 10^k], correctly rounded from the exact quotient. *)
Definition f64_dec (m : positive) (k : Z) : f64 :=
  SFdiv 53 1024 (S754_finite false m 0) (S754_finite false (Z.to_pos (10 ^ k)) 0).

Definition f64_zero : f64 := S754_zero false.
Definition f64_one : f64 := f64_of_Z 1.
Definition f64_infinity : f64 := S754_infinity false.
(** [f64::EPSILON], 2^-52. *)
Definition f64_epsilon : f64 := S754_finite false 4503599627370496 (-104).

Definition is_nan (x : f64) : bool := match x with S754_nan => true | _ => false end.
Definition is_finite (x : f64) : bool :=
  match x with
  | S754_zero _ | S754_finite _ _ _ => true
  | _ => false
  end.

(** [f64::min] and [f64::max] drop a NaN operand. *)
Definition f64_min (x y : f64) : f64 :=
  if is_nan x then y else if is_nan y then x else if f64_lt y x then y else x.
Definition f64_max (x y : f64) : f64 :=
  if is_nan x then y else if is_nan y then x else if f64_lt x y then y else x.

(** [(0.0..=1.0).contains(&x)]. *)
Definition in_unit (x : f64) : bool := f64_le f64_zero x && f64_le x f64_one.

(** [f64::to_bits] without the sign bit: exponent field, then fraction field. *)
Definition f64_magnitude_bits (x : f64) : Z :=
  match x with
  | S754_zero _ => 0
  | S754_infinity _ => 2047 * 2 ^ 52
  | S754_nan => 2047 * 2 ^ 52 + 2 ^ 51
  | S754_finite _ m e =>
      if 2 ^ 52 <=? Zpos m then (e + 1075) * 2 ^ 52 + (Zpos m - 2 ^ 52) else Zpos m
  end.

Definition f64_sign (x : f64) : bool :=
  match x with
  | S754_zero s | S754_infinity s | S754_finite s _ _ => s
  | S754_nan => false
  end.

(** [f64::total_cmp] compares these keys: the bits as an [i64], the low 63 bits of a
    negative number flipped. *)
Definition total_key (x : f64) : Z :=
  if f64_sign x then -1 - f64_magnitude_bits x else f64_magnitude_bits x.
Definition total_cmp (x y : f64) : comparison := Z.compare (total_key x) (total_key y).

(** [Ordering::then_with]. *)
Definition then_with (c d : comparison) : comparison :=
  match c with
  | Eq => d
  | _ => c
  end.

(** What [sort_by] does with a comparison: [a] may stay before [b]. *)
Definition not_greater (c : comparison) : bool :=
  match c with
  | Gt => false
  | _ => true
  end.

Example f64_dec_tenth : f64_dec 1 1 = S754_finite false 7205759403792794 (-56).
Proof. reflexivity. Qed.
Example f64_one_bits : f64_magnitude_bits f64_one = 1023 * 2 ^ 52.
Proof. reflexivity. Qed.
Example f64_sum : f64_eq (f64_add (f64_dec 1 1) (f64_dec 2 1)) (f64_dec 3 1) = false.
Proof. reflexivity. Qed.

(** ** Comparison lemmas *)

(** A number in the unit interval is finite, so the explicit [is_finite] test and the
    range test agree on NaN and infinities. *)
Lemma in_unit_finite x : in_unit x = true → is_finite x = true.
Proof. by destruct x as [s|[]| |s m e]. Qed.

Lemma in_unit_nan : in_unit S754_nan = false.
Proof. done. Qed.

Lemma f64_lt_irrefl x : f64_lt x x = false.
Proof.
  destruct x as [s|[]| |[] m e]; try done; unfold f64_lt, SFltb; simpl;
    rewrite Z.compare_refl; change (Pos.compare_cont Eq m m) with (Pos.compare m m);
    by rewrite Pos.compare_refl.
Qed.

Lemma total_cmp_Eq x y : total_cmp x y = Eq ↔ total_key x = total_key y.
Proof. apply Z.compare_eq_iff. Qed.

#[local] Open Scope Z_scope.

(** The finite number [m * 2^e] rounded down to an integer, and its remainder in units
    of [2^e] when [e] is negative. *)
Definition scaled_floor (m e : Z) : Z := if 0 <=? e then m * 2 ^ e else m / 2 ^ (- e).

Definition signed_mantissa (sign : bool) (m : positive) : Z := if sign then Zneg m else Zpos m.

(** The nearest integers to a number: [None] for NaN and the infinities. *)
Definition floor_Z (x : f64) : option Z :=
  match x with
  | S754_zero _ => Some 0
  | S754_finite s m e => Some (scaled_floor (signed_mantissa s m) e)
  | _ => None
  end.

Definition ceil_Z (x : f64) : option Z :=
  match x with
  | S754_zero _ => Some 0
  | S754_finite s m e => Some (- scaled_floor (- signed_mantissa s m) e)
  | _ => None
  end.

(** Half way cases go away from zero. *)
Definition round_Z (x : f64) : option Z :=
  match x with
  | S754_zero _ => Some 0
  | S754_finite s m e =>
      let magnitude :=
        if 0 <=? e then Zpos m * 2 ^ e else (2 * Zpos m + 2 ^ (- e)) / 2 ^ (1 - e) in
      Some (if s then - magnitude else magnitude)
  | _ => None
  end.

Definition trunc_Z (x : f64) : option Z :=
  match x with
  | S754_zero _ => Some 0
  | S754_finite s m e =>
      let magnitude := scaled_floor (Zpos m) e in
      Some (if s then - magnitude else magnitude)
  | _ => None
  end.

(** A rounding as a number again: the sign of a zero is that of the operand. *)
Definition rounded (rounding : f64 → option Z) (x : f64) : f64 :=
  match rounding x with
  | Some z => binary_normalize 53 1024 z 0 (f64_sign x)
  | None => x
  end.

Definition f64_floor (x : f64) : f64 := rounded floor_Z x.
Definition f64_ceil (x : f64) : f64 := rounded ceil_Z x.
Definition f64_round (x : f64) : f64 := rounded round_Z x.

(** [x as u32] and its fellows: the integer part, clamped; zero for NaN. *)
Definition as_unsigned (maximum : Z) (x : f64) : Z :=
  match x with
  | S754_nan => 0
  | S754_infinity s => if s then 0 else maximum
  | _ => Z.max 0 (Z.min maximum (default 0 (trunc_Z x)))
  end.

(** [x % n] for a positive integer [n]: the exact remainder, with the sign of [x]. *)
Definition f64_rem (x : f64) (n : Z) : f64 :=
  match x with
  | S754_zero _ => x
  | S754_finite s m e =>
      let shift := Z.max 0 (- e) in
      let magnitude := (Zpos m * 2 ^ Z.max 0 e) mod (n * 2 ^ shift) in
      binary_normalize 53 1024 (if s then - magnitude else magnitude) (- shift) s
  | _ => S754_nan
  end.

(** [x.rem_euclid(n)] for a positive integer [n]. *)
Definition rem_euclid (x : f64) (n : Z) : f64 :=
  let r := f64_rem x n in
  if f64_lt r f64_zero then f64_add r (f64_of_Z n) else r.

Definition f64_clamp (lo hi x : f64) : f64 :=
  if f64_lt x lo then lo else if f64_lt hi x then hi else x.

Example round_half : round_Z (f64_dec 25 1) = Some 3 ∧ round_Z (f64_dec 24 1) = Some 2.
Proof. split; reflexivity. Qed.
Example round_neg : round_Z (SFopp (f64_dec 25 1)) = Some (-3).
Proof. reflexivity. Qed.
Example round_large : round_Z (f64_of_Z (- 2 ^ 60)) = Some (- 2 ^ 60).
Proof. reflexivity. Qed.
Example ceil_page : ceil_Z (f64_div (f64_mul (f64_of_Z 612) (f64_of_Z 300)) (f64_of_Z 72)) = Some 2550.
Proof. reflexivity. Qed.
Example rem_turn : rem_euclid (f64_of_Z (-90)) 180 = f64_of_Z 90.
Proof. reflexivity. Qed.
Example rem_part : f64_rem (f64_dec 905 1) 90 = f64_dec 5 1.
Proof. reflexivity. Qed.

Lemma as_unsigned_range maximum x : 0 ≤ maximum → in_width maximum (as_unsigned maximum x).
Proof.
  intros Hmax. unfold in_width, as_unsigned.
  destruct x as [s|s| |s m e]; [| | |]; try destruct s; simpl; try lia.
Qed.

(** The floor and the ceiling are the integers around the number [m * 2^e]. *)
Lemma floor_Z_spec s m e z : e < 0 → floor_Z (S754_finite s m e) = Some z →
  z * 2 ^ (- e) ≤ signed_mantissa s m < (z + 1) * 2 ^ (- e).
Proof.
  intros He [= <-]. unfold scaled_floor. rewrite (proj2 (Z.leb_gt _ _)) by lia.
  assert (0 < 2 ^ (- e)) by (apply Z.pow_pos_nonneg; lia).
  pose proof (Z.mul_div_le (signed_mantissa s m) (2 ^ (- e))).
  pose proof (Z.mul_succ_div_gt (signed_mantissa s m) (2 ^ (- e))). nia.
Qed.

Lemma ceil_Z_spec s m e z : e < 0 → ceil_Z (S754_finite s m e) = Some z →
  (z - 1) * 2 ^ (- e) < signed_mantissa s m ≤ z * 2 ^ (- e).
Proof.
  intros He [= <-]. unfold scaled_floor. rewrite (proj2 (Z.leb_gt _ _)) by lia.
  assert (0 < 2 ^ (- e)) by (apply Z.pow_pos_nonneg; lia).
  pose proof (Z.mul_div_le (- signed_mantissa s m) (2 ^ (- e))).
  pose proof (Z.mul_succ_div_gt (- signed_mantissa s m) (2 ^ (- e))). nia.
Qed.
