(* ===== verification/DomainTypes.v ===== *)
(** * DomainTypes: job states and the error type of the domain crate

    Models the enums of [src/crates/ocr-domain/src/lib.rs] that every other part of
    the domain refers to. *)

From S2P Require Import Prelude.

Definition MAXIMUM_DOCUMENT_RESULT_BYTES : Z := 64 * 1024 * 1024.
Definition MAXIMUM_PAGE_COUNT : Z := 1000.
Definition MAXIMUM_PAGE_ATTEMPTS : Z := 10.
Definition MAXIMUM_TOTAL_PAGE_PIXELS : Z := MAXIMUM_PAGE_COUNT * 100000000.

Inductive JobState :=
| Accepted
| Inspecting
| Processing
| Validating
| Cancelling
| Cancelled
| Rejected
| Partial
| ReviewRequired
| Completed.

#[export] Instance JobState_eq_dec : EqDecision JobState.
Proof. solve_decision. Defined.

Inductive Error :=
| InvalidConfidence
| InvalidPageNumber
| InvalidPageGeometry
| InvalidPoint
| InvalidPolygon
| MissingEvidence
| InvalidDocumentId
| InvalidDocumentVersion
| InvalidObservationId
| InvalidInitialJobState
| InvalidJobTransition (from to : JobState)
| InvalidTenantId
| InvalidProductId
| InvalidJobId
| InvalidUploadId
| InvalidWebhookSubscriptionId
| InvalidIdempotencyKey
| InvalidRequestDigest
| UnsupportedResultSchemaVersion
| InvalidStableCode
| InvalidTableId
| InvalidTable
| MissingDocumentEvidence
| InvalidFieldName
| InvalidProcessingProvenance
| InvalidCost
| InvalidTextObservation
| InvalidDocumentPage
| InvalidPageWorkflow
| StalePageTask
| InvalidMemoryRecordId
| InvalidMemoryRecordVersion
| InvalidEmbeddingVersion
| InvalidSemanticCollection
| InvalidSemanticQueryScope
| InvalidChunkId
| InvalidVectorPointMetadata.

#[export] Instance Error_eq_dec : EqDecision Error.
Proof. solve_decision. Defined.
