(* ===== verification/Identifiers.v ===== *)
(** * Identifiers: the validated string newtypes of the domain crate

    Models the identifier types of [ocr-domain/src/lib.rs] and
    [ocr-domain/src/semantic_memory.rs].  Each newtype is a record around its string;
    [X_new] is [X::new] (also used by [TryFrom<String>], i.e. by deserialization) and
    the projection is [From<X> for String].  [DomainId] is the interface the rest of
    the development uses: an identifier is its string, and a constructed identifier
    survives serialization. *)

From S2P Require Import Prelude Text DomainTypes.

(** [validated_id]: prefix, then 1 to 64 letters, digits or underscores. *)
Definition id_byte (a : ascii) : bool := is_ascii_alphanumeric a || Ascii.eqb a "_".

Definition validated_id (value prefix : string) (error : Error) : result Error string :=
  let suffix := unwrap_or_default (strip_prefix prefix value) in
  if negb (is_empty suffix) && (strlen suffix <=? 64) && all_bytes id_byte suffix
  then Ok value else Err error.

(** [is_canonical_sha256]. *)
Definition lower_hexdigit (a : ascii) : bool := is_ascii_hexdigit a && negb (is_ascii_uppercase a).

Definition is_canonical_sha256 (value : string) : bool :=
  let digest := unwrap_or_default (strip_prefix "sha256:" value) in
  (strlen digest =? 64) && all_bytes lower_hexdigit digest.

(** [valid_length && valid_edges && valid_characters] of [ProductId::new]. *)
Definition product_byte (a : ascii) : bool :=
  is_ascii_lowercase a || is_ascii_digit a || Ascii.eqb a "-".

Definition alphanumeric_edges (value : string) : bool :=
  is_some_and is_ascii_alphanumeric (first_byte value)
  && is_some_and is_ascii_alphanumeric (last_byte value).

(** ** The newtypes *)

Record TenantId := mkTenantId { TenantId_str : string }.
Definition TenantId_new (value : string) : result Error TenantId :=
  let? s := validated_id value "ten_" InvalidTenantId in Ok (mkTenantId s).

Record ProductId := mkProductId { ProductId_str : string }.
Definition ProductId_new (value : string) : result Error ProductId :=
  let valid_length := negb (is_empty value) && (strlen value <=? 63) in
  let valid_edges := alphanumeric_edges value in
  let valid_characters := all_bytes product_byte value in
  if valid_length && valid_edges && valid_characters
  then Ok (mkProductId value) else Err InvalidProductId.

Record JobId := mkJobId { JobId_str : string }.
Definition JobId_new (value : string) : result Error JobId :=
  let? s := validated_id value "job_" InvalidJobId in Ok (mkJobId s).

Record UploadId := mkUploadId { UploadId_str : string }.
Definition UploadId_new (value : string) : result Error UploadId :=
  let? s := validated_id value "upl_" InvalidUploadId in Ok (mkUploadId s).

Record WebhookSubscriptionId := mkWebhookSubscriptionId { WebhookSubscriptionId_str : string }.
Definition WebhookSubscriptionId_new (value : string) : result Error WebhookSubscriptionId :=
  let? s := validated_id value "whs_" InvalidWebhookSubscriptionId in
  Ok (mkWebhookSubscriptionId s).

Record IdempotencyKey := mkIdempotencyKey { IdempotencyKey_str : string }.
Definition IdempotencyKey_new (value : string) : result Error IdempotencyKey :=
  if negb (is_empty value) && (strlen value <=? 128) && all_bytes is_ascii_graphic value
  then Ok (mkIdempotencyKey value) else Err InvalidIdempotencyKey.

Record RequestDigest := mkRequestDigest { RequestDigest_str : string }.
Definition RequestDigest_new (value : string) : result Error RequestDigest :=
  if is_canonical_sha256 value then Ok (mkRequestDigest value) else Err InvalidRequestDigest.

Record DocumentId := mkDocumentId { DocumentId_str : string }.
Definition DocumentId_new (value : string) : result Error DocumentId :=
  let? s := validated_id value "doc_" InvalidDocumentId in Ok (mkDocumentId s).

Record DocumentVersion := mkDocumentVersion { DocumentVersion_str : string }.
Definition DocumentVersion_new (value : string) : result Error DocumentVersion :=
  if is_canonical_sha256 value then Ok (mkDocumentVersion value) else Err InvalidDocumentVersion.

Record ObservationId := mkObservationId { ObservationId_str : string }.
Definition ObservationId_try_from (value : string) : result Error ObservationId :=
  let? s := validated_id value "obs_" InvalidObservationId in Ok (mkObservationId s).

Record TableId := mkTableId { TableId_str : string }.
Definition TableId_new (value : string) : result Error TableId :=
  let? s := validated_id value "tbl_" InvalidTableId in Ok (mkTableId s).

(** [StableCode]: a lower-case letter, then lower-case letters, digits, underscores. *)
Definition stable_byte (a : ascii) : bool :=
  is_ascii_lowercase a || is_ascii_digit a || Ascii.eqb a "_".

Record StableCode := mkStableCode { StableCode_str : string }.
Definition StableCode_new (value : string) : result Error StableCode :=
  let valid :=
    contains 1 64 (strlen value)
    && match value with
       | EmptyString => false
       | String first rest => is_ascii_lowercase first && all_bytes stable_byte rest
       end in
  if valid then Ok (mkStableCode value) else Err InvalidStableCode.

Record MemoryRecordId := mkMemoryRecordId { MemoryRecordId_str : string }.
Definition MemoryRecordId_new (value : string) : result Error MemoryRecordId :=
  let? s := validated_id value "mem_" InvalidMemoryRecordId in Ok (mkMemoryRecordId s).

Record ChunkId := mkChunkId { ChunkId_str : string }.
Definition ChunkId_new (value : string) : result Error ChunkId :=
  let? s := validated_id value "chk_" InvalidChunkId in Ok (mkChunkId s).

Record MemoryRecordVersion := mkMemoryRecordVersion { MemoryRecordVersion_str : string }.
Definition MemoryRecordVersion_new (value : string) : result Error MemoryRecordVersion :=
  if is_canonical_sha256 value
  then Ok (mkMemoryRecordVersion value) else Err InvalidMemoryRecordVersion.

Definition embedding_byte (a : ascii) : bool :=
  is_ascii_lowercase a || is_ascii_digit a || byte_in "._-" a.

Record EmbeddingVersion := mkEmbeddingVersion { EmbeddingVersion_str : string }.
Definition EmbeddingVersion_new (value : string) : result Error EmbeddingVersion :=
  let suffix := unwrap_or_default (strip_prefix "emb_" value) in
  if negb (is_empty suffix) && (strlen suffix <=? 64) && alphanumeric_edges suffix
     && all_bytes embedding_byte suffix
  then Ok (mkEmbeddingVersion value) else Err InvalidEmbeddingVersion.

(** ** The interface of an identifier *)

Class DomainId (T : Type) := {
  id_str : T → string;
  id_new : string → result Error T;
  id_new_str : ∀ value t, id_new value = Ok t → id_str t = value;
  id_str_inj : ∀ t u, id_str t = id_str u → t = u;
}.

(** Closes the two laws of a newtype around its string. *)
Ltac solve_domain_id :=
  [> intros value [s] H;
     cbv [TenantId_new ProductId_new JobId_new UploadId_new WebhookSubscriptionId_new
          IdempotencyKey_new RequestDigest_new DocumentId_new DocumentVersion_new
          ObservationId_try_from TableId_new StableCode_new MemoryRecordId_new ChunkId_new
          MemoryRecordVersion_new EmbeddingVersion_new validated_id and_then] in H;
     repeat match type of H with context [if ?b then _ else _] => destruct b end;
     simplify_eq; reflexivity
   | intros [s] [t]; simpl; congruence ].

#[export, refine] Instance TenantId_id : DomainId TenantId :=
  {| id_str := TenantId_str; id_new := TenantId_new |}.
Proof. all: solve_domain_id. Defined.
#[export, refine] Instance ProductId_id : DomainId ProductId :=
  {| id_str := ProductId_str; id_new := ProductId_new |}.
Proof. all: solve_domain_id. Defined.
#[export, refine] Instance JobId_id : DomainId JobId :=
  {| id_str := JobId_str; id_new := JobId_new |}.
Proof. all: solve_domain_id. Defined.
#[export, refine] Instance UploadId_id : DomainId UploadId :=
  {| id_str := UploadId_str; id_new := UploadId_new |}.
Proof. all: solve_domain_id. Defined.
#[export, refine] Instance WebhookSubscriptionId_id : DomainId WebhookSubscriptionId :=
  {| id_str := WebhookSubscriptionId_str; id_new := WebhookSubscriptionId_new |}.
Proof. all: solve_domain_id. Defined.
#[export, refine] Instance IdempotencyKey_id : DomainId IdempotencyKey :=
  {| id_str := IdempotencyKey_str; id_new := IdempotencyKey_new |}.
Proof. all: solve_domain_id. Defined.
#[export, refine] Instance RequestDigest_id : DomainId RequestDigest :=
  {| id_str := RequestDigest_str; id_new := RequestDigest_new |}.
Proof. all: solve_domain_id. Defined.
#[export, refine] Instance DocumentId_id : DomainId DocumentId :=
  {| id_str := DocumentId_str; id_new := DocumentId_new |}.
Proof. all: solve_domain_id. Defined.
#[export, refine] Instance DocumentVersion_id : DomainId DocumentVersion :=
  {| id_str := DocumentVersion_str; id_new := DocumentVersion_new |}.
Proof. all: solve_domain_id. Defined.
#[export, refine] Instance ObservationId_id : DomainId ObservationId :=
  {| id_str := ObservationId_str; id_new := ObservationId_try_from |}.
Proof. all: solve_domain_id. Defined.
#[export, refine] Instance TableId_id : DomainId TableId :=
  {| id_str := TableId_str; id_new := TableId_new |}.
Proof. all: solve_domain_id. Defined.
#[export, refine] Instance StableCode_id : DomainId StableCode :=
  {| id_str := StableCode_str; id_new := StableCode_new |}.
Proof. all: solve_domain_id. Defined.
#[export, refine] Instance MemoryRecordId_id : DomainId MemoryRecordId :=
  {| id_str := MemoryRecordId_str; id_new := MemoryRecordId_new |}.
Proof. all: solve_domain_id. Defined.
#[export, refine] Instance ChunkId_id : DomainId ChunkId :=
  {| id_str := ChunkId_str; id_new := ChunkId_new |}.
Proof. all: solve_domain_id. Defined.
#[export, refine] Instance MemoryRecordVersion_id : DomainId MemoryRecordVersion :=
  {| id_str := MemoryRecordVersion_str; id_new := MemoryRecordVersion_new |}.
Proof. all: solve_domain_id. Defined.
#[export, refine] Instance EmbeddingVersion_id : DomainId EmbeddingVersion :=
  {| id_str := EmbeddingVersion_str; id_new := EmbeddingVersion_new |}.
Proof. all: solve_domain_id. Defined.

(** An identifier is valid when its constructor accepts its own string. *)
Definition id_valid {T : Type} `{DomainId T} (t : T) : Prop := id_new (id_str t) = Ok t.

Section DomainId.
Context {T : Type} `{DomainId T}.

(** The constructor keeps the string it accepts, so what it built is valid. *)
Lemma id_new_valid value t : id_new value = Ok t → id_valid t.
Proof. intros Hn. unfold id_valid. by rewrite (id_new_str _ _ Hn). Qed.

#[export] Instance domain_id_eq_dec : EqDecision T.
Proof.
  intros t u. destruct (decide (id_str t = id_str u)) as [He|Hne].
  - left. by apply id_str_inj.
  - right. congruence.
Defined.
End DomainId.

(** Equality of two identifiers is equality of their strings ([derive(PartialEq)]). *)
Definition id_eqb {T : Type} `{DomainId T} (t u : T) : bool := String.eqb (id_str t) (id_str u).

Lemma id_eqb_spec {T : Type} `{DomainId T} (t u : T) : reflect (t = u) (id_eqb t u).
Proof.
  unfold id_eqb. destruct (String.eqb_spec (id_str t) (id_str u)) as [He|Hne].
  - left. by apply id_str_inj.
  - right. congruence.
Qed.

Lemma id_eqb_refl {T : Type} `{DomainId T} (t : T) : id_eqb t t = true.
Proof. unfold id_eqb. apply String.eqb_refl. Qed.

Lemma id_eqb_true {T : Type} `{DomainId T} (t u : T) : id_eqb t u = true ↔ t = u.
Proof. destruct (id_eqb_spec t u); split; congruence. Qed.

#[export] Instance TenantId_countable : Countable TenantId :=
  inj_countable' TenantId_str mkTenantId (λ t, match t with mkTenantId _ => eq_refl end).
#[export] Instance ProductId_countable : Countable ProductId :=
  inj_countable' ProductId_str mkProductId (λ t, match t with mkProductId _ => eq_refl end).
#[export] Instance JobId_countable : Countable JobId :=
  inj_countable' JobId_str mkJobId (λ t, match t with mkJobId _ => eq_refl end).
#[export] Instance UploadId_countable : Countable UploadId :=
  inj_countable' UploadId_str mkUploadId (λ t, match t with mkUploadId _ => eq_refl end).
#[export] Instance WebhookSubscriptionId_countable : Countable WebhookSubscriptionId :=
  inj_countable' WebhookSubscriptionId_str mkWebhookSubscriptionId (λ t, match t with mkWebhookSubscriptionId _ => eq_refl end).
#[export] Instance IdempotencyKey_countable : Countable IdempotencyKey :=
  inj_countable' IdempotencyKey_str mkIdempotencyKey (λ t, match t with mkIdempotencyKey _ => eq_refl end).
#[export] Instance ObservationId_countable : Countable ObservationId :=
  inj_countable' ObservationId_str mkObservationId (λ t, match t with mkObservationId _ => eq_refl end).

(** ** What the validators accept *)

Lemma validated_id_Ok value prefix error s :
  validated_id value prefix error = Ok s ↔
  s = value ∧ ∃ suffix, value = prefix +:+ suffix ∧ 1 ≤ strlen suffix ≤ 64
                        ∧ all_bytes id_byte suffix = true.
Proof.
  unfold validated_id. split.
  - destruct (strip_prefix prefix value) as [suffix|] eqn:Hp; simpl; [|done].
    apply strip_prefix_Some in Hp as ->.
    destruct (is_empty suffix) eqn:He; [done|]. apply is_empty_false in He.
    destruct (Z.leb_spec (strlen suffix) 64); [|done].
    destruct (all_bytes id_byte suffix) eqn:Hb; simpl; [|done].
    intros [= <-]. split; [done|]. exists suffix. split_and!; [done|lia|lia|done].
  - intros [-> (suffix & -> & Hlen & Hb)]. rewrite strip_prefix_append. simpl.
    rewrite Hb. replace (is_empty suffix) with false.
    + replace (strlen suffix <=? 64) with true; [done|]. symmetry. apply Z.leb_le. lia.
    + symmetry. apply is_empty_false. lia.
Qed.

Lemma validated_id_error value prefix error :
  is_ok (validated_id value prefix error) = false →
  validated_id value prefix error = Err error.
Proof. unfold validated_id. by destruct (_ && _ && _). Qed.

Lemma JobId_valid_suffix j : id_valid j → ∃ suffix, JobId_str j = "job_" +:+ suffix
  ∧ 1 ≤ strlen suffix ≤ 64 ∧ all_bytes id_byte suffix = true.
Proof.
  unfold id_valid. simpl. unfold JobId_new.
  destruct (validated_id _ _ _) as [s|] eqn:Hv; simpl; [|done]. intros _.
  apply validated_id_Ok in Hv as [_ ?]. done.
Qed.

(** A valid identifier never contains ["-"], the separator of composed keys. *)
Lemma id_byte_no_dash s : all_bytes id_byte s = true →
  all_bytes (λ a, negb (Ascii.eqb a "-")) s = true.
Proof. apply all_bytes_impl. intros a. destruct (Ascii.eqb_spec a "-") as [->|]; done. Qed.

Lemma JobId_no_dash j : id_valid j → all_bytes (λ a, negb (Ascii.eqb a "-")) (JobId_str j) = true.
Proof.
  intros (suffix & -> & _ & Hb)%JobId_valid_suffix.
  rewrite all_bytes_append. simpl. by apply id_byte_no_dash.
Qed.
