(* ===== verification/Digest.v ===== *)
(** * Digest: bytes, hexadecimal text and digests

    Models [ocr-service/src/digest.rs].  The digest functions are third-party: a digest
    is a list of bytes, integers from 0 to 255. *)

From S2P Require Import Prelude Text DomainTypes Identifiers.

#[local] Open Scope list_scope.
#[local] Open Scope Z_scope.

(** [value.as_bytes()]. *)
Fixpoint string_bytes (s : string) : list Z :=
  match s with
  | EmptyString => []
  | String a s' => code a :: string_bytes s'
  end.

Definition HEX_DIGITS : string := "0123456789abcdef".

(** [HEX_DIGITS[d as usize] as char]. *)
Definition hex_digit (d : Z) : ascii := default "0"%char (String.get (Z.to_nat d) HEX_DIGITS).

Fixpoint hex_encode (value : list Z) : string :=
  match value with
  | [] => ""
  | byte :: value =>
      String (hex_digit (Z.shiftr byte 4)) (String (hex_digit (Z.land byte 15)) (hex_encode value))
  end.

Definition sha256_digest (value : list Z) : string := "sha256:" +:+ hex_encode value.

(** ** Lemmas *)

Lemma string_bytes_app s t : string_bytes (s +:+ t) = string_bytes s ++ string_bytes t.
Proof. induction s; simpl; congruence. Qed.

Lemma string_bytes_length s : Z.of_nat (length (string_bytes s)) = strlen s.
Proof. unfold strlen. induction s; simpl; lia. Qed.

Lemma string_bytes_inj s t : string_bytes s = string_bytes t → s = t.
Proof.
  revert t. induction s as [|a s IH]; intros [|b t]; simpl; try done.
  intros [= Hab Hst]. apply code_inj in Hab as ->. f_equal. by apply IH.
Qed.

Lemma hex_encode_length value : strlen (hex_encode value) = 2 * zlen value.
Proof.
  induction value as [|b value IH]; [done|]. cbn [hex_encode]. rewrite !strlen_cons, zlen_cons. lia.
Qed.

Lemma byte_nibbles b : 0 ≤ b < 256 → 0 ≤ Z.shiftr b 4 < 16 ∧ 0 ≤ Z.land b 15 < 16.
Proof.
  intros Hb. rewrite Z.shiftr_div_pow2 by lia. change 15 with (Z.ones 4).
  rewrite Z.land_ones by lia. split; [|apply Z.mod_pos_bound; lia].
  split; [apply Z.div_pos; lia|apply Z.div_lt_upper_bound; lia].
Qed.

(** Every byte reads back from its two digits. *)
Lemma hex_digit_value d : 0 ≤ d < 16 →
  lower_hexdigit (hex_digit d) = true
  ∧ (if is_ascii_digit (hex_digit d) then code (hex_digit d) - 48 else code (hex_digit d) - 87) = d.
Proof.
  intros Hd. assert (Hall : forallb (λ d, lower_hexdigit (hex_digit d)
    && ((if is_ascii_digit (hex_digit d) then code (hex_digit d) - 48
         else code (hex_digit d) - 87) =? d)) (map Z.of_nat (List.seq 0 16)) = true) by reflexivity.
  rewrite forallb_forall in Hall. specialize (Hall d).
  rewrite andb_true_iff, Z.eqb_eq in Hall. apply Hall.
  rewrite <- (Z2Nat.id d) by lia. apply in_map, in_seq. lia.
Qed.

Lemma hex_encode_digits value :
  Forall (λ b, 0 ≤ b < 256) value → all_bytes lower_hexdigit (hex_encode value) = true.
Proof.
  induction 1 as [|b value Hb _ IH]; [done|]. cbn [hex_encode all_bytes].
  destruct (byte_nibbles b Hb) as [Hh Hl]. rewrite IH.
  by rewrite (proj1 (hex_digit_value _ Hh)), (proj1 (hex_digit_value _ Hl)).
Qed.

(** Different byte strings have different digits. *)
Lemma hex_encode_inj value value' :
  Forall (λ b, 0 ≤ b < 256) value → Forall (λ b, 0 ≤ b < 256) value' →
  hex_encode value = hex_encode value' → value = value'.
Proof.
  intros Hv. revert value'. induction Hv as [|b value Hb _ IH]; intros value' Hv' Heq.
  - by destruct Hv'.
  - destruct Hv' as [|b' value' Hb' Hv']; [done|]. cbn [hex_encode] in Heq.
    injection Heq as Hhi Hlo Hrest. f_equal; [|by apply IH].
    destruct (byte_nibbles b Hb) as [Hh Hl], (byte_nibbles b' Hb') as [Hh' Hl'].
    pose proof (proj2 (hex_digit_value _ Hh)) as E1. pose proof (proj2 (hex_digit_value _ Hh')) as E2.
    pose proof (proj2 (hex_digit_value _ Hl)) as E3. pose proof (proj2 (hex_digit_value _ Hl')) as E4.
    rewrite Hhi in E1. rewrite Hlo in E3. assert (Ehi : Z.shiftr b 4 = Z.shiftr b' 4) by congruence.
    assert (Elo : Z.land b 15 = Z.land b' 15) by congruence.
    rewrite !Z.shiftr_div_pow2 in Ehi by lia. change 15 with (Z.ones 4) in Elo.
    rewrite !Z.land_ones in Elo by lia. change (2 ^ 4) with 16 in *.
    pose proof (Z.div_mod b 16). pose proof (Z.div_mod b' 16). lia.
Qed.

(** A digest of 32 bytes has the canonical text form. *)
Lemma sha256_digest_canonical value :
  length value = 32%nat → Forall (λ b, 0 ≤ b < 256) value →
  is_canonical_sha256 (sha256_digest value) = true.
Proof.
  intros Hlen Hall. unfold is_canonical_sha256, sha256_digest. rewrite strip_prefix_append.
  cbn [unwrap_or_default]. rewrite hex_encode_length, hex_encode_digits by done.
  unfold zlen. by rewrite Hlen.
Qed.
