(* ===== verification/PageWorkflow.v ===== *)
(** * PageWorkflow: the per-job page checkpoint

    Models [ocr-domain/src/page_workflow.rs]: the progress of every page of a job,
    the claims handed to workers and the recording of their outcomes.  A method on
    [&mut self] is a function that returns the new workflow; a failing one returns
    its error alone, since every caller drops the workflow it failed on. *)

From S2P Require Import Prelude Text DomainTypes Identifiers.
From stdpp Require Export relations.

#[local] Open Scope Z_scope.

Module PageWorkflowStatus.
Inductive PageWorkflowStatus := Running | Completed | Partial | Cancelled.

#[export] Instance PageWorkflowStatus_eq_dec : EqDecision PageWorkflowStatus.
Proof. solve_decision. Defined.
End PageWorkflowStatus.
Export (hints) PageWorkflowStatus.

Record PageTask := mkPageTask {
  task_page : Z;
  task_attempt : Z;
  task_activity_key : string;
}.

#[export] Instance PageTask_eq_dec : EqDecision PageTask.
Proof. solve_decision. Defined.

Module PageProgress.
Inductive PageProgress :=
| Pending (failures : Z)
| Running (attempt : Z)
| Succeeded (attempt : Z)
| Exhausted (attempts : Z)
| PermanentlyFailed (attempt : Z).

#[export] Instance PageProgress_eq_dec : EqDecision PageProgress.
Proof. solve_decision. Defined.
End PageProgress.
Export (hints) PageProgress.
Import PageProgress (PageProgress, Pending, Succeeded, Exhausted, PermanentlyFailed).

Record PageWorkflow := mkPageWorkflow {
  workflow_job_id : JobId;
  max_attempts : Z;
  pages : list PageProgress;
  cancelled : bool;
}.

#[export] Instance PageWorkflow_eq_dec : EqDecision PageWorkflow.
Proof. solve_decision. Defined.

Definition with_pages (self : PageWorkflow) (pages' : list PageProgress) : PageWorkflow :=
  {| workflow_job_id := workflow_job_id self; max_attempts := max_attempts self;
     pages := pages'; cancelled := cancelled self |}.

(** The wire form: the same fields, unchecked. *)
Record RawPageWorkflow := mkRawPageWorkflow {
  raw_job_id : JobId;
  raw_max_attempts : Z;
  raw_pages : list PageProgress;
  raw_cancelled : bool;
}.

(** [derive(Serialize)]. *)
Definition to_raw (self : PageWorkflow) : RawPageWorkflow :=
  {| raw_job_id := workflow_job_id self; raw_max_attempts := max_attempts self;
     raw_pages := pages self; raw_cancelled := cancelled self |}.

(** The page test of [TryFrom<RawPageWorkflow>]: [true] rejects the checkpoint. *)
Definition progress_invalid (max : Z) (page : PageProgress) : bool :=
  match page with
  | Pending failures => max <=? failures
  | PageProgress.Running attempt => (attempt =? 0) || (max <? attempt)
  | Succeeded attempt => (attempt =? 0) || (max <? attempt)
  | Exhausted attempts => negb (attempts =? max)
  | PermanentlyFailed attempt => (attempt =? 0) || (max <? attempt)
  end.

Definition PageWorkflow_try_from (value : RawPageWorkflow) : result Error PageWorkflow :=
  if negb (contains 1 MAXIMUM_PAGE_ATTEMPTS (raw_max_attempts value))
     || (zlen (raw_pages value) =? 0)
     || (MAXIMUM_PAGE_COUNT <? zlen (raw_pages value))
     || existsb (progress_invalid (raw_max_attempts value)) (raw_pages value)
  then Err InvalidPageWorkflow
  else Ok {| workflow_job_id := raw_job_id value; max_attempts := raw_max_attempts value;
             pages := raw_pages value; cancelled := raw_cancelled value |}.

Definition PageWorkflow_new (job_id : JobId) (page_count max : Z) : result Error PageWorkflow :=
  if negb (contains 1 MAXIMUM_PAGE_COUNT page_count)
     || negb (contains 1 MAXIMUM_PAGE_ATTEMPTS max)
  then Err InvalidPageWorkflow
  else Ok {| workflow_job_id := job_id; max_attempts := max;
             pages := replicate (Z.to_nat page_count) (Pending 0); cancelled := false |}.

Definition is_succeeded (page : PageProgress) : bool :=
  match page with
  | Succeeded _ => true
  | _ => false
  end.

Definition is_settled (page : PageProgress) : bool :=
  match page with
  | Succeeded _ | Exhausted _ | PermanentlyFailed _ => true
  | _ => false
  end.

Definition status (self : PageWorkflow) : PageWorkflowStatus.PageWorkflowStatus :=
  if cancelled self then PageWorkflowStatus.Cancelled
  else if forallb is_succeeded (pages self) then PageWorkflowStatus.Completed
  else if forallb is_settled (pages self) then PageWorkflowStatus.Partial
  else PageWorkflowStatus.Running.

Definition successful_page_count (self : PageWorkflow) : Z :=
  zlen (filter (λ page, is_succeeded page = true) (pages self)).

(** [format!("ocr-job-{}-page-{page}-attempt-{attempt}", job_id)]. *)
Definition activity_key_of (job_id : JobId) (page attempt : Z) : string :=
  "ocr-job-" +:+ JobId_str job_id +:+ "-page-" +:+ show_dec page
    +:+ "-attempt-" +:+ show_dec attempt.

Definition activity_key (self : PageWorkflow) (page attempt : Z) : string :=
  activity_key_of (workflow_job_id self) page attempt.

Definition claimed_task (job_id : JobId) (page attempt : Z) : PageTask :=
  {| task_page := page; task_attempt := attempt;
     task_activity_key := activity_key_of job_id page attempt |}.

(** The loop of [claim_ready] from page index [index] with [count] tasks taken. *)
Fixpoint claim_pages (job_id : JobId) (limit index count : Z) (pages : list PageProgress)
    : result Error (list PageProgress * list PageTask) :=
  match pages with
  | [] => Ok ([], [])
  | progress :: rest =>
      if count =? limit then Ok (pages, [])
      else
        let claim attempt :=
          let? page := ok_or (checked u32_max (index + 1)) InvalidPageWorkflow in
          let? (rest', tasks) := claim_pages job_id limit (index + 1) (count + 1) rest in
          Ok (PageProgress.Running attempt :: rest', claimed_task job_id page attempt :: tasks) in
        match progress with
        | PageProgress.Running attempt => claim attempt
        | Pending failures => claim (saturating_add u8_max failures 1)
        | Succeeded _ | Exhausted _ | PermanentlyFailed _ =>
            let? (rest', tasks) := claim_pages job_id limit (index + 1) count rest in
            Ok (progress :: rest', tasks)
        end
  end.

Definition claim_ready (self : PageWorkflow) (limit : Z)
    : result Error (PageWorkflow * list PageTask) :=
  if negb (contains 1 64 limit) then Err InvalidPageWorkflow
  else if cancelled self then Ok (self, [])
  else
    let? (pages', tasks) := claim_pages (workflow_job_id self) limit 0 0 (pages self) in
    Ok (with_pages self pages', tasks).

(** [active_progress]: the index of the page a task may still report on. *)
Definition active_progress (self : PageWorkflow) (task : PageTask) : result Error nat :=
  if cancelled self
     || negb (String.eqb (task_activity_key task)
                         (activity_key self (task_page task) (task_attempt task)))
     || (task_page task =? 0)
  then Err StalePageTask
  else
    let index := Z.to_nat (task_page task - 1) in
    let? progress := ok_or (pages self !! index) StalePageTask in
    match progress with
    | PageProgress.Running attempt =>
        if attempt =? task_attempt task then Ok index else Err StalePageTask
    | _ => Err StalePageTask
    end.

Definition record_success (self : PageWorkflow) (task : PageTask) : result Error PageWorkflow :=
  let? index := active_progress self task in
  Ok (with_pages self (<[index := Succeeded (task_attempt task)]> (pages self))).

Definition is_successful_task (self : PageWorkflow) (task : PageTask) : bool :=
  if (task_page task =? 0)
     || negb (String.eqb (task_activity_key task)
                         (activity_key self (task_page task) (task_attempt task)))
  then false
  else match pages self !! Z.to_nat (task_page task - 1) with
       | Some (Succeeded attempt) => attempt =? task_attempt task
       | _ => false
       end.

Definition record_retryable_failure (self : PageWorkflow) (task : PageTask)
    : result Error PageWorkflow :=
  let? index := active_progress self task in
  let progress :=
    if task_attempt task =? max_attempts self then Exhausted (task_attempt task)
    else Pending (task_attempt task) in
  Ok (with_pages self (<[index := progress]> (pages self))).

Definition record_permanent_failure (self : PageWorkflow) (task : PageTask)
    : result Error PageWorkflow :=
  let? index := active_progress self task in
  Ok (with_pages self (<[index := PermanentlyFailed (task_attempt task)]> (pages self))).

Definition request_cancellation (self : PageWorkflow) : PageWorkflow :=
  {| workflow_job_id := workflow_job_id self; max_attempts := max_attempts self;
     pages := pages self; cancelled := true |}.

(** ** Reading a workflow abstractly *)

(** The attempt the next claim of a page runs, if it may still be claimed. *)
Definition claimed_attempt (page : PageProgress) : option Z :=
  match page with
  | PageProgress.Running attempt => Some attempt
  | Pending failures => Some (failures + 1)
  | _ => None
  end.

(** Every task that may be claimed, in page order. *)
Fixpoint claimable_from (job_id : JobId) (index : Z) (pages : list PageProgress) : list PageTask :=
  match pages with
  | [] => []
  | page :: rest =>
      match claimed_attempt page with
      | Some attempt => claimed_task job_id (index + 1) attempt :: claimable_from job_id (index + 1) rest
      | None => claimable_from job_id (index + 1) rest
      end
  end.

Definition claimable (self : PageWorkflow) : list PageTask :=
  claimable_from (workflow_job_id self) 0 (pages self).

(** The pages once their first [k] claimable ones are running. *)
Fixpoint mark_running (k : nat) (pages : list PageProgress) : list PageProgress :=
  match pages, k with
  | [], _ => []
  | _, O => pages
  | page :: rest, S k' =>
      match claimed_attempt page with
      | Some attempt => PageProgress.Running attempt :: mark_running k' rest
      | None => page :: mark_running k rest
      end
  end.

(** The invariant of a workflow: what its constructor and its checkpoint check promise. *)
Definition page_ok (max : Z) (page : PageProgress) : Prop :=
  match page with
  | Pending failures => 0 ≤ failures < max
  | PageProgress.Running attempt | Succeeded attempt | PermanentlyFailed attempt => 1 ≤ attempt ≤ max
  | Exhausted attempts => attempts = max
  end.

Record workflow_ok (self : PageWorkflow) : Prop := {
  ok_max : 1 ≤ max_attempts self ≤ MAXIMUM_PAGE_ATTEMPTS;
  ok_length : 1 ≤ zlen (pages self) ≤ MAXIMUM_PAGE_COUNT;
  ok_pages : Forall (page_ok (max_attempts self)) (pages self);
}.

(** Attempts a page may still report on. *)
Definition attempts_left (max : Z) (page : PageProgress) : Z :=
  match page with
  | Pending failures => max - failures
  | PageProgress.Running attempt => max - attempt + 1
  | _ => 0
  end.

Fixpoint sum_attempts (max : Z) (pages : list PageProgress) : Z :=
  match pages with
  | [] => 0
  | page :: rest => attempts_left max page + sum_attempts max rest
  end.

Definition budget (self : PageWorkflow) : Z := sum_attempts (max_attempts self) (pages self).

(** What a worker reports of a task, and the method that records it. *)
Inductive TaskReport := ReportSuccess | ReportRetryable | ReportPermanent.

Definition record_report (self : PageWorkflow) (report : PageTask * TaskReport)
    : result Error PageWorkflow :=
  match report.2 with
  | ReportSuccess => record_success self report.1
  | ReportRetryable => record_retryable_failure self report.1
  | ReportPermanent => record_permanent_failure self report.1
  end.

Fixpoint record_reports (self : PageWorkflow) (reports : list (PageTask * TaskReport))
    : result Error PageWorkflow :=
  match reports with
  | [] => Ok self
  | report :: rest => let? self' := record_report self report in record_reports self' rest
  end.

(** One call on a workflow. *)
Inductive workflow_step : PageWorkflow → PageWorkflow → Prop :=
| step_claim self limit self' tasks :
    claim_ready self limit = Ok (self', tasks) → workflow_step self self'
| step_record self report self' :
    record_report self report = Ok self' → workflow_step self self'
| step_cancel self : workflow_step self (request_cancellation self).

(** A run that had [n] reports accepted. *)
Inductive workflow_run : nat → PageWorkflow → PageWorkflow → Prop :=
| run_done self : workflow_run O self self
| run_claim n self limit self' tasks self'' :
    claim_ready self limit = Ok (self', tasks) →
    workflow_run n self' self'' → workflow_run n self self''
| run_record n self report self' self'' :
    record_report self report = Ok self' → 0 ≤ task_page report.1 →
    workflow_run n self' self'' → workflow_run (S n) self self''
| run_cancel n self self'' :
    workflow_run n (request_cancellation self) self'' → workflow_run n self self''.
