(* ===== verification/PageWorkflowFacts.v ===== *)
(** * PageWorkflowFacts: correctness of the page checkpoint

    Claims hand out exactly the first claimable pages and can be repeated after a
    crash; a claimed task reports exactly once, in any order; every reachable
    checkpoint deserializes; the attempts of a job are bounded. *)

From S2P Require Import Prelude Text DomainTypes Identifiers PageWorkflow.

#[local] Open Scope Z_scope.
Import PageProgress (PageProgress, Pending, Succeeded, Exhausted, PermanentlyFailed).

(** ** Claims *)

Lemma claim_pages_spec job_id limit max pages : ∀ index count,
  Forall (page_ok max) pages → max ≤ MAXIMUM_PAGE_ATTEMPTS → count ≤ limit → 0 ≤ index →
  index + zlen pages ≤ u32_max →
  claim_pages job_id limit index count pages =
    Ok (mark_running (Z.to_nat (limit - count)) pages,
        take (Z.to_nat (limit - count)) (claimable_from job_id index pages)).
Proof.
  unfold MAXIMUM_PAGE_ATTEMPTS.
  induction pages as [|page rest IH]; intros index count Hok Hmax Hcount Hindex Hlen.
  { simpl. by rewrite take_nil. }
  rewrite zlen_cons in Hlen. pose proof (zlen_nonneg rest).
  inversion Hok as [|?? Hpage Hrest]; subst. simpl.
  destruct (Z.eqb_spec count limit) as [->|Hne].
  { by rewrite Z.sub_diag. }
  assert (Hk : Z.to_nat (limit - count) = S (Z.to_nat (limit - (count + 1)))) by lia.
  assert (Hidx : checked u32_max (index + 1) = Some (index + 1)).
  { apply checked_Some. unfold in_width. lia. }
  destruct page as [f|a|a|a|a]; simpl in *; rewrite ?Hidx; simpl;
    rewrite IH by (done || lia); simpl; rewrite Hk; simpl; try done.
  unfold saturating_add, u8_max. rewrite Z.min_l by lia. done.
Qed.

Lemma claim_ready_spec w limit :
  workflow_ok w → 1 ≤ limit ≤ 64 → cancelled w = false →
  claim_ready w limit =
    Ok (with_pages w (mark_running (Z.to_nat limit) (pages w)),
        take (Z.to_nat limit) (claimable w)).
Proof.
  intros [Hmax Hlen Hpages] Hlimit Hc. unfold claim_ready, claimable.
  rewrite (proj2 (contains_true 1 64 limit)) by done. simpl. rewrite Hc.
  unfold MAXIMUM_PAGE_COUNT, u32_max in *.
  rewrite (claim_pages_spec _ _ (max_attempts w)) by (done || unfold u32_max; lia).
  simpl. by rewrite Z.sub_0_r.
Qed.

Lemma claimable_mark_running job_id k pages : ∀ index,
  claimable_from job_id index (mark_running k pages) = claimable_from job_id index pages.
Proof.
  revert k. induction pages as [|page rest IH]; intros [|k] index; simpl; try done.
  destruct page; simpl; by rewrite ?IH.
Qed.

Lemma mark_running_idemp k pages : mark_running k (mark_running k pages) = mark_running k pages.
Proof.
  revert k. induction pages as [|page rest IH]; intros [|k]; simpl; try done.
  destruct page; simpl; by rewrite ?IH.
Qed.

Lemma mark_running_length k pages : length (mark_running k pages) = length pages.
Proof.
  revert k. induction pages as [|page rest IH]; intros [|k]; simpl; try done.
  destruct page; simpl; by rewrite IH.
Qed.

Lemma mark_running_ok max k pages :
  Forall (page_ok max) pages → Forall (page_ok max) (mark_running k pages).
Proof.
  intros H. revert k. induction H as [|page rest Hp Hr IH]; intros [|k]; simpl; try done.
  - by constructor.
  - destruct page; simpl in *; constructor; simpl; auto; lia.
Qed.

Lemma mark_running_sum max k pages : sum_attempts max (mark_running k pages) = sum_attempts max pages.
Proof.
  revert k. induction pages as [|page rest IH]; intros [|k]; simpl; try done.
  destruct page; simpl; rewrite IH; lia.
Qed.

(** A claimed task is running in the marked pages. *)
Lemma mark_running_claimed job_id k pages : ∀ index t,
  t ∈ take k (claimable_from job_id index pages) →
  ∃ j, task_page t = index + Z.of_nat j + 1
     ∧ mark_running k pages !! j = Some (PageProgress.Running (task_attempt t))
     ∧ task_activity_key t = activity_key_of job_id (task_page t) (task_attempt t).
Proof.
  revert k. induction pages as [|page rest IH]; intros k index t; simpl.
  { rewrite take_nil. by intros ?%elem_of_nil. }
  destruct k as [|k]; simpl; [by intros ?%elem_of_nil|].
  destruct (claimed_attempt page) as [a|] eqn:Ha.
  - simpl. intros [->|Hin]%elem_of_cons.
    + exists O. simpl. split_and!; [lia|done..].
    + destruct (IH _ _ _ Hin) as (j & ? & ? & ?). exists (S j). split_and!; [lia|done..].
  - intros Hin. destruct (IH (S k) _ _ Hin) as (j & ? & ? & ?). exists (S j).
    split_and!; [lia|done..].
Qed.

(** Claimable pages are listed in strictly increasing order. *)
Lemma claimable_from_above job_id pages : ∀ index,
  Forall (λ t, index < task_page t) (claimable_from job_id index pages).
Proof.
  induction pages as [|page rest IH]; intros index; simpl; [constructor|].
  assert (Forall (λ t, index < task_page t) (claimable_from job_id (index + 1) rest)).
  { eapply Forall_impl; [apply IH|]. simpl. lia. }
  destruct (claimed_attempt page); [constructor; simpl; [lia|]|]; done.
Qed.

Lemma claimable_from_sorted job_id pages : ∀ index,
  StronglySorted (λ t u, task_page t < task_page u) (claimable_from job_id index pages).
Proof.
  induction pages as [|page rest IH]; intros index; simpl; [constructor|].
  destruct (claimed_attempt page); [|done]. constructor; [done|]. simpl. apply claimable_from_above.
Qed.

Lemma StronglySorted_take {A} (R : A → A → Prop) k l :
  StronglySorted R l → StronglySorted R (take k l).
Proof.
  intros H. revert k. induction H as [|a l Hs IH Ha]; intros [|k]; simpl; try constructor; [done|].
  by apply Forall_take.
Qed.

(** ** Records *)

Lemma active_progress_Ok w t i :
  0 ≤ task_page t →
  active_progress w t = Ok i ↔
  cancelled w = false
  ∧ task_activity_key t = activity_key w (task_page t) (task_attempt t)
  ∧ task_page t = Z.of_nat i + 1
  ∧ pages w !! i = Some (PageProgress.Running (task_attempt t)).
Proof.
  intros Hpos. unfold active_progress.
  destruct (cancelled w); simpl; [naive_solver|].
  destruct (String.eqb_spec (task_activity_key t) (activity_key w (task_page t) (task_attempt t)))
    as [Hk|Hk]; simpl; [|naive_solver].
  destruct (Z.eqb_spec (task_page t) 0) as [Hz|Hz].
  { split; [done|]. intros (_ & _ & ? & _). lia. }
  destruct (pages w !! Z.to_nat (task_page t - 1)) as [p|] eqn:Hp; simpl; last first.
  { split; [done|]. intros (_ & _ & Hi & Hi'). rewrite Hi in Hp.
    replace (Z.to_nat (Z.of_nat i + 1 - 1)) with i in Hp by lia. congruence. }
  assert (Hcase : ∀ q, pages w !! i = Some q → task_page t = Z.of_nat i + 1 → p = q).
  { intros q Hq Hi. rewrite Hi in Hp.
    replace (Z.to_nat (Z.of_nat i + 1 - 1)) with i in Hp by lia. congruence. }
  destruct p as [f|a|a|a|a]; try (split; [done|]; intros (_ & _ & Hi & Hq);
    by specialize (Hcase _ Hq Hi)).
  destruct (Z.eqb_spec a (task_attempt t)) as [->|Hne].
  - split; [intros [= <-]; split_and!; [done..|lia|done]|].
    intros (_ & _ & Hi & _). f_equal. lia.
  - split; [done|]. intros (_ & _ & Hi & Hq). specialize (Hcase _ Hq Hi). congruence.
Qed.

(** The page a report leaves behind. *)
Definition reported_progress (max : Z) (t : PageTask) (r : TaskReport) : PageProgress :=
  match r with
  | ReportSuccess => Succeeded (task_attempt t)
  | ReportRetryable =>
      if task_attempt t =? max then Exhausted (task_attempt t) else Pending (task_attempt t)
  | ReportPermanent => PermanentlyFailed (task_attempt t)
  end.

Lemma record_report_spec w t r :
  record_report w (t, r) =
  let? i := active_progress w t in
  Ok (with_pages w (<[i := reported_progress (max_attempts w) t r]> (pages w))).
Proof. by destruct r. Qed.

Lemma active_progress_insert w t i j p :
  0 ≤ task_page t → active_progress w t = Ok i → i ≠ j →
  active_progress (with_pages w (<[j := p]> (pages w))) t = Ok i.
Proof.
  intros Hpos. rewrite !active_progress_Ok by done. intros (? & ? & ? & ?) Hne.
  split_and!; try done. simpl. by rewrite list_lookup_insert_ne.
Qed.

Lemma active_progress_settled w t i r :
  active_progress w t = Ok i → 0 ≤ task_page t →
  ∀ u, 0 ≤ task_page u →
  active_progress (with_pages w (<[i := reported_progress (max_attempts w) t r]> (pages w))) u ≠ Ok i.
Proof.
  intros Ht Hpos u Hu. rewrite active_progress_Ok in Ht by done. destruct Ht as (_ & _ & _ & Hi).
  rewrite active_progress_Ok by done. intros (_ & _ & _ & Hq). simpl in Hq.
  rewrite list_lookup_insert_eq in Hq by (by eapply lookup_lt_Some).
  destruct r; simpl in Hq; try done. by destruct (_ =? _).
Qed.

(** Pages other than the reported one keep their tasks, whatever was reported. *)
Lemma active_progress_insert_rev w t i j p :
  0 ≤ task_page t →
  active_progress (with_pages w (<[j := p]> (pages w))) t = Ok i → i ≠ j →
  active_progress w t = Ok i.
Proof.
  intros Hpos. rewrite !active_progress_Ok by done. intros (? & ? & ? & Hl) Hne.
  split_and!; try done. simpl in Hl. by rewrite list_lookup_insert_ne in Hl.
Qed.

(** ** Budget and invariant of one step *)

Lemma sum_attempts_nonneg max l : Forall (page_ok max) l → 0 ≤ sum_attempts max l.
Proof. induction 1 as [|x l Hx Hl IH]; simpl; [lia|]. destruct x; simpl in *; lia. Qed.

Lemma budget_nonneg w : workflow_ok w → 0 ≤ budget w.
Proof. intros [_ _ Hpages]. by apply sum_attempts_nonneg. Qed.

Lemma sum_attempts_insert max l i p q :
  l !! i = Some p →
  sum_attempts max (<[i := q]> l) = sum_attempts max l - attempts_left max p + attempts_left max q.
Proof.
  revert i. induction l as [|x l IH]; intros [|i] Hl; simpl in *; try done.
  - simplify_eq. lia.
  - rewrite (IH _ Hl). lia.
Qed.

Lemma reported_progress_attempts max t r :
  task_attempt t ≤ max → attempts_left max (reported_progress max t r) ≤ max - task_attempt t.
Proof. intros H. destruct r; simpl; try lia. destruct (Z.eqb_spec (task_attempt t) max); simpl; lia. Qed.

Lemma reported_progress_ok max t r :
  1 ≤ task_attempt t ≤ max → page_ok max (reported_progress max t r).
Proof. intros H. destruct r; simpl; try lia. destruct (Z.eqb_spec (task_attempt t) max); simpl; lia. Qed.

Lemma record_report_ok w report w' :
  0 ≤ task_page report.1 → workflow_ok w → record_report w report = Ok w' →
  workflow_ok w' ∧ budget w' + 1 ≤ budget w.
Proof.
  destruct report as [t r]. simpl. intros Hpos [Hmax Hlen Hpages]. rewrite record_report_spec.
  destruct (active_progress w t) as [i|] eqn:Ht; simpl; [|done]. intros [= <-].
  rewrite active_progress_Ok in Ht by done. destruct Ht as (_ & _ & _ & Hi).
  assert (Hatt : 1 ≤ task_attempt t ≤ max_attempts w).
  { rewrite Forall_lookup in Hpages. specialize (Hpages _ _ Hi). done. }
  split.
  - split; simpl; [done|unfold zlen in *; rewrite length_insert; done|].
    apply Forall_insert; [done|]. by apply reported_progress_ok.
  - unfold budget. simpl. rewrite (sum_attempts_insert _ _ _ _ _ Hi). simpl.
    pose proof (reported_progress_attempts (max_attempts w) t r). lia.
Qed.

Lemma claim_ready_ok w limit w' tasks :
  workflow_ok w → claim_ready w limit = Ok (w', tasks) →
  workflow_ok w' ∧ budget w' = budget w ∧ claimable w' = claimable w
  ∧ cancelled w' = cancelled w ∧ max_attempts w' = max_attempts w
  ∧ workflow_job_id w' = workflow_job_id w.
Proof.
  intros Hok Hcl. assert (Hlimit : 1 ≤ limit ≤ 64).
  { unfold claim_ready in Hcl. destruct (contains 1 64 limit) eqn:Hl; [by apply contains_true|done]. }
  destruct (cancelled w) eqn:Hc.
  - unfold claim_ready in Hcl. rewrite (proj2 (contains_true 1 64 limit)), Hc in Hcl by done.
    simpl in Hcl. by injection Hcl as <- <-.
  - rewrite claim_ready_spec in Hcl by done. simplify_eq. destruct Hok as [Hmax Hlen Hpages].
    split_and!; try done.
    + split; simpl; [done|unfold zlen in *; by rewrite mark_running_length|].
      by apply mark_running_ok.
    + unfold budget. simpl. apply mark_running_sum.
    + unfold claimable. simpl. apply claimable_mark_running.
Qed.

Lemma request_cancellation_ok w : workflow_ok w → workflow_ok (request_cancellation w).
Proof. intros [???]. by split. Qed.

Lemma PageWorkflow_new_ok job n max w :
  PageWorkflow_new job n max = Ok w → workflow_ok w ∧ budget w = n * max.
Proof.
  unfold PageWorkflow_new. destruct (contains 1 MAXIMUM_PAGE_COUNT n) eqn:Hn; [|done].
  destruct (contains 1 MAXIMUM_PAGE_ATTEMPTS max) eqn:Hm; simpl; [|done]. intros [= <-].
  apply contains_true in Hn, Hm. split.
  - split; simpl; [done| |].
    + unfold zlen. rewrite length_replicate. lia.
    + apply Forall_replicate. simpl. lia.
  - unfold budget. simpl.
    assert (∀ k, sum_attempts max (replicate k (Pending 0)) = Z.of_nat k * max) as ->; [|lia].
    induction k; simpl; lia.
Qed.

Lemma pages_ok_not_invalid max l :
  1 ≤ max → Forall (page_ok max) l → existsb (progress_invalid max) l = false.
Proof.
  intros Hmax. induction 1 as [|p l Hp _ IH]; simpl; [done|].
  rewrite orb_false_iff. split; [|done]. destruct p; simpl in *; boolify; lia.
Qed.

Lemma workflow_ok_try_from w : workflow_ok w → PageWorkflow_try_from (to_raw w) = Ok w.
Proof.
  intros [Hmax Hlen Hpages]. unfold PageWorkflow_try_from. simpl.
  rewrite (proj2 (contains_true _ _ _)) by done.
  replace (zlen (pages w) =? 0) with false by (symmetry; apply Z.eqb_neq; lia).
  replace (MAXIMUM_PAGE_COUNT <? zlen (pages w)) with false by (symmetry; apply Z.ltb_ge; lia).
  rewrite pages_ok_not_invalid by (done || lia).
  simpl. by destruct w.
Qed.

(** The checkpoint check accepts nothing but workflows of the invariant (for the
    non-negative numbers the wire type can hold). *)
Definition raw_unsigned (page : PageProgress) : Prop :=
  match page with
  | Pending n | PageProgress.Running n | Succeeded n | Exhausted n | PermanentlyFailed n => 0 ≤ n
  end.

Lemma try_from_workflow_ok raw w :
  Forall raw_unsigned (raw_pages raw) → PageWorkflow_try_from raw = Ok w → workflow_ok w.
Proof.
  unfold PageWorkflow_try_from. intros Hraw H.
  destruct (contains _ _ _) eqn:Hm; [|done]. simpl in H.
  destruct (zlen (raw_pages raw) =? 0) eqn:H0; [done|].
  destruct (MAXIMUM_PAGE_COUNT <? _) eqn:Hl; [done|]. simpl in H.
  destruct (existsb _ _) eqn:He; [done|]. simplify_eq. boolify.
  pose proof (zlen_nonneg (raw_pages raw)). split; simpl; [done|lia|].
  clear -Hraw He Hm. unfold MAXIMUM_PAGE_ATTEMPTS in *.
  induction Hraw as [|p l Hp _ IH]; simpl in *; [constructor|].
  apply orb_false_iff in He as [Hip Hil]. constructor; [|auto].
  destruct p; simpl in *; boolify; lia.
Qed.

(** ** Keys *)

Lemma show_dec_no_dash n : 0 ≤ n → all_bytes (λ a, negb (Ascii.eqb a "-")) (show_dec n) = true.
Proof. intros H. apply digits_without; [done|]. by apply show_dec_digits. Qed.

Lemma append_inj p s t : p +:+ s = p +:+ t → s = t.
Proof. induction p as [|a p IH]; simpl; [done|]. intros [= H]. auto. Qed.

Lemma activity_key_of_inj j1 j2 p1 p2 a1 a2 :
  id_valid j1 → id_valid j2 → 0 ≤ p1 ≤ u64_max → 0 ≤ p2 ≤ u64_max →
  0 ≤ a1 ≤ u64_max → 0 ≤ a2 ≤ u64_max →
  activity_key_of j1 p1 a1 = activity_key_of j2 p2 a2 → j1 = j2 ∧ p1 = p2 ∧ a1 = a2.
Proof.
  intros Hj1 Hj2 Hp1 Hp2 Ha1 Ha2. unfold activity_key_of. intros H%append_inj.
  apply (cut_unique "-" _ _ ("page-" +:+ show_dec p1 +:+ "-attempt-" +:+ show_dec a1)
           ("page-" +:+ show_dec p2 +:+ "-attempt-" +:+ show_dec a2)) in H as [Hj H];
    [|by apply JobId_no_dash..].
  apply append_inj in H.
  apply (cut_unique "-" _ _ ("attempt-" +:+ show_dec a1) ("attempt-" +:+ show_dec a2)) in H as [Hp H];
    [|apply show_dec_no_dash; lia..].
  apply append_inj in H.
  split_and!; [by destruct j1, j2; simpl in *; subst | by apply show_dec_inj..].
Qed.

(** ** Properties *)

Lemma workflow_step_ok w w' :
  workflow_ok w → workflow_step w w' → workflow_ok w'.
Proof.
  intros Hok Hstep. destruct Hstep as [w limit w' tasks Hcl | w [t r] w' Hr | w].
  - by eapply claim_ready_ok.
  - destruct (decide (0 ≤ task_page t)) as [Hpos|Hneg].
    + eapply (record_report_ok w (t, r)); done.
    + rewrite record_report_spec in Hr. destruct (active_progress w t) as [i|] eqn:Ht; [|done].
      unfold active_progress in Ht.
      destruct (cancelled w || _ || _); [done|].
      replace (Z.to_nat (task_page t - 1)) with O in Ht by lia.
      destruct (pages w !! O) as [[| a| | |]|] eqn:Hp; simpl in Ht; try done.
      destruct (Z.eqb_spec a (task_attempt t)) as [->|]; [|done]. simplify_eq. simpl.
      destruct Hok as [Hmax Hlen Hpages]. simpl in Hr. simplify_eq.
      split; simpl; [done|unfold zlen in *; by rewrite length_insert|].
      apply Forall_insert; [done|]. apply reported_progress_ok.
      rewrite Forall_lookup in Hpages. by specialize (Hpages _ _ Hp).
  - by apply request_cancellation_ok.
Qed.

(** C27: every workflow reachable from [PageWorkflow::new] by claims, reports and
    cancellations satisfies the checkpoint check of deserialization, and reading it back
    gives the same workflow: a stored checkpoint is never rejected as corrupt. *)
Theorem reachable_checkpoint_roundtrips job page_count max w0 w :
  PageWorkflow_new job page_count max = Ok w0 → rtc workflow_step w0 w →
  PageWorkflow_try_from (to_raw w) = Ok w.
Proof.
  intros (Hok & _)%PageWorkflow_new_ok Hreach. apply workflow_ok_try_from.
  induction Hreach; [done|]. eauto using workflow_step_ok.
Qed.

(** A three-page workflow of two attempts, its two-page claim, and what it hands out. *)
Definition sample_job : JobId := mkJobId "job_A".
Definition sample_workflow : PageWorkflow :=
  mkPageWorkflow sample_job 2 [Pending 0; Pending 0; Pending 0] false.
Definition sample_claimed : PageWorkflow :=
  mkPageWorkflow sample_job 2 [PageProgress.Running 1; PageProgress.Running 1; Pending 0] false.
Definition sample_task (page attempt : Z) : PageTask := claimed_task sample_job page attempt.

Lemma sample_workflow_ok : workflow_ok sample_workflow.
Proof. split; vm_compute; [split; discriminate..|]. repeat constructor; discriminate. Qed.

Lemma reachable_checkpoint_roundtrips_witness :
  PageWorkflow_new sample_job 3 2 = Ok sample_workflow ∧
  rtc workflow_step sample_workflow sample_claimed ∧
  PageWorkflow_try_from (to_raw sample_claimed) = Ok sample_claimed.
Proof.
  assert (Hnew : PageWorkflow_new sample_job 3 2 = Ok sample_workflow) by reflexivity.
  assert (Hreach : rtc workflow_step sample_workflow sample_claimed).
  { apply rtc_once, (step_claim _ 2 _ [sample_task 1 1; sample_task 2 1]). reflexivity. }
  split; [exact Hnew|split; [exact Hreach|]].
  exact (reachable_checkpoint_roundtrips sample_job 3 2 sample_workflow sample_claimed Hnew Hreach).
Defined.

(** On a valid, uncancelled workflow a claim of [limit] pages succeeds and returns
    exactly the first [limit] claimable tasks in page order; every one of them is live
    afterwards; and claiming again, as a restarted worker does, returns the same tasks and
    changes nothing. *)
Lemma claim_ready_first_live_repeatable w limit :
  workflow_ok w → 1 ≤ limit ≤ 64 → cancelled w = false →
  ∃ w', claim_ready w limit = Ok (w', take (Z.to_nat limit) (claimable w))
      ∧ claimable w' = claimable w
      ∧ (∀ t, t ∈ take (Z.to_nat limit) (claimable w) → is_ok (active_progress w' t) = true)
      ∧ claim_ready w' limit = Ok (w', take (Z.to_nat limit) (claimable w)).
Proof.
  intros Hok Hlimit Hc. pose proof (claim_ready_spec w limit Hok Hlimit Hc) as Hcl.
  eexists. split; [exact Hcl|]. destruct (claim_ready_ok _ _ _ _ Hok Hcl) as (Hok' & _ & Hcl' & _).
  split_and!; [done| |].
  - intros t (j & Hp & Hl & Hk)%mark_running_claimed.
    assert (Ht : active_progress (with_pages w (mark_running (Z.to_nat limit) (pages w))) t = Ok j).
    { apply active_progress_Ok; [lia|]. by split_and!. }
    by rewrite Ht.
  - rewrite claim_ready_spec by done. rewrite Hcl'. simpl. by rewrite mark_running_idemp.
Qed.

(** Recording two reports in either order gives the same workflow. *)
Lemma record_report_swap w x y w1 w2 :
  0 ≤ task_page x.1 → 0 ≤ task_page y.1 →
  record_report w x = Ok w1 → record_report w1 y = Ok w2 →
  ∃ w1', record_report w y = Ok w1' ∧ record_report w1' x = Ok w2.
Proof.
  destruct x as [t r], y as [u q]. simpl. intros Ht Hu. rewrite !record_report_spec.
  destruct (active_progress w t) as [i|] eqn:Hi; simpl; [|done]. intros [= <-].
  simpl. destruct (active_progress _ u) as [j|] eqn:Hj; simpl; [|done]. intros [= <-].
  assert (j ≠ i) as Hne.
  { intros ->. by apply (active_progress_settled w t i r Hi Ht u Hu). }
  apply (active_progress_insert_rev _ _ _ _ _ Hu) in Hj; [|done]. rewrite Hj. simpl.
  eexists. split; [done|]. rewrite record_report_spec. simpl.
  rewrite (active_progress_insert _ _ i) by done. simpl. unfold with_pages. simpl.
  do 2 f_equal. by rewrite list_insert_insert_ne.
Qed.

(** The outcomes of a batch are recorded in completion order, which is arbitrary: if
    they are accepted in one order they are accepted in every order, with the same
    resulting workflow. *)
Lemma record_reports_any_order w reports reports' w' :
  Forall (λ x, 0 ≤ task_page x.1) reports → reports ≡ₚ reports' →
  record_reports w reports = Ok w' → record_reports w reports' = Ok w'.
Proof.
  intros Hpos Hperm. revert w. induction Hperm as [|x l l' Hp IH|x y l|l l' l'' H1 IH1 H2 IH2];
    intros w; simpl.
  - done.
  - inversion Hpos; subst. destruct (record_report w x); simpl; auto.
  - destruct (record_report w y) as [w1|] eqn:H1; simpl; [|done].
    destruct (record_report w1 x) as [w2|] eqn:H2; simpl; [|done]. intros Hl.
    rewrite !Forall_cons in Hpos. destruct Hpos as (Hy & Hx & _).
    destruct (record_report_swap _ _ _ _ _ Hy Hx H1 H2) as (w1' & -> & H2'). simpl.
    by rewrite H2'.
  - intros H. apply IH2; [by rewrite <- H1|]. by apply IH1.
Qed.

Lemma record_reports_budget w reports w' :
  Forall (λ x, 0 ≤ task_page x.1) reports → workflow_ok w →
  record_reports w reports = Ok w' → workflow_ok w' ∧ budget w' + zlen reports ≤ budget w.
Proof.
  intros Hpos. revert w. induction Hpos as [|x l Hx _ IH]; intros w Hok; simpl.
  - intros [= <-]. split; [done|]. rewrite zlen_nil. lia.
  - destruct (record_report w x) as [w1|] eqn:H1; simpl; [|done]. intros H.
    destruct (record_report_ok _ _ _ Hx Hok H1) as [Hok1 Hb1].
    destruct (IH _ Hok1 H) as [Hok' Hb]. split; [done|]. rewrite zlen_cons. lia.
Qed.

Lemma record_reports_cons w x l :
  record_reports w (x :: l) = let? w' := record_report w x in record_reports w' l.
Proof. done. Qed.

(** Live tasks of different pages are all accepted, whatever they report. *)
Lemma record_reports_live w reports :
  Forall (λ x, 0 ≤ task_page x.1) reports → NoDup (task_page <$> reports.*1) →
  Forall (λ x, is_ok (active_progress w x.1) = true) reports →
  is_ok (record_reports w reports) = true.
Proof.
  revert w. induction reports as [|[t r] l IH]; intros w Hpos Hnd Hlive; [done|].
  inversion Hpos as [|?? Ht Hl]; inversion Hlive as [|?? Hlt Hll]; subst.
  apply NoDup_cons in Hnd as [Hnin Hnd]. rewrite record_reports_cons, record_report_spec.
  simpl in Hlt, Ht. destruct (active_progress w t) as [i|] eqn:Hi; [|done]. simpl.
  apply IH; [done..|]. rewrite Forall_forall in Hll, Hl |- *. intros [u q] Hin.
  specialize (Hll _ Hin). specialize (Hl _ Hin). simpl in *.
  destruct (active_progress w u) as [j|] eqn:Hj; [|done].
  rewrite (active_progress_insert _ _ j); [done..|]. intros ->. apply Hnin.
  apply active_progress_Ok in Hi as (_ & _ & Hp & _); [|done].
  apply active_progress_Ok in Hj as (_ & _ & Hq & _); [|done].
  apply list_elem_of_fmap. exists u. split; [simpl; lia|].
  apply list_elem_of_fmap. by exists (u, q).
Qed.

Lemma claimed_tasks_NoDup job k pages :
  NoDup (task_page <$> take k (claimable_from job 0 pages)).
Proof.
  assert (H := StronglySorted_take _ k _ (claimable_from_sorted job pages 0)).
  induction H as [|t l Hs IH Ha]; simpl; constructor; [|done].
  intros (u & Hu & Hin)%list_elem_of_fmap. rewrite Forall_forall in Ha.
  specialize (Ha _ Hin). lia.
Qed.

(** The two ways a claim succeeds. *)
Lemma claim_ready_inv w limit w' tasks :
  workflow_ok w → claim_ready w limit = Ok (w', tasks) →
  1 ≤ limit ≤ 64 ∧
  ((cancelled w = true ∧ w' = w ∧ tasks = [])
   ∨ (cancelled w = false ∧ w' = with_pages w (mark_running (Z.to_nat limit) (pages w))
      ∧ tasks = take (Z.to_nat limit) (claimable w))).
Proof.
  intros Hok Hcl. assert (Hlimit : 1 ≤ limit ≤ 64).
  { unfold claim_ready in Hcl. destruct (contains 1 64 limit) eqn:Hl; [by apply contains_true|done]. }
  split; [done|]. destruct (cancelled w) eqn:Hc.
  - left. unfold claim_ready in Hcl. rewrite (proj2 (contains_true 1 64 limit)), Hc in Hcl by done.
    simpl in Hcl. by injection Hcl as <- <-.
  - right. rewrite claim_ready_spec in Hcl by done. by injection Hcl as <- <-.
Qed.

Lemma claimed_tasks_live w limit w' tasks :
  workflow_ok w → claim_ready w limit = Ok (w', tasks) →
  NoDup (task_page <$> tasks) ∧
  Forall (λ t, 0 ≤ task_page t ∧ is_ok (active_progress w' t) = true) tasks.
Proof.
  intros Hok Hcl. destruct (claim_ready_inv _ _ _ _ Hok Hcl) as [Hlimit [(Hc & -> & ->)|(Hc & -> & ->)]].
  - split; constructor.
  - split; [apply claimed_tasks_NoDup|]. rewrite Forall_forall.
    intros t (j & Hp & Hl & Hk)%mark_running_claimed. split; [lia|].
    assert (active_progress (with_pages w (mark_running (Z.to_nat limit) (pages w))) t = Ok j) as ->;
      [|done]. apply active_progress_Ok; [lia|]. by split_and!.
Qed.

(** A worker that claims a batch and reports on every claimed task, in any order
    and with any mix of successes and failures, has all of its reports accepted, leaves a
    valid workflow, and uses up at least one of the job's remaining attempts per task. *)
Lemma claimed_batch_reports_accepted w limit w1 tasks reports :
  workflow_ok w → claim_ready w limit = Ok (w1, tasks) → reports.*1 ≡ₚ tasks →
  ∃ w2, record_reports w1 reports = Ok w2 ∧ workflow_ok w2
      ∧ budget w2 + zlen tasks ≤ budget w.
Proof.
  intros Hok Hcl Hperm. destruct (claim_ready_ok _ _ _ _ Hok Hcl) as (Hok1 & Hb & _).
  destruct (claimed_tasks_live _ _ _ _ Hok Hcl) as [Hnd Hlive].
  rewrite <- Hperm in Hnd, Hlive. rewrite Forall_fmap in Hlive.
  assert (Hpos : Forall (λ x : PageTask * TaskReport, 0 ≤ task_page x.1) reports)
    by (eapply Forall_impl; [exact Hlive|]; simpl; tauto).
  destruct (record_reports w1 reports) as [w2|e] eqn:Hr.
  - exists w2. split; [done|]. destruct (record_reports_budget _ _ _ Hpos Hok1 Hr) as [Hok2 Hb2].
    split; [done|]. unfold zlen in *. rewrite <- Hperm, length_fmap. lia.
  - assert (is_ok (record_reports w1 reports) = true) as Htrue; [|by rewrite Hr in Htrue].
    apply record_reports_live; [done..|]. eapply Forall_impl; [exact Hlive|]. simpl. tauto.
Qed.

(** Over the whole life of a job, however claims, crashes, reports and
    cancellation interleave, at most [page_count * max_attempts] reports are accepted. *)
Theorem accepted_reports_bounded job page_count max w0 n w :
  PageWorkflow_new job page_count max = Ok w0 → workflow_run n w0 w →
  Z.of_nat n + budget w ≤ page_count * max ∧ 0 ≤ budget w.
Proof.
  intros (Hok & Hb)%PageWorkflow_new_ok Hrun. rewrite <- Hb. clear Hb job page_count max.
  induction Hrun as [w|n w limit w1 tasks w2 Hcl Hrun IH|n w x w1 w2 Hr Hx Hrun IH|n w w2 Hrun IH].
  - split; [lia|]. by apply budget_nonneg.
  - destruct (claim_ready_ok _ _ _ _ Hok Hcl) as (Hok1 & Hb & _). specialize (IH Hok1). lia.
  - destruct (record_report_ok _ _ _ Hx Hok Hr) as [Hok1 Hb]. specialize (IH Hok1). lia.
  - specialize (IH (request_cancellation_ok _ Hok)). done.
Qed.

Lemma accepted_reports_bounded_witness :
  Z.of_nat 0 + budget sample_claimed ≤ 3 * 2 ∧ 0 ≤ budget sample_claimed.
Proof.
  apply (accepted_reports_bounded sample_job 3 2 sample_workflow).
  - reflexivity.
  - apply (run_claim _ _ 2 sample_claimed [sample_task 1 1; sample_task 2 1]);
      [reflexivity|apply run_done].
Defined.

Lemma claimable_nil_settled job index l :
  claimable_from job index l = [] ↔ forallb is_settled l = true.
Proof.
  revert index. induction l as [|p l IH]; intros index; simpl; [done|].
  destruct p; simpl; rewrite ?IH; done.
Qed.

(** A workflow reports [Running] exactly while something can be claimed. *)
Lemma status_running_claimable w :
  status w = PageWorkflowStatus.Running ↔ cancelled w = false ∧ claimable w ≠ [].
Proof.
  unfold status, claimable. rewrite claimable_nil_settled.
  destruct (cancelled w); [naive_solver|].
  destruct (forallb is_succeeded (pages w)) eqn:Hs.
  - assert (forallb is_settled (pages w) = true) as ->; [|naive_solver].
    rewrite forallb_forall in *. intros p Hin. specialize (Hs p Hin). by destruct p.
  - destruct (forallb is_settled (pages w)); naive_solver.
Qed.

Lemma settled_no_active w t :
  cancelled w = true ∨ forallb is_settled (pages w) = true → is_ok (active_progress w t) = false.
Proof.
  unfold active_progress. intros [->|Hs]; [done|].
  destruct (_ || _ || _); [done|]. destruct (pages w !! _) as [p|] eqn:Hp; simpl; [|done].
  rewrite forallb_forall in Hs.
  assert (is_settled p = true) by (apply Hs, list_elem_of_In; by eapply list_elem_of_lookup_2).
  by destruct p.
Qed.

Lemma record_report_not_active w x :
  is_ok (active_progress w x.1) = false → is_ok (record_report w x) = false.
Proof. destruct x as [t r]. rewrite record_report_spec. simpl. by destruct (active_progress w t). Qed.

(** Once a workflow has completed, is partial or was cancelled, no claim or report
    changes it: claims return no task, reports are refused as stale, and the only further
    change is that a finished workflow may still be marked cancelled. *)
Theorem settled_workflow_is_final w w' :
  workflow_ok w → status w ≠ PageWorkflowStatus.Running → workflow_step w w' →
  w' = w ∨ w' = request_cancellation w.
Proof.
  intros Hok Hst Hstep.
  assert (Hset : cancelled w = true ∨ forallb is_settled (pages w) = true).
  { destruct (cancelled w) eqn:Hc; [by left|right]. rewrite status_running_claimable in Hst.
    unfold claimable in Hst.
    rewrite <- (claimable_nil_settled (workflow_job_id w) 0).
    destruct (claimable_from _ _ _); [done|]. exfalso. apply Hst. by split. }
  destruct Hstep as [w limit w' tasks Hcl|w x w' Hr|w]; [|exfalso|by right].
  - left. destruct (claim_ready_inv _ _ _ _ Hok Hcl) as [_ [(Hc & -> & ->)|(Hc & -> & ->)]]; [done|].
    destruct Hset as [?|Hset]; [congruence|]. clear -Hset. destruct w as [j m l c]. simpl in *.
    unfold with_pages. simpl. f_equal. generalize (Z.to_nat limit). intros k. revert k.
    induction l as [|p l IH]; intros [|k]; simpl in *; try done.
    destruct p; simpl in *; try done; by rewrite IH.
  - pose proof (record_report_not_active w x (settled_no_active w x.1 Hset)) as Hno.
    by rewrite Hr in Hno.
Qed.

Definition finished_workflow : PageWorkflow :=
  mkPageWorkflow sample_job 2 [Succeeded 1; Exhausted 2] false.

Lemma settled_workflow_is_final_witness :
  status finished_workflow = PageWorkflowStatus.Partial ∧
  (finished_workflow = finished_workflow ∨ finished_workflow = request_cancellation finished_workflow).
Proof.
  split; [reflexivity|]. apply settled_workflow_is_final.
  - split; vm_compute; [split; discriminate..|]. repeat constructor; discriminate.
  - discriminate.
  - apply (step_claim _ 5 _ []). reflexivity.
Defined.

(** Activity keys identify a page attempt: two valid jobs give the same key to two
    attempts only if job, page and attempt are the same, so a provider-side or database
    record filed under a key belongs to one attempt. *)
Theorem activity_key_identifies_attempt j1 j2 p1 p2 a1 a2 :
  id_valid j1 → id_valid j2 → in_width u32_max p1 → in_width u32_max p2 →
  in_width u8_max a1 → in_width u8_max a2 →
  activity_key_of j1 p1 a1 = activity_key_of j2 p2 a2 → j1 = j2 ∧ p1 = p2 ∧ a1 = a2.
Proof.
  unfold in_width, u32_max, u8_max. intros Hj1 Hj2 Hp1 Hp2 Ha1 Ha2.
  apply activity_key_of_inj; unfold u64_max; done || lia.
Qed.

Lemma activity_key_identifies_attempt_witness :
  id_valid sample_job ∧ sample_job = sample_job ∧ 12 = 12 ∧ 3 = 3.
Proof.
  split; [reflexivity|].
  apply (activity_key_identifies_attempt sample_job sample_job 12 12 3 3);
    (reflexivity || (split; vm_compute; discriminate)).
Defined.
