(* ===== verification/JobLifecycle.v ===== *)
(** * JobLifecycle: the domain state machine of a job

    Models [JobLifecycle] of [ocr-domain/src/lib.rs]: its two mutators and the wire
    check.  [lifecycle_trace] runs any sequence of calls, a refused call leaving the
    state as it was, and returns every state on the way. *)

From S2P Require Import Prelude DomainTypes.

Record JobLifecycle := mkJobLifecycle { state : JobState }.
Record RawJobLifecycle := mkRawJobLifecycle { raw_state : JobState }.

#[export] Instance JobLifecycle_eq_dec : EqDecision JobLifecycle.
Proof. solve_decision. Defined.

Definition JobLifecycle_new : JobLifecycle := {| state := Accepted |}.

Definition JobLifecycle_try_from (value : RawJobLifecycle) : result Error JobLifecycle :=
  if decide (raw_state value = Accepted) then Ok JobLifecycle_new
  else Err InvalidInitialJobState.

Definition is_allowed_transition (from to : JobState) : bool :=
  match from, to with
  | Accepted, Inspecting
  | Inspecting, Rejected
  | Inspecting, Processing
  | Processing, Validating
  | Processing, Partial
  | Validating, Completed
  | Validating, ReviewRequired
  | Accepted, Cancelling
  | Inspecting, Cancelling
  | Processing, Cancelling
  | Validating, Cancelling
  | Cancelling, Cancelled
  | Partial, ReviewRequired => true
  | _, _ => false
  end.

Definition transition_to (self : JobLifecycle) (next : JobState) : result Error JobLifecycle :=
  if bool_decide (state self = next) || is_allowed_transition (state self) next
  then Ok {| state := next |}
  else Err (InvalidJobTransition (state self) next).

(** The new lifecycle, with the state the method returns. *)
Definition request_cancellation (self : JobLifecycle)
    : result Error (JobLifecycle * JobState) :=
  match state self with
  | Accepted | Inspecting | Processing | Validating =>
      Ok ({| state := Cancelling |}, Cancelling)
  | Cancelling | Cancelled => Ok (self, state self)
  | _ => Err (InvalidJobTransition (state self) Cancelling)
  end.

(** ** Runs *)

Inductive LifecycleCall :=
| TransitionTo (next : JobState)
| RequestCancellation.

Definition lifecycle_call (self : JobLifecycle) (c : LifecycleCall) : result Error JobLifecycle :=
  match c with
  | TransitionTo next => transition_to self next
  | RequestCancellation => let? (l, _) := request_cancellation self in Ok l
  end.

(** A caller that goes on after an error keeps the lifecycle it had. *)
Definition lifecycle_after (self : JobLifecycle) (c : LifecycleCall) : JobLifecycle :=
  match lifecycle_call self c with
  | Ok l => l
  | Err _ => self
  end.

Fixpoint lifecycle_trace (self : JobLifecycle) (calls : list LifecycleCall) : list JobState :=
  match calls with
  | [] => [state self]
  | c :: calls' => state self :: lifecycle_trace (lifecycle_after self c) calls'
  end.

(** The number of calls that changed the state. *)
Fixpoint state_changes (trace : list JobState) : nat :=
  match trace with
  | s :: (s' :: _) as trace' => (if decide (s = s') then 0 else 1)%nat + state_changes trace'
  | _ => 0
  end%nat.

Definition is_final (s : JobState) : bool :=
  match s with
  | Cancelled | Rejected | ReviewRequired | Completed => true
  | _ => false
  end.

(** The longest run of transitions that can still follow. *)
Definition moves_left (s : JobState) : nat :=
  match s with
  | Accepted => 5
  | Inspecting => 4
  | Processing => 3
  | Validating => 2
  | Cancelling | Partial => 1
  | Cancelled | Rejected | ReviewRequired | Completed => 0
  end.

(** ** Lemmas *)

Lemma allowed_moves_left s t :
  is_allowed_transition s t = true → (moves_left t < moves_left s)%nat.
Proof. destruct s, t; simpl; intros [=]; lia. Qed.

(** Each call keeps the state or takes one allowed transition. *)
Lemma lifecycle_after_spec l c :
  lifecycle_after l c = l
  ∨ is_allowed_transition (state l) (state (lifecycle_after l c)) = true.
Proof.
  unfold lifecycle_after, lifecycle_call, transition_to, request_cancellation.
  destruct l as [s], c as [next|]; simpl.
  - destruct (bool_decide (s = next)) eqn:He; simpl.
    + apply bool_decide_eq_true in He as ->. by left.
    + destruct (is_allowed_transition s next) eqn:Ha; simpl; [by right | by left].
  - destruct s; simpl; first [by left | by right].
Qed.

Lemma lifecycle_trace_head l calls : ∃ rest, lifecycle_trace l calls = state l :: rest.
Proof. destruct calls; simpl; eauto. Qed.

Lemma lifecycle_after_final l c : is_final (state l) = true → lifecycle_after l c = l.
Proof.
  intros Hf. destruct (lifecycle_after_spec l c) as [|Ha]; [done|].
  exfalso. destruct (state l), (state (lifecycle_after l c)); done.
Qed.

Lemma state_changes_cons l c calls :
  state_changes (lifecycle_trace l (c :: calls)) =
  ((if decide (state l = state (lifecycle_after l c)) then 0 else 1)
   + state_changes (lifecycle_trace (lifecycle_after l c) calls))%nat.
Proof.
  simpl. destruct (lifecycle_trace_head (lifecycle_after l c) calls) as [rest ->]. done.
Qed.

(** ** Theorems *)

(** Whatever sequence of transitions and cancellation requests a job goes
    through, accepted or refused, it changes state at most [moves_left] times (five
    times from a new job), and once in a final state it stays there for ever. *)
Theorem lifecycle_converges l calls :
  (state_changes (lifecycle_trace l calls) ≤ moves_left (state l))%nat
  ∧ (is_final (state l) = true →
     lifecycle_trace l calls = replicate (S (length calls)) (state l)).
Proof.
  revert l. induction calls as [|c calls IH]; intros l; [simpl; split; [lia|done]|].
  rewrite state_changes_cons. destruct (IH (lifecycle_after l c)) as [Hn Hf]. split.
  - destruct (lifecycle_after_spec l c) as [He|Ha].
    + rewrite He in *. rewrite decide_True by done. lia.
    + apply allowed_moves_left in Ha. case_decide; lia.
  - intros Hfin. simpl. rewrite lifecycle_after_final in * by done. by rewrite Hf.
Qed.

Theorem lifecycle_converges_witness :
  lifecycle_trace {| state := Completed |} [RequestCancellation; TransitionTo Accepted]
  = [Completed; Completed; Completed].
Proof.
  apply (lifecycle_converges {| state := Completed |}
           [RequestCancellation; TransitionTo Accepted]). reflexivity.
Defined.

(** A cancellation request does what a transition to [Cancelling] does, except
    that it also succeeds, changing nothing, on a job that is already cancelled; so
    every state but a delivered or rejected one accepts it, and repeating it is
    harmless. *)
Theorem request_cancellation_is_transition l :
  (let? (l', _) := request_cancellation l in Ok l')
  = (if decide (state l = Cancelled) then Ok l else transition_to l Cancelling)
  ∧ (∀ l' s, request_cancellation l = Ok (l', s) →
       s = state l' ∧ (s = Cancelling ∨ s = Cancelled)
       ∧ request_cancellation l' = Ok (l', s)).
Proof.
  split.
  - by destruct l as [[]].
  - intros l' s. destruct l as [[]]; simpl; intros [= <- <-]; auto.
Qed.

Theorem request_cancellation_is_transition_witness :
  request_cancellation {| state := Cancelling |} = Ok ({| state := Cancelling |}, Cancelling).
Proof.
  destruct (request_cancellation_is_transition {| state := Validating |}) as [_ H].
  by apply (H {| state := Cancelling |} Cancelling).
Defined.
