(* ===== verification/Geometry.v ===== *)
(** * Geometry: confidences, pages, polygons and evidence

    Models the checked value types of [ocr-domain/src/lib.rs] that carry numbers:
    [Confidence], [PageNumber], [PageGeometry], [NormalizedPoint], [Polygon] and
    [Evidence].  A [Raw] record is the wire form of its type: [X_try_from] is the
    check [serde] runs on it and [X_to_raw] is [derive(Serialize)].  [Wire] is the
    interface all the document types share. *)

From S2P Require Import Prelude Float64 DomainTypes Identifiers.

#[local] Open Scope Z_scope.

(** A type with a checked wire form. *)
Class Wire (Raw T : Type) := {
  to_wire : T → Raw;
  of_wire : Raw → result Error T;
}.

(** [t] is in the image of its own check: reading back what it serializes to
    succeeds and gives [t] again. *)
Definition wire_stable {Raw T : Type} `{Wire Raw T} (t : T) : Prop :=
  of_wire (to_wire t) = Ok t.

(** ** Confidence *)

Record Confidence := mkConfidence { Confidence_value : f64 }.

Definition Confidence_new (value : f64) : result Error Confidence :=
  if is_finite value && in_unit value then Ok (mkConfidence value) else Err InvalidConfidence.

#[export] Instance Confidence_wire : Wire f64 Confidence :=
  {| to_wire := Confidence_value; of_wire := Confidence_new |}.

(** ** PageNumber *)

Record PageNumber := mkPageNumber { PageNumber_value : Z }.

Definition PageNumber_new (value : Z) : result Error PageNumber :=
  if value =? 0 then Err InvalidPageNumber else Ok (mkPageNumber value).

#[export] Instance PageNumber_wire : Wire Z PageNumber :=
  {| to_wire := PageNumber_value; of_wire := PageNumber_new |}.

(** ** PageGeometry *)

Record PageGeometry := mkPageGeometry {
  geometry_page : PageNumber;
  geometry_width : Z;
  geometry_height : Z;
}.

Record RawPageGeometry := mkRawPageGeometry {
  raw_geometry_page : PageNumber;
  raw_geometry_width : Z;
  raw_geometry_height : Z;
}.

Definition PageGeometry_new (page : PageNumber) (width height : Z) : result Error PageGeometry :=
  let? pixels := ok_or (checked_mul u64_max width height) InvalidPageGeometry in
  if (width =? 0) || (height =? 0) || (100000000 <? pixels)
  then Err InvalidPageGeometry
  else Ok {| geometry_page := page; geometry_width := width; geometry_height := height |}.

(** [u64::from(self.width) * u64::from(self.height)], wrapping as a release build. *)
Definition PageGeometry_pixels (self : PageGeometry) : Z :=
  (geometry_width self * geometry_height self) mod 2 ^ 64.

Definition PageGeometry_try_from (value : RawPageGeometry) : result Error PageGeometry :=
  PageGeometry_new (raw_geometry_page value) (raw_geometry_width value)
    (raw_geometry_height value).

Definition PageGeometry_to_raw (self : PageGeometry) : RawPageGeometry :=
  {| raw_geometry_page := geometry_page self; raw_geometry_width := geometry_width self;
     raw_geometry_height := geometry_height self |}.

#[export] Instance PageGeometry_wire : Wire RawPageGeometry PageGeometry :=
  {| to_wire := PageGeometry_to_raw; of_wire := PageGeometry_try_from |}.

(** ** NormalizedPoint *)

Record NormalizedPoint := mkNormalizedPoint { point_x : f64; point_y : f64 }.
Record RawPoint := mkRawPoint { raw_x : f64; raw_y : f64 }.

Definition NormalizedPoint_new (x y : f64) : result Error NormalizedPoint :=
  if is_finite x && is_finite y && in_unit x && in_unit y
  then Ok {| point_x := x; point_y := y |} else Err InvalidPoint.

Definition NormalizedPoint_try_from (value : RawPoint) : result Error NormalizedPoint :=
  NormalizedPoint_new (raw_x value) (raw_y value).

#[export] Instance NormalizedPoint_wire : Wire RawPoint NormalizedPoint :=
  {| to_wire := λ p, {| raw_x := point_x p; raw_y := point_y p |};
     of_wire := NormalizedPoint_try_from |}.

(** ** Polygon *)

Record Polygon := mkPolygon { points : list NormalizedPoint }.
Record RawPolygon := mkRawPolygon { raw_points : list NormalizedPoint }.

(** [points.iter().cycle().skip(1)], as far as [take] reads it. *)
Definition next_points (points : list NormalizedPoint) : list NormalizedPoint :=
  match points with
  | [] => []
  | p :: rest => rest ++ [p]
  end.

(** Twice the shoelace area; the sum runs from left to right. *)
Definition signed_double_area (points : list NormalizedPoint) : f64 :=
  fold_left f64_add
    (zip_with (λ left right, f64_sub (f64_mul (point_x left) (point_y right))
                                     (f64_mul (point_x right) (point_y left)))
       points (next_points points))
    f64_zero.

Definition Polygon_new (points : list NormalizedPoint) : result Error Polygon :=
  if (zlen points <? 3) || f64_le (f64_abs (signed_double_area points)) f64_epsilon
  then Err InvalidPolygon else Ok {| points := points |}.

Definition Polygon_try_from (value : RawPolygon) : result Error Polygon :=
  Polygon_new (raw_points value).

#[export] Instance Polygon_wire : Wire RawPolygon Polygon :=
  {| to_wire := λ p, {| raw_points := points p |}; of_wire := Polygon_try_from |}.

(** ** Evidence *)

Record Evidence := mkEvidence {
  evidence_page : PageNumber;
  evidence_polygon : Polygon;
  evidence_observation_id : ObservationId;
}.

#[export] Instance Confidence_eq_dec : EqDecision Confidence.
Proof. solve_decision. Defined.
#[export] Instance PageNumber_eq_dec : EqDecision PageNumber.
Proof. solve_decision. Defined.
#[export] Instance PageGeometry_eq_dec : EqDecision PageGeometry.
Proof. solve_decision. Defined.
#[export] Instance NormalizedPoint_eq_dec : EqDecision NormalizedPoint.
Proof. solve_decision. Defined.
#[export] Instance Polygon_eq_dec : EqDecision Polygon.
Proof. solve_decision. Defined.
#[export] Instance Evidence_eq_dec : EqDecision Evidence.
Proof. solve_decision. Defined.

(** ** What the constructors accept *)

Lemma Confidence_new_Ok value c :
  Confidence_new value = Ok c ↔ c = mkConfidence value ∧ in_unit value = true.
Proof.
  unfold Confidence_new. split.
  - destruct (is_finite value && in_unit value) eqn:Hv; [|done].
    boolify. intros [= <-]. naive_solver.
  - intros [-> Hu]. by rewrite Hu, (in_unit_finite _ Hu).
Qed.

Lemma PageNumber_new_Ok value p :
  PageNumber_new value = Ok p ↔ p = mkPageNumber value ∧ value ≠ 0.
Proof. unfold PageNumber_new. destruct (Z.eqb_spec value 0); naive_solver. Qed.

(** Side lengths are [u32]: their product always fits, so the overflow branch of the
    constructor is never taken and [pixels] is the exact product. *)
Lemma u32_product_fits a b :
  in_width u32_max a → in_width u32_max b → in_width u64_max (a * b).
Proof. unfold in_width, u32_max, u64_max. nia. Qed.

Lemma PageGeometry_new_Ok page width height g :
  in_width u32_max width → in_width u32_max height →
  PageGeometry_new page width height = Ok g ↔
  g = mkPageGeometry page width height ∧ 0 < width ∧ 0 < height ∧ width * height ≤ 100000000.
Proof.
  intros Hw Hh. unfold PageGeometry_new, checked_mul.
  assert (checked u64_max (width * height) = Some (width * height)) as ->.
  { apply checked_Some. split; [done | by apply u32_product_fits]. }
  simpl. unfold in_width in *.
  destruct (Z.eqb_spec width 0), (Z.eqb_spec height 0),
    (Z.ltb_spec 100000000 (width * height)); simpl;
    split; try (intros [= <-]); try done; try naive_solver lia; try (intros [-> ?]); try done;
    try lia.
Qed.

Lemma NormalizedPoint_new_Ok x y p :
  NormalizedPoint_new x y = Ok p ↔
  p = mkNormalizedPoint x y ∧ in_unit x = true ∧ in_unit y = true.
Proof.
  unfold NormalizedPoint_new. split.
  - destruct (_ && _) eqn:Hv; [|done]. boolify. intros [= <-]. naive_solver.
  - intros (-> & Hx & Hy). by rewrite Hx, Hy, !in_unit_finite.
Qed.

Lemma Polygon_new_Ok ps p :
  Polygon_new ps = Ok p ↔
  p = mkPolygon ps ∧ 3 ≤ zlen ps ∧ f64_le (f64_abs (signed_double_area ps)) f64_epsilon = false.
Proof.
  unfold Polygon_new.
  destruct (Z.ltb_spec (zlen ps) 3), (f64_le _ _); simpl; naive_solver lia.
Qed.

Definition geometry_ok (g : PageGeometry) : Prop :=
  in_width u32_max (geometry_width g) ∧ in_width u32_max (geometry_height g)
  ∧ ∃ page width height, in_width u32_max width ∧ in_width u32_max height
      ∧ PageGeometry_new page width height = Ok g.

Lemma geometry_ok_pixels g : geometry_ok g →
  PageGeometry_pixels g = geometry_width g * geometry_height g
  ∧ 1 ≤ PageGeometry_pixels g ≤ 100000000.
Proof.
  intros (_ & _ & page & w & h & Hw & Hh & Hn).
  apply PageGeometry_new_Ok in Hn as (-> & ? & ? & ?); [|done..].
  unfold PageGeometry_pixels. simpl. rewrite Z.mod_small; nia.
Qed.
