(* ===== verification/Document.v ===== *)
(** * Document: recognised pages, extracted fields, tables and results

    Models the document contract of [ocr-domain/src/lib.rs], from [TextObservation]
    to [DocumentResult]: every constructor with its guards in order, and the [Raw]
    forms [serde] checks.  A JSON value ([serde_json::Value]) is the parameter
    [Value]; a [BTreeMap<String, _>] is a [gmap] (its key order is not observed
    here).  The theorems are in [DocumentFacts]. *)

From S2P Require Import Prelude Text Float64 DomainTypes Identifiers Geometry.

#[local] Open Scope Z_scope.

Definition RESULT_SCHEMA_VERSION : string := "1.0".

(** ** TextObservation *)

Inductive ObservationLevel := Page | Paragraph | Line | Word.

#[export] Instance ObservationLevel_eq_dec : EqDecision ObservationLevel.
Proof. solve_decision. Defined.

Record TextObservation := mkTextObservation {
  observation_id : ObservationId;
  level : ObservationLevel;
  observation_text : string;
  observation_confidence : Confidence;
  observation_polygon : Polygon;
  reading_order : Z;
  parent_observation_id : option ObservationId;
}.

#[export] Instance TextObservation_eq_dec : EqDecision TextObservation.
Proof. solve_decision. Defined.

Record RawTextObservation := mkRawTextObservation {
  raw_observation_id : ObservationId;
  raw_level : ObservationLevel;
  raw_observation_text : string;
  raw_observation_confidence : Confidence;
  raw_observation_polygon : Polygon;
  raw_reading_order : Z;
  raw_parent_observation_id : option ObservationId;
}.

Definition TextObservation_new (id : ObservationId) (lvl : ObservationLevel) (text : string)
    (conf : Confidence) (poly : Polygon) (order : Z) (parent : option ObservationId)
    : result Error TextObservation :=
  if trim_is_empty text || (65536 <? strlen text) then Err InvalidTextObservation
  else if bool_decide (parent = Some id) then Err InvalidTextObservation
  else Ok {| observation_id := id; level := lvl; observation_text := text;
             observation_confidence := conf; observation_polygon := poly;
             reading_order := order; parent_observation_id := parent |}.

Definition TextObservation_try_from (value : RawTextObservation) : result Error TextObservation :=
  TextObservation_new (raw_observation_id value) (raw_level value) (raw_observation_text value)
    (raw_observation_confidence value) (raw_observation_polygon value)
    (raw_reading_order value) (raw_parent_observation_id value).

Definition TextObservation_to_raw (self : TextObservation) : RawTextObservation :=
  {| raw_observation_id := observation_id self; raw_level := level self;
     raw_observation_text := observation_text self;
     raw_observation_confidence := observation_confidence self;
     raw_observation_polygon := observation_polygon self;
     raw_reading_order := reading_order self;
     raw_parent_observation_id := parent_observation_id self |}.

#[export] Instance TextObservation_wire : Wire RawTextObservation TextObservation :=
  {| to_wire := TextObservation_to_raw; of_wire := TextObservation_try_from |}.

(** ** DocumentPage *)

Record DocumentPage := mkDocumentPage {
  page : PageNumber;
  page_width : Z;
  page_height : Z;
  observations : list TextObservation;
}.

#[export] Instance DocumentPage_eq_dec : EqDecision DocumentPage.
Proof. solve_decision. Defined.

Record RawDocumentPage := mkRawDocumentPage {
  raw_page : PageNumber;
  raw_page_width : Z;
  raw_page_height : Z;
  raw_observations : list TextObservation;
}.

(** The loop over the sorted observations: [true] when every insertion is new and
    every parent has been seen. *)
Fixpoint scan_observations (seen_ids : gset ObservationId) (seen_orders : gset Z)
    (observations : list TextObservation) : bool :=
  match observations with
  | [] => true
  | observation :: rest =>
      if bool_decide (reading_order observation ∈ seen_orders)
         || match parent_observation_id observation with
            | Some parent => negb (bool_decide (parent ∈ seen_ids))
            | None => false
            end
         || bool_decide (observation_id observation ∈ seen_ids)
      then false
      else scan_observations ({[observation_id observation]} ∪ seen_ids)
             ({[reading_order observation]} ∪ seen_orders) rest
  end.

Definition DocumentPage_new (page : PageNumber) (width height : Z)
    (observations : list TextObservation) : result Error DocumentPage :=
  if (width =? 0) || (height =? 0) || (100000 <? zlen observations)
  then Err InvalidDocumentPage
  else
    let observations := sort_by_key reading_order observations in
    if scan_observations ∅ ∅ observations
    then Ok {| page := page; page_width := width; page_height := height;
               observations := observations |}
    else Err InvalidDocumentPage.

Definition DocumentPage_try_from (value : RawDocumentPage) : result Error DocumentPage :=
  DocumentPage_new (raw_page value) (raw_page_width value) (raw_page_height value)
    (raw_observations value).

Definition DocumentPage_to_raw (self : DocumentPage) : RawDocumentPage :=
  {| raw_page := page self; raw_page_width := page_width self;
     raw_page_height := page_height self; raw_observations := observations self |}.

#[export] Instance DocumentPage_wire : Wire RawDocumentPage DocumentPage :=
  {| to_wire := DocumentPage_to_raw; of_wire := DocumentPage_try_from |}.

(** ** Tables *)

Record TableCell := mkTableCell {
  row : Z;
  column : Z;
  cell_text : string;
  cell_confidence : Confidence;
  cell_evidence : list Evidence;
}.

#[export] Instance TableCell_eq_dec : EqDecision TableCell.
Proof. solve_decision. Defined.

Definition TableCell_new (row column : Z) (text : string) (confidence : Confidence)
    (evidence : list Evidence) : result Error TableCell :=
  match evidence with
  | [] => Err MissingEvidence
  | _ => Ok {| row := row; column := column; cell_text := text;
               cell_confidence := confidence; cell_evidence := evidence |}
  end.

Record RawTableCell := mkRawTableCell {
  raw_row : Z;
  raw_column : Z;
  raw_cell_text : string;
  raw_cell_confidence : Confidence;
  raw_cell_evidence : list Evidence;
}.

Definition TableCell_try_from (value : RawTableCell) : result Error TableCell :=
  TableCell_new (raw_row value) (raw_column value) (raw_cell_text value)
    (raw_cell_confidence value) (raw_cell_evidence value).

#[export] Instance TableCell_wire : Wire RawTableCell TableCell :=
  {| to_wire := λ c, mkRawTableCell (row c) (column c) (cell_text c) (cell_confidence c)
                       (cell_evidence c);
     of_wire := TableCell_try_from |}.

Record DocumentTable := mkDocumentTable {
  table_id : TableId;
  cells : list TableCell;
}.

#[export] Instance DocumentTable_eq_dec : EqDecision DocumentTable.
Proof. solve_decision. Defined.

Definition DocumentTable_new (table_id : TableId) (cells : list TableCell)
    : result Error DocumentTable :=
  if (zlen cells =? 0) || (10000 <? zlen cells) then Err InvalidTable
  else Ok {| table_id := table_id; cells := cells |}.

Record RawDocumentTable := mkRawDocumentTable {
  raw_table_id : TableId;
  raw_cells : list TableCell;
}.

Definition DocumentTable_try_from (value : RawDocumentTable) : result Error DocumentTable :=
  DocumentTable_new (raw_table_id value) (raw_cells value).

#[export] Instance DocumentTable_wire : Wire RawDocumentTable DocumentTable :=
  {| to_wire := λ t, mkRawDocumentTable (table_id t) (cells t);
     of_wire := DocumentTable_try_from |}.

(** ** Confidence dimensions, failures, provenance, cost *)

Record ConfidenceDimensions := mkConfidenceDimensions {
  input_quality : Confidence;
  ocr : Confidence;
  classification : Confidence;
  extraction : Confidence;
  validation : Confidence;
  overall : Confidence;
}.

#[export] Instance ConfidenceDimensions_eq_dec : EqDecision ConfidenceDimensions.
Proof. solve_decision. Defined.

Definition ConfidenceDimensions_new (input_quality ocr classification extraction validation
    overall : f64) : result Error ConfidenceDimensions :=
  let? c1 := Confidence_new input_quality in
  let? c2 := Confidence_new ocr in
  let? c3 := Confidence_new classification in
  let? c4 := Confidence_new extraction in
  let? c5 := Confidence_new validation in
  let? c6 := Confidence_new overall in
  Ok (mkConfidenceDimensions c1 c2 c3 c4 c5 c6).

Module ValidationSeverity.
Inductive ValidationSeverity := Warning | Error.

#[export] Instance ValidationSeverity_eq_dec : EqDecision ValidationSeverity.
Proof. solve_decision. Defined.
End ValidationSeverity.
Export (hints) ValidationSeverity.

Record ValidationFailure := mkValidationFailure {
  failure_code : StableCode;
  severity : ValidationSeverity.ValidationSeverity;
}.

#[export] Instance ValidationFailure_eq_dec : EqDecision ValidationFailure.
Proof. solve_decision. Defined.

Record ProcessingProvenance := mkProcessingProvenance {
  provider : string;
  model_version : string;
  processing_profile_version : string;
  duration_ms : Z;
}.

#[export] Instance ProcessingProvenance_eq_dec : EqDecision ProcessingProvenance.
Proof. solve_decision. Defined.

Definition version_byte (a : ascii) : bool := is_ascii_alphanumeric a || byte_in "._-" a.

Definition valid_version_name (value : string) : bool :=
  contains 1 128 (strlen value)
  && all_bytes version_byte value
  && is_some_and is_ascii_alphanumeric (first_byte value).

Definition ProcessingProvenance_new (provider model_version profile : string) (duration_ms : Z)
    : result Error ProcessingProvenance :=
  if negb (valid_version_name provider) || negb (valid_version_name model_version)
     || negb (valid_version_name profile)
  then Err InvalidProcessingProvenance
  else Ok {| provider := provider; model_version := model_version;
             processing_profile_version := profile; duration_ms := duration_ms |}.

Record RawProcessingProvenance := mkRawProcessingProvenance {
  raw_provider : string;
  raw_model_version : string;
  raw_processing_profile_version : string;
  raw_duration_ms : Z;
}.

Definition ProcessingProvenance_try_from (value : RawProcessingProvenance)
    : result Error ProcessingProvenance :=
  ProcessingProvenance_new (raw_provider value) (raw_model_version value)
    (raw_processing_profile_version value) (raw_duration_ms value).

#[export] Instance ProcessingProvenance_wire
    : Wire RawProcessingProvenance ProcessingProvenance :=
  {| to_wire := λ p, mkRawProcessingProvenance (provider p) (model_version p)
                       (processing_profile_version p) (duration_ms p);
     of_wire := ProcessingProvenance_try_from |}.

Record Cost := mkCost { currency : string; decimal : string }.

#[export] Instance Cost_eq_dec : EqDecision Cost.
Proof. solve_decision. Defined.

(** [decimal.split('.')]: a whole part, at most one fraction, digits only. *)
Definition valid_decimal (decimal : string) : bool :=
  match split_on "." decimal with
  | [] => false
  | whole :: parts =>
      negb (is_empty whole) && all_bytes is_ascii_digit whole
      && match parts with
         | [] => true
         | fraction :: parts' =>
             negb (is_empty fraction) && all_bytes is_ascii_digit fraction
             && match parts' with [] => true | _ => false end
         end
  end.

Definition Cost_new (currency decimal : string) : result Error Cost :=
  let valid_currency := (strlen currency =? 3) && all_bytes is_ascii_uppercase currency in
  if negb valid_currency || negb (valid_decimal decimal) then Err InvalidCost
  else Ok {| currency := currency; decimal := decimal |}.

Record RawCost := mkRawCost { raw_currency : string; raw_decimal : string }.

Definition Cost_try_from (value : RawCost) : result Error Cost :=
  Cost_new (raw_currency value) (raw_decimal value).

#[export] Instance Cost_wire : Wire RawCost Cost :=
  {| to_wire := λ c, mkRawCost (currency c) (decimal c); of_wire := Cost_try_from |}.

Inductive ContentTrust := Untrusted.

Section Result.
Context {Value : Type}.

(** ** Extracted fields *)

Record ExtractedValue := mkExtractedValue {
  extracted_value : Value;
  extracted_confidence : Confidence;
  extracted_evidence : list Evidence;
}.

Record RawExtractedValue := mkRawExtractedValue {
  raw_extracted_value : Value;
  raw_extracted_confidence : Confidence;
  raw_extracted_evidence : list Evidence;
}.

Definition ExtractedValue_new (value : Value) (confidence : Confidence)
    (evidence : list Evidence) : result Error ExtractedValue :=
  match evidence with
  | [] => Err MissingEvidence
  | _ => Ok {| extracted_value := value; extracted_confidence := confidence;
               extracted_evidence := evidence |}
  end.

Definition ExtractedValue_try_from (value : RawExtractedValue) : result Error ExtractedValue :=
  ExtractedValue_new (raw_extracted_value value) (raw_extracted_confidence value)
    (raw_extracted_evidence value).

#[export] Instance ExtractedValue_wire : Wire RawExtractedValue ExtractedValue :=
  {| to_wire := λ v, mkRawExtractedValue (extracted_value v) (extracted_confidence v)
                       (extracted_evidence v);
     of_wire := ExtractedValue_try_from |}.

(** ** DocumentResult *)

Record DocumentResultPayload := mkDocumentResultPayload {
  payload_text : string;
  payload_markdown : string;
  payload_pages : list DocumentPage;
  payload_fields : gmap string ExtractedValue;
  payload_tables : list DocumentTable;
  payload_confidence : option ConfidenceDimensions;
  payload_citations : list Evidence;
  payload_warnings : list StableCode;
  payload_validation_failures : list ValidationFailure;
  payload_provenance : option ProcessingProvenance;
  payload_cost : option Cost;
}.

(** [DocumentResultPayload::default()]. *)
Definition DocumentResultPayload_default : DocumentResultPayload :=
  mkDocumentResultPayload "" "" [] ∅ [] None [] [] [] None None.

Record DocumentResult := mkDocumentResult {
  schema_version : string;
  document_id : DocumentId;
  document_version : DocumentVersion;
  content_trust : ContentTrust;
  result_text : string;
  result_markdown : string;
  result_pages : list DocumentPage;
  result_fields : gmap string ExtractedValue;
  result_tables : list DocumentTable;
  result_confidence : option ConfidenceDimensions;
  result_citations : list Evidence;
  result_warnings : list StableCode;
  result_validation_failures : list ValidationFailure;
  result_provider : option string;
  result_model_version : option string;
  result_processing_profile_version : option string;
  result_duration_ms : option Z;
  result_cost : option Cost;
}.

(** The wire form has the same fields: [RawDocumentResult] is the unchecked record. *)
Record RawDocumentResult := mkRawDocumentResult { raw_result : DocumentResult }.

Definition page_order (p : DocumentPage) : Z := PageNumber_value (page p).

Definition DocumentResult_new (id : DocumentId) (version : DocumentVersion)
    (payload : DocumentResultPayload) : result Error DocumentResult :=
  if (negb (is_empty (payload_text payload)) || negb (is_empty (payload_markdown payload)))
     && (zlen (payload_citations payload) =? 0)
  then Err MissingDocumentEvidence
  else if existsb (λ '(name, _), is_empty name || (128 <? strlen name))
            (map_to_list (payload_fields payload))
  then Err InvalidFieldName
  else if MAXIMUM_PAGE_COUNT <? zlen (payload_pages payload)
  then Err InvalidDocumentPage
  else
    let pages := sort_by_key page_order (payload_pages payload) in
    if any_adjacent (λ p q, bool_decide (page p = page q)) pages
    then Err InvalidDocumentPage
    else
      let provenance := payload_provenance payload in
      Ok {| schema_version := RESULT_SCHEMA_VERSION;
            document_id := id; document_version := version;
            content_trust := Untrusted;
            result_text := payload_text payload;
            result_markdown := payload_markdown payload;
            result_pages := pages;
            result_fields := payload_fields payload;
            result_tables := payload_tables payload;
            result_confidence := payload_confidence payload;
            result_citations := payload_citations payload;
            result_warnings := payload_warnings payload;
            result_validation_failures := payload_validation_failures payload;
            result_provider := provider <$> provenance;
            result_model_version := model_version <$> provenance;
            result_processing_profile_version := processing_profile_version <$> provenance;
            result_duration_ms := duration_ms <$> provenance;
            result_cost := payload_cost payload |}.

(** The provenance of a wire result: all four fields, or none. *)
Definition raw_provenance (value : DocumentResult) : result Error (option ProcessingProvenance) :=
  match result_provider value, result_model_version value,
        result_processing_profile_version value, result_duration_ms value with
  | None, None, None, None => Ok None
  | Some provider, Some model, Some profile, Some duration_ms =>
      let? p := ProcessingProvenance_new provider model profile duration_ms in Ok (Some p)
  | _, _, _, _ => Err InvalidProcessingProvenance
  end.

Definition DocumentResult_try_from (raw : RawDocumentResult) : result Error DocumentResult :=
  let value := raw_result raw in
  if negb (String.eqb (schema_version value) RESULT_SCHEMA_VERSION)
  then Err UnsupportedResultSchemaVersion
  else
    let? provenance := raw_provenance value in
    DocumentResult_new (document_id value) (document_version value)
      {| payload_text := result_text value; payload_markdown := result_markdown value;
         payload_pages := result_pages value; payload_fields := result_fields value;
         payload_tables := result_tables value; payload_confidence := result_confidence value;
         payload_citations := result_citations value; payload_warnings := result_warnings value;
         payload_validation_failures := result_validation_failures value;
         payload_provenance := provenance; payload_cost := result_cost value |}.

#[export] Instance DocumentResult_wire : Wire RawDocumentResult DocumentResult :=
  {| to_wire := mkRawDocumentResult; of_wire := DocumentResult_try_from |}.
End Result.
Arguments ExtractedValue : clear implicits.
Arguments DocumentResultPayload : clear implicits.
Arguments DocumentResult : clear implicits.
