(* ===== verification/DocumentFacts.v ===== *)
(** * DocumentFacts: the invariants of the document contract

    What a recognised page, an evidence region and a document result guarantee once
    constructed, that the order in which observations and pages arrive does not
    matter, and that a constructed value survives serialization. *)

From S2P Require Import Prelude Text Float64 DomainTypes Identifiers Geometry Document.

#[local] Open Scope list_scope.
#[local] Open Scope Z_scope.

(** ** The observation scan of a page *)

(** Every parent is already seen, or comes earlier in the list. *)
Definition parents_precede (seen : gset ObservationId) (l : list TextObservation) : Prop :=
  ∀ l1 o l2 q, l = l1 ++ o :: l2 → parent_observation_id o = Some q →
    q ∈ seen ∨ q ∈ (observation_id <$> l1).

Lemma parents_precede_cons seen o l :
  parents_precede seen (o :: l) ↔
  (∀ q, parent_observation_id o = Some q → q ∈ seen)
  ∧ parents_precede ({[observation_id o]} ∪ seen) l.
Proof.
  unfold parents_precede. split.
  - intros H. split.
    + intros q Hq. destruct (H [] o l q eq_refl Hq) as [|Hin]; [done|]. by inversion Hin.
    + intros l1 p l2 q -> Hq. destruct (H (o :: l1) p l2 q eq_refl Hq) as [|Hin]; [set_solver|].
      rewrite fmap_cons, elem_of_cons in Hin. set_solver.
  - intros [Ho Hl] [|o' l1] p l2 q Heq Hq; simpl in Heq; simplify_eq.
    + left. by apply Ho.
    + destruct (Hl l1 p l2 q eq_refl Hq) as [Hin|Hin]; rewrite fmap_cons, elem_of_cons;
        set_solver.
Qed.

Lemma scan_observations_true ids orders l :
  scan_observations ids orders l = true ↔
  NoDup (reading_order <$> l) ∧ NoDup (observation_id <$> l)
  ∧ (∀ o, o ∈ l → (reading_order o ∉ orders) ∧ (observation_id o ∉ ids))
  ∧ parents_precede ids l.
Proof.
  revert ids orders. induction l as [|o l IH]; intros ids orders.
  - split; [intros _; split_and!; [constructor|constructor|by inversion 1|]|done].
    intros [|? l1] ? ? ? ?; done.
  - simpl. rewrite parents_precede_cons, !NoDup_cons.
    destruct (_ || _) eqn:Hbad; boolify.
    + split; [done|]. intros ((Hno & _) & (Hni & _) & Hfresh & Hpar & _).
      destruct (Hfresh o) as [Hf1 Hf2]; [left|].
      destruct Hbad as [[Hb|Hb]|Hb]; [done| |done].
      destruct (parent_observation_id o) as [q|] eqn:Hq; [|done].
      boolify. destruct Hb. by apply Hpar.
    + destruct Hbad as [[Ho Hq] Hi]. rewrite IH.
      assert (Hpar : ∀ q, parent_observation_id o = Some q → q ∈ ids).
      { intros q Hpq. rewrite Hpq in Hq. boolify. done. }
      setoid_rewrite elem_of_cons. setoid_rewrite list_elem_of_fmap.
      split.
      * intros (H1 & H2 & H3 & H4). split_and!; try done.
        -- intros (p & Heq & Hp). destruct (H3 p Hp). set_solver.
        -- intros (p & Heq & Hp). destruct (H3 p Hp). set_solver.
        -- intros p [->|Hp]; [done|]. destruct (H3 p Hp). set_solver.
      * intros ((H1 & H2) & (H3 & H4) & H5 & _ & H6). split_and!; try done.
        intros p Hp. destruct (H5 p (or_intror Hp)). split.
        -- intros [Heq%elem_of_singleton|]%elem_of_union; [|done]. naive_solver.
        -- intros [Heq%elem_of_singleton|]%elem_of_union; [|done]. naive_solver.
Qed.

(** ** What a page accepts, whatever the order of its observations *)

Record observations_ok (l : list TextObservation) : Prop := {
  orders_distinct : NoDup (reading_order <$> l);
  ids_distinct : NoDup (observation_id <$> l);
  parents_before : ∀ o q, o ∈ l → parent_observation_id o = Some q →
    ∃ p, p ∈ l ∧ observation_id p = q ∧ reading_order p < reading_order o;
}.

#[export] Instance observations_ok_proper : Proper ((≡ₚ) ==> iff) observations_ok.
Proof.
  assert (∀ l k, l ≡ₚ k → observations_ok l → observations_ok k) as Himp.
  { intros l k Hp [H1 H2 H3]. split; [by rewrite <- Hp|by rewrite <- Hp|].
    intros o q. setoid_rewrite <- Hp. apply H3. }
  intros l k Hp. split; apply Himp; [done | by symmetry].
Qed.

Lemma parents_precede_sorted l :
  StronglySorted (λ a b, reading_order a < reading_order b) l →
  parents_precede ∅ l ↔
  ∀ o q, o ∈ l → parent_observation_id o = Some q →
    ∃ p, p ∈ l ∧ observation_id p = q ∧ reading_order p < reading_order o.
Proof.
  intros Hs. split.
  - intros Hp o q (l1 & l2 & ->)%list_elem_of_split Hq.
    destruct (Hp l1 o l2 q eq_refl Hq) as [|(p & -> & Hin)%list_elem_of_fmap]; [set_solver|].
    exists p. split_and!; [set_solver|done|].
    apply StronglySorted_app in Hs as (Hlt & _ & _). apply Hlt; set_solver.
  - intros H l1 o l2 q -> Hq. right.
    destruct (H o q) as (p & Hin & <- & Hlt); [set_solver|done|].
    apply StronglySorted_app in Hs as (_ & _ & Hs2).
    inversion Hs2 as [|? ? _ Hall]; subst. rewrite Forall_forall in Hall.
    apply elem_of_app in Hin as [Hin|Hin]; [by apply list_elem_of_fmap_2|].
    apply elem_of_cons in Hin as [->|Hin]; [lia|]. specialize (Hall p Hin). simpl in Hall. lia.
Qed.

Lemma scan_sorted_observations l :
  scan_observations ∅ ∅ (sort_by_key reading_order l) = true ↔ observations_ok l.
Proof.
  rewrite scan_observations_true. assert (Hp := sort_by_Permutation (le_key reading_order) l).
  change (sort_by (le_key reading_order) l) with (sort_by_key reading_order l) in Hp.
  split.
  - intros (H1 & H2 & _ & H4). rewrite <- Hp. split; [done|done|].
    apply parents_precede_sorted; [|done]. apply sort_by_key_lt. by rewrite <- Hp.
  - intros Hok. assert (H := Hok). rewrite <- Hp in H. destruct H as [H1 H2 H3].
    split_and!; [done|done|set_solver|].
    apply parents_precede_sorted; [|done]. apply sort_by_key_lt. apply Hok.
Qed.

Lemma DocumentPage_new_Ok p w h obs page :
  DocumentPage_new p w h obs = Ok page ↔
  page = mkDocumentPage p w h (sort_by_key reading_order obs)
  ∧ w ≠ 0 ∧ h ≠ 0 ∧ zlen obs ≤ 100000 ∧ observations_ok obs.
Proof.
  unfold DocumentPage_new. rewrite <- scan_sorted_observations.
  destruct (Z.eqb_spec w 0), (Z.eqb_spec h 0), (Z.ltb_spec 100000 (zlen obs)),
    (scan_observations _ _ _); simpl; naive_solver lia.
Qed.

Lemma DocumentPage_new_total p w h obs :
  DocumentPage_new p w h obs = Err InvalidDocumentPage
  ∨ ∃ page, DocumentPage_new p w h obs = Ok page.
Proof. unfold DocumentPage_new. repeat case_match; eauto. Qed.

(** Two calls of a constructor with one error agree as soon as they accept the same. *)
Lemma DocumentPage_new_ext p w h obs obs' :
  (∀ page, DocumentPage_new p w h obs = Ok page ↔ DocumentPage_new p w h obs' = Ok page) →
  DocumentPage_new p w h obs = DocumentPage_new p w h obs'.
Proof.
  intros Hiff. destruct (DocumentPage_new_total p w h obs) as [He|[page Hok]].
  - destruct (DocumentPage_new_total p w h obs') as [He'|[page' Hok']]; [congruence|].
    apply Hiff in Hok'. congruence.
  - rewrite Hok. symmetry. by apply Hiff.
Qed.

(** ** Document results *)

Section ResultFacts.
Context {Value : Type}.
Implicit Types (r : DocumentResult Value) (payload : DocumentResultPayload Value).

(** The provenance fields come together, with valid names. *)
Definition provenance_ok r : Prop :=
  (∃ p, wire_stable p ∧ result_provider r = Some (provider p)
    ∧ result_model_version r = Some (model_version p)
    ∧ result_processing_profile_version r = Some (processing_profile_version p)
    ∧ result_duration_ms r = Some (duration_ms p))
  ∨ (result_provider r = None ∧ result_model_version r = None
    ∧ result_processing_profile_version r = None ∧ result_duration_ms r = None).

Record result_ok r : Prop := {
  schema_ok : schema_version r = RESULT_SCHEMA_VERSION;
  evidence_ok : (result_text r ≠ "" ∨ result_markdown r ≠ "") → result_citations r ≠ [];
  fields_ok : ∀ name v, result_fields r !! name = Some v → 1 ≤ strlen name ≤ 128;
  page_count_ok : zlen (result_pages r) ≤ MAXIMUM_PAGE_COUNT;
  pages_sorted : StronglySorted (λ p q, page_order p < page_order q) (result_pages r);
  result_provenance_ok : provenance_ok r;
}.

(** The guards of [DocumentResult::new], as propositions. *)
Record payload_ok payload : Prop := {
  payload_evidence : (payload_text payload ≠ "" ∨ payload_markdown payload ≠ "") →
    payload_citations payload ≠ [];
  payload_names : ∀ name v, payload_fields payload !! name = Some v → 1 ≤ strlen name ≤ 128;
  payload_page_count : zlen (payload_pages payload) ≤ MAXIMUM_PAGE_COUNT;
  payload_pages_distinct : NoDup (page_order <$> payload_pages payload);
}.

(** What the constructor returns once its guards pass. *)
Definition assembled (id : DocumentId) (version : DocumentVersion) payload : DocumentResult Value :=
  let provenance := payload_provenance payload in
  {| schema_version := RESULT_SCHEMA_VERSION; document_id := id; document_version := version;
     content_trust := Untrusted; result_text := payload_text payload;
     result_markdown := payload_markdown payload;
     result_pages := sort_by_key page_order (payload_pages payload);
     result_fields := payload_fields payload; result_tables := payload_tables payload;
     result_confidence := payload_confidence payload;
     result_citations := payload_citations payload; result_warnings := payload_warnings payload;
     result_validation_failures := payload_validation_failures payload;
     result_provider := provider <$> provenance;
     result_model_version := model_version <$> provenance;
     result_processing_profile_version := processing_profile_version <$> provenance;
     result_duration_ms := duration_ms <$> provenance; result_cost := payload_cost payload |}.

Lemma missing_evidence_false (text markdown : string) (citations : list Evidence) :
  (negb (is_empty text) || negb (is_empty markdown)) && (zlen citations =? 0) = false ↔
  ((text ≠ "" ∨ markdown ≠ "") → citations ≠ []).
Proof.
  assert (Hz : zlen citations = 0 ↔ citations = []).
  { unfold zlen. rewrite <- length_zero_iff_nil. lia. }
  destruct (is_empty text) eqn:Ht, (is_empty markdown) eqn:Hm; simpl;
    try apply is_empty_true in Ht; try apply is_empty_true in Hm;
    repeat match goal with H : is_empty ?s = false |- _ =>
      assert (s ≠ "") by (intros ->; done); clear H end;
    destruct (Z.eqb_spec (zlen citations) 0); naive_solver.
Qed.

Lemma field_names_false (fields : gmap string (ExtractedValue Value)) :
  existsb (λ '(name, _), is_empty name || (128 <? strlen name)) (map_to_list fields) = false ↔
  ∀ name v, fields !! name = Some v → 1 ≤ strlen name ≤ 128.
Proof.
  rewrite <- not_true_iff_false, existsb_exists. split.
  - intros Hno name v Hl.
    destruct (is_empty name || (128 <? strlen name)) eqn:Hb.
    + destruct Hno. exists (name, v). rewrite <- list_elem_of_In, elem_of_map_to_list. done.
    + boolify. destruct Hb as [He%is_empty_false Hlt]. lia.
  - intros H ([name v] & Hin%list_elem_of_In%elem_of_map_to_list & Hb).
    apply H in Hin. boolify. destruct Hb as [->%is_empty_true|]; [|lia].
    unfold strlen in Hin. simpl in Hin. lia.
Qed.

Lemma same_page_spec (p q : DocumentPage) :
  bool_decide (page p = page q) = true ↔ page_order p = page_order q.
Proof.
  rewrite bool_decide_eq_true. unfold page_order. split; [by intros ->|].
  destruct (page p), (page q). simpl. congruence.
Qed.

Lemma DocumentResult_new_Ok id version payload r :
  DocumentResult_new id version payload = Ok r ↔
  payload_ok payload ∧ r = assembled id version payload.
Proof.
  unfold DocumentResult_new.
  destruct (_ && _) eqn:He; [split; [done|]|].
  { intros [[H _ _ _] _]. by rewrite (proj2 (missing_evidence_false _ _ _) H) in He. }
  assert (Hev := proj1 (missing_evidence_false _ _ _) He).
  destruct (existsb _ _) eqn:Hf; [split; [done|]|].
  { intros [[_ H _ _] _]. by rewrite (proj2 (field_names_false _) H) in Hf. }
  assert (Hn := proj1 (field_names_false _) Hf).
  destruct (Z.ltb_spec MAXIMUM_PAGE_COUNT (zlen (payload_pages payload)));
    [split; [done|]; intros [[_ _ ? _] _]; lia|].
  destruct (any_adjacent _ _) eqn:Hd; [split; [done|]|].
  - intros [[_ _ _ Hnd] _].
    by rewrite (proj2 (any_adjacent_sort_by_key _ _ _ same_page_spec) Hnd) in Hd.
  - apply (any_adjacent_sort_by_key _ _ _ same_page_spec) in Hd.
    split; [intros [= <-]; split; [by split|done] | by intros [_ ->]].
Qed.

(** The payload [TryFrom<RawDocumentResult>] rebuilds. *)
Definition payload_of r (provenance : option ProcessingProvenance) : DocumentResultPayload Value :=
  {| payload_text := result_text r; payload_markdown := result_markdown r;
     payload_pages := result_pages r; payload_fields := result_fields r;
     payload_tables := result_tables r; payload_confidence := result_confidence r;
     payload_citations := result_citations r; payload_warnings := result_warnings r;
     payload_validation_failures := result_validation_failures r;
     payload_provenance := provenance; payload_cost := result_cost r |}.

Lemma try_from_Ok raw r :
  DocumentResult_try_from raw = Ok r ↔
  schema_version (raw_result raw) = RESULT_SCHEMA_VERSION
  ∧ ∃ provenance, raw_provenance (raw_result raw) = Ok provenance
    ∧ payload_ok (payload_of (raw_result raw) provenance)
    ∧ r = assembled (document_id (raw_result raw)) (document_version (raw_result raw))
            (payload_of (raw_result raw) provenance).
Proof.
  unfold DocumentResult_try_from.
  destruct (String.eqb_spec (schema_version (raw_result raw)) RESULT_SCHEMA_VERSION); simpl;
    [|naive_solver].
  destruct (raw_provenance (raw_result raw)) as [prov|]; simpl; [|naive_solver].
  change (mkDocumentResultPayload _ _ _ _ _ _ _ _ _ _ _) with (payload_of (raw_result raw) prov).
  rewrite DocumentResult_new_Ok. naive_solver.
Qed.

Lemma ProcessingProvenance_new_Ok a b c d p :
  ProcessingProvenance_new a b c d = Ok p ↔
  p = mkProcessingProvenance a b c d ∧ wire_stable p.
Proof.
  unfold wire_stable. simpl. unfold ProcessingProvenance_try_from. simpl. split.
  - intros Hn. assert (p = mkProcessingProvenance a b c d) as ->; [|done].
    unfold ProcessingProvenance_new in Hn. destruct (_ || _); by simplify_eq.
  - by intros [-> ?].
Qed.

(** The provenance that a wire result carries, if the check accepts it. *)
Lemma raw_provenance_Ok r prov :
  raw_provenance r = Ok prov ↔
  (∀ p, prov = Some p → wire_stable p)
  ∧ result_provider r = provider <$> prov ∧ result_model_version r = model_version <$> prov
  ∧ result_processing_profile_version r = processing_profile_version <$> prov
  ∧ result_duration_ms r = duration_ms <$> prov.
Proof.
  unfold raw_provenance.
  destruct (result_provider r) as [a|], (result_model_version r) as [b|],
    (result_processing_profile_version r) as [c|], (result_duration_ms r) as [d|];
    destruct prov as [[a' b' c' d']|]; simpl; try naive_solver.
  - destruct (ProcessingProvenance_new a b c d) as [p|] eqn:Hp; simpl.
    + apply ProcessingProvenance_new_Ok in Hp as [-> Hs].
      split; [intros [= -> -> -> ->] | intros (H & ? & ? & ? & ?)]; naive_solver.
    + split; [done|]. intros (H & Ha & Hb & Hc & Hd). simplify_eq.
      specialize (H _ eq_refl).
      by rewrite (proj2 (ProcessingProvenance_new_Ok _ _ _ _ _) (conj eq_refl H)) in Hp.
  - destruct (ProcessingProvenance_new a b c d); naive_solver.
Qed.

Lemma provenance_ok_raw r : provenance_ok r ↔ ∃ prov, raw_provenance r = Ok prov.
Proof.
  unfold provenance_ok. setoid_rewrite raw_provenance_Ok. split.
  - intros [(p & ? & ? & ? & ? & ?)|(? & ? & ? & ?)].
    + exists (Some p). naive_solver.
    + exists None. naive_solver.
  - intros ([p|] & ? & ? & ? & ? & ?); [left | right; naive_solver].
    exists p. naive_solver.
Qed.

(** What [new] assembles from checked provenance satisfies the contract. *)
Lemma assembled_ok id version payload :
  payload_ok payload → (∀ p, payload_provenance payload = Some p → wire_stable p) →
  result_ok (assembled id version payload).
Proof.
  intros [He Hn Hc Hd] Hp. split; simpl; try done.
  - unfold zlen, sort_by_key in *. by rewrite sort_by_length.
  - by apply sort_by_key_lt.
  - apply provenance_ok_raw. exists (payload_provenance payload).
    apply raw_provenance_Ok. naive_solver.
Qed.

Lemma DocumentResult_eta r :
  schema_version r = RESULT_SCHEMA_VERSION →
  StronglySorted (λ p q, page_order p < page_order q) (result_pages r) →
  ∀ prov, raw_provenance r = Ok prov →
  assembled (document_id r) (document_version r) (payload_of r prov) = r.
Proof.
  intros Hs Hsort prov (_ & H1 & H2 & H3 & H4)%raw_provenance_Ok.
  unfold assembled. simpl. rewrite sort_by_key_sorted_id by done.
  destruct r as [sv ? ? ct]; simpl in *. destruct ct. congruence.
Qed.

Lemma result_ok_stable r : result_ok r → wire_stable r.
Proof.
  intros [H1 H2 H3 H4 H5 [prov Hp]%provenance_ok_raw]. apply try_from_Ok. simpl.
  split; [done|]. exists prov. split; [done|]. split.
  - split; simpl; try done. by apply NoDup_keys_sorted.
  - symmetry. by apply DocumentResult_eta.
Qed.

(** A document result satisfies the whole contract (schema version, citations for
    any text, bounded field names, at most a thousand pages in strictly increasing
    order, provenance complete or absent) exactly when the wire check reads it back
    unchanged; and both ways of obtaining a result, construction from checked
    provenance and deserialization, give only such results. *)
Theorem document_result_contract r :
  (wire_stable r ↔ result_ok r)
  ∧ (∀ raw, DocumentResult_try_from raw = Ok r → result_ok r)
  ∧ (∀ id version payload,
       DocumentResult_new id version payload = Ok r →
       (∀ p, payload_provenance payload = Some p → wire_stable p) → result_ok r).
Proof.
  assert (Hraw : ∀ raw, DocumentResult_try_from raw = Ok r → result_ok r).
  { intros raw (_ & prov & Hp & Hok & ->)%try_from_Ok. apply assembled_ok; [done|].
    by apply raw_provenance_Ok in Hp as [? _]. }
  split_and!; [|done|].
  - split; [apply Hraw | apply result_ok_stable].
  - intros id version payload [Hok ->]%DocumentResult_new_Ok. by apply assembled_ok.
Qed.

(** The pages of a result may be supplied in any order: the constructor gives the
    same result or the same error, so a result does not depend on which page was
    recognised first. *)
Theorem document_result_any_page_order id version payload pages :
  payload_pages payload ≡ₚ pages →
  DocumentResult_new id version payload =
  DocumentResult_new id version
    {| payload_text := payload_text payload; payload_markdown := payload_markdown payload;
       payload_pages := pages; payload_fields := payload_fields payload;
       payload_tables := payload_tables payload;
       payload_confidence := payload_confidence payload;
       payload_citations := payload_citations payload;
       payload_warnings := payload_warnings payload;
       payload_validation_failures := payload_validation_failures payload;
       payload_provenance := payload_provenance payload; payload_cost := payload_cost payload |}.
Proof.
  intros Hp. unfold DocumentResult_new. simpl.
  destruct (_ && _); [done|]. destruct (existsb _ _); [done|].
  unfold zlen. rewrite <- Hp. destruct (_ <? _); [done|].
  destruct (any_adjacent _ (sort_by_key page_order (payload_pages payload))) eqn:Hd.
  - destruct (any_adjacent _ (sort_by_key page_order pages)) eqn:Hd'; [done|].
    apply (any_adjacent_sort_by_key _ _ _ same_page_spec) in Hd'. rewrite <- Hp in Hd'.
    by rewrite (proj2 (any_adjacent_sort_by_key _ _ _ same_page_spec) Hd') in Hd.
  - apply (any_adjacent_sort_by_key _ _ _ same_page_spec) in Hd.
    rewrite <- (sort_by_key_unique page_order _ _ Hp Hd).
    by rewrite (proj2 (any_adjacent_sort_by_key _ _ _ same_page_spec) Hd).
Qed.
End ResultFacts.

(** ** Pages *)

(** A page accepts its observations exactly when their reading orders and their
    identifiers are distinct and every parent is read before its child; it stores them
    sorted, gives the same page or error for every order of arrival, and the page it
    stores passes the wire check unchanged. *)
Theorem document_page_contract p w h obs obs' :
  obs ≡ₚ obs' →
  DocumentPage_new p w h obs = DocumentPage_new p w h obs'
  ∧ (is_ok (DocumentPage_new p w h obs) = true ↔
     w ≠ 0 ∧ h ≠ 0 ∧ zlen obs ≤ 100000 ∧ observations_ok obs)
  ∧ (∀ page, DocumentPage_new p w h obs = Ok page →
       observations page ≡ₚ obs ∧ wire_stable page
       ∧ StronglySorted (λ a b, reading_order a < reading_order b) (observations page)).
Proof.
  intros Hp. split_and!.
  - assert (Hlen : zlen obs = zlen obs') by (unfold zlen; by rewrite Hp).
    assert (Hiff : observations_ok obs ↔ observations_ok obs') by by rewrite Hp.
    apply DocumentPage_new_ext. intros page. rewrite !DocumentPage_new_Ok, Hlen, Hiff.
    split; intros (-> & ? & ? & ? & Hok); split_and!; try done; f_equal; [|symmetry];
      apply sort_by_key_unique; (done || apply Hiff, Hok || apply Hok).
  - destruct (DocumentPage_new_total p w h obs) as [He|[page Hok]].
    + rewrite He. split; [done|]. intros Hok.
      rewrite (proj2 (DocumentPage_new_Ok p w h obs _) (conj eq_refl Hok)) in He. done.
    + rewrite Hok. split; [|done]. by apply DocumentPage_new_Ok in Hok as [_ ?].
  - intros page (-> & Hw & Hh & Hlen & Hok)%DocumentPage_new_Ok. simpl.
    assert (Hs : sort_by_key reading_order obs ≡ₚ obs) by apply sort_by_Permutation.
    assert (Hlt := sort_by_key_lt reading_order obs (orders_distinct _ Hok)).
    split_and!; [done| |done]. apply DocumentPage_new_Ok. simpl.
    rewrite (sort_by_key_sorted_id reading_order _ Hlt).
    split_and!; [done|done|done| unfold zlen; by rewrite Hs | by rewrite Hs].
Qed.

Definition sample_observation (id : string) (order : Z) (parent : option string) : TextObservation :=
  {| observation_id := mkObservationId id; level := Line; observation_text := "total";
     observation_confidence := mkConfidence f64_one;
     observation_polygon := mkPolygon []; reading_order := order;
     parent_observation_id := mkObservationId <$> parent |}.

Definition sample_line := sample_observation "obs_line" 0 None.
Definition sample_word := sample_observation "obs_word" 1 (Some "obs_line").

Theorem document_page_contract_witness :
  DocumentPage_new (mkPageNumber 1) 10 20 [sample_word; sample_line]
  = Ok (mkDocumentPage (mkPageNumber 1) 10 20 [sample_line; sample_word])
  ∧ is_ok (DocumentPage_new (mkPageNumber 1) 10 20 [sample_word]) = false.
Proof.
  split; [|vm_compute; reflexivity].
  destruct (document_page_contract (mkPageNumber 1) 10 20 [sample_word; sample_line]
              [sample_line; sample_word] (perm_swap _ _ _)) as [-> _].
  vm_compute. reflexivity.
Defined.

Definition sample_payload (pages : list DocumentPage) : DocumentResultPayload unit :=
  {| payload_text := ""; payload_markdown := ""; payload_pages := pages; payload_fields := ∅;
     payload_tables := []; payload_confidence := None; payload_citations := [];
     payload_warnings := []; payload_validation_failures := [];
     payload_provenance := Some (mkProcessingProvenance "paddle" "v4" "p1" 12);
     payload_cost := None |}.
Definition sample_page (n : Z) : DocumentPage := mkDocumentPage (mkPageNumber n) 10 20 [].
Definition sample_result (pages : list DocumentPage) : result Error (DocumentResult unit) :=
  DocumentResult_new (mkDocumentId "doc_1") (mkDocumentVersion "v") (sample_payload pages).

Theorem document_result_any_page_order_witness :
  sample_result [sample_page 2; sample_page 1] = sample_result [sample_page 1; sample_page 2]
  ∧ is_ok (sample_result [sample_page 1; sample_page 2]) = true.
Proof.
  split; [|vm_compute; reflexivity].
  apply (document_result_any_page_order (mkDocumentId "doc_1") (mkDocumentVersion "v")
           (sample_payload [sample_page 2; sample_page 1]) [sample_page 1; sample_page 2]).
  apply perm_swap.
Defined.

Theorem document_result_contract_witness :
  ∃ r, sample_result [sample_page 2; sample_page 1] = Ok r ∧ result_ok r.
Proof.
  destruct (sample_result [sample_page 2; sample_page 1]) as [r|e] eqn:Hr;
    [|vm_compute in Hr; discriminate].
  exists r. split; [done|]. destruct (document_result_contract r) as (_ & _ & H).
  apply (H _ _ _ Hr). intros p [= <-]. vm_compute. reflexivity.
Defined.

(** ** Pixel counts *)

(** On 32-bit side lengths the pixel product never overflows, a page geometry is
    accepted exactly when both sides are positive and the product is at most a hundred
    million, and its [pixels] is the exact product; so a thousand pages stay within
    [MAXIMUM_TOTAL_PAGE_PIXELS] and far from 64-bit overflow. *)
Theorem page_geometry_pixels_exact page w h :
  in_width u32_max w → in_width u32_max h →
  checked_mul u64_max w h = Some (w * h)
  ∧ (∀ g, PageGeometry_new page w h = Ok g ↔
       g = mkPageGeometry page w h ∧ 0 < w ∧ 0 < h ∧ w * h ≤ 100000000)
  ∧ (∀ g, PageGeometry_new page w h = Ok g →
       PageGeometry_pixels g = w * h
       ∧ MAXIMUM_PAGE_COUNT * PageGeometry_pixels g ≤ MAXIMUM_TOTAL_PAGE_PIXELS
       ∧ MAXIMUM_TOTAL_PAGE_PIXELS < u64_max ∧ wire_stable g).
Proof.
  intros Hw Hh. split_and!.
  - apply checked_Some. split; [done|]. by apply u32_product_fits.
  - intros g. by apply PageGeometry_new_Ok.
  - intros g Hg. assert (Hok : geometry_ok g).
    { pose proof Hg as Hg'. apply PageGeometry_new_Ok in Hg' as (-> & _); [|done..].
      split_and!; [done|done|]. by exists page, w, h. }
    apply geometry_ok_pixels in Hok as [Hpx Hb].
    assert (wire_stable g).
    { pose proof Hg as Hg'. apply PageGeometry_new_Ok in Hg' as (-> & _); [|done..]. exact Hg. }
    apply PageGeometry_new_Ok in Hg as (-> & _); [|done..]. simpl in Hpx.
    unfold MAXIMUM_TOTAL_PAGE_PIXELS, MAXIMUM_PAGE_COUNT, u64_max. split_and!; try done; lia.
Qed.

Theorem page_geometry_pixels_exact_witness :
  checked_mul u64_max 4294967295 4294967295 = Some (4294967295 * 4294967295).
Proof.
  apply (page_geometry_pixels_exact (mkPageNumber 1) 4294967295 4294967295);
    unfold in_width, u32_max; lia.
Defined.
