(* ===== verification/SemanticMemory.v ===== *)
(** * SemanticMemory: vector points of the semantic memory

    Models [ocr-domain/src/semantic_memory.rs] beyond its identifiers: collections,
    query scopes, point metadata and the derivation of point identifiers.  SHA-256 and
    the textual form of a UUID come from third-party crates: they are the arguments
    [sha256] and [uuid_to_string] of [VectorPointId_derive]; bytes are integers. *)

From S2P Require Import Prelude Text DomainTypes Identifiers Digest Geometry.

#[local] Open Scope list_scope.
#[local] Open Scope Z_scope.

Definition MAXIMUM_QUERY_RESULTS : Z := 100.

(** ** Collections and query scopes *)

Record SemanticCollection := mkSemanticCollection { schema_major : Z; embedding_major : Z }.

#[export] Instance SemanticCollection_eq_dec : EqDecision SemanticCollection.
Proof. solve_decision. Defined.

Record RawSemanticCollection := mkRawSemanticCollection {
  raw_schema_major : Z;
  raw_embedding_major : Z;
}.

Definition SemanticCollection_new (schema_major embedding_major : Z)
    : result Error SemanticCollection :=
  if (schema_major =? 0) || (embedding_major =? 0) then Err InvalidSemanticCollection
  else Ok {| schema_major := schema_major; embedding_major := embedding_major |}.

Definition SemanticCollection_try_from (value : RawSemanticCollection)
    : result Error SemanticCollection :=
  SemanticCollection_new (raw_schema_major value) (raw_embedding_major value).

(** [format!("ocr-memory-s{}-e{}", ..)]. *)
Definition alias (self : SemanticCollection) : string :=
  "ocr-memory-s" +:+ show_dec (schema_major self) +:+ "-e" +:+ show_dec (embedding_major self).

Record SemanticQueryScope := mkSemanticQueryScope {
  scope_tenant_id : TenantId;
  scope_collection : SemanticCollection;
  scope_limit : Z;
}.

Definition SemanticQueryScope_new (tenant_id : TenantId) (collection : SemanticCollection)
    (limit : Z) : result Error SemanticQueryScope :=
  if negb (contains 1 MAXIMUM_QUERY_RESULTS limit) then Err InvalidSemanticQueryScope
  else Ok {| scope_tenant_id := tenant_id; scope_collection := collection;
             scope_limit := limit |}.

(** ** Point identifiers *)

Record VectorPointId := mkVectorPointId { VectorPointId_str : string }.

(** [u64::to_be_bytes]: eight base-256 digits, most significant first. *)
Fixpoint be_bytes (width : nat) (n : Z) : list Z :=
  match width with
  | O => []
  | S width' => (n / 256 ^ Z.of_nat width') mod 256 :: be_bytes width' n
  end.
Definition to_be_bytes (n : Z) : list Z := be_bytes 8 n.

(** The bytes fed to the digest, in the order of the [update] calls. *)
Definition point_preimage (tenant_id : TenantId) (record_id : MemoryRecordId)
    (record_version : MemoryRecordVersion) (embedding_version : EmbeddingVersion) : list Z :=
  string_bytes "ocr-memory-point-v1"
  ++ concat (map (λ value, to_be_bytes (strlen value) ++ string_bytes value)
       [TenantId_str tenant_id; MemoryRecordId_str record_id;
        MemoryRecordVersion_str record_version; EmbeddingVersion_str embedding_version]).

(** The first sixteen bytes of the digest with the UUID version and variant written
    in; [None] where slicing a shorter digest would panic. *)
Definition point_uuid_bytes (digest : list Z) : option (list Z) :=
  if zlen digest <? 16 then None
  else
    let bytes := take 16 digest in
    let bytes := alter (λ b, Z.lor (Z.land b 15) 128) 6%nat bytes in
    Some (alter (λ b, Z.lor (Z.land b 63) 128) 8%nat bytes).

Definition VectorPointId_derive (sha256 : list Z → list Z) (uuid_to_string : list Z → string)
    (tenant_id : TenantId) (record_id : MemoryRecordId)
    (record_version : MemoryRecordVersion) (embedding_version : EmbeddingVersion)
    : option VectorPointId :=
  let digest := sha256 (point_preimage tenant_id record_id record_version embedding_version) in
  (λ bytes, mkVectorPointId (uuid_to_string bytes)) <$> point_uuid_bytes digest.

(** ** Point metadata *)

Record VectorPointMetadataInput := mkVectorPointMetadataInput {
  tenant_id : TenantId;
  memory_record_id : MemoryRecordId;
  memory_record_version : MemoryRecordVersion;
  document_id : DocumentId;
  document_version : DocumentVersion;
  chunk_id : ChunkId;
  observation_ids : list ObservationId;
  embedding_version : EmbeddingVersion;
  collection : SemanticCollection;
  retention_deadline_unix_seconds : Z;
}.

(** The checked form has the same fields. *)
Record VectorPointMetadata := mkVectorPointMetadata { metadata_input : VectorPointMetadataInput }.

(** [.enumerate().all(|(index, id)| !ids[..index].contains(id))]. *)
Fixpoint none_repeated (before ids : list ObservationId) : bool :=
  match ids with
  | [] => true
  | id :: rest => negb (existsb (id_eqb id) before) && none_repeated (before ++ [id]) rest
  end.

Definition VectorPointMetadata_new (input : VectorPointMetadataInput)
    : result Error VectorPointMetadata :=
  let evidence_is_valid :=
    negb (zlen (observation_ids input) =? 0)
    && (zlen (observation_ids input) <=? 128)
    && none_repeated [] (observation_ids input) in
  if negb evidence_is_valid || (retention_deadline_unix_seconds input <=? 0)
  then Err InvalidVectorPointMetadata
  else Ok {| metadata_input := input |}.

Definition VectorPointMetadata_try_from (value : VectorPointMetadataInput)
    : result Error VectorPointMetadata := VectorPointMetadata_new value.

(** ** Lemmas *)

Lemma be_bytes_length width n : length (be_bytes width n) = width.
Proof. induction width; simpl; congruence. Qed.

(** The digits give the number back, modulo the width. *)
Fixpoint read_be (acc : Z) (bytes : list Z) : Z :=
  match bytes with
  | [] => acc
  | b :: rest => read_be (acc * 256 + b) rest
  end.

Lemma read_be_bytes width n acc : 0 ≤ n →
  read_be acc (be_bytes width n) = acc * 256 ^ Z.of_nat width + n mod 256 ^ Z.of_nat width.
Proof.
  intros Hn. revert acc. induction width as [|w IH]; intros acc.
  - simpl. rewrite Z.mod_1_r. lia.
  - cbn [be_bytes read_be]. rewrite IH.
    replace (Z.of_nat (S w)) with (Z.of_nat w + 1) by lia.
    rewrite Z.pow_add_r, Z.pow_1_r by lia.
    set (p := 256 ^ Z.of_nat w). assert (0 < p) by (apply Z.pow_pos_nonneg; lia).
    rewrite (Z.rem_mul_r n p 256) by lia. nia.
Qed.

Lemma to_be_bytes_inj m n : in_width u64_max m → in_width u64_max n →
  to_be_bytes m = to_be_bytes n → m = n.
Proof.
  unfold in_width, u64_max, to_be_bytes. intros Hm Hn Heq.
  assert (H := read_be_bytes 8 m 0 ltac:(lia)). rewrite Heq, read_be_bytes in H by lia.
  rewrite !Z.mod_small in H by (change (256 ^ Z.of_nat 8) with (2 ^ 64); lia). lia.
Qed.

(** A length-prefixed field can be cut off unambiguously. *)
Lemma prefixed_field_inj s t rest rest' :
  in_width u64_max (strlen s) → in_width u64_max (strlen t) →
  to_be_bytes (strlen s) ++ string_bytes s ++ rest =
  to_be_bytes (strlen t) ++ string_bytes t ++ rest' →
  s = t ∧ rest = rest'.
Proof.
  intros Hs Ht Heq. apply app_inj_1 in Heq as [Hlen Heq]; [|unfold to_be_bytes; by rewrite !be_bytes_length].
  apply to_be_bytes_inj in Hlen; [|done..].
  apply app_inj_1 in Heq as [Hb ->]; [by apply string_bytes_inj in Hb as ->|].
  apply Nat2Z.inj. by rewrite !string_bytes_length.
Qed.

Lemma none_repeated_true before ids :
  none_repeated before ids = true ↔ NoDup ids ∧ (∀ id, id ∈ ids → id ∉ before).
Proof.
  revert before. induction ids as [|id ids IH]; intros before; simpl.
  - split; [intros _; split; [constructor | by inversion 1]|done].
  - assert (Hex : existsb (id_eqb id) before = true ↔ id ∈ before).
    { rewrite existsb_exists. split.
      - intros (x & Hx & ->%id_eqb_true). by apply list_elem_of_In.
      - intros Hin. exists id. rewrite id_eqb_refl. by rewrite <- list_elem_of_In. }
    rewrite andb_true_iff, negb_true_iff, <- not_true_iff_false, Hex, IH, NoDup_cons.
    setoid_rewrite elem_of_cons. setoid_rewrite elem_of_app.
    setoid_rewrite list_elem_of_singleton. split.
    + intros (Hni & Hnd & H). split_and!; try done; naive_solver.
    + intros [[Hni Hnd] H]. split_and!; naive_solver.
Qed.

(** A validated identifier is far below the 64-bit length prefix. *)
Lemma validated_id_width value prefix error s :
  validated_id value prefix error = Ok s → strlen prefix ≤ 64 → in_width u64_max (strlen s).
Proof.
  intros (-> & suffix & -> & Hlen & _)%validated_id_Ok Hp. rewrite strlen_append.
  pose proof (strlen_nonneg prefix). unfold in_width, u64_max. lia.
Qed.

Lemma canonical_sha256_width s : is_canonical_sha256 s = true → in_width u64_max (strlen s).
Proof.
  unfold is_canonical_sha256. destruct (strip_prefix "sha256:" s) as [d|] eqn:Hp; simpl; [|done].
  apply strip_prefix_Some in Hp as ->. rewrite strlen_append. boolify.
  intros [-> _]. unfold in_width, u64_max, strlen. simpl. lia.
Qed.

Definition fits {T : Type} `{DomainId T} (t : T) : Prop := in_width u64_max (strlen (id_str t)).

Lemma TenantId_fits (t : TenantId) : id_valid t → fits t.
Proof.
  unfold id_valid, fits. simpl. unfold TenantId_new.
  destruct (validated_id _ _ _) as [s|] eqn:Hv; simpl; [|done]. intros [= Ht].
  rewrite <- Ht. simpl. by apply (validated_id_width _ _ _ _ Hv).
Qed.

Lemma MemoryRecordId_fits (t : MemoryRecordId) : id_valid t → fits t.
Proof.
  unfold id_valid, fits. simpl. unfold MemoryRecordId_new.
  destruct (validated_id _ _ _) as [s|] eqn:Hv; simpl; [|done]. intros [= Ht].
  rewrite <- Ht. simpl. by apply (validated_id_width _ _ _ _ Hv).
Qed.

Lemma MemoryRecordVersion_fits (t : MemoryRecordVersion) : id_valid t → fits t.
Proof.
  unfold id_valid, fits. simpl. unfold MemoryRecordVersion_new.
  destruct (is_canonical_sha256 _) eqn:Hv; [|done]. intros _.
  by apply canonical_sha256_width.
Qed.

Lemma EmbeddingVersion_fits (t : EmbeddingVersion) : id_valid t → fits t.
Proof.
  unfold id_valid, fits. simpl. unfold EmbeddingVersion_new.
  destruct (strip_prefix "emb_" (EmbeddingVersion_str t)) as [d|] eqn:Hp; simpl; [|done].
  apply strip_prefix_Some in Hp as ->. destruct (_ && _) eqn:Hv; [|done]. boolify. intros _.
  rewrite strlen_append. pose proof (strlen_nonneg d).
  unfold in_width, u64_max, strlen in *. simpl. lia.
Qed.

(** The masks of [derive]: what they make of a byte. *)
Lemma version_bits_byte b : 0 ≤ b < 256 →
  0 ≤ Z.lor (Z.land b 15) 128 < 256 ∧ Z.lor (Z.land b 15) 128 / 16 = 8.
Proof.
  intros Hb.
  apply (byte_cases (λ b, contains 0 255 (Z.lor (Z.land b 15) 128)
    && (Z.lor (Z.land b 15) 128 / 16 =? 8)) ltac:(vm_compute; reflexivity)) in Hb.
  boolify. lia.
Qed.

Lemma variant_bits_byte b : 0 ≤ b < 256 →
  0 ≤ Z.lor (Z.land b 63) 128 < 256 ∧ Z.lor (Z.land b 63) 128 / 64 = 2.
Proof.
  intros Hb.
  apply (byte_cases (λ b, contains 0 255 (Z.lor (Z.land b 63) 128)
    && (Z.lor (Z.land b 63) 128 / 64 =? 2)) ltac:(vm_compute; reflexivity)) in Hb.
  boolify. lia.
Qed.

(** ** Theorems *)

(** The byte string hashed into a vector point identifier determines the tenant,
    the record, its version and the embedding version: two memory points share an
    identifier only if SHA-256 (or its truncation to 122 bits) collides, and in
    particular two tenants never hash the same bytes. *)
Theorem point_preimage_injective t r v e t' r' v' e' :
  id_valid t → id_valid r → id_valid v → id_valid e →
  id_valid t' → id_valid r' → id_valid v' → id_valid e' →
  point_preimage t r v e = point_preimage t' r' v' e' →
  t = t' ∧ r = r' ∧ v = v' ∧ e = e'.
Proof.
  intros Ht%TenantId_fits Hr%MemoryRecordId_fits Hv%MemoryRecordVersion_fits
    He%EmbeddingVersion_fits Ht'%TenantId_fits Hr'%MemoryRecordId_fits
    Hv'%MemoryRecordVersion_fits He'%EmbeddingVersion_fits Heq.
  unfold fits in *. unfold point_preimage in Heq. apply app_inv_head in Heq.
  cbn [map concat] in Heq. rewrite <- !app_assoc in Heq.
  apply prefixed_field_inj in Heq as [Et Heq]; [|done..].
  apply prefixed_field_inj in Heq as [Er Heq]; [|done..].
  apply prefixed_field_inj in Heq as [Ev Heq]; [|done..].
  apply prefixed_field_inj in Heq as [Ee _]; [|done..].
  split_and!; by apply id_str_inj.
Qed.

Definition sample_digest_64 : string :=
  "0123456789abcdef0123456789abcdef0123456789abcdef0123456789abcdef".
Definition sample_record_version := mkMemoryRecordVersion ("sha256:" +:+ sample_digest_64).

Theorem point_preimage_injective_witness :
  point_preimage (mkTenantId "ten_a") (mkMemoryRecordId "mem_1") sample_record_version
    (mkEmbeddingVersion "emb_v1")
  ≠ point_preimage (mkTenantId "ten_b") (mkMemoryRecordId "mem_1") sample_record_version
      (mkEmbeddingVersion "emb_v1").
Proof.
  intros H. apply point_preimage_injective in H as [Ht _]; [discriminate|vm_compute; reflexivity..].
Defined.

(** With a 32-byte digest the identifier is always derived, and its sixteen bytes
    are those of the digest with version 8 in the high half of byte 6 and the RFC
    variant in the two high bits of byte 8; every byte stays a byte. *)
Theorem point_uuid_is_version_8 digest bytes :
  zlen digest = 32 → Forall (λ b, 0 ≤ b < 256) digest →
  point_uuid_bytes digest = Some bytes →
  zlen bytes = 16 ∧ Forall (λ b, 0 ≤ b < 256) bytes
  ∧ (∀ b, bytes !! 6%nat = Some b → b / 16 = 8)
  ∧ (∀ b, bytes !! 8%nat = Some b → b / 64 = 2)
  ∧ (∀ i, i ≠ 6%nat → i ≠ 8%nat → (i < 16)%nat → bytes !! i = digest !! i).
Proof.
  intros Hlen Hall. unfold point_uuid_bytes. rewrite Hlen. simpl. intros [= <-].
  assert (Htake : length (take 16 digest) = 16%nat).
  { rewrite length_take. unfold zlen in Hlen. lia. }
  assert (Hbyte : Forall (λ b, 0 ≤ b < 256) (take 16 digest)) by by apply Forall_take.
  assert (H6 := Hbyte). assert (H8 := Hbyte). rewrite Forall_lookup in H6, H8.
  split_and!.
  - unfold zlen. by rewrite !length_alter, Htake.
  - apply Forall_alter; [|intros b _ ?; by apply variant_bits_byte].
    apply Forall_alter; [done|]. intros b _ ?. by apply version_bits_byte.
  - intros b. rewrite list_lookup_alter_ne, list_lookup_alter_eq by lia.
    intros (c & Hc & ->)%fmap_Some. apply (version_bits_byte c). by apply (H6 6%nat).
  - intros b. rewrite list_lookup_alter_eq, list_lookup_alter_ne by lia.
    intros (c & Hc & ->)%fmap_Some. apply (variant_bits_byte c). by apply (H8 8%nat).
  - intros j Hj6 Hj8 Hlt. rewrite !list_lookup_alter_ne by lia. by apply lookup_take_lt.
Qed.

Theorem point_uuid_is_version_8_witness :
  zlen (alter (λ b, Z.lor (Z.land b 63) 128) 8%nat
          (alter (λ b, Z.lor (Z.land b 15) 128) 6%nat (replicate 16 255))) = 16.
Proof.
  apply (point_uuid_is_version_8 (replicate 32 255)).
  - reflexivity.
  - apply Forall_replicate. lia.
  - reflexivity.
Defined.

(** Point metadata is accepted exactly when it cites between 1 and 128 distinct
    observations and its retention deadline is positive; it is then stored as given,
    and the wire check accepts it again. *)
Theorem vector_metadata_accepted input m :
  VectorPointMetadata_new input = Ok m ↔
  m = mkVectorPointMetadata input
  ∧ 1 ≤ zlen (observation_ids input) ≤ 128 ∧ NoDup (observation_ids input)
  ∧ 0 < retention_deadline_unix_seconds input.
Proof.
  unfold VectorPointMetadata_new.
  assert (Hnd : none_repeated [] (observation_ids input) = true ↔ NoDup (observation_ids input)).
  { rewrite none_repeated_true. split; [by intros [? _]|]. intros ?. split; [done|].
    intros id _ Hin. by inversion Hin. }
  rewrite <- Hnd. pose proof (zlen_nonneg (observation_ids input)).
  destruct (Z.eqb_spec (zlen (observation_ids input)) 0),
    (Z.leb_spec (zlen (observation_ids input)) 128), (none_repeated _ _),
    (Z.leb_spec (retention_deadline_unix_seconds input) 0); simpl; naive_solver lia.
Qed.
