(* ===== verification/StoreTypes.v ===== *)
(** * StoreTypes: the store's vocabulary

    Models the types and the pure checks of [ocr-store/src/lib.rs]: commands, outcomes
    and stored records, the validators that guard every write and the parsers that
    guard every read.  A text column is a [string], a [timestamptz] a number of
    seconds.  Enumerations that share constructor names live in a Module of their own,
    as in the source. *)

From S2P Require Import Prelude Text DomainTypes Identifiers Geometry PageWorkflow.

#[local] Open Scope list_scope.
#[local] Open Scope Z_scope.

Inductive StoreError :=
| Database
| IdempotencyConflict
| InvalidStoredJob
| InvalidStoredResult
| InvalidStoredUpload
| UploadSourceUnavailable
| InvalidOutboxEvent
| InvalidStoredPageWorkflow
| InvalidStoredPageArtifact
| InvalidWorkScope.

#[export] Instance StoreError_eq_dec : EqDecision StoreError.
Proof. solve_decision. Defined.

(** ** Jobs *)

Record SchemaReference := mkSchemaReference { schema_id : string; ref_schema_version : string }.

Record CreateJob := mkCreateJob {
  cj_job_id : JobId;
  cj_tenant_id : TenantId;
  cj_product_id : ProductId;
  cj_idempotency_key : IdempotencyKey;
  cj_request_digest : RequestDigest;
  cj_upload_id : UploadId;
  cj_webhook_subscription_id : option WebhookSubscriptionId;
  cj_extraction : option SchemaReference;
}.

Record StoredJob := mkStoredJob {
  sj_job_id : JobId;
  sj_state : JobState;
  sj_created_at : Z;
}.

Module CreateOutcome.
Inductive CreateOutcome := Created (job : StoredJob) | Existing (job : StoredJob).
End CreateOutcome.

Module CancelOutcome.
Inductive CancelOutcome :=
| Requested (job : StoredJob)
| Existing (job : StoredJob)
| NotCancellable (job : StoredJob)
| NotFound.
End CancelOutcome.

Module CompleteCancellationOutcome.
Inductive CompleteCancellationOutcome :=
| Cancelled (job : StoredJob)
| Existing (job : StoredJob)
| NotCancellable (job : StoredJob)
| NotFound.
End CompleteCancellationOutcome.

Record StoredDocumentIdentity := mkStoredDocumentIdentity {
  identity_document_id : DocumentId;
  identity_document_version : DocumentVersion;
  identity_extraction : option SchemaReference;
}.

(** ** Results *)

Record StoredResultLocator := mkStoredResultLocator {
  loc_document_id : DocumentId;
  loc_document_version : DocumentVersion;
  loc_object_bucket : string;
  loc_object_name : string;
  loc_object_version : string;
  loc_object_digest : string;
  loc_content_length : Z;
}.

#[export] Instance StoredResultLocator_eq_dec : EqDecision StoredResultLocator.
Proof. solve_decision. Defined.

Record CommitResult := mkCommitResult {
  terminal_state : JobState;
  locator : StoredResultLocator;
}.

Module CommitResultOutcome.
Inductive CommitResultOutcome :=
| Committed (job : StoredJob)
| Existing (job : StoredJob)
| Conflict
| NotCommittable
| NotFound.
End CommitResultOutcome.

Module ResultLookup.
Inductive ResultLookup :=
| Ready (locator : StoredResultLocator)
| NotReady (state : JobState)
| Unavailable (state : JobState)
| NotFound.
End ResultLookup.

(** ** Page workflows and artifacts *)

Record StoredPageWorkflow := mkStoredPageWorkflow {
  stored_workflow : PageWorkflow;
  revision : Z;
}.

Record StoredPageArtifact := mkStoredPageArtifact {
  artifact_page : Z;
  artifact_attempt : Z;
  artifact_activity_key : string;
  artifact_object_bucket : string;
  artifact_object_name : string;
  artifact_object_version : string;
  artifact_object_digest : string;
  artifact_content_length : Z;
}.

#[export] Instance StoredPageArtifact_eq_dec : EqDecision StoredPageArtifact.
Proof. solve_decision. Defined.

Module CreatePageWorkflowOutcome.
Inductive CreatePageWorkflowOutcome :=
| Created (stored : StoredPageWorkflow)
| Existing (stored : StoredPageWorkflow)
| Conflict
| NotFound.
End CreatePageWorkflowOutcome.

Module SavePageWorkflowOutcome.
Inductive SavePageWorkflowOutcome :=
| Saved (stored : StoredPageWorkflow)
| Conflict
| NotFound.
End SavePageWorkflowOutcome.

(** ** Outbox and work scopes *)

(** [ClaimJobOutbox] and [ClaimWorkScopes] have the same two fields. *)
Record ClaimJobOutbox := mkClaimJobOutbox { claim_lease_owner : string; claim_limit : Z }.
Record ClaimWorkScopes := mkClaimWorkScopes { scopes_lease_owner : string; scopes_limit : Z }.
Record StoredWorkScope := mkStoredWorkScope { ws_product_id : ProductId; ws_tenant_id : TenantId }.

Module JobOutboxEventType.
Inductive JobOutboxEventType := Accepted | CancellationRequested.
End JobOutboxEventType.

Record StoredJobOutboxEvent := mkStoredJobOutboxEvent {
  event_id : Z;
  event_job_id : JobId;
  event_type : JobOutboxEventType.JobOutboxEventType;
  page_count : Z;
}.

Module WebhookOutboxEventType.
Inductive WebhookOutboxEventType := Completed | Partial | ReviewRequired.
End WebhookOutboxEventType.

Record StoredWebhookOutboxEvent := mkStoredWebhookOutboxEvent {
  webhook_event_id : Z;
  webhook_job_id : JobId;
  webhook_event_type : WebhookOutboxEventType.WebhookOutboxEventType;
  webhook_subscription_id : WebhookSubscriptionId;
  webhook_document_version : DocumentVersion;
  occurred_at : Z;
}.

Module PublishJobOutboxOutcome.
Inductive PublishJobOutboxOutcome := Published | Existing | LeaseLost | NotFound.
End PublishJobOutboxOutcome.

(** ** Uploads *)

Module UploadState.
Inductive UploadState := Reserved | Uploaded | Inspecting | Accepted | Rejected | Expired.

#[export] Instance UploadState_eq_dec : EqDecision UploadState.
Proof. solve_decision. Defined.
End UploadState.
Export (hints) UploadState.

Record StoredUpload := mkStoredUpload {
  su_upload_id : UploadId;
  su_state : UploadState.UploadState;
  su_object_bucket : string;
  su_object_name : string;
  su_expected_content_type : string;
  su_expected_content_length : Z;
  su_expected_digest : string;
  su_expires_at : Z;
  su_created_at : Z;
  su_object_version : option string;
  su_uploaded_at : option Z;
}.

Record CreateUpload := mkCreateUpload {
  cu_upload_id : UploadId;
  cu_tenant_id : TenantId;
  cu_product_id : ProductId;
  cu_idempotency_key : IdempotencyKey;
  cu_request_digest : RequestDigest;
  cu_object_bucket : string;
  cu_object_name : string;
  cu_expected_content_type : string;
  cu_expected_content_length : Z;
  cu_expected_digest : string;
  cu_expires_at : Z;
}.

Module CreateUploadOutcome.
Inductive CreateUploadOutcome := Created (upload : StoredUpload) | Existing (upload : StoredUpload).
End CreateUploadOutcome.

Record RecordUpload := mkRecordUpload {
  ru_object_version : string;
  ru_verified_content_type : string;
  ru_verified_content_length : Z;
  ru_verified_digest : string;
}.

Module RecordUploadOutcome.
Inductive RecordUploadOutcome :=
| Recorded (upload : StoredUpload)
| Existing (upload : StoredUpload)
| Expired
| VerificationMismatch
| NotRecordable
| NotFound.
End RecordUploadOutcome.

Record ParserInspectionMetadata := mkParserInspectionMetadata {
  pi_page_count : Z;
  pi_maximum_page_pixels : Z;
  pi_total_page_pixels : Z;
  pi_page_geometries : list PageGeometry;
  pi_profile : string;
  pi_version : string;
}.

Record AcceptUpload := mkAcceptUpload {
  inspection_lease_owner : string;
  source_bucket : string;
  source_object_name : string;
  source_object_version : string;
  source_digest : string;
  source_content_length : Z;
  parser_inspection : ParserInspectionMetadata;
}.

Module ClaimUploadInspectionOutcome.
Inductive ClaimUploadInspectionOutcome :=
| Claimed | Existing | Busy | AttemptsExhausted | NotInspectable | NotFound.
End ClaimUploadInspectionOutcome.

Module AcceptUploadOutcome.
Inductive AcceptUploadOutcome := Accepted | Existing | SourceMismatch | NotAcceptable | NotFound.
End AcceptUploadOutcome.

Inductive UploadRejectionReason :=
| MalwareDetected
| InvalidDocument
| ParserLimitsExceeded
| PasswordRequired
| SourceConflict.

Definition UploadRejectionReason_str (self : UploadRejectionReason) : string :=
  match self with
  | MalwareDetected => "malware_detected"
  | InvalidDocument => "invalid_document"
  | ParserLimitsExceeded => "parser_limits_exceeded"
  | PasswordRequired => "password_required"
  | SourceConflict => "source_conflict"
  end.

Module RejectUploadOutcome.
Inductive RejectUploadOutcome := Rejected | Existing | ReasonMismatch | NotRejectable | NotFound.
End RejectUploadOutcome.

Record StoredAcceptedSource := mkStoredAcceptedSource {
  as_bucket : string;
  as_object_name : string;
  as_generation : string;
  as_digest : string;
  as_content_length : Z;
  as_content_type : string;
  as_page_count : Z;
  as_maximum_page_pixels : Z;
  as_total_page_pixels : Z;
  as_page_geometries : list PageGeometry;
  as_parser_profile : string;
  as_parser_version : string;
}.
