(* ===== verification/StoreChecks.v ===== *)
(** * StoreChecks: the store's validators and parsers

    The pure functions of [ocr-store/src/lib.rs]: the text of the status columns and
    the checks every write and every read goes through. *)

From S2P Require Import Prelude Text DomainTypes Identifiers Geometry PageWorkflow StoreTypes.

#[local] Open Scope list_scope.
#[local] Open Scope Z_scope.

(** ** Status columns *)

(** The text of a status, as the SQL of the store spells it. *)
Definition job_state_text (s : JobState) : string :=
  match s with
  | Accepted => "accepted"
  | Inspecting => "inspecting"
  | Processing => "processing"
  | Validating => "validating"
  | Cancelling => "cancelling"
  | Cancelled => "cancelled"
  | Rejected => "rejected"
  | Partial => "partial"
  | ReviewRequired => "review_required"
  | Completed => "completed"
  end.

Definition parse_job_state (value : string) : result StoreError JobState :=
  if String.eqb value "accepted" then Ok Accepted
  else if String.eqb value "inspecting" then Ok Inspecting
  else if String.eqb value "processing" then Ok Processing
  else if String.eqb value "validating" then Ok Validating
  else if String.eqb value "cancelling" then Ok Cancelling
  else if String.eqb value "cancelled" then Ok Cancelled
  else if String.eqb value "rejected" then Ok Rejected
  else if String.eqb value "partial" then Ok Partial
  else if String.eqb value "review_required" then Ok ReviewRequired
  else if String.eqb value "completed" then Ok Completed
  else Err InvalidStoredJob.

Definition upload_state_text (s : UploadState.UploadState) : string :=
  match s with
  | UploadState.Reserved => "reserved"
  | UploadState.Uploaded => "uploaded"
  | UploadState.Inspecting => "inspecting"
  | UploadState.Accepted => "accepted"
  | UploadState.Rejected => "rejected"
  | UploadState.Expired => "expired"
  end.

Definition parse_upload_state (value : string) : result StoreError UploadState.UploadState :=
  if String.eqb value "reserved" then Ok UploadState.Reserved
  else if String.eqb value "uploaded" then Ok UploadState.Uploaded
  else if String.eqb value "inspecting" then Ok UploadState.Inspecting
  else if String.eqb value "accepted" then Ok UploadState.Accepted
  else if String.eqb value "rejected" then Ok UploadState.Rejected
  else if String.eqb value "expired" then Ok UploadState.Expired
  else Err InvalidStoredUpload.

(** ** Validators *)

Definition valid_object_version (value : string) : bool :=
  negb (is_empty value) && (strlen value <=? 1024) && negb (String.eqb value "null")
  && all_bytes is_ascii_graphic value.

(** The digest test that every validator spells out. *)
Definition valid_digest (value : string) : bool :=
  is_some_and (λ digest, (strlen digest =? 64)
                         && all_bytes (λ a, is_ascii_digit a || contains 97 102 (code a)) digest)
    (Text.strip_prefix "sha256:" value).

Definition valid_content_type (value : string) : bool :=
  existsb (String.eqb value)
    ["application/pdf"; "image/jpeg"; "image/png"; "image/tiff"; "image/webp"].

Definition is_valid_lease_owner (owner : string) : bool :=
  contains 1 128 (strlen owner)
  && all_bytes (λ a, is_ascii_alphanumeric a || byte_in "-_.:" a) owner.

Definition validate_lease_owner (owner : string) : result StoreError () :=
  if negb (is_valid_lease_owner owner) then Err InvalidStoredUpload else Ok ().

Definition is_valid_parser_identifier (value : string) : bool :=
  contains 1 64 (strlen value)
  && all_bytes (λ a, is_ascii_alphanumeric a || byte_in "-_." a) value.

Definition validate_record (record : RecordUpload) : result StoreError () :=
  if negb (valid_object_version (ru_object_version record))
     || negb (contains 1 104857600 (ru_verified_content_length record))
     || negb (valid_digest (ru_verified_digest record))
     || negb (valid_content_type (ru_verified_content_type record))
  then Err InvalidStoredUpload else Ok ().

(** The loop of [valid_page_geometries] from page [index]. *)
Fixpoint geometries_match (index computed_maximum computed_total : Z) (pages : list PageGeometry)
    (maximum_page_pixels total_page_pixels : Z) : bool :=
  match pages with
  | [] => (computed_maximum =? maximum_page_pixels) && (computed_total =? total_page_pixels)
  | page :: rest =>
      match checked u32_max (index + 1) with
      | None => false
      | Some expected_page =>
          if negb (PageNumber_value (geometry_page page) =? expected_page) then false
          else
            match checked_add u64_max computed_total (PageGeometry_pixels page) with
            | None => false
            | Some total =>
                geometries_match (index + 1) (Z.max computed_maximum (PageGeometry_pixels page))
                  total rest maximum_page_pixels total_page_pixels
            end
      end
  end.

Definition valid_page_geometries (pages : list PageGeometry)
    (page_count maximum_page_pixels total_page_pixels : Z) : bool :=
  if negb (zlen pages =? page_count) then false
  else geometries_match 0 0 0 pages maximum_page_pixels total_page_pixels.

Definition validate_accepted_source (source : AcceptUpload) : result StoreError () :=
  let inspection := parser_inspection source in
  let? page_count := ok_or (checked u32_max (pi_page_count inspection)) InvalidStoredUpload in
  let? maximum := ok_or (checked u64_max (pi_maximum_page_pixels inspection)) InvalidStoredUpload in
  let? total := ok_or (checked u64_max (pi_total_page_pixels inspection)) InvalidStoredUpload in
  if negb (contains 3 222 (strlen (source_bucket source)))
     || is_empty (source_object_name source)
     || (1024 <? strlen (source_object_name source))
     || negb (valid_object_version (source_object_version source))
     || negb (contains 1 104857600 (source_content_length source))
     || negb (valid_digest (source_digest source))
     || negb (is_valid_lease_owner (inspection_lease_owner source))
     || negb (contains 1 MAXIMUM_PAGE_COUNT (pi_page_count inspection))
     || negb (contains 1 100000000 (pi_maximum_page_pixels inspection))
     || negb (contains (pi_maximum_page_pixels inspection) MAXIMUM_TOTAL_PAGE_PIXELS
                (pi_total_page_pixels inspection))
     || negb (valid_page_geometries (pi_page_geometries inspection) page_count maximum total)
     || negb (is_valid_parser_identifier (pi_profile inspection))
     || negb (is_valid_parser_identifier (pi_version inspection))
  then Err InvalidStoredUpload else Ok ().

Definition validate_accepted_source_locator (source : StoredAcceptedSource)
    : result StoreError () :=
  if negb (contains 3 222 (strlen (as_bucket source)))
     || is_empty (as_object_name source)
     || (1024 <? strlen (as_object_name source))
     || negb (valid_object_version (as_generation source))
     || negb (contains 1 104857600 (as_content_length source))
     || negb (valid_digest (as_digest source))
     || negb (valid_content_type (as_content_type source))
     || negb (contains 1 MAXIMUM_PAGE_COUNT (as_page_count source))
     || negb (contains 1 100000000 (as_maximum_page_pixels source))
     || negb (contains (as_maximum_page_pixels source) MAXIMUM_TOTAL_PAGE_PIXELS
                (as_total_page_pixels source))
     || negb (valid_page_geometries (as_page_geometries source) (as_page_count source)
                (as_maximum_page_pixels source) (as_total_page_pixels source))
     || negb (is_valid_parser_identifier (as_parser_profile source))
     || negb (is_valid_parser_identifier (as_parser_version source))
  then Err InvalidStoredUpload else Ok ().

Definition verification_shape_is_valid (upload : StoredUpload) : bool :=
  match su_state upload, su_object_version upload, su_uploaded_at upload with
  | UploadState.Reserved, None, None | UploadState.Expired, None, None => true
  | UploadState.Reserved, _, _ | UploadState.Expired, _, _ => false
  | _, Some _, Some _ => true
  | _, _, _ => false
  end.

Definition validate_upload (upload : StoredUpload) : result StoreError () :=
  if is_empty (su_object_bucket upload)
     || is_empty (su_object_name upload)
     || negb (contains 1 104857600 (su_expected_content_length upload))
     || negb (valid_digest (su_expected_digest upload))
     || negb (valid_content_type (su_expected_content_type upload))
     || (su_expires_at upload <=? su_created_at upload)
     || negb (verification_shape_is_valid upload)
  then Err InvalidStoredUpload else Ok ().

Definition validate_locator (locator : StoredResultLocator) : result StoreError () :=
  if is_empty (loc_object_bucket locator)
     || (222 <? strlen (loc_object_bucket locator))
     || is_empty (loc_object_name locator)
     || (1024 <? strlen (loc_object_name locator))
     || negb (valid_object_version (loc_object_version locator))
     || (loc_content_length locator <=? 0)
     || negb (valid_digest (loc_object_digest locator))
  then Err InvalidStoredResult else Ok ().

Definition validate_page_artifact (artifact : StoredPageArtifact) : result StoreError () :=
  if negb (contains 1 MAXIMUM_PAGE_COUNT (artifact_page artifact))
     || negb (contains 1 10 (artifact_attempt artifact))
     || is_empty (artifact_activity_key artifact)
     || (160 <? strlen (artifact_activity_key artifact))
     || (strlen (artifact_object_bucket artifact) <? 3)
     || (222 <? strlen (artifact_object_bucket artifact))
     || is_empty (artifact_object_name artifact)
     || (1024 <? strlen (artifact_object_name artifact))
     || negb (valid_object_version (artifact_object_version artifact))
     || negb (contains 1 MAXIMUM_DOCUMENT_RESULT_BYTES (artifact_content_length artifact))
     || negb (valid_digest (artifact_object_digest artifact))
  then Err InvalidStoredPageArtifact else Ok ().

(** The [PageTask] an artifact claims to be the output of. *)
Definition artifact_task (artifact : StoredPageArtifact) : PageTask :=
  {| task_page := artifact_page artifact; task_attempt := artifact_attempt artifact;
     task_activity_key := artifact_activity_key artifact |}.

(** The loop of [validate_page_artifact_batch]; it returns the pages it pushed. *)
Fixpoint check_artifacts (job_id : JobId) (workflow : PageWorkflow)
    (artifacts : list StoredPageArtifact) : result StoreError (list Z) :=
  match artifacts with
  | [] => Ok []
  | artifact :: rest =>
      let? _ := validate_page_artifact artifact in
      let expected_key :=
        "ocr-job-" +:+ JobId_str job_id +:+ "-page-" +:+ show_dec (artifact_page artifact)
          +:+ "-attempt-" +:+ show_dec (artifact_attempt artifact) in
      if negb (String.eqb (artifact_activity_key artifact) expected_key)
      then Err InvalidStoredPageArtifact
      else if negb (is_successful_task workflow (artifact_task artifact))
      then Err InvalidStoredPageArtifact
      else
        let? pages := check_artifacts job_id workflow rest in
        Ok (artifact_page artifact :: pages)
  end.

Definition validate_page_artifact_batch (job_id : JobId) (workflow : PageWorkflow)
    (artifacts : list StoredPageArtifact) : result StoreError () :=
  if 64 <? zlen artifacts then Err InvalidStoredPageArtifact
  else
    let? pages := check_artifacts job_id workflow artifacts in
    if any_adjacent Z.eqb (sort_by_key (λ page, page) pages)
    then Err InvalidStoredPageArtifact else Ok ().
