(* ===== verification/StoreDb.v ===== *)
(** * StoreDb: the tables, transactions and row decoders

    The database of the store as a value.  A transaction is a function from the
    tables to its result and the new tables; [Err] is a transaction dropped before
    its commit, so it has no effect ([Tx]).  Transactions run one at a time, at a
    time [now] that every [now()] of a transaction shares (in seconds).

    Columns are those the statements of [ocr-store/src/lib.rs] read or write.  The
    version triggers of [migrations/0018_storage_versions.sql] make
    [coalesce(object_version, object_generation::text)] the column [object_version].
    Primary keys and unique constraints are modelled; the CHECK constraints of the
    migrations are not: a violated one is a transaction that fails and rolls back. *)

From S2P Require Import Prelude Text DomainTypes Identifiers Geometry PageWorkflow StoreTypes.
From S2P Require Import StoreChecks.

#[local] Open Scope list_scope.
#[local] Open Scope Z_scope.

(** ** Rows *)

Record JobRow := mkJobRow {
  jr_tenant_id : string;
  jr_product_id : string;
  jr_idempotency_key : string;
  jr_request_digest : string;
  jr_upload_id : string;
  jr_webhook_subscription_id : option string;
  jr_extraction_schema_id : option string;
  jr_extraction_schema_version : option string;
  jr_status : string;
  jr_created_at : Z;
}.

Record UploadRow := mkUploadRow {
  ur_tenant_id : string;
  ur_product_id : string;
  ur_idempotency_key : string;
  ur_request_digest : string;
  ur_object_bucket : string;
  ur_object_name : string;
  ur_expected_content_type : string;
  ur_expected_content_length : Z;
  ur_expected_digest : string;
  ur_status : string;
  ur_expires_at : Z;
  ur_created_at : Z;
  ur_object_version : option string;
  ur_verified_content_type : option string;
  ur_verified_content_length : option Z;
  ur_verified_digest : option string;
  ur_uploaded_at : option Z;
  ur_source : option (string * string * string * string * Z);
  ur_parser : option ParserInspectionMetadata;
  ur_inspection_attempts : Z;
  ur_inspection_lease_owner : option string;
  ur_inspection_lease_expires_at : option Z;
  ur_rejection_reason : option string;
}.

Record ResultRow := mkResultRow {
  rr_tenant_id : string;
  rr_product_id : string;
  rr_document_id : string;
  rr_document_version : string;
  rr_object_bucket : string;
  rr_object_name : string;
  rr_object_version : string;
  rr_object_digest : string;
  rr_content_length : Z;
}.

(** The [checkpoint] column is the JSON object of a workflow, unchecked. *)
Record WorkflowRow := mkWorkflowRow {
  wr_tenant_id : string;
  wr_product_id : string;
  wr_revision : Z;
  wr_checkpoint : RawPageWorkflow;
}.

Record ArtifactRow := mkArtifactRow {
  ar_tenant_id : string;
  ar_product_id : string;
  ar_artifact : StoredPageArtifact;
}.

(** [payload] is the JSON object of an event, as its list of members. *)
Record OutboxRow := mkOutboxRow {
  or_event_id : Z;
  or_product_id : string;
  or_tenant_id : string;
  or_job_id : string;
  or_event_type : string;
  or_payload : list (string * string);
  or_created_at : Z;
  or_published_at : option Z;
  or_delivery_attempts : Z;
  or_delivery_lease_owner : option string;
  or_delivery_lease_expires_at : option Z;
  or_dead_lettered_at : option Z;
}.

Record UploadOutboxRow := mkUploadOutboxRow {
  uo_product_id : string;
  uo_tenant_id : string;
  uo_upload_id : string;
  uo_event_type : string;
  uo_payload : list (string * string);
}.

Record ScopeRow := mkScopeRow {
  upload_pending : bool;
  dispatch_pending : bool;
  scope_lease_owner : option string;
  scope_lease_expires_at : option Z;
  scope_updated_at : Z;
}.

Record Db := mkDb {
  ocr_jobs : gmap string JobRow;
  ocr_uploads : gmap string UploadRow;
  ocr_results : gmap string ResultRow;
  ocr_page_workflows : gmap string WorkflowRow;
  ocr_page_artifacts : gmap (string * Z) ArtifactRow;
  (** In the order of [event_id], which [next_event_id] generates. *)
  ocr_outbox : list OutboxRow;
  next_event_id : Z;
  ocr_upload_outbox : list UploadOutboxRow;
  ocr_work_scopes : gmap (string * string) ScopeRow;
}.

Definition empty_db : Db :=
  {| ocr_jobs := ∅; ocr_uploads := ∅; ocr_results := ∅; ocr_page_workflows := ∅;
     ocr_page_artifacts := ∅; ocr_outbox := []; next_event_id := 1; ocr_upload_outbox := [];
     ocr_work_scopes := ∅ |}.

Definition Tx (A : Type) : Type := Db → result StoreError (A * Db).

(** The tables after a transaction, committed or rolled back. *)
Definition db_after {A : Type} (tx : Tx A) (db : Db) : Db :=
  match tx db with
  | Ok (_, db') => db'
  | Err _ => db
  end.

(** ** Updating one table *)

Definition with_jobs (db : Db) (t : gmap string JobRow) : Db :=
  {| ocr_jobs := t; ocr_uploads := ocr_uploads db; ocr_results := ocr_results db;
     ocr_page_workflows := ocr_page_workflows db; ocr_page_artifacts := ocr_page_artifacts db;
     ocr_outbox := ocr_outbox db; next_event_id := next_event_id db;
     ocr_upload_outbox := ocr_upload_outbox db; ocr_work_scopes := ocr_work_scopes db |}.
Definition with_uploads (db : Db) (t : gmap string UploadRow) : Db :=
  {| ocr_jobs := ocr_jobs db; ocr_uploads := t; ocr_results := ocr_results db;
     ocr_page_workflows := ocr_page_workflows db; ocr_page_artifacts := ocr_page_artifacts db;
     ocr_outbox := ocr_outbox db; next_event_id := next_event_id db;
     ocr_upload_outbox := ocr_upload_outbox db; ocr_work_scopes := ocr_work_scopes db |}.
Definition with_results (db : Db) (t : gmap string ResultRow) : Db :=
  {| ocr_jobs := ocr_jobs db; ocr_uploads := ocr_uploads db; ocr_results := t;
     ocr_page_workflows := ocr_page_workflows db; ocr_page_artifacts := ocr_page_artifacts db;
     ocr_outbox := ocr_outbox db; next_event_id := next_event_id db;
     ocr_upload_outbox := ocr_upload_outbox db; ocr_work_scopes := ocr_work_scopes db |}.
Definition with_workflows (db : Db) (t : gmap string WorkflowRow) : Db :=
  {| ocr_jobs := ocr_jobs db; ocr_uploads := ocr_uploads db; ocr_results := ocr_results db;
     ocr_page_workflows := t; ocr_page_artifacts := ocr_page_artifacts db;
     ocr_outbox := ocr_outbox db; next_event_id := next_event_id db;
     ocr_upload_outbox := ocr_upload_outbox db; ocr_work_scopes := ocr_work_scopes db |}.
Definition with_artifacts (db : Db) (t : gmap (string * Z) ArtifactRow) : Db :=
  {| ocr_jobs := ocr_jobs db; ocr_uploads := ocr_uploads db; ocr_results := ocr_results db;
     ocr_page_workflows := ocr_page_workflows db; ocr_page_artifacts := t;
     ocr_outbox := ocr_outbox db; next_event_id := next_event_id db;
     ocr_upload_outbox := ocr_upload_outbox db; ocr_work_scopes := ocr_work_scopes db |}.
Definition with_outbox (db : Db) (t : list OutboxRow) : Db :=
  {| ocr_jobs := ocr_jobs db; ocr_uploads := ocr_uploads db; ocr_results := ocr_results db;
     ocr_page_workflows := ocr_page_workflows db; ocr_page_artifacts := ocr_page_artifacts db;
     ocr_outbox := t; next_event_id := next_event_id db;
     ocr_upload_outbox := ocr_upload_outbox db; ocr_work_scopes := ocr_work_scopes db |}.
Definition with_scopes (db : Db) (t : gmap (string * string) ScopeRow) : Db :=
  {| ocr_jobs := ocr_jobs db; ocr_uploads := ocr_uploads db; ocr_results := ocr_results db;
     ocr_page_workflows := ocr_page_workflows db; ocr_page_artifacts := ocr_page_artifacts db;
     ocr_outbox := ocr_outbox db; next_event_id := next_event_id db;
     ocr_upload_outbox := ocr_upload_outbox db; ocr_work_scopes := t |}.

(** [insert into ocr_outbox (product_id, tenant_id, job_id, event_type, payload)]. *)
Definition insert_outbox (now : Z) (product tenant job event_type : string)
    (payload : list (string * string)) (db : Db) : Db :=
  {| ocr_jobs := ocr_jobs db; ocr_uploads := ocr_uploads db; ocr_results := ocr_results db;
     ocr_page_workflows := ocr_page_workflows db; ocr_page_artifacts := ocr_page_artifacts db;
     ocr_outbox := ocr_outbox db ++
       [{| or_event_id := next_event_id db; or_product_id := product; or_tenant_id := tenant;
           or_job_id := job; or_event_type := event_type; or_payload := payload;
           or_created_at := now; or_published_at := None; or_delivery_attempts := 0;
           or_delivery_lease_owner := None; or_delivery_lease_expires_at := None;
           or_dead_lettered_at := None |}];
     next_event_id := next_event_id db + 1;
     ocr_upload_outbox := ocr_upload_outbox db; ocr_work_scopes := ocr_work_scopes db |}.

Definition insert_upload_outbox (product tenant upload event_type : string)
    (payload : list (string * string)) (db : Db) : Db :=
  {| ocr_jobs := ocr_jobs db; ocr_uploads := ocr_uploads db; ocr_results := ocr_results db;
     ocr_page_workflows := ocr_page_workflows db; ocr_page_artifacts := ocr_page_artifacts db;
     ocr_outbox := ocr_outbox db; next_event_id := next_event_id db;
     ocr_upload_outbox := ocr_upload_outbox db ++
       [mkUploadOutboxRow product tenant upload event_type payload];
     ocr_work_scopes := ocr_work_scopes db |}.

(** ** Work scopes: the SQL functions of [migrations/0015_work_scope_leases.sql] *)

Inductive WorkKind := UploadWork | DispatchWork.

(** Five minutes. *)
Definition LEASE_SECONDS : Z := 300.

Definition register_work_scope (now : Z) (product tenant : string) (kind : WorkKind) (db : Db)
    : Db :=
  let upload := match kind with UploadWork => true | DispatchWork => false end in
  let scope :=
    match ocr_work_scopes db !! (product, tenant) with
    | None => {| upload_pending := upload; dispatch_pending := negb upload;
                 scope_lease_owner := None; scope_lease_expires_at := None;
                 scope_updated_at := now |}
    | Some s => {| upload_pending := upload_pending s || upload;
                   dispatch_pending := dispatch_pending s || negb upload;
                   scope_lease_owner := scope_lease_owner s;
                   scope_lease_expires_at := scope_lease_expires_at s;
                   scope_updated_at := now |}
    end in
  with_scopes db (<[(product, tenant) := scope]> (ocr_work_scopes db)).

Definition set_work_scope_pending (now : Z) (product tenant : string) (kind : WorkKind)
    (is_pending : bool) (db : Db) : Db :=
  with_scopes db
    (alter (λ s, {| upload_pending := match kind with UploadWork => is_pending
                                                     | _ => upload_pending s end;
                    dispatch_pending := match kind with DispatchWork => is_pending
                                                       | _ => dispatch_pending s end;
                    scope_lease_owner := scope_lease_owner s;
                    scope_lease_expires_at := scope_lease_expires_at s;
                    scope_updated_at := now |})
       (product, tenant) (ocr_work_scopes db)).

(** ** Row decoders *)

Definition stored_job (job_id : string) (row : JobRow) : result StoreError StoredJob :=
  let? id := map_err (JobId_new job_id) (λ _, InvalidStoredJob) in
  let? state := parse_job_state (jr_status row) in
  Ok {| sj_job_id := id; sj_state := state; sj_created_at := jr_created_at row |}.

Definition stored_upload (upload_id : string) (row : UploadRow) : result StoreError StoredUpload :=
  let? id := map_err (UploadId_new upload_id) (λ _, InvalidStoredUpload) in
  let? state := parse_upload_state (ur_status row) in
  let upload :=
    {| su_upload_id := id; su_state := state; su_object_bucket := ur_object_bucket row;
       su_object_name := ur_object_name row;
       su_expected_content_type := ur_expected_content_type row;
       su_expected_content_length := ur_expected_content_length row;
       su_expected_digest := ur_expected_digest row; su_expires_at := ur_expires_at row;
       su_created_at := ur_created_at row; su_object_version := ur_object_version row;
       su_uploaded_at := ur_uploaded_at row |} in
  let? _ := validate_upload upload in
  Ok upload.

Definition stored_result_locator (row : ResultRow) : result StoreError StoredResultLocator :=
  let? id := map_err (DocumentId_new (rr_document_id row)) (λ _, InvalidStoredResult) in
  let? version := map_err (DocumentVersion_new (rr_document_version row))
                    (λ _, InvalidStoredResult) in
  let locator :=
    {| loc_document_id := id; loc_document_version := version;
       loc_object_bucket := rr_object_bucket row; loc_object_name := rr_object_name row;
       loc_object_version := rr_object_version row; loc_object_digest := rr_object_digest row;
       loc_content_length := rr_content_length row |} in
  let? _ := validate_locator locator in
  Ok locator.

Definition stored_page_artifact (row : ArtifactRow) : result StoreError StoredPageArtifact :=
  let artifact := ar_artifact row in
  let? _ := ok_or (checked u32_max (artifact_page artifact)) InvalidStoredPageArtifact in
  let? _ := ok_or (checked u8_max (artifact_attempt artifact)) InvalidStoredPageArtifact in
  let? _ := validate_page_artifact artifact in
  Ok artifact.

(** A row is visible to a scope when product and tenant match: the [where] clause of
    every statement, which row-level security repeats. *)
Definition in_scope (tenant_id : TenantId) (product_id : ProductId) (tenant product : string)
    : bool :=
  String.eqb tenant (TenantId_str tenant_id) && String.eqb product (ProductId_str product_id).

(** [select .. from ocr_jobs where job_id = $1 and product_id = $2 and tenant_id = $3]. *)
Definition select_job (tenant_id : TenantId) (product_id : ProductId) (job_id : JobId) (db : Db)
    : option JobRow :=
  match ocr_jobs db !! JobId_str job_id with
  | Some row => if in_scope tenant_id product_id (jr_tenant_id row) (jr_product_id row)
                then Some row else None
  | None => None
  end.

Definition select_upload (tenant_id : TenantId) (product_id : ProductId) (upload_id : UploadId)
    (db : Db) : option UploadRow :=
  match ocr_uploads db !! UploadId_str upload_id with
  | Some row => if in_scope tenant_id product_id (ur_tenant_id row) (ur_product_id row)
                then Some row else None
  | None => None
  end.

(** [status in (..)]. *)
Definition status_in (status : string) (set : list string) : bool :=
  existsb (String.eqb status) set.
