(* ===== verification/StoreJobs.v ===== *)
(** * StoreJobs: jobs, cancellation and results

    Models the job methods of [PgJobStore] in [ocr-store/src/lib.rs]: [create], [find],
    [load_document_identity], [load_accepted_source], [cancel],
    [complete_cancellation], [find_result] and [commit_result], statement by
    statement. *)

From S2P Require Import Prelude Text DomainTypes Identifiers Geometry PageWorkflow StoreTypes.
From S2P Require Import StoreChecks StoreDb.

#[local] Open Scope list_scope.
#[local] Open Scope Z_scope.

(** ** Creation *)

(** The row that [unique (product_id, tenant_id, idempotency_key)] makes unique. *)
Definition job_by_key (product tenant key : string) (db : Db) : option (string * JobRow) :=
  List.find (λ '(_, row), String.eqb (jr_product_id row) product
                          && String.eqb (jr_tenant_id row) tenant
                          && String.eqb (jr_idempotency_key row) key)
    (map_to_list (ocr_jobs db)).

(** The [insert into ocr_jobs .. select .. from ocr_uploads .. on conflict do nothing]:
    the inserted row, [None] when there is no accepted source or the key is taken, and
    an error when the primary key is. *)
Definition insert_job (now : Z) (request : CreateJob) (db : Db)
    : result StoreError (option (JobRow * Db)) :=
  match select_upload (cj_tenant_id request) (cj_product_id request) (cj_upload_id request) db with
  | Some upload =>
      if negb (String.eqb (ur_status upload) "accepted") then Ok None
      else
        match job_by_key (ProductId_str (cj_product_id request))
                (TenantId_str (cj_tenant_id request))
                (IdempotencyKey_str (cj_idempotency_key request)) db with
        | Some _ => Ok None
        | None =>
            match ocr_jobs db !! JobId_str (cj_job_id request) with
            | Some _ => Err Database
            | None =>
                let row :=
                  {| jr_tenant_id := TenantId_str (cj_tenant_id request);
                     jr_product_id := ProductId_str (cj_product_id request);
                     jr_idempotency_key := IdempotencyKey_str (cj_idempotency_key request);
                     jr_request_digest := RequestDigest_str (cj_request_digest request);
                     jr_upload_id := UploadId_str (cj_upload_id request);
                     jr_webhook_subscription_id :=
                       WebhookSubscriptionId_str <$> cj_webhook_subscription_id request;
                     jr_extraction_schema_id := schema_id <$> cj_extraction request;
                     jr_extraction_schema_version := ref_schema_version <$> cj_extraction request;
                     jr_status := "accepted"; jr_created_at := now |} in
                Ok (Some (row, with_jobs db
                                 (<[JobId_str (cj_job_id request) := row]> (ocr_jobs db))))
            end
        end
  | None => Ok None
  end.

Definition create (now : Z) (request : CreateJob) : Tx CreateOutcome.CreateOutcome := λ db,
  let product := ProductId_str (cj_product_id request) in
  let tenant := TenantId_str (cj_tenant_id request) in
  let job := JobId_str (cj_job_id request) in
  let? inserted := insert_job now request db in
  match inserted with
  | Some (row, db) =>
      let db := insert_outbox now product tenant job "ocr.job.accepted.v1"
                  [("job_id", job); ("status", "accepted")] db in
      let db := register_work_scope now product tenant DispatchWork db in
      let? stored := stored_job job row in
      Ok (CreateOutcome.Created stored, db)
  | None =>
      match job_by_key product tenant (IdempotencyKey_str (cj_idempotency_key request)) db with
      | None => Err UploadSourceUnavailable
      | Some (existing_id, existing) =>
          if negb (String.eqb (jr_request_digest existing)
                     (RequestDigest_str (cj_request_digest request)))
             || negb (bool_decide (jr_webhook_subscription_id existing
                        = (WebhookSubscriptionId_str <$> cj_webhook_subscription_id request)))
          then Err IdempotencyConflict
          else
            let? stored := stored_job existing_id existing in
            Ok (CreateOutcome.Existing stored, db)
      end
  end.

(** ** Reading *)

Definition find (tenant_id : TenantId) (product_id : ProductId) (job_id : JobId) (db : Db)
    : result StoreError (option StoredJob) :=
  match select_job tenant_id product_id job_id db with
  | None => Ok None
  | Some row => let? job := stored_job (JobId_str job_id) row in Ok (Some job)
  end.

(** The job joined with its accepted upload in the same scope. *)
Definition select_accepted (tenant_id : TenantId) (product_id : ProductId) (job_id : JobId)
    (db : Db) : option (JobRow * UploadRow) :=
  match select_job tenant_id product_id job_id db with
  | None => None
  | Some job =>
      match ocr_uploads db !! jr_upload_id job with
      | Some upload =>
          if in_scope tenant_id product_id (ur_tenant_id upload) (ur_product_id upload)
             && String.eqb (ur_status upload) "accepted"
          then Some (job, upload) else None
      | None => None
      end
  end.

Definition load_document_identity (tenant_id : TenantId) (product_id : ProductId)
    (job_id : JobId) (db : Db) : result StoreError (option StoredDocumentIdentity) :=
  match select_accepted tenant_id product_id job_id db with
  | None => Ok None
  | Some (job, upload) =>
      let? suffix := ok_or (Text.strip_prefix "job_" (JobId_str job_id)) InvalidStoredJob in
      let? document_id := map_err (DocumentId_new ("doc_" +:+ suffix)) (λ _, InvalidStoredJob) in
      (* A null digest fails the column conversion. *)
      let? digest := ok_or ((λ '(_, _, _, digest, _), digest) <$> ur_source upload) Database in
      let? document_version := map_err (DocumentVersion_new digest) (λ _, InvalidStoredUpload) in
      let? extraction :=
        match jr_extraction_schema_id job, jr_extraction_schema_version job with
        | Some id, Some version => Ok (Some {| schema_id := id; ref_schema_version := version |})
        | None, None => Ok None
        | _, _ => Err InvalidStoredJob
        end in
      Ok (Some {| identity_document_id := document_id;
                  identity_document_version := document_version;
                  identity_extraction := extraction |})
  end.

(** [serde_json::from_str::<Vec<PageGeometry>>]: every check of the wire types. *)
Definition decode_geometry (g : PageGeometry) : result DomainTypes.Error PageGeometry :=
  let? page := PageNumber_new (PageNumber_value (geometry_page g)) in
  PageGeometry_new page (geometry_width g) (geometry_height g).
Definition decode_geometries (gs : list PageGeometry) : result StoreError (list PageGeometry) :=
  map_err (collect_results decode_geometry gs) (λ _, InvalidStoredUpload).

Definition stored_accepted_source (upload : UploadRow) : result StoreError StoredAcceptedSource :=
  let? source := ok_or (ur_source upload) Database in
  let '(bucket, object_name, generation, digest, content_length) := source in
  let? parser := ok_or (ur_parser upload) Database in
  let? page_count := ok_or (checked u32_max (pi_page_count parser)) InvalidStoredUpload in
  let? maximum := ok_or (checked u64_max (pi_maximum_page_pixels parser)) InvalidStoredUpload in
  let? total := ok_or (checked u64_max (pi_total_page_pixels parser)) InvalidStoredUpload in
  let? geometries := decode_geometries (pi_page_geometries parser) in
  let source :=
    {| as_bucket := bucket; as_object_name := object_name; as_generation := generation;
       as_digest := digest; as_content_length := content_length;
       as_content_type := ur_expected_content_type upload; as_page_count := page_count;
       as_maximum_page_pixels := maximum; as_total_page_pixels := total;
       as_page_geometries := geometries; as_parser_profile := pi_profile parser;
       as_parser_version := pi_version parser |} in
  let? _ := validate_accepted_source_locator source in
  Ok source.

Definition load_accepted_source (tenant_id : TenantId) (product_id : ProductId) (job_id : JobId)
    (db : Db) : result StoreError (option StoredAcceptedSource) :=
  match select_accepted tenant_id product_id job_id db with
  | None => Ok None
  | Some (_, upload) => let? source := stored_accepted_source upload in Ok (Some source)
  end.

(** ** Status updates *)

Definition set_job_status (row : JobRow) (status : string) : JobRow :=
  {| jr_tenant_id := jr_tenant_id row; jr_product_id := jr_product_id row;
     jr_idempotency_key := jr_idempotency_key row; jr_request_digest := jr_request_digest row;
     jr_upload_id := jr_upload_id row;
     jr_webhook_subscription_id := jr_webhook_subscription_id row;
     jr_extraction_schema_id := jr_extraction_schema_id row;
     jr_extraction_schema_version := jr_extraction_schema_version row;
     jr_status := status; jr_created_at := jr_created_at row |}.

(** [update ocr_jobs set status = $s .. where .. and status in (..) returning ..]. *)
Definition update_job_status (tenant_id : TenantId) (product_id : ProductId) (job_id : JobId)
    (from : list string) (status : string) (db : Db) : option (JobRow * Db) :=
  match select_job tenant_id product_id job_id db with
  | Some row =>
      if status_in (jr_status row) from then
        let row := set_job_status row status in
        Some (row, with_jobs db (<[JobId_str job_id := row]> (ocr_jobs db)))
      else None
  | None => None
  end.

Definition cancel (now : Z) (tenant_id : TenantId) (product_id : ProductId) (job_id : JobId)
    : Tx CancelOutcome.CancelOutcome := λ db,
  let product := ProductId_str product_id in
  let tenant := TenantId_str tenant_id in
  match update_job_status tenant_id product_id job_id
          ["accepted"; "inspecting"; "processing"; "validating"] "cancelled" db with
  | Some (updated, db) =>
      let db := insert_outbox now product tenant (JobId_str job_id)
                  "ocr.job.cancellation_requested.v1"
                  [("job_id", JobId_str job_id); ("status", "cancelled")] db in
      let db := register_work_scope now product tenant DispatchWork db in
      let? job := stored_job (JobId_str job_id) updated in
      Ok (CancelOutcome.Requested job, db)
  | None =>
      match select_job tenant_id product_id job_id db with
      | None => Ok (CancelOutcome.NotFound, db)
      | Some existing =>
          let? job := stored_job (JobId_str job_id) existing in
          match sj_state job with
          | Cancelling | Cancelled => Ok (CancelOutcome.Existing job, db)
          | _ => Ok (CancelOutcome.NotCancellable job, db)
          end
      end
  end.

Definition complete_cancellation (tenant_id : TenantId) (product_id : ProductId)
    (job_id : JobId) : Tx CompleteCancellationOutcome.CompleteCancellationOutcome := λ db,
  match select_job tenant_id product_id job_id db with
  | None => Ok (CompleteCancellationOutcome.NotFound, db)
  | Some row =>
      let? job := stored_job (JobId_str job_id) row in
      match sj_state job with
      | Cancelled => Ok (CompleteCancellationOutcome.Existing job, db)
      | Cancelling =>
          let? (cancelled, db) :=
            ok_or (update_job_status tenant_id product_id job_id ["cancelling"] "cancelled" db)
              InvalidStoredJob in
          let? job := stored_job (JobId_str job_id) cancelled in
          Ok (CompleteCancellationOutcome.Cancelled job, db)
      | _ => Ok (CompleteCancellationOutcome.NotCancellable job, db)
      end
  end.

(** ** Results *)

Definition select_result (tenant_id : TenantId) (product_id : ProductId) (job_id : JobId)
    (db : Db) : option ResultRow :=
  match ocr_results db !! JobId_str job_id with
  | Some row => if in_scope tenant_id product_id (rr_tenant_id row) (rr_product_id row)
                then Some row else None
  | None => None
  end.

Definition is_result_state (state : JobState) : bool :=
  match state with
  | Partial | ReviewRequired | Completed => true
  | _ => false
  end.

Definition find_result (tenant_id : TenantId) (product_id : ProductId) (job_id : JobId)
    (db : Db) : result StoreError ResultLookup.ResultLookup :=
  match select_job tenant_id product_id job_id db with
  | None => Ok ResultLookup.NotFound
  | Some row =>
      let? state := parse_job_state (jr_status row) in
      match select_result tenant_id product_id job_id db with
      | None =>
          match state with
          | Accepted | Inspecting | Processing | Validating | Cancelling =>
              Ok (ResultLookup.NotReady state)
          | Cancelled | Rejected => Ok (ResultLookup.Unavailable state)
          | Partial | ReviewRequired | Completed => Err InvalidStoredResult
          end
      | Some result =>
          if negb (is_result_state state) then Err InvalidStoredResult
          else let? locator := stored_result_locator result in Ok (ResultLookup.Ready locator)
      end
  end.

(** [insert into ocr_results]: the primary key and the unique document version. *)
Definition insert_result (tenant_id : TenantId) (product_id : ProductId) (job_id : JobId)
    (locator : StoredResultLocator) (db : Db) : result StoreError Db :=
  let row :=
    {| rr_tenant_id := TenantId_str tenant_id; rr_product_id := ProductId_str product_id;
       rr_document_id := DocumentId_str (loc_document_id locator);
       rr_document_version := DocumentVersion_str (loc_document_version locator);
       rr_object_bucket := loc_object_bucket locator; rr_object_name := loc_object_name locator;
       rr_object_version := loc_object_version locator;
       rr_object_digest := loc_object_digest locator;
       rr_content_length := loc_content_length locator |} in
  match ocr_results db !! JobId_str job_id with
  | Some _ => Err Database
  | None =>
      if existsb (λ '(_, other),
           String.eqb (rr_product_id other) (rr_product_id row)
           && String.eqb (rr_tenant_id other) (rr_tenant_id row)
           && String.eqb (rr_document_id other) (rr_document_id row)
           && String.eqb (rr_document_version other) (rr_document_version row))
           (map_to_list (ocr_results db))
      then Err Database
      else Ok (with_results db (<[JobId_str job_id := row]> (ocr_results db)))
  end.

(** The status text and the webhook event of a terminal state. *)
Definition terminal_text (state : JobState) : result StoreError string :=
  match state with
  | Partial => Ok "partial"
  | ReviewRequired => Ok "review_required"
  | Completed => Ok "completed"
  | _ => Err InvalidStoredResult
  end.

Definition terminal_event (state : JobState) : result StoreError string :=
  match state with
  | Completed => Ok "ocr.job.completed.v1"
  | Partial => Ok "ocr.job.partial.v1"
  | ReviewRequired => Ok "ocr.job.review_required.v1"
  | _ => Err InvalidStoredResult
  end.

Definition commit_result (now : Z) (tenant_id : TenantId) (product_id : ProductId)
    (job_id : JobId) (command : CommitResult) : Tx CommitResultOutcome.CommitResultOutcome := λ db,
  let product := ProductId_str product_id in
  let tenant := TenantId_str tenant_id in
  let id := JobId_str job_id in
  let? _ := validate_locator (locator command) in
  if negb (is_result_state (terminal_state command)) then Err InvalidStoredResult
  else
    match select_job tenant_id product_id job_id db with
    | None => Ok (CommitResultOutcome.NotFound, db)
    | Some row =>
        let? job := stored_job id row in
        match select_result tenant_id product_id job_id db with
        | Some existing =>
            let? found := stored_result_locator existing in
            if bool_decide (found = locator command)
               && bool_decide (sj_state job = terminal_state command)
            then Ok (CommitResultOutcome.Existing job, db)
            else Ok (CommitResultOutcome.Conflict, db)
        | None =>
            if negb (bool_decide (sj_state job = Processing)
                     || bool_decide (sj_state job = Validating))
            then Ok (CommitResultOutcome.NotCommittable, db)
            else
              let db :=
                if bool_decide (sj_state job = Processing)
                then match update_job_status tenant_id product_id job_id
                             [jr_status row] "validating" db with
                     | Some (_, db) => db
                     | None => db
                     end
                else db in
              let? db := insert_result tenant_id product_id job_id (locator command) db in
              let? status := terminal_text (terminal_state command) in
              let? (completed, db) :=
                ok_or (update_job_status tenant_id product_id job_id ["validating"] status db)
                  InvalidStoredResult in
              let? completed := stored_job id completed in
              match jr_webhook_subscription_id row with
              | Some webhook =>
                  let? event_type := terminal_event (terminal_state command) in
                  Ok (CommitResultOutcome.Committed completed,
                      insert_outbox now product tenant id event_type
                        [("job_id", id); ("status", status);
                         ("document_version",
                          DocumentVersion_str (loc_document_version (locator command)));
                         ("webhook_subscription_id", webhook);
                         ("content_trust", "untrusted")] db)
              | None => Ok (CommitResultOutcome.Committed completed, db)
              end
        end
    end.
