(* ===== verification/StorePages.v ===== *)
(** * StorePages: page checkpoints and page artifacts

    Models the page methods of [PgJobStore] in [ocr-store/src/lib.rs]: creating and
    loading a job's page workflow, and saving a new revision together with the
    artifacts of the pages it completes.  The lengths of a checkpoint's JSON text, as
    [serde_json] and as [jsonb::text] write it, are the arguments [serde_size] and
    [jsonb_size]. *)

From S2P Require Import Prelude Text DomainTypes Identifiers Geometry PageWorkflow StoreTypes.
From S2P Require Import StoreChecks StoreDb StoreJobs.

#[local] Open Scope list_scope.
#[local] Open Scope Z_scope.

Section Pages.
Context (serde_size jsonb_size : RawPageWorkflow → Z).

Definition serialize_page_workflow (workflow : PageWorkflow) : result StoreError RawPageWorkflow :=
  let checkpoint := to_raw workflow in
  if (serde_size checkpoint =? 0) || (262144 <? serde_size checkpoint)
  then Err InvalidStoredPageWorkflow else Ok checkpoint.

Definition stored_page_workflow (row : WorkflowRow) : result StoreError StoredPageWorkflow :=
  let checkpoint := wr_checkpoint row in
  if (wr_revision row <? 0) || (jsonb_size checkpoint =? 0) || (262144 <? jsonb_size checkpoint)
  then Err InvalidStoredPageWorkflow
  else
    let? workflow := map_err (PageWorkflow_try_from checkpoint) (λ _, InvalidStoredPageWorkflow) in
    Ok {| stored_workflow := workflow; revision := wr_revision row |}.

Definition select_workflow (tenant_id : TenantId) (product_id : ProductId) (job_id : JobId)
    (db : Db) : option WorkflowRow :=
  match ocr_page_workflows db !! JobId_str job_id with
  | Some row => if in_scope tenant_id product_id (wr_tenant_id row) (wr_product_id row)
                then Some row else None
  | None => None
  end.

Definition load_page_workflow_row (tenant_id : TenantId) (product_id : ProductId)
    (job_id : JobId) (db : Db) : result StoreError (option StoredPageWorkflow) :=
  match select_workflow tenant_id product_id job_id db with
  | None => Ok None
  | Some row => let? stored := stored_page_workflow row in Ok (Some stored)
  end.

(** [insert into ocr_page_workflows .. select .. from ocr_jobs .. on conflict do nothing]. *)
Definition insert_workflow (tenant_id : TenantId) (product_id : ProductId) (job_id : JobId)
    (checkpoint : RawPageWorkflow) (cancellation_checkpoint : bool) (db : Db)
    : option (WorkflowRow * Db) :=
  match select_job tenant_id product_id job_id db with
  | Some job =>
      if status_in (jr_status job) ["accepted"; "processing"]
         || (cancellation_checkpoint && status_in (jr_status job) ["cancelling"; "cancelled"])
      then
        match ocr_page_workflows db !! JobId_str job_id with
        | Some _ => None
        | None =>
            let row := {| wr_tenant_id := TenantId_str tenant_id;
                          wr_product_id := ProductId_str product_id;
                          wr_revision := 0; wr_checkpoint := checkpoint |} in
            Some (row, with_workflows db (<[JobId_str job_id := row]> (ocr_page_workflows db)))
        end
      else None
  | None => None
  end.

Definition create_page_workflow (tenant_id : TenantId) (product_id : ProductId) (job_id : JobId)
    (workflow : PageWorkflow) : Tx CreatePageWorkflowOutcome.CreatePageWorkflowOutcome := λ db,
  if negb (id_eqb (workflow_job_id workflow) job_id) then Err InvalidStoredPageWorkflow
  else
    let cancellation_checkpoint :=
      bool_decide (status workflow = PageWorkflowStatus.Cancelled) in
    let? checkpoint := serialize_page_workflow workflow in
    match insert_workflow tenant_id product_id job_id checkpoint cancellation_checkpoint db with
    | Some (row, db) =>
        let? stored := stored_page_workflow row in
        if cancellation_checkpoint then Ok (CreatePageWorkflowOutcome.Created stored, db)
        else
          match update_job_status tenant_id product_id job_id ["accepted"; "processing"]
                  "processing" db with
          | None => Err InvalidStoredPageWorkflow
          | Some (_, db) => Ok (CreatePageWorkflowOutcome.Created stored, db)
          end
    | None =>
        let? existing := load_page_workflow_row tenant_id product_id job_id db in
        Ok (match existing with
            | Some stored =>
                if bool_decide (stored_workflow stored = workflow)
                then CreatePageWorkflowOutcome.Existing stored
                else CreatePageWorkflowOutcome.Conflict
            | None => CreatePageWorkflowOutcome.NotFound
            end, db)
    end.

Definition load_page_workflow (tenant_id : TenantId) (product_id : ProductId) (job_id : JobId)
    (db : Db) : result StoreError (option StoredPageWorkflow) :=
  load_page_workflow_row tenant_id product_id job_id db.

(** [select .. from ocr_page_artifacts .. order by page_number]. *)
Definition artifact_rows (tenant_id : TenantId) (product_id : ProductId) (job_id : JobId)
    (db : Db) : list ArtifactRow :=
  sort_by_key (λ row, artifact_page (ar_artifact row))
    (omap (λ '((job, _), row),
             if String.eqb job (JobId_str job_id)
                && in_scope tenant_id product_id (ar_tenant_id row) (ar_product_id row)
             then Some row else None)
       (map_to_list (ocr_page_artifacts db))).

Definition load_page_artifacts (tenant_id : TenantId) (product_id : ProductId) (job_id : JobId)
    (db : Db) : result StoreError (list StoredPageArtifact) :=
  collect_results stored_page_artifact (artifact_rows tenant_id product_id job_id db).

(** The batch [insert into ocr_page_artifacts]: a taken [(job_id, page_number)] or
    [(job_id, activity_key)] fails the statement. *)
Fixpoint insert_artifacts (tenant_id : TenantId) (product_id : ProductId) (job_id : JobId)
    (artifacts : list StoredPageArtifact) (table : gmap (string * Z) ArtifactRow)
    : result StoreError (gmap (string * Z) ArtifactRow) :=
  match artifacts with
  | [] => Ok table
  | artifact :: rest =>
      match table !! (JobId_str job_id, artifact_page artifact) with
      | Some _ => Err Database
      | None =>
          if existsb (λ '((job, _), row),
               String.eqb job (JobId_str job_id)
               && String.eqb (artifact_activity_key (ar_artifact row))
                    (artifact_activity_key artifact))
               (map_to_list table)
          then Err Database
          else
            insert_artifacts tenant_id product_id job_id rest
              (<[(JobId_str job_id, artifact_page artifact) :=
                 {| ar_tenant_id := TenantId_str tenant_id;
                    ar_product_id := ProductId_str product_id; ar_artifact := artifact |}]> table)
      end
  end.

(** [update ocr_page_workflows set checkpoint = .., revision = revision + 1 .. where ..
    and revision = $4 returning ..]. *)
Definition update_workflow (tenant_id : TenantId) (product_id : ProductId) (job_id : JobId)
    (expected_revision : Z) (checkpoint : RawPageWorkflow) (db : Db) : option (WorkflowRow * Db) :=
  match select_workflow tenant_id product_id job_id db with
  | Some row =>
      if wr_revision row =? expected_revision then
        let row := {| wr_tenant_id := wr_tenant_id row; wr_product_id := wr_product_id row;
                      wr_revision := wr_revision row + 1; wr_checkpoint := checkpoint |} in
        Some (row, with_workflows db (<[JobId_str job_id := row]> (ocr_page_workflows db)))
      else None
  | None => None
  end.

Definition save_page_workflow_with_artifacts (tenant_id : TenantId) (product_id : ProductId)
    (job_id : JobId) (expected_revision : Z) (workflow : PageWorkflow)
    (artifacts : list StoredPageArtifact) : Tx SavePageWorkflowOutcome.SavePageWorkflowOutcome := λ db,
  if (expected_revision <? 0) || negb (id_eqb (workflow_job_id workflow) job_id)
  then Err InvalidStoredPageWorkflow
  else
    let? _ := validate_page_artifact_batch job_id workflow artifacts in
    let? checkpoint := serialize_page_workflow workflow in
    match select_workflow tenant_id product_id job_id db with
    | None => Ok (SavePageWorkflowOutcome.NotFound, db)
    | Some row =>
        if negb (wr_revision row =? expected_revision)
        then Ok (SavePageWorkflowOutcome.Conflict, db)
        else
          let? db :=
            if zlen artifacts =? 0 then Ok db
            else
              let? _ := collect_results (λ artifact,
                          ok_or (checked i32_max (artifact_page artifact))
                            InvalidStoredPageArtifact) artifacts in
              let? table := insert_artifacts tenant_id product_id job_id artifacts
                              (ocr_page_artifacts db) in
              Ok (with_artifacts db table) in
          match update_workflow tenant_id product_id job_id expected_revision checkpoint db with
          | Some (row, db) =>
              let? stored := stored_page_workflow row in
              Ok (SavePageWorkflowOutcome.Saved stored, db)
          | None => Err InvalidStoredPageWorkflow
          end
    end.

Definition save_page_workflow (tenant_id : TenantId) (product_id : ProductId) (job_id : JobId)
    (expected_revision : Z) (workflow : PageWorkflow)
    : Tx SavePageWorkflowOutcome.SavePageWorkflowOutcome :=
  save_page_workflow_with_artifacts tenant_id product_id job_id expected_revision workflow [].
End Pages.
