(* ===== verification/StoreUploads.v ===== *)
(** * StoreUploads: the upload life cycle

    Models the upload methods of [PgJobStore] in [ocr-store/src/lib.rs]: [create_upload],
    [find_upload], [list_reconcilable_uploads], [load_claimed_upload],
    [record_uploaded], [claim_upload_inspection], [accept_upload] and
    [reject_upload]. *)

From S2P Require Import Prelude Text DomainTypes Identifiers Geometry PageWorkflow StoreTypes.
From S2P Require Import StoreChecks StoreDb StoreJobs.

#[local] Open Scope list_scope.
#[local] Open Scope Z_scope.

Definition MAXIMUM_INSPECTION_ATTEMPTS : Z := 10.

(** [inspection_lease_expires_at > now()], false on null. *)
Definition lease_live (now : Z) (expires_at : option Z) : bool :=
  match expires_at with
  | Some t => now <? t
  | None => false
  end.

Definition owned_by (owner : option string) (lease_owner : string) : bool :=
  bool_decide (owner = Some lease_owner).

(** The status and lease columns of a row; [f] gives the rest. *)
Definition set_inspection (row : UploadRow) (status : string) (attempts : Z)
    (owner : option string) (expires : option Z) (reason : option string)
    (source : option (string * string * string * string * Z))
    (parser : option ParserInspectionMetadata) : UploadRow :=
  {| ur_tenant_id := ur_tenant_id row; ur_product_id := ur_product_id row;
     ur_idempotency_key := ur_idempotency_key row; ur_request_digest := ur_request_digest row;
     ur_object_bucket := ur_object_bucket row; ur_object_name := ur_object_name row;
     ur_expected_content_type := ur_expected_content_type row;
     ur_expected_content_length := ur_expected_content_length row;
     ur_expected_digest := ur_expected_digest row; ur_status := status;
     ur_expires_at := ur_expires_at row; ur_created_at := ur_created_at row;
     ur_object_version := ur_object_version row;
     ur_verified_content_type := ur_verified_content_type row;
     ur_verified_content_length := ur_verified_content_length row;
     ur_verified_digest := ur_verified_digest row; ur_uploaded_at := ur_uploaded_at row;
     ur_source := source; ur_parser := parser; ur_inspection_attempts := attempts;
     ur_inspection_lease_owner := owner; ur_inspection_lease_expires_at := expires;
     ur_rejection_reason := reason |}.

Definition put_upload (upload_id : UploadId) (row : UploadRow) (db : Db) : Db :=
  with_uploads db (<[UploadId_str upload_id := row]> (ocr_uploads db)).

(** ** Reservation *)

Definition upload_by_key (product tenant key : string) (db : Db) : option (string * UploadRow) :=
  List.find (λ '(_, row), String.eqb (ur_product_id row) product
                          && String.eqb (ur_tenant_id row) tenant
                          && String.eqb (ur_idempotency_key row) key)
    (map_to_list (ocr_uploads db)).

(** [insert into ocr_uploads .. on conflict (product_id, tenant_id, idempotency_key) do
    nothing]; the primary key and [unique (object_bucket, object_name)] fail it. *)
Definition insert_upload (now : Z) (request : CreateUpload) (db : Db)
    : result StoreError (option (UploadRow * Db)) :=
  match upload_by_key (ProductId_str (cu_product_id request))
          (TenantId_str (cu_tenant_id request))
          (IdempotencyKey_str (cu_idempotency_key request)) db with
  | Some _ => Ok None
  | None =>
      if bool_decide (is_Some (ocr_uploads db !! UploadId_str (cu_upload_id request)))
         || existsb (λ '(_, other), String.eqb (ur_object_bucket other) (cu_object_bucket request)
                                    && String.eqb (ur_object_name other) (cu_object_name request))
              (map_to_list (ocr_uploads db))
      then Err Database
      else
        let row :=
          {| ur_tenant_id := TenantId_str (cu_tenant_id request);
             ur_product_id := ProductId_str (cu_product_id request);
             ur_idempotency_key := IdempotencyKey_str (cu_idempotency_key request);
             ur_request_digest := RequestDigest_str (cu_request_digest request);
             ur_object_bucket := cu_object_bucket request;
             ur_object_name := cu_object_name request;
             ur_expected_content_type := cu_expected_content_type request;
             ur_expected_content_length := cu_expected_content_length request;
             ur_expected_digest := cu_expected_digest request; ur_status := "reserved";
             ur_expires_at := cu_expires_at request; ur_created_at := now;
             ur_object_version := None; ur_verified_content_type := None;
             ur_verified_content_length := None; ur_verified_digest := None;
             ur_uploaded_at := None; ur_source := None; ur_parser := None;
             ur_inspection_attempts := 0; ur_inspection_lease_owner := None;
             ur_inspection_lease_expires_at := None; ur_rejection_reason := None |} in
        Ok (Some (row, put_upload (cu_upload_id request) row db))
  end.

Definition create_upload (now : Z) (request : CreateUpload)
    : Tx CreateUploadOutcome.CreateUploadOutcome := λ db,
  let? inserted := insert_upload now request db in
  match inserted with
  | Some (row, db) =>
      let? upload := stored_upload (UploadId_str (cu_upload_id request)) row in
      Ok (CreateUploadOutcome.Created upload, db)
  | None =>
      let? (existing_id, existing) :=
        ok_or (upload_by_key (ProductId_str (cu_product_id request))
                 (TenantId_str (cu_tenant_id request))
                 (IdempotencyKey_str (cu_idempotency_key request)) db) Database in
      if negb (String.eqb (ur_request_digest existing)
                 (RequestDigest_str (cu_request_digest request)))
      then Err IdempotencyConflict
      else
        let? upload := stored_upload existing_id existing in
        Ok (CreateUploadOutcome.Existing upload, db)
  end.

(** ** Reading *)

Definition find_upload (tenant_id : TenantId) (product_id : ProductId) (upload_id : UploadId)
    (db : Db) : result StoreError (option StoredUpload) :=
  match select_upload tenant_id product_id upload_id db with
  | None => Ok None
  | Some row => let? upload := stored_upload (UploadId_str upload_id) row in Ok (Some upload)
  end.

(** An upload the reconciler has work for. *)
Definition reconcilable (now : Z) (row : UploadRow) : bool :=
  String.eqb (ur_status row) "uploaded"
  || (String.eqb (ur_status row) "inspecting"
      && match ur_inspection_lease_expires_at row with
         | Some t => t <=? now
         | None => false
         end).

(** [order by uploaded_at, upload_id]; null sorts last. *)
Definition uploaded_before (a b : string * UploadRow) : bool :=
  match ur_uploaded_at a.2, ur_uploaded_at b.2 with
  | Some t, Some u => (t <? u) || ((t =? u) && string_le a.1 b.1)
  | Some _, None => true
  | None, Some _ => false
  | None, None => string_le a.1 b.1
  end.

Definition list_reconcilable_uploads (now : Z) (tenant_id : TenantId) (product_id : ProductId)
    (limit : Z) (db : Db) : result StoreError (list UploadId) :=
  if negb (contains 1 100 limit) then Err InvalidStoredUpload
  else
    let rows :=
      List.filter (λ '(_, row), in_scope tenant_id product_id (ur_tenant_id row) (ur_product_id row)
                                && reconcilable now row) (map_to_list (ocr_uploads db)) in
    collect_results (λ '(id, _), map_err (UploadId_new id) (λ _, InvalidStoredUpload))
      (take (Z.to_nat limit) (sort_by uploaded_before rows)).

Definition load_claimed_upload (now : Z) (tenant_id : TenantId) (product_id : ProductId)
    (upload_id : UploadId) (lease_owner : string) (db : Db)
    : result StoreError (option StoredUpload) :=
  let? _ := validate_lease_owner lease_owner in
  match select_upload tenant_id product_id upload_id db with
  | Some row =>
      if String.eqb (ur_status row) "inspecting"
         && owned_by (ur_inspection_lease_owner row) lease_owner
         && lease_live now (ur_inspection_lease_expires_at row)
      then let? upload := stored_upload (UploadId_str upload_id) row in Ok (Some upload)
      else Ok None
  | None => Ok None
  end.

(** ** The client's upload is recorded *)

(** [clock] is [OffsetDateTime::now_utc()] of the service, [now] the database's. *)
Definition record_uploaded (now clock : Z) (tenant_id : TenantId) (product_id : ProductId)
    (upload_id : UploadId) (record : RecordUpload) : Tx RecordUploadOutcome.RecordUploadOutcome := λ db,
  let product := ProductId_str product_id in
  let tenant := TenantId_str tenant_id in
  let id := UploadId_str upload_id in
  let? _ := validate_record record in
  match select_upload tenant_id product_id upload_id db with
  | None => Ok (RecordUploadOutcome.NotFound, db)
  | Some row =>
      if String.eqb (ur_status row) "reserved" && (now <? ur_expires_at row)
         && String.eqb (ur_expected_content_type row) (ru_verified_content_type record)
         && (ur_expected_content_length row =? ru_verified_content_length record)
         && String.eqb (ur_expected_digest row) (ru_verified_digest record)
      then
        let updated :=
          {| ur_tenant_id := ur_tenant_id row; ur_product_id := ur_product_id row;
             ur_idempotency_key := ur_idempotency_key row;
             ur_request_digest := ur_request_digest row;
             ur_object_bucket := ur_object_bucket row; ur_object_name := ur_object_name row;
             ur_expected_content_type := ur_expected_content_type row;
             ur_expected_content_length := ur_expected_content_length row;
             ur_expected_digest := ur_expected_digest row; ur_status := "uploaded";
             ur_expires_at := ur_expires_at row; ur_created_at := ur_created_at row;
             ur_object_version := Some (ru_object_version record);
             ur_verified_content_type := Some (ru_verified_content_type record);
             ur_verified_content_length := Some (ru_verified_content_length record);
             ur_verified_digest := Some (ru_verified_digest record);
             ur_uploaded_at := Some now; ur_source := ur_source row; ur_parser := ur_parser row;
             ur_inspection_attempts := ur_inspection_attempts row;
             ur_inspection_lease_owner := ur_inspection_lease_owner row;
             ur_inspection_lease_expires_at := ur_inspection_lease_expires_at row;
             ur_rejection_reason := ur_rejection_reason row |} in
        let db := put_upload upload_id updated db in
        let db := insert_upload_outbox product tenant id "ocr.upload.received.v1"
                    [("upload_id", id); ("status", "uploaded")] db in
        let db := register_work_scope now product tenant UploadWork db in
        let? upload := stored_upload id updated in
        Ok (RecordUploadOutcome.Recorded upload, db)
      else
        let? state := parse_upload_state (ur_status row) in
        match state with
        | UploadState.Uploaded =>
            if bool_decide (ur_object_version row = Some (ru_object_version record))
               && bool_decide (ur_verified_content_type row
                               = Some (ru_verified_content_type record))
               && bool_decide (ur_verified_content_length row
                               = Some (ru_verified_content_length record))
               && bool_decide (ur_verified_digest row = Some (ru_verified_digest record))
            then
              let? upload := stored_upload id row in
              Ok (RecordUploadOutcome.Existing upload, db)
            else Ok (RecordUploadOutcome.NotRecordable, db)
        | UploadState.Reserved =>
            if ur_expires_at row <=? clock then Ok (RecordUploadOutcome.Expired, db)
            else Ok (RecordUploadOutcome.VerificationMismatch, db)
        | _ => Ok (RecordUploadOutcome.NotRecordable, db)
        end
  end.

(** ** Inspection *)

(** The [match state] of [claim_upload_inspection]. *)
Definition inspection_outcome (state : UploadState.UploadState) (attempts : Z)
    (lease_active owner_matches : bool)
    : ClaimUploadInspectionOutcome.ClaimUploadInspectionOutcome :=
  match state with
  | UploadState.Uploaded =>
      if attempts <? MAXIMUM_INSPECTION_ATTEMPTS then ClaimUploadInspectionOutcome.Claimed
      else ClaimUploadInspectionOutcome.NotInspectable
  | UploadState.Inspecting =>
      if lease_active && owner_matches then ClaimUploadInspectionOutcome.Existing
      else if negb lease_active && (attempts <? MAXIMUM_INSPECTION_ATTEMPTS)
      then ClaimUploadInspectionOutcome.Claimed
      else if negb lease_active then ClaimUploadInspectionOutcome.AttemptsExhausted
      else ClaimUploadInspectionOutcome.Busy
  | _ => ClaimUploadInspectionOutcome.NotInspectable
  end.

Definition claim_upload_inspection (now : Z) (tenant_id : TenantId) (product_id : ProductId)
    (upload_id : UploadId) (lease_owner : string)
    : Tx ClaimUploadInspectionOutcome.ClaimUploadInspectionOutcome := λ db,
  let product := ProductId_str product_id in
  let tenant := TenantId_str tenant_id in
  let id := UploadId_str upload_id in
  let? _ := validate_lease_owner lease_owner in
  match select_upload tenant_id product_id upload_id db with
  | None => Ok (ClaimUploadInspectionOutcome.NotFound, db)
  | Some row =>
      let? state := parse_upload_state (ur_status row) in
      let outcome :=
        inspection_outcome state (ur_inspection_attempts row)
          (lease_live now (ur_inspection_lease_expires_at row))
          (owned_by (ur_inspection_lease_owner row) lease_owner) in
      match outcome with
      | ClaimUploadInspectionOutcome.Claimed =>
          Ok (outcome,
              put_upload upload_id
                (set_inspection row "inspecting" (ur_inspection_attempts row + 1)
                   (Some lease_owner) (Some (now + LEASE_SECONDS)) (ur_rejection_reason row)
                   (ur_source row) (ur_parser row)) db)
      | ClaimUploadInspectionOutcome.Existing =>
          Ok (outcome,
              if owned_by (ur_inspection_lease_owner row) lease_owner
              then put_upload upload_id
                     (set_inspection row (ur_status row) (ur_inspection_attempts row)
                        (ur_inspection_lease_owner row) (Some (now + LEASE_SECONDS))
                        (ur_rejection_reason row) (ur_source row) (ur_parser row)) db
              else db)
      | ClaimUploadInspectionOutcome.AttemptsExhausted =>
          let db := put_upload upload_id
                      (set_inspection row "rejected" (ur_inspection_attempts row) None None
                         (Some "inspection_attempts_exhausted") (ur_source row) (ur_parser row))
                      db in
          let db := set_work_scope_pending now product tenant UploadWork false db in
          Ok (outcome,
              insert_upload_outbox product tenant id "ocr.upload.rejected.v1"
                [("upload_id", id); ("status", "rejected");
                 ("reason_code", "inspection_attempts_exhausted")] db)
      | ClaimUploadInspectionOutcome.Busy | ClaimUploadInspectionOutcome.NotInspectable
      | ClaimUploadInspectionOutcome.NotFound => Ok (outcome, db)
      end
  end.

(** The accepted columns of a row against a command. *)
Definition same_source (row : UploadRow) (source : AcceptUpload) : bool :=
  bool_decide (ur_source row = Some (source_bucket source, source_object_name source,
                                     source_object_version source, source_digest source,
                                     source_content_length source))
  && match ur_parser row with
     | None => false
     | Some parser =>
         let inspection := parser_inspection source in
         (pi_page_count parser =? pi_page_count inspection)
         && (pi_maximum_page_pixels parser =? pi_maximum_page_pixels inspection)
         && (pi_total_page_pixels parser =? pi_total_page_pixels inspection)
         && bool_decide (result_ok (decode_geometries (pi_page_geometries parser))
                         = Some (pi_page_geometries inspection))
         && String.eqb (pi_profile parser) (pi_profile inspection)
         && String.eqb (pi_version parser) (pi_version inspection)
     end.

Definition accept_upload (now : Z) (tenant_id : TenantId) (product_id : ProductId)
    (upload_id : UploadId) (source : AcceptUpload) : Tx AcceptUploadOutcome.AcceptUploadOutcome := λ db,
  let product := ProductId_str product_id in
  let tenant := TenantId_str tenant_id in
  let id := UploadId_str upload_id in
  let? _ := validate_accepted_source source in
  match select_upload tenant_id product_id upload_id db with
  | None => Ok (AcceptUploadOutcome.NotFound, db)
  | Some row =>
      if String.eqb (ur_status row) "inspecting"
         && bool_decide (ur_verified_digest row = Some (source_digest source))
         && bool_decide (ur_verified_content_length row = Some (source_content_length source))
         && owned_by (ur_inspection_lease_owner row) (inspection_lease_owner source)
         && lease_live now (ur_inspection_lease_expires_at row)
      then
        let db := put_upload upload_id
                    (set_inspection row "accepted" (ur_inspection_attempts row) None None
                       (ur_rejection_reason row)
                       (Some (source_bucket source, source_object_name source,
                              source_object_version source, source_digest source,
                              source_content_length source))
                       (Some (parser_inspection source))) db in
        let db := insert_upload_outbox product tenant id "ocr.upload.accepted.v1"
                    [("upload_id", id); ("status", "accepted")] db in
        let db := set_work_scope_pending now product tenant UploadWork false db in
        Ok (AcceptUploadOutcome.Accepted, db)
      else
        let? state := parse_upload_state (ur_status row) in
        Ok (if bool_decide (state = UploadState.Accepted) then
              if same_source row source then AcceptUploadOutcome.Existing
              else AcceptUploadOutcome.SourceMismatch
            else AcceptUploadOutcome.NotAcceptable, db)
  end.

Definition reject_upload (now : Z) (tenant_id : TenantId) (product_id : ProductId)
    (upload_id : UploadId) (lease_owner : string) (reason : UploadRejectionReason)
    : Tx RejectUploadOutcome.RejectUploadOutcome := λ db,
  let product := ProductId_str product_id in
  let tenant := TenantId_str tenant_id in
  let id := UploadId_str upload_id in
  let? _ := validate_lease_owner lease_owner in
  match select_upload tenant_id product_id upload_id db with
  | None => Ok (RejectUploadOutcome.NotFound, db)
  | Some row =>
      if String.eqb (ur_status row) "inspecting"
         && owned_by (ur_inspection_lease_owner row) lease_owner
         && lease_live now (ur_inspection_lease_expires_at row)
      then
        let db := put_upload upload_id
                    (set_inspection row "rejected" (ur_inspection_attempts row) None None
                       (Some (UploadRejectionReason_str reason)) (ur_source row)
                       (ur_parser row)) db in
        let db := insert_upload_outbox product tenant id "ocr.upload.rejected.v1"
                    [("upload_id", id); ("status", "rejected");
                     ("reason_code", UploadRejectionReason_str reason)] db in
        let db := set_work_scope_pending now product tenant UploadWork false db in
        Ok (RejectUploadOutcome.Rejected, db)
      else
        let? state := parse_upload_state (ur_status row) in
        if negb (bool_decide (state = UploadState.Rejected))
        then Ok (RejectUploadOutcome.NotRejectable, db)
        else if bool_decide (ur_rejection_reason row = Some (UploadRejectionReason_str reason))
        then Ok (RejectUploadOutcome.Existing, db)
        else Ok (RejectUploadOutcome.ReasonMismatch, db)
  end.
