(* ===== verification/StoreOutbox.v ===== *)
(** * StoreOutbox: event delivery and work-scope leases

    Models [claim_job_outbox], [claim_webhook_outbox] and [publish_job_outbox] of
    [PgJobStore] and the [PgWorkScopeDirectory] of [ocr-store/src/lib.rs].  Rows that a
    concurrent transaction holds are skipped by [for update skip locked]: the argument
    [locked] says which.  A function of the database that answers null where the caller
    reads a [bool] is an error of the database. *)

From S2P Require Import Prelude Text DomainTypes Identifiers Geometry PageWorkflow StoreTypes.
From S2P Require Import StoreChecks StoreDb StoreJobs StoreUploads.

#[local] Open Scope list_scope.
#[local] Open Scope Z_scope.

Definition MAXIMUM_DELIVERY_ATTEMPTS : Z := 20.

Definition JOB_EVENTS : list string := ["ocr.job.accepted.v1"; "ocr.job.cancellation_requested.v1"].
Definition WEBHOOK_EVENTS : list string :=
  ["ocr.job.completed.v1"; "ocr.job.partial.v1"; "ocr.job.review_required.v1"].

Definition is_none {A : Type} (o : option A) : bool :=
  match o with
  | None => true
  | Some _ => false
  end.

(** [expires_at <= now()], false on null. *)
Definition lease_over (now : Z) (expires_at : option Z) : bool :=
  match expires_at with
  | Some t => t <=? now
  | None => false
  end.

Definition set_delivery (row : OutboxRow) (published : option Z) (attempts : Z)
    (owner : option string) (expires dead : option Z) : OutboxRow :=
  {| or_event_id := or_event_id row; or_product_id := or_product_id row;
     or_tenant_id := or_tenant_id row; or_job_id := or_job_id row;
     or_event_type := or_event_type row; or_payload := or_payload row;
     or_created_at := or_created_at row; or_published_at := published;
     or_delivery_attempts := attempts; or_delivery_lease_owner := owner;
     or_delivery_lease_expires_at := expires; or_dead_lettered_at := dead |}.

Definition outbox_in_scope (tenant_id : TenantId) (product_id : ProductId) (row : OutboxRow) : bool :=
  in_scope tenant_id product_id (or_tenant_id row) (or_product_id row).

(** Neither published nor dead-lettered. *)
Definition undelivered (row : OutboxRow) : bool :=
  is_none (or_published_at row) && is_none (or_dead_lettered_at row).

(** The first statement of a claim. *)
Definition dead_letter (now : Z) (tenant_id : TenantId) (product_id : ProductId)
    (row : OutboxRow) : OutboxRow :=
  if outbox_in_scope tenant_id product_id row && undelivered row
     && (or_delivery_attempts row =? MAXIMUM_DELIVERY_ATTEMPTS)
     && lease_over now (or_delivery_lease_expires_at row)
  then set_delivery row (or_published_at row) (or_delivery_attempts row) None None (Some now)
  else row.

(** The [where] clause of [candidates]. *)
Definition claimable_event (now : Z) (tenant_id : TenantId) (product_id : ProductId)
    (types : list string) (owner : string) (locked : Z → bool) (row : OutboxRow) : bool :=
  outbox_in_scope tenant_id product_id row
  && status_in (or_event_type row) types
  && undelivered row
  && (or_delivery_attempts row <? MAXIMUM_DELIVERY_ATTEMPTS)
  && (owned_by (or_delivery_lease_owner row) owner
      || is_none (or_delivery_lease_expires_at row)
      || lease_over now (or_delivery_lease_expires_at row))
  && negb (locked (or_event_id row)).

(** The [set] clause of [updated]. *)
Definition claim_event (now : Z) (owner : string) (row : OutboxRow) : OutboxRow :=
  set_delivery row (or_published_at row)
    (if owned_by (or_delivery_lease_owner row) owner
        && lease_live now (or_delivery_lease_expires_at row)
     then or_delivery_attempts row else or_delivery_attempts row + 1)
    (Some owner) (Some (now + LEASE_SECONDS)) (or_dead_lettered_at row).

(** The first [limit] claimable rows of the table, claimed.  The query returns the claimed
    rows in no promised order; they are listed by [event_id] here, and a caller for which
    the order matters takes it as an argument. *)
Fixpoint claim_rows (claimable : OutboxRow → bool) (claim : OutboxRow → OutboxRow) (limit : nat)
    (rows : list OutboxRow) : list OutboxRow * list OutboxRow :=
  match rows, limit with
  | [], _ => ([], [])
  | _, O => (rows, [])
  | row :: rest, S limit' =>
      if claimable row then
        let '(rest', claimed) := claim_rows claimable claim limit' rest in
        (claim row :: rest', claim row :: claimed)
      else
        let '(rest', claimed) := claim_rows claimable claim limit rest in
        (row :: rest', claimed)
  end.

(** The job of an event, in the event's scope. *)
Definition event_job (row : OutboxRow) (db : Db) : option JobRow :=
  match ocr_jobs db !! or_job_id row with
  | Some job => if String.eqb (jr_product_id job) (or_product_id row)
                   && String.eqb (jr_tenant_id job) (or_tenant_id row)
                then Some job else None
  | None => None
  end.

(** [updated join ocr_jobs join ocr_uploads]: the event with [parser_page_count]. *)
Definition join_upload (db : Db) (row : OutboxRow) : option (OutboxRow * option Z) :=
  match event_job row db with
  | None => None
  | Some job =>
      match ocr_uploads db !! jr_upload_id job with
      | Some upload =>
          if String.eqb (ur_product_id upload) (jr_product_id job)
             && String.eqb (ur_tenant_id upload) (jr_tenant_id job)
          then Some (row, pi_page_count <$> ur_parser upload) else None
      | None => None
      end
  end.

Definition stored_job_outbox_event (joined : OutboxRow * option Z)
    : result StoreError StoredJobOutboxEvent :=
  let '(row, pages) := joined in
  if or_event_id row <=? 0 then Err InvalidOutboxEvent
  else
    let? job := map_err (JobId_new (or_job_id row)) (λ _, InvalidOutboxEvent) in
    let? type :=
      if String.eqb (or_event_type row) "ocr.job.accepted.v1" then Ok JobOutboxEventType.Accepted
      else if String.eqb (or_event_type row) "ocr.job.cancellation_requested.v1"
      then Ok JobOutboxEventType.CancellationRequested
      else Err InvalidOutboxEvent in
    let? pages := ok_or pages Database in
    let? count := ok_or (checked u32_max pages) InvalidOutboxEvent in
    if negb (contains 1 MAXIMUM_PAGE_COUNT count) then Err InvalidOutboxEvent
    else Ok {| event_id := or_event_id row; event_job_id := job; event_type := type;
               page_count := count |}.

(** [select exists(..)]: dispatch events still to deliver. *)
Definition dispatch_events_pending (tenant_id : TenantId) (product_id : ProductId) (db : Db)
    : bool :=
  existsb (λ row, outbox_in_scope tenant_id product_id row
                  && status_in (or_event_type row) JOB_EVENTS && undelivered row
                  && (or_delivery_attempts row <? MAXIMUM_DELIVERY_ATTEMPTS)) (ocr_outbox db).

Definition claim_job_outbox (now : Z) (locked : Z → bool) (tenant_id : TenantId)
    (product_id : ProductId) (claim : ClaimJobOutbox) : Tx (list StoredJobOutboxEvent) := λ db,
  let? _ := validate_lease_owner (claim_lease_owner claim) in
  if negb (contains 1 100 (claim_limit claim)) then Err InvalidOutboxEvent
  else
    let swept := map (dead_letter now tenant_id product_id) (ocr_outbox db) in
    let '(table, claimed) :=
      claim_rows (claimable_event now tenant_id product_id JOB_EVENTS (claim_lease_owner claim)
                    locked)
        (claim_event now (claim_lease_owner claim)) (Z.to_nat (claim_limit claim)) swept in
    let db := with_outbox db table in
    let rows := omap (join_upload db) claimed in
    let db :=
      if zlen rows =? 0
      then set_work_scope_pending now (ProductId_str product_id) (TenantId_str tenant_id)
             DispatchWork (dispatch_events_pending tenant_id product_id db) db
      else db in
    let? events := collect_results stored_job_outbox_event rows in
    Ok (events, db).

(** [updated join ocr_jobs join ocr_results where webhook_subscription_id is not null]. *)
Definition join_result (db : Db) (row : OutboxRow) : option (OutboxRow * string * string) :=
  match event_job row db with
  | None => None
  | Some job =>
      match ocr_results db !! or_job_id row, jr_webhook_subscription_id job with
      | Some res, Some webhook =>
          if String.eqb (rr_product_id res) (jr_product_id job)
             && String.eqb (rr_tenant_id res) (jr_tenant_id job)
          then Some (row, webhook, rr_document_version res) else None
      | _, _ => None
      end
  end.

Definition stored_webhook_outbox_event (joined : OutboxRow * string * string)
    : result StoreError StoredWebhookOutboxEvent :=
  let '(row, webhook, version) := joined in
  if or_event_id row <=? 0 then Err InvalidOutboxEvent
  else
    let? type :=
      if String.eqb (or_event_type row) "ocr.job.completed.v1"
      then Ok WebhookOutboxEventType.Completed
      else if String.eqb (or_event_type row) "ocr.job.partial.v1"
      then Ok WebhookOutboxEventType.Partial
      else if String.eqb (or_event_type row) "ocr.job.review_required.v1"
      then Ok WebhookOutboxEventType.ReviewRequired
      else Err InvalidOutboxEvent in
    let? job := map_err (JobId_new (or_job_id row)) (λ _, InvalidOutboxEvent) in
    let? webhook := map_err (WebhookSubscriptionId_new webhook) (λ _, InvalidOutboxEvent) in
    let? version := map_err (DocumentVersion_new version) (λ _, InvalidOutboxEvent) in
    Ok {| webhook_event_id := or_event_id row; webhook_job_id := job;
          webhook_event_type := type; webhook_subscription_id := webhook;
          webhook_document_version := version; occurred_at := or_created_at row |}.

Definition claim_webhook_outbox (now : Z) (locked : Z → bool) (tenant_id : TenantId)
    (product_id : ProductId) (claim : ClaimJobOutbox) : Tx (list StoredWebhookOutboxEvent) := λ db,
  let? _ := validate_lease_owner (claim_lease_owner claim) in
  if negb (contains 1 100 (claim_limit claim)) then Err InvalidOutboxEvent
  else
    let swept := map (dead_letter now tenant_id product_id) (ocr_outbox db) in
    let '(table, claimed) :=
      claim_rows (claimable_event now tenant_id product_id WEBHOOK_EVENTS
                    (claim_lease_owner claim) locked)
        (claim_event now (claim_lease_owner claim)) (Z.to_nat (claim_limit claim)) swept in
    let db := with_outbox db table in
    let? events := collect_results stored_webhook_outbox_event (omap (join_result db) claimed) in
    Ok (events, db).

(** The [where] clause of the publishing update. *)
Definition publishable (now : Z) (tenant_id : TenantId) (product_id : ProductId) (id : Z)
    (owner : string) (row : OutboxRow) : bool :=
  outbox_in_scope tenant_id product_id row && (or_event_id row =? id) && undelivered row
  && owned_by (or_delivery_lease_owner row) owner
  && lease_live now (or_delivery_lease_expires_at row).

Definition publish_job_outbox (now : Z) (tenant_id : TenantId) (product_id : ProductId) (id : Z)
    (lease_owner : string) : Tx PublishJobOutboxOutcome.PublishJobOutboxOutcome := λ db,
  let? _ := validate_lease_owner lease_owner in
  if id <=? 0 then Err InvalidOutboxEvent
  else if existsb (publishable now tenant_id product_id id lease_owner) (ocr_outbox db) then
    let db := with_outbox db
      (map (λ row, if publishable now tenant_id product_id id lease_owner row
                   then set_delivery row (Some now) (or_delivery_attempts row) None None
                          (or_dead_lettered_at row)
                   else row) (ocr_outbox db)) in
    Ok (PublishJobOutboxOutcome.Published,
        set_work_scope_pending now (ProductId_str product_id) (TenantId_str tenant_id)
          DispatchWork (dispatch_events_pending tenant_id product_id db) db)
  else
    Ok (match List.find (λ row, outbox_in_scope tenant_id product_id row
                                && (or_event_id row =? id)) (ocr_outbox db) with
        | Some row => if is_none (or_published_at row) then PublishJobOutboxOutcome.LeaseLost
                      else PublishJobOutboxOutcome.Existing
        | None => PublishJobOutboxOutcome.NotFound
        end, db).

(** ** [PgWorkScopeDirectory] *)

Definition set_scope_lease (s : ScopeRow) (now : Z) (owner : option string) (expires : option Z)
    : ScopeRow :=
  {| upload_pending := upload_pending s; dispatch_pending := dispatch_pending s;
     scope_lease_owner := owner; scope_lease_expires_at := expires; scope_updated_at := now |}.

Definition claimable_scope (now : Z) (owner : string) (locked : string * string → bool)
    (scope : (string * string) * ScopeRow) : bool :=
  let '(key, s) := scope in
  (owned_by (scope_lease_owner s) owner || is_none (scope_lease_expires_at s)
   || lease_over now (scope_lease_expires_at s))
  && (upload_pending s || dispatch_pending s) && negb (locked key).

(** [order by updated_at, product_id, tenant_id]. *)
Definition scope_before (a b : (string * string) * ScopeRow) : bool :=
  let '((p, t), s) := a in
  let '((p', t'), s') := b in
  (scope_updated_at s <? scope_updated_at s')
  || ((scope_updated_at s =? scope_updated_at s')
      && (if String.eqb p p' then string_le t t' else string_le p p')).

Definition stored_work_scope (key : string * string) : result StoreError StoredWorkScope :=
  let? product := map_err (ProductId_new key.1) (λ _, InvalidWorkScope) in
  let? tenant := map_err (TenantId_new key.2) (λ _, InvalidWorkScope) in
  Ok {| ws_product_id := product; ws_tenant_id := tenant |}.

(** The pattern of [ocr_claim_work_scopes]: a letter or digit first. *)
Definition sql_lease_owner (owner : string) : bool :=
  is_some_and is_ascii_alphanumeric (first_byte owner) && is_valid_lease_owner owner.

(** One autocommitted statement: the leases stay even if a row fails to decode. *)
Definition claim_work_scopes (now : Z) (locked : string * string → bool) (claim : ClaimWorkScopes)
    (db : Db) : result StoreError (list StoredWorkScope) * Db :=
  match validate_lease_owner (scopes_lease_owner claim) with
  | Err e => (Err e, db)
  | Ok _ =>
      if negb (contains 1 100 (scopes_limit claim)) then (Err InvalidWorkScope, db)
      else if negb (sql_lease_owner (scopes_lease_owner claim)) then (Err Database, db)
      else
        let candidates :=
          take (Z.to_nat (scopes_limit claim))
            (sort_by scope_before
               (List.filter (claimable_scope now (scopes_lease_owner claim) locked)
                  (map_to_list (ocr_work_scopes db)))) in
        let scopes :=
          foldr (λ '(key, s) scopes,
                   <[key := set_scope_lease s now (Some (scopes_lease_owner claim))
                              (Some (now + LEASE_SECONDS))]> scopes)
            (ocr_work_scopes db) candidates in
        (collect_results (λ '(key, _), stored_work_scope key) candidates, with_scopes db scopes)
  end.

(** The function [ocr_release_work_scope]: null when its update found no row. *)
Definition ocr_release_work_scope (now : Z) (product_id tenant_id lease_owner : string) (db : Db)
    : option bool * Db :=
  let key := (product_id, tenant_id) in
  match ocr_work_scopes db !! key with
  | Some s =>
      if owned_by (scope_lease_owner s) lease_owner && lease_live now (scope_lease_expires_at s)
      then (Some true, with_scopes db (<[key := set_scope_lease s now None None]>
                                         (ocr_work_scopes db)))
      else (None, db)
  | None => (None, db)
  end.

(** The query has one row whatever the function answers, and a null is no [bool]: a lost
    lease is an error of the database. *)
Definition release_work_scope (now : Z) (scope : StoredWorkScope) (lease_owner : string)
    : Tx bool := λ db,
  let? _ := validate_lease_owner lease_owner in
  let (released, db) :=
    ocr_release_work_scope now (ProductId_str (ws_product_id scope))
      (TenantId_str (ws_tenant_id scope)) lease_owner db in
  let? released := ok_or released Database in
  Ok (released, db).
