(* ===== verification/StoreRun.v ===== *)
(** * StoreRun: the store as a transition system

    Every mutating method of the store as an operation with its arguments, what it does
    to the tables, and the databases that sequences of operations reach from the empty
    one.  Identifiers and workflows in the arguments are valid, as their private
    constructors ensure.  [job_effect] summarises what one operation may do to the job
    tables; the files of theorems do the same for the other tables, and prove the
    invariants on these summaries. *)

From S2P Require Import Prelude Text DomainTypes Identifiers Geometry PageWorkflow StoreTypes.
From S2P Require Import StoreChecks StoreDb StoreJobs StorePages StoreUploads StoreOutbox.

#[local] Open Scope list_scope.
#[local] Open Scope Z_scope.

Inductive StoreOp :=
| OpCreate (now : Z) (request : CreateJob)
| OpCancel (now : Z) (tenant : TenantId) (product : ProductId) (job : JobId)
| OpCompleteCancellation (tenant : TenantId) (product : ProductId) (job : JobId)
| OpCommitResult (now : Z) (tenant : TenantId) (product : ProductId) (job : JobId)
    (command : CommitResult)
| OpCreatePageWorkflow (tenant : TenantId) (product : ProductId) (job : JobId)
    (workflow : PageWorkflow)
| OpSavePageWorkflow (tenant : TenantId) (product : ProductId) (job : JobId)
    (expected_revision : Z) (workflow : PageWorkflow) (artifacts : list StoredPageArtifact)
| OpCreateUpload (now : Z) (request : CreateUpload)
| OpRecordUploaded (now clock : Z) (tenant : TenantId) (product : ProductId) (upload : UploadId)
    (record : RecordUpload)
| OpClaimUploadInspection (now : Z) (tenant : TenantId) (product : ProductId)
    (upload : UploadId) (lease_owner : string)
| OpAcceptUpload (now : Z) (tenant : TenantId) (product : ProductId) (upload : UploadId)
    (source : AcceptUpload)
| OpRejectUpload (now : Z) (tenant : TenantId) (product : ProductId) (upload : UploadId)
    (lease_owner : string) (reason : UploadRejectionReason)
| OpClaimJobOutbox (now : Z) (locked : Z → bool) (tenant : TenantId) (product : ProductId)
    (claim : ClaimJobOutbox)
| OpClaimWebhookOutbox (now : Z) (locked : Z → bool) (tenant : TenantId) (product : ProductId)
    (claim : ClaimJobOutbox)
| OpPublishJobOutbox (now : Z) (tenant : TenantId) (product : ProductId) (event_id : Z)
    (lease_owner : string)
| OpClaimWorkScopes (now : Z) (locked : string * string → bool) (claim : ClaimWorkScopes)
| OpReleaseWorkScope (now : Z) (scope : StoredWorkScope) (lease_owner : string).

Section Run.
Context (serde_size jsonb_size : RawPageWorkflow → Z).

Definition apply_op (op : StoreOp) (db : Db) : Db :=
  match op with
  | OpCreate now request => db_after (create now request) db
  | OpCancel now t p j => db_after (cancel now t p j) db
  | OpCompleteCancellation t p j => db_after (complete_cancellation t p j) db
  | OpCommitResult now t p j command => db_after (commit_result now t p j command) db
  | OpCreatePageWorkflow t p j w =>
      db_after (create_page_workflow serde_size jsonb_size t p j w) db
  | OpSavePageWorkflow t p j rev w artifacts =>
      db_after (save_page_workflow_with_artifacts serde_size jsonb_size t p j rev w artifacts) db
  | OpCreateUpload now request => db_after (create_upload now request) db
  | OpRecordUploaded now clock t p u record => db_after (record_uploaded now clock t p u record) db
  | OpClaimUploadInspection now t p u owner =>
      db_after (claim_upload_inspection now t p u owner) db
  | OpAcceptUpload now t p u source => db_after (accept_upload now t p u source) db
  | OpRejectUpload now t p u owner reason => db_after (reject_upload now t p u owner reason) db
  | OpClaimJobOutbox now locked t p claim => db_after (claim_job_outbox now locked t p claim) db
  | OpClaimWebhookOutbox now locked t p claim =>
      db_after (claim_webhook_outbox now locked t p claim) db
  | OpPublishJobOutbox now t p id owner => db_after (publish_job_outbox now t p id owner) db
  | OpClaimWorkScopes now locked claim => (claim_work_scopes now locked claim db).2
  | OpReleaseWorkScope now scope owner => db_after (release_work_scope now scope owner) db
  end.

Definition run_ops (ops : list StoreOp) (db : Db) : Db := fold_left (λ db op, apply_op op db) ops db.
End Run.

(** A geometry built by its checked constructor. *)
Definition geometry_valid (g : PageGeometry) : Prop :=
  geometry_ok g ∧ PageNumber_value (geometry_page g) ≠ 0.

Definition op_valid (op : StoreOp) : Prop :=
  match op with
  | OpCreate _ r =>
      id_valid (cj_job_id r) ∧ id_valid (cj_tenant_id r) ∧ id_valid (cj_product_id r)
      ∧ id_valid (cj_upload_id r)
  | OpCommitResult _ _ _ _ c =>
      id_valid (loc_document_id (locator c)) ∧ id_valid (loc_document_version (locator c))
  | OpCreateUpload _ r =>
      id_valid (cu_upload_id r) ∧ id_valid (cu_tenant_id r) ∧ id_valid (cu_product_id r)
  | OpAcceptUpload _ _ _ _ s => Forall geometry_valid (pi_page_geometries (parser_inspection s))
  | OpCreatePageWorkflow _ _ _ w | OpSavePageWorkflow _ _ _ _ w _ => workflow_ok w
  | _ => True
  end.

Lemma run_ops_ind serde_size jsonb_size (P : Db → Prop) ops db :
  (∀ op db, op_valid op → P db → P (apply_op serde_size jsonb_size op db)) →
  Forall op_valid ops → P db → P (run_ops serde_size jsonb_size ops db).
Proof.
  intros Hstep Hops. revert db. induction Hops as [|op ops Hop Hops IH]; intros db Hdb; simpl;
    [done|]. unfold run_ops in *. simpl. apply IH. by apply Hstep.
Qed.

Lemma run_ops_app serde_size jsonb_size ops ops' db :
  run_ops serde_size jsonb_size (ops ++ ops') db =
  run_ops serde_size jsonb_size ops' (run_ops serde_size jsonb_size ops db).
Proof. apply fold_left_app. Qed.

(** ** Status texts *)

Lemma parse_job_state_text s : parse_job_state (job_state_text s) = Ok s.
Proof. by destruct s. Qed.

Lemma parse_job_state_Ok value s : parse_job_state value = Ok s ↔ value = job_state_text s.
Proof.
  split; [|intros ->; apply parse_job_state_text].
  unfold parse_job_state.
  repeat match goal with |- (if String.eqb ?v ?t then _ else _) = _ → _ =>
    destruct (String.eqb_spec v t); [intros [= <-]; done|] end. done.
Qed.

Lemma parse_upload_state_text s : parse_upload_state (upload_state_text s) = Ok s.
Proof. by destruct s. Qed.

Lemma parse_upload_state_Ok value s : parse_upload_state value = Ok s ↔ value = upload_state_text s.
Proof.
  split; [|intros ->; apply parse_upload_state_text].
  unfold parse_upload_state.
  repeat match goal with |- (if String.eqb ?v ?t then _ else _) = _ → _ =>
    destruct (String.eqb_spec v t); [intros [= <-]; done|] end. done.
Qed.

Lemma status_in_spec status set : status_in status set = true ↔ status ∈ set.
Proof.
  unfold status_in. rewrite existsb_exists. split.
  - intros (x & Hin & Hx%String.eqb_eq). subst. by apply list_elem_of_In.
  - intros Hin. exists status. rewrite String.eqb_refl. by rewrite <- list_elem_of_In.
Qed.

Lemma in_scope_spec t p tenant product :
  in_scope t p tenant product = true ↔ tenant = TenantId_str t ∧ product = ProductId_str p.
Proof. unfold in_scope. by rewrite andb_true_iff, !String.eqb_eq. Qed.

Lemma select_job_Some t p j db row :
  select_job t p j db = Some row ↔
  ocr_jobs db !! JobId_str j = Some row
  ∧ jr_tenant_id row = TenantId_str t ∧ jr_product_id row = ProductId_str p.
Proof.
  unfold select_job. destruct (ocr_jobs db !! JobId_str j) as [r|]; [|naive_solver].
  destruct (in_scope _ _ _ _) eqn:Hs.
  - apply in_scope_spec in Hs. naive_solver.
  - split; [done|]. intros ([= ->] & Ht & Hp).
    rewrite (proj2 (in_scope_spec _ _ _ _) (conj Ht Hp)) in Hs. done.
Qed.

Lemma select_upload_Some t p u db row :
  select_upload t p u db = Some row ↔
  ocr_uploads db !! UploadId_str u = Some row
  ∧ ur_tenant_id row = TenantId_str t ∧ ur_product_id row = ProductId_str p.
Proof.
  unfold select_upload. destruct (ocr_uploads db !! UploadId_str u) as [r|]; [|naive_solver].
  destruct (in_scope _ _ _ _) eqn:Hs.
  - apply in_scope_spec in Hs. naive_solver.
  - split; [done|]. intros ([= ->] & Ht & Hp).
    rewrite (proj2 (in_scope_spec _ _ _ _) (conj Ht Hp)) in Hs. done.
Qed.

Lemma update_job_status_Some t p j from s db row db' :
  update_job_status t p j from s db = Some (row, db') ↔
  ∃ old, select_job t p j db = Some old ∧ jr_status old ∈ from
    ∧ row = set_job_status old s
    ∧ db' = with_jobs db (<[JobId_str j := row]> (ocr_jobs db)).
Proof.
  unfold update_job_status. destruct (select_job t p j db) as [old|]; [|naive_solver].
  destruct (status_in _ _) eqn:Hs.
  - apply status_in_spec in Hs. naive_solver.
  - assert (¬ jr_status old ∈ from) by (rewrite <- status_in_spec; congruence). naive_solver.
Qed.

Lemma stored_job_Ok id row job :
  stored_job id row = Ok job ↔
  ∃ j, JobId_new id = Ok j ∧ jr_status row = job_state_text (sj_state job)
    ∧ job = mkStoredJob j (sj_state job) (jr_created_at row).
Proof.
  unfold stored_job. destruct (JobId_new id) as [j|]; simpl; [|naive_solver].
  destruct (parse_job_state (jr_status row)) as [s|] eqn:Hp; simpl.
  - apply parse_job_state_Ok in Hp. split.
    + intros [= <-]. simpl. eauto.
    + intros (j' & [= <-] & Hs & ->). simpl in Hs. rewrite Hp in Hs.
      assert (Ok s = Ok (sj_state job) :> result StoreError _) as [= <-]; [|done].
      by rewrite <- !parse_job_state_text, Hs.
  - split; [done|]. intros (j' & _ & Hs & _). rewrite (proj2 (parse_job_state_Ok _ _) Hs) in Hp.
    done.
Qed.

(** ** What an operation does to the job tables *)

(** The status columns that the store moves a job between. *)
Definition job_move (from to : string) : Prop :=
  (to = "processing" ∧ from ∈ ["accepted"; "processing"])
  ∨ (to = "cancelled" ∧ from ∈ ["accepted"; "inspecting"; "processing"; "validating"; "cancelling"]).

(** An upload that a job may be created from. *)
Definition accepted_source_of (db : Db) (row : JobRow) : Prop :=
  ∃ upload, ocr_uploads db !! jr_upload_id row = Some upload
    ∧ ur_status upload = "accepted"
    ∧ ur_tenant_id upload = jr_tenant_id row ∧ ur_product_id upload = jr_product_id row.

Inductive job_effect (db db' : Db) : Prop :=
| jobs_unchanged :
    ocr_jobs db' = ocr_jobs db → ocr_results db' = ocr_results db → job_effect db db'
| job_inserted id row :
    ocr_jobs db !! id = None → is_ok (JobId_new id) = true → jr_status row = "accepted" →
    accepted_source_of db row →
    job_by_key (jr_product_id row) (jr_tenant_id row) (jr_idempotency_key row) db = None →
    (is_Some (jr_extraction_schema_id row) ↔ is_Some (jr_extraction_schema_version row)) →
    ocr_jobs db' = <[id := row]> (ocr_jobs db) → ocr_results db' = ocr_results db →
    job_effect db db'
| job_moved id row s :
    ocr_jobs db !! id = Some row → job_move (jr_status row) s →
    ocr_jobs db' = <[id := set_job_status row s]> (ocr_jobs db) →
    ocr_results db' = ocr_results db → job_effect db db'
| job_committed id row state res :
    ocr_jobs db !! id = Some row → jr_status row ∈ ["processing"; "validating"] →
    is_result_state state = true → ocr_results db !! id = None →
    rr_tenant_id res = jr_tenant_id row → rr_product_id res = jr_product_id row →
    is_ok (stored_result_locator res) = true →
    ocr_jobs db' = <[id := set_job_status row (job_state_text state)]> (ocr_jobs db) →
    ocr_results db' = <[id := res]> (ocr_results db) → job_effect db db'.

(** A database that valid operations reach from the empty one. *)
Definition reachable (serde_size jsonb_size : RawPageWorkflow → Z) (db : Db) : Prop :=
  ∃ ops, Forall op_valid ops ∧ db = run_ops serde_size jsonb_size ops empty_db.

Lemma reachable_run ss js db ops :
  reachable ss js db → Forall op_valid ops → reachable ss js (run_ops ss js ops db).
Proof.
  intros (ops0 & H0 & ->) Hops. exists (ops0 ++ ops). rewrite run_ops_app.
  split; [by apply Forall_app|done].
Qed.

Lemma reachable_step ss js db op :
  reachable ss js db → op_valid op → reachable ss js (apply_op ss js op db).
Proof.
  intros Hreach Hop. change (apply_op ss js op db) with (run_ops ss js [op] db).
  apply reachable_run; [done|by constructor].
Qed.

(** What a piece of code does to the database is what some operations do. *)
Section Effects.
Context {serde_size jsonb_size : RawPageWorkflow → Z}.

Definition effect_of_ops (db db' : Db) : Prop :=
  ∃ ops, Forall op_valid ops ∧ db' = run_ops serde_size jsonb_size ops db.

Lemma effect_none db : effect_of_ops db db.
Proof. by exists []. Qed.

Lemma effect_op op db : op_valid op → effect_of_ops db (apply_op serde_size jsonb_size op db).
Proof. intros Hop. exists [op]. split; [by constructor|done]. Qed.

Lemma effect_trans db1 db2 db3 :
  effect_of_ops db1 db2 → effect_of_ops db2 db3 → effect_of_ops db1 db3.
Proof.
  intros (ops & Hops & ->) (ops' & Hops' & ->). exists (ops ++ ops').
  split; [by apply Forall_app|by rewrite run_ops_app].
Qed.

Lemma effect_reachable db db' :
  reachable serde_size jsonb_size db → effect_of_ops db db' → reachable serde_size jsonb_size db'.
Proof. intros Hreach (ops & Hops & ->). by apply reachable_run. Qed.
End Effects.
Arguments effect_of_ops : clear implicits.

Lemma db_after_Ok {A} (tx : Tx A) db a db' : tx db = Ok (a, db') → db_after tx db = db'.
Proof. unfold db_after. by intros ->. Qed.

(** ** A sample history, for the witnesses *)

Definition sample_size (_ : RawPageWorkflow) : Z := 100.
Definition sample_digest : string :=
  "sha256:0123456789abcdef0123456789abcdef0123456789abcdef0123456789abcdef".
Definition sample_tenant := mkTenantId "ten_a".
Definition sample_product := mkProductId "prod".
Definition sample_upload (n : string) := mkUploadId ("upl_" +:+ n).
Definition sample_job := mkJobId "job_1".

Definition sample_create_upload (n : string) : CreateUpload :=
  {| cu_upload_id := sample_upload n; cu_tenant_id := sample_tenant;
     cu_product_id := sample_product; cu_idempotency_key := mkIdempotencyKey ("key-" +:+ n);
     cu_request_digest := mkRequestDigest sample_digest; cu_object_bucket := "quarantine";
     cu_object_name := "object-" +:+ n; cu_expected_content_type := "application/pdf";
     cu_expected_content_length := 10; cu_expected_digest := sample_digest;
     cu_expires_at := 1000 |}.

Definition sample_record : RecordUpload :=
  {| ru_object_version := "1"; ru_verified_content_type := "application/pdf";
     ru_verified_content_length := 10; ru_verified_digest := sample_digest |}.

Definition sample_geometry : PageGeometry := mkPageGeometry (mkPageNumber 1) 100 200.

Definition sample_accept : AcceptUpload :=
  {| inspection_lease_owner := "worker-1"; source_bucket := "sources";
     source_object_name := "source"; source_object_version := "1";
     source_digest := sample_digest; source_content_length := 10;
     parser_inspection :=
       {| pi_page_count := 1; pi_maximum_page_pixels := 20000; pi_total_page_pixels := 20000;
          pi_page_geometries := [sample_geometry]; pi_profile := "parser"; pi_version := "1" |} |}.

Definition sample_create_job : CreateJob :=
  {| cj_job_id := sample_job; cj_tenant_id := sample_tenant; cj_product_id := sample_product;
     cj_idempotency_key := mkIdempotencyKey "job-key";
     cj_request_digest := mkRequestDigest sample_digest; cj_upload_id := sample_upload "1";
     cj_webhook_subscription_id := Some (mkWebhookSubscriptionId "whs_1");
     cj_extraction := None |}.

Definition sample_page_workflow : PageWorkflow :=
  {| workflow_job_id := sample_job; max_attempts := 3; pages := [PageProgress.Pending 0];
     cancelled := false |}.

Definition sample_locator : StoredResultLocator :=
  {| loc_document_id := mkDocumentId "doc_1";
     loc_document_version := mkDocumentVersion sample_digest; loc_object_bucket := "results";
     loc_object_name := "result"; loc_object_version := "1"; loc_object_digest := sample_digest;
     loc_content_length := 5 |}.

Definition sample_upload_ops : list StoreOp :=
  [OpCreateUpload 1 (sample_create_upload "1");
   OpRecordUploaded 2 2 sample_tenant sample_product (sample_upload "1") sample_record;
   OpClaimUploadInspection 3 sample_tenant sample_product (sample_upload "1") "worker-1"].
Definition sample_job_ops : list StoreOp :=
  sample_upload_ops ++
  [OpAcceptUpload 4 sample_tenant sample_product (sample_upload "1") sample_accept;
   OpCreate 5 sample_create_job].
Definition sample_processing_ops : list StoreOp :=
  sample_job_ops ++
  [OpCreatePageWorkflow sample_tenant sample_product sample_job sample_page_workflow].

Definition sample_db (ops : list StoreOp) : Db := run_ops sample_size sample_size ops empty_db.

Lemma sample_geometry_valid : geometry_valid sample_geometry.
Proof.
  split; [|done]. unfold geometry_ok, in_width, u32_max. simpl.
  split_and!; try lia. exists (mkPageNumber 1), 100, 200. by split_and!; try lia.
Qed.

Lemma sample_processing_valid : Forall op_valid sample_processing_ops.
Proof.
  assert (workflow_ok sample_page_workflow).
  { split; [vm_compute; split; congruence..|]. repeat constructor; simpl; lia. }
  pose proof sample_geometry_valid.
  unfold sample_processing_ops, sample_job_ops, sample_upload_ops. simpl.
  rewrite !Forall_cons. simpl. rewrite Forall_singleton. by split_and!.
Qed.

Lemma sample_valid_prefix ops rest :
  sample_processing_ops = ops ++ rest → Forall op_valid ops.
Proof. intros Heq. pose proof sample_processing_valid as H. rewrite Heq in H. by apply Forall_app in H as [? _]. Qed.
