(* ===== verification/StoreJobsFacts.v ===== *)
(** * StoreJobsFacts: jobs and results over the life of the database

    The effect of every operation on the job tables, the invariant of reachable
    databases, and the theorems on job states, cancellation, results and idempotent
    creation. *)

From S2P Require Import Prelude Text DomainTypes Identifiers JobLifecycle Geometry PageWorkflow.
From S2P Require Import StoreTypes StoreChecks StoreDb StoreJobs StorePages StoreUploads.
From S2P Require Import StoreOutbox StoreRun.

#[local] Open Scope list_scope.
#[local] Open Scope Z_scope.

Lemma is_ok_true {E A : Type} (m : result E A) : is_ok m = true ↔ ∃ a, m = Ok a.
Proof. destruct m; simpl; naive_solver. Qed.

Lemma id_valid_ok {T} `{DomainId T} (t : T) : id_valid t → is_ok (id_new (id_str t)) = true.
Proof. unfold id_valid. by intros ->. Qed.

(** ** Effects *)

Lemma set_job_status_id row : set_job_status row (jr_status row) = row.
Proof. by destruct row. Qed.

Lemma insert_job_spec now r db row db' :
  insert_job now r db = Ok (Some (row, db')) →
  ocr_jobs db !! JobId_str (cj_job_id r) = None
  ∧ jr_status row = "accepted" ∧ accepted_source_of db row
  ∧ jr_product_id row = ProductId_str (cj_product_id r)
  ∧ jr_tenant_id row = TenantId_str (cj_tenant_id r)
  ∧ jr_idempotency_key row = IdempotencyKey_str (cj_idempotency_key r)
  ∧ jr_request_digest row = RequestDigest_str (cj_request_digest r)
  ∧ jr_webhook_subscription_id row = (WebhookSubscriptionId_str <$> cj_webhook_subscription_id r)
  ∧ jr_created_at row = now
  ∧ job_by_key (jr_product_id row) (jr_tenant_id row) (jr_idempotency_key row) db = None
  ∧ (is_Some (jr_extraction_schema_id row) ↔ is_Some (jr_extraction_schema_version row))
  ∧ db' = with_jobs db (<[JobId_str (cj_job_id r) := row]> (ocr_jobs db)).
Proof.
  unfold insert_job. destruct (select_upload _ _ _ _) as [upload|] eqn:Hu; [|done].
  apply select_upload_Some in Hu as (Hu & Ht & Hp).
  destruct (String.eqb_spec (ur_status upload) "accepted") as [Ha|]; simpl; [|done].
  destruct (job_by_key _ _ _ _) eqn:Hk; [done|].
  destruct (ocr_jobs db !! _) eqn:Hj; [done|]. intros [= <- <-]. simpl.
  split_and!; try done.
  - exists upload. simpl. split_and!; done.
  - by rewrite !fmap_is_Some.
Qed.

Lemma create_effect now r db :
  id_valid (cj_job_id r) → job_effect db (db_after (create now r) db).
Proof.
  intros Hid. unfold db_after, create.
  destruct (insert_job now r db) as [[[row db']|]|e] eqn:Hi; simpl; [| |by apply jobs_unchanged].
  - apply insert_job_spec in Hi as (Hj & Hs & Hsrc & Hp & Ht & Hk & _ & _ & _ & Hkey & Hx & ->).
    destruct (stored_job _ _) as [job|]; simpl; [|by apply jobs_unchanged].
    eapply (job_inserted _ _ (JobId_str (cj_job_id r)) row); try done.
    exact (id_valid_ok (cj_job_id r) Hid).
  - destruct (job_by_key _ _ _ _) as [[id row]|]; [|by apply jobs_unchanged].
    destruct (_ || _); [by apply jobs_unchanged|]. destruct (stored_job _ _); by apply jobs_unchanged.
Qed.

Lemma cancel_effect now t p j db : job_effect db (db_after (cancel now t p j) db).
Proof.
  unfold db_after, cancel. destruct (update_job_status _ _ _ _ _ _) as [[row db']|] eqn:Hu.
  - apply update_job_status_Some in Hu as (old & (Hj & _ & _)%select_job_Some & Hs & -> & ->).
    destruct (stored_job _ _); simpl; [|by apply jobs_unchanged].
    eapply (job_moved _ _ (JobId_str j) old "cancelled"); try done.
    right. split; [done|]. set_solver.
  - destruct (select_job _ _ _ _) as [row|]; [|by apply jobs_unchanged].
    destruct (stored_job _ _) as [job|]; simpl; [|by apply jobs_unchanged]. destruct (sj_state job); by apply jobs_unchanged.
Qed.

Lemma complete_cancellation_effect t p j db :
  job_effect db (db_after (complete_cancellation t p j) db).
Proof.
  unfold db_after, complete_cancellation.
  destruct (select_job _ _ _ _) as [row|]; [|by apply jobs_unchanged].
  destruct (stored_job _ _) as [job|]; simpl; [|by apply jobs_unchanged].
  destruct (sj_state job); try by apply jobs_unchanged.
  destruct (update_job_status _ _ _ _ _ _) as [[row' db']|] eqn:Hu; simpl; [|by apply jobs_unchanged].
  apply update_job_status_Some in Hu as (old & (Hj & _ & _)%select_job_Some & Hs & -> & ->).
  destruct (stored_job _ _); simpl; [|by apply jobs_unchanged].
  eapply (job_moved _ _ (JobId_str j) old "cancelled"); try done.
  right. split; [done|]. set_solver.
Qed.

Lemma create_page_workflow_effect ss js t p j w db :
  job_effect db (db_after (create_page_workflow ss js t p j w) db).
Proof.
  unfold db_after, create_page_workflow. destruct (negb _); [by apply jobs_unchanged|].
  destruct (serialize_page_workflow _ _) as [c|]; simpl; [|by apply jobs_unchanged].
  destruct (insert_workflow _ _ _ _ _ _) as [[row db']|] eqn:Hi.
  - unfold insert_workflow in Hi. destruct (select_job t p j db) as [job|] eqn:Hj; [|done].
    destruct (_ || _); [|done]. destruct (ocr_page_workflows db !! _); [done|].
    injection Hi as <- <-. destruct (stored_page_workflow _ _) as [stored|]; simpl; [|by apply jobs_unchanged].
    destruct (bool_decide _); [by apply jobs_unchanged|].
    destruct (update_job_status _ _ _ _ _ _) as [[row' db']|] eqn:Hu; simpl; [|by apply jobs_unchanged].
    apply update_job_status_Some in Hu as (old & (Ho & _ & _)%select_job_Some & Hs & -> & ->).
    eapply (job_moved _ _ (JobId_str j) old "processing"); try done. by left.
  - destruct (load_page_workflow_row _ _ _ _ _); simpl; by apply jobs_unchanged.
Qed.

Lemma insert_artifacts_frame ss js t p j rev w artifacts db :
  ocr_jobs (db_after (save_page_workflow_with_artifacts ss js t p j rev w artifacts) db)
    = ocr_jobs db
  ∧ ocr_results (db_after (save_page_workflow_with_artifacts ss js t p j rev w artifacts) db)
    = ocr_results db
  ∧ ocr_uploads (db_after (save_page_workflow_with_artifacts ss js t p j rev w artifacts) db)
    = ocr_uploads db
  ∧ ocr_outbox (db_after (save_page_workflow_with_artifacts ss js t p j rev w artifacts) db)
    = ocr_outbox db.
Proof.
  unfold db_after, save_page_workflow_with_artifacts, update_workflow, and_then, ok_or.
  by repeat (simpl; case_match); simplify_eq.
Qed.

Lemma terminal_text_spec s : is_result_state s = true → terminal_text s = Ok (job_state_text s).
Proof. by destruct s. Qed.

Lemma insert_result_spec t p j loc db db' :
  insert_result t p j loc db = Ok db' →
  ocr_results db !! JobId_str j = None
  ∧ ∃ res, db' = with_results db (<[JobId_str j := res]> (ocr_results db))
    ∧ rr_tenant_id res = TenantId_str t ∧ rr_product_id res = ProductId_str p
    ∧ (id_valid (loc_document_id loc) → id_valid (loc_document_version loc) →
       validate_locator loc = Ok () → stored_result_locator res = Ok loc).
Proof.
  unfold insert_result. destruct (ocr_results db !! JobId_str j) eqn:Hr; [done|].
  destruct (existsb _ _); [done|]. intros [= <-]. split; [done|]. eexists.
  split_and!; [done|done|done|].
  intros Hd Hv Hl. unfold stored_result_locator. simpl.
  unfold id_valid in Hd, Hv. simpl in Hd, Hv. rewrite Hd, Hv. simpl.
  destruct loc; simpl in *. by rewrite Hl.
Qed.

(** What a commit did, when it did something. *)
Lemma commit_result_spec now t p j c db job db' :
  commit_result now t p j c db = Ok (CommitResultOutcome.Committed job, db') →
  ∃ row res, select_job t p j db = Some row ∧ jr_status row ∈ ["processing"; "validating"]
    ∧ is_result_state (terminal_state c) = true ∧ validate_locator (locator c) = Ok ()
    ∧ ocr_results db !! JobId_str j = None
    ∧ rr_tenant_id res = TenantId_str t ∧ rr_product_id res = ProductId_str p
    ∧ (id_valid (loc_document_id (locator c)) → id_valid (loc_document_version (locator c)) →
       stored_result_locator res = Ok (locator c))
    ∧ ocr_jobs db' = <[JobId_str j := set_job_status row (job_state_text (terminal_state c))]>
                       (ocr_jobs db)
    ∧ ocr_results db' = <[JobId_str j := res]> (ocr_results db)
    ∧ stored_job (JobId_str j) (set_job_status row (job_state_text (terminal_state c))) = Ok job.
Proof.
  unfold commit_result. destruct (validate_locator _) as [[]|] eqn:Hl; simpl; [|done].
  destruct (is_result_state _) eqn:Hst; simpl; [|done].
  destruct (select_job t p j db) as [row|] eqn:Hj; [|done].
  destruct (stored_job _ row) as [found|] eqn:Hs; simpl; [|done].
  destruct (select_result t p j db).
  { destruct (stored_result_locator _); simpl; [|done]. by destruct (_ && _). }
  destruct (negb _) eqn:Hcommit; [done|].
  set (db1 := if bool_decide (sj_state found = Processing) then _ else db).
  assert (Hrow : jr_status row ∈ ["processing"; "validating"]).
  { apply stored_job_Ok in Hs as (? & _ & -> & _).
    apply negb_false_iff, orb_true_iff in Hcommit. rewrite !bool_decide_eq_true in Hcommit.
    destruct Hcommit as [-> | ->]; simpl; set_solver. }
  pose proof Hj as Hj'. apply select_job_Some in Hj' as (Hlook & Ht & Hp).
  assert (Hdb1 : ocr_results db1 = ocr_results db
    ∧ ∃ row1, ocr_jobs db1 !! JobId_str j = Some row1 ∧ row1 = set_job_status row "validating"
      ∧ ∀ x, <[JobId_str j := x]> (ocr_jobs db1) = <[JobId_str j := x]> (ocr_jobs db)).
  { subst db1. destruct (bool_decide _) eqn:Hb.
    - destruct (update_job_status _ _ _ _ _ _) as [[row1 db2]|] eqn:Hu.
      + apply update_job_status_Some in Hu as (old & Ho & _ & -> & ->). simplify_eq. simpl.
        split; [done|]. eexists. split; [by rewrite lookup_insert_eq|]. split; [done|].
        intros x. by rewrite insert_insert_eq.
      + exfalso. unfold update_job_status in Hu. rewrite Hj in Hu.
        unfold status_in in Hu. simpl in Hu. by rewrite String.eqb_refl in Hu.
    - split; [done|]. exists row. split_and!; [done| |done].
      apply stored_job_Ok in Hs as (? & _ & Hs & _). apply bool_decide_eq_false in Hb.
      assert (jr_status row = "validating") as Hv.
      { apply negb_false_iff, orb_true_iff in Hcommit. rewrite !bool_decide_eq_true in Hcommit.
        destruct Hcommit as [|Hv]; [done|]. by rewrite Hs, Hv. }
      by rewrite <- Hv, set_job_status_id. }
  clearbody db1. destruct Hdb1 as (Hres & row1 & Hl1 & -> & Hins).
  destruct (insert_result t p j (locator c) db1) as [db2|] eqn:Hi; simpl; [|done].
  apply insert_result_spec in Hi as (Hnone & res & -> & Hrt & Hrp & Hdec).
  rewrite (terminal_text_spec _ Hst). simpl.
  destruct (update_job_status _ _ _ _ _ _) as [[row3 db3]|] eqn:Hu; simpl; [|done].
  apply update_job_status_Some in Hu as (old & (Hold & _ & _)%select_job_Some & _ & -> & ->).
  simpl in Hold. rewrite Hl1 in Hold. simplify_eq.
  destruct (stored_job (JobId_str j) (set_job_status (set_job_status row "validating") _))
    as [done_job|] eqn:Hdone; simpl; [|done].
  intros Hout. exists row, res. rewrite Hres in *.
  assert (job = done_job
    ∧ ocr_jobs db' = <[JobId_str j := set_job_status (set_job_status row "validating")
                         (job_state_text (terminal_state c))]> (ocr_jobs db1)
    ∧ ocr_results db' = <[JobId_str j := res]> (ocr_results db)) as (-> & -> & ->).
  { destruct (jr_webhook_subscription_id row); [|by injection Hout as <- <-].
    destruct (terminal_event _); simpl in Hout; [|done]. by injection Hout as <- <-. }
  split_and!; try done. intros Hd Hv. by apply Hdec.
Qed.

(** Every other outcome leaves the tables alone. *)
Lemma commit_result_unchanged now t p j c db out db' :
  commit_result now t p j c db = Ok (out, db') →
  (∀ job, out ≠ CommitResultOutcome.Committed job) → db' = db.
Proof.
  unfold commit_result, and_then, ok_or. intros Hc Hout.
  repeat (simpl in Hc; case_match; simplify_eq/=); first [done | by edestruct Hout].
Qed.

Lemma commit_result_effect now t p j c db :
  id_valid (loc_document_id (locator c)) → id_valid (loc_document_version (locator c)) →
  job_effect db (db_after (commit_result now t p j c) db).
Proof.
  intros Hd Hv. unfold db_after.
  destruct (commit_result now t p j c db) as [[out db']|] eqn:Hc; [|by apply jobs_unchanged].
  assert (Hcase : (∃ job, out = CommitResultOutcome.Committed job) ∨ db' = db).
  { destruct out as [job| | | |]; [by left; exists job|right..];
      by eapply commit_result_unchanged. }
  destruct Hcase as [[job ->]| ->]; [|by apply jobs_unchanged].
  apply commit_result_spec in Hc
    as (row & res & (Hj & Ht & Hp)%select_job_Some & Hs & Hst & _ & Hnone & Hrt & Hrp & Hdec
        & Hjobs & Hres & _).
  eapply (job_committed _ _ (JobId_str j) row); try done; [congruence..|].
  by rewrite Hdec.
Qed.

(** The operations on uploads, events and scopes leave the job tables alone. *)
Definition same_jobs (db db' : Db) : Prop :=
  ocr_jobs db' = ocr_jobs db ∧ ocr_results db' = ocr_results db.

Ltac frame_tx :=
  unfold db_after, same_jobs, and_then, ok_or, set_work_scope_pending, register_work_scope,
    put_upload, insert_upload_outbox, with_uploads, with_outbox, with_scopes;
  repeat (simpl; case_match; simplify_eq/=); done.

Lemma create_upload_jobs now r db : same_jobs db (db_after (create_upload now r) db).
Proof. unfold create_upload, insert_upload. frame_tx. Qed.
Lemma record_uploaded_jobs now clock t p u r db :
  same_jobs db (db_after (record_uploaded now clock t p u r) db).
Proof. unfold record_uploaded. frame_tx. Qed.
Lemma claim_upload_inspection_jobs now t p u o db :
  same_jobs db (db_after (claim_upload_inspection now t p u o) db).
Proof. unfold claim_upload_inspection. frame_tx. Qed.
Lemma accept_upload_jobs now t p u s db : same_jobs db (db_after (accept_upload now t p u s) db).
Proof. unfold accept_upload. frame_tx. Qed.
Lemma reject_upload_jobs now t p u o r db :
  same_jobs db (db_after (reject_upload now t p u o r) db).
Proof. unfold reject_upload. frame_tx. Qed.
Lemma claim_job_outbox_jobs now l t p c db :
  same_jobs db (db_after (claim_job_outbox now l t p c) db).
Proof. unfold claim_job_outbox. frame_tx. Qed.
Lemma claim_webhook_outbox_jobs now l t p c db :
  same_jobs db (db_after (claim_webhook_outbox now l t p c) db).
Proof. unfold claim_webhook_outbox. frame_tx. Qed.
Lemma publish_job_outbox_jobs now t p id o db :
  same_jobs db (db_after (publish_job_outbox now t p id o) db).
Proof. unfold publish_job_outbox. frame_tx. Qed.
Lemma claim_work_scopes_jobs now l c db : same_jobs db (claim_work_scopes now l c db).2.
Proof. unfold claim_work_scopes. frame_tx. Qed.
Lemma release_work_scope_jobs now s o db :
  same_jobs db (db_after (release_work_scope now s o) db).
Proof. unfold release_work_scope, ocr_release_work_scope. frame_tx. Qed.

Lemma apply_op_job_effect ss js op db :
  op_valid op → job_effect db (apply_op ss js op db).
Proof.
  assert (Hsame : ∀ db', same_jobs db db' → job_effect db db').
  { intros db' [??]. by apply jobs_unchanged. }
  destruct op; simpl; intros Hop.
  - apply create_effect. apply Hop.
  - apply cancel_effect.
  - apply complete_cancellation_effect.
  - apply commit_result_effect; apply Hop.
  - apply create_page_workflow_effect.
  - destruct (insert_artifacts_frame ss js tenant product job expected_revision workflow artifacts
      db) as (? & ? & _). apply Hsame. by split.
  - apply Hsame, create_upload_jobs.
  - apply Hsame, record_uploaded_jobs.
  - apply Hsame, claim_upload_inspection_jobs.
  - apply Hsame, accept_upload_jobs.
  - apply Hsame, reject_upload_jobs.
  - apply Hsame, claim_job_outbox_jobs.
  - apply Hsame, claim_webhook_outbox_jobs.
  - apply Hsame, publish_job_outbox_jobs.
  - apply Hsame, claim_work_scopes_jobs.
  - apply Hsame, release_work_scope_jobs.
Qed.

(** ** The invariant of the job tables *)

Lemma find_Some_spec {A : Type} (f : A → bool) l a :
  List.find f l = Some a → a ∈ l ∧ f a = true.
Proof. intros Hf. apply List.find_some in Hf. by rewrite list_elem_of_In. Qed.

Definition has_key (row : JobRow) (product tenant key : string) : Prop :=
  jr_product_id row = product ∧ jr_tenant_id row = tenant ∧ jr_idempotency_key row = key.

Lemma has_key_spec row product tenant key :
  String.eqb (jr_product_id row) product && String.eqb (jr_tenant_id row) tenant
  && String.eqb (jr_idempotency_key row) key = true ↔ has_key row product tenant key.
Proof. unfold has_key. rewrite !andb_true_iff, !String.eqb_eq. tauto. Qed.

Lemma job_by_key_Some product tenant key db id row :
  job_by_key product tenant key db = Some (id, row) →
  ocr_jobs db !! id = Some row ∧ has_key row product tenant key.
Proof.
  intros [Hin Hk]%find_Some_spec. apply elem_of_map_to_list in Hin. by apply has_key_spec in Hk.
Qed.

Lemma job_by_key_None product tenant key db :
  job_by_key product tenant key db = None →
  ∀ id row, ocr_jobs db !! id = Some row → ¬ has_key row product tenant key.
Proof.
  intros Hf id row Hl Hk%has_key_spec.
  assert (Hn := List.find_none _ _ Hf (id, row)). cbv beta iota in Hn. rewrite Hk in Hn.
  discriminate Hn. apply list_elem_of_In. by apply elem_of_map_to_list.
Qed.

(** The states a job rests in between transactions. *)
Definition resting (s : JobState) : Prop :=
  s ∈ [Accepted; Processing; Cancelled; Partial; ReviewRequired; Completed].

Record job_row_ok (db : Db) (id : string) (row : JobRow) : Prop := {
  row_id : is_ok (JobId_new id) = true;
  row_state : ∃ s, jr_status row = job_state_text s ∧ resting s
    ∧ (is_result_state s = true ↔ is_Some (ocr_results db !! id));
  row_extraction : is_Some (jr_extraction_schema_id row) ↔ is_Some (jr_extraction_schema_version row);
}.

Record jobs_ok (db : Db) : Prop := {
  job_rows_ok : ∀ id row, ocr_jobs db !! id = Some row → job_row_ok db id row;
  result_rows_ok : ∀ id res, ocr_results db !! id = Some res →
    ∃ row, ocr_jobs db !! id = Some row ∧ rr_tenant_id res = jr_tenant_id row
      ∧ rr_product_id res = jr_product_id row ∧ is_ok (stored_result_locator res) = true;
  keys_unique : ∀ id id' row row' product tenant key,
    ocr_jobs db !! id = Some row → ocr_jobs db !! id' = Some row' →
    has_key row product tenant key → has_key row' product tenant key → id = id';
}.

Lemma job_state_text_inj s s' : job_state_text s = job_state_text s' → s = s'.
Proof. destruct s, s'; simpl; congruence. Qed.

Lemma empty_jobs_ok : jobs_ok empty_db.
Proof. by split; simpl; intros *; rewrite ?lookup_empty. Qed.

Lemma job_move_states s to :
  job_move (job_state_text s) to → resting s →
  (s = Accepted ∨ s = Processing)
  ∧ ((to = "processing" ∧ job_state_text Processing = to)
     ∨ (to = "cancelled" ∧ job_state_text Cancelled = to)).
Proof.
  unfold job_move, resting. rewrite !elem_of_cons. setoid_rewrite elem_of_nil.
  intros [[-> Hin]|[-> Hin]] Hr; (split; [|by auto]);
    destruct s; simpl in Hin; naive_solver.
Qed.

Lemma job_row_ok_move db db' id row s :
  job_row_ok db id row → job_move (jr_status row) s → ocr_results db' = ocr_results db →
  job_row_ok db' id (set_job_status row s).
Proof.
  intros [Hid (st & Hst & Hr & Hres) Hx] Hm Heq. rewrite Hst in Hm.
  apply job_move_states in Hm as [Hfrom Hto]; [|done].
  assert (Hno : ¬ is_Some (ocr_results db' !! id)).
  { rewrite Heq, <- Hres. by destruct Hfrom as [-> | ->]. }
  split; simpl; [done| |done].
  destruct Hto as [[-> <-]|[-> <-]]; [exists Processing | exists Cancelled];
    (split_and!; try done; unfold resting; set_solver).
Qed.

Lemma has_key_set_status row s product tenant key :
  has_key (set_job_status row s) product tenant key ↔ has_key row product tenant key.
Proof. done. Qed.

(** Changing the status of rows keeps the keys unique. *)
Lemma keys_unique_set_status db id0 row0 s :
  jobs_ok db → ocr_jobs db !! id0 = Some row0 →
  ∀ id id' row row' product tenant key,
    <[id0 := set_job_status row0 s]> (ocr_jobs db) !! id = Some row →
    <[id0 := set_job_status row0 s]> (ocr_jobs db) !! id' = Some row' →
    has_key row product tenant key → has_key row' product tenant key → id = id'.
Proof.
  intros Hok H0 id id' row row' p t k.
  rewrite !lookup_insert_Some. intros [[<- <-]|[Hne Hl]] [[<- <-]|[Hne' Hl']] Hk Hk';
    [done|..]; eapply (keys_unique _ Hok); done.
Qed.

Lemma resting_result s : is_result_state s = true → resting s.
Proof. unfold resting. destruct s; try done; intros _; set_solver. Qed.

Lemma job_effect_ok db db' : jobs_ok db → job_effect db db' → jobs_ok db'.
Proof.
  intros Hok [Hj Hr|id row Hnew Hid Hst Hsrc Hkey Hx Hj Hr|id row s Hl Hm Hj Hr
             |id row state res Hl Hst Hres Hnone Ht Hp Hdec Hj Hr].
  - destruct Hok as [H1 H2 H3]. split; rewrite Hj; [|rewrite Hr; apply H2|apply H3].
    intros i r Hi. destruct (H1 i r Hi). split; [done| |done]. by rewrite Hr.
  - split; rewrite Hj; rewrite ?Hr.
    + intros i r [[<- <-]|[Hne Hi]]%lookup_insert_Some.
      * split; [done| |done]. exists Accepted. split; [done|]. split; [unfold resting; set_solver|].
        split; [done|]. rewrite Hr. intros [res Hres].
        apply (result_rows_ok _ Hok) in Hres as (? & ? & _). congruence.
      * destruct (job_rows_ok _ Hok i r Hi). split; [done| |done]. by rewrite Hr.
    + intros i res Hi. destruct (result_rows_ok _ Hok i res Hi) as (r & Hjr & Hrest).
      exists r. rewrite lookup_insert_ne; [done|]. congruence.
    + intros i i' r r' p t k [[<- <-]|[Hne Hi]]%lookup_insert_Some
        [[<- <-]|[Hne' Hi']]%lookup_insert_Some Hk Hk'; [done|..].
      * destruct Hk as (<- & <- & <-). by destruct (job_by_key_None _ _ _ _ Hkey _ _ Hi').
      * destruct Hk' as (<- & <- & <-). by destruct (job_by_key_None _ _ _ _ Hkey _ _ Hi).
      * by eapply (keys_unique _ Hok).
  - split; rewrite Hj; rewrite ?Hr; [| |by apply keys_unique_set_status].
    + intros i r [[<- <-]|[Hne Hi]]%lookup_insert_Some.
      * eapply job_row_ok_move; [|done|done]. by apply (job_rows_ok _ Hok).
      * destruct (job_rows_ok _ Hok i r Hi). split; [done| |done]. by rewrite Hr.
    + intros i res Hi. destruct (result_rows_ok _ Hok i res Hi) as (r & Hjr & Hrest).
      destruct (decide (i = id)) as [->|Hne].
      * exists (set_job_status row s). rewrite lookup_insert_eq. simplify_eq. done.
      * exists r. by rewrite lookup_insert_ne.
  - split; rewrite Hj; rewrite ?Hr; [| |by apply keys_unique_set_status].
    + intros i r [[<- <-]|[Hne Hi]]%lookup_insert_Some.
      * destruct (job_rows_ok _ Hok id row Hl) as [Hid _ Hx]. split; [done| |done].
        exists state. rewrite Hr, lookup_insert_eq. split; [done|]. split; [by apply resting_result|]. split; eauto.
      * destruct (job_rows_ok _ Hok i r Hi) as [Hid (st & Hs & Hrest & Hiff) Hx].
        split; [done| |done]. exists st. rewrite Hr, lookup_insert_ne; done.
    + intros i r [[<- <-]|[Hne Hi]]%lookup_insert_Some.
      * exists (set_job_status row (job_state_text state)). rewrite lookup_insert_eq. done.
      * destruct (result_rows_ok _ Hok i r Hi) as (r' & Hjr & Hrest).
        exists r'. rewrite lookup_insert_ne; done.
Qed.

Lemma run_ops_jobs_ok ss js ops db :
  Forall op_valid ops → jobs_ok db → jobs_ok (run_ops ss js ops db).
Proof.
  apply run_ops_ind. intros op db' Hop Hok. eapply job_effect_ok; [done|].
  by apply apply_op_job_effect.
Qed.

Lemma reachable_jobs_ok ss js db : reachable ss js db → jobs_ok db.
Proof. intros (ops & Hops & ->). by apply run_ops_jobs_ok; [|apply empty_jobs_ok]. Qed.

(** ** The life of one job *)

Definition delivered (s : JobState) : bool :=
  match s with
  | Cancelled | Partial | ReviewRequired | Completed => true
  | _ => false
  end.

(** Zero or more transitions of the domain state machine. *)
Definition lifecycle_path : relation JobState := rtc (λ a b, is_allowed_transition a b = true).

Lemma lifecycle_path_step a b c : is_allowed_transition a b = true → lifecycle_path b c →
  lifecycle_path a c.
Proof. intros. by eapply rtc_l. Qed.

(** What one operation does to one job. *)
Lemma job_effect_row db db' id row s :
  jobs_ok db → job_effect db db' → ocr_jobs db !! id = Some row → jr_status row = job_state_text s →
  (delivered s = true ∧ ocr_jobs db' !! id = Some row ∧ ocr_results db' !! id = ocr_results db !! id)
  ∨ (delivered s = false ∧
     ∃ s', ocr_jobs db' !! id = Some (set_job_status row (job_state_text s'))
       ∧ lifecycle_path s s').
Proof.
  intros Hok Heff Hl Hs.
  assert (Hrest : resting s).
  { destruct (job_rows_ok _ Hok id row Hl) as [_ (s0 & H0 & Hr & _) _].
    rewrite Hs in H0. by apply job_state_text_inj in H0 as ->. }
  assert (Hsame : ∀ db', ocr_jobs db' !! id = Some row →
    ocr_results db' !! id = ocr_results db !! id →
    (delivered s = true ∧ ocr_jobs db' !! id = Some row
       ∧ ocr_results db' !! id = ocr_results db !! id)
    ∨ (delivered s = false ∧
       ∃ s', ocr_jobs db' !! id = Some (set_job_status row (job_state_text s'))
         ∧ lifecycle_path s s')).
  { intros db0 H1 H2. destruct (delivered s); [by left|right]. split; [done|].
    exists s. rewrite <- Hs, set_job_status_id. split; [done|]. apply rtc_refl. }
  destruct Heff as [Hj Hr|id' row' Hnew _ _ _ _ _ Hj Hr|id' row' to Hl' Hm Hj Hr
                   |id' row' state res Hl' Hst Hres Hnone _ _ _ Hj Hr].
  - apply Hsame; congruence.
  - apply Hsame; [|by rewrite Hr]. rewrite Hj, lookup_insert_ne; [done|]. congruence.
  - destruct (decide (id = id')) as [<-|Hne].
    + simplify_eq. rewrite Hs in Hm. apply job_move_states in Hm as [Hfrom Hto]; [|done].
      right. split; [by destruct Hfrom as [-> | ->]|]. rewrite Hj, lookup_insert_eq.
      destruct Hto as [[-> _]|[-> _]]; [exists Processing | exists Cancelled];
        (split; [done|]); destruct Hfrom as [-> | ->];
        first [ apply rtc_refl
              | apply (lifecycle_path_step _ Inspecting); [done|];
                apply (lifecycle_path_step _ Processing); [done|apply rtc_refl]
              | apply (lifecycle_path_step _ Cancelling); [done|];
                apply (lifecycle_path_step _ Cancelled); [done|apply rtc_refl] ].
    + apply Hsame; [|by rewrite Hr]. by rewrite Hj, lookup_insert_ne.
  - destruct (decide (id = id')) as [<-|Hne].
    + simplify_eq. rewrite Hs in Hst. right.
      assert (s = Processing) as ->.
      { unfold resting in Hrest. destruct s; simpl in Hst; set_solver. }
      split; [done|]. exists state. rewrite Hj, lookup_insert_eq. split; [done|].
      destruct state; try done;
        first [ apply (lifecycle_path_step _ Partial); [done|]; apply rtc_refl
              | apply (lifecycle_path_step _ Validating); [done|];
                eapply lifecycle_path_step; [|apply rtc_refl]; done ].
    + apply Hsame; rewrite ?Hj, ?Hr, lookup_insert_ne; done.
Qed.

(** The same over any sequence of operations. *)
Lemma run_ops_row ss js ops db id row s :
  jobs_ok db → Forall op_valid ops → ocr_jobs db !! id = Some row →
  jr_status row = job_state_text s →
  ∃ s', ocr_jobs (run_ops ss js ops db) !! id = Some (set_job_status row (job_state_text s'))
    ∧ lifecycle_path s s'
    ∧ (delivered s = true → s' = s
         ∧ ocr_results (run_ops ss js ops db) !! id = ocr_results db !! id).
Proof.
  intros Hok Hops. revert db row s Hok. induction Hops as [|op ops Hop Hops IH];
    intros db row s Hok Hl Hs.
  - exists s. rewrite <- Hs, set_job_status_id. split_and!; [done|apply rtc_refl|done].
  - assert (Heff := apply_op_job_effect ss js op db Hop).
    assert (Hok' := job_effect_ok _ _ Hok Heff).
    change (run_ops ss js (op :: ops) db) with (run_ops ss js ops (apply_op ss js op db)).
    destruct (job_effect_row _ _ _ _ _ Hok Heff Hl Hs)
      as [(Hd & Hl' & Hr')|(Hd & s1 & Hl' & Hp)].
    + destruct (IH _ _ _ Hok' Hl' Hs) as (s' & Hlook & Hpath & Hdel).
      exists s'. split_and!; [done|done|]. intros _. rewrite <- Hr'. by apply Hdel.
    + destruct (IH _ _ s1 Hok' Hl' eq_refl) as (s' & Hlook & Hpath & _).
      exists s'. split_and!; [done| |congruence]. by etrans.
Qed.

(** ** Theorems *)

Lemma reachable_job_row ss js db t p j row :
  reachable ss js db → select_job t p j db = Some row →
  ∃ s id, stored_job (JobId_str j) row = Ok (mkStoredJob id s (jr_created_at row))
    ∧ jr_status row = job_state_text s ∧ resting s
    ∧ (is_result_state s = true ↔ is_Some (ocr_results db !! JobId_str j)).
Proof.
  intros Hreach%reachable_jobs_ok (Hl & _ & _)%select_job_Some.
  destruct (job_rows_ok _ Hreach _ _ Hl) as [(id & Hid)%is_ok_true (s & Hs & Hr & Hiff) _].
  exists s, id. split_and!; try done.
  - unfold stored_job. rewrite Hid. simpl. by rewrite Hs, parse_job_state_text.
Qed.

(** In every reachable database a result lookup succeeds: it never finds a job
    marked as delivered without its result, nor a result on an undelivered job.  It
    answers with a valid locator exactly for the delivered jobs of the scope, with
    [Unavailable] for the cancelled ones and with [NotReady] for those in progress. *)
Theorem find_result_total ss js db t p j :
  reachable ss js db →
  match find t p j db with
  | Ok None => find_result t p j db = Ok ResultLookup.NotFound
  | Ok (Some job) =>
      if is_result_state (sj_state job)
      then ∃ loc, find_result t p j db = Ok (ResultLookup.Ready loc)
             ∧ validate_locator loc = Ok ()
      else if bool_decide (sj_state job = Cancelled)
      then find_result t p j db = Ok (ResultLookup.Unavailable Cancelled)
      else find_result t p j db = Ok (ResultLookup.NotReady (sj_state job))
  | Err _ => False
  end.
Proof.
  intros Hreach. unfold find, find_result.
  destruct (select_job t p j db) as [row|] eqn:Hj; [|done].
  destruct (reachable_job_row _ _ _ _ _ _ _ Hreach Hj) as (s & id & -> & Hs & Hr & Hiff).
  simpl. rewrite Hs, parse_job_state_text. simpl. unfold select_result.
  destruct (ocr_results db !! JobId_str j) as [res|] eqn:Hres.
  - rewrite (proj2 Hiff) by done.
    apply select_job_Some in Hj as (Hl & Ht & Hp).
    destruct (result_rows_ok _ (reachable_jobs_ok _ _ _ Hreach) _ _ Hres)
      as (row' & Hl' & Hrt & Hrp & (loc & Hloc)%is_ok_true).
    simplify_eq. rewrite (proj2 (in_scope_spec _ _ _ _)) by (split; congruence). simpl.
    rewrite Hloc. exists loc. split; [done|]. unfold stored_result_locator in Hloc.
    destruct_result Hloc. by repeat match goal with u : () |- _ => destruct u end.
  - assert (is_result_state s = false) as Hno.
    { destruct (is_result_state s); [|done]. destruct (proj1 Hiff eq_refl) as [? [=]]. }
    rewrite Hno. unfold resting in Hr. destruct s; try done; set_solver.
Qed.

Theorem find_result_total_witness :
  find_result sample_tenant sample_product sample_job (sample_db sample_job_ops)
  = Ok (ResultLookup.NotReady Accepted).
Proof.
  assert (H : reachable sample_size sample_size (sample_db sample_job_ops)).
  { exists sample_job_ops. split; [|done]. by eapply sample_valid_prefix. }
  apply (find_result_total _ _ _ sample_tenant sample_product sample_job) in H.
  vm_compute in H. vm_compute. exact H.
Defined.

(** C3: the store refines the domain state machine: whatever operations follow, a job
    stays in the table with everything but its status unchanged, and its status moves
    along transitions that [JobLifecycle] allows. *)
Theorem store_refines_lifecycle ss js db ops id row s :
  reachable ss js db → Forall op_valid ops →
  ocr_jobs db !! id = Some row → jr_status row = job_state_text s →
  ∃ s', ocr_jobs (run_ops ss js ops db) !! id = Some (set_job_status row (job_state_text s'))
    ∧ lifecycle_path s s'.
Proof.
  intros Hreach%reachable_jobs_ok Hops Hl Hs.
  destruct (run_ops_row ss js ops db id row s Hreach Hops Hl Hs) as (s' & ? & ? & _). eauto.
Qed.

Definition sample_job_row (status : string) : JobRow :=
  {| jr_tenant_id := "ten_a"; jr_product_id := "prod"; jr_idempotency_key := "job-key";
     jr_request_digest := sample_digest; jr_upload_id := "upl_1";
     jr_webhook_subscription_id := Some "whs_1"; jr_extraction_schema_id := None;
     jr_extraction_schema_version := None; jr_status := status; jr_created_at := 5 |}.

Lemma sample_processing_reachable :
  reachable sample_size sample_size (sample_db sample_processing_ops).
Proof. exists sample_processing_ops. split; [apply sample_processing_valid|done]. Qed.

Theorem store_refines_lifecycle_witness :
  lifecycle_path Processing Cancelled.
Proof.
  destruct (store_refines_lifecycle sample_size sample_size (sample_db sample_processing_ops)
    [OpCancel 7 sample_tenant sample_product sample_job] "job_1" (sample_job_row "processing")
    Processing sample_processing_reachable) as (s' & Hl & Hp).
  - by repeat constructor.
  - vm_compute. reflexivity.
  - reflexivity.
  - assert (s' = Cancelled) as ->; [|exact Hp].
    vm_compute in Hl. destruct s'; simpl in Hl; congruence.
Defined.

(** A cancelled or delivered job is final: no sequence of operations changes its row,
    its result, or adds one. *)
Theorem delivered_jobs_are_final ss js db ops id row s :
  reachable ss js db → Forall op_valid ops →
  ocr_jobs db !! id = Some row → jr_status row = job_state_text s → delivered s = true →
  ocr_jobs (run_ops ss js ops db) !! id = Some row
  ∧ ocr_results (run_ops ss js ops db) !! id = ocr_results db !! id.
Proof.
  intros Hreach%reachable_jobs_ok Hops Hl Hs Hd.
  destruct (run_ops_row ss js ops db id row s Hreach Hops Hl Hs) as (s' & Hl' & _ & Hfin).
  destruct (Hfin Hd) as [-> Hres]. by rewrite <- Hs, set_job_status_id in Hl'.
Qed.

Definition sample_cancelled_ops : list StoreOp :=
  sample_processing_ops ++ [OpCancel 7 sample_tenant sample_product sample_job].

Lemma sample_cancelled_reachable :
  reachable sample_size sample_size (sample_db sample_cancelled_ops).
Proof.
  exists sample_cancelled_ops. split; [|done]. apply Forall_app. split.
  - apply sample_processing_valid.
  - by repeat constructor.
Qed.

Theorem delivered_jobs_are_final_witness :
  ocr_jobs (run_ops sample_size sample_size
    [OpCommitResult 8 sample_tenant sample_product sample_job
       (mkCommitResult Completed sample_locator)] (sample_db sample_cancelled_ops)) !! "job_1"
  = Some (sample_job_row "cancelled").
Proof.
  apply (delivered_jobs_are_final sample_size sample_size (sample_db sample_cancelled_ops)
    [OpCommitResult 8 sample_tenant sample_product sample_job
       (mkCommitResult Completed sample_locator)] "job_1" (sample_job_row "cancelled") Cancelled
    sample_cancelled_reachable); [|vm_compute; reflexivity|reflexivity|reflexivity].
  apply Forall_singleton. split; reflexivity.
Defined.

Lemma job_by_key_found db id row product tenant key :
  jobs_ok db → ocr_jobs db !! id = Some row → has_key row product tenant key →
  job_by_key product tenant key db = Some (id, row).
Proof.
  intros Hok Hl Hk. destruct (job_by_key _ _ _ _) as [[id' row']|] eqn:Hf.
  - apply job_by_key_Some in Hf as [Hl' Hk'].
    assert (id = id') as <- by by eapply (keys_unique _ Hok). by simplify_eq.
  - by destruct (job_by_key_None _ _ _ _ Hf _ _ Hl).
Qed.

(** A key that is taken is never inserted again. *)
Lemma insert_job_taken now r db id row :
  jobs_ok db → ocr_jobs db !! id = Some row →
  has_key row (ProductId_str (cj_product_id r)) (TenantId_str (cj_tenant_id r))
    (IdempotencyKey_str (cj_idempotency_key r)) →
  insert_job now r db = Ok None.
Proof.
  intros Hok Hl Hk. unfold insert_job. destruct (select_upload _ _ _ _); [|done].
  destruct (negb _); [done|]. by rewrite (job_by_key_found _ _ _ _ _ _ Hok Hl Hk).
Qed.

Lemma create_Created now r db job db1 :
  create now r db = Ok (CreateOutcome.Created job, db1) →
  ∃ row, ocr_jobs db1 !! JobId_str (cj_job_id r) = Some row
    ∧ has_key row (ProductId_str (cj_product_id r)) (TenantId_str (cj_tenant_id r))
        (IdempotencyKey_str (cj_idempotency_key r))
    ∧ jr_request_digest row = RequestDigest_str (cj_request_digest r)
    ∧ jr_webhook_subscription_id row
      = (WebhookSubscriptionId_str <$> cj_webhook_subscription_id r)
    ∧ jr_status row = "accepted" ∧ jr_created_at row = now
    ∧ stored_job (JobId_str (cj_job_id r)) row = Ok job.
Proof.
  unfold create. destruct (insert_job now r db) as [[[row db']|]|] eqn:Hi; simpl; [| |done].
  - apply insert_job_spec in Hi as (_ & Hs & _ & Hp & Ht & Hk & Hd & Hw & Hc & _ & _ & ->).
    destruct (stored_job _ row) as [stored|] eqn:Hst; simpl; [|done]. intros [= <- <-].
    exists row. simpl. rewrite lookup_insert_eq. done.
  - destruct (job_by_key _ _ _ _) as [[id row]|]; [|done].
    destruct (_ || _); [done|]. by destruct (stored_job _ _).
Qed.

(** What a request leaves behind when it succeeds: its job, under its key. *)
Lemma create_Ok now r db out db1 :
  create now r db = Ok (out, db1) →
  ∃ id row job, ocr_jobs db1 !! id = Some row
    ∧ has_key row (ProductId_str (cj_product_id r)) (TenantId_str (cj_tenant_id r))
        (IdempotencyKey_str (cj_idempotency_key r))
    ∧ jr_request_digest row = RequestDigest_str (cj_request_digest r)
    ∧ jr_webhook_subscription_id row
      = (WebhookSubscriptionId_str <$> cj_webhook_subscription_id r)
    ∧ stored_job id row = Ok job
    ∧ (out = CreateOutcome.Created job ∨ out = CreateOutcome.Existing job).
Proof.
  intros Hc. destruct out as [job|job].
  - apply create_Created in Hc as (row & Hl & Hk & Hd & Hw & _ & _ & Hst).
    exists (JobId_str (cj_job_id r)), row, job. split_and!; try done. by left.
  - revert Hc. unfold create.
    destruct (insert_job now r db) as [[[row db']|]|]; simpl; [by destruct (stored_job _ _)| |done].
    destruct (job_by_key _ _ _ _) as [[id row]|] eqn:Hf; [|done].
    destruct (_ || _) eqn:Hsame; [done|]. destruct (stored_job id row) as [stored|] eqn:Hst; simpl; [|done].
    intros [= <- <-]. apply job_by_key_Some in Hf as [Hl Hk].
    rewrite orb_false_iff, !negb_false_iff, bool_decide_eq_true, String.eqb_eq in Hsame.
    exists id, row, stored. destruct Hsame. split_and!; try done. by right.
Qed.

(** What a request is answered whose key is taken. *)
Lemma create_again now r db id row job :
  jobs_ok db → ocr_jobs db !! id = Some row → stored_job id row = Ok job →
  has_key row (ProductId_str (cj_product_id r)) (TenantId_str (cj_tenant_id r))
    (IdempotencyKey_str (cj_idempotency_key r)) →
  create now r db =
  if String.eqb (jr_request_digest row) (RequestDigest_str (cj_request_digest r))
     && bool_decide (jr_webhook_subscription_id row
                     = (WebhookSubscriptionId_str <$> cj_webhook_subscription_id r))
  then Ok (CreateOutcome.Existing job, db) else Err IdempotencyConflict.
Proof.
  intros Hok Hl Hst Hkey. unfold create. rewrite (insert_job_taken _ _ _ _ _ Hok Hl Hkey). simpl.
  rewrite (job_by_key_found _ _ _ _ _ _ Hok Hl Hkey). simpl. rewrite <- negb_andb, Hst.
  by destruct (_ && _).
Qed.

Lemma stored_job_moved id row job s :
  stored_job id row = Ok job →
  stored_job id (set_job_status row (job_state_text s))
  = Ok (mkStoredJob (sj_job_id job) s (jr_created_at row)).
Proof.
  intros (id' & Hnew & _ & ->)%stored_job_Ok. unfold stored_job. rewrite Hnew. simpl.
  by rewrite parse_job_state_text.
Qed.

(** The digest and the webhook columns tell requests apart. *)
Lemma same_request (a b : CreateJob) :
  String.eqb (RequestDigest_str (cj_request_digest a)) (RequestDigest_str (cj_request_digest b))
  && bool_decide ((WebhookSubscriptionId_str <$> cj_webhook_subscription_id a)
                  = (WebhookSubscriptionId_str <$> cj_webhook_subscription_id b))
  = bool_decide (cj_request_digest b = cj_request_digest a)
    && bool_decide (cj_webhook_subscription_id b = cj_webhook_subscription_id a).
Proof.
  f_equal.
  - destruct (cj_request_digest a) as [x], (cj_request_digest b) as [y]. simpl.
    destruct (String.eqb_spec x y) as [->|Hne]; symmetry; [by apply bool_decide_eq_true|].
    apply bool_decide_eq_false. congruence.
  - apply bool_decide_ext. split; [|by intros ->].
    destruct (cj_webhook_subscription_id a) as [[x]|], (cj_webhook_subscription_id b) as [[y]|];
      simpl; congruence.
Qed.

Lemma create_jobs_ok ss js now r db out db1 :
  reachable ss js db → op_valid (OpCreate now r) → create now r db = Ok (out, db1) → jobs_ok db1.
Proof.
  intros Hreach Hval Hc. assert (H := reachable_step _ _ _ _ Hreach Hval). simpl in H.
  rewrite (db_after_Ok _ _ _ _ Hc) in H. by eapply reachable_jobs_ok.
Qed.

(** Job creation is idempotent for ever: after a job was created, a request of the
    same scope with the same idempotency key, at any later time and whatever happened in
    between, creates nothing and changes nothing; it returns the original job, in its
    current state, when digest and webhook agree, and an idempotency conflict when they
    do not. *)
Theorem create_idempotent ss js db now r job db1 ops now' r' :
  reachable ss js db → op_valid (OpCreate now r) →
  create now r db = Ok (CreateOutcome.Created job, db1) → Forall op_valid ops →
  cj_tenant_id r' = cj_tenant_id r → cj_product_id r' = cj_product_id r →
  cj_idempotency_key r' = cj_idempotency_key r →
  let db2 := run_ops ss js ops db1 in
  sj_job_id job = cj_job_id r ∧ sj_state job = Accepted ∧ sj_created_at job = now
  ∧ if bool_decide (cj_request_digest r' = cj_request_digest r)
       && bool_decide (cj_webhook_subscription_id r' = cj_webhook_subscription_id r)
    then ∃ s, create now' r' db2
              = Ok (CreateOutcome.Existing (mkStoredJob (sj_job_id job) s now), db2)
              ∧ lifecycle_path Accepted s
    else create now' r' db2 = Err IdempotencyConflict.
Proof.
  intros Hreach Hval Hc Hops Ht Hp Hk db2.
  assert (Hok1 := create_jobs_ok _ _ _ _ _ _ _ Hreach Hval Hc).
  apply create_Created in Hc as (row & Hl & Hkey & Hd & Hw & Hs & Hcr & Hst).
  assert (Hid : sj_job_id job = cj_job_id r ∧ sj_state job = Accepted ∧ sj_created_at job = now).
  { apply stored_job_Ok in Hst as (id & Hnew & Hst & ->). simpl. destruct Hval as [Hv _].
    unfold id_valid in Hv. simpl in Hv, Hst.
    rewrite Hs in Hst. apply (job_state_text_inj Accepted) in Hst. split_and!; congruence. }
  destruct Hid as (Hid & Hst' & Hcj). split_and!; [done..|].
  destruct (run_ops_row ss js ops db1 _ row Accepted Hok1 Hops Hl Hs) as (s & Hl2 & Hpath & _).
  fold db2 in Hl2. assert (Hok2 : jobs_ok db2) by by apply run_ops_jobs_ok.
  rewrite (create_again _ _ _ _ _ _ Hok2 Hl2 (stored_job_moved _ _ _ _ Hst))
    by by rewrite Ht, Hp, Hk.
  simpl. rewrite Hd, Hw, same_request, Hcr. destruct (_ && _); [|done]. eauto.
Qed.

Theorem create_idempotent_witness :
  ∃ db1 s, create 9 sample_create_job (run_ops sample_size sample_size
      [OpCancel 7 sample_tenant sample_product sample_job] db1)
    = Ok (CreateOutcome.Existing (mkStoredJob sample_job s 5),
          run_ops sample_size sample_size [OpCancel 7 sample_tenant sample_product sample_job] db1).
Proof.
  set (ops := firstn 4 sample_job_ops).
  destruct (create 5 sample_create_job (sample_db ops)) as [[out db1]|e] eqn:Hc;
    [|exfalso; revert Hc; vm_compute; discriminate].
  assert (Hout : out = CreateOutcome.Created (mkStoredJob sample_job Accepted 5)).
  { assert (H : result_ok (create 5 sample_create_job (sample_db ops)) = Some (out, db1)) by by rewrite Hc.
    apply (f_equal (fmap fst)) in H. vm_compute in H. by injection H as <-. }
  subst out. exists db1.
  assert (Hreach : reachable sample_size sample_size (sample_db ops)).
  { exists ops. split; [|done]. by eapply (sample_valid_prefix ops). }
  assert (Hops : Forall op_valid [OpCancel 7 sample_tenant sample_product sample_job])
    by by repeat constructor.
  assert (Hval : op_valid (OpCreate 5 sample_create_job)) by by split_and!.
  destruct (create_idempotent _ _ _ 5 sample_create_job (mkStoredJob sample_job Accepted 5) db1
    [OpCancel 7 sample_tenant sample_product sample_job] 9 sample_create_job Hreach Hval Hc Hops
    eq_refl eq_refl eq_refl) as (_ & _ & _ & Hcase).
  rewrite !bool_decide_eq_true_2 in Hcase by reflexivity.
  destruct Hcase as (s & Hs & _). exists s. exact Hs.
Defined.

(** ** Cancellation against delivery *)

Lemma cancel_final now t p j db row s job :
  select_job t p j db = Some row → stored_job (JobId_str j) row = Ok job → sj_state job = s →
  s ∉ [Accepted; Inspecting; Processing; Validating] →
  cancel now t p j db =
  Ok (match s with
      | Cancelling | Cancelled => CancelOutcome.Existing job
      | _ => CancelOutcome.NotCancellable job
      end, db).
Proof.
  intros Hj Hst Hs Hno. unfold cancel.
  destruct (update_job_status _ _ _ _ _ _) as [[row' db']|] eqn:Hu.
  - apply update_job_status_Some in Hu as (old & Ho & Hin & _). simplify_eq.
    apply stored_job_Ok in Hst as (_ & _ & Hst & _). rewrite Hst in Hin.
    exfalso. apply Hno. destruct (sj_state job); set_solver.
  - rewrite Hj, Hst. simpl. rewrite Hs. by destruct s.
Qed.

(** A delivered or cancelled job is found unchanged at any later time. *)
Lemma delivered_later ss js db ops t p j row s :
  jobs_ok db → Forall op_valid ops → select_job t p j db = Some row →
  jr_status row = job_state_text s → delivered s = true →
  select_job t p j (run_ops ss js ops db) = Some row
  ∧ ocr_results (run_ops ss js ops db) !! JobId_str j = ocr_results db !! JobId_str j.
Proof.
  intros Hok Hops (Hl & Ht & Hp)%select_job_Some Hs Hd.
  destruct (run_ops_row ss js ops db _ row s Hok Hops Hl Hs) as (s' & Hl' & _ & Hfin).
  destruct (Hfin Hd) as [-> Hres]. rewrite <- Hs, set_job_status_id in Hl'.
  split; [|done]. by apply select_job_Some.
Qed.

(** A job with a result: what another commit answers. *)
Lemma commit_again now t p j c' db row job res loc :
  validate_locator (locator c') = Ok () → is_result_state (terminal_state c') = true →
  select_job t p j db = Some row → stored_job (JobId_str j) row = Ok job →
  select_result t p j db = Some res → stored_result_locator res = Ok loc →
  commit_result now t p j c' db
  = Ok (if bool_decide (locator c' = loc) && bool_decide (terminal_state c' = sj_state job)
        then CommitResultOutcome.Existing job else CommitResultOutcome.Conflict, db).
Proof.
  intros Hloc Hst Hj Hs Hr Hdec. unfold commit_result. rewrite Hloc. simpl. rewrite Hst. simpl.
  rewrite Hj, Hs. simpl. rewrite Hr, Hdec. simpl.
  rewrite (bool_decide_ext (loc = locator c') (locator c' = loc)) by done.
  rewrite (bool_decide_ext (sj_state job = terminal_state c') (terminal_state c' = sj_state job))
    by done.
  by destruct (_ && _).
Qed.

Lemma commit_state now t p j c db job db1 :
  commit_result now t p j c db = Ok (CommitResultOutcome.Committed job, db1) →
  id_valid (loc_document_id (locator c)) → id_valid (loc_document_version (locator c)) →
  ∃ row res, select_job t p j db1 = Some row ∧ stored_job (JobId_str j) row = Ok job
    ∧ sj_state job = terminal_state c ∧ jr_status row = job_state_text (terminal_state c)
    ∧ is_result_state (terminal_state c) = true
    ∧ ocr_results db1 !! JobId_str j = Some res ∧ rr_tenant_id res = TenantId_str t
    ∧ rr_product_id res = ProductId_str p ∧ stored_result_locator res = Ok (locator c).
Proof.
  intros (row & res & (Hl & Ht & Hp)%select_job_Some & _ & Hstate & _ & _ & Hrt & Hrp & Hdec
          & Hjobs & Hresults & Hst)%commit_result_spec Hd Hv.
  exists (set_job_status row (job_state_text (terminal_state c))), res.
  rewrite Hresults, lookup_insert_eq. split_and!; try done.
  - apply select_job_Some. rewrite Hjobs, lookup_insert_eq. done.
  - apply stored_job_Ok in Hst as (? & _ & Hst & _). symmetry. by apply job_state_text_inj.
  - by apply Hdec.
Qed.

Lemma cancel_state now t p j db job db1 :
  cancel now t p j db = Ok (CancelOutcome.Requested job, db1) →
  ∃ row, select_job t p j db1 = Some row ∧ stored_job (JobId_str j) row = Ok job
    ∧ sj_state job = Cancelled ∧ jr_status row = "cancelled".
Proof.
  unfold cancel. destruct (update_job_status _ _ _ _ _ _) as [[row' db']|] eqn:Hu.
  - apply update_job_status_Some in Hu as (old & (Hl & Ht & Hp)%select_job_Some & _ & -> & ->).
    destruct (stored_job _ _) as [stored|] eqn:Hst; simpl; [|done]. intros [= -> <-].
    exists (set_job_status old "cancelled"). split_and!; try done.
    + apply select_job_Some. simpl. by rewrite lookup_insert_eq.
    + apply stored_job_Ok in Hst as (? & _ & Hst & _). symmetry.
      by apply (job_state_text_inj Cancelled).
  - destruct (select_job _ _ _ _); [|done]. destruct (stored_job _ _); simpl; [|done].
    by destruct (sj_state _).
Qed.

Lemma delivered_not_cancellable s : is_result_state s = true →
  s ∉ [Accepted; Inspecting; Processing; Validating].
Proof. destruct s; try done; intros _; set_solver. Qed.

(** C1: cancellation and delivery exclude each other.  Once a commit has succeeded, at
    any later time: the same commit is acknowledged as already done, any other is a
    conflict, a cancellation is refused, and none of them changes anything; once a
    cancellation was accepted, every later commit is refused and changes nothing, while
    repeating the cancellation is acknowledged. *)
Theorem delivery_and_cancellation_exclude ss js db now t p j c job db1 ops now' c' :
  reachable ss js db → Forall op_valid ops → op_valid (OpCommitResult now t p j c) →
  validate_locator (locator c') = Ok () → is_result_state (terminal_state c') = true →
  let db2 := run_ops ss js ops db1 in
  (commit_result now t p j c db = Ok (CommitResultOutcome.Committed job, db1) →
     commit_result now' t p j c' db2
       = Ok (if bool_decide (locator c' = locator c)
                && bool_decide (terminal_state c' = terminal_state c)
             then CommitResultOutcome.Existing job else CommitResultOutcome.Conflict, db2)
     ∧ cancel now' t p j db2 = Ok (CancelOutcome.NotCancellable job, db2))
  ∧ (cancel now t p j db = Ok (CancelOutcome.Requested job, db1) →
     commit_result now' t p j c' db2 = Ok (CommitResultOutcome.NotCommittable, db2)
     ∧ cancel now' t p j db2 = Ok (CancelOutcome.Existing job, db2)).
Proof.
  intros Hreach Hops Hval Hloc Hstate db2. assert (Hok := reachable_jobs_ok _ _ _ Hreach). split.
  - intros Hc. assert (Hok1 : jobs_ok db1).
    { assert (db1 = apply_op ss js (OpCommitResult now t p j c) db) as ->
        by by simpl; unfold db_after; rewrite Hc.
      eapply job_effect_ok; [done|]. by apply apply_op_job_effect. }
    apply commit_state in Hc as (row & res & Hj & Hst & Hjs & Hs & Hdel & Hres & Hrt & Hrp & Hdec);
      [|apply Hval..].
    destruct (delivered_later ss js db1 ops t p j row (terminal_state c) Hok1 Hops Hj Hs)
      as [Hj2 Hres2]; [by destruct (terminal_state c)|]. fold db2 in Hj2, Hres2.
    rewrite Hres in Hres2.
    assert (Hsel : select_result t p j db2 = Some res).
    { unfold select_result. rewrite Hres2. by rewrite (proj2 (in_scope_spec _ _ _ _)). }
    split.
    + by rewrite (commit_again _ _ _ _ _ _ _ _ _ _ Hloc Hstate Hj2 Hst Hsel Hdec), Hjs.
    + rewrite (cancel_final _ _ _ _ _ _ _ _ Hj2 Hst Hjs (delivered_not_cancellable _ Hdel)).
      by destruct (terminal_state c).
  - intros Hc. assert (Hok1 : jobs_ok db1).
    { assert (db1 = apply_op ss js (OpCancel now t p j) db) as ->
        by by simpl; unfold db_after; rewrite Hc.
      eapply job_effect_ok; [done|]. by apply apply_op_job_effect. }
    apply cancel_state in Hc as (row & Hj & Hst & Hjs & Hs).
    destruct (delivered_later ss js db1 ops t p j row Cancelled Hok1 Hops Hj Hs eq_refl)
      as [Hj2 Hres2]. fold db2 in Hj2, Hres2.
    assert (Hnone : ocr_results db1 !! JobId_str j = None).
    { apply select_job_Some in Hj as (Hl & _ & _).
      destruct (job_rows_ok _ Hok1 _ _ Hl) as [_ (s & Hs' & _ & Hiff) _]. rewrite Hs in Hs'.
      apply (job_state_text_inj Cancelled) in Hs' as <-.
      destruct (ocr_results db1 !! JobId_str j); [|done]. by discriminate (proj2 Hiff). }
    split.
    + unfold commit_result. rewrite Hloc. simpl. rewrite Hstate. simpl. rewrite Hj2, Hst. simpl.
      unfold select_result. by rewrite Hres2, Hnone, Hjs.
    + rewrite (cancel_final _ _ _ _ _ _ _ _ Hj2 Hst Hjs); [done|set_solver].
Qed.

Definition sample_commit : CommitResult := mkCommitResult Completed sample_locator.

Theorem delivery_and_cancellation_exclude_witness :
  ∃ job db1,
    commit_result 8 sample_tenant sample_product sample_job sample_commit
      (sample_db sample_processing_ops) = Ok (CommitResultOutcome.Committed job, db1)
    ∧ cancel 9 sample_tenant sample_product sample_job db1
      = Ok (CancelOutcome.NotCancellable job, db1).
Proof.
  destruct (commit_result 8 sample_tenant sample_product sample_job sample_commit
    (sample_db sample_processing_ops)) as [[out db1]|e] eqn:Hc;
    [|exfalso; revert Hc; vm_compute; discriminate].
  assert (Hout : out = CommitResultOutcome.Committed (mkStoredJob sample_job Completed 5)).
  { assert (H : result_ok (commit_result 8 sample_tenant sample_product sample_job sample_commit
      (sample_db sample_processing_ops)) = Some (out, db1)) by by rewrite Hc.
    apply (f_equal (fmap fst)) in H. vm_compute in H. by injection H as <-. }
  subst out. exists (mkStoredJob sample_job Completed 5), db1. split; [done|].
  assert (Hval : op_valid (OpCommitResult 8 sample_tenant sample_product sample_job sample_commit))
    by by split.
  destruct (delivery_and_cancellation_exclude sample_size sample_size _ 8 sample_tenant
    sample_product sample_job sample_commit (mkStoredJob sample_job Completed 5) db1 [] 9
    sample_commit sample_processing_reachable (Forall_nil_2 _) Hval eq_refl eq_refl) as [H _].
  exact (proj2 (H Hc)).
Defined.
