(* ===== verification/StorePagesFacts.v ===== *)
(** * StorePagesFacts: revisions and artifacts of page workflows

    A page workflow is saved under optimistic concurrency: the effect of every
    operation on the workflow and artifact tables, and the theorems that no saved
    revision is lost, that artifacts are written with the revision that completes
    their pages and never change, and that both always load. *)

From S2P Require Import Prelude Text DomainTypes Identifiers Geometry PageWorkflow.
From S2P Require Import PageWorkflowFacts StoreTypes StoreChecks StoreDb StoreJobs StorePages.
From S2P Require Import StoreUploads StoreOutbox StoreRun StoreJobsFacts.

#[local] Open Scope list_scope.
#[local] Open Scope Z_scope.

Section Facts.
Context (ss js : RawPageWorkflow → Z).

(** ** The batch of artifacts *)

Definition artifact_row (t : TenantId) (p : ProductId) (a : StoredPageArtifact) : ArtifactRow :=
  {| ar_tenant_id := TenantId_str t; ar_product_id := ProductId_str p; ar_artifact := a |}.

(** The table only grows, by rows of the batch, each under its page. *)
Lemma insert_artifacts_spec t p j artifacts table table' :
  insert_artifacts t p j artifacts table = Ok table' →
  table ⊆ table'
  ∧ (∀ a, a ∈ artifacts → table' !! (JobId_str j, artifact_page a) = Some (artifact_row t p a))
  ∧ (∀ k row, table' !! k = Some row →
       table !! k = Some row
       ∨ ∃ a, a ∈ artifacts ∧ k = (JobId_str j, artifact_page a) ∧ row = artifact_row t p a).
Proof.
  revert table. induction artifacts as [|a artifacts IH]; intros table; simpl.
  - intros [= <-]. split_and!; [done|by inversion 1|by left].
  - destruct (table !! _) eqn:Hl; [done|]. destruct (existsb _ _); [done|].
    intros (Hsub & Hin & Hfrom)%IH.
    assert (Hsub' : table ⊆ table') by (etrans; [by apply insert_subseteq|done]).
    split_and!; [done| |].
    + intros b [->|Hb]%elem_of_cons; [|by apply Hin].
      eapply lookup_weaken; [|exact Hsub]. by rewrite lookup_insert_eq.
    + intros k row Hk. destruct (Hfrom k row Hk) as [Hold|(b & Hb & -> & ->)].
      * apply lookup_insert_Some in Hold as [[<- <-]|[_ Hold]]; [right|by left].
        exists a. split_and!; [left|done|done].
      * right. exists b. split_and!; [by right|done|done].
Qed.

Lemma check_artifacts_spec j w artifacts pages :
  check_artifacts j w artifacts = Ok pages →
  pages = artifact_page <$> artifacts
  ∧ Forall (λ a, validate_page_artifact a = Ok () ∧ is_successful_task w (artifact_task a) = true)
      artifacts.
Proof.
  revert pages. induction artifacts as [|a artifacts IH]; intros pages; simpl.
  - intros [= <-]. done.
  - destruct (validate_page_artifact a) as [[]|] eqn:Hv; simpl; [|done].
    destruct (negb _); [done|]. destruct (is_successful_task _ _) eqn:Hs; simpl; [|done].
    destruct (check_artifacts j w artifacts) as [ps|] eqn:Hc; simpl; [|done].
    intros [= <-]. destruct (IH _ eq_refl) as [-> ?]. by split; [|constructor].
Qed.

Lemma artifact_batch_spec j w artifacts :
  validate_page_artifact_batch j w artifacts = Ok () →
  NoDup (artifact_page <$> artifacts)
  ∧ Forall (λ a, validate_page_artifact a = Ok () ∧ is_successful_task w (artifact_task a) = true)
      artifacts.
Proof.
  unfold validate_page_artifact_batch. destruct (64 <? _); [done|].
  destruct (check_artifacts j w artifacts) as [ps|] eqn:Hc; simpl; [|done].
  apply check_artifacts_spec in Hc as [-> Hall].
  destruct (any_adjacent _ _) eqn:Hd; [done|]. intros _. split; [|done].
  apply (any_adjacent_sort_by_key (λ page, page) Z.eqb) in Hd.
  - by rewrite list_fmap_id in Hd.
  - intros a b. apply Z.eqb_eq.
Qed.

(** ** What an operation does to the workflow tables *)

Definition row_decodes (row : WorkflowRow) : Prop :=
  ∃ w, workflow_ok w ∧ wr_checkpoint row = to_raw w
    ∧ stored_page_workflow js row = Ok (mkStoredPageWorkflow w (wr_revision row)).

Inductive workflow_effect (db db' : Db) : Prop :=
| workflows_unchanged :
    ocr_page_workflows db' = ocr_page_workflows db →
    ocr_page_artifacts db' = ocr_page_artifacts db → workflow_effect db db'
| workflow_created id row :
    ocr_page_workflows db !! id = None → row_decodes row → wr_revision row = 0 →
    ocr_page_workflows db' = <[id := row]> (ocr_page_workflows db) →
    ocr_page_artifacts db' = ocr_page_artifacts db → workflow_effect db db'
| workflow_saved id row row' :
    ocr_page_workflows db !! id = Some row → row_decodes row' →
    wr_revision row' = wr_revision row + 1 → wr_tenant_id row' = wr_tenant_id row →
    wr_product_id row' = wr_product_id row →
    ocr_page_workflows db' = <[id := row']> (ocr_page_workflows db) →
    ocr_page_artifacts db ⊆ ocr_page_artifacts db' →
    (∀ k a, ocr_page_artifacts db' !! k = Some a →
       ocr_page_artifacts db !! k = Some a
       ∨ k = (id, artifact_page (ar_artifact a))
         ∧ validate_page_artifact (ar_artifact a) = Ok ()) →
    workflow_effect db db'.

Lemma stored_page_workflow_of w t p rev stored :
  workflow_ok w →
  stored_page_workflow js (mkWorkflowRow t p rev (to_raw w)) = Ok stored →
  stored = mkStoredPageWorkflow w rev.
Proof.
  intros Hw. unfold stored_page_workflow. simpl. destruct (_ || _); [done|].
  rewrite (workflow_ok_try_from _ Hw). simpl. by intros [= <-].
Qed.

Lemma serialize_to_raw w c : serialize_page_workflow ss w = Ok c → c = to_raw w.
Proof. unfold serialize_page_workflow. destruct (_ || _); [done|]. by intros [= <-]. Qed.

Lemma select_workflow_Some t p j db row :
  select_workflow t p j db = Some row ↔
  ocr_page_workflows db !! JobId_str j = Some row
  ∧ wr_tenant_id row = TenantId_str t ∧ wr_product_id row = ProductId_str p.
Proof.
  unfold select_workflow. destruct (ocr_page_workflows db !! JobId_str j) as [r|]; [|naive_solver].
  destruct (in_scope _ _ _ _) eqn:Hs.
  - apply in_scope_spec in Hs. naive_solver.
  - split; [done|]. intros ([= ->] & Ht & Hp).
    rewrite (proj2 (in_scope_spec _ _ _ _) (conj Ht Hp)) in Hs. done.
Qed.

(** A successful save: the row it replaced, the row and the artifacts it wrote. *)
Lemma save_spec t p j rev w artifacts db stored db' :
  workflow_ok w →
  save_page_workflow_with_artifacts ss js t p j rev w artifacts db
    = Ok (SavePageWorkflowOutcome.Saved stored, db') →
  ∃ row table, select_workflow t p j db = Some row ∧ wr_revision row = rev
    ∧ stored = mkStoredPageWorkflow w (rev + 1)
    ∧ validate_page_artifact_batch j w artifacts = Ok ()
    ∧ insert_artifacts t p j artifacts (ocr_page_artifacts db) = Ok table
    ∧ (let row' := mkWorkflowRow (wr_tenant_id row) (wr_product_id row) (rev + 1) (to_raw w) in
       stored_page_workflow js row' = Ok stored
       ∧ db' = with_workflows (with_artifacts db table)
                 (<[JobId_str j := row']> (ocr_page_workflows db))).
Proof.
  intros Hw. unfold save_page_workflow_with_artifacts. destruct (_ || _); [done|].
  destruct (validate_page_artifact_batch j w artifacts) as [[]|] eqn:Hb; simpl; [|done].
  destruct (serialize_page_workflow ss w) as [c|] eqn:Hser; simpl; [|done].
  apply serialize_to_raw in Hser as ->.
  destruct (select_workflow t p j db) as [row|] eqn:Hsel; [|done].
  destruct (Z.eqb_spec (wr_revision row) rev) as [Hrev|]; simpl; [|done].
  set (inserted := if zlen artifacts =? 0 then _ else _).
  assert (Hins : ∀ db1, inserted = Ok db1 → ∃ table,
    insert_artifacts t p j artifacts (ocr_page_artifacts db) = Ok table
    ∧ db1 = with_artifacts db table).
  { intros db1. subst inserted. destruct (Z.eqb_spec (zlen artifacts) 0) as [Hz|].
    - intros [= <-]. exists (ocr_page_artifacts db). destruct artifacts; [|by rewrite zlen_cons in Hz;
        pose proof (zlen_nonneg artifacts); lia]. split; [done|]. by destruct db.
    - destruct (collect_results _ _); simpl; [|done].
      destruct (insert_artifacts _ _ _ _ _) as [table|]; simpl; [|done].
      intros [= <-]. by exists table. }
  destruct inserted as [db1|]; simpl; [|done]. destruct (Hins db1 eq_refl) as (table & Ht & ->).
  unfold update_workflow. change (select_workflow t p j (with_artifacts db table))
    with (select_workflow t p j db). rewrite Hsel, (proj2 (Z.eqb_eq _ _) Hrev).
  destruct (stored_page_workflow js _) as [st|] eqn:Hst; simpl; [|done]. intros [= <- <-].
  rewrite Hrev in Hst. pose proof (stored_page_workflow_of _ _ _ _ _ Hw Hst) as Heq.
  exists row, table. rewrite Hrev. split_and!; done.
Qed.

Definition same_workflows (db db' : Db) : Prop :=
  ocr_page_workflows db' = ocr_page_workflows db ∧ ocr_page_artifacts db' = ocr_page_artifacts db.

Lemma update_job_status_workflows t p j from s db row db' :
  update_job_status t p j from s db = Some (row, db') → same_workflows db db'.
Proof. intros (old & _ & _ & _ & ->)%update_job_status_Some. done. Qed.

Lemma commit_result_workflows now t p j c db :
  same_workflows db (db_after (commit_result now t p j c) db).
Proof.
  unfold db_after, commit_result, update_job_status, insert_result, same_workflows, and_then, ok_or.
  repeat (simpl; case_match; simplify_eq/=); done.
Qed.

Ltac frame_workflows :=
  unfold db_after, same_workflows, and_then, ok_or, set_work_scope_pending, register_work_scope,
    put_upload, insert_upload_outbox, with_uploads, with_outbox, with_scopes,
    update_job_status;
  repeat (simpl; case_match; simplify_eq/=); done.

Lemma other_ops_workflows op db :
  match op with
  | OpCreatePageWorkflow _ _ _ _ | OpSavePageWorkflow _ _ _ _ _ _ => True
  | _ => same_workflows db (apply_op ss js op db)
  end.
Proof.
  destruct op; simpl; try done.
  - unfold create, insert_job. frame_workflows.
  - unfold cancel. frame_workflows.
  - unfold complete_cancellation. frame_workflows.
  - apply commit_result_workflows.
  - unfold create_upload, insert_upload. frame_workflows.
  - unfold record_uploaded. frame_workflows.
  - unfold claim_upload_inspection. frame_workflows.
  - unfold accept_upload. frame_workflows.
  - unfold reject_upload. frame_workflows.
  - unfold claim_job_outbox. frame_workflows.
  - unfold claim_webhook_outbox. frame_workflows.
  - unfold publish_job_outbox. frame_workflows.
  - unfold claim_work_scopes. frame_workflows.
  - unfold release_work_scope, ocr_release_work_scope. frame_workflows.
Qed.

Lemma insert_workflow_Some t p j c cancelled db row db' :
  insert_workflow t p j c cancelled db = Some (row, db') →
  ocr_page_workflows db !! JobId_str j = None
  ∧ row = mkWorkflowRow (TenantId_str t) (ProductId_str p) 0 c
  ∧ db' = with_workflows db (<[JobId_str j := row]> (ocr_page_workflows db)).
Proof.
  unfold insert_workflow. destruct (select_job _ _ _ _); [|done]. destruct (_ || _); [|done].
  destruct (ocr_page_workflows db !! _) eqn:Hw; [done|]. by intros [= <- <-].
Qed.

Lemma create_page_workflow_workflows t p j w db :
  workflow_ok w → workflow_effect db (db_after (create_page_workflow ss js t p j w) db).
Proof.
  intros Hw. unfold db_after, create_page_workflow. destruct (negb _); [by apply workflows_unchanged|].
  destruct (serialize_page_workflow ss w) as [c|] eqn:Hser; simpl; [|by apply workflows_unchanged].
  apply serialize_to_raw in Hser as ->.
  destruct (insert_workflow _ _ _ _ _ _) as [[row db']|] eqn:Hi.
  - apply insert_workflow_Some in Hi as (Hnone & -> & ->).
    destruct (stored_page_workflow js _) as [stored|] eqn:Hst; simpl;
      [|by apply workflows_unchanged].
    pose proof (stored_page_workflow_of _ _ _ _ _ Hw Hst) as ->.
    assert (Hdec : row_decodes (mkWorkflowRow (TenantId_str t) (ProductId_str p) 0 (to_raw w)))
      by by exists w.
    destruct (bool_decide _); [by eapply (workflow_created _ _ (JobId_str j))|].
    destruct (update_job_status _ _ _ _ _ _) as [[row' db']|] eqn:Hu; simpl;
      [|by apply workflows_unchanged].
    apply update_job_status_workflows in Hu as [Hu1 Hu2].
    by eapply (workflow_created _ _ (JobId_str j)).
  - destruct (load_page_workflow_row _ _ _ _ _); simpl; by apply workflows_unchanged.
Qed.

(** Only a successful save changes anything. *)
Lemma save_unchanged t p j rev w artifacts db out db' :
  save_page_workflow_with_artifacts ss js t p j rev w artifacts db = Ok (out, db') →
  (∀ stored, out ≠ SavePageWorkflowOutcome.Saved stored) → db' = db.
Proof.
  unfold save_page_workflow_with_artifacts, and_then, ok_or. intros Hc Hout.
  repeat (simpl in Hc; case_match; simplify_eq/=); first [done | by edestruct Hout].
Qed.

Lemma save_workflows t p j rev w artifacts db :
  workflow_ok w →
  workflow_effect db (db_after (save_page_workflow_with_artifacts ss js t p j rev w artifacts) db).
Proof.
  intros Hw. unfold db_after.
  destruct (save_page_workflow_with_artifacts ss js t p j rev w artifacts db)
    as [[out db']|] eqn:Hs; [|by apply workflows_unchanged].
  destruct out as [stored| |].
  - apply save_spec in Hs as (row & table & Hsel & Hrev & -> & Hb & Ht & Hst & ->); [|done].
    apply select_workflow_Some in Hsel as (Hl & _ & _).
    apply insert_artifacts_spec in Ht as (Hsub & Hin & Hfrom).
    eapply (workflow_saved _ _ (JobId_str j) row
      (mkWorkflowRow (wr_tenant_id row) (wr_product_id row) (rev + 1) (to_raw w))); simpl; try done.
    + by exists w.
    + by rewrite Hrev.
    + intros k a Hk. destruct (Hfrom k a Hk) as [|(b & Hb' & -> & ->)]; [by left|right].
      split; [done|]. apply artifact_batch_spec in Hb as [_ Hall].
      rewrite Forall_forall in Hall. by apply Hall.
  - apply save_unchanged in Hs as ->; [by apply workflows_unchanged|done].
  - apply save_unchanged in Hs as ->; [by apply workflows_unchanged|done].
Qed.

Lemma apply_op_workflow_effect op db :
  op_valid op → workflow_effect db (apply_op ss js op db).
Proof.
  intros Hop. pose proof (other_ops_workflows op db) as Hsame.
  destruct op; try (destruct Hsame; by apply workflows_unchanged).
  - by apply create_page_workflow_workflows.
  - by apply save_workflows.
Qed.

(** ** The invariant and the life of one row *)

Record pages_table_ok (db : Db) : Prop := {
  workflows_decode : ∀ id row, ocr_page_workflows db !! id = Some row → row_decodes row;
  artifacts_ok : ∀ id page a, ocr_page_artifacts db !! (id, page) = Some a →
    artifact_page (ar_artifact a) = page ∧ validate_page_artifact (ar_artifact a) = Ok ();
}.

Lemma workflow_effect_ok db db' : pages_table_ok db → workflow_effect db db' → pages_table_ok db'.
Proof.
  intros [H1 H2] [Hw Ha|id row Hnew Hdec Hrev Hw Ha
                 |id row row' Hl Hdec Hrev Ht Hp Hw Hsub Hfrom]; split; rewrite ?Hw, ?Ha; try done.
  - intros i r [[<- <-]|[_ Hi]]%lookup_insert_Some; [done|by eapply H1].
  - intros i r [[<- <-]|[_ Hi]]%lookup_insert_Some; [done|by eapply H1].
  - intros i pg a Hk. destruct (Hfrom _ _ Hk) as [Hold|[[= -> ->] Hv]]; [by eapply H2|done].
Qed.

Lemma workflow_effect_row db db' id row :
  workflow_effect db db' → ocr_page_workflows db !! id = Some row →
  ∃ row', ocr_page_workflows db' !! id = Some row' ∧ wr_tenant_id row' = wr_tenant_id row
    ∧ wr_product_id row' = wr_product_id row ∧ wr_revision row ≤ wr_revision row'
    ∧ (wr_revision row' = wr_revision row → row' = row).
Proof.
  intros [Hw Ha|i r Hnew Hdec Hrev Hw Ha|i r r' Hl Hdec Hrev Ht Hp Hw Hsub Hfrom] Hi; rewrite Hw.
  - exists row. by split_and!.
  - exists row. rewrite lookup_insert_ne by congruence. by split_and!.
  - destruct (decide (id = i)) as [<-|Hne].
    + exists r'. rewrite lookup_insert_eq. simplify_eq. split_and!; try done; lia.
    + exists row. rewrite lookup_insert_ne by congruence. by split_and!.
Qed.

Lemma run_ops_workflow ops db id row :
  Forall op_valid ops → ocr_page_workflows db !! id = Some row →
  ∃ row', ocr_page_workflows (run_ops ss js ops db) !! id = Some row'
    ∧ wr_tenant_id row' = wr_tenant_id row ∧ wr_product_id row' = wr_product_id row
    ∧ wr_revision row ≤ wr_revision row' ∧ (wr_revision row' = wr_revision row → row' = row).
Proof.
  intros Hops. revert db row. induction Hops as [|op ops Hop Hops IH]; intros db row Hl.
  - exists row. by split_and!.
  - change (run_ops ss js (op :: ops) db) with (run_ops ss js ops (apply_op ss js op db)).
    destruct (workflow_effect_row _ _ _ _ (apply_op_workflow_effect op db Hop) Hl)
      as (row1 & Hl1 & Ht1 & Hp1 & Hle1 & Heq1).
    destruct (IH _ _ Hl1) as (row2 & Hl2 & Ht2 & Hp2 & Hle2 & Heq2).
    exists row2. split_and!; [done|congruence|congruence|lia|].
    intros Heq. rewrite Heq2 by lia. apply Heq1. lia.
Qed.

Lemma run_ops_pages_ok ops db :
  Forall op_valid ops → pages_table_ok db → pages_table_ok (run_ops ss js ops db).
Proof.
  apply run_ops_ind. intros op db' Hop Hok. eapply workflow_effect_ok; [done|].
  by apply apply_op_workflow_effect.
Qed.

Lemma reachable_pages_ok db : reachable ss js db → pages_table_ok db.
Proof.
  intros (ops & Hops & ->). apply run_ops_pages_ok; [done|].
  split; simpl; intros *; by rewrite lookup_empty.
Qed.

Lemma run_ops_artifacts ops db :
  Forall op_valid ops → ocr_page_artifacts db ⊆ ocr_page_artifacts (run_ops ss js ops db).
Proof.
  intros Hops. revert db. induction Hops as [|op ops Hop Hops IH]; intros db; [done|].
  change (run_ops ss js (op :: ops) db) with (run_ops ss js ops (apply_op ss js op db)).
  etrans; [|apply IH]. destruct (apply_op_workflow_effect op db Hop) as [Hw Ha| |]; [by rewrite Ha| |done].
  match goal with H : ocr_page_artifacts _ = ocr_page_artifacts db |- _ => by rewrite H end.
Qed.

(** A reachable workflow row loads. *)
Lemma load_decodes db t p j row :
  pages_table_ok db → select_workflow t p j db = Some row →
  ∃ w, workflow_ok w ∧ wr_checkpoint row = to_raw w
    ∧ load_page_workflow js t p j db = Ok (Some (mkStoredPageWorkflow w (wr_revision row))).
Proof.
  intros Hok Hsel. pose proof Hsel as (Hl & _ & _)%select_workflow_Some.
  destruct (workflows_decode _ Hok _ _ Hl) as (w & Hw & Hc & Hst). exists w. split_and!; try done.
  unfold load_page_workflow, load_page_workflow_row. rewrite Hsel, Hst. done.
Qed.

(** ** Theorems *)

(** C2: no saved revision of a page workflow is ever lost.  A save that succeeds stores
    its workflow under the next revision, which loads back exactly; and whatever
    operations follow, the workflow still loads, with at least that revision (and with
    that very workflow as long as the revision is the same), while every other save that
    expects the old revision or an earlier one fails without changing anything. *)
Theorem saved_revision_never_lost db t p j rev w artifacts stored db1 ops rev' w' artifacts' :
  reachable ss js db → workflow_ok w → Forall op_valid ops →
  save_page_workflow_with_artifacts ss js t p j rev w artifacts db
    = Ok (SavePageWorkflowOutcome.Saved stored, db1) →
  let db2 := run_ops ss js ops db1 in
  stored = mkStoredPageWorkflow w (rev + 1)
  ∧ load_page_workflow js t p j db1 = Ok (Some stored)
  ∧ (∃ later, load_page_workflow js t p j db2 = Ok (Some later)
       ∧ rev + 1 ≤ revision later ∧ (revision later = rev + 1 → later = stored))
  ∧ (rev' ≤ rev →
     let again := save_page_workflow_with_artifacts ss js t p j rev' w' artifacts' db2 in
     again = Ok (SavePageWorkflowOutcome.Conflict, db2) ∨ is_ok again = false).
Proof.
  intros Hreach%reachable_pages_ok Hw Hops Hsave db2.
  assert (Hok1 : pages_table_ok db1).
  { assert (db1 = apply_op ss js (OpSavePageWorkflow t p j rev w artifacts) db) as ->
      by by simpl; unfold db_after; rewrite Hsave.
    eapply workflow_effect_ok; [done|]. by apply apply_op_workflow_effect. }
  apply save_spec in Hsave as (row & table & Hsel & Hrev & -> & Hb & Ht & Hst & ->); [|done].
  set (row1 := mkWorkflowRow _ _ _ _) in *. cbv zeta in Hst.
  apply select_workflow_Some in Hsel as (Hl & Hten & Hprod).
  set (db1 := with_workflows _ _) in *.
  assert (Hl1 : ocr_page_workflows db1 !! JobId_str j = Some row1) by apply lookup_insert_eq.
  assert (Hsel1 : select_workflow t p j db1 = Some row1) by by apply select_workflow_Some.
  destruct (run_ops_workflow ops db1 _ _ Hops Hl1) as (row2 & Hl2 & Ht2 & Hp2 & Hle & Heq).
  fold db2 in Hl2. simpl in Hle, Ht2, Hp2.
  assert (Hsel2 : select_workflow t p j db2 = Some row2).
  { apply select_workflow_Some. split_and!; congruence. }
  assert (Hload1 : load_page_workflow js t p j db1 = Ok (Some (mkStoredPageWorkflow w (rev + 1)))).
  { unfold load_page_workflow, load_page_workflow_row. by rewrite Hsel1, Hst. }
  split_and!; [done|done| |].
  - destruct (load_decodes db2 t p j row2 (run_ops_pages_ok ops db1 Hops Hok1) Hsel2)
      as (w2 & _ & Hc2 & Hload2).
    exists (mkStoredPageWorkflow w2 (wr_revision row2)). split_and!; [done|done|].
    simpl. intros Hr. rewrite Heq in Hload2 |- * by done. simpl in Hload2.
    rewrite Heq in Hc2 by done. simpl in Hc2. f_equal.
    destruct w, w2. unfold to_raw in Hc2. simpl in Hc2. by injection Hc2 as <- <- <- <-.
  - intros Hle' again. subst again. unfold save_page_workflow_with_artifacts.
    destruct (_ || _); [by right|]. destruct (validate_page_artifact_batch j w' artifacts'); simpl; [|by right].
    destruct (serialize_page_workflow ss w'); simpl; [|by right]. rewrite Hsel2.
    destruct (Z.eqb_spec (wr_revision row2) rev') as [|]; simpl; [lia|by left].
Qed.

(** C28: the artifacts of completed pages are committed with the workflow revision that
    completes them: after a successful save every artifact of its batch belongs to a
    distinct page that the saved workflow records as successful, and it stays in the
    table unchanged for ever, as do all the artifacts saved before. *)
Theorem artifacts_committed_with_revision db t p j rev w artifacts stored db1 ops :
  reachable ss js db → workflow_ok w → Forall op_valid ops →
  save_page_workflow_with_artifacts ss js t p j rev w artifacts db
    = Ok (SavePageWorkflowOutcome.Saved stored, db1) →
  NoDup (artifact_page <$> artifacts)
  ∧ (∀ a, a ∈ artifacts →
       is_successful_task w (artifact_task a) = true
       ∧ ocr_page_artifacts (run_ops ss js ops db1) !! (JobId_str j, artifact_page a)
         = Some (artifact_row t p a)
       ∧ stored_page_artifact (artifact_row t p a) = Ok a)
  ∧ ocr_page_artifacts db ⊆ ocr_page_artifacts (run_ops ss js ops db1)
  ∧ ocr_page_workflows db1 !! JobId_str j ≠ None.
Proof.
  intros Hreach Hw Hops Hsave.
  apply save_spec in Hsave as (row & table & Hsel & Hrev & -> & Hb & Ht & Hst & ->); [|done].
  apply artifact_batch_spec in Hb as [Hnd Hall]. rewrite Forall_forall in Hall.
  apply insert_artifacts_spec in Ht as (Hsub & Hin & _).
  set (db1 := with_workflows _ _).
  assert (Hsub1 := run_ops_artifacts ops db1 Hops). split_and!; [done| | |].
  - intros a Ha. destruct (Hall a Ha) as [Hv Hs]. split_and!; [done| |].
    + eapply lookup_weaken; [|exact Hsub1]. by apply Hin.
    + unfold stored_page_artifact. simpl. pose proof Hv as Hv'.
      unfold validate_page_artifact in Hv'. destruct (_ || _) eqn:Hbad in Hv'; [done|]. boolify.
      assert (1 ≤ artifact_page a ≤ MAXIMUM_PAGE_COUNT ∧ 1 ≤ artifact_attempt a ≤ 10) by tauto.
      unfold MAXIMUM_PAGE_COUNT in *.
      rewrite (proj2 (checked_Some u32_max _ _)) by (split; [done|unfold in_width, u32_max; lia]).
      rewrite (proj2 (checked_Some u8_max _ _)) by (split; [done|unfold in_width, u8_max; lia]).
      simpl. by rewrite Hv.
  - by etrans.
  - simpl. by rewrite lookup_insert_eq.
Qed.
End Facts.

(** ** Witnesses *)

Definition sample_done_workflow : PageWorkflow :=
  {| workflow_job_id := sample_job; max_attempts := 3; pages := [PageProgress.Succeeded 1];
     cancelled := false |}.

Definition sample_artifact : StoredPageArtifact :=
  {| artifact_page := 1; artifact_attempt := 1;
     artifact_activity_key := "ocr-job-job_1-page-1-attempt-1"; artifact_object_bucket := "pages";
     artifact_object_name := "page-1"; artifact_object_version := "1";
     artifact_object_digest := sample_digest; artifact_content_length := 7 |}.

Lemma sample_done_ok : workflow_ok sample_done_workflow.
Proof. split; [vm_compute; split; congruence..|]. repeat constructor; simpl; lia. Qed.

#[local] Notation sample_save := (save_page_workflow_with_artifacts sample_size sample_size
  sample_tenant sample_product sample_job 0 sample_done_workflow [sample_artifact]).

Lemma sample_save_saved :
  ∃ db1, sample_save (sample_db sample_processing_ops)
    = Ok (SavePageWorkflowOutcome.Saved (mkStoredPageWorkflow sample_done_workflow 1), db1).
Proof.
  destruct (sample_save (sample_db sample_processing_ops)) as [[out db1]|e] eqn:Hs;
    [|exfalso; revert Hs; vm_compute; discriminate].
  exists db1. assert (H : result_ok (sample_save (sample_db sample_processing_ops)) = Some (out, db1))
    by by rewrite Hs.
  apply (f_equal (fmap fst)) in H. vm_compute in H. by injection H as <-.
Qed.

Theorem saved_revision_never_lost_witness :
  ∃ db1, load_page_workflow sample_size sample_tenant sample_product sample_job db1
    = Ok (Some (mkStoredPageWorkflow sample_done_workflow 1)).
Proof.
  destruct sample_save_saved as [db1 Hs]. exists db1.
  destruct (saved_revision_never_lost sample_size sample_size (sample_db sample_processing_ops)
    sample_tenant sample_product sample_job 0 sample_done_workflow [sample_artifact] _ db1 [] 0
    sample_done_workflow [] sample_processing_reachable sample_done_ok (Forall_nil_2 _) Hs)
    as (_ & Hload & _). exact Hload.
Defined.

Theorem artifacts_committed_with_revision_witness :
  ∃ db1, ocr_page_artifacts db1 !! ("job_1", 1)
    = Some (artifact_row sample_tenant sample_product sample_artifact).
Proof.
  destruct sample_save_saved as [db1 Hs]. exists db1.
  destruct (artifacts_committed_with_revision sample_size sample_size (sample_db sample_processing_ops)
    sample_tenant sample_product sample_job 0 sample_done_workflow [sample_artifact] _ db1 []
    sample_processing_reachable sample_done_ok (Forall_nil_2 _) Hs) as (_ & Hin & _).
  destruct (Hin sample_artifact ltac:(left)) as (_ & Hl & _). exact Hl.
Defined.
