(* ===== verification/StoreUploadsFacts.v ===== *)
(** * StoreUploadsFacts: the upload life cycle

    The invariant of the upload table over every reachable database, and the theorems
    on the upload state machine, inspection leases, accepted sources and the pending
    flag of work scopes. *)

From S2P Require Import Prelude Text DomainTypes Identifiers Geometry PageWorkflow StoreTypes.
From S2P Require Import StoreChecks StoreDb StoreJobs StorePages StoreUploads StoreOutbox.
From S2P Require Import StoreRun StoreJobsFacts.

#[local] Open Scope list_scope.
#[local] Open Scope Z_scope.

#[local] Arguments valid_page_geometries : simpl never.
#[local] Arguments contains : simpl never.

(** ** Geometries *)

Definition geometry_area (g : PageGeometry) : Z := geometry_width g * geometry_height g.
Definition sum_areas (gs : list PageGeometry) : Z := foldr (λ g acc, geometry_area g + acc) 0 gs.
Definition max_area (gs : list PageGeometry) : Z := foldr (λ g acc, Z.max (geometry_area g) acc) 0 gs.

(** Pages numbered from [index + 1]. *)
Fixpoint numbered_from (index : Z) (gs : list PageGeometry) : Prop :=
  match gs with
  | [] => True
  | g :: rest => PageNumber_value (geometry_page g) = index + 1 ∧ numbered_from (index + 1) rest
  end.

Lemma geometry_valid_pixels g : geometry_valid g →
  PageGeometry_pixels g = geometry_area g ∧ 1 ≤ geometry_area g ≤ 100000000.
Proof. intros [Hok _]. apply geometry_ok_pixels in Hok as [Hp Hb]. rewrite Hp in Hb. done. Qed.

(** The loop computes the true maximum and the true sum: it never overflows. *)
Lemma geometries_match_true gs index maximum total m t :
  Forall geometry_valid gs → 0 ≤ index → 0 ≤ maximum → 0 ≤ total →
  index + zlen gs ≤ 1000 → total + 100000000 * zlen gs ≤ u64_max →
  geometries_match index maximum total gs m t = true ↔
  numbered_from index gs ∧ m = Z.max maximum (max_area gs) ∧ t = total + sum_areas gs.
Proof.
  intros Hall. revert index maximum total.
  induction Hall as [|g gs Hg Hall IH]; intros index maximum total Hi Hmx Htot Hlen Hfit; simpl.
  - rewrite andb_true_iff, !Z.eqb_eq. lia.
  - rewrite zlen_cons in Hlen, Hfit. pose proof (zlen_nonneg gs).
    destruct (geometry_valid_pixels g Hg) as [Hp Hb]. rewrite Hp.
    rewrite (proj2 (checked_Some u32_max _ _))
      by (split; [done|unfold in_width, u32_max; lia]).
    destruct (Z.eqb_spec (PageNumber_value (geometry_page g)) (index + 1)) as [He|Hne]; simpl;
      [|naive_solver].
    unfold checked_add. rewrite (proj2 (checked_Some u64_max _ _))
      by (split; [done|unfold in_width; lia]).
    rewrite IH by lia. rewrite Z.max_assoc, Z.add_assoc. naive_solver.
Qed.

Lemma valid_page_geometries_true gs count m t :
  Forall geometry_valid gs → zlen gs ≤ 1000 →
  valid_page_geometries gs count m t = true ↔
  zlen gs = count ∧ numbered_from 0 gs ∧ m = max_area gs ∧ t = sum_areas gs.
Proof.
  intros Hall Hlen. unfold valid_page_geometries. pose proof (zlen_nonneg gs).
  assert (Hmax : 0 ≤ max_area gs) by (clear; induction gs; simpl; lia).
  destruct (Z.eqb_spec (zlen gs) count); simpl; [|naive_solver].
  rewrite geometries_match_true by (try done; try lia; unfold u64_max; lia).
  rewrite Z.max_r by done. rewrite Z.add_0_l. naive_solver.
Qed.

Lemma decode_geometry_valid g : geometry_valid g → decode_geometry g = Ok g.
Proof.
  intros [(Hw & Hh & pg & w & h & Hw' & Hh' & Hn) Hp]. unfold decode_geometry, PageNumber_new.
  rewrite (proj2 (Z.eqb_neq _ _) Hp). simpl.
  pose proof Hn as Hn'. apply PageGeometry_new_Ok in Hn' as [-> _]; [|done..].
  simpl. by destruct pg.
Qed.

Lemma decode_geometries_valid gs : Forall geometry_valid gs → decode_geometries gs = Ok gs.
Proof.
  intros Hall. unfold decode_geometries.
  rewrite (proj2 (collect_results_Ok _ _ gs)); [done|].
  induction Hall; constructor; [by apply decode_geometry_valid|done].
Qed.

(** ** The invariant of an upload row *)

(** The tests of [validate_upload] that do not depend on the status. *)
Definition static_ok (row : UploadRow) : Prop :=
  is_empty (ur_object_bucket row) = false ∧ is_empty (ur_object_name row) = false
  ∧ 1 ≤ ur_expected_content_length row ≤ 104857600
  ∧ valid_digest (ur_expected_digest row) = true
  ∧ valid_content_type (ur_expected_content_type row) = true
  ∧ ur_created_at row < ur_expires_at row.

(** The object the client uploaded is the one it announced. *)
Definition verified_ok (row : UploadRow) : Prop :=
  is_Some (ur_object_version row) ∧ is_Some (ur_uploaded_at row)
  ∧ ur_verified_content_type row = Some (ur_expected_content_type row)
  ∧ ur_verified_content_length row = Some (ur_expected_content_length row)
  ∧ ur_verified_digest row = Some (ur_expected_digest row).

Definition no_lease (row : UploadRow) : Prop :=
  ur_inspection_lease_owner row = None ∧ ur_inspection_lease_expires_at row = None.

(** The source of an accepted upload: the verified bytes, with checked page geometry. *)
Definition source_ok (row : UploadRow) : Prop :=
  ∃ source, stored_accepted_source row = Ok source
    ∧ as_digest source = ur_expected_digest row
    ∧ as_content_length source = ur_expected_content_length row
    ∧ as_content_type source = ur_expected_content_type row
    ∧ 1 ≤ as_page_count source ≤ MAXIMUM_PAGE_COUNT
    ∧ zlen (as_page_geometries source) = as_page_count source
    ∧ numbered_from 0 (as_page_geometries source)
    ∧ Forall geometry_valid (as_page_geometries source)
    ∧ as_maximum_page_pixels source = max_area (as_page_geometries source)
    ∧ as_total_page_pixels source = sum_areas (as_page_geometries source).

Definition state_ok (s : UploadState.UploadState) (row : UploadRow) : Prop :=
  match s with
  | UploadState.Reserved =>
      ur_object_version row = None ∧ ur_uploaded_at row = None
      ∧ ur_inspection_attempts row = 0 ∧ no_lease row
  | UploadState.Uploaded => verified_ok row ∧ ur_inspection_attempts row = 0 ∧ no_lease row
  | UploadState.Inspecting =>
      verified_ok row ∧ 1 ≤ ur_inspection_attempts row ≤ MAXIMUM_INSPECTION_ATTEMPTS
      ∧ is_Some (ur_inspection_lease_owner row) ∧ is_Some (ur_inspection_lease_expires_at row)
  | UploadState.Accepted => verified_ok row ∧ no_lease row ∧ source_ok row
      ∧ 1 ≤ ur_inspection_attempts row ≤ MAXIMUM_INSPECTION_ATTEMPTS
  | UploadState.Rejected => verified_ok row ∧ no_lease row ∧ is_Some (ur_rejection_reason row)
      ∧ 1 ≤ ur_inspection_attempts row ≤ MAXIMUM_INSPECTION_ATTEMPTS
  | UploadState.Expired => False
  end.

(** The columns that identify a scope hold valid identifiers. *)
Definition valid_scope (product tenant : string) : Prop :=
  is_ok (ProductId_new product) = true ∧ is_ok (TenantId_new tenant) = true.

Record upload_row_ok (id : string) (row : UploadRow) : Prop := {
  upload_id_ok : is_ok (UploadId_new id) = true;
  upload_scope_ok : valid_scope (ur_product_id row) (ur_tenant_id row);
  upload_static_ok : static_ok row;
  upload_state_ok : ∃ s, ur_status row = upload_state_text s ∧ state_ok s row;
}.

Lemma upload_state_text_inj s s' : upload_state_text s = upload_state_text s' → s = s'.
Proof. destruct s, s'; simpl; congruence. Qed.

Lemma state_ok_static s row : state_ok s row → s ≠ UploadState.Reserved → verified_ok row.
Proof. destruct s; simpl; tauto. Qed.

(** The row a status transition writes keeps the columns fixed at upload. *)
Lemma static_set_inspection row status attempts o e r s p :
  static_ok (set_inspection row status attempts o e r s p) ↔ static_ok row.
Proof. done. Qed.

Lemma verified_set_inspection row status attempts o e r s p :
  verified_ok (set_inspection row status attempts o e r s p) ↔ verified_ok row.
Proof. done. Qed.

(** [validate_accepted_source] as propositions. *)
Lemma validate_accepted_source_Ok src :
  Forall geometry_valid (pi_page_geometries (parser_inspection src)) →
  validate_accepted_source src = Ok () →
  let i := parser_inspection src in
  contains 3 222 (strlen (source_bucket src)) = true
  ∧ is_empty (source_object_name src) = false ∧ strlen (source_object_name src) ≤ 1024
  ∧ valid_object_version (source_object_version src) = true
  ∧ 1 ≤ source_content_length src ≤ 104857600
  ∧ valid_digest (source_digest src) = true
  ∧ 1 ≤ pi_page_count i ≤ MAXIMUM_PAGE_COUNT
  ∧ 1 ≤ pi_maximum_page_pixels i ≤ 100000000
  ∧ pi_maximum_page_pixels i ≤ pi_total_page_pixels i ≤ MAXIMUM_TOTAL_PAGE_PIXELS
  ∧ valid_page_geometries (pi_page_geometries i) (pi_page_count i) (pi_maximum_page_pixels i)
      (pi_total_page_pixels i) = true
  ∧ is_valid_parser_identifier (pi_profile i) = true
  ∧ is_valid_parser_identifier (pi_version i) = true.
Proof.
  intros Hall. unfold validate_accepted_source.
  destruct (checked u32_max _) as [c|] eqn:Hc; simpl; [|done]. apply checked_Some in Hc as [-> _].
  destruct (checked u64_max (pi_maximum_page_pixels _)) as [m|] eqn:Hm; simpl; [|done].
  apply checked_Some in Hm as [-> _].
  destruct (checked u64_max (pi_total_page_pixels _)) as [t|] eqn:Ht; simpl; [|done].
  apply checked_Some in Ht as [-> _].
  destruct (_ || _) eqn:Hbad; [done|]. intros _.
  rewrite !orb_false_iff, !negb_false_iff, Z.ltb_ge, !contains_true in Hbad.
  rewrite contains_true. tauto.
Qed.

Lemma accepted_source_decodes row src :
  static_ok row → Forall geometry_valid (pi_page_geometries (parser_inspection src)) →
  validate_accepted_source src = Ok () →
  ur_source row = Some (source_bucket src, source_object_name src, source_object_version src,
                        source_digest src, source_content_length src) →
  ur_parser row = Some (parser_inspection src) →
  source_digest src = ur_expected_digest row →
  source_content_length src = ur_expected_content_length row →
  source_ok row.
Proof.
  intros Hst Hall Hv Hs Hp Hd Hl. apply validate_accepted_source_Ok in Hv; [|done].
  destruct Hv as (Hb & Hn & Hnl & Hov & Hcl & Hdig & Hpc & Hmx & Htot & Hgeo & Hprof & Hver).
  destruct Hst as (_ & _ & _ & _ & Hct & _).
  pose proof Hgeo as Hgeo'. unfold valid_page_geometries in Hgeo'.
  destruct (Z.eqb_spec (zlen (pi_page_geometries (parser_inspection src)))
    (pi_page_count (parser_inspection src))) as [Hzl|]; [clear Hgeo'|done].
  unfold MAXIMUM_PAGE_COUNT in *.
  destruct (proj1 (valid_page_geometries_true _ _ _ _ Hall ltac:(lia)) Hgeo)
    as (Hcount & Hnum & Hm & Ht).
  unfold source_ok, stored_accepted_source. rewrite Hs. simpl. rewrite Hp. simpl.
  unfold MAXIMUM_TOTAL_PAGE_PIXELS, MAXIMUM_PAGE_COUNT in *.
  rewrite (proj2 (checked_Some u32_max _ _)) by (split; [reflexivity|unfold in_width, u32_max; lia]).
  rewrite !(proj2 (checked_Some u64_max _ _)) by (split; [reflexivity|unfold in_width, u64_max; lia]).
  simpl. rewrite decode_geometries_valid by done. simpl.
  unfold validate_accepted_source_locator. simpl.
  rewrite Hb, Hn, Hov, Hdig, Hct, Hgeo, Hprof, Hver. simpl.
  rewrite (proj2 (Z.ltb_ge _ _) Hnl), !(proj2 (contains_true _ _ _))
    by (unfold MAXIMUM_TOTAL_PAGE_PIXELS, MAXIMUM_PAGE_COUNT; lia).
  simpl. eexists. split; [done|]. simpl. split_and!; try done; lia.
Qed.

Lemma stored_upload_ok id row s :
  is_ok (UploadId_new id) = true → static_ok row → ur_status row = upload_state_text s →
  state_ok s row → ∃ u, stored_upload id row = Ok u ∧ su_state u = s.
Proof.
  intros [u Hu]%is_ok_true (Hb & Hn & Hl & Hd & Hc & He) Hs Hst. unfold stored_upload.
  rewrite Hu. simpl. rewrite Hs, parse_upload_state_text. simpl. unfold validate_upload. simpl.
  rewrite Hb, Hn, (proj2 (contains_true _ _ _)), Hd, Hc by done. simpl.
  rewrite (proj2 (Z.leb_gt _ _) He). simpl.
  assert (verification_shape_is_valid (mkStoredUpload u s (ur_object_bucket row)
    (ur_object_name row) (ur_expected_content_type row) (ur_expected_content_length row)
    (ur_expected_digest row) (ur_expires_at row) (ur_created_at row) (ur_object_version row)
    (ur_uploaded_at row)) = true) as ->.
  { unfold verification_shape_is_valid. simpl. destruct s; simpl in Hst;
      try (destruct Hst as ([[v ->] [[t ->] _]] & _); done).
    - destruct Hst as (-> & -> & _). done.
    - done. }
  simpl. eexists. by split.
Qed.

(** What [stored_upload] checked of a row just reserved. *)
Lemma stored_upload_static id row u :
  stored_upload id row = Ok u → is_ok (UploadId_new id) = true ∧ static_ok row.
Proof.
  unfold stored_upload. destruct (UploadId_new id); simpl; [|done].
  destruct (parse_upload_state _); simpl; [|done]. unfold validate_upload. simpl.
  destruct (_ || _) eqn:Hbad; simpl; [done|]. intros _. split; [done|].
  rewrite !orb_false_iff, !negb_false_iff, contains_true, Z.leb_gt in Hbad.
  unfold static_ok. tauto.
Qed.

(** ** What an operation does to the upload table *)

Definition upload_next (s s' : UploadState.UploadState) : Prop :=
  match s, s' with
  | UploadState.Reserved, UploadState.Uploaded
  | UploadState.Uploaded, UploadState.Inspecting
  | UploadState.Inspecting, UploadState.Inspecting
  | UploadState.Inspecting, UploadState.Accepted
  | UploadState.Inspecting, UploadState.Rejected => True
  | _, _ => False
  end.

(** The columns a reservation fixes. *)
Definition reservation (row : UploadRow) :=
  (ur_tenant_id row, ur_product_id row, ur_idempotency_key row, ur_request_digest row,
   (ur_object_bucket row, ur_object_name row, ur_expected_content_type row,
    ur_expected_content_length row, ur_expected_digest row, ur_expires_at row,
    ur_created_at row)).

(** The columns of [unique (product_id, tenant_id, idempotency_key)]. *)
Definition has_upload_key (row : UploadRow) (product tenant key : string) : Prop :=
  ur_product_id row = product ∧ ur_tenant_id row = tenant ∧ ur_idempotency_key row = key.

Lemma has_upload_key_spec row product tenant key :
  String.eqb (ur_product_id row) product && String.eqb (ur_tenant_id row) tenant
  && String.eqb (ur_idempotency_key row) key = true ↔ has_upload_key row product tenant key.
Proof. unfold has_upload_key. rewrite !andb_true_iff, !String.eqb_eq. tauto. Qed.

Lemma upload_by_key_Some product tenant key db id row :
  upload_by_key product tenant key db = Some (id, row) →
  ocr_uploads db !! id = Some row ∧ has_upload_key row product tenant key.
Proof.
  intros [Hin Hk]%find_Some_spec. apply elem_of_map_to_list in Hin. by apply has_upload_key_spec in Hk.
Qed.

Lemma upload_by_key_None product tenant key db :
  upload_by_key product tenant key db = None →
  ∀ id row, ocr_uploads db !! id = Some row → ¬ has_upload_key row product tenant key.
Proof.
  intros Hf id row Hl Hk%has_upload_key_spec.
  assert (Hn := List.find_none _ _ Hf (id, row)). cbv beta iota in Hn. rewrite Hk in Hn.
  discriminate Hn. apply list_elem_of_In. by apply elem_of_map_to_list.
Qed.

Record upload_move (row row' : UploadRow) : Prop := {
  move_fixed : reservation row' = reservation row;
  move_state : ∃ s s', ur_status row = upload_state_text s ∧ ur_status row' = upload_state_text s'
    ∧ upload_next s s' ∧ state_ok s' row';
}.

Inductive upload_effect (db db' : Db) : Prop :=
| uploads_unchanged : ocr_uploads db' = ocr_uploads db → upload_effect db db'
| upload_inserted id row :
    ocr_uploads db !! id = None → upload_row_ok id row → ur_status row = "reserved" →
    (∀ id' row', ocr_uploads db !! id' = Some row' →
       ¬ has_upload_key row' (ur_product_id row) (ur_tenant_id row) (ur_idempotency_key row)) →
    ocr_uploads db' = <[id := row]> (ocr_uploads db) → upload_effect db db'
| upload_changed id row row' :
    ocr_uploads db !! id = Some row → upload_move row row' →
    ocr_uploads db' = <[id := row']> (ocr_uploads db) → upload_effect db db'.

Definition uploads_ok (db : Db) : Prop :=
  ∀ id row, ocr_uploads db !! id = Some row → upload_row_ok id row.

Lemma create_upload_effect now r db :
  id_valid (cu_tenant_id r) → id_valid (cu_product_id r) →
  upload_effect db (db_after (create_upload now r) db).
Proof.
  intros Ht Hp. unfold db_after, create_upload. destruct (insert_upload now r db) as [[[row db']|]|] eqn:Hi; simpl.
  - unfold insert_upload in Hi. destruct (upload_by_key _ _ _ _) eqn:Hkey; [done|].
    destruct (bool_decide _) eqn:Hnew; [done|]. destruct (existsb _ _); [done|].
    injection Hi as Hrow <-.
    destruct (stored_upload _ row) as [u|] eqn:Hst; simpl; [|by apply uploads_unchanged].
    destruct (stored_upload_static _ _ _ Hst) as [Hid Hstatic].
    eapply (upload_inserted _ _ (UploadId_str (cu_upload_id r)) row);
      [| |by subst row|subst row; by apply upload_by_key_None|by subst row].
    + apply bool_decide_eq_false in Hnew. by apply eq_None_not_Some.
    + split; [done| |done|].
      * subst row. split; [exact (id_valid_ok _ Hp)|exact (id_valid_ok _ Ht)].
      * exists UploadState.Reserved. subst row. by split_and!.
  - destruct (upload_by_key _ _ _ _) as [[id row]|]; simpl; [|by apply uploads_unchanged].
    destruct (negb _); [by apply uploads_unchanged|].
    destruct (stored_upload id row); simpl; by apply uploads_unchanged.
  - by apply uploads_unchanged.
Qed.

(** The state of a row that a statement matched by its status text. *)
Lemma row_state id row s text :
  upload_row_ok id row → ur_status row = text → upload_state_text s = text → state_ok s row.
Proof.
  intros [_ _ _ (s' & Hs' & Hok)] Ht Hs. assert (s' = s) as ->; [|done].
  apply upload_state_text_inj. congruence.
Qed.

Lemma record_uploaded_effect now clock t p u r db :
  uploads_ok db → upload_effect db (db_after (record_uploaded now clock t p u r) db).
Proof.
  intros Hok. unfold db_after, record_uploaded.
  destruct (validate_record r); simpl; [|by apply uploads_unchanged].
  destruct (select_upload t p u db) as [row|] eqn:Hsel; [|by apply uploads_unchanged].
  apply select_upload_Some in Hsel as (Hl & Ht & Hp).
  destruct (_ && _) eqn:Hg.
  - set (row' := mkUploadRow _ _ _ _ _ _ _ _ _ _ _ _ _ _ _ _ _ _ _ _ _ _ _).
    destruct (stored_upload _ row') as [su|]; simpl; [|by apply uploads_unchanged].
    rewrite !andb_true_iff, !String.eqb_eq, Z.eqb_eq in Hg.
    destruct Hg as ((((Hs & _) & Hct) & Hlen) & Hd).
    eapply (upload_changed _ _ (UploadId_str u) row row'); [done| |done].
    destruct (row_state _ _ UploadState.Reserved _ (Hok _ _ Hl) Hs eq_refl) as (_ & _ & Ha & Hno).
    split; [done|]. exists UploadState.Reserved, UploadState.Uploaded.
    split_and!; [done..|]. simpl. unfold verified_ok. simpl.
    split_and!; try done; first [by eexists | congruence].
  - destruct (parse_upload_state _) as [s|]; simpl; [|by apply uploads_unchanged].
    unfold and_then.
    repeat (simpl; case_match; simplify_eq/=); by apply uploads_unchanged.
Qed.

Lemma inspection_outcome_Claimed s attempts live mine :
  inspection_outcome s attempts live mine = ClaimUploadInspectionOutcome.Claimed →
  attempts < MAXIMUM_INSPECTION_ATTEMPTS
  ∧ (s = UploadState.Uploaded ∨ s = UploadState.Inspecting ∧ live = false).
Proof.
  unfold inspection_outcome.
  destruct s; try done; destruct (Z.ltb_spec attempts MAXIMUM_INSPECTION_ATTEMPTS);
    destruct live, mine; simpl; auto; try done.
Qed.

Lemma inspection_outcome_Existing s attempts live mine :
  inspection_outcome s attempts live mine = ClaimUploadInspectionOutcome.Existing →
  s = UploadState.Inspecting ∧ live = true ∧ mine = true.
Proof.
  unfold inspection_outcome.
  destruct s; try done; destruct (attempts <? _), live, mine; simpl; auto; try done.
Qed.

Lemma inspection_outcome_Exhausted s attempts live mine :
  inspection_outcome s attempts live mine = ClaimUploadInspectionOutcome.AttemptsExhausted →
  s = UploadState.Inspecting ∧ live = false ∧ MAXIMUM_INSPECTION_ATTEMPTS ≤ attempts.
Proof.
  unfold inspection_outcome.
  destruct s; try done; destruct (Z.ltb_spec attempts MAXIMUM_INSPECTION_ATTEMPTS);
    destruct live, mine; simpl; auto; try done.
Qed.

Lemma claim_upload_inspection_effect now t p u o db :
  uploads_ok db → upload_effect db (db_after (claim_upload_inspection now t p u o) db).
Proof.
  intros Hok. unfold db_after, claim_upload_inspection.
  destruct (validate_lease_owner o); simpl; [|by apply uploads_unchanged].
  destruct (select_upload t p u db) as [row|] eqn:Hsel; [|by apply uploads_unchanged].
  apply select_upload_Some in Hsel as (Hl & Ht & Hp). pose proof (Hok _ _ Hl) as Hrow.
  destruct (parse_upload_state _) as [s|] eqn:Hparse; simpl; [|by apply uploads_unchanged].
  apply parse_upload_state_Ok in Hparse.
  pose proof (row_state _ _ s _ Hrow Hparse eq_refl) as Hst.
  destruct (inspection_outcome _ _ _ _) eqn:Hout; try by apply uploads_unchanged.
  - apply inspection_outcome_Claimed in Hout as [Hlt Hfrom].
    eapply (upload_changed _ _ (UploadId_str u) row _ Hl); [|done]. split; [done|].
    exists s, UploadState.Inspecting.
    assert (Hver : verified_ok row ∧ 0 ≤ ur_inspection_attempts row).
    { destruct Hfrom as [-> |[-> _]]; destruct Hst as (? & ? & _); split; [done|lia|done|lia]. }
    split_and!; [done|done|by destruct Hfrom as [-> |[-> _]]|].
    simpl. unfold MAXIMUM_INSPECTION_ATTEMPTS in *.
    split_and!; [apply Hver|lia|lia|by eexists|by eexists].
  - apply inspection_outcome_Existing in Hout as (-> & _ & Hmine). rewrite Hmine.
    eapply (upload_changed _ _ (UploadId_str u) row _ Hl); [|done]. split; [done|].
    exists UploadState.Inspecting, UploadState.Inspecting. split_and!; [done..|].
    simpl in Hst |- *. split_and!; [apply Hst..|by eexists].
  - apply inspection_outcome_Exhausted in Hout as (-> & _ & _).
    eapply (upload_changed _ _ (UploadId_str u) row _ Hl); [|done]. split; [done|].
    exists UploadState.Inspecting, UploadState.Rejected. split_and!; [done..|].
    simpl in Hst |- *. split_and!; [apply Hst|done|by eexists|apply Hst..].
Qed.

Lemma accept_upload_effect now t p u src db :
  Forall geometry_valid (pi_page_geometries (parser_inspection src)) →
  uploads_ok db → upload_effect db (db_after (accept_upload now t p u src) db).
Proof.
  intros Hgeo Hok. unfold db_after, accept_upload.
  destruct (validate_accepted_source src) as [[]|] eqn:Hv; simpl; [|by apply uploads_unchanged].
  destruct (select_upload t p u db) as [row|] eqn:Hsel; [|by apply uploads_unchanged].
  apply select_upload_Some in Hsel as (Hl & Ht & Hp). pose proof (Hok _ _ Hl) as Hrow.
  destruct (_ && _) eqn:Hg; simpl.
  - rewrite !andb_true_iff, String.eqb_eq, !bool_decide_eq_true in Hg.
    destruct Hg as ((((Hs & Hd) & Hlen) & _) & _).
    pose proof (row_state _ _ UploadState.Inspecting _ Hrow Hs eq_refl) as (Hver & Hatt & _ & _).
    eapply (upload_changed _ _ (UploadId_str u) row _ Hl); [|done]. split; [done|].
    exists UploadState.Inspecting, UploadState.Accepted. split_and!; [done..|].
    split_and!; [done|done| |apply Hatt|apply Hatt].
    pose proof Hver as (_ & _ & _ & Hvl & Hvd).
    eapply (accepted_source_decodes _ src); try done.
    + apply Hrow.
    + simpl. congruence.
    + simpl. congruence.
  - destruct (parse_upload_state _); simpl; by apply uploads_unchanged.
Qed.

Lemma reject_upload_effect now t p u o reason db :
  uploads_ok db → upload_effect db (db_after (reject_upload now t p u o reason) db).
Proof.
  intros Hok. unfold db_after, reject_upload.
  destruct (validate_lease_owner o); simpl; [|by apply uploads_unchanged].
  destruct (select_upload t p u db) as [row|] eqn:Hsel; [|by apply uploads_unchanged].
  apply select_upload_Some in Hsel as (Hl & Ht & Hp). pose proof (Hok _ _ Hl) as Hrow.
  destruct (_ && _) eqn:Hg; simpl.
  - rewrite !andb_true_iff, String.eqb_eq in Hg. destruct Hg as ((Hs & _) & _).
    pose proof (row_state _ _ UploadState.Inspecting _ Hrow Hs eq_refl) as (Hver & Hatt & _ & _).
    eapply (upload_changed _ _ (UploadId_str u) row _ Hl); [|done]. split; [done|].
    exists UploadState.Inspecting, UploadState.Rejected. split_and!; [done..|].
    split_and!; [done|done|by eexists|apply Hatt..].
  - destruct (parse_upload_state _); simpl; [|by apply uploads_unchanged].
    repeat (simpl; case_match; simplify_eq/=); by apply uploads_unchanged.
Qed.

Section Reachable.
Context (ss js : RawPageWorkflow → Z).

Ltac frame_uploads :=
  unfold db_after, and_then, ok_or, set_work_scope_pending, register_work_scope,
    update_job_status, with_jobs, with_outbox, with_scopes, insert_outbox;
  repeat (simpl; case_match; simplify_eq/=); done.

Lemma other_ops_uploads op db :
  match op with
  | OpCreateUpload _ _ | OpRecordUploaded _ _ _ _ _ _ | OpClaimUploadInspection _ _ _ _ _
  | OpAcceptUpload _ _ _ _ _ | OpRejectUpload _ _ _ _ _ _ => True
  | _ => ocr_uploads (apply_op ss js op db) = ocr_uploads db
  end.
Proof.
  destruct op; simpl; try done.
  - unfold create, insert_job. frame_uploads.
  - unfold cancel. frame_uploads.
  - unfold complete_cancellation. frame_uploads.
  - unfold commit_result, insert_result. frame_uploads.
  - unfold create_page_workflow, insert_workflow. frame_uploads.
  - by destruct (insert_artifacts_frame ss js tenant product job expected_revision workflow
      artifacts db) as (_ & _ & -> & _).
  - unfold claim_job_outbox. frame_uploads.
  - unfold claim_webhook_outbox. frame_uploads.
  - unfold publish_job_outbox. frame_uploads.
  - unfold claim_work_scopes. frame_uploads.
  - unfold release_work_scope, ocr_release_work_scope. frame_uploads.
Qed.

Lemma apply_op_upload_effect op db :
  op_valid op → uploads_ok db → upload_effect db (apply_op ss js op db).
Proof.
  intros Hop Hok. pose proof (other_ops_uploads op db) as Hsame.
  destruct op; try by apply uploads_unchanged.
  - destruct Hop as (_ & Ht & Hp). by apply create_upload_effect.
  - by apply record_uploaded_effect.
  - by apply claim_upload_inspection_effect.
  - by apply accept_upload_effect.
  - by apply reject_upload_effect.
Qed.

Lemma move_static row row' : reservation row' = reservation row → static_ok row → static_ok row'.
Proof.
  unfold reservation, static_ok. intros [= _ _ _ _ -> -> -> -> -> -> ->]. done.
Qed.

Lemma upload_effect_ok db db' : uploads_ok db → upload_effect db db' → uploads_ok db'.
Proof.
  intros Hok [Heq|id row Hnew Hrow Hs _ Heq|id row row' Hl [Hfix (s & s' & Hs & Hs' & _ & Hst)] Heq]
    i r; rewrite Heq; [by apply Hok|..]; intros [[<- <-]|[_ Hi]]%lookup_insert_Some;
    try (by apply Hok); [done|].
  destruct (Hok _ _ Hl) as [Hid Hscope Hstat _]. split; [done| | |by exists s'].
  - unfold reservation in Hfix. by injection Hfix as -> -> _.
  - by eapply move_static.
Qed.

Lemma run_ops_uploads_ok ops db :
  Forall op_valid ops → uploads_ok db → uploads_ok (run_ops ss js ops db).
Proof.
  apply run_ops_ind. intros op db' Hop Hok. eapply upload_effect_ok; [done|].
  by apply apply_op_upload_effect.
Qed.

Lemma reachable_uploads_ok db : reachable ss js db → uploads_ok db.
Proof.
  intros (ops & Hops & ->). apply run_ops_uploads_ok; [done|].
  intros id row. simpl. by rewrite lookup_empty.
Qed.

(** No two uploads have one key. *)
Definition upload_keys_unique (db : Db) : Prop :=
  ∀ id id' row row' product tenant key,
    ocr_uploads db !! id = Some row → ocr_uploads db !! id' = Some row' →
    has_upload_key row product tenant key → has_upload_key row' product tenant key → id = id'.

Lemma upload_effect_keys db db' :
  upload_effect db db' → upload_keys_unique db → upload_keys_unique db'.
Proof.
  intros Heff Hok a b r r' product tenant key.
  destruct Heff as [Heq|id row Hnew _ _ Hkey Heq|id row row' Hl [Hfix _] Heq]; rewrite Heq.
  - apply Hok.
  - intros [[<- <-]|[_ Ha]]%lookup_insert_Some [[<- <-]|[_ Hb]]%lookup_insert_Some Hk Hk';
      [done|..]; [destruct Hk as (<- & <- & <-); by destruct (Hkey _ _ Hb)
                 |destruct Hk' as (<- & <- & <-); by destruct (Hkey _ _ Ha)|by eapply Hok].
  - assert (Hsame : ∀ p t k, has_upload_key row' p t k → has_upload_key row p t k).
    { intros p t k. unfold has_upload_key. unfold reservation in Hfix. by injection Hfix as -> -> ->. }
    intros [[<- <-]|[_ Ha]]%lookup_insert_Some [[<- <-]|[_ Hb]]%lookup_insert_Some Hk Hk';
      eapply Hok; eauto.
Qed.

Lemma reachable_upload_keys db : reachable ss js db → upload_keys_unique db.
Proof.
  intros (ops & Hops & ->).
  apply (run_ops_ind ss js (λ db, uploads_ok db ∧ upload_keys_unique db)); [|done|].
  - intros op db' Hop [Hu Hk]. pose proof (apply_op_upload_effect op db' Hop Hu) as Heff.
    split; [by eapply upload_effect_ok|by eapply upload_effect_keys].
  - split; [intros id row|intros id id' row row' product tenant key]; simpl; by rewrite lookup_empty.
Qed.

(** Zero or more steps of the upload state machine. *)
Definition upload_path : relation UploadState.UploadState := rtc upload_next.

(** The row of an upload after any operations: its reservation is fixed, its state has
    moved along the state machine, and a final row is untouched. *)
Lemma run_ops_upload ops db id row s :
  uploads_ok db → Forall op_valid ops → ocr_uploads db !! id = Some row →
  ur_status row = upload_state_text s →
  ∃ row' s', ocr_uploads (run_ops ss js ops db) !! id = Some row'
    ∧ ur_status row' = upload_state_text s' ∧ reservation row' = reservation row
    ∧ upload_path s s'
    ∧ (s = UploadState.Accepted ∨ s = UploadState.Rejected → row' = row).
Proof.
  intros Hok Hops. revert db row s Hok. induction Hops as [|op ops Hop Hops IH];
    intros db row s Hok Hl Hs.
  - exists row, s. split_and!; try done; apply rtc_refl.
  - change (run_ops ss js (op :: ops) db) with (run_ops ss js ops (apply_op ss js op db)).
    pose proof (apply_op_upload_effect op db Hop Hok) as Heff.
    pose proof (upload_effect_ok _ _ Hok Heff) as Hok'.
    assert (Hstep : ∃ row1 s1, ocr_uploads (apply_op ss js op db) !! id = Some row1
      ∧ ur_status row1 = upload_state_text s1 ∧ reservation row1 = reservation row
      ∧ upload_path s s1 ∧ (s = UploadState.Accepted ∨ s = UploadState.Rejected → row1 = row)).
    { destruct Heff as [Heq|i r Hnew Hrow Hr _ Heq|i r r' Hi [Hfix (a & b & Ha & Hb & Hn & _)] Heq].
      - exists row, s. rewrite Heq. split_and!; try done; apply rtc_refl.
      - exists row, s. rewrite Heq, lookup_insert_ne by congruence.
        split_and!; try done; apply rtc_refl.
      - destruct (decide (i = id)) as [->|Hne].
        + rewrite Hl in Hi. injection Hi as <-. assert (a = s) as -> by (apply upload_state_text_inj; congruence).
          exists r', b. rewrite Heq, lookup_insert_eq. split_and!; try done.
          * by apply rtc_once.
          * by intros [-> | ->].
        + exists row, s. rewrite Heq, lookup_insert_ne by done.
          split_and!; try done; apply rtc_refl. }
    destruct Hstep as (row1 & s1 & Hl1 & Hs1 & Hf1 & Hp1 & Hfin1).
    destruct (IH _ _ _ Hok' Hl1 Hs1) as (row2 & s2 & Hl2 & Hs2 & Hf2 & Hp2 & Hfin2).
    exists row2, s2. split_and!; [done|done|congruence|by etrans|].
    intros Hfinal. rewrite <- (Hfin1 Hfinal) in Hs |- *. apply Hfin2.
    assert (s1 = s) as -> by (apply upload_state_text_inj; congruence). done.
Qed.

(** Every job of a reachable database has its accepted upload, in its own scope. *)
Definition job_sources (db : Db) : Prop :=
  ∀ id row, ocr_jobs db !! id = Some row → accepted_source_of db row.

Lemma accepted_persists db db' row :
  uploads_ok db → upload_effect db db' → accepted_source_of db row → accepted_source_of db' row.
Proof.
  intros Hok Heff (up & Hl & Hs & Ht & Hp).
  destruct Heff as [Heq|i r Hnew Hrow Hr _ Heq|i r r' Hi [Hfix (a & b & Ha & Hb & Hn & _)] Heq].
  - exists up. by rewrite Heq.
  - exists up. rewrite Heq, lookup_insert_ne by congruence. done.
  - exists up. rewrite Heq, lookup_insert_ne; [done|]. intros ->.
    assert (a = UploadState.Accepted) as -> by (apply upload_state_text_inj; simpl; congruence).
    done.
Qed.

Lemma step_sources op db :
  op_valid op → uploads_ok db → job_sources db →
  uploads_ok (apply_op ss js op db) ∧ job_sources (apply_op ss js op db).
Proof.
  intros Hop Hu Hj. pose proof (apply_op_upload_effect op db Hop Hu) as Heff.
  split; [by eapply upload_effect_ok|]. intros id row Hl.
  apply (accepted_persists _ _ _ Hu Heff).
  destruct (apply_op_job_effect ss js op db Hop)
    as [Heq _|i r Hnew _ _ Hsrc _ _ Heq _|i r s Hi _ Heq _|i r st res Hi _ _ _ _ _ _ Heq _];
    rewrite Heq in Hl; [by eapply Hj|..]; apply lookup_insert_Some in Hl as [[<- <-]|[_ Hl]];
    try (by eapply Hj); [done|..]; destruct (Hj _ _ Hi) as (up & Hup); by exists up.
Qed.

Lemma reachable_job_sources db : reachable ss js db → uploads_ok db ∧ job_sources db.
Proof.
  intros (ops & Hops & ->).
  apply (run_ops_ind ss js (λ db, uploads_ok db ∧ job_sources db)); [|done|].
  - intros op db' Hop [Hu Hj]. by apply step_sources.
  - split; intros id row; simpl; by rewrite lookup_empty.
Qed.

(** Every upload follows the state machine reserved, uploaded, inspecting (any number
    of times), then accepted or rejected: whatever operations run, what the client
    reserved never changes, the state only moves forward, an accepted or rejected row
    is final, and at most ten inspections ever start. *)
Theorem upload_lifecycle db ops id row :
  reachable ss js db → Forall op_valid ops → ocr_uploads db !! id = Some row →
  ∃ row' s s', ocr_uploads (run_ops ss js ops db) !! id = Some row'
    ∧ parse_upload_state (ur_status row) = Ok s ∧ parse_upload_state (ur_status row') = Ok s'
    ∧ reservation row' = reservation row ∧ upload_path s s'
    ∧ (s = UploadState.Accepted ∨ s = UploadState.Rejected → row' = row)
    ∧ 0 ≤ ur_inspection_attempts row' ≤ MAXIMUM_INSPECTION_ATTEMPTS.
Proof.
  intros Hreach Hops Hl. pose proof (reachable_uploads_ok _ Hreach) as Hok.
  destruct (Hok _ _ Hl) as [_ _ _ (s & Hs & _)].
  destruct (run_ops_upload ops db id row s Hok Hops Hl Hs)
    as (row' & s' & Hl' & Hs' & Hfix & Hpath & Hfin).
  exists row', s, s'. split_and!; try done; try (by apply parse_upload_state_Ok).
  all: destruct (run_ops_uploads_ok ops db Hops Hok _ _ Hl') as [_ _ _ (s2 & _ & Hst)];
    unfold MAXIMUM_INSPECTION_ATTEMPTS; destruct s2; simpl in Hst;
    unfold MAXIMUM_INSPECTION_ATTEMPTS in Hst; try lia; destruct Hst as (_ & Hst & _); lia.
Qed.

Lemma valid_digest_canonical d : valid_digest d = true → is_canonical_sha256 d = true.
Proof.
  unfold valid_digest, is_canonical_sha256.
  destruct (Text.strip_prefix "sha256:" d) as [s|]; simpl; [|done].
  rewrite !andb_true_iff. intros [-> Hall]. split; [done|].
  eapply all_bytes_impl; [|exact Hall]. intros a Ha. unfold lower_hexdigit, is_ascii_hexdigit.
  unfold is_ascii_uppercase, is_ascii_digit in *.
  rewrite orb_true_iff, !contains_true in Ha.
  rewrite andb_true_iff, negb_true_iff, contains_false.
  rewrite !orb_true_iff, !contains_true. lia.
Qed.

(** The identity of a job follows from its identifier and its upload's digest. *)
Lemma identity_loads db t p j row up b o g d l :
  select_accepted t p j db = Some (row, up) → is_ok (JobId_new (JobId_str j)) = true →
  ur_source up = Some (b, o, g, d, l) → valid_digest d = true →
  (is_Some (jr_extraction_schema_id row) ↔ is_Some (jr_extraction_schema_version row)) →
  ∃ identity, load_document_identity t p j db = Ok (Some identity)
    ∧ DocumentVersion_str (identity_document_version identity) = d.
Proof.
  intros Hacc Hj Hsrc Hd Hx.
  assert (Hjv : id_valid j).
  { unfold id_valid. simpl. unfold JobId_new in *.
    destruct (validated_id (JobId_str j) _ _) as [s|] eqn:Hv; simpl in *; [|done].
    apply validated_id_Ok in Hv as [-> _]. by destruct j. }
  apply JobId_valid_suffix in Hjv as (suffix & Hsuf & Hslen & Hsb).
  assert (Hdoc : DocumentId_new ("doc_" +:+ suffix) = Ok (mkDocumentId ("doc_" +:+ suffix))).
  { unfold DocumentId_new. rewrite (proj2 (validated_id_Ok _ _ _ ("doc_" +:+ suffix))); [done|].
    split; [done|]. by exists suffix. }
  unfold load_document_identity. rewrite Hacc, Hsuf, strip_prefix_append.
  cbn [ok_or and_then]. rewrite Hdoc. cbn [map_err and_then]. rewrite Hsrc.
  cbn [fmap option_fmap option_map ok_or and_then].
  unfold DocumentVersion_new. rewrite (valid_digest_canonical _ Hd). simpl.
  destruct (jr_extraction_schema_id row), (jr_extraction_schema_version row); simpl; eauto;
    [destruct (proj1 Hx) as [? [=]] | destruct (proj2 Hx) as [? [=]]]; eauto.
Qed.

(** The columns that an accepted source is decoded from. *)
Lemma accepted_source_columns up src :
  stored_accepted_source up = Ok src →
  ∃ b o g, ur_source up = Some (b, o, g, as_digest src, as_content_length src).
Proof.
  unfold stored_accepted_source. intros Hsrc.
  destruct (ur_source up) as [[[[[b o] g] d] l]|]; simpl in Hsrc; [|done].
  exists b, o, g. destruct_result Hsrc. done.
Qed.

(** C15: the source of every job can be loaded, and it is what the client announced: in a
    reachable database each job of a scope has a document identity and an accepted
    source whose digest, length and content type are those of the reservation, whose
    pages are numbered from one, and whose pixel totals are the exact maximum and sum
    over the page geometries. *)
Theorem job_sources_load db t p j row :
  reachable ss js db → select_job t p j db = Some row →
  ∃ source identity up, load_accepted_source t p j db = Ok (Some source)
    ∧ load_document_identity t p j db = Ok (Some identity)
    ∧ ocr_uploads db !! jr_upload_id row = Some up
    ∧ as_digest source = ur_expected_digest up
    ∧ as_content_length source = ur_expected_content_length up
    ∧ as_content_type source = ur_expected_content_type up
    ∧ DocumentVersion_str (identity_document_version identity) = as_digest source
    ∧ 1 ≤ as_page_count source ≤ MAXIMUM_PAGE_COUNT
    ∧ zlen (as_page_geometries source) = as_page_count source
    ∧ numbered_from 0 (as_page_geometries source)
    ∧ as_maximum_page_pixels source = max_area (as_page_geometries source)
    ∧ as_total_page_pixels source = sum_areas (as_page_geometries source).
Proof.
  intros Hreach Hsel. destruct (reachable_job_sources _ Hreach) as [Hu Hj].
  pose proof Hsel as (Hl & Ht & Hp)%select_job_Some.
  destruct (Hj _ _ Hl) as (up & Hup & Hs & Hut & Hupp).
  pose proof (Hu _ _ Hup) as Hrow.
  destruct (row_state _ _ UploadState.Accepted _ Hrow Hs eq_refl)
    as (Hver & _ & (src & Hsrc & Hd & Hlen & Hct & Hpc & Hz & Hnum & _ & Hmax & Htot) & _).
  assert (Hacc : select_accepted t p j db = Some (row, up)).
  { unfold select_accepted. rewrite Hsel, Hup.
    rewrite (proj2 (in_scope_spec _ _ _ _)) by (split; congruence). by rewrite Hs. }
  destruct (job_rows_ok _ (reachable_jobs_ok _ _ _ Hreach) _ _ Hl) as [Hjid _ Hx].
  destruct (accepted_source_columns _ _ Hsrc) as (b & o & g & Hcol).
  destruct (upload_static_ok _ _ Hrow) as (_ & _ & _ & Hvd & _). rewrite <- Hd in Hvd.
  destruct (identity_loads _ _ _ _ _ _ _ _ _ _ _ Hacc Hjid Hcol Hvd Hx) as (ident & Hi & Hv).
  exists src, ident, up. split_and!; try done; try lia.
  unfold load_accepted_source. by rewrite Hacc, Hsrc.
Qed.

(** ** Leases *)

(** While one worker's inspection lease is live nobody else can act on the upload:
    another worker's claim finds it busy, its acceptance and its rejection are refused,
    and none of them changes anything; the owner's own claim only renews the lease. *)
Theorem inspection_lease_excludes db now t p u row owner expires other src reason :
  select_upload t p u db = Some row → ur_status row = "inspecting" →
  ur_inspection_lease_owner row = Some owner → ur_inspection_lease_expires_at row = Some expires →
  now < expires → other ≠ owner → inspection_lease_owner src = other →
  (is_valid_lease_owner other = true →
     claim_upload_inspection now t p u other db = Ok (ClaimUploadInspectionOutcome.Busy, db)
     ∧ reject_upload now t p u other reason db = Ok (RejectUploadOutcome.NotRejectable, db))
  ∧ (validate_accepted_source src = Ok () →
     accept_upload now t p u src db = Ok (AcceptUploadOutcome.NotAcceptable, db))
  ∧ (is_valid_lease_owner owner = true →
     claim_upload_inspection now t p u owner db
     = Ok (ClaimUploadInspectionOutcome.Existing,
           put_upload u (set_inspection row "inspecting" (ur_inspection_attempts row) (Some owner)
             (Some (now + LEASE_SECONDS)) (ur_rejection_reason row) (ur_source row)
             (ur_parser row)) db)).
Proof.
  intros Hsel Hs Ho He Hlt Hne Hsrc.
  assert (Hlive : lease_live now (ur_inspection_lease_expires_at row) = true).
  { rewrite He. by apply Z.ltb_lt. }
  assert (Hother : owned_by (ur_inspection_lease_owner row) other = false).
  { rewrite Ho. apply bool_decide_eq_false. congruence. }
  assert (Hmine : owned_by (ur_inspection_lease_owner row) owner = true).
  { rewrite Ho. by apply bool_decide_eq_true. }
  split_and!.
  - intros Hv. unfold claim_upload_inspection, reject_upload, validate_lease_owner.
    rewrite Hv. simpl. rewrite Hsel, Hs, Hlive, Hother. simpl. done.
  - intros Hv. unfold accept_upload. rewrite Hv. simpl. rewrite Hsel, Hs, Hsrc, Hother.
    rewrite !andb_false_r. simpl. done.
  - intros Hv. unfold claim_upload_inspection, validate_lease_owner. rewrite Hv. simpl.
    rewrite Hsel, Hs, Hlive, Hmine. simpl. by rewrite Ho.
Qed.

(** A lease that has run out never blocks an upload: in a reachable database the next
    claim by anyone either takes over, with one more attempt and a full lease, or, after
    ten attempts, rejects the upload for good; so no upload stays in inspection. *)
Theorem expired_inspection_recovers db now t p u row expires owner :
  reachable ss js db → select_upload t p u db = Some row → ur_status row = "inspecting" →
  ur_inspection_lease_expires_at row = Some expires → expires ≤ now →
  is_valid_lease_owner owner = true →
  ∃ outcome db' row', claim_upload_inspection now t p u owner db = Ok (outcome, db')
    ∧ select_upload t p u db' = Some row'
    ∧ if ur_inspection_attempts row <? MAXIMUM_INSPECTION_ATTEMPTS
      then outcome = ClaimUploadInspectionOutcome.Claimed ∧ ur_status row' = "inspecting"
           ∧ ur_inspection_attempts row' = ur_inspection_attempts row + 1
           ∧ ur_inspection_lease_owner row' = Some owner
           ∧ ur_inspection_lease_expires_at row' = Some (now + LEASE_SECONDS)
      else outcome = ClaimUploadInspectionOutcome.AttemptsExhausted
           ∧ ur_status row' = "rejected"
           ∧ ur_rejection_reason row' = Some "inspection_attempts_exhausted".
Proof.
  intros Hreach Hsel Hs He Hle Hv. pose proof Hsel as (Hl & Ht & Hp)%select_upload_Some.
  assert (Hlive : lease_live now (ur_inspection_lease_expires_at row) = false).
  { rewrite He. by apply Z.ltb_ge. }
  unfold claim_upload_inspection, validate_lease_owner. rewrite Hv. simpl.
  rewrite Hsel, Hs, Hlive. simpl.
  destruct (Z.ltb_spec (ur_inspection_attempts row) MAXIMUM_INSPECTION_ATTEMPTS); simpl;
    (do 3 eexists; split; [done|]); (split; [apply select_upload_Some; simpl;
      rewrite lookup_insert_eq; done|]); by split_and!.
Qed.
End Reachable.

(** ** Witnesses *)

Definition sample_inspecting_row : UploadRow :=
  {| ur_tenant_id := "ten_a"; ur_product_id := "prod"; ur_idempotency_key := "key-1";
     ur_request_digest := sample_digest; ur_object_bucket := "quarantine";
     ur_object_name := "object-1"; ur_expected_content_type := "application/pdf";
     ur_expected_content_length := 10; ur_expected_digest := sample_digest;
     ur_status := "inspecting"; ur_expires_at := 1000; ur_created_at := 1;
     ur_object_version := Some "1"; ur_verified_content_type := Some "application/pdf";
     ur_verified_content_length := Some 10; ur_verified_digest := Some sample_digest;
     ur_uploaded_at := Some 2; ur_source := None; ur_parser := None;
     ur_inspection_attempts := 1; ur_inspection_lease_owner := Some "worker-1";
     ur_inspection_lease_expires_at := Some 303; ur_rejection_reason := None |}.

Lemma sample_upload_reachable : reachable sample_size sample_size (sample_db sample_upload_ops).
Proof.
  exists sample_upload_ops. split; [|done].
  by eapply (sample_valid_prefix sample_upload_ops).
Qed.

Lemma sample_inspecting :
  select_upload sample_tenant sample_product (sample_upload "1") (sample_db sample_upload_ops)
  = Some sample_inspecting_row.
Proof. vm_compute. reflexivity. Qed.

Theorem upload_lifecycle_witness :
  ∃ row', ocr_uploads (run_ops sample_size sample_size
    [OpRejectUpload 4 sample_tenant sample_product (sample_upload "1") "worker-1" MalwareDetected]
    (sample_db sample_upload_ops)) !! "upl_1" = Some row'
    ∧ reservation row' = reservation sample_inspecting_row.
Proof.
  pose proof sample_inspecting as (Hl & _ & _)%select_upload_Some.
  destruct (upload_lifecycle sample_size sample_size _
    [OpRejectUpload 4 sample_tenant sample_product (sample_upload "1") "worker-1" MalwareDetected]
    "upl_1" sample_inspecting_row sample_upload_reachable ltac:(by repeat constructor) Hl)
    as (row' & s & s' & Hl' & _ & _ & Hfix & _).
  exists row'. split; [exact Hl'|exact Hfix].
Defined.

Theorem job_sources_load_witness :
  ∃ source, load_accepted_source sample_tenant sample_product sample_job
    (sample_db sample_processing_ops) = Ok (Some source).
Proof.
  assert (Hsel : select_job sample_tenant sample_product sample_job
    (sample_db sample_processing_ops) = Some (sample_job_row "processing"))
    by (vm_compute; reflexivity).
  destruct (job_sources_load sample_size sample_size _ sample_tenant sample_product sample_job _
    sample_processing_reachable Hsel) as (source & identity & up & Hs & _).
  exists source. exact Hs.
Defined.

Theorem inspection_lease_excludes_witness :
  claim_upload_inspection 10 sample_tenant sample_product (sample_upload "1") "worker-2"
    (sample_db sample_upload_ops)
  = Ok (ClaimUploadInspectionOutcome.Busy, sample_db sample_upload_ops).
Proof.
  destruct (inspection_lease_excludes (sample_db sample_upload_ops) 10 sample_tenant sample_product
    (sample_upload "1") sample_inspecting_row "worker-1" 303 "worker-2"
    (mkAcceptUpload "worker-2" "b" "o" "1" sample_digest 10 (parser_inspection sample_accept))
    MalwareDetected sample_inspecting eq_refl eq_refl eq_refl ltac:(lia) ltac:(discriminate) eq_refl)
    as (H & _ & _).
  exact (proj1 (H eq_refl)).
Defined.

Theorem expired_inspection_recovers_witness :
  ∃ db', claim_upload_inspection 303 sample_tenant sample_product (sample_upload "1") "worker-2"
    (sample_db sample_upload_ops) = Ok (ClaimUploadInspectionOutcome.Claimed, db').
Proof.
  destruct (expired_inspection_recovers sample_size sample_size (sample_db sample_upload_ops) 303
    sample_tenant sample_product (sample_upload "1") sample_inspecting_row 303 "worker-2"
    sample_upload_reachable sample_inspecting eq_refl eq_refl ltac:(lia) eq_refl)
    as (outcome & db' & row' & Hc & _ & Hcase).
  exists db'. destruct Hcase as [-> _]. exact Hc.
Defined.

(** ** The pending flag of a work scope *)

Definition sample_pending_ops : list StoreOp :=
  [OpCreateUpload 1 (sample_create_upload "1");
   OpRecordUploaded 2 2 sample_tenant sample_product (sample_upload "1") sample_record;
   OpCreateUpload 1 (sample_create_upload "2");
   OpRecordUploaded 3 3 sample_tenant sample_product (sample_upload "2") sample_record;
   OpClaimUploadInspection 4 sample_tenant sample_product (sample_upload "1") "worker-1";
   OpAcceptUpload 5 sample_tenant sample_product (sample_upload "1") sample_accept].

(** A directory whose only scope has both flags clear gives nothing to claim. *)
Lemma claim_no_pending_scope (db : Db) (key : string * string) (updated : Z)
    (Hm : map_to_list (ocr_work_scopes db) = [(key, mkScopeRow false false None None updated)])
    (now : Z) (locked : string * string → bool) (claim : ClaimWorkScopes) :
  is_valid_lease_owner (scopes_lease_owner claim) = true →
  contains 1 100 (scopes_limit claim) = true →
  sql_lease_owner (scopes_lease_owner claim) = true →
  claim_work_scopes now locked claim db = (Ok [], db).
Proof.
  intros Hv Hl Hs. unfold claim_work_scopes, validate_lease_owner.
  rewrite Hv, Hl, Hs. cbn -[List.filter]. rewrite Hm.
  assert (List.filter (claimable_scope now (scopes_lease_owner claim) locked)
    [(key, mkScopeRow false false None None updated)] = []) as ->
    by (simpl; rewrite ?andb_false_r; reflexivity).
  simpl. rewrite take_nil. simpl. by destruct db.
Qed.

(** Accepting one upload hides the others of its scope from the workers.  There is a
    reachable database in which an upload waits for inspection and yet no claim of work
    scopes, at any time and by any worker, returns its scope. *)
Theorem pending_upload_unclaimable :
  ∃ db, reachable sample_size sample_size db
    ∧ list_reconcilable_uploads 6 sample_tenant sample_product 10 db = Ok [sample_upload "2"]
    ∧ ∀ now locked claim, is_valid_lease_owner (scopes_lease_owner claim) = true →
        contains 1 100 (scopes_limit claim) = true →
        sql_lease_owner (scopes_lease_owner claim) = true →
        claim_work_scopes now locked claim db = (Ok [], db).
Proof.
  exists (sample_db sample_pending_ops). split_and!.
  - exists sample_pending_ops. split; [|done]. pose proof sample_geometry_valid.
    unfold sample_pending_ops. rewrite !Forall_cons. simpl. rewrite Forall_singleton.
    by split_and!.
  - vm_compute. reflexivity.
  - intros now locked claim. apply (claim_no_pending_scope _ ("prod", "ten_a") 5).
    vm_compute. reflexivity.
Qed.
