(* ===== verification/StoreOutboxFacts.v ===== *)
(** * StoreOutboxFacts: event delivery and work discovery

    The invariant of the outbox over every reachable database ([outbox_effect] says
    what one operation may do to it), and the theorems on delivery: the log is durable,
    leases exclude other workers, a claimed event is published once, claims return the
    oldest deliverable events, and a scope with dispatch work is always flagged. *)

From S2P Require Import Prelude Text DomainTypes Identifiers Geometry PageWorkflow.
From S2P Require Import StoreTypes StoreChecks StoreDb StoreJobs StorePages StoreUploads.
From S2P Require Import StoreOutbox StoreRun StoreJobsFacts StoreUploadsFacts.

#[local] Open Scope list_scope.
#[local] Open Scope Z_scope.

#[local] Arguments contains : simpl never.

(** ** Flags and pending events of a scope *)

#[export] Instance WorkKind_eq_dec : EqDecision WorkKind.
Proof. solve_decision. Defined.

Definition dispatch_flag (db : Db) (product tenant : string) : bool :=
  match ocr_work_scopes db !! (product, tenant) with
  | Some s => dispatch_pending s
  | None => false
  end.

(** An event that [claim_job_outbox] still has to deliver. *)
Definition pending_event (product tenant : string) (row : OutboxRow) : bool :=
  String.eqb (or_tenant_id row) tenant && String.eqb (or_product_id row) product
  && status_in (or_event_type row) JOB_EVENTS && undelivered row
  && (or_delivery_attempts row <? MAXIMUM_DELIVERY_ATTEMPTS).

(** A flag is only cleared when nothing is pending. *)
Definition flags_safe (db db' : Db) : Prop :=
  ∀ product tenant, dispatch_flag db product tenant = true →
    dispatch_flag db' product tenant = true
    ∨ existsb (pending_event product tenant) (ocr_outbox db') = false.

Definition same_outbox (db db' : Db) : Prop :=
  ocr_outbox db' = ocr_outbox db ∧ next_event_id db' = next_event_id db
  ∧ ∀ product tenant, dispatch_flag db' product tenant = dispatch_flag db product tenant.

Lemma same_outbox_refl db : same_outbox db db.
Proof. done. Qed.

Lemma dispatch_flag_register now p t kind db product tenant :
  dispatch_flag (register_work_scope now p t kind db) product tenant =
  (if decide (kind = DispatchWork ∧ (p, t) = (product, tenant)) then true
   else dispatch_flag db product tenant).
Proof.
  unfold dispatch_flag, register_work_scope. simpl.
  destruct (decide ((p, t) = (product, tenant))) as [Heq|Hne].
  - rewrite Heq, lookup_insert_eq.
    destruct (ocr_work_scopes db !! (product, tenant)), kind; case_decide; simpl;
      rewrite ?orb_false_r, ?orb_true_r; naive_solver.
  - rewrite lookup_insert_ne by done. case_decide; naive_solver.
Qed.

Lemma dispatch_flag_set_pending now p t kind b db product tenant :
  dispatch_flag (set_work_scope_pending now p t kind b db) product tenant = true ↔
  (if decide (kind = DispatchWork ∧ (p, t) = (product, tenant))
   then b = true ∧ is_Some (ocr_work_scopes db !! (product, tenant))
   else dispatch_flag db product tenant = true).
Proof.
  unfold dispatch_flag, set_work_scope_pending. simpl.
  destruct (decide ((p, t) = (product, tenant))) as [Heq|Hne].
  - rewrite Heq, lookup_alter_eq.
    destruct (ocr_work_scopes db !! (product, tenant)), kind; case_decide; simpl;
      rewrite ?is_Some_alt; naive_solver.
  - rewrite lookup_alter_ne by done. case_decide; naive_solver.
Qed.

(** Writes to the other tables. *)
Lemma same_outbox_uploads db db1 t : same_outbox db db1 → same_outbox db (with_uploads db1 t).
Proof. done. Qed.
Lemma same_outbox_events db db1 p t u e l :
  same_outbox db db1 → same_outbox db (insert_upload_outbox p t u e l db1).
Proof. done. Qed.
Lemma same_outbox_jobs db db1 t : same_outbox db db1 → same_outbox db (with_jobs db1 t).
Proof. done. Qed.
Lemma same_outbox_results db db1 t : same_outbox db db1 → same_outbox db (with_results db1 t).
Proof. done. Qed.
Lemma same_outbox_workflows db db1 t : same_outbox db db1 → same_outbox db (with_workflows db1 t).
Proof. done. Qed.
Lemma same_outbox_artifacts db db1 t : same_outbox db db1 → same_outbox db (with_artifacts db1 t).
Proof. done. Qed.

Lemma same_outbox_register now p t db db1 :
  same_outbox db db1 → same_outbox db (register_work_scope now p t UploadWork db1).
Proof.
  intros (H1 & H2 & H3). split_and!; [done..|]. intros product tenant.
  rewrite dispatch_flag_register, H3. by case_decide as Hd; [destruct Hd|].
Qed.

Lemma same_outbox_set_pending now p t b db db1 :
  same_outbox db db1 → same_outbox db (set_work_scope_pending now p t UploadWork b db1).
Proof.
  intros (H1 & H2 & H3). split_and!; [done..|]. intros product tenant.
  apply eq_true_iff_eq. rewrite dispatch_flag_set_pending, H3. by case_decide as Hd; [destruct Hd|].
Qed.

(** The operations that neither write events nor touch dispatch flags. *)
Ltac frame_outbox :=
  unfold db_after, and_then, ok_or, update_job_status, put_upload;
  repeat (simpl; case_match; simplify_eq/=);
  repeat first [ apply same_outbox_refl | apply same_outbox_register
               | apply same_outbox_set_pending | apply same_outbox_uploads
               | apply same_outbox_events | apply same_outbox_jobs | apply same_outbox_results
               | apply same_outbox_workflows | apply same_outbox_artifacts ].

Lemma create_upload_outbox now r db : same_outbox db (db_after (create_upload now r) db).
Proof. unfold create_upload, insert_upload. frame_outbox. Qed.
Lemma record_uploaded_outbox now clock t p u r db :
  same_outbox db (db_after (record_uploaded now clock t p u r) db).
Proof. unfold record_uploaded. frame_outbox. Qed.
Lemma claim_upload_inspection_outbox now t p u o db :
  same_outbox db (db_after (claim_upload_inspection now t p u o) db).
Proof. unfold claim_upload_inspection. frame_outbox. Qed.
Lemma accept_upload_outbox now t p u s db :
  same_outbox db (db_after (accept_upload now t p u s) db).
Proof. unfold accept_upload. frame_outbox. Qed.
Lemma reject_upload_outbox now t p u o r db :
  same_outbox db (db_after (reject_upload now t p u o r) db).
Proof. unfold reject_upload. frame_outbox. Qed.
Lemma complete_cancellation_outbox t p j db :
  same_outbox db (db_after (complete_cancellation t p j) db).
Proof. unfold complete_cancellation. frame_outbox. Qed.
Lemma create_page_workflow_outbox ss js t p j w db :
  same_outbox db (db_after (create_page_workflow ss js t p j w) db).
Proof. unfold create_page_workflow, insert_workflow. frame_outbox. Qed.
Lemma save_outbox ss js t p j rev w artifacts db :
  same_outbox db (db_after (save_page_workflow_with_artifacts ss js t p j rev w artifacts) db).
Proof. unfold save_page_workflow_with_artifacts, update_workflow. frame_outbox. Qed.

(** ** What an operation does to the events *)

(** One delivery operation at one event. *)
Inductive delivery_step (row row' : OutboxRow) : Prop :=
| event_kept : row' = row → delivery_step row row'
| event_dead_lettered now :
    undelivered row = true → or_delivery_attempts row = MAXIMUM_DELIVERY_ATTEMPTS →
    row' = set_delivery row (or_published_at row) (or_delivery_attempts row) None None (Some now) →
    delivery_step row row'
| event_claimed now owner :
    undelivered row = true → or_delivery_attempts row < MAXIMUM_DELIVERY_ATTEMPTS →
    row' = claim_event now owner row → delivery_step row row'
| event_published now :
    undelivered row = true → is_Some (or_delivery_lease_owner row) →
    row' = set_delivery row (Some now) (or_delivery_attempts row) None None
             (or_dead_lettered_at row) →
    delivery_step row row'.

Definition new_event (now id : Z) (product tenant job event_type : string)
    (payload : list (string * string)) : OutboxRow :=
  {| or_event_id := id; or_product_id := product; or_tenant_id := tenant; or_job_id := job;
     or_event_type := event_type; or_payload := payload; or_created_at := now;
     or_published_at := None; or_delivery_attempts := 0; or_delivery_lease_owner := None;
     or_delivery_lease_expires_at := None; or_dead_lettered_at := None |}.

(** The job whose event is written, and why it is. *)
Definition event_cause (db : Db) (product tenant job event_type : string) : Prop :=
  ∃ row, ocr_jobs db !! job = Some row ∧ jr_product_id row = product ∧ jr_tenant_id row = tenant
    ∧ (event_type ∈ JOB_EVENTS
       ∨ ∃ s, jr_status row = job_state_text s ∧ terminal_event s = Ok event_type
           ∧ is_Some (jr_webhook_subscription_id row)).

Inductive outbox_effect (db db' : Db) : Prop :=
| outbox_unchanged : same_outbox db db' → outbox_effect db db'
| event_inserted now product tenant job event_type payload :
    event_cause db' product tenant job event_type →
    ocr_outbox db' = ocr_outbox db ++
      [new_event now (next_event_id db) product tenant job event_type payload] →
    next_event_id db' = next_event_id db + 1 →
    (∀ p t, dispatch_flag db p t = true → dispatch_flag db' p t = true) →
    (event_type ∈ JOB_EVENTS → dispatch_flag db' product tenant = true) →
    outbox_effect db db'
| events_delivered :
    Forall2 delivery_step (ocr_outbox db) (ocr_outbox db') →
    next_event_id db' = next_event_id db → flags_safe db db' → outbox_effect db db'.

Lemma dispatch_flag_insert_outbox now p t j e l db product tenant :
  dispatch_flag (insert_outbox now p t j e l db) product tenant = dispatch_flag db product tenant.
Proof. done. Qed.

Lemma register_dispatch now p t db product tenant :
  dispatch_flag db product tenant = true →
  dispatch_flag (register_work_scope now p t DispatchWork db) product tenant = true.
Proof. intros Hf. rewrite dispatch_flag_register. by case_decide. Qed.

Lemma register_dispatch_self now p t db :
  dispatch_flag (register_work_scope now p t DispatchWork db) p t = true.
Proof. rewrite dispatch_flag_register. by rewrite decide_True. Qed.

Lemma create_outbox now r db : outbox_effect db (db_after (create now r) db).
Proof.
  unfold db_after, create.
  destruct (insert_job now r db) as [[[row db']|]|e] eqn:Hi; simpl; [| |by apply outbox_unchanged].
  - apply insert_job_spec in Hi as (_ & _ & _ & Hp & Ht & _ & _ & _ & _ & _ & _ & ->).
    destruct (stored_job _ _) as [job|]; simpl; [|by apply outbox_unchanged].
    eapply event_inserted; [|reflexivity|reflexivity|..].
    + exists row. simpl. rewrite lookup_insert_eq. split_and!; try done. left. set_solver.
    + intros p t Hf. by apply register_dispatch.
    + intros _. apply register_dispatch_self.
  - destruct (job_by_key _ _ _ _) as [[id row]|]; [|by apply outbox_unchanged].
    destruct (_ || _); [by apply outbox_unchanged|]. destruct (stored_job _ _); by apply outbox_unchanged.
Qed.

Lemma cancel_outbox now t p j db : outbox_effect db (db_after (cancel now t p j) db).
Proof.
  unfold db_after, cancel. destruct (update_job_status _ _ _ _ _ _) as [[row db']|] eqn:Hu.
  - apply update_job_status_Some in Hu as (old & (Hj & Ht & Hp)%select_job_Some & _ & -> & ->).
    destruct (stored_job _ _); simpl; [|by apply outbox_unchanged].
    eapply event_inserted; [|reflexivity|reflexivity|..].
    + exists (set_job_status old "cancelled"). simpl. rewrite lookup_insert_eq.
      split_and!; try done. left. set_solver.
    + intros p' t' Hf. by apply register_dispatch.
    + intros _. apply register_dispatch_self.
  - destruct (select_job _ _ _ _) as [row|]; [|by apply outbox_unchanged].
    destruct (stored_job _ _) as [job|]; simpl; [|by apply outbox_unchanged].
    destruct (sj_state job); by apply outbox_unchanged.
Qed.

(** The event of a commit: one when the job has a webhook, none otherwise. *)
Lemma commit_result_event now t p j c db job db' :
  commit_result now t p j c db = Ok (CommitResultOutcome.Committed job, db') →
  (same_outbox db db')
  ∨ ∃ row webhook event payload, select_job t p j db = Some row
    ∧ jr_webhook_subscription_id row = Some webhook
    ∧ terminal_event (terminal_state c) = Ok event
    ∧ ocr_outbox db' = ocr_outbox db ++
        [new_event now (next_event_id db) (ProductId_str p) (TenantId_str t) (JobId_str j) event
           payload]
    ∧ next_event_id db' = next_event_id db + 1
    ∧ ∀ product tenant, dispatch_flag db' product tenant = dispatch_flag db product tenant.
Proof.
  unfold commit_result, insert_result, and_then, ok_or. intros Hc.
  destruct (validate_locator _); [|done].
  destruct (negb (is_result_state _)); [done|].
  destruct (select_job t p j db) as [row|]; [|done].
  destruct (stored_job _ row) as [found|]; [|done].
  destruct (select_result t p j db).
  { destruct (stored_result_locator _); [|done]. by destruct (_ && _). }
  destruct (negb _); [done|].
  set (db1 := if bool_decide (sj_state found = Processing) then _ else db) in Hc.
  assert (Hsame : same_outbox db db1).
  { subst db1. destruct (bool_decide _); [|done].
    destruct (update_job_status _ _ _ _ _ _) as [[row1 db2]|] eqn:Hu; [|done].
    by apply update_job_status_Some in Hu as (old & _ & _ & _ & ->). }
  clearbody db1. destruct (ocr_results db1 !! _); [done|].
  destruct (existsb _ _); [done|].
  destruct (terminal_text _) as [status|]; [|done].
  destruct (update_job_status _ _ _ ["validating"] _ _) as [[row3 db3]|] eqn:Hu; [|done].
  apply update_job_status_Some in Hu as (old & _ & _ & -> & ->).
  destruct (stored_job _ (set_job_status _ _)) as [done_job|]; [|done].
  destruct Hsame as (Ho & Hn & Hf).
  destruct (jr_webhook_subscription_id row) as [webhook|] eqn:Hw.
  - destruct (terminal_event _) as [event|] eqn:He; [|done]. injection Hc as <- <-.
    right. exists row, webhook, event. eexists. split_and!; try done.
    + simpl. rewrite Ho. unfold new_event. by rewrite Hn.
    + simpl. by rewrite Hn.
  - injection Hc as <- <-. left. by split_and!.
Qed.

Lemma terminal_event_state s event : terminal_event s = Ok event → is_result_state s = true.
Proof. by destruct s. Qed.

Lemma commit_result_outbox now t p j c db : outbox_effect db (db_after (commit_result now t p j c) db).
Proof.
  unfold db_after.
  destruct (commit_result now t p j c db) as [[out db']|] eqn:Hc; [|by apply outbox_unchanged].
  assert (Hcase : (∃ job, out = CommitResultOutcome.Committed job) ∨ db' = db).
  { destruct out as [job| | | |]; [by left; exists job|right..];
      by eapply commit_result_unchanged. }
  destruct Hcase as [[job ->]| ->]; [|by apply outbox_unchanged].
  destruct (commit_result_event _ _ _ _ _ _ _ _ Hc)
    as [Hs|(row & webhook & event & payload & Hj & Hw & He & Ho & Hn & Hf)];
    [by apply outbox_unchanged|].
  apply commit_result_spec in Hc as (row' & res & Hj' & _ & _ & _ & _ & _ & _ & _ & Hjobs & _).
  rewrite Hj in Hj'. injection Hj' as <-. apply select_job_Some in Hj as (Hl & Ht & Hp).
  eapply event_inserted; [|exact Ho|exact Hn|..].
  - eexists. rewrite Hjobs, lookup_insert_eq. split_and!; [done..|]. right.
    exists (terminal_state c). split_and!; [done..|]. by eexists.
  - intros p' t'. by rewrite Hf.
  - intros Hin. exfalso. apply terminal_event_state in He as Hst. unfold JOB_EVENTS in Hin.
    destruct (terminal_state c); simpl in He; try done; injection He as <-; set_solver.
Qed.

(** Claims: at each event, a claim dead-letters it, claims it or leaves it. *)
Lemma dead_letter_step now t p row : delivery_step row (dead_letter now t p row).
Proof.
  unfold dead_letter. destruct (_ && _) eqn:Hd; [|by apply event_kept].
  rewrite !andb_true_iff, Z.eqb_eq in Hd. destruct Hd as (((_ & Hu) & Ha) & _).
  by eapply event_dead_lettered.
Qed.

Lemma dead_letter_undelivered now t p row :
  undelivered (dead_letter now t p row) = true → dead_letter now t p row = row.
Proof.
  unfold dead_letter. destruct (_ && _); [|done]. unfold undelivered. simpl.
  by rewrite andb_false_r.
Qed.

Lemma claimable_event_spec now t p types owner locked row :
  claimable_event now t p types owner locked row = true →
  outbox_in_scope t p row = true ∧ status_in (or_event_type row) types = true
  ∧ undelivered row = true ∧ or_delivery_attempts row < MAXIMUM_DELIVERY_ATTEMPTS.
Proof. unfold claimable_event. rewrite !andb_true_iff, Z.ltb_lt. tauto. Qed.

Lemma claim_rows_step now t p types owner locked limit rows table claimed :
  claim_rows (claimable_event now t p types owner locked) (claim_event now owner) limit
    (map (dead_letter now t p) rows) = (table, claimed) →
  Forall2 delivery_step rows table.
Proof.
  revert limit table claimed. induction rows as [|row rows IH]; intros limit table claimed; simpl.
  { intros [= <- <-]. constructor. }
  destruct limit as [|limit].
  { intros [= <- <-]. constructor; [apply dead_letter_step|]. clear.
    induction rows; simpl; constructor; [apply dead_letter_step|done]. }
  destruct (claimable_event _ _ _ _ _ _ _) eqn:Hc.
  - destruct (claim_rows _ _ limit _) as [rest cl] eqn:Hr. intros [= <- <-].
    constructor; [|by eapply IH]. apply claimable_event_spec in Hc as (_ & _ & Hu & Ha).
    pose proof (dead_letter_undelivered _ _ _ _ Hu) as Hd. rewrite Hd in Hu, Ha |- *.
    by eapply (event_claimed _ _ now owner).
  - destruct (claim_rows _ _ (S limit) _) as [rest cl] eqn:Hr. intros [= <- <-].
    constructor; [apply dead_letter_step|by eapply IH].
Qed.

Lemma flags_safe_same db db' :
  (∀ p t, dispatch_flag db' p t = dispatch_flag db p t) → flags_safe db db'.
Proof. intros Hf p t. rewrite Hf. by left. Qed.

(** Setting the flag to what is pending clears it only when nothing is. *)
Lemma flags_safe_set_pending now t p db0 db1 :
  (∀ product tenant, dispatch_flag db1 product tenant = dispatch_flag db0 product tenant) →
  flags_safe db0 (set_work_scope_pending now (ProductId_str p) (TenantId_str t) DispatchWork
                    (dispatch_events_pending t p db1) db1).
Proof.
  intros Hf product tenant Hflag. rewrite dispatch_flag_set_pending. rewrite <- Hf in Hflag.
  case_decide as Hd; [|by left]. destruct Hd as [_ [= <- <-]].
  destruct (dispatch_events_pending t p db1) eqn:Hp.
  - left. split; [done|]. unfold dispatch_flag in Hflag. by destruct (ocr_work_scopes db1 !! _).
  - right. exact Hp.
Qed.

Lemma claim_job_outbox_outbox now l t p c db :
  outbox_effect db (db_after (claim_job_outbox now l t p c) db).
Proof.
  unfold db_after, claim_job_outbox.
  destruct (validate_lease_owner _); simpl; [|by apply outbox_unchanged].
  destruct (negb _); [by apply outbox_unchanged|].
  destruct (claim_rows _ _ _ _) as [table claimed] eqn:Hr. apply claim_rows_step in Hr.
  destruct (collect_results _ _); simpl; [|by apply outbox_unchanged].
  destruct (zlen _ =? 0).
  - apply events_delivered; [exact Hr|done|]. by apply flags_safe_set_pending.
  - apply events_delivered; [exact Hr|done|]. by apply flags_safe_same.
Qed.

Lemma claim_webhook_outbox_outbox now l t p c db :
  outbox_effect db (db_after (claim_webhook_outbox now l t p c) db).
Proof.
  unfold db_after, claim_webhook_outbox.
  destruct (validate_lease_owner _); simpl; [|by apply outbox_unchanged].
  destruct (negb _); [by apply outbox_unchanged|].
  destruct (claim_rows _ _ _ _) as [table claimed] eqn:Hr. apply claim_rows_step in Hr.
  destruct (collect_results _ _); simpl; [|by apply outbox_unchanged].
  apply events_delivered; [exact Hr|done|]. by apply flags_safe_same.
Qed.

Lemma publishable_step now t p id owner row :
  delivery_step row (if publishable now t p id owner row
    then set_delivery row (Some now) (or_delivery_attempts row) None None (or_dead_lettered_at row)
    else row).
Proof.
  destruct (publishable _ _ _ _ _ _) eqn:Hp; [|by apply event_kept].
  unfold publishable in Hp. rewrite !andb_true_iff in Hp. destruct Hp as (((_ & Hu) & Ho) & _).
  eapply event_published; [done| |done]. by destruct (or_delivery_lease_owner row).
Qed.

Lemma publish_job_outbox_outbox now t p id o db :
  outbox_effect db (db_after (publish_job_outbox now t p id o) db).
Proof.
  unfold db_after, publish_job_outbox.
  destruct (validate_lease_owner _); simpl; [|by apply outbox_unchanged].
  destruct (id <=? 0); [by apply outbox_unchanged|].
  destruct (existsb _ _); [|by apply outbox_unchanged].
  apply events_delivered; [|done|by apply flags_safe_set_pending].
  simpl. induction (ocr_outbox db); simpl; constructor; [apply publishable_step|done].
Qed.

(** ** Work-scope leases *)

(** The candidates of a claim, in order. *)
Definition scope_candidates (now : Z) (locked : string * string → bool) (owner : string)
    (limit : Z) (db : Db) : list ((string * string) * ScopeRow) :=
  take (Z.to_nat limit) (sort_by scope_before
    (List.filter (claimable_scope now owner locked) (map_to_list (ocr_work_scopes db)))).

Lemma scope_candidates_spec now locked owner limit db key s :
  (key, s) ∈ scope_candidates now locked owner limit db →
  ocr_work_scopes db !! key = Some s ∧ claimable_scope now owner locked (key, s) = true.
Proof.
  intros (i & Hin%list_elem_of_lookup_2 & _)%elem_of_take. rewrite elem_of_sort_by in Hin.
  apply list_elem_of_In, List.filter_In in Hin as [Hin Hc]. split; [|done].
  apply elem_of_map_to_list, list_elem_of_In, Hin.
Qed.

Lemma foldr_insert_lookup {A : Type} (f : A → A) (l : list ((string * string) * A))
    (m : gmap (string * string) A) key :
  (∀ k s, (k, s) ∈ l → m !! k = Some s) →
  foldr (λ '(k, s) scopes, <[k := f s]> scopes) m l !! key =
  (if decide (key ∈ l.*1) then f <$> m !! key else m !! key).
Proof.
  induction l as [|[k s] l IH]; intros Hl; [done|].
  assert (IH' := IH (λ k' s' Hin, Hl k' s' (list_elem_of_further _ _ _ Hin))). simpl.
  destruct (decide (k = key)) as [->|Hne].
  - rewrite lookup_insert_eq, decide_True by (left; done).
    by rewrite (Hl key s (list_elem_of_here _ _)).
  - rewrite lookup_insert_ne, IH' by done. apply decide_ext. rewrite elem_of_cons.
    naive_solver.
Qed.

(** A successful claim returns its candidates, and leases exactly those. *)
Lemma claim_work_scopes_Ok now locked claim db scopes db' :
  claim_work_scopes now locked claim db = (Ok scopes, db') →
  let candidates :=
    scope_candidates now locked (scopes_lease_owner claim) (scopes_limit claim) db in
  Forall2 (λ c ws, stored_work_scope c.1 = Ok ws) candidates scopes
  ∧ ∀ key, ocr_work_scopes db' !! key =
      (if decide (key ∈ candidates.*1)
       then (λ s, set_scope_lease s now (Some (scopes_lease_owner claim))
                    (Some (now + LEASE_SECONDS))) <$> ocr_work_scopes db !! key
       else ocr_work_scopes db !! key).
Proof.
  unfold claim_work_scopes. destruct (validate_lease_owner _); [|done].
  destruct (negb (contains _ _ _)); [done|]. destruct (negb _); [done|].
  intros [= Hc <-]. apply collect_results_Ok in Hc. split.
  - eapply Forall2_impl; [exact Hc|]. intros [key s] ws Hs. exact Hs.
  - intros key. simpl. apply foldr_insert_lookup. intros k s Hin.
    by eapply scope_candidates_spec.
Qed.

Lemma claim_work_scopes_outbox now l c db : same_outbox db (claim_work_scopes now l c db).2.
Proof.
  unfold claim_work_scopes. destruct (validate_lease_owner _); [|done].
  destruct (negb (contains _ _ _)); [done|]. destruct (negb _); [done|]. simpl.
  split_and!; [done..|]. intros p t. unfold dispatch_flag. simpl.
  rewrite foldr_insert_lookup.
  - case_decide; [|done]. by destruct (ocr_work_scopes db !! _).
  - intros k s Hin. by eapply scope_candidates_spec.
Qed.

Lemma release_work_scope_outbox now s o db :
  same_outbox db (db_after (release_work_scope now s o) db).
Proof.
  unfold db_after, release_work_scope, ocr_release_work_scope. destruct (validate_lease_owner _); simpl; [|done].
  destruct (ocr_work_scopes db !! _) as [row|] eqn:Hs; [|done].
  destruct (_ && _); [|done]. split_and!; [done..|]. intros p t. unfold dispatch_flag. simpl.
  destruct (decide ((ProductId_str (ws_product_id s), TenantId_str (ws_tenant_id s)) = (p, t)))
    as [<-|Hne].
  - by rewrite lookup_insert_eq, Hs.
  - by rewrite lookup_insert_ne.
Qed.

Section Reachable.
Context (ss js : RawPageWorkflow → Z).

Lemma apply_op_outbox_effect op db : outbox_effect db (apply_op ss js op db).
Proof.
  destruct op; simpl.
  - apply create_outbox.
  - apply cancel_outbox.
  - apply outbox_unchanged, complete_cancellation_outbox.
  - apply commit_result_outbox.
  - apply outbox_unchanged, create_page_workflow_outbox.
  - apply outbox_unchanged, save_outbox.
  - apply outbox_unchanged, create_upload_outbox.
  - apply outbox_unchanged, record_uploaded_outbox.
  - apply outbox_unchanged, claim_upload_inspection_outbox.
  - apply outbox_unchanged, accept_upload_outbox.
  - apply outbox_unchanged, reject_upload_outbox.
  - apply claim_job_outbox_outbox.
  - apply claim_webhook_outbox_outbox.
  - apply publish_job_outbox_outbox.
  - apply outbox_unchanged, claim_work_scopes_outbox.
  - apply outbox_unchanged, release_work_scope_outbox.
Qed.

(** ** The invariant of the outbox *)

(** The shape that [0011_job_outbox_delivery_lease.sql] gives to a row: a lease, a
    publication and a dead letter exclude each other, and the last two are earned. *)
Record event_shape (row : OutboxRow) : Prop := {
  shape_attempts : 0 ≤ or_delivery_attempts row ≤ MAXIMUM_DELIVERY_ATTEMPTS;
  shape_lease : is_Some (or_delivery_lease_owner row) ↔ is_Some (or_delivery_lease_expires_at row);
  shape_leased : is_Some (or_delivery_lease_owner row) →
    undelivered row = true ∧ 1 ≤ or_delivery_attempts row;
  shape_published : is_Some (or_published_at row) →
    or_dead_lettered_at row = None ∧ 1 ≤ or_delivery_attempts row;
  shape_dead : is_Some (or_dead_lettered_at row) →
    or_delivery_attempts row = MAXIMUM_DELIVERY_ATTEMPTS;
}.

(** What a delivery never changes. *)
Definition event_content (row : OutboxRow) :=
  (or_event_id row, or_product_id row, or_tenant_id row, or_job_id row, or_event_type row,
   or_payload row, or_created_at row).

Lemma delivery_step_content row row' : delivery_step row row' → event_content row' = event_content row.
Proof. by intros [-> | now _ _ -> | now owner _ _ -> | now _ _ ->]. Qed.

Lemma undelivered_spec row :
  undelivered row = true ↔ or_published_at row = None ∧ or_dead_lettered_at row = None.
Proof.
  unfold undelivered. rewrite andb_true_iff.
  destruct (or_published_at row), (or_dead_lettered_at row); simpl; naive_solver.
Qed.

Lemma delivery_step_shape row row' : delivery_step row row' → event_shape row → event_shape row'.
Proof.
  intros Hstep [Ha Hl Hld Hp Hd]. unfold MAXIMUM_DELIVERY_ATTEMPTS in *.
  destruct Hstep as [-> | now Hu Hm -> | now owner Hu Hm -> | now Hu Ho ->]; [by split|..];
    apply undelivered_spec in Hu as [Hpub Hdead];
    split; simpl; unfold MAXIMUM_DELIVERY_ATTEMPTS in *; rewrite ?Hpub, ?Hdead;
    try (intros [? [=]]); try done; try (by split; intros [? [=]]).
  - case_match; lia.
  - rewrite undelivered_spec. simpl. split; [done|].
    destruct (_ && _) eqn:Hmine; [|lia]. apply Hld.
    apply andb_true_iff in Hmine as [Hmine _]. by destruct (or_delivery_lease_owner row).
  - split; [done|]. by apply Hld.
Qed.

(** Attempts never decrease, and published or dead-lettered events rest. *)
Lemma delivery_step_mono row row' : delivery_step row row' →
  or_delivery_attempts row ≤ or_delivery_attempts row'
  ∧ (undelivered row = false → row' = row).
Proof.
  intros [-> | now Hu _ -> | now owner Hu _ -> | now Hu _ ->]; (split; [|congruence]); simpl;
    try lia. case_match; lia.
Qed.

Lemma delivery_step_pending row row' product tenant :
  delivery_step row row' → pending_event product tenant row' = true →
  pending_event product tenant row = true.
Proof.
  intros Hstep Hpend. pose proof (delivery_step_content _ _ Hstep) as [= _ Hp Ht _ He _ _].
  destruct (delivery_step_mono _ _ Hstep) as [Ha Hu]. revert Hpend. unfold pending_event.
  rewrite !andb_true_iff, !Z.ltb_lt, Hp, Ht, He. intros ((Hscope & Hun') & Ha').
  split_and!; try tauto; [|lia]. destruct (undelivered row) eqn:Hun; [done|].
  rewrite Hu in Hun' by done. congruence.
Qed.

Record outbox_ok (db : Db) : Prop := {
  outbox_next : 1 ≤ next_event_id db;
  outbox_ids : Forall (λ row, 1 ≤ or_event_id row < next_event_id db) (ocr_outbox db);
  outbox_order : StronglySorted (λ a b, or_event_id a < or_event_id b) (ocr_outbox db);
  outbox_shapes : Forall event_shape (ocr_outbox db);
  outbox_causes : Forall (λ row, event_cause db (or_product_id row) (or_tenant_id row)
                                   (or_job_id row) (or_event_type row)) (ocr_outbox db);
  outbox_flags : ∀ product tenant,
    existsb (pending_event product tenant) (ocr_outbox db) = true →
    dispatch_flag db product tenant = true;
}.

Lemma event_cause_persists db db' product tenant job event_type :
  jobs_ok db → job_effect db db' → event_cause db product tenant job event_type →
  event_cause db' product tenant job event_type.
Proof.
  intros Hok Heff (row & Hl & Hp & Ht & Hcase).
  destruct (job_rows_ok _ Hok _ _ Hl) as [_ (s & Hs & _) _].
  destruct (job_effect_row _ _ _ _ _ Hok Heff Hl Hs)
    as [(Hd & Hl' & _)|(Hd & s' & Hl' & _)]; [by exists row|].
  exists (set_job_status row (job_state_text s')). split_and!; [done..|].
  destruct Hcase as [|(s1 & Hs1 & He & _)]; [by left|].
  rewrite Hs in Hs1. apply job_state_text_inj in Hs1 as ->.
  apply terminal_event_state in He. by destruct s1.
Qed.

Lemma Forall_delivery_step (P Q : OutboxRow → Prop) l l' :
  (∀ row row', delivery_step row row' → P row → Q row') →
  Forall2 delivery_step l l' → Forall P l → Forall Q l'.
Proof.
  intros Himp. induction 1 as [|a a' l l' Hab Hll IH]; [constructor|].
  inversion 1; subst. constructor; eauto.
Qed.

Lemma delivered_order l l' :
  Forall2 delivery_step l l' →
  StronglySorted (λ a b, or_event_id a < or_event_id b) l →
  StronglySorted (λ a b, or_event_id a < or_event_id b) l'.
Proof.
  induction 1 as [|a a' l l' Hab Hll IH]; [constructor|].
  inversion 1 as [|? ? Hs Hall]; subst. constructor; [auto|].
  eapply Forall_delivery_step; [|exact Hll|exact Hall].
  intros r r' Hr Hlt. apply delivery_step_content in Hab as [= -> _ _ _ _ _ _].
  by apply delivery_step_content in Hr as [= -> _ _ _ _ _ _].
Qed.

Lemma delivered_pending l l' product tenant :
  Forall2 delivery_step l l' → existsb (pending_event product tenant) l' = true →
  existsb (pending_event product tenant) l = true.
Proof.
  induction 1 as [|a a' l l' Hab Hll IH]; simpl; [done|]. rewrite !orb_true_iff.
  intros [H|H]; [left; by eapply delivery_step_pending|right; auto].
Qed.

Lemma new_event_shape now id p t j e l : event_shape (new_event now id p t j e l).
Proof.
  split; simpl; unfold MAXIMUM_DELIVERY_ATTEMPTS; try lia; try (by intros [? [=]]).
  by split; intros [? [=]].
Qed.

Lemma StronglySorted_snoc (l : list OutboxRow) row :
  StronglySorted (λ a b, or_event_id a < or_event_id b) l →
  Forall (λ a, or_event_id a < or_event_id row) l →
  StronglySorted (λ a b, or_event_id a < or_event_id b) (l ++ [row]).
Proof.
  induction 1 as [|a l Hs IH Hall]; simpl; [by repeat constructor|].
  inversion 1; subst. constructor; [auto|]. apply Forall_app. by split; [|constructor].
Qed.

Lemma outbox_effect_ok db db' :
  jobs_ok db → job_effect db db' → outbox_ok db → outbox_effect db db' → outbox_ok db'.
Proof.
  intros Hjobs Hjob [Hnext Hids Hord Hsh Hcause Hflags] Heff.
  assert (Hcause' : Forall (λ row, event_cause db' (or_product_id row) (or_tenant_id row)
    (or_job_id row) (or_event_type row)) (ocr_outbox db)).
  { eapply Forall_impl; [exact Hcause|]. intros row. by apply event_cause_persists. }
  destruct Heff as [(Ho & Hn & Hf)|now product tenant job e payload Hc Ho Hn Hf Hnew|Hd Hn Hf].
  - split; rewrite ?Ho, ?Hn; try done. intros p t. rewrite Hf. auto.
  - split; rewrite ?Ho, ?Hn; try lia.
    + apply Forall_app. split; [|apply Forall_singleton; simpl; lia].
      eapply Forall_impl; [exact Hids|]. simpl. lia.
    + apply StronglySorted_snoc; [done|]. eapply Forall_impl; [exact Hids|]. simpl. lia.
    + apply Forall_app. split; [done|]. apply Forall_singleton, new_event_shape.
    + apply Forall_app. split; [done|]. by apply Forall_singleton.
    + intros p t. rewrite existsb_app, orb_true_iff. intros [Hp|Hp]; [auto|].
      cbn [existsb] in Hp. rewrite orb_false_r in Hp. unfold pending_event, new_event in Hp.
      cbn [or_tenant_id or_product_id or_event_type] in Hp.
      rewrite !andb_true_iff, !String.eqb_eq, status_in_spec in Hp.
      destruct Hp as ((((-> & ->) & Hin) & _) & _). auto.
  - split; rewrite ?Hn; try done.
    + eapply Forall_delivery_step; [|exact Hd|exact Hids]. intros r r' Hr.
      by apply delivery_step_content in Hr as [= -> _ _ _ _ _ _].
    + by eapply delivered_order.
    + eapply Forall_delivery_step; [|exact Hd|exact Hsh]. apply delivery_step_shape.
    + eapply Forall_delivery_step; [|exact Hd|exact Hcause']. intros r r' Hr.
      by apply delivery_step_content in Hr as [= _ -> -> -> -> _ _].
    + intros p t Hp. destruct (Hf p t) as [|Hnone]; [|done|congruence].
      apply Hflags. by eapply delivered_pending.
Qed.

Lemma reachable_outbox_ok db : reachable ss js db → jobs_ok db ∧ outbox_ok db.
Proof.
  intros (ops & Hops & ->).
  apply (run_ops_ind ss js (λ db, jobs_ok db ∧ outbox_ok db)); [|done|].
  - intros op db' Hop [Hj Ho]. pose proof (apply_op_job_effect ss js op db' Hop) as Heff.
    split; [by eapply job_effect_ok|].
    eapply outbox_effect_ok; [exact Hj|exact Heff|exact Ho|apply apply_op_outbox_effect].
  - split; [apply empty_jobs_ok|]. split; simpl; first [lia | constructor | done].
Qed.

(** ** The event log *)

Definition event_later (row row' : OutboxRow) : Prop :=
  event_content row' = event_content row
  ∧ or_delivery_attempts row ≤ or_delivery_attempts row'
  ∧ (undelivered row = false → row' = row).

Lemma event_later_refl row : event_later row row.
Proof. by split_and!. Qed.

Lemma event_later_trans a b c : event_later a b → event_later b c → event_later a c.
Proof.
  intros (H1 & H2 & H3) (K1 & K2 & K3). split_and!; [congruence|lia|].
  intros Hu. specialize (H3 Hu). subst b. auto.
Qed.

Lemma apply_op_event op db row : row ∈ ocr_outbox db →
  ∃ row', row' ∈ ocr_outbox (apply_op ss js op db) ∧ event_later row row'.
Proof.
  intros Hin. destruct (apply_op_outbox_effect op db)
    as [(Ho & _ & _)|now p t j e l _ Ho _ _ _|Hd _ _].
  - exists row. rewrite Ho. split; [done|apply event_later_refl].
  - exists row. rewrite Ho, elem_of_app. split; [by left|apply event_later_refl].
  - destruct (proj1 (list_elem_of_lookup _ _) Hin) as [i Hi].
    destruct (Forall2_lookup_l _ _ _ _ _ Hd Hi) as (row' & Hi' & Hstep).
    exists row'. split; [by eapply list_elem_of_lookup_2|].
    split; [by apply delivery_step_content|]. by apply delivery_step_mono.
Qed.

Lemma run_ops_event ops db row : row ∈ ocr_outbox db →
  ∃ row', row' ∈ ocr_outbox (run_ops ss js ops db) ∧ event_later row row'.
Proof.
  revert db row. induction ops as [|op ops IH]; intros db row Hin.
  { exists row. split; [done|apply event_later_refl]. }
  destruct (apply_op_event op db row Hin) as (row1 & Hin1 & H1).
  destruct (IH _ _ Hin1) as (row2 & Hin2 & H2).
  exists row2. split; [exact Hin2|]. by eapply event_later_trans.
Qed.

(** An event identifier names one event. *)
Lemma event_id_unique db row other :
  outbox_ok db → row ∈ ocr_outbox db → other ∈ ocr_outbox db →
  or_event_id other = or_event_id row → other = row.
Proof.
  intros Hok. pose proof (outbox_order _ Hok) as Hord. revert Hord.
  induction 1 as [|a l Hs IH Hall]; [by intros ?%elem_of_nil|].
  rewrite Forall_forall in Hall.
  intros [-> |Hr]%elem_of_cons [-> |Ho]%elem_of_cons Heq; [done| | |auto].
  - specialize (Hall _ Ho). simpl in Hall. lia.
  - specialize (Hall _ Hr). simpl in Hall. lia.
Qed.

(** The outbox is a durable log.  In every reachable database each event has its own
    identifier and the shape the delivery protocol allows (a lease, a publication and a
    dead letter exclude each other; only a claimed event is published, only one whose
    twenty attempts are used is dead-lettered), and its cause is recorded: its job exists
    in the same scope, and a webhook event announces the state the job has.  Whatever
    operations follow, the event stays with the same content, its attempts never
    decrease, and once published or dead-lettered it never changes. *)
Theorem outbox_is_durable_log db ops row :
  reachable ss js db → Forall op_valid ops → row ∈ ocr_outbox db →
  event_shape row
  ∧ (∀ other, other ∈ ocr_outbox db → or_event_id other = or_event_id row → other = row)
  ∧ event_cause db (or_product_id row) (or_tenant_id row) (or_job_id row) (or_event_type row)
  ∧ ∃ row', row' ∈ ocr_outbox (run_ops ss js ops db) ∧ event_later row row' ∧ event_shape row'.
Proof.
  intros Hreach Hops Hin.
  destruct (reachable_outbox_ok _ Hreach) as [_ Hok].
  destruct (reachable_outbox_ok _ (reachable_run _ _ _ _ Hreach Hops)) as [_ Hok'].
  pose proof (outbox_shapes _ Hok) as Hsh. pose proof (outbox_shapes _ Hok') as Hsh'.
  pose proof (outbox_causes _ Hok) as Hcause. rewrite Forall_forall in Hsh, Hsh', Hcause.
  destruct (run_ops_event ops db row Hin) as (row' & Hin' & Hlater).
  split_and!; [auto| |by apply Hcause|].
  - intros other Ho. by apply (event_id_unique db).
  - exists row'. split_and!; auto.
Qed.

(** ** Claims *)

Lemma claim_rows_spec claimable claim limit rows table claimed :
  claim_rows claimable claim limit rows = (table, claimed) →
  claimed = map claim (take limit (List.filter claimable rows))
  ∧ (∀ row, row ∈ rows → claimable row = false → row ∈ table)
  ∧ (∀ row, row ∈ claimed → row ∈ table).
Proof.
  revert limit table claimed. induction rows as [|row rows IH]; intros limit table claimed; simpl.
  { intros [= <- <-]. by rewrite take_nil. }
  destruct limit as [|limit].
  { intros [= <- <-]. rewrite take_0. split_and!; [done|done|]. by intros ? ?%elem_of_nil. }
  destruct (claimable row) eqn:Hc.
  - destruct (claim_rows _ _ limit _) as [rest cl] eqn:Hr. intros [= <- <-].
    destruct (IH _ _ _ Hr) as (-> & Hkeep & Hin). simpl. split_and!; [done| |].
    + intros r [-> |Hr']%elem_of_cons Hf; [congruence|]. right. auto.
    + intros r [-> |Hr']%elem_of_cons; [left|right; auto].
  - destruct (claim_rows _ _ (S limit) _) as [rest cl] eqn:Hr. intros [= <- <-].
    destruct (IH _ _ _ Hr) as (-> & Hkeep & Hin). split_and!; [done| |].
    + intros r [-> |Hr']%elem_of_cons Hf; [left|right; auto].
    + intros r Hr'. right. auto.
Qed.

(** Sweeping dead letters does not change what is claimable. *)
Lemma filter_swept now t p types owner locked rows :
  List.filter (claimable_event now t p types owner locked) (map (dead_letter now t p) rows)
  = List.filter (claimable_event now t p types owner locked) rows.
Proof.
  induction rows as [|row rows IH]; simpl; [done|].
  destruct (claimable_event now t p types owner locked row) eqn:Hc.
  - pose proof (claimable_event_spec _ _ _ _ _ _ _ Hc) as (_ & _ & _ & Ha).
    assert (dead_letter now t p row = row) as ->.
    { unfold dead_letter. rewrite (proj2 (Z.eqb_neq _ _)) by lia.
      by rewrite !andb_false_r. }
    by rewrite Hc, IH.
  - assert (claimable_event now t p types owner locked (dead_letter now t p row) = false) as ->;
      [|done].
    destruct (claimable_event now t p types owner locked (dead_letter now t p row)) eqn:Hd; [|done].
    pose proof (claimable_event_spec _ _ _ _ _ _ _ Hd) as (_ & _ & Hu & _).
    rewrite (dead_letter_undelivered _ _ _ _ Hu) in Hd. congruence.
Qed.

Lemma stored_job_event_id joined ev :
  stored_job_outbox_event joined = Ok ev → event_id ev = or_event_id joined.1.
Proof.
  destruct joined as [row pages]. unfold stored_job_outbox_event. intros H.
  destruct_result H; done.
Qed.

(** The event that a claim returns for a row. *)
Definition event_of (row : OutboxRow) (ev : StoredJobOutboxEvent) : Prop :=
  event_id ev = or_event_id row ∧ JobId_str (event_job_id ev) = or_job_id row.

Lemma stored_job_event_of joined ev : stored_job_outbox_event joined = Ok ev → event_of joined.1 ev.
Proof.
  intros H. split; [by apply stored_job_event_id|]. destruct joined as [row pages].
  unfold stored_job_outbox_event in H. destruct (_ <=? 0); [done|].
  apply and_then_Ok in H as (job & Hjob%map_err_Ok & H). apply and_then_Ok in H as (type & _ & H).
  apply and_then_Ok in H as (count & _ & H). apply and_then_Ok in H as (n & _ & H).
  destruct (negb _); [done|]. injection H as <-. simpl. exact (id_new_str (T := JobId) _ _ Hjob).
Qed.

Lemma stored_webhook_event_id joined ev :
  stored_webhook_outbox_event joined = Ok ev → webhook_event_id ev = or_event_id joined.1.1.
Proof.
  destruct joined as [[row webhook] version]. unfold stored_webhook_outbox_event. intros H.
  destruct_result H; done.
Qed.

Lemma join_upload_row db row joined : join_upload db row = Some joined → joined.1 = row.
Proof. unfold join_upload. intros H. by repeat case_match; simplify_eq. Qed.

Lemma join_result_row db row joined : join_result db row = Some joined → joined.1.1 = row.
Proof. unfold join_result. intros H. by repeat case_match; simplify_eq. Qed.

(** What a claim returns, and what it does to the table. *)
Lemma claim_job_outbox_Ok now locked t p claim db events db' :
  claim_job_outbox now locked t p claim db = Ok (events, db') →
  ∃ table claimed,
    claim_rows (claimable_event now t p JOB_EVENTS (claim_lease_owner claim) locked)
      (claim_event now (claim_lease_owner claim)) (Z.to_nat (claim_limit claim))
      (map (dead_letter now t p) (ocr_outbox db)) = (table, claimed)
    ∧ ocr_outbox db' = table
    ∧ Forall (λ ev, ∃ row, row ∈ claimed ∧ event_of row ev) events.
Proof.
  unfold claim_job_outbox. destruct (validate_lease_owner _); simpl; [|done].
  destruct (negb _); [done|]. destruct (claim_rows _ _ _ _) as [table claimed] eqn:Hr.
  destruct (collect_results _ _) as [evs|] eqn:Hc; simpl; [|done]. intros [= <- <-].
  exists table, claimed. split_and!; [done|by destruct (_ =? _)|].
  apply collect_results_Ok in Hc. rewrite Forall_forall. intros ev Hev.
  destruct (proj1 (list_elem_of_lookup _ _) Hev) as [i Hi].
  destruct (Forall2_lookup_r _ _ _ _ _ Hc Hi) as (joined & Hj & Hs).
  apply list_elem_of_lookup_2, list_elem_of_omap in Hj as (row & Hin & Hjoin).
  exists row. split; [done|]. rewrite <- (join_upload_row _ _ _ Hjoin). by apply stored_job_event_of.
Qed.

Lemma claim_webhook_outbox_Ok now locked t p claim db events db' :
  claim_webhook_outbox now locked t p claim db = Ok (events, db') →
  ∃ table claimed,
    claim_rows (claimable_event now t p WEBHOOK_EVENTS (claim_lease_owner claim) locked)
      (claim_event now (claim_lease_owner claim)) (Z.to_nat (claim_limit claim))
      (map (dead_letter now t p) (ocr_outbox db)) = (table, claimed)
    ∧ ocr_outbox db' = table
    ∧ Forall (λ ev, ∃ row, row ∈ claimed ∧ webhook_event_id ev = or_event_id row) events.
Proof.
  unfold claim_webhook_outbox. destruct (validate_lease_owner _); simpl; [|done].
  destruct (negb _); [done|]. destruct (claim_rows _ _ _ _) as [table claimed] eqn:Hr.
  destruct (collect_results _ _) as [evs|] eqn:Hc; simpl; [|done]. intros [= <- <-].
  exists table, claimed. split_and!; [done|done|].
  apply collect_results_Ok in Hc. rewrite Forall_forall. intros ev Hev.
  destruct (proj1 (list_elem_of_lookup _ _) Hev) as [i Hi].
  destruct (Forall2_lookup_r _ _ _ _ _ Hc Hi) as (joined & Hj & Hs).
  apply list_elem_of_lookup_2, list_elem_of_omap in Hj as (row & Hin & Hjoin).
  exists row. split; [done|]. rewrite (stored_webhook_event_id _ _ Hs).
  by rewrite (join_result_row _ _ _ Hjoin).
Qed.

(** A claimed row comes from a claimable one. *)
Lemma claimed_from now t p types owner locked limit rows table claimed row :
  claim_rows (claimable_event now t p types owner locked) (claim_event now owner) limit
    (map (dead_letter now t p) rows) = (table, claimed) → row ∈ claimed →
  ∃ old, old ∈ rows ∧ claimable_event now t p types owner locked old = true
    ∧ row = claim_event now owner old ∧ row ∈ table.
Proof.
  intros (Hc & _ & Hin)%claim_rows_spec Hrow. rewrite filter_swept in Hc.
  pose proof (Hin _ Hrow) as Htab. subst claimed.
  apply list_elem_of_fmap in Hrow as (old & -> & (i & Hi%list_elem_of_lookup_2 & _)%elem_of_take).
  apply list_elem_of_In, List.filter_In in Hi as [Hi Hcl]. exists old.
  split_and!; [by apply list_elem_of_In|done..].
Qed.

(** An event that cannot be claimed is not returned, and stays as it is unless it is
    dead-lettered. *)
Lemma unclaimable_not_returned db now t p types owner locked limit table claimed row :
  outbox_ok db → row ∈ ocr_outbox db →
  claimable_event now t p types owner locked row = false →
  claim_rows (claimable_event now t p types owner locked) (claim_event now owner) limit
    (map (dead_letter now t p) (ocr_outbox db)) = (table, claimed) →
  ∀ r, r ∈ claimed → or_event_id r ≠ or_event_id row.
Proof.
  intros Hok Hin Hno Hr r Hr' Heq.
  destruct (claimed_from _ _ _ _ _ _ _ _ _ _ _ Hr Hr') as (old & Hold & Hcl & -> & _).
  assert (old = row) as -> by (by apply (event_id_unique db)). congruence.
Qed.

(** ** Publication *)

Lemma publishable_id now t p id owner row :
  publishable now t p id owner row = true → or_event_id row = id.
Proof. unfold publishable. rewrite !andb_true_iff, Z.eqb_eq. tauto. Qed.

(** Publishing an event that is not the caller's to publish changes nothing. *)
Lemma publish_refused now t p owner db row :
  outbox_ok db → row ∈ ocr_outbox db → outbox_in_scope t p row = true →
  is_valid_lease_owner owner = true → publishable now t p (or_event_id row) owner row = false →
  publish_job_outbox now t p (or_event_id row) owner db =
  Ok (if is_none (or_published_at row) then PublishJobOutboxOutcome.LeaseLost
      else PublishJobOutboxOutcome.Existing, db).
Proof.
  intros Hok Hin Hs Hv Hno. unfold publish_job_outbox, validate_lease_owner. rewrite Hv. simpl.
  pose proof (outbox_ids _ Hok) as Hids. rewrite Forall_forall in Hids.
  rewrite (proj2 (Z.leb_gt _ _)) by (specialize (Hids _ Hin); simpl in Hids; lia).
  assert (existsb (publishable now t p (or_event_id row) owner) (ocr_outbox db) = false) as ->.
  { apply existsb_false. intros other Ho.
    destruct (publishable _ _ _ _ _ other) eqn:Hp; [|done].
    pose proof (publishable_id _ _ _ _ _ _ Hp) as Hid.
    assert (other = row) as -> by (by apply (event_id_unique db)). congruence. }
  destruct (List.find _ _) as [found|] eqn:Hf.
  - apply find_Some_spec in Hf as [Hfound [_ Hid%Z.eqb_eq]%andb_true_iff].
    by rewrite (event_id_unique db row found Hok Hin Hfound Hid).
  - exfalso. assert (Hnone := List.find_none _ _ Hf row (proj1 (list_elem_of_In _ _) Hin)).
    simpl in Hnone. by rewrite Hs, Z.eqb_refl in Hnone.
Qed.

(** While one worker's lease on an event is live no other worker gets it: claims by
    others, of job events or of webhook events, do not return it and leave it as it is,
    and an attempt by another to publish it is answered with a lost lease. *)
Theorem event_lease_excludes db now t p row owner expires other :
  reachable ss js db → row ∈ ocr_outbox db →
  or_delivery_lease_owner row = Some owner → or_delivery_lease_expires_at row = Some expires →
  now < expires → other ≠ owner →
  (∀ locked claim events db', claim_lease_owner claim = other →
     claim_job_outbox now locked t p claim db = Ok (events, db') →
     row ∈ ocr_outbox db' ∧ Forall (λ ev, event_id ev ≠ or_event_id row) events)
  ∧ (∀ locked claim events db', claim_lease_owner claim = other →
     claim_webhook_outbox now locked t p claim db = Ok (events, db') →
     row ∈ ocr_outbox db' ∧ Forall (λ ev, webhook_event_id ev ≠ or_event_id row) events)
  ∧ (outbox_in_scope t p row = true → is_valid_lease_owner other = true →
     publish_job_outbox now t p (or_event_id row) other db
     = Ok (PublishJobOutboxOutcome.LeaseLost, db)).
Proof.
  intros Hreach Hin Ho He Hlt Hne. destruct (reachable_outbox_ok _ Hreach) as [_ Hok].
  assert (Hother : owned_by (or_delivery_lease_owner row) other = false).
  { rewrite Ho. apply bool_decide_eq_false. congruence. }
  assert (Hover : lease_over now (or_delivery_lease_expires_at row) = false).
  { rewrite He. simpl. lia. }
  assert (Hno : ∀ types locked, claimable_event now t p types other locked row = false).
  { intros types locked. unfold claimable_event. rewrite Hother, Hover, He. simpl.
    by rewrite !andb_false_r. }
  assert (Hswept : dead_letter now t p row = row).
  { unfold dead_letter. by rewrite Hover, andb_false_r. }
  assert (Hstay : ∀ types locked limit table claimed,
    claim_rows (claimable_event now t p types other locked) (claim_event now other) limit
      (map (dead_letter now t p) (ocr_outbox db)) = (table, claimed) → row ∈ table).
  { intros types locked limit table claimed (_ & Hkeep & _)%claim_rows_spec.
    apply Hkeep; [|done]. rewrite <- Hswept. by apply list_elem_of_fmap_2. }
  split_and!.
  - intros locked claim events db' <- (table & claimed & Hr & -> & Hev)%claim_job_outbox_Ok.
    split; [by eapply Hstay|]. eapply Forall_impl; [exact Hev|].
    intros ev (r & Hrin & -> & _). by eapply unclaimable_not_returned.
  - intros locked claim events db' <- (table & claimed & Hr & -> & Hev)%claim_webhook_outbox_Ok.
    split; [by eapply Hstay|]. eapply Forall_impl; [exact Hev|].
    intros ev (r & Hrin & ->). by eapply unclaimable_not_returned.
  - intros Hs Hv. rewrite publish_refused; try done.
    + pose proof (outbox_shapes _ Hok) as Hsh. rewrite Forall_forall in Hsh.
      destruct (shape_leased _ (Hsh _ Hin)) as [[-> _]%undelivered_spec _]; [by eexists|done].
    + unfold publishable. by rewrite Hother, andb_false_r.
Qed.

(** C16: an event claimed by a worker and published under its lease is delivered once:
    the publication succeeds, and whatever operations follow, every further publication
    of the event is answered as already done and no claim ever returns it again. *)
Theorem claimed_event_published_once db now locked t p claim events db1 ev now' ops :
  reachable ss js db → claim_job_outbox now locked t p claim db = Ok (events, db1) →
  ev ∈ events → now' < now + LEASE_SECONDS → Forall op_valid ops →
  ∃ db2,
    publish_job_outbox now' t p (event_id ev) (claim_lease_owner claim) db1
    = Ok (PublishJobOutboxOutcome.Published, db2)
    ∧ (∀ now2 owner, is_valid_lease_owner owner = true →
         publish_job_outbox now2 t p (event_id ev) owner (run_ops ss js ops db2)
         = Ok (PublishJobOutboxOutcome.Existing, run_ops ss js ops db2))
    ∧ (∀ now2 locked2 t2 p2 claim2 events2 db3,
         claim_job_outbox now2 locked2 t2 p2 claim2 (run_ops ss js ops db2) = Ok (events2, db3) →
         Forall (λ e, event_id e ≠ event_id ev) events2).
Proof.
  intros Hreach Hclaim Hev Hlt Hops.
  assert (Hdb1 : db1 = apply_op ss js (OpClaimJobOutbox now locked t p claim) db).
  { simpl. unfold db_after. by rewrite Hclaim. }
  assert (Hreach1 : reachable ss js db1).
  { rewrite Hdb1. by apply reachable_step. }
  destruct (reachable_outbox_ok _ Hreach1) as [_ Hok1].
  assert (Hv : is_valid_lease_owner (claim_lease_owner claim) = true).
  { unfold claim_job_outbox, validate_lease_owner in Hclaim. by destruct (is_valid_lease_owner _). }
  destruct (claim_job_outbox_Ok _ _ _ _ _ _ _ _ Hclaim) as (table & claimed & Hr & Htab & Hids).
  rewrite Forall_forall in Hids. destruct (Hids _ Hev) as (row & Hrow & Hid & _).
  destruct (claimed_from _ _ _ _ _ _ _ _ _ _ _ Hr Hrow) as (old & _ & Hcl & Hold & Hin).
  rewrite <- Htab in Hin. apply claimable_event_spec in Hcl as (Hs & _ & Hu & _).
  assert (Hscope : outbox_in_scope t p row = true) by (by rewrite Hold).
  assert (Hpub : publishable now' t p (event_id ev) (claim_lease_owner claim) row = true).
  { unfold publishable. rewrite Hid, Hscope, Z.eqb_refl, Hold.
    unfold undelivered, owned_by, lease_live in *. cbn -[LEASE_SECONDS].
    rewrite Hu, bool_decide_eq_true_2 by done. simpl. lia. }
  set (published := set_delivery row (Some now') (or_delivery_attempts row) None None
    (or_dead_lettered_at row)).
  assert (Hpublish : ∃ db2, publish_job_outbox now' t p (event_id ev) (claim_lease_owner claim) db1
    = Ok (PublishJobOutboxOutcome.Published, db2) ∧ published ∈ ocr_outbox db2).
  { pose proof (outbox_ids _ Hok1) as Hpos. rewrite Forall_forall in Hpos.
    specialize (Hpos _ Hin). simpl in Hpos.
    unfold publish_job_outbox, validate_lease_owner. rewrite Hv. simpl.
    rewrite (proj2 (Z.leb_gt _ _)) by lia.
    assert (existsb (publishable now' t p (event_id ev) (claim_lease_owner claim))
      (ocr_outbox db1) = true) as ->.
    { apply existsb_exists. exists row. split; [by apply list_elem_of_In|done]. }
    eexists. split; [done|]. simpl. apply list_elem_of_fmap. exists row.
    split; [by rewrite Hpub|done]. }
  destruct Hpublish as (db2 & Hpublish & Hin2). exists db2. split; [done|].
  assert (Hreach2 : reachable ss js (run_ops ss js ops db2)).
  { apply reachable_run; [|done].
    assert (db2 = apply_op ss js (OpPublishJobOutbox now' t p (event_id ev)
      (claim_lease_owner claim)) db1) as ->.
    { simpl. unfold db_after. by rewrite Hpublish. }
    by apply reachable_step. }
  destruct (reachable_outbox_ok _ Hreach2) as [_ Hok2].
  destruct (run_ops_event ops db2 published Hin2) as (later & Hlater & _ & _ & Hsame).
  rewrite Hsame in Hlater by done. split.
  - intros now2 owner Hv2. rewrite Hid. change (or_event_id row) with (or_event_id published).
    rewrite publish_refused; try done.
    unfold publishable, undelivered. simpl. by rewrite !andb_false_r.
  - intros now2 locked2 t2 p2 claim2 events2 db3 (tab2 & cl2 & Hr2 & _ & Hids2)%claim_job_outbox_Ok.
    eapply Forall_impl; [exact Hids2|]. intros e (r & Hr3 & -> & _). rewrite Hid.
    change (or_event_id row) with (or_event_id published).
    eapply unclaimable_not_returned; [exact Hok2|exact Hlater| |exact Hr2|exact Hr3].
    unfold claimable_event, undelivered. simpl. by rewrite !andb_false_r.
Qed.

(** ** Claims return the oldest deliverable events *)

Lemma job_event_decodes db row :
  reachable ss js db → or_event_type row ∈ JOB_EVENTS → 1 ≤ or_event_id row →
  event_cause db (or_product_id row) (or_tenant_id row) (or_job_id row) (or_event_type row) →
  ∃ joined ev, join_upload db row = Some joined ∧ stored_job_outbox_event joined = Ok ev.
Proof.
  intros Hreach Htype Hid (job & Hl & Hp & Ht & _).
  destruct (reachable_job_sources ss js db Hreach) as [Hu Hj].
  destruct (Hj _ _ Hl) as (up & Hup & Hs & Hut & Hupp).
  pose proof (row_state _ _ UploadState.Accepted _ (Hu _ _ Hup) Hs eq_refl)
    as (_ & _ & (src & Hsrc & _ & _ & _ & Hpc & _) & _).
  destruct (job_rows_ok _ (reachable_jobs_ok _ _ _ Hreach) _ _ Hl) as [(id & Hjid)%is_ok_true _ _].
  assert (Hparser : ∃ parser, ur_parser up = Some parser ∧ pi_page_count parser = as_page_count src
    ∧ checked u32_max (pi_page_count parser) = Some (pi_page_count parser)).
  { unfold stored_accepted_source in Hsrc. destruct (ur_source up) as [[[[[? ?] ?] ?] ?]|];
      simpl in Hsrc; [|done].
    destruct (ur_parser up) as [parser|]; simpl in Hsrc; [|done].
    destruct (checked u32_max (pi_page_count parser)) as [count|] eqn:Hc; simpl in Hsrc; [|done].
    exists parser. pose proof (proj1 (checked_Some _ _ _) Hc) as [-> _].
    split_and!; [done| |done]. destruct_result Hsrc. done. }
  destruct Hparser as (parser & Hparser & Hcount & Hchecked).
  assert (Hjoin : join_upload db row = Some (row, Some (pi_page_count parser))).
  { unfold join_upload, event_job. rewrite Hl, Hp, Ht, !String.eqb_refl. simpl.
    rewrite Hup, Hut, Hupp, !String.eqb_refl. simpl. by rewrite Hparser. }
  exists (row, Some (pi_page_count parser)). unfold stored_job_outbox_event.
  rewrite (proj2 (Z.leb_gt _ _)) by lia. rewrite Hjid. cbn [map_err and_then].
  assert (Htypes : or_event_type row = "ocr.job.accepted.v1"
    ∨ or_event_type row = "ocr.job.cancellation_requested.v1") by (unfold JOB_EVENTS in Htype; set_solver).
  destruct Htypes as [-> | ->]; cbn -[checked]; rewrite Hchecked; cbn [ok_or and_then];
    rewrite (proj2 (contains_true _ _ _)) by lia; eauto.
Qed.

Lemma collect_omap_total {A B C E : Type} (f : A → option B) (g : B → result E C) (key : C → Z)
    (id : A → Z) l :
  (∀ a, a ∈ l → ∃ b c, f a = Some b ∧ g b = Ok c ∧ key c = id a) →
  ∃ cs, collect_results g (omap f l) = Ok cs ∧ key <$> cs = id <$> l.
Proof.
  induction l as [|a l IH]; intros Hl; [by exists []|].
  destruct (Hl a) as (b & c & Hf & Hg & Hk); [left|].
  destruct IH as (cs & Hcs & Hkeys); [intros x Hx; apply Hl; by right|].
  exists (c :: cs). csimpl. rewrite Hf. simpl. rewrite Hg. simpl. rewrite Hcs. simpl.
  split; [done|]. by rewrite Hk, Hkeys.
Qed.

(** A claim succeeds, and the model lists the events by identifier. *)
Lemma claim_job_outbox_total db now locked t p claim :
  reachable ss js db → is_valid_lease_owner (claim_lease_owner claim) = true →
  contains 1 100 (claim_limit claim) = true →
  ∃ events db',
    claim_job_outbox now locked t p claim db = Ok (events, db')
    ∧ event_id <$> events
      = or_event_id <$> take (Z.to_nat (claim_limit claim))
          (List.filter (claimable_event now t p JOB_EVENTS (claim_lease_owner claim) locked)
             (ocr_outbox db)).
Proof.
  intros Hreach Hv Hl. destruct (reachable_outbox_ok _ Hreach) as [_ Hok].
  unfold claim_job_outbox, validate_lease_owner. rewrite Hv, Hl. simpl.
  destruct (claim_rows _ _ _ _) as [table claimed] eqn:Hr.
  pose proof Hr as (Hcl & _ & _)%claim_rows_spec. rewrite filter_swept in Hcl.
  destruct (collect_omap_total (join_upload (with_outbox db table)) stored_job_outbox_event
    event_id or_event_id claimed) as (events & Hev & Hkeys).
  { intros row Hrow. destruct (claimed_from _ _ _ _ _ _ _ _ _ _ _ Hr Hrow)
      as (old & Hold & Hc & -> & _).
    pose proof (outbox_ids _ Hok) as Hids. pose proof (outbox_causes _ Hok) as Hcauses.
    rewrite Forall_forall in Hids, Hcauses.
    apply claimable_event_spec in Hc as (_ & Htype%status_in_spec & _ & _).
    destruct (job_event_decodes db (claim_event now (claim_lease_owner claim) old))
      as (joined & ev & Hj & Hs); [done|exact Htype| |exact (Hcauses _ Hold)|].
    { specialize (Hids _ Hold). simpl in *. lia. }
    exists joined, ev. split_and!; [exact Hj|done|].
    rewrite (stored_job_event_id _ _ Hs). by rewrite (join_upload_row _ _ _ Hj). }
  rewrite Hev. simpl. eexists _, _. split; [done|]. rewrite Hkeys, Hcl.
  clear. induction (take _ _) as [|row rows IH]; csimpl; [done|]. by rewrite IH.
Qed.

(** A claim of job events with a valid owner and limit succeeds in every reachable
    database, and returns exactly the oldest claimable events of the scope, as many as
    the limit allows - the query does not promise their order. *)
Theorem claim_returns_oldest_events db now locked t p claim :
  reachable ss js db → is_valid_lease_owner (claim_lease_owner claim) = true →
  contains 1 100 (claim_limit claim) = true →
  ∃ events db',
    claim_job_outbox now locked t p claim db = Ok (events, db')
    ∧ event_id <$> events
      ≡ₚ or_event_id <$> take (Z.to_nat (claim_limit claim))
          (List.filter (claimable_event now t p JOB_EVENTS (claim_lease_owner claim) locked)
             (ocr_outbox db)).
Proof.
  intros Hreach Hv Hl.
  destruct (claim_job_outbox_total db now locked t p claim Hreach Hv Hl)
    as (events & db' & Hclaim & Hids).
  exists events, db'. split; [done|]. by rewrite Hids.
Qed.

(** ** Discovery of work *)

Definition scope_key (scope : StoredWorkScope) : string * string :=
  (ProductId_str (ws_product_id scope), TenantId_str (ws_tenant_id scope)).

Lemma stored_work_scope_key key scope : stored_work_scope key = Ok scope → scope_key scope = key.
Proof.
  destruct key as [product tenant]. unfold stored_work_scope. simpl.
  destruct (ProductId_new product) as [pid|] eqn:Hp; simpl; [|done].
  destruct (TenantId_new tenant) as [tid|] eqn:Ht; simpl; [|done]. intros [= <-].
  unfold scope_key. simpl. pose proof (id_new_str product pid Hp) as Hp'.
  pose proof (id_new_str tenant tid Ht) as Ht'. simpl in Hp', Ht'. congruence.
Qed.

(** A returned scope was a candidate, and a candidate's scope is returned. *)
Lemma claimed_scope now locked claim db scopes db' scope :
  claim_work_scopes now locked claim db = (Ok scopes, db') →
  scope ∈ scopes ↔ (∃ s, (scope_key scope, s) ∈
    scope_candidates now locked (scopes_lease_owner claim) (scopes_limit claim) db).
Proof.
  intros [Hc _]%claim_work_scopes_Ok. split.
  - intros Hin. destruct (proj1 (list_elem_of_lookup _ _) Hin) as [i Hi].
    destruct (Forall2_lookup_r _ _ _ _ _ Hc Hi) as ([key s] & Hk & Hs).
    exists s. rewrite (stored_work_scope_key _ _ Hs). by eapply list_elem_of_lookup_2.
  - intros [s Hin]. destruct (proj1 (list_elem_of_lookup _ _) Hin) as [i Hi].
    destruct (Forall2_lookup_l _ _ _ _ _ Hc Hi) as (ws & Hw & Hs).
    apply stored_work_scope_key in Hs. simpl in Hs.
    assert (ws = scope) as <-; [|by eapply list_elem_of_lookup_2].
    destruct ws as [[p1] [t1]], scope as [[p2] [t2]]. unfold scope_key in Hs. simpl in Hs. congruence.
Qed.

(** Dispatch work is never lost from sight.  In every reachable database a scope with
    a job event still to deliver has its dispatch flag set, so a claim of work scopes
    whose limit covers the directory returns the scope as soon as no other worker's
    lease on it is live and no other transaction holds its row. *)
Theorem dispatch_work_discoverable db t p now locked claim scopes db' :
  reachable ss js db → dispatch_events_pending t p db = true →
  claim_work_scopes now locked claim db = (Ok scopes, db') →
  zlen (map_to_list (ocr_work_scopes db)) ≤ scopes_limit claim →
  (∀ s, ocr_work_scopes db !! (ProductId_str p, TenantId_str t) = Some s →
     lease_live now (scope_lease_expires_at s) = false ∨ scope_lease_owner s = Some (scopes_lease_owner claim)) →
  locked (ProductId_str p, TenantId_str t) = false →
  mkStoredWorkScope p t ∈ scopes.
Proof.
  intros Hreach Hpend Hclaim Hlimit Hfree Hlocked.
  destruct (reachable_outbox_ok _ Hreach) as [_ Hok].
  pose proof (outbox_flags _ Hok (ProductId_str p) (TenantId_str t) Hpend) as Hflag.
  unfold dispatch_flag in Hflag.
  destruct (ocr_work_scopes db !! (ProductId_str p, TenantId_str t)) as [s|] eqn:Hs; [|done].
  apply (proj2 (claimed_scope _ _ _ _ _ _ _ Hclaim)). exists s. unfold scope_candidates, scope_key.
  simpl. rewrite firstn_all2.
  - apply elem_of_sort_by, list_elem_of_In, List.filter_In. split.
    + by apply list_elem_of_In, elem_of_map_to_list.
    + unfold claimable_scope. rewrite Hflag, Hlocked, orb_true_r, !andb_true_r.
      destruct (Hfree s eq_refl) as [Hdead|Hmine].
      * apply orb_true_iff. unfold lease_live in Hdead. unfold lease_over.
        destruct (scope_lease_expires_at s); simpl; [right; lia|left; by rewrite orb_true_r].
      * unfold owned_by. by rewrite Hmine, bool_decide_eq_true_2.
  - rewrite sort_by_length. unfold zlen in Hlimit.
    pose proof (List.filter_length_le (claimable_scope now (scopes_lease_owner claim) locked)
      (map_to_list (ocr_work_scopes db))). lia.
Qed.
End Reachable.

(** A claimed work scope belongs to its worker for the length of the lease: another
    worker's claim does not return it and its release fails without effect, while
    the owner's release succeeds and clears the lease. *)
Theorem scope_lease_excludes db now locked claim scopes db1 scope other now' :
  claim_work_scopes now locked claim db = (Ok scopes, db1) → scope ∈ scopes →
  other ≠ scopes_lease_owner claim → now' < now + LEASE_SECONDS →
  (∀ locked' claim' scopes' db2, scopes_lease_owner claim' = other →
     claim_work_scopes now' locked' claim' db1 = (Ok scopes', db2) → scope ∉ scopes')
  ∧ (is_valid_lease_owner other = true → release_work_scope now' scope other db1 = Err Database)
  ∧ ∃ db2, release_work_scope now' scope (scopes_lease_owner claim) db1 = Ok (true, db2)
      ∧ ∃ s, ocr_work_scopes db2 !! scope_key scope = Some s
          ∧ scope_lease_owner s = None ∧ scope_lease_expires_at s = None.
Proof.
  intros Hclaim Hin Hne Hlt.
  pose proof (proj1 (claimed_scope _ _ _ _ _ _ _ Hclaim) Hin) as [s Hcand].
  pose proof (scope_candidates_spec _ _ _ _ _ _ _ Hcand) as [Hs _].
  pose proof (claim_work_scopes_Ok _ _ _ _ _ _ Hclaim) as [_ Hlook].
  specialize (Hlook (scope_key scope)). rewrite decide_True in Hlook
    by (apply list_elem_of_fmap; by exists (scope_key scope, s)).
  rewrite Hs in Hlook. simpl in Hlook.
  assert (Hlive : lease_live now' (Some (now + LEASE_SECONDS)) = true) by (simpl; lia).
  split_and!.
  - intros locked' claim' scopes' db2 Hother Hclaim2 Hin2.
    pose proof (proj1 (claimed_scope _ _ _ _ _ _ _ Hclaim2) Hin2) as [s2 Hcand2].
    apply scope_candidates_spec in Hcand2 as [Hs2 Hcl]. rewrite Hlook in Hs2. injection Hs2 as <-.
    unfold claimable_scope, set_scope_lease, owned_by in Hcl. simpl in Hcl.
    rewrite bool_decide_eq_false_2 in Hcl by congruence.
    rewrite (proj2 (Z.leb_gt _ _)) in Hcl by lia. done.
  - intros Hv. unfold release_work_scope, ocr_release_work_scope, validate_lease_owner. rewrite Hv. simpl.
    unfold scope_key in Hlook. rewrite Hlook. simpl. unfold owned_by.
    by rewrite bool_decide_eq_false_2 by congruence.
  - assert (Hv : is_valid_lease_owner (scopes_lease_owner claim) = true).
    { unfold claim_work_scopes, validate_lease_owner in Hclaim.
      by destruct (is_valid_lease_owner _). }
    unfold release_work_scope, ocr_release_work_scope, validate_lease_owner. rewrite Hv. simpl.
    unfold scope_key in *. rewrite Hlook. simpl. unfold owned_by.
    rewrite bool_decide_eq_true_2 by done. simpl in Hlive. rewrite Hlive. simpl.
    eexists. split; [done|]. simpl. rewrite lookup_insert_eq. by eexists.
Qed.

(** ** Witnesses *)

Definition sample_event : OutboxRow :=
  new_event 5 1 "prod" "ten_a" "job_1" "ocr.job.accepted.v1"
    [("job_id", "job_1"); ("status", "accepted")].
Definition sample_claim : ClaimJobOutbox := mkClaimJobOutbox "worker-1" 10.
Definition sample_claim_op : StoreOp :=
  OpClaimJobOutbox 6 (λ _, false) sample_tenant sample_product sample_claim.
Definition sample_claimed_ops : list StoreOp := sample_job_ops ++ [sample_claim_op].
Definition sample_delivered : StoredJobOutboxEvent :=
  mkStoredJobOutboxEvent 1 sample_job JobOutboxEventType.Accepted 1.

Lemma sample_job_reachable : reachable sample_size sample_size (sample_db sample_job_ops).
Proof. exists sample_job_ops. split; [|done]. by eapply sample_valid_prefix. Qed.

Lemma sample_claimed_reachable : reachable sample_size sample_size (sample_db sample_claimed_ops).
Proof.
  exists sample_claimed_ops. split; [|done]. apply Forall_app.
  split; [by eapply sample_valid_prefix|by repeat constructor].
Qed.

Lemma sample_event_written : ocr_outbox (sample_db sample_job_ops) = [sample_event].
Proof. vm_compute. reflexivity. Qed.

Lemma sample_event_claimed :
  ocr_outbox (sample_db sample_claimed_ops) = [claim_event 6 "worker-1" sample_event].
Proof. vm_compute. reflexivity. Qed.

Theorem outbox_is_durable_log_witness :
  sample_event ∈ ocr_outbox (sample_db sample_job_ops) ∧ event_shape sample_event.
Proof.
  assert (Hin : sample_event ∈ ocr_outbox (sample_db sample_job_ops))
    by (rewrite sample_event_written; left).
  destruct (outbox_is_durable_log sample_size sample_size _ [sample_claim_op] sample_event
    sample_job_reachable ltac:(by repeat constructor) Hin) as (Hshape & _).
  split; [exact Hin|exact Hshape].
Defined.

Theorem event_lease_excludes_witness :
  publish_job_outbox 7 sample_tenant sample_product 1 "worker-2" (sample_db sample_claimed_ops)
  = Ok (PublishJobOutboxOutcome.LeaseLost, sample_db sample_claimed_ops).
Proof.
  assert (Hin : claim_event 6 "worker-1" sample_event ∈ ocr_outbox (sample_db sample_claimed_ops))
    by (rewrite sample_event_claimed; left).
  destruct (event_lease_excludes sample_size sample_size _ 7 sample_tenant sample_product _
    "worker-1" 306 "worker-2" sample_claimed_reachable Hin eq_refl eq_refl ltac:(lia)
    ltac:(discriminate)) as (_ & _ & Hpublish).
  exact (Hpublish eq_refl eq_refl).
Defined.

Theorem claimed_event_published_once_witness :
  ∃ db1 db2, claim_job_outbox 6 (λ _, false) sample_tenant sample_product sample_claim
      (sample_db sample_job_ops) = Ok ([sample_delivered], db1)
    ∧ publish_job_outbox 7 sample_tenant sample_product 1 "worker-1" db1
      = Ok (PublishJobOutboxOutcome.Published, db2).
Proof.
  assert (Hclaim : ∃ db1, claim_job_outbox 6 (λ _, false) sample_tenant sample_product sample_claim
    (sample_db sample_job_ops) = Ok ([sample_delivered], db1))
    by (eexists; vm_compute; reflexivity).
  destruct Hclaim as [db1 Hclaim]. exists db1.
  destruct (claimed_event_published_once sample_size sample_size _ 6 (λ _, false) sample_tenant
    sample_product sample_claim [sample_delivered] db1 sample_delivered 7 [] sample_job_reachable
    Hclaim ltac:(left) ltac:(unfold LEASE_SECONDS; lia) ltac:(constructor))
    as (db2 & Hpublish & _).
  exists db2. split; [exact Hclaim|exact Hpublish].
Defined.

Theorem claim_returns_oldest_events_witness :
  ∃ events db', claim_job_outbox 6 (λ _, false) sample_tenant sample_product sample_claim
    (sample_db sample_job_ops) = Ok (events, db') ∧ event_id <$> events ≡ₚ [1].
Proof.
  destruct (claim_returns_oldest_events sample_size sample_size _ 6 (λ _, false) sample_tenant
    sample_product sample_claim sample_job_reachable eq_refl eq_refl)
    as (events & db' & Hclaim & Hids).
  exists events, db'. split; [exact Hclaim|]. rewrite Hids, sample_event_written.
  vm_compute. constructor. constructor.
Defined.

Definition sample_scope : StoredWorkScope := mkStoredWorkScope sample_product sample_tenant.
Definition sample_scopes_claim : ClaimWorkScopes := mkClaimWorkScopes "worker-1" 10.

Lemma sample_scope_claimed :
  ∃ db1, claim_work_scopes 6 (λ _, false) sample_scopes_claim (sample_db sample_job_ops)
    = (Ok [sample_scope], db1).
Proof. eexists. vm_compute. reflexivity. Qed.

Theorem dispatch_work_discoverable_witness :
  sample_scope ∈ [sample_scope] ∧ dispatch_events_pending sample_tenant sample_product
    (sample_db sample_job_ops) = true.
Proof.
  assert (Hpend : dispatch_events_pending sample_tenant sample_product
    (sample_db sample_job_ops) = true) by (vm_compute; reflexivity).
  assert (Hscopes : map_to_list (ocr_work_scopes (sample_db sample_job_ops))
    = [(("prod", "ten_a"), mkScopeRow false true None None 5)]) by (vm_compute; reflexivity).
  destruct sample_scope_claimed as [db1 Hclaim].
  assert (Hfree : ∀ s, ocr_work_scopes (sample_db sample_job_ops) !! ("prod", "ten_a") = Some s →
    lease_live 6 (scope_lease_expires_at s) = false
    ∨ scope_lease_owner s = Some (scopes_lease_owner sample_scopes_claim)).
  { intros s Hs. apply elem_of_map_to_list in Hs. rewrite Hscopes in Hs.
    apply list_elem_of_singleton in Hs. injection Hs as ->. left. reflexivity. }
  assert (Hlimit : zlen (map_to_list (ocr_work_scopes (sample_db sample_job_ops))) ≤ 10)
    by (rewrite Hscopes; unfold zlen; simpl; lia).
  pose proof (dispatch_work_discoverable sample_size sample_size _ sample_tenant sample_product 6
    (λ _, false) sample_scopes_claim [sample_scope] db1 sample_job_reachable Hpend Hclaim Hlimit
    Hfree eq_refl) as Hin.
  split; [exact Hin|exact Hpend].
Defined.

Theorem scope_lease_excludes_witness :
  ∃ db1, claim_work_scopes 6 (λ _, false) sample_scopes_claim (sample_db sample_job_ops)
      = (Ok [sample_scope], db1)
    ∧ release_work_scope 7 sample_scope "worker-2" db1 = Err Database.
Proof.
  destruct sample_scope_claimed as [db1 Hclaim]. exists db1.
  destruct (scope_lease_excludes _ 6 (λ _, false) sample_scopes_claim [sample_scope] db1
    sample_scope "worker-2" 7 Hclaim ltac:(left) ltac:(discriminate)
    ltac:(unfold LEASE_SECONDS; lia)) as (_ & Hrelease & _).
  split; [exact Hclaim|exact (Hrelease eq_refl)].
Defined.
