(* ===== verification/Isolation.v ===== *)
(** * Isolation: no operation reaches the rows of another tenant

    A scope is a product and one of its tenants.  [foreign] is what the tables hold of
    all other scopes, [visible] what a request of a scope can read.  Every operation of
    the store that names a scope leaves the foreign rows as they are; the claim of work
    scopes, which names none, changes nothing but leases.  The operations behind the
    HTTP endpoints answer from the visible rows alone. *)

From S2P Require Import Prelude Text DomainTypes Identifiers Geometry PageWorkflow StoreTypes.
From S2P Require Import StoreChecks StoreDb StoreJobs StorePages StoreUploads StoreOutbox.
From S2P Require Import StoreRun StoreJobsFacts StorePagesFacts StoreUploadsFacts.

#[local] Open Scope list_scope.
#[local] Open Scope Z_scope.

(** ** Rows by their scope *)

Section Rows.
Context (keep : string → string → bool).

(** The rows of a table, and the events of a log, whose tenant and product pass [keep]. *)
Definition keep_rows {K R} `{Countable K} (tenant product : R → string) (table : gmap K R) : gmap K R :=
  base.filter (λ kr, keep (tenant kr.2) (product kr.2) = true) table.

Definition keep_events {R} (tenant product : R → string) (rows : list R) : list R :=
  List.filter (λ row, keep (tenant row) (product row)) rows.

Definition keep_db (db : Db) : Db :=
  {| ocr_jobs := keep_rows jr_tenant_id jr_product_id (ocr_jobs db);
     ocr_uploads := keep_rows ur_tenant_id ur_product_id (ocr_uploads db);
     ocr_results := keep_rows rr_tenant_id rr_product_id (ocr_results db);
     ocr_page_workflows := keep_rows wr_tenant_id wr_product_id (ocr_page_workflows db);
     ocr_page_artifacts := keep_rows ar_tenant_id ar_product_id (ocr_page_artifacts db);
     ocr_outbox := keep_events or_tenant_id or_product_id (ocr_outbox db);
     next_event_id := 0;
     ocr_upload_outbox := keep_events uo_tenant_id uo_product_id (ocr_upload_outbox db);
     ocr_work_scopes := base.filter (λ ks, keep ks.1.2 ks.1.1 = true) (ocr_work_scopes db) |}.

Lemma keep_rows_dropped {K R} `{Countable K} (tenant product : R → string) (table : gmap K R) k row :
  keep (tenant row) (product row) = false →
  (∀ old, table !! k = Some old → keep (tenant old) (product old) = false) →
  keep_rows tenant product (<[k := row]> table) = keep_rows tenant product table.
Proof.
  intros Hrow Hold. unfold keep_rows. apply map_filter_insert_not'; simpl; [by rewrite Hrow|].
  intros old Hl%Hold. by rewrite Hl.
Qed.

Lemma keep_rows_kept {K R} `{Countable K} (tenant product : R → string) (table : gmap K R) k row :
  keep (tenant row) (product row) = true →
  keep_rows tenant product (<[k := row]> table) = <[k := row]> (keep_rows tenant product table).
Proof. intros Hrow. unfold keep_rows. by apply map_filter_insert_True. Qed.

Lemma keep_rows_lookup {K R} `{Countable K} (tenant product : R → string) (table : gmap K R) k :
  keep_rows tenant product table !! k
  = match table !! k with
    | Some row => if keep (tenant row) (product row) then Some row else None
    | None => None
    end.
Proof.
  unfold keep_rows. rewrite map_lookup_filter. destruct (table !! k) as [row|]; [|done]. simpl.
  destruct (keep _ _) eqn:Hk; [by rewrite option_guard_True|by rewrite option_guard_False].
Qed.

Lemma keep_events_app {R} (tenant product : R → string) rows row :
  keep (tenant row) (product row) = false →
  keep_events tenant product (rows ++ [row]) = keep_events tenant product rows.
Proof.
  intros Hrow. unfold keep_events. rewrite List.filter_app. simpl. rewrite Hrow. apply app_nil_r.
Qed.

(** A statement over a log that touches dropped events only. *)
Lemma keep_events_map {R} (tenant product : R → string) (f : R → R) rows :
  (∀ row, tenant (f row) = tenant row ∧ product (f row) = product row) →
  (∀ row, keep (tenant row) (product row) = true → f row = row) →
  keep_events tenant product (map f rows) = keep_events tenant product rows.
Proof.
  intros Hscope Hf. unfold keep_events. induction rows as [|row rows IH]; [done|]. simpl.
  destruct (Hscope row) as [-> ->]. destruct (keep _ _) eqn:Hk; [|done]. by rewrite IH, Hf.
Qed.
End Rows.

Section Scope.
Context (tenant : TenantId) (product : ProductId).

Definition own (t p : string) : bool := in_scope tenant product t p.

(** The rows of all other scopes. *)
Definition foreign (db : Db) : Db := keep_db (λ t p, negb (own t p)) db.

(** What the endpoints read: the jobs, uploads and results of the scope. *)
Definition visible (db : Db) :=
  (keep_rows own jr_tenant_id jr_product_id (ocr_jobs db),
   keep_rows own ur_tenant_id ur_product_id (ocr_uploads db),
   keep_rows own rr_tenant_id rr_product_id (ocr_results db)).

Lemma own_self : own (TenantId_str tenant) (ProductId_str product) = true.
Proof. by apply in_scope_spec. Qed.

(** ** Changes within the scope *)

Lemma foreign_jobs db k row :
  own (jr_tenant_id row) (jr_product_id row) = true →
  (∀ old, ocr_jobs db !! k = Some old → own (jr_tenant_id old) (jr_product_id old) = true) →
  foreign (with_jobs db (<[k := row]> (ocr_jobs db))) = foreign db.
Proof.
  intros Hrow Hold. unfold foreign, keep_db. simpl. f_equal.
  apply keep_rows_dropped; [by rewrite Hrow|]. intros old Hl. by rewrite Hold.
Qed.

Lemma foreign_uploads db k row :
  own (ur_tenant_id row) (ur_product_id row) = true →
  (∀ old, ocr_uploads db !! k = Some old → own (ur_tenant_id old) (ur_product_id old) = true) →
  foreign (with_uploads db (<[k := row]> (ocr_uploads db))) = foreign db.
Proof.
  intros Hrow Hold. unfold foreign, keep_db. simpl. f_equal.
  apply keep_rows_dropped; [by rewrite Hrow|]. intros old Hl. by rewrite Hold.
Qed.

Lemma foreign_results db k row :
  own (rr_tenant_id row) (rr_product_id row) = true → ocr_results db !! k = None →
  foreign (with_results db (<[k := row]> (ocr_results db))) = foreign db.
Proof.
  intros Hrow Hnew. unfold foreign, keep_db. simpl. f_equal.
  apply keep_rows_dropped; [by rewrite Hrow|]. by rewrite Hnew.
Qed.

Lemma foreign_workflows db k row :
  own (wr_tenant_id row) (wr_product_id row) = true →
  (∀ old, ocr_page_workflows db !! k = Some old → own (wr_tenant_id old) (wr_product_id old) = true) →
  foreign (with_workflows db (<[k := row]> (ocr_page_workflows db))) = foreign db.
Proof.
  intros Hrow Hold. unfold foreign, keep_db. simpl. f_equal.
  apply keep_rows_dropped; [by rewrite Hrow|]. intros old Hl. by rewrite Hold.
Qed.

Lemma foreign_outbox_event now job type payload db :
  foreign (insert_outbox now (ProductId_str product) (TenantId_str tenant) job type payload db) = foreign db.
Proof.
  unfold foreign, keep_db. simpl. f_equal. apply keep_events_app. simpl. by rewrite own_self.
Qed.

Lemma foreign_upload_event upload type payload db :
  foreign (insert_upload_outbox (ProductId_str product) (TenantId_str tenant) upload type payload db)
  = foreign db.
Proof.
  unfold foreign, keep_db. simpl. f_equal. apply keep_events_app. simpl. by rewrite own_self.
Qed.

Lemma foreign_outbox_map f db :
  (∀ row, or_tenant_id (f row) = or_tenant_id row ∧ or_product_id (f row) = or_product_id row) →
  (∀ row, own (or_tenant_id row) (or_product_id row) = false → f row = row) →
  keep_events (λ t p, negb (own t p)) or_tenant_id or_product_id (map f (ocr_outbox db))
  = keep_events (λ t p, negb (own t p)) or_tenant_id or_product_id (ocr_outbox db).
Proof. intros Hscope Hf. apply keep_events_map; [done|]. intros row Hr%negb_true_iff. by apply Hf. Qed.

Lemma foreign_with_outbox db rows :
  keep_events (λ t p, negb (own t p)) or_tenant_id or_product_id rows
  = keep_events (λ t p, negb (own t p)) or_tenant_id or_product_id (ocr_outbox db) →
  foreign (with_outbox db rows) = foreign db.
Proof. intros Hrows. unfold foreign, keep_db. simpl. by f_equal. Qed.

Lemma foreign_with_artifacts db table :
  keep_rows (λ t p, negb (own t p)) ar_tenant_id ar_product_id table
  = keep_rows (λ t p, negb (own t p)) ar_tenant_id ar_product_id (ocr_page_artifacts db) →
  foreign (with_artifacts db table) = foreign db.
Proof. intros Htable. unfold foreign, keep_db. simpl. by f_equal. Qed.

Lemma foreign_register now kind db :
  foreign (register_work_scope now (ProductId_str product) (TenantId_str tenant) kind db) = foreign db.
Proof.
  unfold foreign, keep_db, register_work_scope. simpl. f_equal.
  apply map_filter_insert_not; simpl; intros; rewrite own_self; done.
Qed.

Lemma foreign_pending now kind pending db :
  foreign (set_work_scope_pending now (ProductId_str product) (TenantId_str tenant) kind pending db)
  = foreign db.
Proof.
  unfold foreign, keep_db, set_work_scope_pending. simpl. f_equal.
  apply map_eq. intros key. rewrite !map_lookup_filter.
  destruct (decide (key = (ProductId_str product, TenantId_str tenant))) as [->|Hne].
  - rewrite lookup_alter_eq. destruct (ocr_work_scopes db !! _); simpl; [|done].
    by rewrite own_self, !option_guard_False.
  - by rewrite lookup_alter_ne.
Qed.
(** ** The statements *)

Lemma own_row t p : t = TenantId_str tenant ∧ p = ProductId_str product → own t p = true.
Proof. by rewrite <- in_scope_spec. Qed.

Lemma own_job job db old row :
  select_job tenant product job db = Some old →
  jr_tenant_id row = jr_tenant_id old → jr_product_id row = jr_product_id old →
  foreign (with_jobs db (<[JobId_str job := row]> (ocr_jobs db))) = foreign db.
Proof.
  intros (Hl & Hscope)%select_job_Some Ht Hp. apply foreign_jobs.
  - rewrite Ht, Hp. by apply own_row.
  - intros old'. rewrite Hl. intros [= <-]. by apply own_row.
Qed.

Lemma own_upload upload db old row :
  select_upload tenant product upload db = Some old →
  ur_tenant_id row = ur_tenant_id old → ur_product_id row = ur_product_id old →
  foreign (put_upload upload row db) = foreign db.
Proof.
  intros (Hl & Hscope)%select_upload_Some Ht Hp. apply foreign_uploads.
  - rewrite Ht, Hp. by apply own_row.
  - intros old'. rewrite Hl. intros [= <-]. by apply own_row.
Qed.

Lemma own_status job from to db row db' :
  update_job_status tenant product job from to db = Some (row, db') → foreign db' = foreign db.
Proof. intros (old & Hj & _ & -> & ->)%update_job_status_Some. by eapply own_job. Qed.

Lemma own_validating (b : bool) job from to db :
  foreign (if b then match update_job_status tenant product job from to db with
                     | Some (_, db) => db
                     | None => db
                     end else db) = foreign db.
Proof.
  destruct b; [|done]. destruct (update_job_status _ _ _ _ _ _) as [[row db']|] eqn:Hu; [|done].
  by eapply own_status.
Qed.

Lemma own_new_job now request db row db' :
  cj_tenant_id request = tenant → cj_product_id request = product →
  insert_job now request db = Ok (Some (row, db')) → foreign db' = foreign db.
Proof.
  intros Ht Hp (Hnew & _ & _ & Hpr & Htr & _ & _ & _ & _ & _ & _ & ->)%insert_job_spec.
  apply foreign_jobs; [apply own_row; by rewrite Htr, Hpr, Ht, Hp|by rewrite Hnew].
Qed.

Lemma own_new_upload now request db row db' :
  cu_tenant_id request = tenant → cu_product_id request = product →
  insert_upload now request db = Ok (Some (row, db')) → foreign db' = foreign db.
Proof.
  intros Ht Hp. unfold insert_upload. destruct (upload_by_key _ _ _ _); [done|].
  destruct (bool_decide _) eqn:Hnew; [done|]. destruct (existsb _ _); [done|]. intros [= <- <-].
  apply bool_decide_eq_false, eq_None_not_Some in Hnew.
  apply foreign_uploads; [apply own_row; simpl; by rewrite Ht, Hp|by rewrite Hnew].
Qed.

Lemma own_new_result job locator db db' :
  insert_result tenant product job locator db = Ok db' → foreign db' = foreign db.
Proof.
  intros (Hnew & row & -> & Ht & Hp & _)%insert_result_spec.
  apply foreign_results; [by apply own_row|done].
Qed.

Lemma own_new_workflow job checkpoint cancellation db row db' :
  insert_workflow tenant product job checkpoint cancellation db = Some (row, db') →
  foreign db' = foreign db.
Proof.
  unfold insert_workflow. destruct (select_job _ _ _ _); [|done]. destruct (_ || _); [|done].
  destruct (ocr_page_workflows db !! _) eqn:Hnew; [done|]. intros [= <- <-].
  apply foreign_workflows; [apply own_self|by rewrite Hnew].
Qed.

Lemma own_workflow job revision checkpoint db row db' :
  update_workflow tenant product job revision checkpoint db = Some (row, db') → foreign db' = foreign db.
Proof.
  unfold update_workflow. destruct (select_workflow _ _ _ _) as [old|] eqn:Hw; [|done].
  apply select_workflow_Some in Hw as (Hl & Hscope). destruct (_ =? _); [|done]. intros [= <- <-].
  apply foreign_workflows; [by apply own_row|]. intros old'. rewrite Hl. intros [= <-]. by apply own_row.
Qed.

Lemma own_artifacts job artifacts db table :
  insert_artifacts tenant product job artifacts (ocr_page_artifacts db) = Ok table →
  foreign (with_artifacts db table) = foreign db.
Proof.
  intros Hi. apply foreign_with_artifacts. revert Hi. generalize (ocr_page_artifacts db).
  induction artifacts as [|artifact artifacts IH]; intros rows; simpl; [by intros [= <-]|].
  destruct (rows !! _) eqn:Hnew; [done|]. destruct (existsb _ _); [done|]. intros ->%IH.
  apply keep_rows_dropped; simpl; [by rewrite own_self|by rewrite Hnew].
Qed.

(** The statements of a claim touch events of the scope only. *)
Lemma own_swept now rows :
  keep_events (λ t p, negb (own t p)) or_tenant_id or_product_id (map (dead_letter now tenant product) rows)
  = keep_events (λ t p, negb (own t p)) or_tenant_id or_product_id rows.
Proof.
  apply keep_events_map.
  - intros row. unfold dead_letter. by destruct (_ && _).
  - intros row Hr%negb_true_iff. unfold dead_letter, outbox_in_scope. unfold own in Hr. by rewrite Hr.
Qed.

Lemma own_claimed now types owner locked limit rows table claimed :
  claim_rows (claimable_event now tenant product types owner locked) (claim_event now owner) limit rows
  = (table, claimed) →
  keep_events (λ t p, negb (own t p)) or_tenant_id or_product_id table
  = keep_events (λ t p, negb (own t p)) or_tenant_id or_product_id rows.
Proof.
  revert limit table claimed. induction rows as [|row rows IH]; intros limit table claimed; simpl.
  { destruct limit; by intros [= <- _]. }
  destruct limit as [|limit]; [by intros [= <- _]|].
  destruct (claimable_event _ _ _ _ _ _ row) eqn:Hc.
  - destruct (claim_rows _ _ limit rows) as [rest taken] eqn:Hr. intros [= <- _].
    apply IH in Hr. unfold keep_events in *. simpl. rewrite Hr.
    unfold claimable_event, outbox_in_scope in Hc. rewrite !andb_true_iff in Hc.
    destruct Hc as [[[[[Hscope _] _] _] _] _]. unfold own. by rewrite Hscope.
  - destruct (claim_rows _ _ (S limit) rows) as [rest taken] eqn:Hr. intros [= <- _].
    apply IH in Hr. unfold keep_events in *. simpl. by rewrite Hr.
Qed.
(** ** The operations *)

(** A transaction leaves the foreign rows as they are. *)
Definition isolated {A} (tx : Tx A) : Prop :=
  ∀ db out db', tx db = Ok (out, db') → foreign db' = foreign db.

Lemma isolated_after {A} (tx : Tx A) db : isolated tx → foreign (db_after tx db) = foreign db.
Proof. intros Htx. unfold db_after. destruct (tx db) as [[out db']|] eqn:H; [by eapply Htx|done]. Qed.

Hint Rewrite foreign_outbox_event foreign_upload_event foreign_register foreign_pending : isolation.

(** Runs a transaction to its end on every branch, and compares the rows. *)
Ltac isolate :=
  intros db out db' Htx; unfold and_then, ok_or in Htx;
  repeat (simpl in Htx; case_match; simplify_eq/=);
  repeat match goal with
         | H : match ?m with _ => _ end = Ok _ |- _ => destruct m eqn:?; simplify_eq/=
         end;
  repeat match goal with |- context [if ?b then _ else _] => destruct b end;
  try done; autorewrite with isolation; try done;
  eauto using own_job, own_upload, own_status, own_new_job, own_new_upload, own_new_result,
    own_new_workflow, own_workflow, own_artifacts.

Lemma create_isolated now request :
  cj_tenant_id request = tenant → cj_product_id request = product → isolated (create now request).
Proof. intros Ht Hp. unfold create. rewrite Ht, Hp. isolate. Qed.

Lemma cancel_isolated now job : isolated (cancel now tenant product job).
Proof. unfold cancel. isolate. Qed.

Lemma complete_cancellation_isolated job : isolated (complete_cancellation tenant product job).
Proof. unfold complete_cancellation. isolate. Qed.

Lemma create_upload_isolated now request :
  cu_tenant_id request = tenant → cu_product_id request = product → isolated (create_upload now request).
Proof. intros Ht Hp. unfold create_upload. isolate. Qed.

Lemma record_uploaded_isolated now clock upload record :
  isolated (record_uploaded now clock tenant product upload record).
Proof. unfold record_uploaded. isolate. Qed.

Lemma claim_inspection_isolated now upload owner :
  isolated (claim_upload_inspection now tenant product upload owner).
Proof. unfold claim_upload_inspection. isolate. Qed.

Lemma accept_upload_isolated now upload source : isolated (accept_upload now tenant product upload source).
Proof. unfold accept_upload. isolate. Qed.

Lemma reject_upload_isolated now upload owner reason :
  isolated (reject_upload now tenant product upload owner reason).
Proof. unfold reject_upload. isolate. Qed.

Lemma create_workflow_isolated ss js job workflow :
  isolated (create_page_workflow ss js tenant product job workflow).
Proof.
  unfold create_page_workflow. isolate. etrans; [by eapply own_status|by eapply own_new_workflow].
Qed.

Lemma save_workflow_isolated ss js job revision workflow artifacts :
  isolated (save_page_workflow_with_artifacts ss js tenant product job revision workflow artifacts).
Proof.
  unfold save_page_workflow_with_artifacts. isolate.
  etrans; [by eapply own_workflow|by eapply own_artifacts].
Qed.

Lemma commit_result_isolated now job command : isolated (commit_result now tenant product job command).
Proof.
  unfold commit_result. isolate;
    (etrans; [by eapply own_status|]; etrans; [by eapply own_new_result|]; apply own_validating).
Qed.

Lemma claim_events_isolated now types owner locked limit db table claimed :
  claim_rows (claimable_event now tenant product types owner locked) (claim_event now owner) limit
    (map (dead_letter now tenant product) (ocr_outbox db)) = (table, claimed) →
  foreign (with_outbox db table) = foreign db.
Proof. intros Hc. apply foreign_with_outbox. erewrite own_claimed by done. apply own_swept. Qed.

Lemma claim_job_outbox_isolated now locked claim : isolated (claim_job_outbox now locked tenant product claim).
Proof. unfold claim_job_outbox. isolate. all: by eapply claim_events_isolated. Qed.

Lemma claim_webhook_outbox_isolated now locked claim :
  isolated (claim_webhook_outbox now locked tenant product claim).
Proof. unfold claim_webhook_outbox. isolate. all: by eapply claim_events_isolated. Qed.

Lemma publish_isolated now id owner : isolated (publish_job_outbox now tenant product id owner).
Proof.
  unfold publish_job_outbox. isolate. apply foreign_with_outbox, keep_events_map.
  - intros row. by destruct (publishable _ _ _ _ _ row).
  - intros row Hr%negb_true_iff. unfold publishable, outbox_in_scope. unfold own in Hr. by rewrite Hr.
Qed.

Lemma release_isolated now scope owner :
  ws_tenant_id scope = tenant → ws_product_id scope = product → isolated (release_work_scope now scope owner).
Proof.
  intros Ht Hp. unfold release_work_scope, ocr_release_work_scope. rewrite Ht, Hp. intros db out db' Htx.
  apply and_then_Ok in Htx as ([] & _ & Htx). destruct (ocr_work_scopes db !! _) as [s|]; [|done].
  destruct (_ && _); [|done]. injection Htx as _ <-.
  unfold foreign, keep_db. simpl. f_equal.
  apply map_filter_insert_not; simpl; intros; by rewrite own_self.
Qed.
End Scope.

(** ** The store as a whole *)

(** The scope that an operation names. *)
Definition op_scope (op : StoreOp) : option (TenantId * ProductId) :=
  match op with
  | OpCreate _ request => Some (cj_tenant_id request, cj_product_id request)
  | OpCreateUpload _ request => Some (cu_tenant_id request, cu_product_id request)
  | OpCancel _ t p _ | OpCompleteCancellation t p _ | OpCommitResult _ t p _ _
  | OpCreatePageWorkflow t p _ _ | OpSavePageWorkflow t p _ _ _ _ | OpRecordUploaded _ _ t p _ _
  | OpClaimUploadInspection _ t p _ _ | OpAcceptUpload _ t p _ _ | OpRejectUpload _ t p _ _ _
  | OpClaimJobOutbox _ _ t p _ | OpClaimWebhookOutbox _ _ t p _ | OpPublishJobOutbox _ t p _ _ =>
      Some (t, p)
  | OpClaimWorkScopes _ _ _ => None
  | OpReleaseWorkScope _ scope _ => Some (ws_tenant_id scope, ws_product_id scope)
  end.

Lemma apply_op_isolated ss js op tenant product db :
  op_scope op = Some (tenant, product) → foreign tenant product (apply_op ss js op db) = foreign tenant product db.
Proof.
  intros Hs. destruct op; simpl in *; try discriminate Hs; injection Hs; intros; subst;
    apply isolated_after; eauto using create_isolated, cancel_isolated, complete_cancellation_isolated,
      commit_result_isolated, create_workflow_isolated, save_workflow_isolated, create_upload_isolated,
      record_uploaded_isolated, claim_inspection_isolated, accept_upload_isolated, reject_upload_isolated,
      claim_job_outbox_isolated, claim_webhook_outbox_isolated, publish_isolated, release_isolated.
Qed.

(** A table of scopes but for its leases. *)
Definition leases_aside (scopes : gmap (string * string) ScopeRow) : gmap (string * string) (bool * bool) :=
  (λ s, (upload_pending s, dispatch_pending s)) <$> scopes.

Lemma lease_scopes_aside (lease : ScopeRow → ScopeRow) candidates scopes :
  (∀ s, upload_pending (lease s) = upload_pending s ∧ dispatch_pending (lease s) = dispatch_pending s) →
  (∀ key s, (key, s) ∈ candidates → scopes !! key = Some s) →
  leases_aside (foldr (λ '(key, s) scopes, <[key := lease s]> scopes) scopes candidates) = leases_aside scopes.
Proof.
  intros Hlease Hin. induction candidates as [|[key s] candidates IH]; [done|]. simpl.
  unfold leases_aside in *. rewrite fmap_insert. destruct (Hlease s) as [-> ->].
  rewrite IH by (intros k r Hr; apply Hin; by right).
  apply insert_id. rewrite lookup_fmap, (Hin key s) by left. done.
Qed.

(** The claim of work scopes, which names no scope, leaves everything but the leases of
    the work scopes as it is. *)
Lemma claim_scopes_leases now locked claim db :
  let db' := (claim_work_scopes now locked claim db).2 in
  db' = with_scopes db (ocr_work_scopes db') ∧ leases_aside (ocr_work_scopes db') = leases_aside (ocr_work_scopes db).
Proof.
  unfold claim_work_scopes. destruct (validate_lease_owner _); [|by destruct db].
  destruct (negb _); [by destruct db|]. destruct (negb _); [by destruct db|].
  simpl. split; [done|]. apply lease_scopes_aside; [done|].
  intros key s Hin. apply elem_of_take in Hin as (k & Hk & _). apply list_elem_of_lookup_2 in Hk.
  apply elem_of_sort_by, list_elem_of_In, List.filter_In in Hk as [Hk%list_elem_of_In _].
  by apply elem_of_map_to_list in Hk.
Qed.

(** C5: tenants are apart in the store.  An operation that names a product and a tenant
    leaves every job, upload, result, checkpoint, artifact, event and work scope of all
    other products and tenants as it is, whatever it returns; and the one operation that
    names none, the claim of work scopes, changes only who holds them and until when. *)
Theorem store_isolates_tenants ss js op db :
  match op_scope op with
  | Some (tenant, product) => foreign tenant product (apply_op ss js op db) = foreign tenant product db
  | None =>
      let db' := apply_op ss js op db in
      db' = with_scopes db (ocr_work_scopes db')
      ∧ leases_aside (ocr_work_scopes db') = leases_aside (ocr_work_scopes db)
  end.
Proof.
  destruct (op_scope op) as [[tenant product]|] eqn:Hs; [by apply apply_op_isolated|].
  destruct op; try discriminate Hs. apply claim_scopes_leases.
Qed.

(** ** What a scope sees *)

Section Visible.
Context (tenant : TenantId) (product : ProductId).
#[local] Notation own := (own tenant product).
#[local] Notation visible := (visible tenant product).

Lemma select_job_visible job db : select_job tenant product job db = (visible db).1.1 !! JobId_str job.
Proof. unfold select_job. simpl. by rewrite keep_rows_lookup. Qed.

Lemma select_upload_visible upload db :
  select_upload tenant product upload db = (visible db).1.2 !! UploadId_str upload.
Proof. unfold select_upload. simpl. by rewrite keep_rows_lookup. Qed.

Lemma select_result_visible job db :
  select_result tenant product job db = (visible db).2 !! JobId_str job.
Proof. unfold select_result. simpl. by rewrite keep_rows_lookup. Qed.

Lemma visible_with_jobs db k row :
  own (jr_tenant_id row) (jr_product_id row) = true →
  visible (with_jobs db (<[k := row]> (ocr_jobs db)))
  = (<[k := row]> (visible db).1.1, (visible db).1.2, (visible db).2).
Proof. intros Hrow. unfold Isolation.visible. simpl. by rewrite keep_rows_kept. Qed.

Lemma visible_with_uploads db k row :
  own (ur_tenant_id row) (ur_product_id row) = true →
  visible (with_uploads db (<[k := row]> (ocr_uploads db)))
  = ((visible db).1.1, <[k := row]> (visible db).1.2, (visible db).2).
Proof. intros Hrow. unfold Isolation.visible. simpl. by rewrite keep_rows_kept. Qed.

(** A lookup by a unique key of the scope. *)
Lemma job_by_key_visible key db1 db2 :
  jobs_ok db1 → jobs_ok db2 → visible db1 = visible db2 →
  job_by_key (ProductId_str product) (TenantId_str tenant) key db1
  = job_by_key (ProductId_str product) (TenantId_str tenant) key db2.
Proof.
  intros H1 H2 Hv.
  assert (Hin : ∀ da db id row, visible da = visible db →
    job_by_key (ProductId_str product) (TenantId_str tenant) key da = Some (id, row) →
    ocr_jobs db !! id = Some row ∧ has_key row (ProductId_str product) (TenantId_str tenant) key).
  { intros da db id row Hab [Hl Hk]%job_by_key_Some. split; [|done].
    assert (Hd : (visible da).1.1 !! id = Some row).
    { simpl. rewrite keep_rows_lookup, Hl. destruct Hk as (Hp & Ht & _). by rewrite (own_row tenant product). }
    rewrite Hab in Hd. simpl in Hd. rewrite keep_rows_lookup in Hd.
    destruct (ocr_jobs db !! id); [|done]. by destruct (Isolation.own _ _ _ _). }
  destruct (job_by_key _ _ _ db1) as [[id row]|] eqn:Hf.
  - destruct (Hin db1 db2 _ _ Hv Hf) as [Hl Hk]. symmetry. by apply job_by_key_found.
  - destruct (job_by_key _ _ _ db2) as [[id row]|] eqn:Hg; [|done].
    destruct (Hin db2 db1 _ _ (eq_sym Hv) Hg) as [Hl Hk]. by destruct (job_by_key_None _ _ _ _ Hf _ _ Hl).
Qed.

Lemma upload_by_key_visible key db1 db2 :
  upload_keys_unique db1 → upload_keys_unique db2 → visible db1 = visible db2 →
  upload_by_key (ProductId_str product) (TenantId_str tenant) key db1
  = upload_by_key (ProductId_str product) (TenantId_str tenant) key db2.
Proof.
  intros H1 H2 Hv.
  assert (Hin : ∀ da db id row, visible da = visible db →
    upload_by_key (ProductId_str product) (TenantId_str tenant) key da = Some (id, row) →
    ocr_uploads db !! id = Some row ∧ has_upload_key row (ProductId_str product) (TenantId_str tenant) key).
  { intros da db id row Hab [Hl Hk]%upload_by_key_Some. split; [|done].
    assert (Hd : (visible da).1.2 !! id = Some row).
    { simpl. rewrite keep_rows_lookup, Hl. destruct Hk as (Hp & Ht & _). by rewrite (own_row tenant product). }
    rewrite Hab in Hd. simpl in Hd. rewrite keep_rows_lookup in Hd.
    destruct (ocr_uploads db !! id); [|done]. by destruct (Isolation.own _ _ _ _). }
  destruct (upload_by_key _ _ _ db1) as [[id row]|] eqn:Hf;
    destruct (upload_by_key _ _ _ db2) as [[id' row']|] eqn:Hg; [|..|done].
  - destruct (Hin db1 db2 _ _ Hv Hf) as [Hl Hk]. apply upload_by_key_Some in Hg as [Hl' Hk'].
    assert (id = id') as <- by by eapply H2. by simplify_eq.
  - destruct (Hin db1 db2 _ _ Hv Hf) as [Hl Hk]. by destruct (upload_by_key_None _ _ _ _ Hg _ _ Hl).
  - destruct (Hin db2 db1 _ _ (eq_sym Hv) Hg) as [Hl Hk]. by destruct (upload_by_key_None _ _ _ _ Hf _ _ Hl).
Qed.

(** Two runs of a transaction answer alike and leave the same to see. *)
Definition same_answer {A} (left right : result StoreError (A * Db)) : Prop :=
  match left, right with
  | Ok (a, db1), Ok (b, db2) => a = b ∧ visible db1 = visible db2
  | Err e, Err f => e = f
  | _, _ => False
  end.

Lemma same_answer_then {A B} (left right : result StoreError A) (k1 k2 : A → result StoreError (B * Db)) :
  left = right → (∀ a, left = Ok a → same_answer (k1 a) (k2 a)) → same_answer (and_then left k1) (and_then right k2).
Proof. intros <- Hk. destruct left; simpl; [by apply Hk|done]. Qed.

Lemma find_visible job db1 db2 :
  visible db1 = visible db2 → StoreJobs.find tenant product job db1 = StoreJobs.find tenant product job db2.
Proof. intros Hv. unfold StoreJobs.find. by rewrite !select_job_visible, Hv. Qed.

Lemma find_upload_visible upload db1 db2 :
  visible db1 = visible db2 → find_upload tenant product upload db1 = find_upload tenant product upload db2.
Proof. intros Hv. unfold find_upload. by rewrite !select_upload_visible, Hv. Qed.

Lemma find_result_visible job db1 db2 :
  visible db1 = visible db2 → find_result tenant product job db1 = find_result tenant product job db2.
Proof. intros Hv. unfold find_result. by rewrite !select_job_visible, !select_result_visible, Hv. Qed.

Lemma cancel_visible now job db1 db2 :
  visible db1 = visible db2 →
  same_answer (cancel now tenant product job db1) (cancel now tenant product job db2).
Proof.
  intros Hv. unfold cancel, update_job_status. rewrite !select_job_visible, Hv.
  destruct ((visible db2).1.1 !! JobId_str job) as [row|] eqn:Hj; [|done].
  pose proof Hj as Hscope. rewrite <- select_job_visible in Hscope.
  apply select_job_Some in Hscope as (_ & Hscope).
  destruct (status_in _ _).
  - apply same_answer_then; [done|]. intros stored _. split; [done|].
    change (visible (with_jobs db1 (<[JobId_str job := set_job_status row "cancelled"]> (ocr_jobs db1)))
      = visible (with_jobs db2 (<[JobId_str job := set_job_status row "cancelled"]> (ocr_jobs db2)))).
    rewrite !visible_with_jobs by by apply own_row. by rewrite Hv.
  - apply same_answer_then; [done|]. intros stored _. by destruct (sj_state stored).
Qed.

Lemma create_visible now request db1 db2 :
  cj_tenant_id request = tenant → cj_product_id request = product →
  jobs_ok db1 → jobs_ok db2 → visible db1 = visible db2 →
  ocr_jobs db1 !! JobId_str (cj_job_id request) = None → ocr_jobs db2 !! JobId_str (cj_job_id request) = None →
  same_answer (create now request db1) (create now request db2).
Proof.
  intros Ht Hp H1 H2 Hv Hn1 Hn2. unfold create, insert_job. rewrite Ht, Hp, !select_upload_visible, Hv.
  rewrite (job_by_key_visible _ db1 db2) by done. rewrite Hn1, Hn2.
  assert (Hold : ∀ found, same_answer
    (match found with
     | Some (id, row) =>
         if negb (String.eqb (jr_request_digest row) (RequestDigest_str (cj_request_digest request)))
            || negb (bool_decide (jr_webhook_subscription_id row
                       = (WebhookSubscriptionId_str <$> cj_webhook_subscription_id request)))
         then Err IdempotencyConflict
         else let? stored := stored_job id row in Ok (CreateOutcome.Existing stored, db1)
     | None => Err UploadSourceUnavailable
     end)
    (match found with
     | Some (id, row) =>
         if negb (String.eqb (jr_request_digest row) (RequestDigest_str (cj_request_digest request)))
            || negb (bool_decide (jr_webhook_subscription_id row
                       = (WebhookSubscriptionId_str <$> cj_webhook_subscription_id request)))
         then Err IdempotencyConflict
         else let? stored := stored_job id row in Ok (CreateOutcome.Existing stored, db2)
     | None => Err UploadSourceUnavailable
     end)).
  { intros [[id row]|]; [|done]. destruct (_ || _); [done|]. by apply same_answer_then. }
  destruct ((visible db2).1.2 !! _) as [upload|]; [|apply Hold].
  destruct (negb _); [apply Hold|]. simpl.
  destruct (job_by_key _ _ _ db2) as [[id row]|] eqn:Hk; [apply (Hold (Some (id, row)))|]. simpl.
  set (row := mkJobRow _ _ _ _ _ _ _ _ _ _).
  apply same_answer_then; [done|]. intros stored _. split; [done|].
  change (visible (with_jobs db1 (<[JobId_str (cj_job_id request) := row]> (ocr_jobs db1)))
    = visible (with_jobs db2 (<[JobId_str (cj_job_id request) := row]> (ocr_jobs db2)))).
  rewrite !visible_with_jobs by by apply own_row. by rewrite Hv.
Qed.

(** No upload has the identifier or the object of a new one. *)
Definition upload_unused (request : CreateUpload) (db : Db) : Prop :=
  ocr_uploads db !! UploadId_str (cu_upload_id request) = None
  ∧ ∀ id row, ocr_uploads db !! id = Some row → ur_object_name row ≠ cu_object_name request.

Lemma upload_unused_free request db : upload_unused request db →
  bool_decide (is_Some (ocr_uploads db !! UploadId_str (cu_upload_id request)))
  || existsb (λ '(_, other), String.eqb (ur_object_bucket other) (cu_object_bucket request)
                             && String.eqb (ur_object_name other) (cu_object_name request))
       (map_to_list (ocr_uploads db)) = false.
Proof.
  intros [-> Hobj]. rewrite bool_decide_eq_false_2 by (by intros [? [=]]). simpl.
  apply existsb_false. intros [id row] Hin%elem_of_map_to_list.
  apply andb_false_intro2, String.eqb_neq. by eapply Hobj.
Qed.

Lemma create_upload_visible now request db1 db2 :
  cu_tenant_id request = tenant → cu_product_id request = product →
  upload_keys_unique db1 → upload_keys_unique db2 → visible db1 = visible db2 →
  upload_unused request db1 → upload_unused request db2 →
  same_answer (create_upload now request db1) (create_upload now request db2).
Proof.
  intros Ht Hp H1 H2 Hv Hn1 Hn2. unfold create_upload, insert_upload. rewrite Ht, Hp.
  rewrite (upload_by_key_visible _ db1 db2) by done. rewrite !upload_unused_free by done.
  destruct (upload_by_key _ _ _ db2) as [[id row]|]; simpl.
  - destruct (negb _); [done|]. by apply same_answer_then.
  - set (row := mkUploadRow _ _ _ _ _ _ _ _ _ _ _ _ _ _ _ _ _ _ _ _ _ _ _).
    apply same_answer_then; [done|]. intros stored _. split; [done|]. unfold put_upload.
    rewrite !visible_with_uploads by by apply own_row. by rewrite Hv.
Qed.

Lemma record_uploaded_visible now clock upload record db1 db2 :
  visible db1 = visible db2 →
  same_answer (record_uploaded now clock tenant product upload record db1)
    (record_uploaded now clock tenant product upload record db2).
Proof.
  intros Hv. unfold record_uploaded. apply same_answer_then; [done|]. intros _ _.
  rewrite !select_upload_visible, Hv.
  destruct ((visible db2).1.2 !! UploadId_str upload) as [row|] eqn:Hu; [|done].
  pose proof Hu as Hscope. rewrite <- select_upload_visible in Hscope.
  apply select_upload_Some in Hscope as (_ & Hscope).
  destruct (_ && _).
  - set (row' := mkUploadRow _ _ _ _ _ _ _ _ _ _ _ _ _ _ _ _ _ _ _ _ _ _ _).
    apply same_answer_then; [done|]. intros stored _. split; [done|].
    change (visible (with_uploads db1 (<[UploadId_str upload := row']> (ocr_uploads db1)))
      = visible (with_uploads db2 (<[UploadId_str upload := row']> (ocr_uploads db2)))).
    rewrite !visible_with_uploads by by apply own_row. by rewrite Hv.
  - apply same_answer_then; [done|]. intros state _.
    destruct state; repeat case_match; try done. by apply same_answer_then.
Qed.
End Visible.

(** ** Two scopes *)

Lemma keep_rows_twice {K R} `{Countable K} (keep wider : string → string → bool) (tenant product : R → string)
    (table : gmap K R) :
  (∀ t p, keep t p = true → wider t p = true) →
  keep_rows keep tenant product (keep_rows wider tenant product table) = keep_rows keep tenant product table.
Proof.
  intros Hsub. apply map_eq. intros k. rewrite !keep_rows_lookup.
  destruct (table !! k) as [row|]; [|done]. destruct (keep (tenant row) (product row)) eqn:Hk.
  - by rewrite (Hsub _ _ Hk), Hk.
  - destruct (wider _ _); [by rewrite Hk|done].
Qed.

(** What one scope sees is among the foreign rows of another. *)
Lemma foreign_visible tenant product tenant' product' db1 db2 :
  TenantId_str tenant ≠ TenantId_str tenant' ∨ ProductId_str product ≠ ProductId_str product' →
  foreign tenant product db1 = foreign tenant product db2 →
  visible tenant' product' db1 = visible tenant' product' db2.
Proof.
  intros Hne.
  assert (Hsub : ∀ t p, own tenant' product' t p = true → negb (own tenant product t p) = true).
  { intros t p [-> ->]%in_scope_spec. apply negb_true_iff, not_true_iff_false. intros [? ?]%in_scope_spec.
    destruct Hne; congruence. }
  unfold foreign, keep_db, visible. intros [= Hj Hu Hr _ _ _ _ _].
  rewrite <- (keep_rows_twice _ _ _ _ (ocr_jobs db1) Hsub), <- (keep_rows_twice _ _ _ _ (ocr_jobs db2) Hsub),
    <- (keep_rows_twice _ _ _ _ (ocr_uploads db1) Hsub), <- (keep_rows_twice _ _ _ _ (ocr_uploads db2) Hsub),
    <- (keep_rows_twice _ _ _ _ (ocr_results db1) Hsub), <- (keep_rows_twice _ _ _ _ (ocr_results db2) Hsub).
  by rewrite Hj, Hu, Hr.
Qed.
