(* ===== verification/PageRunner.v ===== *)
(** * PageRunner: running the claimed pages of a job

    Models [ocr-service/src/page_runner.rs] and [page_processor.rs].  [run_once] is three
    transactions on the store: [claim_batch] loads the workflow and then saves it with
    the claim, [save_batch] saves the outcomes after the claimed pages were processed.
    What the rest of the system does to the database between the load and the first save
    is the argument [between], between the two saves [meanwhile].  [buffer_unordered]
    yields the outcomes in the order of completion, the argument [complete].  The
    processor of a page, and the recogniser and artifact writer of
    [ArtifactPageProcessor], are arguments too. *)

From S2P Require Import Prelude Text DomainTypes Identifiers Geometry PageWorkflow Document.
From S2P Require Import StoreTypes StoreChecks StoreDb StorePages.

#[local] Open Scope list_scope.
#[local] Open Scope Z_scope.

Module PageProcessError.
Inductive PageProcessError := RateLimited | Retryable | Permanent.
End PageProcessError.

Module PageRunnerOutcome.
Inductive PageRunnerOutcome :=
| Idle (status : PageWorkflowStatus.PageWorkflowStatus)
| Progressed (status : PageWorkflowStatus.PageWorkflowStatus).
End PageRunnerOutcome.

Module PageRunnerError.
Inductive PageRunnerError :=
| RateLimited
| InvalidConfiguration
| NotFound
| RetryableConflict
| Domain (e : DomainTypes.Error)
| Store (e : StoreError).
End PageRunnerError.

Record CheckpointedPageRunner := mkCheckpointedPageRunner { batch_size : Z; concurrency : Z }.

Definition CheckpointedPageRunner_new (batch_size concurrency : Z)
    : result PageRunnerError.PageRunnerError CheckpointedPageRunner :=
  if negb (contains 1 64 batch_size) || (concurrency =? 0) || (batch_size <? concurrency)
  then Err PageRunnerError.InvalidConfiguration
  else Ok {| batch_size := batch_size; concurrency := concurrency |}.

Notation ProcessResult := (result PageProcessError.PageProcessError StoredPageArtifact).

(** The loop over the outcomes. *)
Fixpoint record_outcomes (workflow : PageWorkflow) (artifacts : list StoredPageArtifact)
    (rate_limited : bool) (outcomes : list (PageTask * ProcessResult))
    : result PageRunnerError.PageRunnerError (PageWorkflow * list StoredPageArtifact * bool) :=
  match outcomes with
  | [] => Ok (workflow, artifacts, rate_limited)
  | (task, outcome) :: rest =>
      match outcome with
      | Ok artifact =>
          let? workflow := map_err (record_success workflow task) PageRunnerError.Domain in
          record_outcomes workflow (artifacts ++ [artifact]) rate_limited rest
      | Err PageProcessError.Retryable =>
          let? workflow := map_err (record_retryable_failure workflow task)
                             PageRunnerError.Domain in
          record_outcomes workflow artifacts rate_limited rest
      | Err PageProcessError.RateLimited =>
          let? workflow := map_err (record_retryable_failure workflow task)
                             PageRunnerError.Domain in
          record_outcomes workflow artifacts
            (rate_limited || (task_attempt task <? max_attempts workflow)) rest
      | Err PageProcessError.Permanent =>
          let? workflow := map_err (record_permanent_failure workflow task)
                             PageRunnerError.Domain in
          record_outcomes workflow artifacts rate_limited rest
      end
  end.

Section Runner.
Context (serde_size jsonb_size : RawPageWorkflow → Z).

(** The first half of [run_once], two transactions: a finished run, or the saved workflow
    with the tasks to process. *)
Definition claim_batch (self : CheckpointedPageRunner) (tenant_id : TenantId)
    (product_id : ProductId) (job_id : JobId) (between : Db → Db) (db : Db)
    : result PageRunnerError.PageRunnerError
        (PageRunnerOutcome.PageRunnerOutcome + StoredPageWorkflow * list PageTask) * Db :=
  match load_page_workflow jsonb_size tenant_id product_id job_id db with
  | Err e => (Err (PageRunnerError.Store e), db)
  | Ok None => (Err PageRunnerError.NotFound, db)
  | Ok (Some stored) =>
      match claim_ready (stored_workflow stored) (batch_size self) with
      | Err e => (Err (PageRunnerError.Domain e), db)
      | Ok (workflow, []) => (Ok (inl (PageRunnerOutcome.Idle (status workflow))), db)
      | Ok (workflow, tasks) =>
          match save_page_workflow serde_size jsonb_size tenant_id product_id job_id
                  (revision stored) workflow (between db) with
          | Err e => (Err (PageRunnerError.Store e), between db)
          | Ok (SavePageWorkflowOutcome.Saved stored, db) => (Ok (inr (stored, tasks)), db)
          | Ok (SavePageWorkflowOutcome.Conflict, db) =>
              (Err PageRunnerError.RetryableConflict, db)
          | Ok (SavePageWorkflowOutcome.NotFound, db) => (Err PageRunnerError.NotFound, db)
          end
      end
  end.

Definition save_batch (tenant_id : TenantId) (product_id : ProductId) (job_id : JobId)
    (stored : StoredPageWorkflow) (outcomes : list (PageTask * ProcessResult)) (db : Db)
    : result PageRunnerError.PageRunnerError PageRunnerOutcome.PageRunnerOutcome * Db :=
  match record_outcomes (stored_workflow stored) [] false outcomes with
  | Err e => (Err e, db)
  | Ok (workflow, artifacts, rate_limited) =>
      match save_page_workflow_with_artifacts serde_size jsonb_size tenant_id product_id job_id
              (revision stored) workflow artifacts db with
      | Err e => (Err (PageRunnerError.Store e), db)
      | Ok (SavePageWorkflowOutcome.Saved _, db) =>
          (if rate_limited && bool_decide (status workflow = PageWorkflowStatus.Running)
           then Err PageRunnerError.RateLimited
           else Ok (PageRunnerOutcome.Progressed (status workflow)), db)
      | Ok (SavePageWorkflowOutcome.Conflict, db) => (Err PageRunnerError.RetryableConflict, db)
      | Ok (SavePageWorkflowOutcome.NotFound, db) => (Err PageRunnerError.NotFound, db)
      end
  end.

Definition run_once (self : CheckpointedPageRunner) (tenant_id : TenantId)
    (product_id : ProductId) (job_id : JobId) (process : PageTask → ProcessResult)
    (complete : list (PageTask * ProcessResult) → list (PageTask * ProcessResult))
    (between meanwhile : Db → Db) (db : Db)
    : result PageRunnerError.PageRunnerError PageRunnerOutcome.PageRunnerOutcome * Db :=
  match claim_batch self tenant_id product_id job_id between db with
  | (Err e, db) => (Err e, db)
  | (Ok (inl outcome), db) => (Ok outcome, db)
  | (Ok (inr (stored, tasks)), db) =>
      save_batch tenant_id product_id job_id stored
        (complete (map (λ task, (task, process task)) tasks)) (meanwhile db)
  end.
End Runner.

(** ** [ArtifactPageProcessor] *)

Module PageRecognitionError.
Inductive PageRecognitionError := RateLimited | Retryable | Permanent.
End PageRecognitionError.

Module PageArtifactWriteError.
Inductive PageArtifactWriteError := Invalid | Conflict | Unavailable.
End PageArtifactWriteError.

Section Processor.
Context (recognize : PageTask → result PageRecognitionError.PageRecognitionError DocumentPage).
Context (write : PageTask → DocumentPage →
  result PageArtifactWriteError.PageArtifactWriteError StoredPageArtifact).

Definition ArtifactPageProcessor_process (job_id : JobId) (task : PageTask) : ProcessResult :=
  let expected_key :=
    "ocr-job-" +:+ JobId_str job_id +:+ "-page-" +:+ show_dec (task_page task)
      +:+ "-attempt-" +:+ show_dec (task_attempt task) in
  if negb (String.eqb (task_activity_key task) expected_key)
  then Err PageProcessError.Permanent
  else
    let? recognized :=
      map_err (recognize task)
        (λ e, match e with
              | PageRecognitionError.Retryable => PageProcessError.Retryable
              | PageRecognitionError.RateLimited => PageProcessError.RateLimited
              | PageRecognitionError.Permanent => PageProcessError.Permanent
              end) in
    if negb (PageNumber_value (page recognized) =? task_page task)
    then Err PageProcessError.Permanent
    else
      let? artifact :=
        map_err (write task recognized)
          (λ e, match e with
                | PageArtifactWriteError.Unavailable => PageProcessError.Retryable
                | PageArtifactWriteError.Invalid | PageArtifactWriteError.Conflict =>
                    PageProcessError.Permanent
                end) in
      if negb (artifact_page artifact =? task_page task)
         || negb (artifact_attempt artifact =? task_attempt task)
         || negb (String.eqb (artifact_activity_key artifact) (task_activity_key task))
      then Err PageProcessError.Permanent
      else Ok artifact.
End Processor.
