(* ===== verification/PageRunnerFacts.v ===== *)
(** * PageRunnerFacts: runs against the shared store

    What a run of the page runner does to the database while other workers use it: a
    batch is committed whole or not at all, a crashed run's claim is taken up again
    unchanged, and undisturbed runs use up the job's attempts until its pages are
    settled. *)

From S2P Require Import Prelude Text DomainTypes Identifiers Geometry PageWorkflow.
From S2P Require Import PageWorkflowFacts StoreTypes StoreChecks StoreDb StoreJobs StorePages.
From S2P Require Import StoreUploads StoreOutbox StoreRun StoreJobsFacts StorePagesFacts.
From S2P Require Import PageRunner.

#[local] Open Scope list_scope.
#[local] Open Scope Z_scope.

(** ** Outcomes as reports *)

Definition outcome_report (outcome : ProcessResult) : TaskReport :=
  match outcome with
  | Ok _ => ReportSuccess
  | Err PageProcessError.Permanent => ReportPermanent
  | Err _ => ReportRetryable
  end.

Definition reports_of (outcomes : list (PageTask * ProcessResult)) : list (PageTask * TaskReport) :=
  map (λ '(task, outcome), (task, outcome_report outcome)) outcomes.

Definition artifacts_of (outcomes : list (PageTask * ProcessResult)) : list StoredPageArtifact :=
  omap (λ '(_, outcome), result_ok outcome) outcomes.

(** A rate-limited task that has attempts left. *)
Definition rate_limited_outcome (max : Z) (outcome : PageTask * ProcessResult) : bool :=
  match outcome with
  | (task, Err PageProcessError.RateLimited) => task_attempt task <? max
  | _ => false
  end.

Lemma record_report_max w report w' :
  record_report w report = Ok w' → max_attempts w' = max_attempts w.
Proof.
  destruct report as [t r]. rewrite record_report_spec.
  destruct (active_progress w t); simpl; [|done]. by intros [= <-].
Qed.

(** The loop records the reports one by one, and collects the artifacts. *)
Lemma record_outcomes_spec w artifacts limited outcomes :
  record_outcomes w artifacts limited outcomes =
  match record_reports w (reports_of outcomes) with
  | Ok w' => Ok (w', artifacts ++ artifacts_of outcomes,
                 limited || existsb (rate_limited_outcome (max_attempts w)) outcomes)
  | Err e => Err (PageRunnerError.Domain e)
  end.
Proof.
  revert w artifacts limited.
  induction outcomes as [|[task outcome] outcomes IH]; intros w artifacts limited.
  { simpl. by rewrite app_nil_r, orb_false_r. }
  cbn [reports_of map record_reports].
  assert (Hmax : ∀ w', record_report w (task, outcome_report outcome) = Ok w' →
    max_attempts w' = max_attempts w) by (intros w'; apply record_report_max).
  destruct outcome as [artifact|[]]; cbn [record_outcomes outcome_report record_report fst snd] in *.
  - destruct (record_success w task) as [w'|]; simpl; [|done]. rewrite IH, (Hmax w' eq_refl).
    fold (reports_of outcomes). destruct (record_reports w' _); [|done].
    by rewrite <- app_assoc.
  - destruct (record_retryable_failure w task) as [w'|]; simpl; [|done].
    rewrite IH, (Hmax w' eq_refl). fold (reports_of outcomes).
    destruct (record_reports w' _); [|done]. by rewrite orb_assoc.
  - destruct (record_retryable_failure w task) as [w'|]; simpl; [|done].
    rewrite IH, (Hmax w' eq_refl). done.
  - destruct (record_permanent_failure w task) as [w'|]; simpl; [|done].
    rewrite IH, (Hmax w' eq_refl). done.
Qed.

(** ** The pages after a batch of reports *)

Lemma record_report_pages w t r w' :
  0 ≤ task_page t → record_report w (t, r) = Ok w' →
  ∃ i, task_page t = Z.of_nat i + 1 ∧ (i < length (pages w))%nat
    ∧ task_activity_key t = activity_key w (task_page t) (task_attempt t)
    ∧ w' = with_pages w (<[i := reported_progress (max_attempts w) t r]> (pages w)).
Proof.
  intros Hpos. rewrite record_report_spec.
  destruct (active_progress w t) as [i|] eqn:Hi; simpl; [|done]. intros [= <-].
  apply active_progress_Ok in Hi as (_ & Hk & Hp & Hl); [|done].
  exists i. split_and!; try done. by eapply lookup_lt_Some.
Qed.

(** Each reported page holds its report, every other page what it held. *)
Lemma record_reports_pages w reports w' :
  Forall (λ x, 0 ≤ task_page x.1) reports → NoDup (task_page <$> reports.*1) →
  record_reports w reports = Ok w' →
  workflow_job_id w' = workflow_job_id w ∧ max_attempts w' = max_attempts w
  ∧ cancelled w' = cancelled w
  ∧ (∀ t r, (t, r) ∈ reports → ∃ i, task_page t = Z.of_nat i + 1
       ∧ task_activity_key t = activity_key w (task_page t) (task_attempt t)
       ∧ pages w' !! i = Some (reported_progress (max_attempts w) t r))
  ∧ (∀ i, (Z.of_nat i + 1) ∉ (task_page <$> reports.*1) → pages w' !! i = pages w !! i).
Proof.
  intros Hpos. revert w. induction Hpos as [|[t r] reports Ht Hpos IH]; intros w Hnd.
  - intros [= <-]. split_and!; try done. by intros t r ?%elem_of_nil.
  - rewrite record_reports_cons. destruct (record_report w (t, r)) as [w1|] eqn:H1; simpl; [|done].
    apply NoDup_cons in Hnd as [Hnin Hnd].
    destruct (record_report_pages _ _ _ _ Ht H1) as (i & Hi & Hlt & Hk & ->).
    intros (Hj & Hm & Hc & Hin & Hout)%IH; [|done]. simpl in Hj, Hm, Hc, Hin, Hout.
    split_and!; try done.
    + intros u q [[= -> ->]|Hu]%elem_of_cons.
      * exists i. split_and!; try done. rewrite Hout by (by rewrite <- Hi).
        by rewrite list_lookup_insert_eq.
      * by apply Hin.
    + intros k Hk'. simpl in Hk'. apply not_elem_of_cons in Hk' as [Hne Hk']. rewrite Hout by done.
      rewrite list_lookup_insert_ne; [done|]. intros ->. by apply Hne.
Qed.

(** The outcomes of a claimed batch are accepted, in whatever order. *)
Lemma claimed_batch_recorded w0 limit w1 tasks process outcomes :
  workflow_ok w0 → claim_ready w0 limit = Ok (w1, tasks) →
  outcomes ≡ₚ map (λ task, (task, process task)) tasks →
  ∃ w, workflow_ok w
    ∧ record_reports w1 (map (λ task, (task, outcome_report (process task))) tasks) = Ok w
    ∧ record_reports w1 (reports_of outcomes) = Ok w.
Proof.
  intros Hw0 Hcl Hout.
  assert (Hperm : reports_of outcomes ≡ₚ map (λ task, (task, outcome_report (process task))) tasks)
    by (unfold reports_of; by rewrite Hout, map_map).
  destruct (claimed_batch_reports_accepted w0 limit w1 tasks
    (map (λ task, (task, outcome_report (process task))) tasks)) as (w & Hw & Hwok & _);
    [done|done|by rewrite <- list_fmap_compose, list_fmap_id|].
  assert (Hpos : Forall (λ x : PageTask * TaskReport, 0 ≤ task_page x.1)
    (map (λ task, (task, outcome_report (process task))) tasks)).
  { destruct (claimed_tasks_live _ _ _ _ Hw0 Hcl) as [_ Hlive]. apply Forall_fmap.
    eapply Forall_impl; [exact Hlive|]. simpl. tauto. }
  exists w. split_and!; [done..|]. eapply record_reports_any_order; [exact Hpos|by symmetry|exact Hw].
Qed.

Section Facts.
Context (ss js : RawPageWorkflow → Z).

(** ** The first half *)

(** A claim that is saved: the workflow it loaded and the save it made. *)
Lemma claim_batch_spec self t p j between db stored tasks db1 :
  pages_table_ok js db →
  claim_batch ss js self t p j between db = (Ok (inr (stored, tasks)), db1) →
  ∃ w0 w1 rev, workflow_ok w0 ∧ workflow_ok w1 ∧ tasks ≠ []
    ∧ load_page_workflow js t p j db = Ok (Some (mkStoredPageWorkflow w0 rev))
    ∧ claim_ready w0 (batch_size self) = Ok (w1, tasks)
    ∧ stored = mkStoredPageWorkflow w1 (rev + 1)
    ∧ save_page_workflow ss js t p j rev w1 (between db)
      = Ok (SavePageWorkflowOutcome.Saved stored, db1).
Proof.
  intros Hok Hc. unfold claim_batch in Hc.
  destruct (load_page_workflow js t p j db) as [[found|]|] eqn:Hl; try done.
  assert (Hw0 : ∃ row, select_workflow t p j db = Some row).
  { unfold load_page_workflow, load_page_workflow_row in Hl.
    destruct (select_workflow t p j db) as [row|]; [by exists row|done]. }
  destruct Hw0 as [row Hsel].
  destruct (load_decodes js _ _ _ _ _ Hok Hsel) as (w0 & Hw0 & _ & Hl').
  rewrite Hl in Hl'. injection Hl' as ->. simpl in Hc.
  destruct (claim_ready w0 (batch_size self)) as [[w1 ts]|] eqn:Hcl; [|done].
  destruct (claim_ready_ok _ _ _ _ Hw0 Hcl) as (Hw1 & _).
  destruct ts as [|t0 ts]; [done|].
  destruct (save_page_workflow _ _ _ _ _ _ _ _) as [[[s| |] db2]|] eqn:Hs; try done.
  injection Hc as <- <- <-. pose proof Hs as Hs'.
  apply save_spec in Hs' as (_ & _ & _ & _ & -> & _); [|done].
  by exists w0, w1, (wr_revision row).
Qed.

Lemma saved_pages_ok t p j rev w artifacts db stored db1 :
  pages_table_ok js db → workflow_ok w →
  save_page_workflow_with_artifacts ss js t p j rev w artifacts db
    = Ok (SavePageWorkflowOutcome.Saved stored, db1) → pages_table_ok js db1.
Proof.
  intros Hok Hw Hs. assert (db1 = db_after (save_page_workflow_with_artifacts ss js t p j rev w
    artifacts) db) as -> by (unfold db_after; by rewrite Hs).
  eapply workflow_effect_ok; [done|]. by apply save_workflows.
Qed.

(** The saved row, as the next statement finds it. *)
Lemma saved_row t p j rev w artifacts db stored db1 :
  workflow_ok w →
  save_page_workflow_with_artifacts ss js t p j rev w artifacts db
    = Ok (SavePageWorkflowOutcome.Saved stored, db1) →
  ∃ row, ocr_page_workflows db1 !! JobId_str j = Some row
    ∧ select_workflow t p j db1 = Some row ∧ wr_revision row = rev + 1
    ∧ wr_checkpoint row = to_raw w ∧ stored = mkStoredPageWorkflow w (rev + 1)
    ∧ load_page_workflow js t p j db1 = Ok (Some stored).
Proof.
  intros Hw Hs. apply save_spec in Hs
    as (row & table & Hsel & Hrev & -> & _ & _ & Hst & ->); [|done].
  apply select_workflow_Some in Hsel as (_ & Ht & Hp).
  set (row1 := mkWorkflowRow _ _ _ _) in *. set (db1 := with_workflows _ _).
  assert (Hl1 : ocr_page_workflows db1 !! JobId_str j = Some row1) by apply lookup_insert_eq.
  assert (Hsel1 : select_workflow t p j db1 = Some row1) by by apply select_workflow_Some.
  exists row1. split_and!; try done.
  unfold load_page_workflow, load_page_workflow_row. by rewrite Hsel1, Hst.
Qed.

(** C9: a batch of pages is committed whole or not at all, whatever other workers do to
    the database between the load of the workflow and the claim and while the batch is
    processed, and in whatever order its pages finish.  A run
    that has claimed tasks never fails on a report; either it saves - then nobody had
    touched the workflow since the claim, the next revision records every task of the
    batch with its outcome, and the artifact of every successful page is stored with
    it - or the database is exactly what the others made it. *)
Theorem runner_commits_all_or_nothing db self t p j process complete before ops stored tasks db1
    outcome db3 :
  reachable ss js db → Forall op_valid before → Forall op_valid ops → (∀ l, complete l ≡ₚ l) →
  claim_batch ss js self t p j (run_ops ss js before) db = (Ok (inr (stored, tasks)), db1) →
  run_once ss js self t p j process complete (run_ops ss js before) (run_ops ss js ops) db
    = (outcome, db3) →
  let db2 := run_ops ss js ops db1 in
  (∀ e, outcome ≠ Err (PageRunnerError.Domain e))
  ∧ ((load_page_workflow js t p j db2 = Ok (Some stored)
      ∧ ∃ w, record_reports (stored_workflow stored)
               (map (λ task, (task, outcome_report (process task))) tasks) = Ok w
          ∧ load_page_workflow js t p j db3 = Ok (Some (mkStoredPageWorkflow w (revision stored + 1)))
          ∧ (∀ task artifact, task ∈ tasks → process task = Ok artifact →
               ocr_page_artifacts db3 !! (JobId_str j, artifact_page artifact)
               = Some (artifact_row t p artifact))
          ∧ (outcome = Ok (PageRunnerOutcome.Progressed (status w))
             ∨ outcome = Err PageRunnerError.RateLimited))
     ∨ (db3 = db2 ∧ is_ok outcome = false)).
Proof.
  intros Hreach Hbefore Hops Hcomplete Hclaim Hrun db2.
  pose proof (reachable_pages_ok _ _ _ Hreach) as Hok.
  destruct (claim_batch_spec _ _ _ _ _ _ _ _ _ Hok Hclaim)
    as (w0 & w1 & rev & Hw0 & Hw1 & Hne & Hload & Hcl & -> & Hsave).
  assert (Hokb : pages_table_ok js (run_ops ss js before db)).
  { apply (reachable_pages_ok ss), (effect_reachable db); [done|by exists before]. }
  pose proof (saved_pages_ok _ _ _ _ _ _ _ _ _ Hokb Hw1 Hsave) as Hok1.
  destruct (saved_row _ _ _ _ _ _ _ _ _ Hw1 Hsave) as (row1 & Hl1 & Hsel1 & Hrev1 & Hc1 & _ & Hload1).
  destruct (run_ops_workflow ss js ops db1 _ _ Hops Hl1) as (row2 & Hl2 & Ht2 & Hp2 & _ & Hsame).
  fold db2 in Hl2.
  unfold run_once in Hrun. rewrite Hclaim in Hrun. unfold save_batch in Hrun. simpl in Hrun.
  set (outcomes := map (λ task, (task, process task)) tasks) in *.
  destruct (claimed_batch_recorded w0 (batch_size self) w1 tasks process (complete outcomes))
    as (w & Hwok & Hw & Hw'); [done|done|by apply Hcomplete|].
  rewrite record_outcomes_spec, Hw' in Hrun.
  destruct (save_page_workflow_with_artifacts _ _ _ _ _ _ _ _ _) as [[[s| |] db4]|] eqn:Hs2.
  - pose proof Hs2 as Hspec.
    apply save_spec in Hspec as (row & table & Hsel & Hrev & -> & _ & Htab & _ & Hdb4); [|done].
    destruct (saved_row _ _ _ _ _ _ _ _ _ Hwok Hs2) as (_ & _ & _ & _ & _ & _ & Hload4).
    assert (Hdb : db3 = db4) by (destruct (_ && _); by injection Hrun).
    split; [intros e ->; by destruct (_ && _)|]. left.
    apply select_workflow_Some in Hsel as (Hl & _ & _). fold db2 in Hl. rewrite Hl2 in Hl.
    injection Hl as ->. assert (row = row1) as -> by (apply Hsame; congruence).
    split_and!.
    + destruct (select_workflow_Some t p j db1 row1) as [Hi _]. apply Hi in Hsel1 as (_ & ? & ?).
      revert Hload1. unfold load_page_workflow, load_page_workflow_row.
      rewrite (proj2 (select_workflow_Some t p j db2 row1)) by done.
      by rewrite (proj2 (select_workflow_Some t p j db1 row1)) by done.
    + exists w. split_and!; [done|by rewrite Hdb| |].
      * intros task artifact Htask Hproc. rewrite Hdb, Hdb4. simpl.
        apply insert_artifacts_spec in Htab as (_ & Hin & _). apply Hin. simpl.
        apply list_elem_of_omap. exists (task, process task). split; [|simpl; by rewrite Hproc].
        rewrite Hcomplete. apply list_elem_of_fmap. by exists task.
      * destruct (_ && _); injection Hrun as <- _; [by right|by left].
  - injection Hrun as <- <-. split; [done|]. right.
    by apply save_unchanged in Hs2 as ->.
  - injection Hrun as <- <-. split; [done|]. right.
    by apply save_unchanged in Hs2 as ->.
  - injection Hrun as <- <-. split; [done|]. by right.
Qed.

(** The claim of a crashed run is not lost.  Running the first half again on the
    database it left finds the same tasks, with the same attempts and activity keys, and
    saves the same workflow again. *)
Theorem crashed_claim_is_reclaimed db self t p j between stored tasks db1 :
  reachable ss js db → claim_batch ss js self t p j between db = (Ok (inr (stored, tasks)), db1) →
  ∃ db2, claim_batch ss js self t p j (λ db, db) db1
    = (Ok (inr (mkStoredPageWorkflow (stored_workflow stored) (revision stored + 1), tasks)), db2).
Proof.
  intros Hreach Hclaim. pose proof (reachable_pages_ok _ _ _ Hreach) as Hok.
  destruct (claim_batch_spec _ _ _ _ _ _ _ _ _ Hok Hclaim)
    as (w0 & w1 & rev & Hw0 & Hw1 & Hne & Hload & Hcl & -> & Hsave).
  destruct (saved_row _ _ _ _ _ _ _ _ _ Hw1 Hsave) as (row1 & Hl1 & Hsel1 & Hrev1 & Hc1 & _ & Hload1).
  assert (Hagain : claim_ready w1 (batch_size self) = Ok (w1, tasks)).
  { destruct (claim_ready_inv _ _ _ _ Hw0 Hcl) as [Hlimit [(_ & _ & ->)|(Hnc & Hw1' & Htasks)]];
      [done|].
    destruct (claim_ready_first_live_repeatable w0 (batch_size self) Hw0 Hlimit Hnc)
      as (w & Hw & _ & _ & Hrep). rewrite Hcl in Hw. injection Hw as -> Ht'. by rewrite Ht'. }
  unfold claim_batch. rewrite Hload1. simpl. rewrite Hagain.
  destruct tasks as [|t0 tasks]; [done|].
  unfold save_page_workflow in *. pose proof Hsave as Hspec.
  apply save_spec in Hspec as (row & table & _ & Hrev & _ & _ & _ & Hst & _); [|done].
  unfold save_page_workflow_with_artifacts in Hsave |- *.
  rewrite Hsel1, Hrev1, Z.eqb_refl. simpl.
  destruct (Z.ltb_spec rev 0) as [|Hpos]; [done|]. rewrite (proj2 (Z.ltb_ge _ _)) by lia.
  simpl in Hsave |- *. destruct (negb _); [done|]. simpl in Hsave |- *.
  destruct (serialize_page_workflow ss w1) as [c|] eqn:Hser; simpl in Hsave |- *; [|done].
  apply serialize_to_raw in Hser as ->.
  unfold update_workflow. rewrite Hsel1, Hrev1, Z.eqb_refl.
  assert (Hst1 : stored_page_workflow js {| wr_tenant_id := wr_tenant_id row1;
    wr_product_id := wr_product_id row1; wr_revision := rev + 1 + 1; wr_checkpoint := to_raw w1 |}
    = Ok (mkStoredPageWorkflow w1 (rev + 1 + 1))).
  { revert Hst. unfold stored_page_workflow. simpl.
    rewrite !(proj2 (Z.ltb_ge _ 0)) by lia. simpl. destruct (_ || _); [done|].
    rewrite (workflow_ok_try_from _ Hw1). done. }
  rewrite Hst1. simpl. by eexists.
Qed.

(** ** Undisturbed runs *)

(** What a processor promises of the artifact of a page. *)
Definition good_processor (process : PageTask → ProcessResult) : Prop :=
  ∀ task artifact, process task = Ok artifact →
    validate_page_artifact artifact = Ok () ∧ artifact_task artifact = task.

(** A job whose workflow is stored and whose artifacts are those of its successful pages. *)
Record runner_ready (db : Db) (t : TenantId) (p : ProductId) (j : JobId) (w : PageWorkflow)
    (rev : Z) : Prop := {
  ready_row : ∃ row, select_workflow t p j db = Some row ∧ wr_revision row = rev
                ∧ wr_checkpoint row = to_raw w;
  ready_revision : 0 ≤ rev;
  ready_job : workflow_job_id w = j ∧ id_valid j;
  ready_ok : workflow_ok w;
  ready_artifacts : ∀ page a, ocr_page_artifacts db !! (JobId_str j, page) = Some a →
    ∃ i attempt, page = Z.of_nat i + 1 ∧ pages w !! i = Some (PageProgress.Succeeded attempt)
      ∧ artifact_activity_key (ar_artifact a) = activity_key_of j page attempt;
}.

Context (sizes_fit : ∀ w, workflow_ok w → id_valid (workflow_job_id w) →
  1 ≤ ss (to_raw w) ≤ 262144 ∧ 1 ≤ js (to_raw w) ≤ 262144).

Lemma ready_load db t p j w rev :
  runner_ready db t p j w rev →
  load_page_workflow js t p j db = Ok (Some (mkStoredPageWorkflow w rev)).
Proof.
  intros [(row & Hsel & Hrev & Hc) Hpos [Hj Hv] Hok _].
  destruct (sizes_fit w Hok) as [_ Hjs]; [by rewrite Hj|].
  unfold load_page_workflow, load_page_workflow_row. rewrite Hsel. unfold stored_page_workflow.
  rewrite Hrev, Hc, (proj2 (Z.ltb_ge _ 0)), (proj2 (Z.eqb_neq _ _)), (proj2 (Z.ltb_ge _ _)) by lia.
  simpl. by rewrite (workflow_ok_try_from _ Hok).
Qed.

(** The conditions under which a save commits. *)
Lemma save_commits db t p j row w rev artifacts table :
  select_workflow t p j db = Some row → wr_revision row = rev → 0 ≤ rev →
  workflow_ok w → workflow_job_id w = j → id_valid j →
  validate_page_artifact_batch j w artifacts = Ok () →
  Forall (λ a, validate_page_artifact a = Ok ()) artifacts →
  insert_artifacts t p j artifacts (ocr_page_artifacts db) = Ok table →
  ∃ db', save_page_workflow_with_artifacts ss js t p j rev w artifacts db
      = Ok (SavePageWorkflowOutcome.Saved (mkStoredPageWorkflow w (rev + 1)), db')
    ∧ ocr_page_artifacts db' = table.
Proof.
  intros Hsel Hrev Hpos Hok Hj Hv Hbatch Hall Htab.
  destruct (sizes_fit w Hok) as [Hss Hjs]; [by rewrite Hj|].
  unfold save_page_workflow_with_artifacts, serialize_page_workflow.
  rewrite (proj2 (Z.ltb_ge _ 0)), Hj, id_eqb_refl by lia. simpl. rewrite Hbatch. simpl.
  rewrite (proj2 (Z.eqb_neq (ss _) _)), (proj2 (Z.ltb_ge _ (ss _))) by lia. simpl.
  rewrite Hsel, (proj2 (Z.eqb_eq _ _) Hrev). simpl.
  assert (Hstored : ∀ ten prod, stored_page_workflow js (mkWorkflowRow ten prod (rev + 1) (to_raw w))
    = Ok (mkStoredPageWorkflow w (rev + 1))).
  { intros ten prod. unfold stored_page_workflow. simpl.
    rewrite (proj2 (Z.ltb_ge _ 0)), (proj2 (Z.eqb_neq (js _) _)), (proj2 (Z.ltb_ge _ (js _))) by lia.
    simpl. by rewrite (workflow_ok_try_from _ Hok). }
  assert (Hpages : is_ok (collect_results (λ artifact : StoredPageArtifact,
    ok_or (checked i32_max (artifact_page artifact)) InvalidStoredPageArtifact) artifacts) = true).
  { clear Hbatch Htab. induction Hall as [|a artifacts Ha Hall IH]; simpl; [done|].
    unfold validate_page_artifact in Ha. destruct (negb (contains 1 MAXIMUM_PAGE_COUNT _)) eqn:Hp;
      [done|]. apply negb_false_iff, contains_true in Hp. unfold MAXIMUM_PAGE_COUNT in Hp.
    rewrite (proj2 (checked_Some i32_max _ _)) by (split; [done|unfold in_width, i32_max; lia]).
    simpl. by destruct (collect_results _ _). }
  destruct (Z.eqb_spec (zlen artifacts) 0) as [Hz|Hz]; simpl.
  - assert (artifacts = []) as -> by (by apply length_zero_iff_nil; unfold zlen in Hz; lia).
    simpl in Htab. injection Htab as <-.
    unfold update_workflow. rewrite Hsel, (proj2 (Z.eqb_eq _ _) Hrev), Hrev, Hstored. simpl.
    by eexists.
  - destruct (collect_results _ _); [|done]. simpl. rewrite Htab. simpl. unfold update_workflow.
    change (select_workflow t p j (with_artifacts db table)) with (select_workflow t p j db).
    rewrite Hsel, (proj2 (Z.eqb_eq _ _) Hrev), Hrev, Hstored. simpl. by eexists.
Qed.

(** *** The artifacts of a batch are accepted *)

Definition artifact_key_ok (j : JobId) (a : StoredPageArtifact) : Prop :=
  artifact_activity_key a = activity_key_of j (artifact_page a) (artifact_attempt a).

Lemma valid_artifact_bounds a : validate_page_artifact a = Ok () →
  1 ≤ artifact_page a ≤ MAXIMUM_PAGE_COUNT ∧ 1 ≤ artifact_attempt a ≤ 10.
Proof.
  unfold validate_page_artifact. intros H. destruct (_ || _) eqn:Hbad; [done|].
  rewrite !orb_false_iff, !negb_false_iff, !contains_true in Hbad. tauto.
Qed.

Lemma insert_artifacts_total t p j artifacts table :
  id_valid j → NoDup (artifact_page <$> artifacts) →
  Forall (λ a, validate_page_artifact a = Ok () ∧ artifact_key_ok j a) artifacts →
  (∀ page row, table !! (JobId_str j, page) = Some row →
     page ∉ (artifact_page <$> artifacts)
     ∧ ∃ attempt, 0 ≤ page ≤ u64_max ∧ 0 ≤ attempt ≤ u64_max
         ∧ artifact_activity_key (ar_artifact row) = activity_key_of j page attempt) →
  ∃ table', insert_artifacts t p j artifacts table = Ok table'.
Proof.
  intros Hj. revert table. induction artifacts as [|a artifacts IH]; intros table Hnd Hall Htable.
  { by eexists. }
  apply NoDup_cons in Hnd as [Hnin Hnd]. inversion Hall as [|? ? [Hv Hk] Hall']; subst. simpl.
  destruct (valid_artifact_bounds _ Hv) as [Hp Ha]. unfold MAXIMUM_PAGE_COUNT in Hp.
  destruct (table !! (JobId_str j, artifact_page a)) as [row|] eqn:Hl.
  { destruct (Htable _ _ Hl) as [Hno _]. exfalso. apply Hno. left. }
  assert (existsb (λ '((job, _), row), String.eqb job (JobId_str j)
    && String.eqb (artifact_activity_key (ar_artifact row)) (artifact_activity_key a))
    (map_to_list table) = false) as ->.
  { apply existsb_false. intros [[job page] row] Hin%elem_of_map_to_list.
    destruct (String.eqb_spec job (JobId_str j)) as [->|]; [|done]. simpl.
    apply String.eqb_neq. destruct (Htable _ _ Hin) as [Hno (attempt & Hpb & Hab & ->)].
    rewrite Hk. intros (_ & Heq & _)%activity_key_of_inj; try done; unfold u64_max; try lia.
    apply Hno. rewrite Heq. left. }
  apply IH; [done|done|]. intros page row [[[= <-] <-]|[_ Hold]]%lookup_insert_Some.
  - split; [done|]. exists (artifact_attempt a). simpl. unfold u64_max. split_and!; [lia..|done].
  - destruct (Htable _ _ Hold) as [Hno Hkey]. split; [|done].
    intros Hin. apply Hno. by right.
Qed.

Lemma batch_accepted j w artifacts :
  zlen artifacts ≤ 64 → NoDup (artifact_page <$> artifacts) →
  Forall (λ a, validate_page_artifact a = Ok () ∧ artifact_key_ok j a
               ∧ is_successful_task w (artifact_task a) = true) artifacts →
  validate_page_artifact_batch j w artifacts = Ok ().
Proof.
  intros Hlen Hnd Hall. unfold validate_page_artifact_batch. rewrite (proj2 (Z.ltb_ge _ _)) by done.
  assert (check_artifacts j w artifacts = Ok (artifact_page <$> artifacts)) as ->.
  { clear Hlen Hnd. induction Hall as [|a artifacts (Hv & Hk & Hs) Hall IH]; [done|]. csimpl.
    rewrite Hv. simpl. unfold artifact_key_ok, activity_key_of in Hk. rewrite Hk, String.eqb_refl.
    simpl. rewrite Hs. simpl. rewrite IH. done. }
  simpl. rewrite (proj2 (any_adjacent_sort_by_key (λ page, page) Z.eqb _ Z.eqb_eq)); [done|].
  by rewrite list_fmap_id.
Qed.

Lemma mark_running_settled k l i q :
  l !! i = Some q → claimed_attempt q = None → mark_running k l !! i = Some q.
Proof.
  revert k i. induction l as [|x l IH]; intros k i; [done|].
  destruct k as [|k]; [done|]. simpl. destruct i as [|i]; simpl.
  - intros [= ->] Hq. by rewrite Hq.
  - intros Hl Hq. destruct (claimed_attempt x); simpl; by apply IH.
Qed.

(** The artifacts of a batch of outcomes are of distinct pages. *)
Lemma artifacts_of_pages process tasks (outcomes : list (PageTask * ProcessResult)) :
  good_processor process → Forall (λ x, x.2 = process x.1) outcomes →
  (outcomes.*1 ≡ₚ tasks) → NoDup (task_page <$> tasks) →
  NoDup (artifact_page <$> artifacts_of outcomes)
  ∧ zlen (artifacts_of outcomes) ≤ zlen tasks
  ∧ ∀ a, a ∈ artifacts_of outcomes → artifact_task a ∈ tasks ∧ process (artifact_task a) = Ok a.
Proof.
  intros Hgood Hproc Hperm Hnd.
  assert (Hsub : (artifact_page <$> artifacts_of outcomes) `sublist_of` (task_page <$> outcomes.*1)).
  { clear Hperm Hnd. induction Hproc as [|[task outcome] outcomes Ho Hproc IH]; [constructor|].
    simpl in Ho. subst outcome. csimpl. unfold artifacts_of in *. simpl.
    destruct (process task) as [a|] eqn:Hp; simpl; [|by apply sublist_cons].
    assert (artifact_page a = task_page task) as ->; [|by apply sublist_skip].
    destruct (Hgood _ _ Hp) as [_ Ht]. by rewrite <- Ht. }
  split_and!.
  - eapply sublist_NoDup; [|exact Hsub]. by rewrite Hperm.
  - apply sublist_length in Hsub. unfold zlen. rewrite <- Hperm.
    rewrite !length_fmap in Hsub. rewrite length_fmap. lia.
  - intros a Ha. apply list_elem_of_omap in Ha as ([task outcome] & Hin & Ho). simpl in Ho.
    rewrite Forall_forall in Hproc. specialize (Hproc _ Hin). simpl in Hproc. subst outcome.
    destruct (process task) as [b|] eqn:Hp; simpl in Ho; [|done]. injection Ho as ->.
    destruct (Hgood _ _ Hp) as [_ ->]. split; [|done]. rewrite <- Hperm.
    apply list_elem_of_fmap. by exists (task, Ok a).
Qed.

(** Attempts left and tasks to claim run out together. *)
Lemma claimable_budget job max index l :
  Forall (page_ok max) l → sum_attempts max l ≤ 0 → claimable_from job index l = [].
Proof.
  intros Hl. revert index. induction Hl as [|x l Hx Hl IH]; intros index; simpl; [done|].
  pose proof (sum_attempts_nonneg _ _ Hl).
  intros Hsum. destruct x; simpl in *; try lia; apply IH; lia.
Qed.

(** *** One undisturbed run *)

(** The claim of a ready job: its claimable tasks are saved as running. *)
Lemma ready_claim db self t p j w rev :
  runner_ready db t p j w rev → 1 ≤ batch_size self ≤ 64 → status w = PageWorkflowStatus.Running →
  ∃ w1 tasks db1, claim_ready w (batch_size self) = Ok (w1, tasks) ∧ tasks ≠ []
    ∧ zlen tasks ≤ batch_size self
    ∧ claim_batch ss js self t p j (λ db, db) db = (Ok (inr (mkStoredPageWorkflow w1 (rev + 1), tasks)), db1)
    ∧ runner_ready db1 t p j w1 (rev + 1).
Proof.
  intros Hready Hbatch Hrun. pose proof (ready_load _ _ _ _ _ _ Hready) as Hload.
  destruct Hready as [(row & Hsel & Hrev & Hc) Hpos [Hj Hv] Hok Harts].
  apply status_running_claimable in Hrun as [Hnc Hne].
  pose proof (claim_ready_spec w (batch_size self) Hok Hbatch Hnc) as Hcl.
  set (w1 := with_pages _ _) in *. set (tasks := take _ _) in *.
  destruct (claim_ready_ok _ _ _ _ Hok Hcl) as (Hok1 & _).
  assert (Htne : tasks ≠ []).
  { subst tasks. destruct (claimable w); [done|]. by destruct (Z.to_nat (batch_size self)) eqn:Hk; [lia|]. }
  destruct (save_commits db t p j row w1 rev [] (ocr_page_artifacts db)) as (db1 & Hsave & Ha);
    try done.
  exists w1, tasks, db1. split_and!; [done|done| | |].
  - subst tasks. unfold zlen. rewrite length_take. lia.
  - unfold claim_batch. rewrite Hload. simpl. rewrite Hcl. destruct tasks; [done|].
    unfold save_page_workflow. by rewrite Hsave.
  - destruct (saved_row _ _ _ _ _ _ _ _ _ Hok1 Hsave) as (row1 & _ & Hsel1 & Hrev1 & Hc1 & _).
    split; [by exists row1|lia|done|done|]. intros page a Hl. rewrite Ha in Hl.
    destruct (Harts _ _ Hl) as (i & attempt & -> & Hi & Hkey). exists i, attempt.
    split_and!; [done| |done]. subst w1. simpl. by apply mark_running_settled.
Qed.

(** Saving the outcomes of the batch. *)
Lemma ready_save db1 t p j w1 rev tasks outcomes process :
  runner_ready db1 t p j w1 rev → good_processor process →
  Forall (λ x, x.2 = process x.1) outcomes → outcomes.*1 ≡ₚ tasks → tasks ≠ [] →
  NoDup (task_page <$> tasks) →
  Forall (λ task, 0 ≤ task_page task ∧ is_ok (active_progress w1 task) = true) tasks →
  zlen tasks ≤ 64 →
  ∃ w' db', runner_ready db' t p j w' (rev + 1) ∧ budget w' + zlen tasks ≤ budget w1
    ∧ cancelled w' = cancelled w1
    ∧ save_batch ss js t p j (mkStoredPageWorkflow w1 rev) outcomes db1
      = (if existsb (rate_limited_outcome (max_attempts w1)) outcomes
            && bool_decide (status w' = PageWorkflowStatus.Running)
         then Err PageRunnerError.RateLimited
         else Ok (PageRunnerOutcome.Progressed (status w')), db').
Proof.
  intros Hready Hgood Hproc Hperm Hne Hnd Hlive Hlen.
  destruct Hready as [(row & Hsel & Hrev & Hc) Hpos [Hj Hv] Hok Harts].
  assert (Hreports : (reports_of outcomes).*1 = outcomes.*1).
  { clear. unfold reports_of. induction outcomes as [|[task o] outcomes IH]; csimpl; [done|].
    by rewrite IH. }
  assert (Hlive' : Forall (λ x : PageTask * TaskReport,
    0 ≤ task_page x.1 ∧ is_ok (active_progress w1 x.1) = true) (reports_of outcomes)).
  { rewrite <- Hperm, <- Hreports in Hlive. by apply Forall_fmap in Hlive. }
  assert (Hpos' : Forall (λ x : PageTask * TaskReport, 0 ≤ task_page x.1) (reports_of outcomes)).
  { eapply Forall_impl; [exact Hlive'|]. simpl. tauto. }
  destruct (record_reports w1 (reports_of outcomes)) as [w'|e] eqn:Hw; last first.
  { assert (is_ok (record_reports w1 (reports_of outcomes)) = true) as Htrue; [|by rewrite Hw in Htrue].
    apply record_reports_live; [done|by rewrite Hreports, Hperm|].
    eapply Forall_impl; [exact Hlive'|]. simpl. tauto. }
  destruct (record_reports_budget _ _ _ Hpos' Hok Hw) as [Hok' Hbudget].
  destruct (record_reports_pages w1 (reports_of outcomes) w') as (Hj' & Hm' & Hc' & Hin & Hout);
    [done|by rewrite Hreports, Hperm|done|].
  destruct (artifacts_of_pages process tasks outcomes Hgood Hproc Hperm Hnd)
    as (Hand & Halen & Haproc).
  assert (Hsucc : ∀ a, a ∈ artifacts_of outcomes → validate_page_artifact a = Ok ()
    ∧ artifact_key_ok j a ∧ ∃ i, artifact_page a = Z.of_nat i + 1
      ∧ pages w' !! i = Some (PageProgress.Succeeded (artifact_attempt a))).
  { intros a Ha. destruct (Haproc a Ha) as [Htask Hpa]. destruct (Hgood _ _ Hpa) as [Hva _].
    assert (Hr : (artifact_task a, ReportSuccess) ∈ reports_of outcomes).
    { unfold reports_of. apply list_elem_of_fmap. exists (artifact_task a, Ok a). split; [done|].
      rewrite <- Hperm in Htask. apply list_elem_of_fmap in Htask as ([task o] & Heq & Ho).
      rewrite Forall_forall in Hproc. pose proof (Hproc _ Ho) as Hoo. simpl in Heq, Hoo. subst.
      by rewrite Hpa in Ho. }
    destruct (Hin _ _ Hr) as (i & Hi & Hk & Hpage). split_and!; [done| |by exists i].
    unfold artifact_key_ok. simpl in Hk. unfold activity_key in Hk. by rewrite Hj in Hk. }
  assert (Hall : Forall (λ a, validate_page_artifact a = Ok () ∧ artifact_key_ok j a
    ∧ is_successful_task w' (artifact_task a) = true) (artifacts_of outcomes)).
  { rewrite Forall_forall. intros a Ha. destruct (Hsucc a Ha) as (Hva & Hk & i & Hi & Hpage).
    split_and!; [done|done|]. unfold is_successful_task. simpl. unfold artifact_key_ok in Hk.
    unfold activity_key. rewrite (proj2 (Z.eqb_neq _ _)) by lia. rewrite Hj', Hj, <- Hk, String.eqb_refl.
    simpl. replace (Z.to_nat (artifact_page a - 1)) with i by lia. by rewrite Hpage, Z.eqb_refl. }
  assert (Hbatch : validate_page_artifact_batch j w' (artifacts_of outcomes) = Ok ()).
  { apply batch_accepted; [lia|done|done]. }
  (* A page with an artifact has succeeded, so none of its tasks is claimed. *)
  assert (Hold : ∀ page a, ocr_page_artifacts db1 !! (JobId_str j, page) = Some a →
    ∃ i attempt, page = Z.of_nat i + 1 ∧ pages w1 !! i = Some (PageProgress.Succeeded attempt)
      ∧ artifact_activity_key (ar_artifact a) = activity_key_of j page attempt
      ∧ page ∉ (task_page <$> tasks)).
  { intros page a Hl. destruct (Harts _ _ Hl) as (i & attempt & -> & Hi & Hkey).
    exists i, attempt. split_and!; try done. intros (task & Heq & Htask)%list_elem_of_fmap.
    rewrite Forall_forall in Hlive. destruct (Hlive _ Htask) as [Hp Hact].
    apply is_ok_true in Hact as [k Hact]. apply active_progress_Ok in Hact as (_ & _ & Hk & Hr);
      [|done]. assert (k = i) as -> by lia. congruence. }
  destruct (insert_artifacts_total t p j (artifacts_of outcomes) (ocr_page_artifacts db1))
    as [table Htable]; [done|done| | |].
  { eapply Forall_impl; [exact Hall|]. simpl. tauto. }
  { intros page a Hl. destruct (Hold _ _ Hl) as (i & attempt & -> & Hi & Hkey & Hno). split.
    - intros (b & Heq & Hb)%list_elem_of_fmap. apply Hno. apply list_elem_of_fmap.
      exists (artifact_task b). split; [done|]. by apply Haproc.
    - exists attempt. pose proof (ok_pages _ Hok) as Hpages. rewrite Forall_lookup in Hpages.
      specialize (Hpages _ _ Hi). simpl in Hpages. pose proof (ok_max _ Hok) as Hmax.
      pose proof (ok_length _ Hok) as Hl'. apply lookup_lt_Some in Hi. unfold zlen in Hl'.
      unfold MAXIMUM_PAGE_COUNT, MAXIMUM_PAGE_ATTEMPTS, u64_max in *. split_and!; [lia..|done]. }
  destruct (save_commits db1 t p j row w' rev (artifacts_of outcomes) table)
    as (db' & Hsave & Ha'); try done; [congruence| |].
  { eapply Forall_impl; [exact Hall|]. simpl. tauto. }
  exists w', db'. split_and!; [| |done|].
  - destruct (saved_row _ _ _ _ _ _ _ _ _ Hok' Hsave) as (row1 & _ & Hsel1 & Hrev1 & Hc1 & _).
    split; [by exists row1|lia|split; congruence|done|]. intros page a Hl. rewrite Ha' in Hl.
    destruct (insert_artifacts_spec _ _ _ _ _ _ Htable) as (_ & _ & Hfrom).
    destruct (Hfrom _ _ Hl) as [Hl'|(b & Hb & [= ->] & ->)].
    + destruct (Hold _ _ Hl') as (i & attempt & -> & Hi & Hkey & Hno).
      exists i, attempt. split_and!; [done| |done]. rewrite Hout; [done|].
      by rewrite Hreports, Hperm.
    + destruct (Hsucc b Hb) as (_ & Hk & i & Hi & Hpage).
      exists i, (artifact_attempt b). split_and!; [done|done|]. exact Hk.
  - assert (zlen (reports_of outcomes) = zlen tasks) as <-; [|done].
    unfold zlen. by rewrite <- Hperm, <- Hreports, length_fmap.
  - unfold save_batch. simpl. rewrite record_outcomes_spec, Hw. simpl. rewrite Hsave.
    by destruct (_ && _).
Qed.

(** A run with nobody else about. *)
Lemma ready_run db self t p j w rev process complete :
  runner_ready db t p j w rev → 1 ≤ batch_size self ≤ 64 → good_processor process →
  (∀ l, complete l ≡ₚ l) →
  (status w ≠ PageWorkflowStatus.Running →
     run_once ss js self t p j process complete (λ db, db) (λ db, db) db
     = (Ok (PageRunnerOutcome.Idle (status w)), db))
  ∧ (status w = PageWorkflowStatus.Running →
     ∃ w' db' limited, runner_ready db' t p j w' (rev + 2) ∧ budget w' < budget w
       ∧ cancelled w' = cancelled w
       ∧ run_once ss js self t p j process complete (λ db, db) (λ db, db) db
         = (if limited && bool_decide (status w' = PageWorkflowStatus.Running)
            then Err PageRunnerError.RateLimited
            else Ok (PageRunnerOutcome.Progressed (status w')), db')
       ∧ (limited = true → ∃ task, process task = Err PageProcessError.RateLimited)).
Proof.
  intros Hready Hbatch Hgood Hcomplete. split; intros Hst.
  - pose proof (ready_load _ _ _ _ _ _ Hready) as Hload. pose proof (ready_ok _ _ _ _ _ _ Hready) as Hok.
    unfold run_once, claim_batch. rewrite Hload. simpl.
    destruct (cancelled w) eqn:Hc.
    + unfold claim_ready. rewrite (proj2 (contains_true 1 64 _)), Hc by done. done.
    + rewrite claim_ready_spec by done.
      assert (claimable w = []) as Hnil.
      { destruct (claimable w) eqn:Hcl; [done|]. exfalso. apply Hst.
        apply status_running_claimable. by rewrite Hcl. }
      rewrite Hnil, take_nil. f_equal. f_equal. f_equal. f_equal.
      apply claimable_nil_settled in Hnil as Hset.
      assert (Hmark : ∀ k, mark_running k (pages w) = pages w).
      { clear -Hset. induction (pages w) as [|x l IH]; intros [|k]; simpl in *; try done.
        apply andb_true_iff in Hset as [Hx Hl]. destruct x; simpl in *; try done; by rewrite IH. }
      rewrite Hmark. by destruct w.
  - destruct (ready_claim _ _ _ _ _ _ _ Hready Hbatch Hst)
      as (w1 & tasks & db1 & Hcl & Hne & Hlen & Hclaim & Hready1).
    pose proof (ready_ok _ _ _ _ _ _ Hready) as Hok.
    destruct (claimed_tasks_live _ _ _ _ Hok Hcl) as [Hnd Hlive].
    destruct (claim_ready_ok _ _ _ _ Hok Hcl) as (_ & Hb & _ & Hc & _).
    set (outcomes := complete (map (λ task, (task, process task)) tasks)).
    assert (Hproc : Forall (λ x : PageTask * ProcessResult, x.2 = process x.1) outcomes).
    { subst outcomes. rewrite Hcomplete. clear. induction tasks; simpl; by constructor. }
    assert (Hperm : outcomes.*1 ≡ₚ tasks).
    { subst outcomes. rewrite Hcomplete. clear. induction tasks; csimpl; [done|]. by constructor. }
    destruct (ready_save db1 t p j w1 (rev + 1) tasks outcomes process Hready1 Hgood Hproc Hperm Hne
      Hnd Hlive ltac:(lia)) as (w' & db' & Hready' & Hbudget & Hc' & Hsave).
    exists w', db', (existsb (rate_limited_outcome (max_attempts w1)) outcomes).
    replace (rev + 2) with (rev + 1 + 1) by lia. split_and!; [done| |congruence| |].
    + destruct tasks; [done|]. rewrite zlen_cons in Hbudget. pose proof (zlen_nonneg tasks). lia.
    + unfold run_once. rewrite Hclaim. fold outcomes. exact Hsave.
    + intros ([task o] & Hin & Hl)%existsb_exists. rewrite Forall_forall in Hproc.
      apply list_elem_of_In, Hproc in Hin. simpl in Hin. exists task. rewrite <- Hin.
      simpl in Hl. by destruct o as [|[]].
Qed.

(** Runs one after the other, each with its processor and order of completion. *)
Fixpoint run_rounds (self : CheckpointedPageRunner) (t : TenantId) (p : ProductId) (j : JobId)
    (rounds : list ((PageTask → ProcessResult)
                    * (list (PageTask * ProcessResult) → list (PageTask * ProcessResult))))
    (db : Db) : Db :=
  match rounds with
  | [] => db
  | (process, complete) :: rest =>
      run_rounds self t p j rest (run_once ss js self t p j process complete (λ db, db) (λ db, db) db).2
  end.

Lemma ready_rounds self t p j rounds db w rev :
  runner_ready db t p j w rev → 1 ≤ batch_size self ≤ 64 → cancelled w = false →
  Forall (λ round, good_processor round.1 ∧ ∀ l, round.2 l ≡ₚ l) rounds →
  budget w ≤ zlen rounds →
  ∃ w' rev', runner_ready (run_rounds self t p j rounds db) t p j w' rev'
    ∧ status w' ≠ PageWorkflowStatus.Running ∧ cancelled w' = false.
Proof.
  intros Hready Hbatch Hc Hrounds. revert db w rev Hready Hc.
  induction Hrounds as [|[process complete] rounds [Hgood Hcomplete] Hrounds IH];
    intros db w rev Hready Hc Hlen.
  - exists w, rev. split_and!; [done| |done]. intros Hst.
    pose proof (ready_ok _ _ _ _ _ _ Hready) as Hok.
    apply status_running_claimable in Hst as [_ Hne].
    rewrite zlen_nil in Hlen. apply Hne. by apply (claimable_budget _ (max_attempts w));
      [apply ok_pages|].
  - rewrite zlen_cons in Hlen. destruct (ready_run _ self _ _ _ _ _ process complete Hready Hbatch Hgood
      Hcomplete) as [Hidle Hrun]. simpl.
    destruct (decide (status w = PageWorkflowStatus.Running)) as [Hst|Hst].
    + destruct (Hrun Hst) as (w' & db' & limited & Hready' & Hb & Hc' & -> & _). simpl.
      apply (IH db' w' (rev + 2)); [done|congruence|lia].
    + rewrite (Hidle Hst). simpl. clear IH Hrun.
      exists w, rev. split_and!; [|done|done]. clear -sizes_fit Hready Hbatch Hst Hrounds.
      induction Hrounds as [|[pr co] rounds [Hg Hco] Hrounds IH]; [done|]. simpl.
      destruct (ready_run _ self _ _ _ _ _ pr co Hready Hbatch Hg Hco) as [Hidle _].
      by rewrite (Hidle Hst).
Qed.

(** Artifacts belong to jobs that have a workflow. *)
Lemma reachable_artifacts_owned db :
  reachable ss js db → ∀ id page a, ocr_page_artifacts db !! (id, page) = Some a →
  is_Some (ocr_page_workflows db !! id).
Proof.
  intros (ops & Hops & ->). apply (run_ops_ind ss js (λ db, ∀ id page a,
    ocr_page_artifacts db !! (id, page) = Some a → is_Some (ocr_page_workflows db !! id)));
    [|done|].
  - intros op db' Hop Hown id page a. destruct (apply_op_workflow_effect ss js op db' Hop)
      as [Hw Ha|i r Hnew Hdec Hrev Hw Ha|i r r' Hl Hdec Hrev Ht Hp Hw Hsub Hfrom]; rewrite Hw.
    + rewrite Ha. apply Hown.
    + rewrite Ha. intros Hl%Hown. destruct (decide (id = i)) as [->|].
      * rewrite lookup_insert_eq. by eexists.
      * by rewrite lookup_insert_ne.
    + intros Hl'. destruct (decide (id = i)) as [->|].
      * rewrite lookup_insert_eq. by eexists.
      * rewrite lookup_insert_ne by done. destruct (Hfrom _ _ Hl') as [Hold|[[= ??] _]]; [|done].
        by eapply Hown.
  - intros id page a. simpl. by rewrite lookup_empty.
Qed.

(** The state that creation leaves a job in. *)
Lemma created_ready db t p j page_count max w stored db0 :
  reachable ss js db → id_valid j → PageWorkflow_new j page_count max = Ok w →
  create_page_workflow ss js t p j w db = Ok (CreatePageWorkflowOutcome.Created stored, db0) →
  runner_ready db0 t p j w 0 ∧ cancelled w = false ∧ budget w = page_count * max.
Proof.
  intros Hreach Hj Hnew Hcreate. destruct (PageWorkflow_new_ok _ _ _ _ Hnew) as [Hok Hb].
  assert (Hw : workflow_job_id w = j ∧ cancelled w = false).
  { unfold PageWorkflow_new in Hnew. destruct (_ || _); [done|]. by injection Hnew as <-. }
  destruct Hw as [Hwj Hnc]. split_and!; [|done|done].
  unfold create_page_workflow in Hcreate. destruct (negb _); [done|].
  destruct (serialize_page_workflow ss w) as [c|] eqn:Hser; simpl in Hcreate; [|done].
  apply serialize_to_raw in Hser as ->.
  destruct (insert_workflow _ _ _ _ _ _) as [[row db1]|] eqn:Hi; last first.
  { destruct (load_page_workflow_row _ _ _ _ _) as [[found|]|]; simpl in Hcreate; try done.
    by destruct (bool_decide (stored_workflow found = w)). }
  apply insert_workflow_Some in Hi as (Hnone & -> & ->).
  assert (Hdb0 : ocr_page_workflows db0 = <[JobId_str j := mkWorkflowRow (TenantId_str t)
      (ProductId_str p) 0 (to_raw w)]> (ocr_page_workflows db)
    ∧ ocr_page_artifacts db0 = ocr_page_artifacts db).
  { destruct (stored_page_workflow _ _); simpl in Hcreate; [|done].
    destruct (bool_decide _); [by injection Hcreate as _ <-|].
    destruct (update_job_status _ _ _ _ _ _) as [[row' db']|] eqn:Hu; simpl in Hcreate; [|done].
    apply update_job_status_workflows in Hu as [Hu1 Hu2]. injection Hcreate as _ <-.
    by rewrite Hu1, Hu2. }
  destruct Hdb0 as [Hdbw Hdba]. split; [|done|done|done|].
  - eexists. rewrite select_workflow_Some, Hdbw, lookup_insert_eq. by split_and!.
  - intros page a. rewrite Hdba. intros Hl%(reachable_artifacts_owned _ Hreach).
    rewrite Hnone in Hl. by destruct Hl.
Qed.

(** C20: undisturbed runs settle a job.  A job whose workflow is created with [page_count]
    pages and [max] attempts per page is settled - every page succeeded, or failed for
    good - after at most [page_count * max] runs, whatever the processor answers for each
    page and attempt and in whatever order the pages of a batch finish: no outcome wedges
    a job, and no run is wasted. *)
Theorem undisturbed_runs_settle db self t p j page_count max w stored db0 rounds :
  reachable ss js db → id_valid j → PageWorkflow_new j page_count max = Ok w →
  create_page_workflow ss js t p j w db = Ok (CreatePageWorkflowOutcome.Created stored, db0) →
  1 ≤ batch_size self ≤ 64 →
  Forall (λ round, good_processor round.1 ∧ ∀ l, round.2 l ≡ₚ l) rounds →
  page_count * max ≤ zlen rounds →
  ∃ w' rev, load_page_workflow js t p j (run_rounds self t p j rounds db0)
      = Ok (Some (mkStoredPageWorkflow w' rev))
    ∧ (status w' = PageWorkflowStatus.Completed ∨ status w' = PageWorkflowStatus.Partial).
Proof.
  intros Hreach Hj Hnew Hcreate Hbatch Hrounds Hlen.
  destruct (created_ready _ _ _ _ _ _ _ _ _ Hreach Hj Hnew Hcreate) as (Hready & Hnc & Hb).
  destruct (ready_rounds self t p j rounds db0 w 0 Hready Hbatch Hnc Hrounds ltac:(lia))
    as (w' & rev & Hready' & Hst & Hc).
  exists w', rev. split; [by apply ready_load|]. revert Hst. unfold status. rewrite Hc.
  destruct (forallb is_succeeded _); [by left|]. destruct (forallb is_settled _); [by right|done].
Qed.
End Facts.

(** An artifact processor is good when its writer returns valid artifacts: it checks
    itself that they are those of the task. *)
Lemma artifact_processor_good recognize write job :
  (∀ task recognized artifact, write task recognized = Ok artifact →
     validate_page_artifact artifact = Ok ()) →
  good_processor (ArtifactPageProcessor_process recognize write job).
Proof.
  intros Hwrite task artifact. unfold ArtifactPageProcessor_process.
  destruct (negb _); [done|]. destruct (recognize task) as [recognized|]; simpl; [|done].
  destruct (negb _); [done|]. destruct (write task recognized) as [a|] eqn:Hw; simpl; [|done].
  destruct (negb (artifact_page a =? task_page task)) eqn:Hp; [done|].
  destruct (negb (artifact_attempt a =? task_attempt task)) eqn:Ha; [done|].
  destruct (negb (String.eqb _ _)) eqn:Hk; [done|]. simpl. intros [= <-].
  split; [by eapply Hwrite|]. boolify. apply String.eqb_eq in Hk.
  destruct task. unfold artifact_task. simpl in *. congruence.
Qed.

(** ** Witnesses *)

Definition sample_runner : CheckpointedPageRunner := mkCheckpointedPageRunner 1 1.
Definition sample_task : PageTask := mkPageTask 1 1 "ocr-job-job_1-page-1-attempt-1".
Definition sample_process (task : PageTask) : ProcessResult :=
  if decide (task = sample_task) then Ok sample_artifact else Err PageProcessError.Permanent.
Definition sample_claimed_workflow : PageWorkflow :=
  {| workflow_job_id := sample_job; max_attempts := 3; pages := [PageProgress.Running 1];
     cancelled := false |}.

Lemma sample_process_good : good_processor sample_process.
Proof.
  intros task artifact. unfold sample_process. destruct (decide (task = sample_task)) as [->|];
    [|done]. intros [= <-]. split; vm_compute; reflexivity.
Qed.

Lemma sample_batch_claimed :
  ∃ db1, claim_batch sample_size sample_size sample_runner sample_tenant sample_product sample_job
    (run_ops sample_size sample_size []) (sample_db sample_processing_ops)
    = (Ok (inr (mkStoredPageWorkflow sample_claimed_workflow 1, [sample_task])), db1).
Proof. eexists. vm_compute. reflexivity. Qed.

Theorem runner_commits_all_or_nothing_witness :
  ∃ db1, claim_batch sample_size sample_size sample_runner sample_tenant sample_product sample_job
      (run_ops sample_size sample_size []) (sample_db sample_processing_ops)
      = (Ok (inr (mkStoredPageWorkflow sample_claimed_workflow 1, [sample_task])), db1)
    ∧ ∀ e, (run_once sample_size sample_size sample_runner sample_tenant sample_product sample_job
        sample_process (λ l, l) (run_ops sample_size sample_size []) (run_ops sample_size sample_size [])
        (sample_db sample_processing_ops)).1 ≠ Err (PageRunnerError.Domain e).
Proof.
  destruct sample_batch_claimed as [db1 Hclaim]. exists db1. split; [exact Hclaim|].
  destruct (run_once sample_size sample_size sample_runner sample_tenant sample_product sample_job
    sample_process (λ l, l) (run_ops sample_size sample_size []) (run_ops sample_size sample_size [])
    (sample_db sample_processing_ops)) as [outcome db3] eqn:Hrun.
  destruct (runner_commits_all_or_nothing sample_size sample_size _ sample_runner sample_tenant
    sample_product sample_job sample_process (λ l, l) [] [] _ _ db1 outcome db3
    sample_processing_reachable (Forall_nil_2 _) (Forall_nil_2 _) (λ l, Permutation_refl l) Hclaim Hrun)
    as (Hdomain & _).
  exact Hdomain.
Defined.

Theorem crashed_claim_is_reclaimed_witness :
  ∃ db1 db2, claim_batch sample_size sample_size sample_runner sample_tenant sample_product
    sample_job (λ db, db) db1
    = (Ok (inr (mkStoredPageWorkflow sample_claimed_workflow 2, [sample_task])), db2).
Proof.
  destruct sample_batch_claimed as [db1 Hclaim]. exists db1.
  destruct (crashed_claim_is_reclaimed sample_size sample_size _ sample_runner sample_tenant
    sample_product sample_job _ _ _ db1 sample_processing_reachable Hclaim) as [db2 Hagain].
  exists db2. exact Hagain.
Defined.

Lemma sample_workflow_created :
  ∃ db0, create_page_workflow sample_size sample_size sample_tenant sample_product sample_job
      sample_page_workflow (sample_db sample_job_ops)
    = Ok (CreatePageWorkflowOutcome.Created (mkStoredPageWorkflow sample_page_workflow 0), db0).
Proof. eexists. vm_compute. reflexivity. Qed.

Lemma sample_job_valid : id_valid sample_job.
Proof. reflexivity. Qed.

Lemma sample_job_reachable_runs : reachable sample_size sample_size (sample_db sample_job_ops).
Proof. exists sample_job_ops. split; [|done]. by eapply sample_valid_prefix. Qed.

Theorem undisturbed_runs_settle_witness :
  ∃ db0 w' rev, load_page_workflow sample_size sample_tenant sample_product sample_job
      (run_rounds sample_size sample_size sample_runner sample_tenant sample_product sample_job
         (replicate 3 (sample_process, λ l, l)) db0) = Ok (Some (mkStoredPageWorkflow w' rev)).
Proof.
  destruct sample_workflow_created as [db0 Hcreate]. exists db0.
  assert (Hrounds : Forall (λ round : (PageTask → ProcessResult)
    * (list (PageTask * ProcessResult) → list (PageTask * ProcessResult)),
    good_processor round.1 ∧ ∀ l, round.2 l ≡ₚ l) (replicate 3 (sample_process, λ l, l))).
  { apply Forall_replicate. split; [exact sample_process_good|reflexivity]. }
  assert (Hsizes : ∀ w, workflow_ok w → id_valid (workflow_job_id w) →
    1 ≤ sample_size (to_raw w) ≤ 262144 ∧ 1 ≤ sample_size (to_raw w) ≤ 262144)
    by (intros w _ _; unfold sample_size; lia).
  assert (Hlen : 1 * 3 ≤ zlen (replicate 3 (sample_process, λ l : list (PageTask * ProcessResult), l)))
    by (unfold zlen; simpl; lia).
  assert (Hbatch : 1 ≤ batch_size sample_runner ≤ 64) by (simpl; lia).
  assert (Hnew : PageWorkflow_new sample_job 1 3 = Ok sample_page_workflow) by reflexivity.
  pose proof (undisturbed_runs_settle sample_size sample_size Hsizes _ sample_runner sample_tenant
    sample_product sample_job 1 3 sample_page_workflow _ db0 _ sample_job_reachable_runs
    sample_job_valid Hnew Hcreate Hbatch Hrounds Hlen) as (w' & rev & Hload & _).
  exists w', rev. exact Hload.
Defined.
