(* ===== verification/Temporal.v ===== *)
(** * Temporal: the durable workflows

    Models [ocr-temporal/src/lib.rs]: the plan of page runs, the inputs of the workflows
    and their wire checks, the mapping of runner outcomes, and the two workflows.  What
    the Temporal service does is a parameter: [activity] and [finalize] execute an
    activity, with its retries, on a state of the world, and a continued workflow is
    started again on the input it passes. *)

From S2P Require Import Prelude Text DomainTypes Identifiers PageWorkflow StoreTypes StoreDb.
From S2P Require Import PageRunner.

#[local] Open Scope list_scope.
#[local] Open Scope Z_scope.

Definition WORKFLOW_SCHEMA_VERSION : string := "1".
Definition MAX_WORKFLOW_INPUT_BYTES : Z := 512.
Definition PAGES_PER_RUN : Z := 50.
Definition DURABLE_ITERATIONS_PER_RUN : Z := 50.
Definition MAX_DURABLE_RUNNER_ITERATIONS : Z := 3000.

(** ** Inputs *)

Record WorkflowInput := mkWorkflowInput {
  wi_schema_version : string;
  wi_product_id : ProductId;
  wi_tenant_id : TenantId;
  wi_job_id : JobId;
  wi_page_count : Z;
}.

(** [encoded_len] is the length of the JSON text that [serde_json] writes. *)
Definition WorkflowInput_new (encoded_len : WorkflowInput → Z) (product_id : ProductId)
    (tenant_id : TenantId) (job_id : JobId) (page_count : Z) : option WorkflowInput :=
  if negb (contains 1 MAXIMUM_PAGE_COUNT page_count) then None
  else
    let input := {| wi_schema_version := WORKFLOW_SCHEMA_VERSION; wi_product_id := product_id;
                    wi_tenant_id := tenant_id; wi_job_id := job_id;
                    wi_page_count := page_count |} in
    if MAX_WORKFLOW_INPUT_BYTES <? encoded_len input then None else Some input.

Definition WorkflowInput_deserialize (encoded_len : WorkflowInput → Z) (wire : WorkflowInput)
    : option WorkflowInput :=
  if negb (String.eqb (wi_schema_version wire) WORKFLOW_SCHEMA_VERSION) then None
  else WorkflowInput_new encoded_len (wi_product_id wire) (wi_tenant_id wire) (wi_job_id wire)
         (wi_page_count wire).

Record WorkflowRunInput := mkWorkflowRunInput {
  wri_schema_version : string;
  wri_product_id : ProductId;
  wri_tenant_id : TenantId;
  wri_job_id : JobId;
  wri_page_count : Z;
  wri_next_page : Z;
  wri_run_number : Z;
}.

(** [run_number.checked_sub(1).and_then(checked_mul(per_run)).and_then(checked_add(1))]. *)
Definition expected_next (run_number per_run : Z) : option Z :=
  match checked_sub u32_max run_number 1 with
  | Some run =>
      match checked_mul u32_max run per_run with
      | Some page => checked_add u32_max page 1
      | None => None
      end
  | None => None
  end.

Definition WorkflowRunInput_deserialize (wire : WorkflowRunInput) : option WorkflowRunInput :=
  if negb (String.eqb (wri_schema_version wire) WORKFLOW_SCHEMA_VERSION)
     || negb (contains 1 MAXIMUM_PAGE_COUNT (wri_page_count wire))
     || negb (bool_decide (expected_next (wri_run_number wire) PAGES_PER_RUN
                           = Some (wri_next_page wire)))
     || (wri_page_count wire <? wri_next_page wire)
  then None else Some wire.

Definition WorkflowRunInput_first (input : WorkflowInput) : WorkflowRunInput :=
  {| wri_schema_version := wi_schema_version input; wri_product_id := wi_product_id input;
     wri_tenant_id := wi_tenant_id input; wri_job_id := wi_job_id input;
     wri_page_count := wi_page_count input; wri_next_page := 1; wri_run_number := 1 |}.

(** The first and the last page of the range. *)
Definition page_range (self : WorkflowRunInput) : Z * Z :=
  (wri_next_page self,
   Z.min (saturating_add u32_max (wri_next_page self) (PAGES_PER_RUN - 1)) (wri_page_count self)).

Definition WorkflowRunInput_next_run (self : WorkflowRunInput) : option WorkflowRunInput :=
  let next_page := saturating_add u32_max (page_range self).2 1 in
  if next_page <=? wri_page_count self
  then Some {| wri_schema_version := wri_schema_version self;
               wri_product_id := wri_product_id self; wri_tenant_id := wri_tenant_id self;
               wri_job_id := wri_job_id self; wri_page_count := wri_page_count self;
               wri_next_page := next_page;
               wri_run_number := saturating_add u32_max (wri_run_number self) 1 |}
  else None.

(** ** The plan *)

Record WorkflowRun := mkWorkflowRun { first_page : Z; last_page : Z; continues_as_new : bool }.
Record WorkflowPlan := mkWorkflowPlan { plan_page_count : Z; runs : list WorkflowRun }.

(** The [while] loop: [first_page] grows, so [page_count] rounds are enough. *)
Fixpoint plan_runs (fuel : nat) (page_count first_page : Z) : list WorkflowRun :=
  match fuel with
  | O => []
  | S fuel =>
      if first_page <=? page_count then
        let last_page := Z.min (saturating_add u32_max first_page (PAGES_PER_RUN - 1)) page_count in
        {| first_page := first_page; last_page := last_page;
           continues_as_new := last_page <? page_count |}
        :: plan_runs fuel page_count (last_page + 1)
      else []
  end.

Definition WorkflowPlan_new (page_count : Z) : option WorkflowPlan :=
  if negb (contains 1 MAXIMUM_PAGE_COUNT page_count) then None
  else Some {| plan_page_count := page_count;
               runs := plan_runs (Z.to_nat page_count) page_count 1 |}.

(** [format!("ocr-page-{page:04}")]. *)
Definition activity_id (self : WorkflowPlan) (page : Z) : option string :=
  if negb (contains 1 (plan_page_count self) page) then None
  else Some ("ocr-page-" +:+ show_dec4 page).

(** ** Durable activities *)

Record DurableActivityInput := mkDurableActivityInput {
  dai_schema_version : string;
  dai_product_id : ProductId;
  dai_tenant_id : TenantId;
  dai_job_id : JobId;
}.

Definition DurableActivityInput_new (product_id : ProductId) (tenant_id : TenantId)
    (job_id : JobId) : DurableActivityInput :=
  {| dai_schema_version := WORKFLOW_SCHEMA_VERSION; dai_product_id := product_id;
     dai_tenant_id := tenant_id; dai_job_id := job_id |}.

Definition DurableActivityInput_deserialize (wire : DurableActivityInput)
    : option DurableActivityInput :=
  if negb (String.eqb (dai_schema_version wire) WORKFLOW_SCHEMA_VERSION) then None
  else Some (DurableActivityInput_new (dai_product_id wire) (dai_tenant_id wire)
               (dai_job_id wire)).

Module DurableActivityStatus.
Inductive DurableActivityStatus := Running | Completed | Partial | Cancelled.

#[export] Instance DurableActivityStatus_eq_dec : EqDecision DurableActivityStatus.
Proof. solve_decision. Defined.
End DurableActivityStatus.
Export (hints) DurableActivityStatus.

(** [From<PageRunnerOutcome> for DurableActivityOutput]. *)
Definition DurableActivityOutput_from (value : PageRunnerOutcome.PageRunnerOutcome)
    : DurableActivityStatus.DurableActivityStatus :=
  match value with
  | PageRunnerOutcome.Idle status | PageRunnerOutcome.Progressed status =>
      match status with
      | PageWorkflowStatus.Running => DurableActivityStatus.Running
      | PageWorkflowStatus.Completed => DurableActivityStatus.Completed
      | PageWorkflowStatus.Partial => DurableActivityStatus.Partial
      | PageWorkflowStatus.Cancelled => DurableActivityStatus.Cancelled
      end
  end.

Inductive DurableExecutionErrorKind :=
| ProviderRateLimited
| DependencyUnavailable
| RevisionConflict
| InvalidInput
| ScopeNotFound
| IterationLimit.

Definition is_retryable (kind : DurableExecutionErrorKind) : bool :=
  match kind with
  | DependencyUnavailable | ProviderRateLimited | RevisionConflict => true
  | _ => false
  end.

Definition DurableExecutionError_from_ref (value : PageRunnerError.PageRunnerError)
    : DurableExecutionErrorKind :=
  match value with
  | PageRunnerError.RateLimited => ProviderRateLimited
  | PageRunnerError.RetryableConflict => RevisionConflict
  | PageRunnerError.NotFound => ScopeNotFound
  | PageRunnerError.InvalidConfiguration | PageRunnerError.Domain _ => InvalidInput
  | PageRunnerError.Store _ => DependencyUnavailable
  end.

(** [CheckpointedPageExecutor::run] on the outcome of [run_once]. *)
Definition executor_output
    (outcome : result PageRunnerError.PageRunnerError PageRunnerOutcome.PageRunnerOutcome)
    : result DurableExecutionErrorKind DurableActivityStatus.DurableActivityStatus :=
  match outcome with
  | Ok value => Ok (DurableActivityOutput_from value)
  | Err e => Err (DurableExecutionError_from_ref e)
  end.

Record DurableWorkflowRunInput := mkDurableWorkflowRunInput {
  dri_schema_version : string;
  dri_product_id : ProductId;
  dri_tenant_id : TenantId;
  dri_job_id : JobId;
  dri_next_iteration : Z;
  dri_run_number : Z;
}.

Definition DurableWorkflowRunInput_deserialize (wire : DurableWorkflowRunInput)
    : option DurableWorkflowRunInput :=
  if negb (String.eqb (dri_schema_version wire) WORKFLOW_SCHEMA_VERSION)
     || negb (bool_decide (expected_next (dri_run_number wire) DURABLE_ITERATIONS_PER_RUN
                           = Some (dri_next_iteration wire)))
     || negb (contains 1 MAX_DURABLE_RUNNER_ITERATIONS (dri_next_iteration wire))
  then None else Some wire.

Definition DurableWorkflowRunInput_first (input : DurableActivityInput) : DurableWorkflowRunInput :=
  {| dri_schema_version := WORKFLOW_SCHEMA_VERSION; dri_product_id := dai_product_id input;
     dri_tenant_id := dai_tenant_id input; dri_job_id := dai_job_id input;
     dri_next_iteration := 1; dri_run_number := 1 |}.

Definition iteration_range (self : DurableWorkflowRunInput) : Z * Z :=
  (dri_next_iteration self,
   Z.min (saturating_add u32_max (dri_next_iteration self) (DURABLE_ITERATIONS_PER_RUN - 1))
     MAX_DURABLE_RUNNER_ITERATIONS).

Definition DurableWorkflowRunInput_next_run (self : DurableWorkflowRunInput)
    : option DurableWorkflowRunInput :=
  let next_iteration := saturating_add u32_max (iteration_range self).2 1 in
  if next_iteration <=? MAX_DURABLE_RUNNER_ITERATIONS
  then Some {| dri_schema_version := dri_schema_version self;
               dri_product_id := dri_product_id self; dri_tenant_id := dri_tenant_id self;
               dri_job_id := dri_job_id self; dri_next_iteration := next_iteration;
               dri_run_number := saturating_add u32_max (dri_run_number self) 1 |}
  else None.

(** [None] when [durable_activity_options] or [finalization_activity_options] is. *)
Definition iteration_allowed (iteration : Z) : bool :=
  contains 1 MAX_DURABLE_RUNNER_ITERATIONS iteration.

Record DurableWorkflowResultMetadata := mkDurableWorkflowResultMetadata {
  metadata_status : DurableActivityStatus.DurableActivityStatus;
  runner_iterations : Z;
  metadata_runs : Z;
}.

(** How one run of a workflow ends. *)
Inductive RunEnd :=
| Finished (metadata : DurableWorkflowResultMetadata)
| Failed (kind : DurableExecutionErrorKind)
| ContinueAsNew (next : DurableWorkflowRunInput).

(** The range [first..=last], as [count] consecutive numbers. *)
Fixpoint numbers_from (first : Z) (count : nat) : list Z :=
  match count with
  | O => []
  | S count => first :: numbers_from (first + 1) count
  end.
Definition range_inclusive (range : Z * Z) : list Z :=
  numbers_from range.1 (Z.to_nat (range.2 - range.1 + 1)).

Section Workflow.
Context {World : Type}.
Context (activity : Z → World →
  result DurableExecutionErrorKind DurableActivityStatus.DurableActivityStatus * World).
Context (finalize : Z → World → result DurableExecutionErrorKind () * World).

(** The [for] loop; [None] when every iteration of the range left the job running. *)
Fixpoint run_iterations (run_number : Z) (iterations : list Z) (world : World)
    : option RunEnd * World :=
  match iterations with
  | [] => (None, world)
  | iteration :: rest =>
      if negb (iteration_allowed iteration) then (Some (Failed InvalidInput), world)
      else
        match activity iteration world with
        | (Err kind, world) => (Some (Failed kind), world)
        | (Ok outcome, world) =>
            let done := Finished {| metadata_status := outcome; runner_iterations := iteration;
                                    metadata_runs := run_number |} in
            match outcome with
            | DurableActivityStatus.Running => run_iterations run_number rest world
            | DurableActivityStatus.Completed | DurableActivityStatus.Partial =>
                match finalize iteration world with
                | (Err kind, world) => (Some (Failed kind), world)
                | (Ok _, world) => (Some done, world)
                end
            | DurableActivityStatus.Cancelled => (Some done, world)
            end
        end
  end.

Definition DurableDocumentWorkflow_run (input : DurableWorkflowRunInput) (world : World)
    : RunEnd * World :=
  match run_iterations (dri_run_number input) (range_inclusive (iteration_range input)) world with
  | (Some finish, world) => (finish, world)
  | (None, world) =>
      match DurableWorkflowRunInput_next_run input with
      | Some next => (ContinueAsNew next, world)
      | None => (Failed IterationLimit, world)
      end
  end.

(** The whole execution: Temporal starts a continued workflow on the input passed,
    once it deserializes. *)
Fixpoint execute_workflow (fuel : nat) (input : DurableWorkflowRunInput) (world : World)
    : option RunEnd * World :=
  match fuel with
  | O => (None, world)
  | S fuel =>
      match DurableDocumentWorkflow_run input world with
      | (ContinueAsNew next, world) =>
          match DurableWorkflowRunInput_deserialize next with
          | Some next => execute_workflow fuel next world
          | None => (None, world)
          end
      | (finish, world) => (Some finish, world)
      end
  end.
End Workflow.

(** An activity under the retry policy: up to [attempts] executions, and none after an
    error that is not retryable. *)
Fixpoint with_retries {World A : Type} (attempts : nat)
    (execute : World → result DurableExecutionErrorKind A * World) (world : World)
    : result DurableExecutionErrorKind A * World :=
  match execute world with
  | (Err kind, world) =>
      match attempts with
      | S (S _ as attempts) =>
          if is_retryable kind then with_retries attempts execute world else (Err kind, world)
      | _ => (Err kind, world)
      end
  | (Ok a, world) => (Ok a, world)
  end.

(** [ActivityPolicy::page_ocr().maximum_attempts]. *)
Definition MAXIMUM_ACTIVITY_ATTEMPTS : nat := 3.

(** ** The qualification workflow *)

Record WorkflowResultMetadata := mkWorkflowResultMetadata { pages_processed : Z; result_runs : Z }.

Section Qualification.
Context {World : Type}.
Context (process_page : Z → World → result DurableExecutionErrorKind Z * World).

Fixpoint process_pages (pages : list Z) (world : World)
    : result DurableExecutionErrorKind () * World :=
  match pages with
  | [] => (Ok tt, world)
  | page :: rest =>
      match process_page page world with
      | (Err kind, world) => (Err kind, world)
      | (Ok _, world) => process_pages rest world
      end
  end.

(** [inl] is [continue_as_new]. *)
Definition OcrDocumentWorkflow_run (input : WorkflowRunInput) (world : World)
    : result DurableExecutionErrorKind (WorkflowRunInput + WorkflowResultMetadata) * World :=
  match process_pages (range_inclusive (page_range input)) world with
  | (Err kind, world) => (Err kind, world)
  | (Ok _, world) =>
      (Ok match WorkflowRunInput_next_run input with
          | Some next => inl next
          | None => inr {| pages_processed := wri_page_count input;
                           result_runs := wri_run_number input |}
          end, world)
  end.
End Qualification.
