(* ===== verification/TemporalFacts.v ===== *)
(** * TemporalFacts: plans, continued runs and the life of a job

    The page plan covers a document exactly and the continued runs follow it; a chain
    of continued workflow runs is one loop over the iterations; and with the page runner
    on the store a job's workflow finishes within its iteration limit.

    A chain of continued runs of the durable workflow is one loop over the iterations,
    and with the page runner on the store that loop finishes within the attempts of the
    document. *)

From S2P Require Import Prelude Text DomainTypes Identifiers PageWorkflow PageWorkflowFacts.
From S2P Require Import Geometry StoreTypes StoreChecks StoreDb StoreJobs StorePages StoreUploads.
From S2P Require Import StoreOutbox StoreRun StoreJobsFacts StorePagesFacts PageRunner.
From S2P Require Import PageRunnerFacts Temporal.

#[local] Open Scope list_scope.
#[local] Open Scope Z_scope.

#[local] Arguments contains : simpl never.

(** ** Ranges *)

Lemma numbers_from_app a i k :
  numbers_from a (i + k) = numbers_from a i ++ numbers_from (a + Z.of_nat i) k.
Proof.
  revert a. induction i as [|i IH]; intros a; simpl.
  - by rewrite Z.add_0_r.
  - rewrite IH. f_equal. f_equal. f_equal. lia.
Qed.

Lemma saturating_page a : 1 ≤ a ≤ 3000 → saturating_add u32_max a 49 = a + 49.
Proof. unfold saturating_add, u32_max. lia. Qed.

(** ** The page plan *)

Lemma plan_runs_cover fuel n first :
  1 ≤ first → n ≤ 1000 → first ≤ n + 1 → n - first + 1 ≤ Z.of_nat fuel →
  concat (map (λ run, range_inclusive (first_page run, last_page run)) (plan_runs fuel n first))
  = numbers_from first (Z.to_nat (n - first + 1)).
Proof.
  revert first. induction fuel as [|fuel IH]; intros first Hf Hn Hle Hfuel.
  - replace (Z.to_nat (n - first + 1)) with 0%nat by lia. done.
  - simpl. destruct (Z.leb_spec first n) as [Hin|Hout].
    + simpl. unfold PAGES_PER_RUN. change (50 - 1) with 49. rewrite saturating_page by lia.
      rewrite IH by lia. unfold range_inclusive. simpl.
      set (last := Z.min (first + 49) n).
      replace (Z.to_nat (n - first + 1))
        with (Z.to_nat (last - first + 1) + Z.to_nat (n - (last + 1) + 1))%nat by lia.
      rewrite numbers_from_app. f_equal. f_equal. lia.
    + replace (Z.to_nat (n - first + 1)) with 0%nat by lia. done.
Qed.

Lemma plan_runs_shape fuel n first :
  1 ≤ first → n ≤ 1000 →
  Forall (λ run, 1 ≤ first_page run ≤ last_page run ∧ last_page run - first_page run < PAGES_PER_RUN
                 ∧ last_page run ≤ n ∧ continues_as_new run = (last_page run <? n))
    (plan_runs fuel n first).
Proof.
  revert first. induction fuel as [|fuel IH]; intros first Hf Hn; [constructor|]. simpl.
  destruct (Z.leb_spec first n); [|constructor]. constructor.
  - simpl. unfold PAGES_PER_RUN. change (50 - 1) with 49. rewrite saturating_page by lia.
    split_and!; try done; lia.
  - apply IH; [|done]. unfold PAGES_PER_RUN. change (50 - 1) with 49.
    rewrite saturating_page by lia. lia.
Qed.

(** The inputs of the continued runs of the qualification workflow. *)
Fixpoint run_chain (fuel : nat) (input : WorkflowRunInput) : list WorkflowRunInput :=
  match fuel with
  | O => []
  | S fuel =>
      input :: match WorkflowRunInput_next_run input with
               | Some next => run_chain fuel next
               | None => []
               end
  end.

Definition valid_run (input : WorkflowRunInput) : Prop :=
  WorkflowRunInput_deserialize input = Some input.

Lemma expected_next_Some run per v :
  1 ≤ run ≤ 1000 → 1 ≤ per ≤ 1000 →
  expected_next run per = Some v ↔ v = (run - 1) * per + 1.
Proof.
  intros Hr Hp. unfold expected_next, checked_sub, checked_mul, checked_add.
  rewrite (proj2 (checked_Some u32_max (run - 1) _)) by (split; [done|unfold in_width, u32_max; lia]).
  rewrite (proj2 (checked_Some u32_max ((run - 1) * per) _))
    by (split; [done|unfold in_width, u32_max; nia]).
  rewrite checked_Some. unfold in_width, u32_max. nia.
Qed.

Lemma valid_run_spec input :
  1 ≤ wri_run_number input ≤ 1000 →
  valid_run input ↔ wri_schema_version input = "1"
    ∧ 1 ≤ wri_page_count input ≤ MAXIMUM_PAGE_COUNT
    ∧ wri_next_page input = (wri_run_number input - 1) * 50 + 1
    ∧ wri_next_page input ≤ wri_page_count input.
Proof.
  intros Hr. unfold valid_run, WorkflowRunInput_deserialize.
  pose proof (expected_next_Some (wri_run_number input) PAGES_PER_RUN (wri_next_page input) Hr
    ltac:(unfold PAGES_PER_RUN; lia)) as Hnext. unfold PAGES_PER_RUN at 2 in Hnext.
  destruct (_ || _) eqn:Hbad.
  - split; [done|]. intros (Hs & Hc & Hn & Hle). exfalso.
    rewrite !orb_true_iff, !negb_true_iff, String.eqb_neq, contains_false, Z.ltb_lt,
      bool_decide_eq_false in Hbad. unfold WORKFLOW_SCHEMA_VERSION in Hbad.
    destruct Hbad as [[[H|H]|H]|H]; [done|tauto|by apply H, Hnext|lia].
  - rewrite !orb_false_iff, !negb_false_iff, String.eqb_eq, contains_true, Z.ltb_ge,
      bool_decide_eq_true in Hbad. unfold WORKFLOW_SCHEMA_VERSION in Hbad. tauto.
Qed.

(** From a valid run the chain of the next ones follows the plan, and stays valid. *)
Lemma run_chain_plan fuel input :
  1 ≤ wri_run_number input ≤ 100 → valid_run input →
  wri_page_count input - wri_next_page input + 1 ≤ Z.of_nat fuel →
  map page_range (run_chain fuel input)
  = map (λ run, (first_page run, last_page run))
      (plan_runs fuel (wri_page_count input) (wri_next_page input))
  ∧ Forall valid_run (run_chain fuel input).
Proof.
  revert input. induction fuel as [|fuel IH]; intros input Hr Hv Hfuel; [done|].
  pose proof Hv as (Hs & Hc & Hn & Hle)%valid_run_spec; [|lia].
  unfold MAXIMUM_PAGE_COUNT in Hc. cbn [run_chain plan_runs].
  rewrite (proj2 (Z.leb_le _ _)) by done.
  assert (Hrange : page_range input
    = (wri_next_page input, Z.min (wri_next_page input + 49) (wri_page_count input))).
  { unfold page_range, PAGES_PER_RUN. change (50 - 1) with 49. by rewrite saturating_page by lia. }
  unfold WorkflowRunInput_next_run. rewrite Hrange. unfold PAGES_PER_RUN. change (50 - 1) with 49.
  rewrite saturating_page by lia. cbn [snd map first_page last_page].
  replace (saturating_add u32_max (Z.min (wri_next_page input + 49) (wri_page_count input)) 1)
    with (Z.min (wri_next_page input + 49) (wri_page_count input) + 1)
    by (unfold saturating_add, u32_max; lia).
  replace (saturating_add u32_max (wri_run_number input) 1) with (wri_run_number input + 1)
    by (unfold saturating_add, u32_max; lia).
  destruct (Z.leb_spec (Z.min (wri_next_page input + 49) (wri_page_count input) + 1)
    (wri_page_count input)) as [Hmore|Hlast].
  - match goal with |- context [run_chain fuel ?next] => set (input' := next) end.
    assert (Hr' : 1 ≤ wri_run_number input' ≤ 100) by (simpl; lia).
    assert (Hv' : valid_run input').
    { apply valid_run_spec; simpl; [lia|]. unfold MAXIMUM_PAGE_COUNT. split_and!; try done; lia. }
    destruct (IH input' Hr' Hv') as [Hmap Hall]; [simpl; lia|]. split.
    + cbn [map]. rewrite Hrange, Hmap. done.
    + by constructor.
  - split; [|by repeat constructor]. cbn [map]. rewrite Hrange. f_equal.
    destruct fuel as [|fuel]; [done|]. simpl. rewrite (proj2 (Z.leb_gt _ _)) by lia. done.
Qed.

(** The runs of a document's workflow cover its pages exactly.  For every accepted
    page count the plan lists the pages 1 to [page_count] once each and in order, in runs
    of at most fifty pages of which exactly the last does not continue as new; and the
    inputs that the workflow actually continues with, starting from the first run, follow
    the plan run by run, each passing the wire check of the next. *)
Theorem workflow_plan_covers_pages product tenant job n :
  1 ≤ n ≤ MAXIMUM_PAGE_COUNT →
  ∃ plan, WorkflowPlan_new n = Some plan
    ∧ concat (map (λ run, range_inclusive (first_page run, last_page run)) (runs plan))
      = numbers_from 1 (Z.to_nat n)
    ∧ Forall (λ run, last_page run - first_page run < PAGES_PER_RUN
                     ∧ continues_as_new run = (last_page run <? n)) (runs plan)
    ∧ (let chain := run_chain (Z.to_nat n) (WorkflowRunInput_first
                      (mkWorkflowInput WORKFLOW_SCHEMA_VERSION product tenant job n)) in
       map page_range chain = map (λ run, (first_page run, last_page run)) (runs plan)
       ∧ Forall valid_run chain).
Proof.
  intros Hn. unfold MAXIMUM_PAGE_COUNT in Hn. unfold WorkflowPlan_new.
  rewrite (proj2 (contains_true _ _ _)) by (unfold MAXIMUM_PAGE_COUNT; lia).
  eexists. split; [done|]. simpl. split_and!.
  - rewrite plan_runs_cover by lia. f_equal. lia.
  - eapply Forall_impl; [apply (plan_runs_shape _ n 1); lia|]. simpl. tauto.
  - apply run_chain_plan; simpl; [lia| |lia].
    apply valid_run_spec; simpl; [lia|]. unfold MAXIMUM_PAGE_COUNT. split_and!; [done|lia..].
  - apply run_chain_plan; simpl; [lia| |lia].
    apply valid_run_spec; simpl; [lia|]. unfold MAXIMUM_PAGE_COUNT. split_and!; [done|lia..].
Qed.

Theorem workflow_plan_covers_pages_witness :
  1 ≤ 120 ≤ MAXIMUM_PAGE_COUNT
  ∧ ∃ plan, WorkflowPlan_new 120 = Some plan
      ∧ concat (map (λ run, range_inclusive (first_page run, last_page run)) (runs plan))
        = numbers_from 1 120.
Proof.
  assert (Hn : 1 ≤ 120 ≤ MAXIMUM_PAGE_COUNT) by (unfold MAXIMUM_PAGE_COUNT; lia).
  split; [exact Hn|].
  destruct (workflow_plan_covers_pages sample_product sample_tenant sample_job 120 Hn)
    as (plan & Hplan & Hcover & _).
  exists plan. split; [exact Hplan|exact Hcover].
Defined.

(** ** The chain of runs is one loop *)

Section Loop.
Context {World : Type}.
Context (activity : Z → World →
  result DurableExecutionErrorKind DurableActivityStatus.DurableActivityStatus * World).
Context (finalize : Z → World → result DurableExecutionErrorKind () * World).

(** The specification: one iteration after the other until the job leaves [Running],
    then the finalization of a job that has results. *)
Fixpoint one_loop (iterations : list Z) (world : World) : RunEnd * World :=
  match iterations with
  | [] => (Failed IterationLimit, world)
  | i :: rest =>
      let finished status := Finished (mkDurableWorkflowResultMetadata status i ((i - 1) / 50 + 1)) in
      match activity i world with
      | (Err kind, world) => (Failed kind, world)
      | (Ok DurableActivityStatus.Running, world) => one_loop rest world
      | (Ok DurableActivityStatus.Cancelled, world) =>
          (finished DurableActivityStatus.Cancelled, world)
      | (Ok status, world) =>
          match finalize i world with
          | (Err kind, world) => (Failed kind, world)
          | (Ok _, world) => (finished status, world)
          end
      end
  end.

Lemma run_iterations_loop run iterations rest world :
  Forall (λ i, iteration_allowed i = true ∧ (i - 1) / 50 + 1 = run) iterations →
  one_loop (iterations ++ rest) world
  = match run_iterations activity finalize run iterations world with
    | (Some finish, world) => (finish, world)
    | (None, world) => one_loop rest world
    end.
Proof.
  intros Hall. revert world. induction Hall as [|i iterations [Hi <-] Hall IH]; intros world; [done|].
  simpl. rewrite Hi. simpl. destruct (activity i world) as [[status|kind] world']; [|done].
  destruct status; [apply IH|..|done]; by destruct (finalize i world') as [[]?].
Qed.

Lemma elem_of_numbers_from i a n : i ∈ numbers_from a n ↔ a ≤ i < a + Z.of_nat n.
Proof.
  revert a. induction n as [|n IH]; intros a; simpl.
  - rewrite elem_of_nil. lia.
  - rewrite elem_of_cons, IH. lia.
Qed.

Lemma run_iterations_not_continued run iterations world next :
  (run_iterations activity finalize run iterations world).1 ≠ Some (ContinueAsNew next).
Proof.
  revert world. induction iterations as [|i iterations IH]; intros world; [done|]. simpl.
  destruct (negb _); [done|]. destruct (activity i world) as [[status|] world']; [|done].
  destruct status; [apply IH|..|done]; by destruct (finalize i world') as [[]?].
Qed.

(** The input of run [r]. *)
Definition run_input (input : DurableActivityInput) (r : Z) : DurableWorkflowRunInput :=
  mkDurableWorkflowRunInput WORKFLOW_SCHEMA_VERSION (dai_product_id input) (dai_tenant_id input)
    (dai_job_id input) ((r - 1) * 50 + 1) r.

Lemma iteration_range_of input r :
  1 ≤ r ≤ 60 → iteration_range (run_input input r) = ((r - 1) * 50 + 1, r * 50).
Proof.
  intros Hr. unfold iteration_range, run_input, saturating_add, u32_max,
    DURABLE_ITERATIONS_PER_RUN, MAX_DURABLE_RUNNER_ITERATIONS. simpl. f_equal. lia.
Qed.

Lemma next_run_of input r :
  1 ≤ r ≤ 60 →
  DurableWorkflowRunInput_next_run (run_input input r)
  = if r <? 60 then Some (run_input input (r + 1)) else None.
Proof.
  intros Hr. unfold DurableWorkflowRunInput_next_run. rewrite iteration_range_of by done. simpl.
  unfold saturating_add, u32_max, MAX_DURABLE_RUNNER_ITERATIONS.
  replace (Z.min (r * 50 + 1) 4294967295) with (r * 50 + 1) by lia.
  replace (Z.min (r + 1) 4294967295) with (r + 1) by lia.
  destruct (Z.ltb_spec r 60) as [Hlt|Hge].
  - rewrite (proj2 (Z.leb_le _ _)) by lia. unfold run_input. f_equal. f_equal. lia.
  - by rewrite (proj2 (Z.leb_gt _ _)) by lia.
Qed.

Lemma run_input_deserializes input r :
  1 ≤ r ≤ 60 → DurableWorkflowRunInput_deserialize (run_input input r) = Some (run_input input r).
Proof.
  intros Hr. unfold DurableWorkflowRunInput_deserialize. simpl.
  rewrite bool_decide_true; [|by apply expected_next_Some; unfold DURABLE_ITERATIONS_PER_RUN; lia].
  rewrite (proj2 (contains_true _ _ _)); [done|]. unfold MAX_DURABLE_RUNNER_ITERATIONS. lia.
Qed.

Lemma execute_from input fuel r world :
  1 ≤ r ≤ 60 → Z.of_nat fuel = 61 - r →
  execute_workflow activity finalize fuel (run_input input r) world
  = let (finish, world) :=
      one_loop (numbers_from ((r - 1) * 50 + 1) (Z.to_nat (3000 - (r - 1) * 50))) world in
    (Some finish, world).
Proof.
  revert r world. induction fuel as [|fuel IH]; intros r world Hr Hfuel; [lia|].
  simpl. unfold DurableDocumentWorkflow_run. rewrite iteration_range_of by done.
  unfold range_inclusive. cbn [fst snd dri_run_number run_input].
  replace (Z.to_nat (3000 - (r - 1) * 50))
    with (Z.to_nat (r * 50 - ((r - 1) * 50 + 1) + 1) + Z.to_nat (3000 - r * 50))%nat by lia.
  rewrite numbers_from_app, (run_iterations_loop r).
  - pose proof (run_iterations_not_continued r
      (numbers_from ((r - 1) * 50 + 1) (Z.to_nat (r * 50 - ((r - 1) * 50 + 1) + 1))) world) as Hnc.
    destruct (run_iterations _ _ _ _ _) as [[finish|] world']; cbn [fst] in Hnc.
    + destruct finish; [done..|]. by destruct (Hnc next).
    + rewrite next_run_of by done. destruct (Z.ltb_spec r 60) as [Hlt|Hge].
      * rewrite run_input_deserializes by lia. rewrite IH by lia.
        replace (r + 1 - 1) with r by lia.
        replace ((r - 1) * 50 + 1 + Z.of_nat (Z.to_nat (r * 50 - ((r - 1) * 50 + 1) + 1)))
          with (r * 50 + 1) by lia. done.
      * replace (Z.to_nat (3000 - r * 50)) with 0%nat by lia. done.
  - apply Forall_forall. intros i Hi%elem_of_numbers_from. split.
    + apply contains_true. unfold MAX_DURABLE_RUNNER_ITERATIONS. lia.
    + replace ((i - 1) / 50) with (r - 1); [lia|]. apply (Z.div_unique _ _ _ (i - 1 - (r - 1) * 50)); lia.
Qed.

Lemma execute_first input world :
  execute_workflow activity finalize 60 (DurableWorkflowRunInput_first input) world
  = let (finish, world) := one_loop (numbers_from 1 3000) world in (Some finish, world).
Proof. exact (execute_from input 60 1 world ltac:(lia) eq_refl). Qed.

(** The continued runs of a document's workflow are one loop.  Whatever the activities
    do, the chain of at most sixty runs that [continue_as_new] makes of a workflow - every
    continued input passing its wire check - behaves as a single loop over the iterations
    1 to 3000, which reports the iteration it ended in and the run, one for every fifty
    iterations, that held it; only the loop's own end is the iteration limit. *)
Theorem durable_workflow_is_one_loop input world :
  execute_workflow activity finalize 60 (DurableWorkflowRunInput_first input) world
  = let (finish, world) := one_loop (numbers_from 1 3000) world in (Some finish, world).
Proof. apply execute_first. Qed.
End Loop.

(** ** The life of a job

    The activity of an iteration runs the page runner under the retry policy.  The world
    is the database and the number of executions so far, which chooses what the
    processor answers and in which order the pages of the batch finish. *)

Section Life.
Context (ss js : RawPageWorkflow → Z).
Context (sizes_fit : ∀ w, workflow_ok w → id_valid (workflow_job_id w) →
  1 ≤ ss (to_raw w) ≤ 262144 ∧ 1 ≤ js (to_raw w) ≤ 262144).
Context (self : CheckpointedPageRunner) (t : TenantId) (p : ProductId) (j : JobId).
Context (process : Z → PageTask → ProcessResult).
Context (complete : Z → list (PageTask * ProcessResult) → list (PageTask * ProcessResult)).

Definition run_activity (world : Db * Z)
    : result DurableExecutionErrorKind DurableActivityStatus.DurableActivityStatus * (Db * Z) :=
  let (db, n) := world in
  let (outcome, db) := run_once ss js self t p j (process n) (complete n) (λ db, db) (λ db, db) db in
  (executor_output outcome, (db, n + 1)).

Definition page_activity (iteration : Z) (world : Db * Z) :=
  with_retries MAXIMUM_ACTIVITY_ATTEMPTS run_activity world.

Context (batch_fits : 1 ≤ batch_size self ≤ 64).
Context (processors_good : ∀ n, good_processor (process n)).
Context (complete_all : ∀ n l, complete n l ≡ₚ l).

Definition durable_status (status : PageWorkflowStatus.PageWorkflowStatus) :=
  DurableActivityOutput_from (PageRunnerOutcome.Progressed status).

Lemma with_retries_again {World A} attempts (execute : World → result _ A * World) world kind world' :
  execute world = (Err kind, world') → is_retryable kind = true →
  with_retries (S (S attempts)) execute world = with_retries (S attempts) execute world'.
Proof. intros Hex Hretry. cbn [with_retries]. by rewrite Hex, Hretry. Qed.

(** What an activity does to a running job: it makes progress, and then answers the
    status reached, or that the provider limits the rate. *)
Lemma page_activity_progress attempts db n w rev :
  runner_ready db t p j w rev → cancelled w = false →
  status w = PageWorkflowStatus.Running →
  ∃ w' rev' db' n', runner_ready db' t p j w' rev' ∧ cancelled w' = false
    ∧ budget w' < budget w
    ∧ (with_retries (S attempts) run_activity (db, n) = (Ok (durable_status (status w')), (db', n'))
       ∨ with_retries (S attempts) run_activity (db, n) = (Err ProviderRateLimited, (db', n'))
         ∧ ∃ k task, process k task = Err PageProcessError.RateLimited).
Proof.
  revert db n w rev. induction attempts as [|attempts IH]; intros db n w rev Hready Hc Hst;
    destruct (ready_run ss js sizes_fit db self t p j w rev (process n) (complete n) Hready
      batch_fits (processors_good n) (complete_all n)) as [_ Hrun];
    destruct (Hrun Hst) as (w' & db' & limited & Hready' & Hb & Hc' & Hout & Hlim).
  - exists w', (rev + 2), db', (n + 1). split_and!; [done|congruence|done|]. simpl. rewrite Hout.
    destruct limited; simpl; [|by left]. case_bool_decide; simpl; [|by left].
    right. split; [done|]. exists n. by apply Hlim.
  - destruct (limited && bool_decide (status w' = PageWorkflowStatus.Running)) eqn:Hl.
    + apply andb_true_iff in Hl as [-> Hst']. apply bool_decide_eq_true in Hst'.
      destruct (IH db' (n + 1) w' (rev + 2) Hready' ltac:(congruence) Hst')
        as (w2 & rev2 & db2 & n2 & Hr2 & Hc2 & Hb2 & Hout2).
      exists w2, rev2, db2, n2. split_and!; [done..|lia|].
      rewrite (with_retries_again attempts run_activity (db, n) ProviderRateLimited (db', n + 1));
        [exact Hout2| |done]. unfold run_activity. by rewrite Hout.
    + exists w', (rev + 2), db', (n + 1). split_and!; [done|congruence|done|]. left.
      cbn [with_retries]. unfold run_activity at 1. by rewrite Hout.
Qed.

Lemma new_running job page_count max w :
  PageWorkflow_new job page_count max = Ok w → status w = PageWorkflowStatus.Running.
Proof.
  unfold PageWorkflow_new. destruct (_ || _) eqn:Hbad; [done|]. intros [= <-]. unfold status. simpl.
  boolify. destruct (Z.to_nat page_count) eqn:Hn; [|done].
  unfold MAXIMUM_PAGE_COUNT in Hbad. lia.
Qed.

Lemma settled_status w :
  cancelled w = false → status w ≠ PageWorkflowStatus.Running →
  status w = PageWorkflowStatus.Completed ∨ status w = PageWorkflowStatus.Partial.
Proof.
  unfold status. intros ->. destruct (forallb is_succeeded _); [by left|].
  destruct (forallb is_settled _); [by right|done].
Qed.

(** How the loop over [n] iterations from [first] ends, when the budget is that large. *)
Lemma loop_settles finalize n first db k w rev :
  runner_ready db t p j w rev → cancelled w = false →
  status w = PageWorkflowStatus.Running → budget w ≤ Z.of_nat n →
  let ending := one_loop page_activity finalize (numbers_from first n) (db, k) in
  (∃ i w' rev' world, first ≤ i < first + budget w
     ∧ runner_ready world.1 t p j w' rev'
     ∧ (status w' = PageWorkflowStatus.Completed ∨ status w' = PageWorkflowStatus.Partial)
     ∧ ending = match finalize i world with
                | (Ok _, world) =>
                    (Finished (mkDurableWorkflowResultMetadata (durable_status (status w')) i
                                 ((i - 1) / 50 + 1)), world)
                | (Err kind, world) => (Failed kind, world)
                end)
  ∨ ending.1 = Failed ProviderRateLimited
    ∧ ∃ k task, process k task = Err PageProcessError.RateLimited.
Proof.
  revert first db k w rev. induction n as [|n IH]; intros first db k w rev Hready Hc Hst Hn.
  - exfalso. apply status_running_claimable in Hst as [_ Hne]. apply Hne.
    apply (claimable_budget _ (max_attempts w)); [apply ok_pages; by eapply ready_ok|].
    unfold budget in Hn. lia.
  - destruct (page_activity_progress 2 db k w rev Hready Hc Hst)
      as (w' & rev' & db' & k' & Hready' & Hc' & Hb & Hout).
    assert (Hpos : 0 ≤ budget w') by (eapply budget_nonneg, ready_ok; done).
    simpl. unfold page_activity at 1 3. unfold MAXIMUM_ACTIVITY_ATTEMPTS.
    destruct Hout as [->|[-> Hlim]]; [|by right].
    destruct (decide (status w' = PageWorkflowStatus.Running)) as [Hst'|Hst'].
    + rewrite Hst'. simpl.
      destruct (IH (first + 1) db' k' w' rev' Hready' Hc' Hst' ltac:(lia))
        as [(i & w2 & rev2 & world & Hi & Hend)|Hlim]; [left|by right].
      exists i, w2, rev2, world. split; [lia|exact Hend].
    + left. exists first, w', rev', (db', k'). split; [lia|]. split; [done|].
      pose proof (settled_status w' Hc' Hst') as Hset. split; [done|].
      by destruct Hset as [-> | ->].
Qed.

(** C17: a job's workflow finishes.  A created job of [page_count] pages and [max] attempts,
    at most 3000 attempts in all as deployed, is run by its durable workflow with nobody
    else at work on it: then, whatever the processor answers in each execution and in
    whatever order pages finish, the workflow ends within [page_count * max] iterations
    with every page settled and, after the finalization, with the matching status - never
    at the iteration limit, and never for a reason that the page activities cause, unless
    the provider kept limiting the rate. *)
Theorem durable_document_completes finalize db page_count max w stored db0 input :
  reachable ss js db → id_valid j → PageWorkflow_new j page_count max = Ok w →
  create_page_workflow ss js t p j w db = Ok (CreatePageWorkflowOutcome.Created stored, db0) →
  page_count * max ≤ MAX_DURABLE_RUNNER_ITERATIONS →
  let ending := execute_workflow page_activity finalize 60 (DurableWorkflowRunInput_first input)
                  (db0, 0) in
  (∃ i w' rev world, 1 ≤ i ≤ page_count * max
     ∧ load_page_workflow js t p j world.1 = Ok (Some (mkStoredPageWorkflow w' rev))
     ∧ (status w' = PageWorkflowStatus.Completed ∨ status w' = PageWorkflowStatus.Partial)
     ∧ ending = match finalize i world with
                | (Ok _, world) =>
                    (Some (Finished (mkDurableWorkflowResultMetadata
                             (durable_status (status w')) i ((i - 1) / 50 + 1))), world)
                | (Err kind, world) => (Some (Failed kind), world)
                end)
  ∨ ending.1 = Some (Failed ProviderRateLimited)
    ∧ ∃ n task, process n task = Err PageProcessError.RateLimited.
Proof.
  intros Hreach Hj Hnew Hcreate Hmax. unfold MAX_DURABLE_RUNNER_ITERATIONS in Hmax.
  destruct (created_ready ss js db t p j page_count max w stored db0 Hreach Hj Hnew Hcreate)
    as (Hready & Hc & Hb).
  assert (Hst : status w = PageWorkflowStatus.Running) by (by eapply new_running).
  cbv zeta. rewrite (execute_first page_activity finalize input (db0, 0)).
  destruct (loop_settles finalize 3000 1 db0 0 w 0 Hready Hc Hst ltac:(lia))
    as [(i & w' & rev & world & Hi & Hr & Hs & ->)|[Hlim Hex]].
  - left. exists i, w', rev, world. split; [lia|]. split; [by apply (ready_load ss js sizes_fit)|].
    split; [done|]. by destruct (finalize i world) as [[?|?] ?].
  - right. split; [|done]. revert Hlim.
    generalize (one_loop page_activity finalize (numbers_from 1 3000) (db0, 0)).
    intros [finish world] Hlim. cbn in *. by rewrite Hlim.
Qed.
End Life.

(** ** Witness *)

Theorem durable_document_completes_witness :
  ∃ db0 i w' rev world, 1 ≤ i ≤ 1 * 3
    ∧ load_page_workflow sample_size sample_tenant sample_product sample_job world.1
      = Ok (Some (mkStoredPageWorkflow w' rev))
    ∧ execute_workflow
        (page_activity sample_size sample_size sample_runner sample_tenant sample_product sample_job
           (λ _, sample_process) (λ _ l, l))
        (λ _ world, (Ok (), world)) 60
        (DurableWorkflowRunInput_first
           (DurableActivityInput_new sample_product sample_tenant sample_job)) (db0, 0)
      = (Some (Finished (mkDurableWorkflowResultMetadata (durable_status (status w')) i
                  ((i - 1) / 50 + 1))), world).
Proof.
  destruct sample_workflow_created as [db0 Hcreate]. exists db0.
  assert (Hsizes : ∀ w, workflow_ok w → id_valid (workflow_job_id w) →
    1 ≤ sample_size (to_raw w) ≤ 262144 ∧ 1 ≤ sample_size (to_raw w) ≤ 262144)
    by (intros w _ _; unfold sample_size; lia).
  assert (Hbatch : 1 ≤ batch_size sample_runner ≤ 64) by (simpl; lia).
  assert (Hnew : PageWorkflow_new sample_job 1 3 = Ok sample_page_workflow) by reflexivity.
  assert (Hmax : 1 * 3 ≤ MAX_DURABLE_RUNNER_ITERATIONS) by (unfold MAX_DURABLE_RUNNER_ITERATIONS; lia).
  destruct (durable_document_completes sample_size sample_size Hsizes sample_runner sample_tenant
    sample_product sample_job (λ _, sample_process) (λ _ l, l) Hbatch (λ _, sample_process_good)
    (λ _ l, Permutation_refl l) (λ _ world, (Ok (), world)) _ 1 3 sample_page_workflow _ db0
    (DurableActivityInput_new sample_product sample_tenant sample_job) sample_job_reachable_runs
    sample_job_valid Hnew Hcreate Hmax)
    as [(i & w' & rev & world & Hi & Hload & _ & Hend)|(_ & n & task & Hlimited)].
  - exists i, w', rev, world. split; [exact Hi|]. split; [exact Hload|exact Hend].
  - exfalso. unfold sample_process in Hlimited. destruct (decide (task = sample_task)); discriminate.
Defined.
