(* ===== verification/Eval.v ===== *)
(** * Eval: bounded text evaluation

    Models [ocr-eval/src/lib.rs]: the limits, the error rates, the two-row edit distance
    and the aggregation.  Unicode normalisation is the crate [unicode-normalization]: its
    [nfc] on characters is an argument.  A [usize] is its value in [Z].

    The two-row computation is the edit distance, the least number of single insertions,
    deletions and substitutions between the two sequences; evaluation keeps to its limits;
    and aggregation adds the totals, whatever their order, or reports the overflow. *)

From S2P Require Import Prelude Text Float64.

#[local] Open Scope list_scope.
#[local] Open Scope Z_scope.

Definition HARD_MAXIMUM_UNITS : Z := 1000000.
Definition HARD_MAXIMUM_COMPARISON_CELLS : Z := 100000000.

Module EvalError.
Inductive Error :=
| InvalidLimits
| InputLimitExceeded
| ComparisonLimitExceeded
| AggregateOverflow.
End EvalError.

Record TextEvaluationLimits := mkTextEvaluationLimits {
  maximum_reference_units : Z;
  maximum_candidate_units : Z;
  maximum_comparison_cells : Z;
}.

Definition TextEvaluationLimits_new (maximum_reference_units maximum_candidate_units
    maximum_comparison_cells : Z) : result EvalError.Error TextEvaluationLimits :=
  if (maximum_reference_units =? 0) || (HARD_MAXIMUM_UNITS <? maximum_reference_units)
     || (maximum_candidate_units =? 0) || (HARD_MAXIMUM_UNITS <? maximum_candidate_units)
     || (maximum_comparison_cells =? 0)
     || (HARD_MAXIMUM_COMPARISON_CELLS <? maximum_comparison_cells)
  then Err EvalError.InvalidLimits
  else Ok (mkTextEvaluationLimits maximum_reference_units maximum_candidate_units
             maximum_comparison_cells).

Record ErrorRate := mkErrorRate {
  edits : Z;
  reference_units : Z;
  rate : option f64;
}.

Definition ErrorRate_new (edits reference_units candidate_units : Z) : ErrorRate :=
  {| edits := edits; reference_units := reference_units;
     rate := if reference_units =? 0
             then if candidate_units =? 0 then Some f64_zero else None
             else Some (f64_div (f64_of_Z edits) (f64_of_Z reference_units)) |}.

Record TextEvaluation := mkTextEvaluation { characters : ErrorRate; words : ErrorRate }.

(** ** The edit distance *)

Section Levenshtein.
Context {T : Type} `{EqDecision T}.

(** The cells of [current] after the first one, from the cell to their left and the rest
    of [previous]. *)
Fixpoint fill_row (row : T) (columns : list T) (left : Z) (previous : list Z) : list Z :=
  match columns, previous with
  | column :: columns, diagonal :: (above :: _) as previous =>
      let cell := Z.min (Z.min (left + 1) (above + 1))
                        (diagonal + (if decide (row = column) then 0 else 1)) in
      cell :: fill_row row columns cell previous
  | _, _ => []
  end.

(** The outer loop from row [row_index]: the last [previous]. *)
Fixpoint fill_rows (row_index : Z) (rows columns : list T) (previous : list Z) : list Z :=
  match rows with
  | [] => previous
  | row :: rows =>
      fill_rows (row_index + 1) rows columns
        ((row_index + 1) :: fill_row row columns (row_index + 1) previous)
  end.

(** The range [first..=first + count]. *)
Fixpoint count_up (first : Z) (count : nat) : list Z :=
  match count with
  | O => [first]
  | S count => first :: count_up (first + 1) count
  end.

Definition levenshtein (left right : list T) : Z :=
  let (rows, columns) :=
    if zlen right <=? zlen left then (left, right) else (right, left) in
  default 0 (last (fill_rows 0 rows columns (count_up 0 (length columns)))).
End Levenshtein.

(** ** Evaluation *)

(** [value.chars().take(maximum.saturating_add(1)).count()]. *)
Definition bounded_character_count (value : list Z) (maximum : Z) : Z :=
  zlen (take (Z.to_nat (saturating_add usize_max maximum 1)) value).

Definition ensure_unit_limits (reference_units candidate_units : Z)
    (limits : TextEvaluationLimits) : result EvalError.Error () :=
  if (maximum_reference_units limits <? reference_units)
     || (maximum_candidate_units limits <? candidate_units)
  then Err EvalError.InputLimitExceeded
  else Ok ().

Definition comparison_cells (reference_units candidate_units : Z) : result EvalError.Error Z :=
  ok_or (checked_mul usize_max reference_units candidate_units) EvalError.ComparisonLimitExceeded.

(** [value.split_whitespace()], the characters of the word so far in [word]. *)
Fixpoint split_words (word value : list Z) : list (list Z) :=
  let flush := match word with [] => [] | _ => [word] end in
  match value with
  | [] => flush
  | c :: rest => if is_whitespace c then flush ++ split_words [] rest else split_words (word ++ [c]) rest
  end.
Definition split_whitespace (value : list Z) : list (list Z) := split_words [] value.

Definition evaluate_text (nfc : list Z → list Z) (reference candidate : string)
    (limits : TextEvaluationLimits) : result EvalError.Error TextEvaluation :=
  let? _ := ensure_unit_limits
    (bounded_character_count (chars reference) (maximum_reference_units limits))
    (bounded_character_count (chars candidate) (maximum_candidate_units limits)) limits in
  let reference_characters := nfc (chars reference) in
  let candidate_characters := nfc (chars candidate) in
  let? _ := ensure_unit_limits (zlen reference_characters) (zlen candidate_characters) limits in
  let reference_words := split_whitespace reference_characters in
  let candidate_words := split_whitespace candidate_characters in
  let? character_cells := comparison_cells (zlen reference_characters) (zlen candidate_characters) in
  let? word_cells := comparison_cells (zlen reference_words) (zlen candidate_words) in
  if match checked_add usize_max character_cells word_cells with
     | None => true
     | Some cells => maximum_comparison_cells limits <? cells
     end
  then Err EvalError.ComparisonLimitExceeded
  else
    Ok {| characters := ErrorRate_new (levenshtein reference_characters candidate_characters)
                          (zlen reference_characters) (zlen candidate_characters);
          words := ErrorRate_new (levenshtein reference_words candidate_words)
                     (zlen reference_words) (zlen candidate_words) |}.

(** ** Aggregation *)

Fixpoint sum_rates (totals : Z * Z) (rates : list ErrorRate) : result EvalError.Error (Z * Z) :=
  match rates with
  | [] => Ok totals
  | r :: rates =>
      let? total_edits := ok_or (checked_add usize_max totals.1 (edits r))
                            EvalError.AggregateOverflow in
      let? total_units := ok_or (checked_add usize_max totals.2 (reference_units r))
                            EvalError.AggregateOverflow in
      sum_rates (total_edits, total_units) rates
  end.

Definition aggregate_error_rates (rates : list ErrorRate) : result EvalError.Error ErrorRate :=
  let? (total_edits, total_units) := sum_rates (0, 0) rates in
  Ok (ErrorRate_new total_edits total_units total_edits).

Definition aggregate_text_evaluations (evaluations : list TextEvaluation)
    : result EvalError.Error TextEvaluation :=
  let? chars := aggregate_error_rates (map characters evaluations) in
  let? wds := aggregate_error_rates (map words evaluations) in
  Ok {| characters := chars; words := wds |}.

(** ** The edit distance *)

Section Distance.
Context {T : Type} `{EqDecision T}.
Implicit Types (l r : list T) (x y : T).

(** One edit, anywhere in the sequence. *)
Inductive edit_step : list T → list T → Prop :=
| edit_insert a x b : edit_step (a ++ b) (a ++ x :: b)
| edit_delete a x b : edit_step (a ++ x :: b) (a ++ b)
| edit_substitute a x y b : edit_step (a ++ x :: b) (a ++ y :: b).

#[local] Instance edit_step_sym : Symmetric edit_step.
Proof. intros l r [a x b|a x b|a x y b]; constructor. Qed.

Lemma edit_step_cons x l r : edit_step l r → edit_step (x :: l) (x :: r).
Proof.
  intros [a y b|a y b|a y z b].
  - exact (edit_insert (x :: a) y b).
  - exact (edit_delete (x :: a) y b).
  - exact (edit_substitute (x :: a) y z b).
Qed.

Lemma edit_step_rev l r : edit_step l r → edit_step (rev l) (rev r).
Proof.
  intros [a y b|a y b|a y z b]; rewrite !rev_app_distr; simpl; rewrite <- ?app_assoc; constructor.
Qed.

Lemma nsteps_map (f : list T → list T) n l r :
  (∀ l r, edit_step l r → edit_step (f l) (f r)) →
  nsteps edit_step n l r → nsteps edit_step n (f l) (f r).
Proof. intros Hf. induction 1; [constructor|]. econstructor; eauto. Qed.

Lemma nsteps_sym n l r : nsteps edit_step n l r → nsteps edit_step n r l.
Proof.
  induction 1 as [|n x y z Hxy Hyz IH]; [constructor|].
  replace (S n) with (n + 1)%nat by lia. eapply nsteps_trans; [exact IH|].
  by apply nsteps_once.
Qed.

Definition cost x y : Z := if decide (x = y) then 0 else 1.

(** An alignment of two sequences and its cost. *)
Inductive align : list T → list T → Z → Prop :=
| align_nil : align [] [] 0
| align_delete x l r n : align l r n → align (x :: l) r (n + 1)
| align_insert y l r n : align l r n → align l (y :: r) (n + 1)
| align_both x y l r n : align l r n → align (x :: l) (y :: r) (n + cost x y).

Lemma cost_bounds x y : 0 ≤ cost x y ≤ 1.
Proof. unfold cost. destruct (decide _); lia. Qed.

Lemma cost_eq x : cost x x = 0.
Proof. unfold cost. by rewrite decide_True. Qed.

Lemma cost_triangle x y z : cost x z ≤ cost x y + cost y z.
Proof. unfold cost. repeat destruct (decide _); try lia; congruence. Qed.

Lemma align_nonneg l r n : align l r n → 0 ≤ n.
Proof. induction 1; try lia. pose proof (cost_bounds x y). lia. Qed.

Lemma align_refl l : align l l 0.
Proof. induction l as [|x l IH]; [constructor|]. rewrite <- (cost_eq x). by apply (align_both _ _ _ _ 0). Qed.

Lemma align_insert_all r : align [] r (zlen r).
Proof. induction r as [|y r IH]; [constructor|]. rewrite zlen_cons. by constructor. Qed.

Lemma align_delete_all l : align l [] (zlen l).
Proof. induction l as [|x l IH]; [constructor|]. rewrite zlen_cons. by constructor. Qed.

(** An edit of the right side costs at most one more. *)
Lemma align_after_insert a : ∀ l x b n,
  align l (a ++ b) n → ∃ m, m ≤ n + 1 ∧ align l (a ++ x :: b) m.
Proof.
  induction a as [|c a IHa]; intros l x b n H; simpl in *.
  - exists (n + 1). split; [lia|by constructor].
  - remember (c :: a ++ b) as r eqn:Hr.
    induction H as [|y l r n H IH|y l r n H _|y z l r n H _]; simplify_eq/=.
    + destruct IH as (m & Hm & Ha); [done|]. exists (m + 1). split; [lia|by constructor].
    + destruct (IHa _ x _ _ H) as (m & Hm & Ha). exists (m + 1). split; [lia|by constructor].
    + destruct (IHa _ x _ _ H) as (m & Hm & Ha). exists (m + cost y c). split; [lia|by constructor].
Qed.

Lemma align_after_substitute a : ∀ l x y b n,
  align l (a ++ x :: b) n → ∃ m, m ≤ n + 1 ∧ align l (a ++ y :: b) m.
Proof.
  induction a as [|c a IHa]; intros l x y b n H; simpl in *.
  - remember (x :: b) as r eqn:Hr.
    induction H as [|z l r n H IH|z l r n H _|z w l r n H _]; simplify_eq/=.
    + destruct IH as (m & Hm & Ha); [done|]. exists (m + 1). split; [lia|by constructor].
    + exists (n + 1). split; [lia|by constructor].
    + exists (n + cost z y). pose proof (cost_bounds z y). pose proof (cost_bounds z x).
      split; [lia|by constructor].
  - remember (c :: a ++ x :: b) as r eqn:Hr.
    induction H as [|z l r n H IH|z l r n H _|z w l r n H _]; simplify_eq/=.
    + destruct IH as (m & Hm & Ha); [done|]. exists (m + 1). split; [lia|by constructor].
    + destruct (IHa _ x y _ _ H) as (m & Hm & Ha). exists (m + 1). split; [lia|by constructor].
    + destruct (IHa _ x y _ _ H) as (m & Hm & Ha). exists (m + cost z c). split; [lia|by constructor].
Qed.

Lemma align_after_delete a : ∀ l x b n,
  align l (a ++ x :: b) n → ∃ m, m ≤ n + 1 ∧ align l (a ++ b) m.
Proof.
  induction a as [|c a IHa]; intros l x b n H; simpl in *.
  - remember (x :: b) as r eqn:Hr.
    induction H as [|z l r n H IH|z l r n H _|z w l r n H _]; simplify_eq/=.
    + destruct IH as (m & Hm & Ha); [done|]. exists (m + 1). split; [lia|by constructor].
    + exists n. split; [lia|done].
    + exists (n + 1). pose proof (cost_bounds z x). split; [lia|by constructor].
  - remember (c :: a ++ x :: b) as r eqn:Hr.
    induction H as [|z l r n H IH|z l r n H _|z w l r n H _]; simplify_eq/=.
    + destruct IH as (m & Hm & Ha); [done|]. exists (m + 1). split; [lia|by constructor].
    + destruct (IHa _ x _ _ H) as (m & Hm & Ha). exists (m + 1). split; [lia|by constructor].
    + destruct (IHa _ x _ _ H) as (m & Hm & Ha). exists (m + cost z c). split; [lia|by constructor].
Qed.

Lemma align_after_step l r r' n : align l r n → edit_step r r' → ∃ m, m ≤ n + 1 ∧ align l r' m.
Proof.
  intros H Hstep. revert H. destruct Hstep.
  - apply align_after_insert.
  - apply align_after_delete.
  - apply align_after_substitute.
Qed.

Lemma nsteps_align n l r : nsteps edit_step n l r → ∃ m, m ≤ Z.of_nat n ∧ align l r m.
Proof.
  intros H. apply nsteps_sym in H. induction H as [l|n l l' r Hs H IH].
  - exists 0. split; [lia|apply align_refl].
  - destruct IH as (m & Hm & Ha). symmetry in Hs.
    destruct (align_after_step _ _ _ _ Ha Hs) as (m' & Hm' & Ha'). exists m'. split; [lia|done].
Qed.

Lemma align_nsteps l r n : align l r n → nsteps edit_step (Z.to_nat n) l r.
Proof.
  induction 1 as [|x l r n H IH|y l r n H IH|x y l r n H IH].
  - constructor.
  - pose proof (align_nonneg _ _ _ H). replace (Z.to_nat (n + 1)) with (S (Z.to_nat n)) by lia.
    econstructor; [|exact IH]. exact (edit_delete [] x l).
  - pose proof (align_nonneg _ _ _ H). replace (Z.to_nat (n + 1)) with (Z.to_nat n + 1)%nat by lia.
    eapply nsteps_trans; [exact IH|]. apply nsteps_once. exact (edit_insert [] y r).
  - pose proof (align_nonneg _ _ _ H). unfold cost. destruct (decide (x = y)) as [->|].
    + rewrite Z.add_0_r. apply nsteps_map; [apply edit_step_cons|done].
    + replace (Z.to_nat (n + 1)) with (S (Z.to_nat n)) by lia.
      econstructor; [exact (edit_substitute [] x y l)|].
      apply (nsteps_map (cons y)); [apply edit_step_cons|done].
Qed.

(** The recursive distance. *)
Fixpoint dist l : list T → Z :=
  fix over r : Z :=
    match l, r with
    | [], _ => zlen r
    | _, [] => zlen l
    | x :: l', y :: r' => Z.min (Z.min (over r' + 1) (dist l' r + 1)) (dist l' r' + cost x y)
    end.

Lemma dist_nil_l r : dist [] r = zlen r.
Proof. by destruct r. Qed.

Lemma dist_nil_r l : dist l [] = zlen l.
Proof. by destruct l. Qed.

Lemma dist_cons x l y r :
  dist (x :: l) (y :: r)
  = Z.min (Z.min (dist (x :: l) r + 1) (dist l (y :: r) + 1)) (dist l r + cost x y).
Proof. done. Qed.

Lemma dist_align l r : align l r (dist l r).
Proof.
  revert r. induction l as [|x l IHl]; intros r; [rewrite dist_nil_l; apply align_insert_all|].
  induction r as [|y r IHr]; [rewrite dist_nil_r; apply align_delete_all|]. rewrite dist_cons.
  destruct (Z.min_spec (Z.min (dist (x :: l) r + 1) (dist l (y :: r) + 1)) (dist l r + cost x y))
    as [[_ ->]|[_ ->]]; [|by constructor].
  destruct (Z.min_spec (dist (x :: l) r + 1) (dist l (y :: r) + 1)) as [[_ ->]|[_ ->]]; by constructor.
Qed.

Lemma dist_delete x l r : dist (x :: l) r ≤ dist l r + 1.
Proof.
  destruct r as [|y r]; [rewrite !dist_nil_r, zlen_cons; lia|]. rewrite dist_cons. lia.
Qed.

Lemma dist_insert l y r : dist l (y :: r) ≤ dist l r + 1.
Proof.
  destruct l as [|x l]; [rewrite !dist_nil_l, zlen_cons; lia|]. rewrite dist_cons. lia.
Qed.

Lemma dist_least l r n : align l r n → dist l r ≤ n.
Proof.
  induction 1 as [|x l r n H IH|y l r n H IH|x y l r n H IH].
  - done.
  - pose proof (dist_delete x l r). lia.
  - pose proof (dist_insert l y r). lia.
  - rewrite dist_cons. lia.
Qed.

(** ** The rows of the table *)

(** The cells of the row of [l] for the growing prefixes of the columns; [l] and [r] are
    the rows and columns already passed, the last first. *)
Fixpoint row_cells l r (columns : list T) : list Z :=
  dist l r :: match columns with
              | [] => []
              | y :: columns => row_cells l (y :: r) columns
              end.

Lemma row_cells_cons l r columns : ∃ cells, row_cells l r columns = dist l r :: cells.
Proof. destruct columns; by eexists. Qed.

Lemma count_up_row r columns : count_up (zlen r) (length columns) = row_cells [] r columns.
Proof.
  revert r. induction columns as [|y columns IH]; intros r; cbn [length count_up row_cells];
    rewrite dist_nil_l; [done|]. rewrite <- IH, zlen_cons. done.
Qed.

Lemma fill_row_cells x l r columns :
  dist (x :: l) r :: fill_row x columns (dist (x :: l) r) (row_cells l r columns)
  = row_cells (x :: l) r columns.
Proof.
  revert r. induction columns as [|y columns IH]; intros r; [done|].
  cbn [row_cells fill_row]. destruct (row_cells_cons l (y :: r) columns) as [cells Hcells].
  rewrite Hcells. f_equal. rewrite <- Hcells. fold (cost x y). rewrite <- dist_cons.
  apply IH.
Qed.

Lemma fill_rows_cells l rows columns :
  fill_rows (zlen l) rows columns (row_cells l [] columns) = row_cells (rev rows ++ l) [] columns.
Proof.
  revert l. induction rows as [|x rows IH]; intros l; [done|]. cbn [fill_rows rev].
  rewrite <- app_assoc. cbn [app]. rewrite <- (IH (x :: l)).
  rewrite zlen_cons. f_equal. rewrite <- fill_row_cells, dist_nil_r, zlen_cons. done.
Qed.

Lemma last_row_cells l r columns : last (row_cells l r columns) = Some (dist l (rev columns ++ r)).
Proof.
  revert r. induction columns as [|y columns IH]; intros r; [done|].
  cbn [row_cells rev]. rewrite <- app_assoc. cbn [app]. rewrite <- IH.
  by destruct (row_cells_cons l (y :: r) columns) as [cells ->].
Qed.

Lemma levenshtein_rows rows columns :
  default 0 (last (fill_rows 0 rows columns (count_up 0 (length columns))))
  = dist (rev rows) (rev columns).
Proof.
  pose proof (count_up_row [] columns) as Hfirst. rewrite zlen_nil in Hfirst. rewrite Hfirst.
  pose proof (fill_rows_cells [] rows columns) as Hrows. rewrite zlen_nil in Hrows. rewrite Hrows.
  rewrite last_row_cells, !app_nil_r. done.
Qed.

(** The reversed distance is the least number of edits. *)
Lemma dist_rev_least l r :
  nsteps edit_step (Z.to_nat (dist (rev l) (rev r))) l r
  ∧ ∀ n, nsteps edit_step n l r → dist (rev l) (rev r) ≤ Z.of_nat n.
Proof.
  split.
  - rewrite <- (rev_involutive l) at 2. rewrite <- (rev_involutive r) at 2.
    apply (nsteps_map (λ l, rev l)); [apply edit_step_rev|]. apply align_nsteps, dist_align.
  - intros n Hn. apply (nsteps_map (λ l, rev l)) in Hn; [|apply edit_step_rev].
    destruct (nsteps_align _ _ _ Hn) as (m & Hm & Ha). apply dist_least in Ha. lia.
Qed.

Lemma levenshtein_cases l r :
  levenshtein l r = dist (rev l) (rev r) ∨ levenshtein l r = dist (rev r) (rev l).
Proof.
  unfold levenshtein. destruct (_ <=? _); [left|right]; apply levenshtein_rows.
Qed.

Lemma levenshtein_nonneg l r : 0 ≤ levenshtein l r.
Proof.
  destruct (levenshtein_cases l r) as [->| ->]; eapply align_nonneg, dist_align.
Qed.

Lemma levenshtein_steps l r : nsteps edit_step (Z.to_nat (levenshtein l r)) l r.
Proof.
  destruct (levenshtein_cases l r) as [->| ->]; [|apply nsteps_sym]; apply dist_rev_least.
Qed.

Lemma levenshtein_least n l r : nsteps edit_step n l r → levenshtein l r ≤ Z.of_nat n.
Proof.
  intros Hn. destruct (levenshtein_cases l r) as [->| ->]; [|apply nsteps_sym in Hn];
    by apply dist_rev_least.
Qed.

Lemma levenshtein_is_least l r n :
  levenshtein l r = n ↔
  0 ≤ n ∧ nsteps edit_step (Z.to_nat n) l r ∧ ∀ m, nsteps edit_step m l r → n ≤ Z.of_nat m.
Proof.
  pose proof (levenshtein_nonneg l r) as Hpos. split.
  - intros <-. split; [done|]. split; [apply levenshtein_steps|]. intros m. apply levenshtein_least.
  - intros (Hn & Hsteps & Hleast). apply levenshtein_least in Hsteps.
    pose proof (Hleast _ (levenshtein_steps l r)). lia.
Qed.

(** C39: the two-row table computes the edit distance.  For any two sequences
    [levenshtein] is the number of single insertions, deletions and substitutions of a
    shortest edit sequence from the one to the other: so many edits suffice and fewer never
    do - whichever of the two is chosen for the rows. *)
Theorem levenshtein_is_edit_distance l r n :
  levenshtein l r = n ↔
  0 ≤ n ∧ nsteps edit_step (Z.to_nat n) l r ∧ ∀ m, nsteps edit_step m l r → n ≤ Z.of_nat m.
Proof. apply levenshtein_is_least. Qed.
End Distance.

(** ** Bounds *)

Section Bounds.
Context {T : Type} `{EqDecision T}.
Implicit Types (l r : list T).

Lemma dist_le_max l r : dist l r ≤ Z.max (zlen l) (zlen r).
Proof.
  revert r. induction l as [|x l IH]; intros r.
  - rewrite dist_nil_l, zlen_nil. pose proof (zlen_nonneg r). lia.
  - destruct r as [|y r]; [rewrite dist_nil_r, zlen_nil; pose proof (zlen_nonneg (x :: l)); lia|].
    rewrite dist_cons, !zlen_cons. pose proof (IH r). pose proof (cost_bounds x y). lia.
Qed.

Lemma zlen_rev l : zlen (rev l) = zlen l.
Proof. unfold zlen. by rewrite length_rev. Qed.

Lemma levenshtein_le_max l r : levenshtein l r ≤ Z.max (zlen l) (zlen r).
Proof.
  destruct (levenshtein_cases l r) as [->| ->].
  - pose proof (dist_le_max (rev l) (rev r)). rewrite !zlen_rev in *. lia.
  - pose proof (dist_le_max (rev r) (rev l)). rewrite !zlen_rev in *. lia.
Qed.

Lemma levenshtein_zero l r : levenshtein l r = 0 ↔ l = r.
Proof.
  rewrite levenshtein_is_least. split.
  - intros (_ & Hsteps & _). by inversion Hsteps.
  - intros ->. split; [lia|]. split; [constructor|]. intros m _. lia.
Qed.
End Bounds.

Lemma split_words_bound word value :
  zlen (split_words word value) ≤ zlen value + (if decide (word = []) then 0 else 1).
Proof.
  revert word. induction value as [|c value IH]; intros word; cbn [split_words].
  - rewrite zlen_nil. destruct word; case_decide; rewrite ?zlen_cons, ?zlen_nil; done || lia.
  - rewrite zlen_cons. destruct (is_whitespace c).
    + rewrite zlen_app. specialize (IH []). rewrite decide_True in IH by done.
      destruct word; case_decide; rewrite ?zlen_cons, ?zlen_nil; done || lia.
    + specialize (IH (word ++ [c])). rewrite decide_False in IH by (by destruct word).
      case_decide; lia.
Qed.

Lemma split_whitespace_bound value : zlen (split_whitespace value) ≤ zlen value.
Proof. pose proof (split_words_bound [] value) as H. by rewrite decide_True, Z.add_0_r in H. Qed.

(** ** Evaluation *)

Lemma bounded_count_exceeds value maximum :
  0 ≤ maximum ≤ HARD_MAXIMUM_UNITS →
  (maximum <? bounded_character_count value maximum) = (maximum <? zlen value).
Proof.
  unfold HARD_MAXIMUM_UNITS, bounded_character_count, saturating_add, usize_max, u64_max, zlen.
  intros Hm. rewrite length_take.
  destruct (Z.ltb_spec maximum (Z.of_nat (length value))); [apply Z.ltb_lt|apply Z.ltb_ge]; lia.
Qed.

Lemma limits_valid r c k limits :
  0 ≤ r → 0 ≤ c → 0 ≤ k → TextEvaluationLimits_new r c k = Ok limits →
  limits = mkTextEvaluationLimits r c k ∧ 1 ≤ r ≤ HARD_MAXIMUM_UNITS
  ∧ 1 ≤ c ≤ HARD_MAXIMUM_UNITS ∧ 1 ≤ k ≤ HARD_MAXIMUM_COMPARISON_CELLS.
Proof.
  intros Hr Hc Hk. unfold TextEvaluationLimits_new. destruct (_ || _) eqn:Hbad; [done|].
  intros [= <-]. boolify. split_and!; try done; lia.
Qed.

Lemma comparison_cells_fit a b :
  0 ≤ a ≤ HARD_MAXIMUM_UNITS → 0 ≤ b ≤ HARD_MAXIMUM_UNITS → comparison_cells a b = Ok (a * b).
Proof.
  unfold HARD_MAXIMUM_UNITS. intros Ha Hb. unfold comparison_cells, checked_mul.
  rewrite (proj2 (checked_Some usize_max (a * b) (a * b))); [done|].
  split; [done|]. unfold in_width, usize_max, u64_max. nia.
Qed.

(** The sizes that decide an evaluation. *)
Definition inputs_fit (nfc : list Z → list Z) (reference candidate : string) (r c : Z) : Prop :=
  zlen (chars reference) ≤ r ∧ zlen (chars candidate) ≤ c
  ∧ zlen (nfc (chars reference)) ≤ r ∧ zlen (nfc (chars candidate)) ≤ c.

Definition cells_needed (nfc : list Z → list Z) (reference candidate : string) : Z :=
  zlen (nfc (chars reference)) * zlen (nfc (chars candidate))
  + zlen (split_whitespace (nfc (chars reference))) * zlen (split_whitespace (nfc (chars candidate))).

#[local] Instance inputs_fit_dec nfc reference candidate r c :
  Decision (inputs_fit nfc reference candidate r c).
Proof. unfold inputs_fit. apply _. Defined.

Definition expected_evaluation (nfc : list Z → list Z) (reference candidate : string)
    : TextEvaluation :=
  let rc := nfc (chars reference) in
  let cc := nfc (chars candidate) in
  {| characters := ErrorRate_new (levenshtein rc cc) (zlen rc) (zlen cc);
     words := ErrorRate_new (levenshtein (split_whitespace rc) (split_whitespace cc))
                (zlen (split_whitespace rc)) (zlen (split_whitespace cc)) |}.

Lemma evaluate_text_spec nfc reference candidate r c k limits :
  0 ≤ r → 0 ≤ c → 0 ≤ k → TextEvaluationLimits_new r c k = Ok limits →
  evaluate_text nfc reference candidate limits
  = if decide (inputs_fit nfc reference candidate r c)
    then if decide (cells_needed nfc reference candidate ≤ k)
         then Ok (expected_evaluation nfc reference candidate)
         else Err EvalError.ComparisonLimitExceeded
    else Err EvalError.InputLimitExceeded.
Proof.
  intros Hr Hc Hk (-> & Hrb & Hcb & Hkb)%limits_valid; [|done..].
  unfold evaluate_text, ensure_unit_limits. simpl.
  rewrite !bounded_count_exceeds by lia. unfold inputs_fit, cells_needed.
  set (rc := nfc (chars reference)). set (cc := nfc (chars candidate)).
  destruct (Z.ltb_spec r (zlen (chars reference))); simpl; [by rewrite decide_False by lia|].
  destruct (Z.ltb_spec c (zlen (chars candidate))); simpl; [by rewrite decide_False by lia|].
  destruct (Z.ltb_spec r (zlen rc)); simpl; [by rewrite decide_False by lia|].
  destruct (Z.ltb_spec c (zlen cc)); simpl; [by rewrite decide_False by lia|].
  rewrite (decide_True (P := _ ∧ _)) by lia.
  pose proof (zlen_nonneg rc). pose proof (zlen_nonneg cc).
  pose proof (split_whitespace_bound rc). pose proof (split_whitespace_bound cc).
  pose proof (zlen_nonneg (split_whitespace rc)). pose proof (zlen_nonneg (split_whitespace cc)).
  rewrite !comparison_cells_fit by lia. simpl. unfold checked_add.
  set (cells := zlen rc * zlen cc + zlen (split_whitespace rc) * zlen (split_whitespace cc)).
  assert (Hcells : 0 ≤ cells ≤ 2000000000000).
  { subst cells. unfold HARD_MAXIMUM_UNITS in *. nia. }
  rewrite (proj2 (checked_Some usize_max cells cells))
    by (split; [done|unfold in_width, usize_max, u64_max; lia]).
  destruct (Z.ltb_spec k cells); [by rewrite decide_False by lia|by rewrite decide_True by lia].
Qed.

(** Evaluation fails exactly when it says.  Under any limits that the constructor
    accepts, a text longer than its limit - before or after normalisation - gives the
    input error, otherwise a comparison larger than the cell limit gives the comparison
    error, and otherwise the evaluation is the edit distances of the normalised characters
    and of their words, with no other error and no overflow; the distances stay below the
    unit limits, and they are zero exactly for equal sequences. *)
Theorem evaluation_fails_exactly nfc reference candidate r c k limits :
  0 ≤ r → 0 ≤ c → 0 ≤ k → TextEvaluationLimits_new r c k = Ok limits →
  let rc := nfc (chars reference) in
  let cc := nfc (chars candidate) in
  let outcome := evaluate_text nfc reference candidate limits in
  (outcome = Err EvalError.InputLimitExceeded ↔ ¬ inputs_fit nfc reference candidate r c)
  ∧ (outcome = Err EvalError.ComparisonLimitExceeded ↔
       inputs_fit nfc reference candidate r c ∧ k < cells_needed nfc reference candidate)
  ∧ (∀ e, outcome = Err e → e = EvalError.InputLimitExceeded ∨ e = EvalError.ComparisonLimitExceeded)
  ∧ (∀ evaluation, outcome = Ok evaluation →
       edits (characters evaluation) = levenshtein rc cc
       ∧ edits (words evaluation) = levenshtein (split_whitespace rc) (split_whitespace cc)
       ∧ edits (characters evaluation) ≤ HARD_MAXIMUM_UNITS
       ∧ edits (words evaluation) ≤ HARD_MAXIMUM_UNITS
       ∧ (edits (characters evaluation) = 0 ↔ rc = cc)
       ∧ (rate (characters evaluation) = None ↔ rc = [] ∧ cc ≠ [])).
Proof.
  intros Hr Hc Hk Hlim. cbv zeta. rewrite (evaluate_text_spec _ _ _ _ _ _ _ Hr Hc Hk Hlim).
  pose proof (limits_valid _ _ _ _ Hr Hc Hk Hlim) as (_ & Hrb & Hcb & _).
  destruct (decide (inputs_fit _ _ _ _ _)) as [Hfit|Hfit];
    [destruct (decide (cells_needed _ _ _ ≤ k)) as [Hcells|Hcells]|];
    (split; [|split; [|split]]); try (split; intros; try done; tauto || lia); try naive_solver lia.
  intros evaluation [= <-]. unfold expected_evaluation, ErrorRate_new. simpl.
  destruct Hfit as (_ & _ & Hrc & Hcc).
  set (rc := nfc (chars reference)) in *. set (cc := nfc (chars candidate)) in *.
  pose proof (levenshtein_le_max rc cc). pose proof (split_whitespace_bound rc).
  pose proof (levenshtein_le_max (split_whitespace rc) (split_whitespace cc)).
  pose proof (split_whitespace_bound cc).
  split_and!; [done|done|lia|lia|apply levenshtein_zero|].
  destruct rc as [|x rc]; [|split; [|naive_solver]].
  - rewrite zlen_nil. simpl. destruct cc as [|y cc]; [by split; [|naive_solver]|].
    rewrite zlen_cons. pose proof (zlen_nonneg cc). rewrite (proj2 (Z.eqb_neq _ _)) by lia. done.
  - rewrite zlen_cons. pose proof (zlen_nonneg rc). by rewrite (proj2 (Z.eqb_neq _ _)) by lia.
Qed.

(** ** Aggregation *)

Definition total (f : ErrorRate → Z) (rates : list ErrorRate) : Z := foldr (λ r n, f r + n) 0 rates.

(** Rates as [ErrorRate] holds them: of unsigned counts. *)
Definition unsigned_rate (r : ErrorRate) : Prop := 0 ≤ edits r ∧ 0 ≤ reference_units r.

Lemma total_nonneg f rates : Forall (λ r, 0 ≤ f r) rates → 0 ≤ total f rates.
Proof. unfold total. induction 1 as [|r rates Hr _ IH]; simpl; lia. Qed.

Lemma sum_rates_spec rates a b :
  Forall unsigned_rate rates → 0 ≤ a ≤ usize_max → 0 ≤ b ≤ usize_max →
  sum_rates (a, b) rates
  = if decide (a + total edits rates ≤ usize_max ∧ b + total reference_units rates ≤ usize_max)
    then Ok (a + total edits rates, b + total reference_units rates)
    else Err EvalError.AggregateOverflow.
Proof.
  intros Hall. revert a b. induction Hall as [|r rates [He Hu] Hall IH]; intros a b Ha Hb; simpl.
  - rewrite !Z.add_0_r, decide_True by lia. done.
  - assert (Hte : 0 ≤ total edits rates)
      by (apply total_nonneg; eapply Forall_impl; [exact Hall|intros x [? _]; done]).
    assert (Htu : 0 ≤ total reference_units rates)
      by (apply total_nonneg; eapply Forall_impl; [exact Hall|intros x [_ ?]; done]).
    fold (total edits rates) (total reference_units rates). unfold checked_add, checked.
    destruct (Z.leb_spec (a + edits r) usize_max); rewrite ?andb_false_r, ?andb_true_r.
    + rewrite (proj2 (Z.leb_le _ _)) by lia. simpl.
      destruct (Z.leb_spec (b + reference_units r) usize_max); rewrite ?andb_false_r, ?andb_true_r.
      * rewrite (proj2 (Z.leb_le _ _)) by lia. simpl. rewrite IH by lia. rewrite !Z.add_assoc. done.
      * simpl. by rewrite decide_False by lia.
    + simpl. by rewrite decide_False by lia.
Qed.

(** The rate of the totals. *)
Definition total_rate (rates : list ErrorRate) : ErrorRate :=
  ErrorRate_new (total edits rates) (total reference_units rates) (total edits rates).

Lemma aggregate_error_rates_spec rates :
  Forall unsigned_rate rates →
  aggregate_error_rates rates
  = if decide (total edits rates ≤ usize_max ∧ total reference_units rates ≤ usize_max)
    then Ok (total_rate rates) else Err EvalError.AggregateOverflow.
Proof.
  intros Hall. unfold aggregate_error_rates.
  rewrite (sum_rates_spec _ 0 0) by (done || (unfold usize_max, u64_max; lia)).
  rewrite !Z.add_0_l. by destruct (decide _).
Qed.

#[export] Instance total_permutation f : Proper (Permutation ==> eq) (total f).
Proof. unfold total. intros l k. induction 1; simpl; lia. Qed.

(** Aggregation adds the totals or reports the overflow.  The aggregate of any
    evaluations has the exact sums of their edits and reference units for characters and
    words, and the error rate of those sums - never an average of rates; it fails, with the
    overflow error, exactly when a sum does not fit a [usize]; so the order of the
    evaluations does not matter. *)
Theorem aggregate_totals_exact evaluations :
  Forall (λ e, unsigned_rate (characters e) ∧ unsigned_rate (words e)) evaluations →
  let fits rates := total edits rates ≤ usize_max ∧ total reference_units rates ≤ usize_max in
  let chars := map characters evaluations in
  let wds := map words evaluations in
  (aggregate_text_evaluations evaluations = Ok (mkTextEvaluation (total_rate chars) (total_rate wds))
   ↔ fits chars ∧ fits wds)
  ∧ (aggregate_text_evaluations evaluations = Err EvalError.AggregateOverflow
     ↔ ¬ (fits chars ∧ fits wds))
  ∧ ∀ evaluations', evaluations' ≡ₚ evaluations →
      aggregate_text_evaluations evaluations' = aggregate_text_evaluations evaluations.
Proof.
  intros Hall fits chars wds.
  assert (Hspec : ∀ es, es ≡ₚ evaluations →
    aggregate_text_evaluations es = if decide (fits chars ∧ fits wds)
      then Ok (mkTextEvaluation (total_rate chars) (total_rate wds))
      else Err EvalError.AggregateOverflow).
  { intros es Hes. unfold aggregate_text_evaluations.
    rewrite <- Hes in Hall. rewrite Forall_and in Hall. destruct Hall as [Hc Hw].
    rewrite !aggregate_error_rates_spec by (by apply Forall_fmap).
    assert (Htot : ∀ f g, total f (map g es) = total f (map g evaluations))
      by (intros f g; by rewrite Hes).
    unfold total_rate, chars, wds, fits. rewrite !Htot.
    repeat destruct (decide _); simpl; try done; tauto. }
  rewrite (Hspec evaluations) by done. split; [|split].
  - destruct (decide _); split; try done; tauto.
  - destruct (decide _); split; try done; tauto.
  - intros es Hes. by rewrite Hspec.
Qed.

(** ** Witnesses *)

Theorem evaluation_fails_exactly_witness :
  ∃ limits, TextEvaluationLimits_new 10 10 100 = Ok limits
    ∧ (evaluate_text (λ x, x) "ab cd" "ab ce" limits = Err EvalError.InputLimitExceeded
       ↔ ¬ inputs_fit (λ x, x) "ab cd" "ab ce" 10 10).
Proof.
  eexists. split; [reflexivity|].
  destruct (evaluation_fails_exactly (λ x, x) "ab cd" "ab ce" 10 10 100
    (mkTextEvaluationLimits 10 10 100) ltac:(lia) ltac:(lia) ltac:(lia) eq_refl) as [H _].
  exact H.
Defined.

Theorem aggregate_totals_exact_witness :
  let rate := mkErrorRate 1 4 None in
  let evaluation := mkTextEvaluation rate rate in
  aggregate_text_evaluations [evaluation; evaluation]
  = Ok (mkTextEvaluation (total_rate [rate; rate]) (total_rate [rate; rate])).
Proof.
  intros rate evaluation.
  assert (Hall : Forall (λ e, unsigned_rate (characters e) ∧ unsigned_rate (words e))
    [evaluation; evaluation]) by (repeat constructor; simpl; lia).
  destruct (aggregate_totals_exact [evaluation; evaluation] Hall) as [H _].
  apply H. unfold usize_max, u64_max. simpl. lia.
Defined.
