(* ===== verification/Benchmark.v ===== *)
(** * Benchmark: scoring the samples of a benchmark

    Models [ocr-eval/src/benchmark.rs] and the program of [main.rs].  Reading the two JSON texts is [serde_json]'s: the
    functions [parse_manifest] and [parse_samples] are arguments, as is its number type
    with [as_f64].  A [BTreeMap] that is only looked up is a [gmap]; an object value is the
    list of its entries.  The theorem at the end says what a report holds.

    A report scores every case of the manifest once, against the sample of the same
    identifier and digest, accounts for every expected field, and its percentiles are the
    nearest-rank ones. *)

From S2P Require Import Prelude Text Float64 Eval.

#[local] Open Scope list_scope.
#[local] Open Scope Z_scope.

Module BenchmarkError.
Inductive BenchmarkError :=
| Invalid
| Evaluation (e : EvalError.Error).
End BenchmarkError.

Section Benchmark.
Context {Number : Type} `{EqDecision Number} (as_f64 : Number → option f64).
Context (nfc : list Z → list Z).

(** [serde_json::Value]. *)
Inductive Value :=
| VNull
| VBool (b : bool)
| VNumber (n : Number)
| VString (s : string)
| VArray (items : list Value)
| VObject (entries : list (string * Value)).

Definition get (key : string) (entries : list (string * Value)) : option Value :=
  snd <$> List.find (λ entry, String.eqb entry.1 key) entries.

(** 0.01 *)
Definition TOLERANCE : f64 := f64_dec 1 2.

Fixpoint equivalent (expected actual : Value) : bool :=
  match expected, actual with
  | VNumber a, VNumber b =>
      match as_f64 a, as_f64 b with
      | Some a, Some b => f64_le (f64_abs (f64_sub a b)) TOLERANCE
      | _, _ => bool_decide (a = b)
      end
  | VObject a, VObject b =>
      (zlen a =? zlen b)
      && forallb (λ entry, match entry with
                           | (key, value) =>
                               match get key b with
                               | Some other => equivalent value other
                               | None => false
                               end
                           end) a
  | VArray a, VArray b =>
      (zlen a =? zlen b)
      && (fix all (a b : list Value) : bool :=
            match a, b with
            | x :: a, y :: b => equivalent x y && all a b
            | _, _ => true
            end) a b
  | VNull, VNull => true
  | VBool a, VBool b => Bool.eqb a b
  | VString a, VString b => String.eqb a b
  | _, _ => false
  end.

Record Case := mkCase {
  case_id : string;
  case_sha256 : string;
  reference_text : option string;
  case_expected_fields : list (string * Value);
}.

Record Sample := mkSample {
  sample_id : string;
  sample_sha256 : string;
  sample_status : string;
  sample_elapsed_ms : Z;
  sample_text : string;
  sample_fields : gmap string Value;
}.

Record CaseScore := mkCaseScore {
  score_id : string;
  score_status : string;
  character_error_rate : option f64;
  word_error_rate : option f64;
  expected_fields : Z;
  correct_fields : Z;
  missing_fields : Z;
  wrong_fields : Z;
  elapsed_ms : Z;
}.

Record BenchmarkReport := mkBenchmarkReport {
  cases : list CaseScore;
  p50_ms : Z;
  p95_ms : Z;
}.

(** The first loop: the samples by their identifier. *)
Fixpoint index_samples (by_id : gmap string Sample) (samples : list Sample)
    : result BenchmarkError.BenchmarkError (gmap string Sample) :=
  match samples with
  | [] => Ok by_id
  | sample :: samples =>
      if negb (bool_decide (sample_status sample
                 ∈ ["completed"; "partial"; "review_required"; "failed"; "cancelled"]))
      then Err BenchmarkError.Invalid
      else match by_id !! sample_id sample with
           | Some _ => Err BenchmarkError.Invalid
           | None => index_samples (<[sample_id sample := sample]> by_id) samples
           end
  end.

(** [sample.fields.get(key).and_then(|field| field.get("value"))]. *)
Definition sampled_value (sample : Sample) (key : string) : option Value :=
  match sample_fields sample !! key with
  | Some (VObject entries) => get "value" entries
  | _ => None
  end.

(** The loop over the expected fields: the counts of correct, missing and wrong ones. *)
Fixpoint count_fields (sample : Sample) (counts : Z * Z * Z) (fields : list (string * Value))
    : Z * Z * Z :=
  match fields with
  | [] => counts
  | (key, expected) :: fields =>
      let '(correct, missing, wrong) := counts in
      count_fields sample
        match sampled_value sample key with
        | None => (correct, missing + 1, wrong)
        | Some value =>
            if equivalent expected value then (correct + 1, missing, wrong)
            else (correct, missing, wrong + 1)
        end fields
  end.

Definition evaluate_case (case : Case) (sample : Sample)
    : result BenchmarkError.BenchmarkError (option TextEvaluation) :=
  match reference_text case with
  | None => Ok None
  | Some text =>
      let? limits := map_err (TextEvaluationLimits_new 100000 100000 10000000)
                       BenchmarkError.Evaluation in
      let? evaluation := map_err (evaluate_text nfc text (sample_text sample) limits)
                           BenchmarkError.Evaluation in
      Ok (Some evaluation)
  end.

Definition score_case (by_id : gmap string Sample) (case : Case)
    : result BenchmarkError.BenchmarkError CaseScore :=
  let? sample := ok_or (by_id !! case_id case) BenchmarkError.Invalid in
  if negb (String.eqb (sample_sha256 sample) (case_sha256 case)) then Err BenchmarkError.Invalid
  else
    let? evaluation := evaluate_case case sample in
    let '(correct, missing, wrong) := count_fields sample (0, 0, 0) (case_expected_fields case) in
    Ok {| score_id := case_id case; score_status := sample_status sample;
          character_error_rate := evaluation ≫= λ e, rate (characters e);
          word_error_rate := evaluation ≫= λ e, rate (words e);
          expected_fields := zlen (case_expected_fields case);
          correct_fields := correct; missing_fields := missing; wrong_fields := wrong;
          elapsed_ms := sample_elapsed_ms sample |}.

(** The second loop, with the identifiers seen so far. *)
Fixpoint score_cases (by_id : gmap string Sample) (seen : gset string) (cases : list Case)
    : result BenchmarkError.BenchmarkError (list CaseScore) :=
  match cases with
  | [] => Ok []
  | case :: cases =>
      if is_empty (case_id case) || (128 <? strlen (case_id case))
         || bool_decide (case_id case ∈ seen)
      then Err BenchmarkError.Invalid
      else
        let? score := score_case by_id case in
        let? scores := score_cases by_id ({[case_id case]} ∪ seen) cases in
        Ok (score :: scores)
  end.

(** [(a).div_ceil(b)]. *)
Definition div_ceil (a b : Z) : Z := (a + b - 1) / b.

(** [times[(times.len() * percent).div_ceil(100) - 1]]; [None] is an index out of range. *)
Definition percentile (percent : Z) (times : list Z) : option Z :=
  times !! Z.to_nat (div_ceil (zlen times * percent) 100 - 1).

Context (parse_manifest : string → option (list Case)).
Context (parse_samples : string → option (list Sample)).

(** The outer [option] is a panic. *)
Definition score_benchmark (manifest samples : string)
    : option (result BenchmarkError.BenchmarkError BenchmarkReport) :=
  if (16 * 1024 * 1024 <? strlen manifest) || (16 * 1024 * 1024 <? strlen samples)
  then Some (Err BenchmarkError.Invalid)
  else
    match parse_manifest manifest, parse_samples samples with
    | Some cases, Some samples =>
        if (zlen cases =? 0) || (1000 <? zlen cases) || negb (zlen samples =? zlen cases)
        then Some (Err BenchmarkError.Invalid)
        else
          match (let? by_id := index_samples ∅ samples in score_cases by_id ∅ cases) with
          | Err e => Some (Err e)
          | Ok scores =>
              let times := sort_by_key (λ t, t) (map elapsed_ms scores) in
              match percentile 50 times, percentile 95 times with
              | Some p50, Some p95 =>
                  Some (Ok {| cases := scores; p50_ms := p50; p95_ms := p95 |})
              | _, _ => None
              end
          end
    | _, _ => Some (Err BenchmarkError.Invalid)
    end.

(** *** The program *)

Definition MAXIMUM_FILE_BYTES : Z := 16 * 1024 * 1024.

(** [take]: at most so many bytes of a file. *)
Definition take_bytes (limit : Z) (content : string) : string :=
  if strlen content <=? limit then content else String.substring 0 (Z.to_nat limit) content.

(** [file] is the content of a path that can be opened and read. *)
Definition read_bounded (file : string → option string) (valid_utf8 : string → bool) (path : string)
    : option string :=
  match file path with
  | Some content =>
      let text := take_bytes (MAXIMUM_FILE_BYTES + 1) content in
      if valid_utf8 text then Some text else None
  | None => None
  end.

Inductive EvalExit := ExitSuccess (report : BenchmarkReport) | ExitFailure | ExitPanic.

(** [main] of [ocr-eval] with its arguments after the program's name; [written] says
    whether the report can be written to the standard output. *)
Definition eval_main (file : string → option string) (valid_utf8 : string → bool)
    (written : BenchmarkReport → bool) (arguments : list string) : EvalExit :=
  match arguments with
  | [manifest; results] =>
      match read_bounded file valid_utf8 manifest, read_bounded file valid_utf8 results with
      | Some manifest, Some results =>
          match score_benchmark manifest results with
          | Some (Ok report) => if written report then ExitSuccess report else ExitFailure
          | Some (Err _) => ExitFailure
          | None => ExitPanic
          end
      | _, _ => ExitFailure
      end
  | _ => ExitFailure
  end.
End Benchmark.

(** ** Strings *)

Lemma string_length_substring limit content :
  String.length (String.substring 0 limit content) = Nat.min limit (String.length content).
Proof.
  revert content. induction limit as [|limit IH]; intros [|a content]; simpl; try done. by rewrite IH.
Qed.

(** ** Percentiles *)

Definition at_most (q : Z) (times : list Z) : Z := zlen (filter (λ t, t ≤ q) times).

#[export] Instance at_most_permutation q : Proper (Permutation ==> eq) (at_most q).
Proof. intros l k H. unfold at_most, zlen. by rewrite H. Qed.

Lemma sorted_rank times k p :
  StronglySorted Z.le times → times !! k = Some p →
  Z.of_nat k < at_most p times ∧ ∀ q, q < p → at_most q times ≤ Z.of_nat k.
Proof.
  intros Hs. revert k. induction Hs as [|t times Hs IH Hall]; intros k Hk; [done|].
  unfold at_most in *. destruct k as [|k]; simpl in Hk.
  - injection Hk as <-. split.
    + rewrite filter_cons_True by lia. rewrite zlen_cons.
      pose proof (zlen_nonneg (filter (λ x, x ≤ t) times)). lia.
    + intros q Hq. rewrite filter_cons_False by lia.
      assert (filter (λ x, x ≤ q) times = []) as ->; [|done].
      clear -Hall Hq. induction Hall as [|x times Hx Hall IH]; [done|].
      rewrite filter_cons_False by lia. done.
  - destruct (IH k Hk) as [Hlo Hhi].
    assert (t ≤ p) by (rewrite Forall_forall in Hall; apply Hall; by eapply list_elem_of_lookup_2).
    rewrite filter_cons_True by lia. rewrite zlen_cons. split; [lia|]. intros q Hq.
    specialize (Hhi q Hq). destruct (decide (t ≤ q)).
    + rewrite filter_cons_True by lia. rewrite zlen_cons. lia.
    + rewrite filter_cons_False by lia. lia.
Qed.

(** The least time that at least [percent] of the times do not exceed. *)
Definition nearest_rank (percent : Z) (times : list Z) (p : Z) : Prop :=
  p ∈ times ∧ percent * zlen times ≤ 100 * at_most p times
  ∧ ∀ q, q < p → 100 * at_most q times < percent * zlen times.

Lemma percentile_rank percent times :
  1 ≤ percent ≤ 100 → times ≠ [] → StronglySorted Z.le times →
  ∃ p, percentile percent times = Some p ∧ nearest_rank percent times p.
Proof.
  intros Hp Hne Hs. unfold percentile, div_ceil.
  assert (Hlen : 1 ≤ zlen times)
    by (destruct times; [done|]; rewrite zlen_cons; pose proof (zlen_nonneg times); lia).
  set (rank := (zlen times * percent + 100 - 1) / 100).
  assert (Hrank : zlen times * percent ≤ 100 * rank < zlen times * percent + 100).
  { subst rank. pose proof (Z.div_mod (zlen times * percent + 100 - 1) 100 ltac:(lia)).
    pose proof (Z.mod_pos_bound (zlen times * percent + 100 - 1) 100 ltac:(lia)). lia. }
  assert (1 ≤ rank ≤ zlen times) by nia.
  destruct (lookup_lt_is_Some_2 times (Z.to_nat (rank - 1))) as [p Hlookup];
    [unfold zlen in *; lia|].
  exists p. split; [done|]. destruct (sorted_rank _ _ _ Hs Hlookup) as [Hlo Hhi].
  split; [by eapply list_elem_of_lookup_2|]. split; [lia|]. intros q Hq. specialize (Hhi q Hq). lia.
Qed.

Lemma nearest_rank_permutation percent times times' p :
  times ≡ₚ times' → nearest_rank percent times p → nearest_rank percent times' p.
Proof.
  intros Hperm (Hin & Hlo & Hhi). assert (Hlen : zlen times = zlen times')
    by (unfold zlen; by rewrite Hperm).
  split; [by rewrite <- Hperm|]. rewrite <- Hlen. split; [by rewrite <- Hperm|].
  intros q Hq. rewrite <- Hperm. by apply Hhi.
Qed.

(** ** The report *)

Section Report.
Context {Number : Type} `{EqDecision Number} (as_f64 : Number → option f64).
Context (nfc : list Z → list Z).
Context (parse_manifest : string → option (list (Case (Number := Number)))).
Context (parse_samples : string → option (list (Sample (Number := Number)))).

Lemma count_fields_total sample fields c m w :
  let '(c', m', w') := count_fields as_f64 sample (c, m, w) fields in
  c' + m' + w' = c + m + w + zlen fields ∧ c ≤ c' ∧ m ≤ m' ∧ w ≤ w'.
Proof.
  revert c m w. induction fields as [|[key expected] fields IH]; intros c m w; cbn [count_fields].
  - rewrite zlen_nil. lia.
  - rewrite zlen_cons. destruct (sampled_value sample key) as [value|];
      [destruct (equivalent as_f64 expected value)|].
    + specialize (IH (c + 1) m w). destruct (count_fields _ _ _ _) as [[c' m'] w']. lia.
    + specialize (IH c m (w + 1)). destruct (count_fields _ _ _ _) as [[c' m'] w']. lia.
    + specialize (IH c (m + 1) w). destruct (count_fields _ _ _ _) as [[c' m'] w']. lia.
Qed.

Lemma index_samples_spec (samples : list (Sample (Number := Number))) by_id by_id' :
  index_samples by_id samples = Ok by_id' →
  ∀ id (sample : Sample (Number := Number)), by_id' !! id = Some sample →
    by_id !! id = Some sample ∨ (sample ∈ samples ∧ sample_id sample = id).
Proof.
  revert by_id. induction samples as [|s samples IH]; intros by_id H; simpl in H.
  - injection H as <-. by left.
  - destruct (negb _); [done|]. destruct (by_id !! sample_id s) eqn:Hnone; [done|].
    intros id sample Hl. destruct (IH _ H id sample Hl) as [Hin|[Hin Hid]].
    + apply lookup_insert_Some in Hin as [[<- <-]|[_ Hin]]; [right|by left].
      split; [left|done].
    + right. split; [by right|done].
Qed.

(** The score of a case against the samples. *)
Definition scored (samples : list (Sample (Number := Number))) (case : Case (Number := Number)) (score : CaseScore)
    : Prop :=
  score_id score = case_id case
  ∧ expected_fields score = zlen (case_expected_fields case)
  ∧ correct_fields score + missing_fields score + wrong_fields score = expected_fields score
  ∧ 0 ≤ correct_fields score ∧ 0 ≤ missing_fields score ∧ 0 ≤ wrong_fields score
  ∧ ∃ sample, sample ∈ samples ∧ sample_id sample = case_id case
      ∧ sample_sha256 sample = case_sha256 case
      ∧ elapsed_ms score = sample_elapsed_ms sample ∧ score_status score = sample_status sample.

Lemma score_case_spec samples by_id case score :
  index_samples ∅ samples = Ok by_id → score_case as_f64 nfc by_id case = Ok score →
  scored samples case score.
Proof.
  intros Hindex. unfold score_case. destruct (by_id !! case_id case) as [sample|] eqn:Hl; [|done].
  simpl. destruct (negb _) eqn:Hsha; [done|]. apply negb_false_iff, String.eqb_eq in Hsha.
  destruct (evaluate_case nfc case sample) as [evaluation|]; [|done]. simpl.
  pose proof (count_fields_total sample (case_expected_fields case) 0 0 0) as Hcount.
  destruct (count_fields _ _ _ _) as [[c m] w]. intros [= <-].
  destruct (index_samples_spec _ _ _ Hindex _ _ Hl) as [Hin|[Hin Hid]];
    [by rewrite lookup_empty in Hin|].
  unfold scored. simpl. split_and!; try lia; try done. exists sample. by split_and!.
Qed.

Lemma score_cases_spec samples by_id seen cases scores :
  index_samples ∅ samples = Ok by_id → score_cases as_f64 nfc by_id seen cases = Ok scores →
  Forall2 (scored samples) cases scores
  ∧ NoDup (map case_id cases) ∧ ∀ case, case ∈ cases → case_id case ∉ seen.
Proof.
  intros Hindex. revert seen scores. induction cases as [|case cases IH]; intros seen scores H.
  - injection H as <-. split; [constructor|]. split; [constructor|].
    intros case Hin. by apply elem_of_nil in Hin.
  - simpl in H. destruct (is_empty _ || _ || bool_decide (case_id case ∈ seen)) eqn:Hbad; [done|].
    destruct (score_case as_f64 nfc by_id case) as [score|] eqn:Hscore; [|done]. simpl in H.
    destruct (score_cases as_f64 nfc by_id _ cases) as [rest|] eqn:Hrest; [|done].
    injection H as <-. destruct (IH _ _ Hrest) as (Hall & Hnd & Hseen).
    apply orb_false_iff in Hbad as [_ Hfresh%bool_decide_eq_false]. split; [|split].
    + constructor; [by eapply score_case_spec|done].
    + simpl. constructor; [|done]. intros (case' & Hid & Hin)%list_elem_of_fmap.
      apply (Hseen case' Hin). set_solver.
    + intros case' [->|Hin]%elem_of_cons; [done|]. specialize (Hseen case' Hin). set_solver.
Qed.

(** A benchmark report is complete and exact.  Scoring never indexes out of range; and
    a report scores exactly the cases of the manifest, in order and each once, against a
    sample of the same identifier and digest; every expected field is counted once as
    correct, missing or wrong; and [p50] and [p95] are the nearest-rank percentiles of the
    times of the cases: the least time that half, or 95 percent, of the cases keep within. *)
Theorem benchmark_report_exact manifest samples :
  match score_benchmark as_f64 nfc parse_manifest parse_samples manifest samples with
  | None => False
  | Some (Err _) => True
  | Some (Ok report) =>
      ∃ mcases msamples, parse_manifest manifest = Some mcases
        ∧ parse_samples samples = Some msamples
        ∧ NoDup (map case_id mcases)
        ∧ Forall2 (scored msamples) mcases (cases report)
        ∧ nearest_rank 50 (map elapsed_ms (cases report)) (p50_ms report)
        ∧ nearest_rank 95 (map elapsed_ms (cases report)) (p95_ms report)
  end.
Proof.
  unfold score_benchmark. destruct (_ || _); [done|].
  destruct (parse_manifest manifest) as [mcases|] eqn:Hm; [|done].
  destruct (parse_samples samples) as [msamples|] eqn:Hs; [|done].
  destruct (_ || _) eqn:Hsize; [done|].
  destruct (index_samples ∅ msamples) as [by_id|] eqn:Hindex; [|done]. cbn [and_then].
  destruct (score_cases as_f64 nfc by_id ∅ mcases) as [scores|] eqn:Hscores; [|done].
  destruct (score_cases_spec _ _ _ _ _ Hindex Hscores) as (Hall & Hnd & _).
  set (times := sort_by_key (λ t, t) (map elapsed_ms scores)).
  assert (Hperm : times ≡ₚ map elapsed_ms scores) by apply sort_by_Permutation.
  assert (Hsorted : StronglySorted Z.le times) by apply (sort_by_key_StronglySorted (λ t, t)).
  assert (Hne : times ≠ []).
  { intros Hnil. rewrite Hnil in Hperm. apply Permutation_nil_l in Hperm.
    apply Forall2_length in Hall. destruct scores; [|done]. destruct mcases; [|done].
    by rewrite zlen_nil in Hsize. }
  destruct (percentile_rank 50 times ltac:(lia) Hne Hsorted) as (p50 & -> & H50).
  destruct (percentile_rank 95 times ltac:(lia) Hne Hsorted) as (p95 & -> & H95).
  exists mcases, msamples. split_and!; try done; by eapply nearest_rank_permutation.
Qed.

Lemma take_bytes_within limit content :
  0 ≤ limit → strlen (take_bytes (limit + 1) content) ≤ limit → take_bytes (limit + 1) content = content.
Proof.
  intros Hlimit. unfold take_bytes. destruct (Z.leb_spec (strlen content) (limit + 1)); [done|].
  unfold strlen in *. rewrite string_length_substring. lia.
Qed.

(** The program scores whole files: it never reports on the beginning of a longer one. *)
Theorem eval_scores_whole_files file valid_utf8 written arguments report :
  eval_main as_f64 nfc parse_manifest parse_samples file valid_utf8 written arguments = ExitSuccess report →
  ∃ manifest results mtext rtext,
    arguments = [manifest; results] ∧ file manifest = Some mtext ∧ file results = Some rtext
    ∧ score_benchmark as_f64 nfc parse_manifest parse_samples mtext rtext = Some (Ok report).
Proof.
  unfold eval_main. destruct arguments as [|manifest [|results [|]]]; try done.
  unfold read_bounded. destruct (file manifest) as [mtext|] eqn:Hm; [|done].
  destruct (valid_utf8 _); [|done]. destruct (file results) as [rtext|] eqn:Hr; [|done].
  destruct (valid_utf8 _); [|done].
  destruct (score_benchmark _ _ _ _ _ _) as [[r|]|] eqn:Hscore; try done.
  destruct (written r); [|done]. intros [= <-]. exists manifest, results, mtext, rtext. split_and!; try done.
  assert (Hsize : strlen (take_bytes (MAXIMUM_FILE_BYTES + 1) mtext) ≤ MAXIMUM_FILE_BYTES
    ∧ strlen (take_bytes (MAXIMUM_FILE_BYTES + 1) rtext) ≤ MAXIMUM_FILE_BYTES).
  { revert Hscore. unfold score_benchmark. destruct (_ || _) eqn:Hlong; [done|]. intros _.
    apply orb_false_iff in Hlong as [H1%Z.ltb_ge H2%Z.ltb_ge]. by split. }
  destruct Hsize as [H1%take_bytes_within H2%take_bytes_within]; [|unfold MAXIMUM_FILE_BYTES; lia..].
  by rewrite H1, H2 in Hscore.
Qed.
End Report.
