(* ===== verification/Relay.v ===== *)
(** * Relay: from the outbox to the workflows

    Models [ocr-service/src/outbox_relay.rs], the starters of [ocr-temporal/src/lib.rs]
    and [ocr-service/src/webhook_relay.rs] with [webhook.rs].  A [WorkflowStarter] is a
    function on the database and the state [G] of the services outside; so is a webhook
    publisher.  [arrange] is the order in which a claim's query returns its rows,
    [clock] the time at which each event is published.  SHA-256, HMAC, JSON and the
    formatting of timestamps are arguments. *)

From S2P Require Import Prelude Text DomainTypes Identifiers Digest PageWorkflow StoreTypes.
From S2P Require Import StoreChecks StoreDb StoreJobs StorePages StoreOutbox Temporal.

#[local] Open Scope list_scope.
#[local] Open Scope Z_scope.

Module WorkflowAction.
Inductive WorkflowAction := Start | Cancel.
End WorkflowAction.

Record WorkflowDispatch := mkWorkflowDispatch {
  dispatch_event_id : Z;
  workflow_id : string;
  dispatch_product_id : ProductId;
  dispatch_tenant_id : TenantId;
  dispatch_job_id : JobId;
  dispatch_page_count : Z;
  action : WorkflowAction.WorkflowAction;
}.

Module WorkflowDispatchOutcome.
Inductive WorkflowDispatchOutcome := Started | Existing.
End WorkflowDispatchOutcome.

Module WorkflowDispatchError.
Inductive WorkflowDispatchError := Unavailable.
End WorkflowDispatchError.

Notation DispatchResult :=
  (result WorkflowDispatchError.WorkflowDispatchError WorkflowDispatchOutcome.WorkflowDispatchOutcome).

(** [format!("ocr-v1-{}", &encoded[..32])]. *)
Definition scoped_workflow_id (sha256 : list Z → list Z) (product_id : ProductId)
    (tenant_id : TenantId) (job_id : JobId) : string :=
  let encoded :=
    hex_encode (sha256 (string_bytes (ProductId_str product_id) ++ [0]
                        ++ string_bytes (TenantId_str tenant_id) ++ [0]
                        ++ string_bytes (JobId_str job_id))) in
  "ocr-v1-" +:+ String.substring 0 32 encoded.

(** ** [DurableWorkflowStarter] *)

(** [None] is the configuration error. *)
Definition DurableWorkflowStarter_new (max_attempts : Z) : option Z :=
  if negb (contains 1 10 max_attempts) then None else Some max_attempts.

Section DurableWorkflowStarter.
Context (serde_size jsonb_size : RawPageWorkflow → Z).
Context (max_attempts : Z).

Definition unavailable (db : Db) : DispatchResult * Db :=
  (Err WorkflowDispatchError.Unavailable, db).

Definition complete_dispatch (dispatch : WorkflowDispatch) (db : Db) : DispatchResult * Db :=
  match complete_cancellation (dispatch_tenant_id dispatch) (dispatch_product_id dispatch)
          (dispatch_job_id dispatch) db with
  | Err _ => unavailable db
  | Ok (CompleteCancellationOutcome.Cancelled _, db) => (Ok WorkflowDispatchOutcome.Started, db)
  | Ok (CompleteCancellationOutcome.Existing _, db) => (Ok WorkflowDispatchOutcome.Existing, db)
  | Ok (CompleteCancellationOutcome.NotCancellable _, db)
  | Ok (CompleteCancellationOutcome.NotFound, db) => unavailable db
  end.

Definition cancel_stored (dispatch : WorkflowDispatch) (stored : StoredPageWorkflow) (db : Db)
    : DispatchResult * Db :=
  if bool_decide (status (stored_workflow stored) = PageWorkflowStatus.Cancelled)
  then complete_dispatch dispatch db
  else
    match save_page_workflow serde_size jsonb_size (dispatch_tenant_id dispatch)
            (dispatch_product_id dispatch) (dispatch_job_id dispatch) (revision stored)
            (request_cancellation (stored_workflow stored)) db with
    | Err _ => unavailable db
    | Ok (SavePageWorkflowOutcome.Saved _, db) => complete_dispatch dispatch db
    | Ok (SavePageWorkflowOutcome.Conflict, db) | Ok (SavePageWorkflowOutcome.NotFound, db) =>
        unavailable db
    end.

Definition starter_cancel (dispatch : WorkflowDispatch) (db : Db) : DispatchResult * Db :=
  match load_page_workflow jsonb_size (dispatch_tenant_id dispatch)
          (dispatch_product_id dispatch) (dispatch_job_id dispatch) db with
  | Err _ => unavailable db
  | Ok (Some stored) => cancel_stored dispatch stored db
  | Ok None =>
      match PageWorkflow_new (dispatch_job_id dispatch) (dispatch_page_count dispatch)
              max_attempts with
      | Err _ => unavailable db
      | Ok workflow =>
          match create_page_workflow serde_size jsonb_size (dispatch_tenant_id dispatch)
                  (dispatch_product_id dispatch) (dispatch_job_id dispatch)
                  (request_cancellation workflow) db with
          | Err _ => unavailable db
          | Ok (CreatePageWorkflowOutcome.Created _, db) => (Ok WorkflowDispatchOutcome.Started, db)
          | Ok (CreatePageWorkflowOutcome.Existing stored, db) => cancel_stored dispatch stored db
          | Ok (CreatePageWorkflowOutcome.Conflict, db)
          | Ok (CreatePageWorkflowOutcome.NotFound, db) => unavailable db
          end
      end
  end.

Definition DurableWorkflowStarter_dispatch (dispatch : WorkflowDispatch) (db : Db)
    : DispatchResult * Db :=
  match action dispatch with
  | WorkflowAction.Start =>
      match PageWorkflow_new (dispatch_job_id dispatch) (dispatch_page_count dispatch)
              max_attempts with
      | Err _ => unavailable db
      | Ok workflow =>
          match create_page_workflow serde_size jsonb_size (dispatch_tenant_id dispatch)
                  (dispatch_product_id dispatch) (dispatch_job_id dispatch) workflow db with
          | Err _ => unavailable db
          | Ok (CreatePageWorkflowOutcome.Created _, db) => (Ok WorkflowDispatchOutcome.Started, db)
          | Ok (CreatePageWorkflowOutcome.Existing _, db) =>
              (Ok WorkflowDispatchOutcome.Existing, db)
          | Ok (CreatePageWorkflowOutcome.Conflict, db)
          | Ok (CreatePageWorkflowOutcome.NotFound, db) => unavailable db
          end
      end
  | WorkflowAction.Cancel => starter_cancel dispatch db
  end.
End DurableWorkflowStarter.

(** ** The Temporal starters *)

Inductive TemporalCommand :=
| StartCommand (workflow_id request_id task_queue : string) (input : WorkflowInput)
| CancelCommand (workflow_id request_id : string).

Module GatewayOutcome.
Inductive GatewayOutcome := Accepted | AlreadyExists.
End GatewayOutcome.

Module GatewayError.
Inductive GatewayError := Unavailable.
End GatewayError.

(** [None] is the configuration error. *)
Definition TemporalStarter_new (task_queue : string) : option string :=
  if negb (is_empty task_queue) && (strlen task_queue <=? 127)
     && all_bytes (λ byte, is_ascii_alphanumeric byte || byte_in "-_." byte) task_queue
  then Some task_queue else None.

Section TemporalStarters.
Context (sha256 : list Z → list Z) (encoded_len : WorkflowInput → Z).
Context {G : Type}.
Context (execute : TemporalCommand → G → result GatewayError.GatewayError GatewayOutcome.GatewayOutcome * G).

Definition TemporalStarter_dispatch (task_queue : string) (dispatch : WorkflowDispatch) (g : G)
    : DispatchResult * G :=
  if negb (String.eqb (workflow_id dispatch)
             (scoped_workflow_id sha256 (dispatch_product_id dispatch) (dispatch_tenant_id dispatch)
                (dispatch_job_id dispatch)))
  then (Err WorkflowDispatchError.Unavailable, g)
  else
    match WorkflowInput_new encoded_len (dispatch_product_id dispatch)
            (dispatch_tenant_id dispatch) (dispatch_job_id dispatch)
            (dispatch_page_count dispatch) with
    | None => (Err WorkflowDispatchError.Unavailable, g)
    | Some input =>
        let request_id := "ocr-outbox-" +:+ show_dec (dispatch_event_id dispatch) in
        let command :=
          match action dispatch with
          | WorkflowAction.Start => StartCommand (workflow_id dispatch) request_id task_queue input
          | WorkflowAction.Cancel => CancelCommand (workflow_id dispatch) request_id
          end in
        match execute command g with
        | (Ok GatewayOutcome.Accepted, g) => (Ok WorkflowDispatchOutcome.Started, g)
        | (Ok GatewayOutcome.AlreadyExists, g) => (Ok WorkflowDispatchOutcome.Existing, g)
        | (Err GatewayError.Unavailable, g) => (Err WorkflowDispatchError.Unavailable, g)
        end
    end.

(** [CheckpointedTemporalStarter]: the checkpoint first, on the database. *)
Definition CheckpointedTemporalStarter_dispatch (checkpoint : WorkflowDispatch → Db → DispatchResult * Db)
    (task_queue : string) (dispatch : WorkflowDispatch) (world : Db * G)
    : DispatchResult * (Db * G) :=
  let (db, g) := world in
  match checkpoint dispatch db with
  | (Err e, db) => (Err e, (db, g))
  | (Ok checkpointed, db) =>
      match TemporalStarter_dispatch task_queue dispatch g with
      | (Err e, g) => (Err e, (db, g))
      | (Ok started, g) =>
          (Ok match checkpointed, started with
              | WorkflowDispatchOutcome.Started, _ | _, WorkflowDispatchOutcome.Started =>
                  WorkflowDispatchOutcome.Started
              | _, _ => WorkflowDispatchOutcome.Existing
              end, (db, g))
      end
  end.
End TemporalStarters.

(** ** [JobOutboxRelay] *)

Module RelayOutcome.
Inductive RelayOutcome :=
| Idle
| Published (published : Z)
| Retryable (published : Z)
| LeaseLost (published : Z).
End RelayOutcome.

Section JobOutboxRelay.
Context (sha256 : list Z → list Z).
Context {G : Type}.
Context (dispatch : WorkflowDispatch → Db * G → DispatchResult * (Db * G)).
Context (arrange : list StoredJobOutboxEvent → list StoredJobOutboxEvent).
Context (clock : Z → Z).

Definition event_dispatch (tenant_id : TenantId) (product_id : ProductId)
    (event : StoredJobOutboxEvent) : WorkflowDispatch :=
  {| dispatch_event_id := event_id event;
     workflow_id := scoped_workflow_id sha256 product_id tenant_id (event_job_id event);
     dispatch_product_id := product_id; dispatch_tenant_id := tenant_id;
     dispatch_job_id := event_job_id event; dispatch_page_count := page_count event;
     action := match event_type event with
               | JobOutboxEventType.Accepted => WorkflowAction.Start
               | JobOutboxEventType.CancellationRequested => WorkflowAction.Cancel
               end |}.

(** The loop over the claimed events. *)
Fixpoint relay_events (tenant_id : TenantId) (product_id : ProductId) (lease_owner : string)
    (events : list StoredJobOutboxEvent) (published : Z) (world : Db * G)
    : result StoreError RelayOutcome.RelayOutcome * (Db * G) :=
  match events with
  | [] => (Ok (RelayOutcome.Published published), world)
  | event :: events =>
      match dispatch (event_dispatch tenant_id product_id event) world with
      | (Err _, world) => (Ok (RelayOutcome.Retryable published), world)
      | (Ok _, (db, g)) =>
          match publish_job_outbox (clock (event_id event)) tenant_id product_id (event_id event)
                  lease_owner db with
          | Err e => (Err e, (db, g))
          | Ok (PublishJobOutboxOutcome.Published, db) | Ok (PublishJobOutboxOutcome.Existing, db) =>
              relay_events tenant_id product_id lease_owner events (published + 1) (db, g)
          | Ok (PublishJobOutboxOutcome.LeaseLost, db) | Ok (PublishJobOutboxOutcome.NotFound, db) =>
              (Ok (RelayOutcome.LeaseLost published), (db, g))
          end
      end
  end.

Definition relay_scope (now : Z) (locked : Z → bool) (tenant_id : TenantId)
    (product_id : ProductId) (lease_owner : string) (limit : Z) (world : Db * G)
    : result StoreError RelayOutcome.RelayOutcome * (Db * G) :=
  let (db, g) := world in
  match claim_job_outbox now locked tenant_id product_id (mkClaimJobOutbox lease_owner limit) db with
  | Err e => (Err e, (db, g))
  | Ok (events, db) =>
      match arrange events with
      | [] => (Ok RelayOutcome.Idle, (db, g))
      | events => relay_events tenant_id product_id lease_owner events 0 (db, g)
      end
  end.
End JobOutboxRelay.

(** ** Webhooks *)

Module WebhookSignError.
Inductive WebhookSignError := InvalidEvent | InvalidSecret.
End WebhookSignError.

Record TerminalWebhookEvent := mkTerminalWebhookEvent {
  twe_event_id : string;
  twe_event_type : string;
  twe_occurred_at : Z;
  twe_product_id : ProductId;
  twe_tenant_id : TenantId;
  twe_job_id : JobId;
  twe_document_version : DocumentVersion;
  twe_status : JobState;
  twe_content_trust : string;
}.

Definition TerminalWebhookEvent_new (event_id occurred_at : Z) (product_id : ProductId)
    (tenant_id : TenantId) (job_id : JobId) (document_version : DocumentVersion)
    (status : JobState) : result WebhookSignError.WebhookSignError TerminalWebhookEvent :=
  if event_id <=? 0 then Err WebhookSignError.InvalidEvent
  else
    let? event_type :=
      match status with
      | Completed => Ok "ocr.job.completed.v1"
      | Partial => Ok "ocr.job.partial.v1"
      | ReviewRequired => Ok "ocr.job.review_required.v1"
      | _ => Err WebhookSignError.InvalidEvent
      end in
    Ok {| twe_event_id := "evt_" +:+ show_dec event_id; twe_event_type := event_type;
          twe_occurred_at := occurred_at; twe_product_id := product_id;
          twe_tenant_id := tenant_id; twe_job_id := job_id;
          twe_document_version := document_version; twe_status := status;
          twe_content_trust := "untrusted" |}.

Definition WebhookSigningSecret_new (value : list Z)
    : result WebhookSignError.WebhookSignError (list Z) :=
  if contains 32 128 (zlen value) then Ok value else Err WebhookSignError.InvalidSecret.

Record SignedWebhook := mkSignedWebhook {
  signed_event_id : string;
  timestamp : string;
  signature : string;
  body : list Z;
}.

(** [hmac key] is [None] for a key it refuses, [serialize] for an event without JSON. *)
Definition sign (sha256 : list Z → list Z) (hmac : list Z → list Z → option (list Z))
    (serialize : TerminalWebhookEvent → option (list Z)) (show_timestamp : Z → string)
    (secret : list Z) (event : TerminalWebhookEvent)
    : result WebhookSignError.WebhookSignError SignedWebhook :=
  let? body := ok_or (serialize event) WebhookSignError.InvalidEvent in
  let event_id := twe_event_id event in
  let timestamp := show_timestamp (twe_occurred_at event) in
  let body_digest := hex_encode (sha256 body) in
  let signing_input := timestamp +:+ "." +:+ event_id +:+ "." +:+ body_digest in
  let? mac := ok_or (hmac secret (string_bytes signing_input)) WebhookSignError.InvalidSecret in
  Ok {| signed_event_id := event_id; timestamp := timestamp;
        signature := "v1=" +:+ hex_encode mac; body := body |}.

Module WebhookRelayError.
Inductive WebhookRelayError :=
| Store (e : StoreError)
| InvalidEvent (e : WebhookSignError.WebhookSignError).
End WebhookRelayError.

Section WebhookRelay.
Context {G : Type}.
(** [true] when the publisher answers delivered or existing. *)
Context (publish : WebhookSubscriptionId → TerminalWebhookEvent → Db * G → bool * (Db * G)).
Context (arrange : list StoredWebhookOutboxEvent → list StoredWebhookOutboxEvent).
Context (clock : Z → Z).

Definition webhook_status (event_type : WebhookOutboxEventType.WebhookOutboxEventType) : JobState :=
  match event_type with
  | WebhookOutboxEventType.Completed => Completed
  | WebhookOutboxEventType.Partial => Partial
  | WebhookOutboxEventType.ReviewRequired => ReviewRequired
  end.

Fixpoint relay_webhooks (tenant_id : TenantId) (product_id : ProductId) (lease_owner : string)
    (events : list StoredWebhookOutboxEvent) (published : Z) (world : Db * G)
    : result WebhookRelayError.WebhookRelayError RelayOutcome.RelayOutcome * (Db * G) :=
  match events with
  | [] => (Ok (RelayOutcome.Published published), world)
  | stored :: events =>
      match TerminalWebhookEvent_new (webhook_event_id stored) (occurred_at stored) product_id
              tenant_id (webhook_job_id stored) (webhook_document_version stored)
              (webhook_status (webhook_event_type stored)) with
      | Err e => (Err (WebhookRelayError.InvalidEvent e), world)
      | Ok event =>
          match publish (webhook_subscription_id stored) event world with
          | (false, world) => (Ok (RelayOutcome.Retryable published), world)
          | (true, (db, g)) =>
              match publish_job_outbox (clock (webhook_event_id stored)) tenant_id product_id
                      (webhook_event_id stored) lease_owner db with
              | Err e => (Err (WebhookRelayError.Store e), (db, g))
              | Ok (PublishJobOutboxOutcome.Published, db)
              | Ok (PublishJobOutboxOutcome.Existing, db) =>
                  relay_webhooks tenant_id product_id lease_owner events (published + 1) (db, g)
              | Ok (PublishJobOutboxOutcome.LeaseLost, db)
              | Ok (PublishJobOutboxOutcome.NotFound, db) =>
                  (Ok (RelayOutcome.LeaseLost published), (db, g))
              end
          end
      end
  end.

Definition webhook_relay_scope (now : Z) (locked : Z → bool) (tenant_id : TenantId)
    (product_id : ProductId) (lease_owner : string) (limit : Z) (world : Db * G)
    : result WebhookRelayError.WebhookRelayError RelayOutcome.RelayOutcome * (Db * G) :=
  let (db, g) := world in
  match claim_webhook_outbox now locked tenant_id product_id (mkClaimJobOutbox lease_owner limit)
          db with
  | Err e => (Err (WebhookRelayError.Store e), (db, g))
  | Ok (events, db) =>
      match arrange events with
      | [] => (Ok RelayOutcome.Idle, (db, g))
      | events => relay_webhooks tenant_id product_id lease_owner events 0 (db, g)
      end
  end.
End WebhookRelay.
