(* ===== verification/RelayFacts.v ===== *)
(** * RelayFacts: what the relay publishes, and when it cannot

    An event is published only once its workflow is stored.  Redelivery of a start whose
    job has moved on, or was cancelled first, is refused, and then the relay never gets
    past it. *)

From S2P Require Import Prelude Text DomainTypes Identifiers Digest PageWorkflow.
From S2P Require Import PageWorkflowFacts.
From S2P Require Import StoreTypes StoreChecks StoreDb StoreJobs StorePages StoreUploads.
From S2P Require Import StoreOutbox.
From S2P Require Import StoreRun StoreJobsFacts StorePagesFacts StoreOutboxFacts Temporal Relay.

#[local] Open Scope list_scope.
#[local] Open Scope Z_scope.

Section Facts.
Context (ss js : RawPageWorkflow → Z).

#[local] Notation effect_of_ops := (StoreRun.effect_of_ops ss js).

(** ** What the starter does to the database *)

Lemma complete_dispatch_effect d db : effect_of_ops db (complete_dispatch d db).2.
Proof.
  assert (Hop : effect_of_ops db (db_after (complete_cancellation (dispatch_tenant_id d)
    (dispatch_product_id d) (dispatch_job_id d)) db))
    by (by apply (effect_op (OpCompleteCancellation (dispatch_tenant_id d) (dispatch_product_id d)
      (dispatch_job_id d)))).
  unfold complete_dispatch, unavailable. unfold db_after in Hop.
  destruct (complete_cancellation _ _ _ _) as [[[] db']|]; done || apply effect_none.
Qed.

Lemma loaded_workflow_ok db t p j stored :
  reachable ss js db → load_page_workflow js t p j db = Ok (Some stored) →
  workflow_ok (stored_workflow stored).
Proof.
  intros Hreach Hload. unfold load_page_workflow, load_page_workflow_row in Hload.
  destruct (select_workflow t p j db) as [row|] eqn:Hsel; [|done].
  destruct (load_decodes js db t p j row (reachable_pages_ok ss js db Hreach) Hsel)
    as (w & Hok & _ & Hload'). unfold load_page_workflow, load_page_workflow_row in Hload'.
  rewrite Hsel in Hload'. rewrite Hload in Hload'. by injection Hload' as ->.
Qed.

Lemma cancel_stored_effect d stored db :
  workflow_ok (stored_workflow stored) → effect_of_ops db (cancel_stored ss js d stored db).2.
Proof.
  intros Hok. unfold cancel_stored. destruct (bool_decide _); [apply complete_dispatch_effect|].
  assert (Hop : effect_of_ops db (db_after (save_page_workflow ss js (dispatch_tenant_id d)
    (dispatch_product_id d) (dispatch_job_id d) (revision stored)
    (request_cancellation (stored_workflow stored))) db)).
  { apply (effect_op (OpSavePageWorkflow (dispatch_tenant_id d) (dispatch_product_id d)
      (dispatch_job_id d) (revision stored) (request_cancellation (stored_workflow stored)) [])).
    by apply request_cancellation_ok. }
  unfold db_after in Hop. destruct (save_page_workflow _ _ _ _ _ _ _ _) as [[[] db']|]; try done.
  eapply effect_trans; [exact Hop|apply complete_dispatch_effect].
Qed.

(** A creation of the workflow of a dispatch, with what it leaves behind. *)
Lemma create_effect_of w d db out db' :
  workflow_ok w →
  create_page_workflow ss js (dispatch_tenant_id d) (dispatch_product_id d) (dispatch_job_id d) w db
    = Ok (out, db') → effect_of_ops db db'.
Proof.
  intros Hok Hcreate. rewrite <- (db_after_Ok _ _ _ _ Hcreate).
  by apply (effect_op (OpCreatePageWorkflow (dispatch_tenant_id d) (dispatch_product_id d)
    (dispatch_job_id d) w)).
Qed.

Lemma create_stored w t p j db out db' :
  create_page_workflow ss js t p j w db = Ok (out, db') →
  match out with
  | CreatePageWorkflowOutcome.Created _ => is_Some (ocr_page_workflows db' !! JobId_str j)
  | CreatePageWorkflowOutcome.Existing stored =>
      db' = db ∧ load_page_workflow js t p j db = Ok (Some stored) ∧ stored_workflow stored = w
  | _ => db' = db
  end.
Proof.
  unfold create_page_workflow. destruct (negb _); [done|].
  destruct (serialize_page_workflow ss w) as [c|] eqn:Hser; simpl; [|done].
  destruct (insert_workflow _ _ _ _ _ _) as [[row db1]|] eqn:Hi.
  - apply insert_workflow_Some in Hi as (_ & _ & ->).
    destruct (stored_page_workflow _ _) as [stored|]; simpl; [|done].
    destruct (bool_decide _); [intros [= <- <-]; simpl; rewrite lookup_insert_eq; by eexists|].
    destruct (update_job_status _ _ _ _ _ _) as [[row' db2]|] eqn:Hu; simpl; [|done].
    intros [= <- <-]. apply update_job_status_workflows in Hu as [-> _]. simpl.
    rewrite lookup_insert_eq. by eexists.
  - destruct (load_page_workflow_row _ _ _ _ _) as [[stored|]|] eqn:Hload; simpl; [|by intros [= <- <-]|done].
    destruct (bool_decide (stored_workflow stored = w)) eqn:Heq; [|by intros [= <- <-]].
    apply bool_decide_eq_true in Heq. intros [= <- <-]. by split_and!.
Qed.

Lemma starter_cancel_effect max d db :
  reachable ss js db → effect_of_ops db (starter_cancel ss js max d db).2.
Proof.
  intros Hreach. unfold starter_cancel.
  destruct (load_page_workflow _ _ _ _ _) as [[stored|]|] eqn:Hload; [|..|apply effect_none].
  { by eapply cancel_stored_effect, loaded_workflow_ok. }
  destruct (PageWorkflow_new _ _ _) as [w|] eqn:Hnew; [|apply effect_none].
  assert (Hok : workflow_ok (request_cancellation w))
    by (by apply request_cancellation_ok; apply PageWorkflow_new_ok in Hnew as [? _]).
  destruct (create_page_workflow _ _ _ _ _ _ _) as [[out db']|] eqn:Hcreate; [|apply effect_none].
  pose proof (create_effect_of _ _ _ _ _ Hok Hcreate) as Heff.
  pose proof (create_stored _ _ _ _ _ _ _ Hcreate) as Hstored.
  destruct out as [stored|stored| |]; simpl; try done.
  destruct Hstored as (-> & Hload' & Hw). apply cancel_stored_effect. by rewrite Hw.
Qed.

Lemma starter_effect max d db :
  reachable ss js db → effect_of_ops db (DurableWorkflowStarter_dispatch ss js max d db).2.
Proof.
  intros Hreach. unfold DurableWorkflowStarter_dispatch.
  destruct (action d); [|by apply starter_cancel_effect].
  destruct (PageWorkflow_new _ _ _) as [w|] eqn:Hnew; [|apply effect_none].
  apply PageWorkflow_new_ok in Hnew as [Hok _].
  destruct (create_page_workflow _ _ _ _ _ _ _) as [[out db']|] eqn:Hcreate; [|apply effect_none].
  pose proof (create_effect_of _ _ _ _ _ Hok Hcreate) as Heff. by destruct out.
Qed.

Lemma workflow_persists db db' id :
  effect_of_ops db db' → is_Some (ocr_page_workflows db !! id) → is_Some (ocr_page_workflows db' !! id).
Proof.
  intros (ops & Hops & ->) [row Hl].
  destruct (run_ops_workflow ss js ops db id row Hops Hl) as (row' & Hl' & _). by exists row'.
Qed.

Lemma start_stores_workflow max d db out db' :
  action d = WorkflowAction.Start →
  DurableWorkflowStarter_dispatch ss js max d db = (Ok out, db') →
  is_Some (ocr_page_workflows db' !! JobId_str (dispatch_job_id d)).
Proof.
  intros Ha. unfold DurableWorkflowStarter_dispatch. rewrite Ha.
  destruct (PageWorkflow_new _ _ _) as [w|]; [|done].
  destruct (create_page_workflow _ _ _ _ _ _ _) as [[o db1]|] eqn:Hcreate; [|done].
  pose proof (create_stored _ _ _ _ _ _ _ Hcreate) as Hstored.
  destruct o as [stored|stored| |]; intros [= <- <-]; [done|].
  destruct Hstored as (-> & Hload & _). unfold load_page_workflow, load_page_workflow_row in Hload.
  destruct (select_workflow _ _ _ _) as [row|] eqn:Hsel; [|done].
  apply select_workflow_Some in Hsel as [-> _]. by eexists.
Qed.

Lemma loaded_stored t p j db stored :
  load_page_workflow js t p j db = Ok (Some stored) → is_Some (ocr_page_workflows db !! JobId_str j).
Proof.
  unfold load_page_workflow, load_page_workflow_row.
  destruct (select_workflow _ _ _ _) as [row|] eqn:Hsel; [|done]. intros _.
  apply select_workflow_Some in Hsel as [-> _]. by eexists.
Qed.

(** Whatever the action, a dispatch that succeeds leaves the workflow of its job stored. *)
Lemma dispatch_stores_workflow max d db out db' :
  reachable ss js db → DurableWorkflowStarter_dispatch ss js max d db = (Ok out, db') →
  is_Some (ocr_page_workflows db' !! JobId_str (dispatch_job_id d)).
Proof.
  intros Hreach. destruct (action d) eqn:Ha; [by apply start_stores_workflow|].
  unfold DurableWorkflowStarter_dispatch. rewrite Ha. unfold starter_cancel.
  assert (Hgo : ∀ stored, workflow_ok (stored_workflow stored) →
    is_Some (ocr_page_workflows db !! JobId_str (dispatch_job_id d)) →
    cancel_stored ss js d stored db = (Ok out, db') →
    is_Some (ocr_page_workflows db' !! JobId_str (dispatch_job_id d))).
  { intros stored Hok Hst Hrun. pose proof (cancel_stored_effect d stored db Hok) as Heff.
    rewrite Hrun in Heff. by eapply workflow_persists. }
  destruct (load_page_workflow _ _ _ _ _) as [[stored|]|] eqn:Hload; [|..|done].
  { apply Hgo; [by eapply loaded_workflow_ok|by eapply loaded_stored]. }
  destruct (PageWorkflow_new _ _ _) as [w|] eqn:Hnew; [|done].
  destruct (create_page_workflow _ _ _ _ _ _ _) as [[o db1]|] eqn:Hcreate; [|done].
  pose proof (create_stored _ _ _ _ _ _ _ Hcreate) as Hstored.
  destruct o as [stored|stored| |]; try done.
  - by intros [= _ <-].
  - destruct Hstored as (-> & Hload' & Hw). apply Hgo; [|by eapply loaded_stored].
    rewrite Hw. apply request_cancellation_ok. by apply PageWorkflow_new_ok in Hnew as [? _].
Qed.

(** *** The starter writes no events *)

Lemma complete_dispatch_outbox d db : ocr_outbox (complete_dispatch d db).2 = ocr_outbox db.
Proof.
  destruct (complete_cancellation_outbox (dispatch_tenant_id d) (dispatch_product_id d)
    (dispatch_job_id d) db) as [Ho _].
  revert Ho. unfold complete_dispatch, db_after. by destruct (complete_cancellation _ _ _ _) as [[[] ?]|].
Qed.

Lemma cancel_stored_outbox d stored db : ocr_outbox (cancel_stored ss js d stored db).2 = ocr_outbox db.
Proof.
  unfold cancel_stored. destruct (bool_decide _); [apply complete_dispatch_outbox|].
  destruct (save_outbox ss js (dispatch_tenant_id d) (dispatch_product_id d) (dispatch_job_id d)
    (revision stored) (request_cancellation (stored_workflow stored)) [] db) as [Ho _].
  revert Ho. unfold db_after. fold (save_page_workflow ss js (dispatch_tenant_id d) (dispatch_product_id d)
    (dispatch_job_id d) (revision stored) (request_cancellation (stored_workflow stored))).
  destruct (save_page_workflow _ _ _ _ _ _ _ _) as [[[] ?]|]; intros Ho; try done.
  by rewrite complete_dispatch_outbox.
Qed.

Lemma starter_outbox max d db :
  ocr_outbox (DurableWorkflowStarter_dispatch ss js max d db).2 = ocr_outbox db.
Proof.
  assert (Hcreate : ∀ w, ocr_outbox (db_after (create_page_workflow ss js (dispatch_tenant_id d)
    (dispatch_product_id d) (dispatch_job_id d) w) db) = ocr_outbox db)
    by (intros w; apply create_page_workflow_outbox).
  unfold DurableWorkflowStarter_dispatch, starter_cancel. destruct (action d).
  - destruct (PageWorkflow_new _ _ _) as [w|]; [|done]. specialize (Hcreate w). revert Hcreate.
    unfold db_after. by destruct (create_page_workflow _ _ _ _ _ _ _) as [[[] ?]|].
  - destruct (load_page_workflow _ _ _ _ _) as [[stored|]|]; [apply cancel_stored_outbox| |done].
    destruct (PageWorkflow_new _ _ _) as [w|]; [|done].
    specialize (Hcreate (request_cancellation w)). revert Hcreate. unfold db_after.
    destruct (create_page_workflow _ _ _ _ _ _ _) as [[[] ?]|]; intros Ho; try done.
    by rewrite cancel_stored_outbox.
Qed.

(** ** The interface between the relay and a starter *)

(** A starter of durable workflows: it and the workers about it change the database by
    operations of the store, and a dispatch that it reports leaves the job's workflow
    stored. *)
Class DurableStarter {G : Type} (dispatch : WorkflowDispatch → Db * G → DispatchResult * (Db * G)) := {
  starter_ops : ∀ d w, reachable ss js w.1 → effect_of_ops w.1 (dispatch d w).2.1;
  starter_stores : ∀ d w out w', reachable ss js w.1 →
    dispatch d w = (Ok out, w') → is_Some (ocr_page_workflows w'.1 !! JobId_str (dispatch_job_id d));
}.

(** The starter of the deployed dispatcher, with [others e] the operations of other
    workers after the checkpoint of event [e]. *)
Definition deployed_dispatch {G : Type} (sha256 : list Z → list Z) (encoded_len : WorkflowInput → Z)
    (execute : TemporalCommand → G →
       result GatewayError.GatewayError GatewayOutcome.GatewayOutcome * G)
    (max_attempts : Z) (task_queue : string) (others : Z → list StoreOp)
    : WorkflowDispatch → Db * G → DispatchResult * (Db * G) :=
  CheckpointedTemporalStarter_dispatch sha256 encoded_len execute
    (λ d db, let (out, db) := DurableWorkflowStarter_dispatch ss js max_attempts d db in
             (out, run_ops ss js (others (dispatch_event_id d)) db)) task_queue.

Lemma deployed_starter {G : Type} sha256 encoded_len
    (execute : TemporalCommand → G → result _ _ * G) max task_queue others :
  (∀ e, Forall op_valid (others e)) →
  DurableStarter (deployed_dispatch sha256 encoded_len execute max task_queue others).
Proof.
  intros Hothers. split.
  - intros d [db g] Hreach. simpl in Hreach.
    unfold deployed_dispatch, CheckpointedTemporalStarter_dispatch.
    pose proof (starter_effect max d db Hreach) as Heff.
    destruct (DurableWorkflowStarter_dispatch ss js max d db) as [out db1]. simpl in Heff.
    assert (effect_of_ops db (run_ops ss js (others (dispatch_event_id d)) db1))
      by (eapply effect_trans; [exact Heff|by exists (others (dispatch_event_id d))]).
    destruct out; [|done]. by destruct (TemporalStarter_dispatch _ _ _ _ _ _) as [[] ?].
  - intros d [db g] out [db' g'] Hreach. simpl in Hreach.
    unfold deployed_dispatch, CheckpointedTemporalStarter_dispatch.
    destruct (DurableWorkflowStarter_dispatch ss js max d db) as [o db1] eqn:Hd.
    destruct o; [|done]. destruct (TemporalStarter_dispatch _ _ _ _ _ _) as [[] ?]; [|done].
    intros [= _ <- _]. simpl. eapply workflow_persists.
    + by exists (others (dispatch_event_id d)).
    + by eapply dispatch_stores_workflow.
Qed.

(** ** The relay *)

(** Event [id] is published. *)
Definition is_published (db : Db) (id : Z) : Prop :=
  ∃ row, row ∈ ocr_outbox db ∧ or_event_id row = id ∧ is_Some (or_published_at row).

Lemma published_persists db db' id :
  effect_of_ops db db' → is_published db id → is_published db' id.
Proof.
  intros (ops & _ & ->) (row & Hin & Hid & [at_ Hat]).
  destruct (run_ops_event ss js ops db row Hin) as (row' & Hin' & _ & _ & Hsame).
  rewrite Hsame in Hin' by (unfold undelivered; by rewrite Hat).
  exists row. split_and!; [done|done|by eexists].
Qed.

Lemma publish_publishes now t p id owner db out db' :
  publish_job_outbox now t p id owner db = Ok (out, db') →
  out = PublishJobOutboxOutcome.Published ∨ out = PublishJobOutboxOutcome.Existing →
  is_published db' id.
Proof.
  unfold publish_job_outbox. destruct (validate_lease_owner owner); simpl; [|done].
  destruct (id <=? 0); [done|]. destruct (existsb _ _) eqn:Hex.
  - intros [= <- <-] _. apply existsb_exists in Hex as (row & Hin & Hp).
    exists (set_delivery row (Some now) (or_delivery_attempts row) None None (or_dead_lettered_at row)).
    split_and!; [|simpl|by eexists].
    + simpl. apply list_elem_of_fmap. exists row. rewrite Hp. split; [done|].
      by apply list_elem_of_In.
    + unfold publishable in Hp. boolify. tauto.
  - destruct (List.find _ _) as [row|] eqn:Hf.
    + apply find_some in Hf as [Hin Hrow]. intros [= <- <-] Hout.
      exists row. split; [by apply list_elem_of_In|]. boolify. split; [tauto|].
      destruct (or_published_at row); [by eexists|]. by destruct Hout.
    + intros [= <- <-] Hout. by destruct Hout.
Qed.

Lemma publish_effect now t p id owner db out db' :
  publish_job_outbox now t p id owner db = Ok (out, db') → effect_of_ops db db'.
Proof.
  intros H. rewrite <- (db_after_Ok _ _ _ _ H). by apply (effect_op (OpPublishJobOutbox now t p id owner)).
Qed.

Lemma publish_total now t p id owner db :
  is_valid_lease_owner owner = true → 1 ≤ id →
  ∃ out db', publish_job_outbox now t p id owner db = Ok (out, db').
Proof.
  intros Hv Hid. unfold publish_job_outbox, validate_lease_owner. rewrite Hv. simpl.
  rewrite (proj2 (Z.leb_gt _ _)) by lia. destruct (existsb _ _); by eexists _, _.
Qed.

Definition published_count (outcome : RelayOutcome.RelayOutcome) : Z :=
  match outcome with
  | RelayOutcome.Idle => 0
  | RelayOutcome.Published n | RelayOutcome.Retryable n | RelayOutcome.LeaseLost n => n
  end.

(** What a relayed event has to show for itself. *)
Definition relayed (db : Db) (event : StoredJobOutboxEvent) : Prop :=
  is_published db (event_id event)
  ∧ is_Some (ocr_page_workflows db !! JobId_str (event_job_id event)).

Lemma relayed_persists db db' event : effect_of_ops db db' → relayed db event → relayed db' event.
Proof.
  intros Heff [Hp Hw]. split; [by eapply published_persists|by eapply workflow_persists].
Qed.

(** *** The published events of the jobs *)

(** Whatever was published about a job, its workflow is stored. *)
Definition published_stored (db : Db) : Prop :=
  ∀ row, row ∈ ocr_outbox db → or_event_type row ∈ JOB_EVENTS → is_Some (or_published_at row) →
    is_Some (ocr_page_workflows db !! or_job_id row).

Lemma published_stored_from db db' :
  effect_of_ops db db' →
  (∀ row', row' ∈ ocr_outbox db' → is_Some (or_published_at row') →
     (∃ row, row ∈ ocr_outbox db ∧ event_content row' = event_content row ∧ is_Some (or_published_at row))
     ∨ is_Some (ocr_page_workflows db' !! or_job_id row')) →
  published_stored db → published_stored db'.
Proof.
  intros Heff Hrows Hdb row' Hin Htype Hpub.
  destruct (Hrows row' Hin Hpub) as [(row & Hold & [= _ _ _ Hj Ht _ _] & Hwas)|Hdone]; [|done].
  rewrite Hj. eapply workflow_persists; [exact Heff|]. apply Hdb; [done|by rewrite <- Ht|done].
Qed.

Lemma published_stored_same db db' :
  effect_of_ops db db' → ocr_outbox db' = ocr_outbox db → published_stored db → published_stored db'.
Proof.
  intros Heff Ho. apply published_stored_from; [done|]. rewrite Ho. intros row Hin Hpub. left. by exists row.
Qed.

Lemma claim_publishes_nothing now t p types owner locked rows limit table claimed :
  claim_rows (claimable_event now t p types owner locked) (claim_event now owner) limit
    (map (dead_letter now t p) rows) = (table, claimed) →
  Forall2 (λ r r', event_content r' = event_content r ∧ or_published_at r' = or_published_at r) rows table.
Proof.
  assert (Hswept : ∀ r, event_content (dead_letter now t p r) = event_content r
    ∧ or_published_at (dead_letter now t p r) = or_published_at r)
    by (intros r; unfold dead_letter; by destruct (_ && _)).
  revert limit table claimed. induction rows as [|r rows IH]; intros limit table claimed; simpl.
  { intros [= <- <-]. constructor. }
  destruct limit as [|limit].
  { intros [= <- <-]. clear IH. constructor; [apply Hswept|].
    induction rows; simpl; constructor; [apply Hswept|done]. }
  destruct (claimable_event _ _ _ _ _ _ _).
  - destruct (claim_rows _ _ limit _) as [rest cl] eqn:Hr. intros [= <- <-].
    constructor; [apply Hswept|by eapply IH].
  - destruct (claim_rows _ _ (S limit) _) as [rest cl] eqn:Hr. intros [= <- <-].
    constructor; [apply Hswept|by eapply IH].
Qed.

Lemma claim_keeps_published_stored db now locked t p claim events db1 :
  claim_job_outbox now locked t p claim db = Ok (events, db1) →
  published_stored db → published_stored db1.
Proof.
  intros Hclaim. apply published_stored_from.
  { rewrite <- (db_after_Ok _ _ _ _ Hclaim). by apply (effect_op (OpClaimJobOutbox now locked t p claim)). }
  intros row' Hin Hpub. left. apply claim_job_outbox_Ok in Hclaim as (table & claimed & Hr & <- & _).
  apply claim_publishes_nothing in Hr. apply list_elem_of_lookup in Hin as [i Hi].
  destruct (Forall2_lookup_r _ _ _ _ _ Hr Hi) as (row & Hl & Hc & Hp).
  exists row. split; [by eapply list_elem_of_lookup_2|]. by rewrite <- Hp.
Qed.

Lemma publish_keeps_published_stored now t p id owner db out db' :
  publish_job_outbox now t p id owner db = Ok (out, db') →
  (∀ row, row ∈ ocr_outbox db → or_event_id row = id →
     is_Some (ocr_page_workflows db !! or_job_id row)) →
  published_stored db → published_stored db'.
Proof.
  intros Hpublish Hstored. assert (Heff : effect_of_ops db db').
  { rewrite <- (db_after_Ok _ _ _ _ Hpublish). by apply (effect_op (OpPublishJobOutbox now t p id owner)). }
  apply published_stored_from; [exact Heff|]. intros row' Hin Hpub.
  unfold publish_job_outbox in Hpublish. destruct (validate_lease_owner owner); simpl in Hpublish; [|done].
  destruct (id <=? 0); [done|]. destruct (existsb _ _).
  - injection Hpublish as _ <-. simpl in Hin. apply list_elem_of_fmap in Hin as (row & -> & Hrow).
    destruct (publishable now t p id owner row) eqn:Hp.
    + right. simpl. apply Hstored; [done|]. unfold publishable in Hp. boolify. tauto.
    + left. by exists row.
  - injection Hpublish as _ <-. left. by exists row'.
Qed.

(** A starter, with the workers about it, that keeps to this. *)
Class KeepsPublishedStored {G : Type} (dispatch : WorkflowDispatch → Db * G → DispatchResult * (Db * G)) :=
  keeps_published_stored : ∀ d w, reachable ss js w.1 → published_stored w.1 →
    published_stored (dispatch d w).2.1.

Lemma deployed_keeps_published {G : Type} sha256 encoded_len
    (execute : TemporalCommand → G → result _ _ * G) max task_queue others :
  (∀ e db, reachable ss js db → published_stored db → published_stored (run_ops ss js (others e) db)) →
  KeepsPublishedStored (deployed_dispatch sha256 encoded_len execute max task_queue others).
Proof.
  intros Hothers d [db g] Hreach Hdb. simpl in Hreach, Hdb.
  unfold deployed_dispatch, CheckpointedTemporalStarter_dispatch.
  pose proof (starter_effect max d db Hreach) as Heff. pose proof (starter_outbox max d db) as Hsame.
  destruct (DurableWorkflowStarter_dispatch ss js max d db) as [out db1]. simpl in Heff, Hsame.
  assert (published_stored (run_ops ss js (others (dispatch_event_id d)) db1)).
  { apply Hothers; [by eapply effect_reachable|]. by apply (published_stored_same db). }
  destruct out; [|done]. by destruct (TemporalStarter_dispatch _ _ _ _ _ _) as [[] ?].
Qed.

Section Relay.
Context (sha256 : list Z → list Z).
Context {G : Type} (dispatch : WorkflowDispatch → Db * G → DispatchResult * (Db * G)).
Context `{!DurableStarter dispatch}.
Context (clock : Z → Z).

Lemma relay_events_spec t p owner events n db g :
  reachable ss js db → is_valid_lease_owner owner = true →
  Forall (λ ev, 1 ≤ event_id ev) events →
  ∃ outcome db' g',
    relay_events sha256 dispatch clock t p owner events n (db, g) = (Ok outcome, (db', g'))
    ∧ effect_of_ops db db'
    ∧ n ≤ published_count outcome ≤ n + zlen events
    ∧ (∀ k, outcome = RelayOutcome.Published k → k = n + zlen events)
    ∧ outcome ≠ RelayOutcome.Idle
    ∧ Forall (relayed db') (take (Z.to_nat (published_count outcome - n)) events).
Proof.
  intros Hreach Hv Hids. revert n db g Hreach. induction Hids as [|ev events Hid Hids IH];
    intros n db g Hreach; cbn [relay_events].
  - exists (RelayOutcome.Published n), db, g. rewrite zlen_nil, take_nil.
    split_and!; try done; try (simpl; lia); [apply effect_none|]. intros k [= ->]. lia.
  - rewrite zlen_cons. pose proof (zlen_nonneg events) as Hlen.
    pose proof (starter_ops (event_dispatch sha256 t p ev) (db, g) Hreach) as Heff1.
    pose proof (starter_stores (event_dispatch sha256 t p ev) (db, g)) as Hstore.
    destruct (dispatch (event_dispatch sha256 t p ev) (db, g)) as [[out|e] [db1 g1]];
      cbn [fst snd] in Heff1, Hstore.
    + assert (Hreach1 : reachable ss js db1) by (by eapply effect_reachable).
      destruct (publish_total (clock (event_id ev)) t p (event_id ev) owner db1 Hv Hid)
        as (pub & db2 & Hpub). rewrite Hpub.
      pose proof (publish_effect _ _ _ _ _ _ _ _ Hpub) as Heff2.
      assert (Heff : effect_of_ops db db2) by (by eapply effect_trans).
      assert (Hreach2 : reachable ss js db2) by (by eapply effect_reachable).
      assert (Hcases : (pub = PublishJobOutboxOutcome.Published ∨ pub = PublishJobOutboxOutcome.Existing)
        ∨ (pub = PublishJobOutboxOutcome.LeaseLost ∨ pub = PublishJobOutboxOutcome.NotFound))
        by (destruct pub; auto).
      destruct Hcases as [Hdone|Hlost].
      * destruct (IH (n + 1) db2 g1 Hreach2) as (outcome & db' & g' & Hrelay & Heff3 & Hn & Hk & Hne & Hall).
        exists outcome, db', g'. split_and!; [by destruct Hdone as [-> | ->]|by eapply effect_trans|lia
          |lia| |done|].
        { intros k Hout. specialize (Hk k Hout). lia. }
        replace (Z.to_nat (published_count outcome - n))
          with (S (Z.to_nat (published_count outcome - (n + 1)))) by lia.
        simpl. constructor; [|done]. eapply relayed_persists; [exact Heff3|]. split.
        { by eapply publish_publishes. }
        eapply workflow_persists; [exact Heff2|]. by apply (Hstore out (db1, g1) Hreach).
      * exists (RelayOutcome.LeaseLost n), db2, g1. simpl published_count.
        rewrite Z.sub_diag. split_and!; try done; try lia; try (by constructor).
        by destruct Hlost as [-> | ->].
    + exists (RelayOutcome.Retryable n), db1, g1. simpl published_count. rewrite Z.sub_diag.
      split_and!; try done; lia.
Qed.

Lemma relay_scope_spec arrange db g now locked t p owner limit :
  (∀ l, arrange l ≡ₚ l) → reachable ss js db → is_valid_lease_owner owner = true →
  contains 1 100 limit = true →
  ∃ events db1 outcome db' g',
    claim_job_outbox now locked t p (mkClaimJobOutbox owner limit) db = Ok (events, db1)
    ∧ relay_scope sha256 dispatch arrange clock now locked t p owner limit (db, g)
      = (Ok outcome, (db', g'))
    ∧ effect_of_ops db db'
    ∧ 0 ≤ published_count outcome ≤ zlen events
    ∧ (outcome = RelayOutcome.Idle ↔ events = [])
    ∧ (∀ k, outcome = RelayOutcome.Published k → k = zlen events)
    ∧ Forall (relayed db') (take (Z.to_nat (published_count outcome)) (arrange events)).
Proof.
  intros Harrange Hreach Hv Hl.
  destruct (claim_job_outbox_total ss js db now locked t p (mkClaimJobOutbox owner limit) Hreach Hv Hl)
    as (events & db1 & Hclaim & _).
  assert (Heff1 : effect_of_ops db db1).
  { rewrite <- (db_after_Ok _ _ _ _ Hclaim).
    by apply (effect_op (OpClaimJobOutbox now locked t p (mkClaimJobOutbox owner limit))). }
  pose proof (effect_reachable _ _ Hreach Heff1) as Hreach1.
  assert (Hids : Forall (λ ev, 1 ≤ event_id ev) (arrange events)).
  { rewrite Harrange. destruct (claim_job_outbox_Ok _ _ _ _ _ _ _ _ Hclaim)
      as (table & claimed & Hr & Htab & Hall).
    destruct (reachable_outbox_ok ss js db1 Hreach1) as [_ Hok]. pose proof (outbox_ids _ Hok) as Hpos.
    eapply Forall_impl; [exact Hall|]. intros ev (row & Hrow & -> & _).
    destruct (claimed_from _ _ _ _ _ _ _ _ _ _ _ Hr Hrow) as (_ & _ & _ & _ & Hin).
    rewrite <- Htab in Hin. rewrite Forall_forall in Hpos. specialize (Hpos _ Hin). simpl in Hpos. lia. }
  assert (Hlen : zlen (arrange events) = zlen events) by (unfold zlen; by rewrite Harrange).
  exists events, db1. unfold relay_scope. rewrite Hclaim.
  destruct (arrange events) as [|ev rest] eqn:Harr.
  - exists RelayOutcome.Idle, db1, g. rewrite zlen_nil in Hlen. rewrite take_nil.
    split_and!; try done; try (simpl; lia).
    + split; [|done]. intros _. pose proof (Harrange events) as Hp. rewrite Harr in Hp.
      symmetry in Hp. by apply Permutation_nil_r in Hp.
  - destruct (relay_events_spec t p owner (ev :: rest) 0 db1 g Hreach1 Hv Hids)
      as (outcome & db' & g' & Hrelay & Heff2 & Hn & Hk & Hne & Hall).
    pose proof (effect_trans _ _ _ Heff1 Heff2) as Heff.
    exists outcome, db', g'. rewrite Z.sub_0_r in Hall. split_and!; try done; try lia.
    + split; [done|]. intros ->. rewrite zlen_nil, zlen_cons in Hlen.
      pose proof (zlen_nonneg rest). lia.
    + intros k Hout. specialize (Hk k Hout). lia.
Qed.

(** What is known of a claimed event is true of its row. *)
Lemma event_row_later db db' ev :
  effect_of_ops db db' → (∃ row, row ∈ ocr_outbox db ∧ event_of row ev) →
  ∃ row, row ∈ ocr_outbox db' ∧ event_of row ev.
Proof.
  intros (ops & _ & ->) (row & Hin & Hid & Hjob).
  destruct (run_ops_event ss js ops db row Hin) as (row' & Hin' & [= Hc _ _ Hj _ _ _] & _).
  exists row'. split; [done|]. split; congruence.
Qed.

Lemma relay_events_keeps `{!KeepsPublishedStored dispatch} t p owner events n db g :
  reachable ss js db → Forall (λ ev, ∃ row, row ∈ ocr_outbox db ∧ event_of row ev) events →
  published_stored db →
  published_stored (relay_events sha256 dispatch clock t p owner events n (db, g)).2.1.
Proof.
  revert n db g. induction events as [|ev events IH]; intros n db g Hreach Hrows Hdb; cbn [relay_events]; [done|].
  apply Forall_cons in Hrows as [Hrow Hrows]. set (d := event_dispatch sha256 t p ev).
  pose proof (starter_ops d (db, g) Hreach) as Heff1.
  pose proof (keeps_published_stored d (db, g) Hreach Hdb) as Hdb1.
  pose proof (starter_stores d (db, g)) as Hstored.
  destruct (dispatch d (db, g)) as [[out|e] [db1 g1]]; cbn [fst snd] in *; [|done].
  specialize (Hstored out (db1, g1) Hreach eq_refl). simpl in Hstored.
  assert (Hreach1 : reachable ss js db1) by (by eapply effect_reachable).
  destruct (publish_job_outbox _ t p (event_id ev) owner db1) as [[pub db2]|e] eqn:Hpub; [|done].
  pose proof (publish_effect _ _ _ _ _ _ _ _ Hpub) as Heff2.
  assert (Hdb2 : published_stored db2).
  { eapply publish_keeps_published_stored; [exact Hpub| |exact Hdb1]. intros row Hin Hid.
    destruct (event_row_later _ _ _ Heff1 Hrow) as (row' & Hin' & Hid' & Hjob').
    destruct (reachable_outbox_ok ss js db1 Hreach1) as [_ Hok].
    assert (row = row') as -> by (apply (event_id_unique db1); [done..|congruence]).
    by rewrite <- Hjob'. }
  destruct pub; try done; (apply IH; [by eapply effect_reachable| |done]);
    (eapply Forall_impl; [exact Hrows|]; intros ev' Hrow'; eapply event_row_later; [|exact Hrow'];
     by eapply effect_trans).
Qed.

(** C19: nothing is published about a job before its workflow is stored.  Relaying a scope,
    with any starter that keeps the interface and whatever other workers do while an event
    is dispatched, never fails in a reachable database; it claims the oldest events and
    works through them in the order the claim returned them.  Every event it counts is
    published.  And however the relay ends - all published, nothing to do, stopped at a
    dispatch that failed or at a lost lease - every published event of a job in the
    database, relayed now or before, counted or not, has the workflow of its job stored,
    if that was so before and the others keep to it: no accepted job is lost between the
    outbox and the workflow engine. *)
Theorem relay_publishes_started_jobs `{!KeepsPublishedStored dispatch} arrange db g now locked t p owner
    limit :
  (∀ l, arrange l ≡ₚ l) → reachable ss js db → is_valid_lease_owner owner = true →
  contains 1 100 limit = true → published_stored db →
  ∃ events db1 outcome db' g',
    claim_job_outbox now locked t p (mkClaimJobOutbox owner limit) db = Ok (events, db1)
    ∧ relay_scope sha256 dispatch arrange clock now locked t p owner limit (db, g)
      = (Ok outcome, (db', g'))
    ∧ 0 ≤ published_count outcome ≤ zlen events
    ∧ (outcome = RelayOutcome.Idle ↔ events = [])
    ∧ (∀ k, outcome = RelayOutcome.Published k → k = zlen events)
    ∧ Forall (relayed db') (take (Z.to_nat (published_count outcome)) (arrange events))
    ∧ published_stored db'.
Proof.
  intros Harrange Hreach Hv Hl Hdb.
  destruct (relay_scope_spec arrange db g now locked t p owner limit Harrange Hreach Hv Hl)
    as (events & db1 & outcome & db' & g' & Hclaim & Hrelay & _ & Hn & Hidle & Hall & Hcounted).
  exists events, db1, outcome, db', g'. split_and!; try done; try lia.
  assert (Hreach1 : reachable ss js db1).
  { rewrite <- (db_after_Ok _ _ _ _ Hclaim). eapply effect_reachable; [exact Hreach|].
    by apply (effect_op (OpClaimJobOutbox now locked t p (mkClaimJobOutbox owner limit))). }
  pose proof (claim_keeps_published_stored _ _ _ _ _ _ _ _ Hclaim Hdb) as Hdb1.
  unfold relay_scope in Hrelay. rewrite Hclaim in Hrelay.
  destruct (arrange events) as [|ev rest] eqn:Harr; [by injection Hrelay as _ <- _|].
  pose proof (relay_events_keeps t p owner (ev :: rest) 0 db1 g Hreach1) as Hkeep.
  rewrite Hrelay in Hkeep. apply Hkeep; [|done]. rewrite <- Harr, Harrange.
  apply claim_job_outbox_Ok in Hclaim as (table & claimed & Hr & Htab & Hev).
  eapply Forall_impl; [exact Hev|]. intros e (row & Hrow & Hof). exists row. split; [|done].
  destruct (claimed_from _ _ _ _ _ _ _ _ _ _ _ Hr Hrow) as (_ & _ & _ & _ & Hin). by rewrite Htab.
Qed.
End Relay.

(** ** A scope that the relay never gets past *)

(** The oldest event of the scope that is still to be delivered. *)
Definition oldest_pending (db : Db) (t : TenantId) (p : ProductId) : option OutboxRow :=
  hd_error (List.filter (pending_event (ProductId_str p) (TenantId_str t)) (ocr_outbox db)).

(** Its job was cancelled before the start was relayed, and the worker holds it until
    [expires]. *)
Record wedged (db : Db) (t : TenantId) (p : ProductId) (owner : string) (row : OutboxRow)
    (expires : Z) : Prop := {
  wedged_reachable : reachable ss js db;
  wedged_oldest : oldest_pending db t p = Some row;
  wedged_start : or_event_type row = "ocr.job.accepted.v1";
  wedged_cancelled : ∃ job, ocr_jobs db !! or_job_id row = Some job ∧ jr_status job = "cancelled";
  wedged_no_workflow : ocr_page_workflows db !! or_job_id row = None;
  wedged_owner : or_delivery_lease_owner row = Some owner;
  wedged_expires : or_delivery_lease_expires_at row = Some expires;
}.

Lemma pending_claimable now t p owner row expires :
  pending_event (ProductId_str p) (TenantId_str t) row = true →
  or_delivery_lease_owner row = Some owner → or_delivery_lease_expires_at row = Some expires →
  claimable_event now t p JOB_EVENTS owner (λ _, false) row = true.
Proof.
  intros Hp Ho He. unfold pending_event, claimable_event, outbox_in_scope, in_scope, owned_by in *.
  boolify. tauto.
Qed.

Lemma claimable_pending now t p owner locked row :
  claimable_event now t p JOB_EVENTS owner locked row = true →
  pending_event (ProductId_str p) (TenantId_str t) row = true.
Proof.
  unfold pending_event, claimable_event, outbox_in_scope, in_scope. boolify. tauto.
Qed.

Lemma dead_letter_pending now t p row :
  pending_event (ProductId_str p) (TenantId_str t) row = true → dead_letter now t p row = row.
Proof.
  unfold pending_event, dead_letter. boolify. intros (_ & Ha).
  rewrite (proj2 (Z.eqb_neq _ _)) by lia. by rewrite andb_false_r.
Qed.

Lemma swept_pending now t p row product tenant :
  pending_event product tenant (dead_letter now t p row) = true → pending_event product tenant row = true.
Proof.
  intros H. assert (undelivered (dead_letter now t p row) = true) as Hu%dead_letter_undelivered.
  { unfold pending_event in H. boolify. tauto. }
  by rewrite <- Hu.
Qed.

(** A claim renews the oldest pending event and publishes nothing. *)
Lemma claim_oldest now t p owner rows row expires limit table claimed :
  hd_error (List.filter (pending_event (ProductId_str p) (TenantId_str t)) rows) = Some row →
  or_delivery_lease_owner row = Some owner → or_delivery_lease_expires_at row = Some expires →
  now < expires →
  claim_rows (claimable_event now t p JOB_EVENTS owner (λ _, false)) (claim_event now owner) (S limit)
    (map (dead_letter now t p) rows) = (table, claimed) →
  (∃ rest, claimed = claim_event now owner row :: rest)
  ∧ hd_error (List.filter (pending_event (ProductId_str p) (TenantId_str t)) table)
    = Some (claim_event now owner row).
Proof.
  intros Hhd Ho He Hlt. revert table claimed. induction rows as [|r rows IH]; intros table claimed; [done|].
  cbn [List.filter map claim_rows] in *.
  destruct (pending_event (ProductId_str p) (TenantId_str t) r) eqn:Hp.
  - injection Hhd as ->. rewrite (dead_letter_pending _ _ _ _ Hp).
    rewrite (pending_claimable now _ _ _ _ _ Hp Ho He).
    destruct (claim_rows _ _ limit _) as [rest cl]. intros [= <- <-]. split; [by eexists|].
    cbn [List.filter].
    assert (Hp' : pending_event (ProductId_str p) (TenantId_str t) (claim_event now owner row) = true).
    { unfold pending_event, claim_event, owned_by, lease_live in *. simpl. rewrite Ho, He.
      rewrite bool_decide_eq_true_2, (proj2 (Z.ltb_lt now expires)) by done. simpl. exact Hp. }
    by rewrite Hp'.
  - destruct (claimable_event _ _ _ _ _ _ (dead_letter now t p r)) eqn:Hc.
    { apply claimable_pending, swept_pending in Hc. congruence. }
    destruct (claim_rows _ _ (S limit) _) as [rest cl] eqn:Hr. intros [= <- <-].
    destruct (IH Hhd _ _ eq_refl) as [Hcl Htab]. split; [done|]. cbn [List.filter].
    destruct (pending_event _ _ (dead_letter now t p r)) eqn:Hd; [|done].
    apply swept_pending in Hd. congruence.
Qed.

(** The first event a claim returns is the oldest pending one, decoded. *)
Lemma claim_head now t p owner limit db row expires events db' :
  reachable ss js db → oldest_pending db t p = Some row →
  or_delivery_lease_owner row = Some owner → or_delivery_lease_expires_at row = Some expires →
  now < expires → or_event_type row = "ocr.job.accepted.v1" →
  claim_job_outbox now (λ _, false) t p (mkClaimJobOutbox owner limit) db = Ok (events, db') →
  (∃ ev rest, events = ev :: rest ∧ JobId_str (event_job_id ev) = or_job_id row
     ∧ event_type ev = JobOutboxEventType.Accepted)
  ∧ oldest_pending db' t p = Some (claim_event now owner row)
  ∧ Forall2 (λ r r', or_event_id r' = or_event_id r ∧ or_published_at r' = or_published_at r)
      (ocr_outbox db) (ocr_outbox db').
Proof.
  intros Hreach Hold Ho He Hlt Htype Hclaim.
  assert (Hin : row ∈ ocr_outbox db).
  { unfold oldest_pending in Hold. destruct (List.filter _ _) as [|r l] eqn:Hf; [done|].
    injection Hold as ->. apply list_elem_of_In. apply (List.filter_In
      (pending_event (ProductId_str p) (TenantId_str t))). rewrite Hf. by left. }
  unfold claim_job_outbox in Hclaim. simpl in Hclaim.
  destruct (validate_lease_owner owner); simpl in Hclaim; [|done].
  destruct (contains 1 100 limit) eqn:Hlimit; simpl in Hclaim; [|done].
  apply contains_true in Hlimit. destruct (Z.to_nat limit) as [|n] eqn:Hn; [lia|].
  destruct (claim_rows _ _ (S n) _) as [table claimed] eqn:Hr.
  destruct (claim_oldest _ _ _ _ _ _ _ _ _ _ Hold Ho He Hlt Hr) as [[rest ->] Htab].
  assert (Hpub : Forall2 (λ r r', or_event_id r' = or_event_id r ∧ or_published_at r' = or_published_at r)
    (ocr_outbox db) table).
  { eapply Forall2_impl; [exact (claim_publishes_nothing _ _ _ _ _ _ _ _ _ _ Hr)|].
    by intros r r' [[= ? _ _ _ _ _ _] ?]. }
  destruct (reachable_outbox_ok ss js db Hreach) as [_ Hok].
  pose proof (outbox_ids _ Hok) as Hids. pose proof (outbox_causes _ Hok) as Hcauses.
  rewrite Forall_forall in Hids, Hcauses. specialize (Hids _ Hin). specialize (Hcauses _ Hin).
  destruct (job_event_decodes ss js db (claim_event now owner row)) as (joined & ev & Hj & Hs);
    [done|simpl; rewrite Htype; set_solver|simpl in *; lia|exact Hcauses|].
  destruct (collect_results _ _) as [evs|] eqn:Hc; simpl in Hclaim; [|done].
  injection Hclaim as <- <-.
  assert (Hjoin : join_upload (with_outbox db table) (claim_event now owner row) = Some joined)
    by exact Hj.
  cbn [omap list_omap] in Hc. rewrite Hjoin in Hc. simpl in Hc. rewrite Hs in Hc. simpl in Hc.
  destruct (collect_results _ _) as [evs'|]; simpl in Hc; [|done]. injection Hc as <-.
  split; [|by destruct (_ =? _)]. exists ev, evs'. split; [done|].
  apply join_upload_row in Hj. destruct joined as [row' pages]. simpl in Hj. subst row'.
  unfold stored_job_outbox_event in Hs. simpl in Hs. rewrite Htype in Hs. simpl in Hs.
  destruct (or_event_id row <=? 0); [done|].
  destruct (JobId_new (or_job_id row)) as [jid|] eqn:Hjid; simpl in Hs; [|done].
  destruct (ok_or pages Database) as [pg|]; simpl in Hs; [|done].
  destruct (ok_or (checked u32_max pg) InvalidOutboxEvent) as [count|]; simpl in Hs; [|done].
  destruct (negb _); [done|]. injection Hs as <-. simpl.
  pose proof (id_new_str (or_job_id row) jid Hjid) as Hstr. by split.
Qed.

(** A start whose job is cancelled and has no workflow is refused. *)
Lemma start_refused max d db job :
  action d = WorkflowAction.Start →
  ocr_jobs db !! JobId_str (dispatch_job_id d) = Some job → jr_status job = "cancelled" →
  ocr_page_workflows db !! JobId_str (dispatch_job_id d) = None →
  DurableWorkflowStarter_dispatch ss js max d db = (Err WorkflowDispatchError.Unavailable, db).
Proof.
  intros Ha Hjob Hst Hw. unfold DurableWorkflowStarter_dispatch. rewrite Ha.
  destruct (PageWorkflow_new _ _ _) as [w|] eqn:Hnew; [|done].
  assert (Hnc : status w ≠ PageWorkflowStatus.Cancelled).
  { unfold PageWorkflow_new in Hnew. destruct (_ || _); [done|]. injection Hnew as <-.
    unfold status. simpl. by repeat case_match. }
  unfold create_page_workflow. destruct (negb _); [done|].
  destruct (serialize_page_workflow ss w) as [c|]; simpl; [|done].
  rewrite bool_decide_eq_false_2 by done.
  assert (Hins : insert_workflow (dispatch_tenant_id d) (dispatch_product_id d) (dispatch_job_id d)
    c false db = None).
  { unfold insert_workflow, select_job. rewrite Hjob. destruct (in_scope _ _ _ _); [|done].
    by rewrite Hst. }
  rewrite Hins. unfold load_page_workflow_row, select_workflow. by rewrite Hw.
Qed.

(** The relay with the deployed starter and nobody else at work. *)
Section Wedge.
Context (sha256 : list Z → list Z) (encoded_len : WorkflowInput → Z).
Context {G : Type}.
Context (execute : TemporalCommand → G →
  result GatewayError.GatewayError GatewayOutcome.GatewayOutcome * G).
Context (max_attempts : Z) (task_queue : string) (t : TenantId) (p : ProductId).
Context (owner : string) (limit : Z).

Definition poll (now : Z) (world : Db * G) :=
  relay_scope sha256
    (deployed_dispatch sha256 encoded_len execute max_attempts task_queue (λ _, []))
    (λ events, events) (λ _, now) now (λ _, false) t p owner limit world.

(** One poll after the other, at the given times. *)
Fixpoint polls (times : list Z) (world : Db * G)
    : list (result StoreError RelayOutcome.RelayOutcome) * (Db * G) :=
  match times with
  | [] => ([], world)
  | now :: times =>
      let (outcome, world) := poll now world in
      let (outcomes, world) := polls times world in
      (outcome :: outcomes, world)
  end.

(** Each poll comes before the lease that the one before it took runs out. *)
Fixpoint within_lease (expires : Z) (times : list Z) : Prop :=
  match times with
  | [] => True
  | now :: times => now < expires ∧ within_lease (now + LEASE_SECONDS) times
  end.

Definition unpublished_kept (db db' : Db) : Prop :=
  Forall2 (λ r r', or_event_id r' = or_event_id r ∧ or_published_at r' = or_published_at r)
    (ocr_outbox db) (ocr_outbox db').

Lemma unpublished_kept_trans db1 db2 db3 :
  unpublished_kept db1 db2 → unpublished_kept db2 db3 → unpublished_kept db1 db3.
Proof.
  unfold unpublished_kept. intros H. generalize (ocr_outbox db3).
  induction H as [|a b l k [Hab Hab'] _ IH]; intros m Hm; inversion Hm as [|? c ? m' [Hbc Hbc'] Hr];
    subst; constructor; [|by apply IH]. split; congruence.
Qed.

Lemma poll_wedged now db g row expires :
  is_valid_lease_owner owner = true → contains 1 100 limit = true →
  wedged db t p owner row expires → now < expires →
  ∃ db', poll now (db, g) = (Ok (RelayOutcome.Retryable 0), (db', g))
    ∧ wedged db' t p owner (claim_event now owner row) (now + LEASE_SECONDS)
    ∧ or_delivery_attempts (claim_event now owner row) = or_delivery_attempts row
    ∧ unpublished_kept db db'.
Proof.
  intros Hv Hl [Hreach Hold Hstart (job & Hjob & Hst) Hnow Ho He] Hlt.
  destruct (claim_job_outbox_total ss js db now (λ _, false) t p (mkClaimJobOutbox owner limit)
    Hreach Hv Hl) as (events & db' & Hclaim & _).
  destruct (claim_head _ _ _ _ _ _ _ _ _ _ Hreach Hold Ho He Hlt Hstart Hclaim)
    as ((ev & rest & -> & Hid & Htype) & Hold' & Hkept).
  pose proof (claim_job_outbox_jobs now (λ _, false) t p (mkClaimJobOutbox owner limit) db)
    as [Hjobs _]. rewrite (db_after_Ok _ _ _ _ Hclaim) in Hjobs.
  pose proof (other_ops_workflows ss js (OpClaimJobOutbox now (λ _, false) t p
    (mkClaimJobOutbox owner limit)) db) as [Hws _]. simpl in Hws.
  rewrite (db_after_Ok _ _ _ _ Hclaim) in Hws.
  exists db'. split_and!.
  - unfold poll, relay_scope. rewrite Hclaim. cbn [relay_events]. unfold deployed_dispatch.
    unfold CheckpointedTemporalStarter_dispatch.
    rewrite (start_refused max_attempts (event_dispatch sha256 t p ev) db' job); [done|..].
    + unfold event_dispatch. simpl. by rewrite Htype.
    + simpl. by rewrite Hid, Hjobs.
    + done.
    + simpl. by rewrite Hid, Hws.
  - split; try done.
    + rewrite <- (db_after_Ok _ _ _ _ Hclaim).
      by apply (reachable_step ss js db (OpClaimJobOutbox now (λ _, false) t p
        (mkClaimJobOutbox owner limit))).
    + exists job. simpl. by rewrite Hjobs.
    + simpl. by rewrite Hws.
  - simpl. unfold owned_by, lease_live. rewrite Ho, He, bool_decide_eq_true_2 by done.
    by rewrite (proj2 (Z.ltb_lt _ _) Hlt).
  - done.
Qed.

(** Cancelling a job before its start is relayed wedges its scope.  When the oldest
    event to deliver starts a job that has been cancelled meanwhile and has no workflow,
    the starter refuses it; the relay stops there, and the same worker, polling again
    before its lease runs out, renews the lease without using an attempt: so every poll is
    retryable with nothing published, for ever, no later event of the tenant is delivered -
    not even the cancellation - and the event never reaches the dead letters. *)
Theorem cancelled_start_wedges_scope db g row expires times :
  is_valid_lease_owner owner = true → contains 1 100 limit = true →
  wedged db t p owner row expires → within_lease expires times →
  let '(outcomes, (db', g')) := polls times (db, g) in
  Forall (λ outcome, outcome = Ok (RelayOutcome.Retryable 0)) outcomes
  ∧ g' = g
  ∧ unpublished_kept db db'
  ∧ ∃ row' expires', wedged db' t p owner row' expires'
      ∧ or_event_id row' = or_event_id row
      ∧ or_delivery_attempts row' = or_delivery_attempts row.
Proof.
  intros Hv Hl. revert db row expires. induction times as [|now times IH];
    intros db row expires Hw Htimes.
  - split; [constructor|]. split; [done|]. split; [|by exists row, expires].
    unfold unpublished_kept. induction (ocr_outbox db); by constructor.
  - destruct Htimes as [Hlt Htimes]. cbn [polls].
    destruct (poll_wedged now db g row expires Hv Hl Hw Hlt) as (db1 & -> & Hw1 & Hatt & Hkept).
    specialize (IH db1 _ _ Hw1 Htimes). destruct (polls times (db1, g)) as [outcomes [db2 g2]].
    destruct IH as (Hall & -> & Hkept' & row' & expires' & Hw' & Hid & Hatt').
    split; [by constructor|]. split; [done|]. split.
    + by eapply unpublished_kept_trans.
    + exists row', expires'. split; [done|]. split; [done|]. congruence.
Qed.
End Wedge.
End Facts.

(** ** Witnesses *)

Definition sample_sha256 (_ : list Z) : list Z := repeat 0 32.
Definition sample_execute (command : TemporalCommand) (g : list TemporalCommand) :
    result GatewayError.GatewayError GatewayOutcome.GatewayOutcome * list TemporalCommand :=
  (Ok GatewayOutcome.Accepted, g ++ [command]).
Definition sample_starter : WorkflowDispatch → Db * list TemporalCommand →
    DispatchResult * (Db * list TemporalCommand) :=
  deployed_dispatch sample_size sample_size sample_sha256 (λ _, 100) sample_execute 3 "queue" (λ _, []).

#[export] Instance sample_durable_starter : DurableStarter sample_size sample_size sample_starter.
Proof. apply deployed_starter. intros _. constructor. Defined.

#[export] Instance sample_keeps_published : KeepsPublishedStored sample_size sample_size sample_starter.
Proof. apply deployed_keeps_published. done. Defined.

Lemma sample_nothing_published : published_stored (sample_db sample_job_ops).
Proof.
  intros row. rewrite sample_event_written, list_elem_of_singleton. intros -> _ [at_ Hat]. discriminate Hat.
Qed.

Theorem relay_publishes_started_jobs_witness :
  ∃ db' g', relay_scope sample_sha256 sample_starter (λ l, l) (λ _, 7) 6 (λ _, false) sample_tenant
      sample_product "worker-1" 10 (sample_db sample_job_ops, [])
    = (Ok (RelayOutcome.Published 1), (db', g'))
    ∧ is_Some (ocr_page_workflows db' !! "job_1") ∧ is_published db' 1.
Proof.
  destruct (relay_publishes_started_jobs sample_size sample_size sample_sha256 sample_starter
    (λ _, 7) (λ l, l) _ [] 6 (λ _, false) sample_tenant sample_product "worker-1" 10
    (λ l, Permutation_refl l) sample_job_reachable eq_refl eq_refl sample_nothing_published)
    as (events & db1 & outcome & db' & g' & Hclaim & Hrelay & _ & _ & _ & Hall & _).
  assert (Hevents : result_ok (claim_job_outbox 6 (λ _, false) sample_tenant sample_product
    (mkClaimJobOutbox "worker-1" 10) (sample_db sample_job_ops)) = Some (events, db1))
    by (rewrite Hclaim; reflexivity).
  assert (Hout : (relay_scope sample_sha256 sample_starter (λ l, l) (λ _, 7) 6 (λ _, false)
    sample_tenant sample_product "worker-1" 10 (sample_db sample_job_ops, [])).1
    = Ok (RelayOutcome.Published 1)) by (vm_compute; reflexivity).
  rewrite Hrelay in Hout. injection Hout as ->.
  assert (Hlist : fst <$> result_ok (claim_job_outbox 6 (λ _, false) sample_tenant sample_product
    (mkClaimJobOutbox "worker-1" 10) (sample_db sample_job_ops))
    = Some [mkStoredJobOutboxEvent 1 sample_job JobOutboxEventType.Accepted 1])
    by (vm_compute; reflexivity).
  rewrite Hevents in Hlist. injection Hlist as ->.
  exists db', g'. split; [exact Hrelay|]. inversion Hall as [|ev rest [Hpub Hstored] _]; subst.
  split; [exact Hstored|exact Hpub].
Defined.

(** The job is cancelled, and only then does the worker claim its start. *)
Definition sample_wedge_ops : list StoreOp :=
  sample_job_ops ++ [OpCancel 6 sample_tenant sample_product sample_job;
                     OpClaimJobOutbox 7 (λ _, false) sample_tenant sample_product sample_claim].

Definition sample_wedge_event : OutboxRow := claim_event 7 "worker-1" sample_event.

Lemma sample_wedged :
  wedged sample_size sample_size (sample_db sample_wedge_ops) sample_tenant sample_product "worker-1"
    sample_wedge_event 307.
Proof.
  split; [| vm_compute; reflexivity | reflexivity | | vm_compute; reflexivity | reflexivity | reflexivity].
  - exists sample_wedge_ops. split; [|done]. apply Forall_app.
    split; [by eapply sample_valid_prefix|by repeat constructor].
  - assert (H : jr_status <$> (ocr_jobs (sample_db sample_wedge_ops) !! "job_1") = Some "cancelled")
      by (vm_compute; reflexivity).
    apply fmap_Some in H as (job & Hjob & Hst). exists job. split; [exact Hjob|done].
Qed.

Theorem cancelled_start_wedges_scope_witness :
  let '(outcomes, (db', _)) :=
    polls sample_size sample_size sample_sha256 (λ _, 100) sample_execute 3 "queue" sample_tenant
      sample_product "worker-1" 10 [8; 200; 400] (sample_db sample_wedge_ops, []) in
  Forall (λ outcome, outcome = Ok (RelayOutcome.Retryable 0)) outcomes
  ∧ unpublished_kept (sample_db sample_wedge_ops) db'.
Proof.
  assert (Htimes : within_lease 307 [8; 200; 400]) by (repeat split; unfold LEASE_SECONDS; lia).
  pose proof (cancelled_start_wedges_scope sample_size sample_size sample_sha256 (λ _, 100)
    sample_execute 3 "queue" sample_tenant sample_product "worker-1" 10 _ [] _ 307 [8; 200; 400]
    eq_refl eq_refl sample_wedged Htimes) as Hwedge.
  destruct (polls _ _ _ _ _ _ _ _ _ _ _ _ _) as [outcomes [db' g']].
  destruct Hwedge as (Hall & _ & Hkept & _). split; [exact Hall|exact Hkept].
Defined.
