(* ===== verification/ParserProcess.v ===== *)
(** * ParserProcess: the isolated parser and its reports

    Models [ocr-service/src/parser_process.rs].  The parser runs in a process of its
    own: [spawn] gives what becomes of it from its command line and input.  JSON text is
    read by the arguments [parse_report_json] and [parse_pages_json]; the integer widths
    and the checked constructors of the wire types are modelled. *)

From S2P Require Import Prelude Text DomainTypes Identifiers Geometry Document StoreTypes.
From S2P Require Import StoreChecks.

#[local] Open Scope list_scope.
#[local] Open Scope Z_scope.

Definition MAXIMUM_INPUT_BYTES : Z := 100 * 1024 * 1024.
Definition MAXIMUM_OUTPUT_BYTES : Z := 64 * 1024.
Definition PARSER_PROFILE : string := "intake-v1".

Record ParserInspectionReport := mkParserInspectionReport {
  report_page_count : Z;
  report_maximum_page_pixels : Z;
  report_total_page_pixels : Z;
  report_pages : list PageGeometry;
}.

Module ParserProcessError.
Inductive ParserProcessError :=
| InvalidConfiguration
| InvalidDocument
| LimitsExceeded
| PasswordRequired
| Unavailable.
End ParserProcessError.

Notation ParserResult := (result ParserProcessError.ParserProcessError).

(** A JSON object with the fields of [WireReport]; its numbers are any integers. *)
Record JsonGeometry := mkJsonGeometry { json_page : Z; json_width : Z; json_height : Z }.
Record JsonReport := mkJsonReport {
  json_page_count : Z;
  json_maximum_page_pixels : Z;
  json_total_page_pixels : Z;
  json_pages : list JsonGeometry;
  json_password_protected : bool;
}.

Record WireReport := mkWireReport {
  wire_page_count : Z;
  wire_maximum_page_pixels : Z;
  wire_total_page_pixels : Z;
  wire_pages : list PageGeometry;
  wire_password_protected : bool;
}.

(** The derived [Deserialize] of [PageGeometry]: [u32] fields, then [try_from]. *)
Definition PageGeometry_deserialize (json : JsonGeometry) : ParserResult PageGeometry :=
  let? number := ok_or (checked u32_max (json_page json)) ParserProcessError.Unavailable in
  let? width := ok_or (checked u32_max (json_width json)) ParserProcessError.Unavailable in
  let? height := ok_or (checked u32_max (json_height json)) ParserProcessError.Unavailable in
  map_err
    (let? page := PageNumber_new number in
     PageGeometry_try_from (mkRawPageGeometry page width height))
    (λ _, ParserProcessError.Unavailable).

(** [serde_json::from_slice::<WireReport>]. *)
Definition WireReport_deserialize (json : JsonReport) : ParserResult WireReport :=
  let? count := ok_or (checked u64_max (json_page_count json)) ParserProcessError.Unavailable in
  let? maximum :=
    ok_or (checked u64_max (json_maximum_page_pixels json)) ParserProcessError.Unavailable in
  let? total :=
    ok_or (checked u64_max (json_total_page_pixels json)) ParserProcessError.Unavailable in
  let? pages := collect_results PageGeometry_deserialize (json_pages json) in
  Ok (mkWireReport count maximum total pages (json_password_protected json)).

(** The loop of [parse_report] over the pages from [index]. *)
Fixpoint check_pages (index maximum_page_pixels computed_maximum computed_total : Z)
    (pages : list PageGeometry) : ParserResult (Z * Z) :=
  match pages with
  | [] => Ok (computed_maximum, computed_total)
  | page :: rest =>
      let? expected_page := ok_or (checked u32_max (index + 1)) ParserProcessError.Unavailable in
      if negb (PageNumber_value (geometry_page page) =? expected_page)
      then Err ParserProcessError.Unavailable
      else
        let? pixels :=
          ok_or (checked i64_max (PageGeometry_pixels page)) ParserProcessError.Unavailable in
        if maximum_page_pixels <? pixels then Err ParserProcessError.Unavailable
        else
          let? total :=
            ok_or (checked_add i64_max computed_total pixels) ParserProcessError.Unavailable in
          check_pages (index + 1) maximum_page_pixels (Z.max computed_maximum pixels) total rest
  end.

Definition check_report (report : WireReport) : ParserResult ParserInspectionReport :=
  let? page_count :=
    ok_or (checked i32_max (wire_page_count report)) ParserProcessError.Unavailable in
  let? maximum_page_pixels :=
    ok_or (checked i64_max (wire_maximum_page_pixels report)) ParserProcessError.Unavailable in
  let? total_page_pixels :=
    ok_or (checked i64_max (wire_total_page_pixels report)) ParserProcessError.Unavailable in
  if wire_password_protected report
     || negb (contains 1 MAXIMUM_PAGE_COUNT page_count)
     || negb (contains 1 100000000 maximum_page_pixels)
     || negb (contains maximum_page_pixels MAXIMUM_TOTAL_PAGE_PIXELS total_page_pixels)
     || negb (zlen (wire_pages report) =? page_count)
  then Err ParserProcessError.Unavailable
  else
    let? (computed_maximum, computed_total) :=
      check_pages 0 maximum_page_pixels 0 0 (wire_pages report) in
    if negb (computed_maximum =? maximum_page_pixels) || negb (computed_total =? total_page_pixels)
    then Err ParserProcessError.Unavailable
    else Ok (mkParserInspectionReport page_count maximum_page_pixels total_page_pixels
               (wire_pages report)).

(** ** The process *)

(** [deadline] in nanoseconds. *)
Record ParserProcess := mkParserProcess {
  executable : string;
  deadline : Z;
  maximum_pages : Z;
  maximum_page_pixels : Z;
  maximum_total_pixels : Z;
  pdf_text_executable : string;
}.

(** [Path::is_absolute] on Unix. *)
Definition is_absolute (path : string) : bool := is_some_and (λ _, true) (strip_prefix "/" path).

Definition ParserProcess_new (executable : string) (deadline : Z) : ParserResult ParserProcess :=
  if negb (is_absolute executable) || (deadline =? 0) || (120 * 1000000000 <? deadline)
  then Err ParserProcessError.InvalidConfiguration
  else Ok {| executable := executable; deadline := deadline; maximum_pages := MAXIMUM_PAGE_COUNT;
             maximum_page_pixels := 100000000;
             maximum_total_pixels := MAXIMUM_TOTAL_PAGE_PIXELS;
             pdf_text_executable := "/usr/bin/pdftotext" |}.

Definition with_document_limits (self : ParserProcess) (pages page_pixels total_pixels : Z)
    : ParserProcess :=
  {| executable := executable self; deadline := deadline self; maximum_pages := pages;
     maximum_page_pixels := page_pixels; maximum_total_pixels := total_pixels;
     pdf_text_executable := pdf_text_executable self |}.

Definition with_pdf_text_executable (self : ParserProcess) (path : string)
    : ParserResult ParserProcess :=
  if negb (is_absolute path) then Err ParserProcessError.InvalidConfiguration
  else Ok {| executable := executable self; deadline := deadline self;
             maximum_pages := maximum_pages self; maximum_page_pixels := maximum_page_pixels self;
             maximum_total_pixels := maximum_total_pixels self; pdf_text_executable := path |}.

Inductive ParserMode := Inspect | Prepare | Native.

Definition output_limit (mode : ParserMode) : Z :=
  match mode with
  | Prepare => 20 * 1024 * 1024
  | Native => MAXIMUM_DOCUMENT_RESULT_BYTES
  | Inspect => MAXIMUM_OUTPUT_BYTES
  end.

(** The arguments of the command. *)
Definition command_args (self : ParserProcess) (content_type : string) (mode : ParserMode)
    : list string :=
  match mode with
  | Prepare => ["prepare-ocr"]
  | Native => ["extract-native"; "--pdf-text-executable"; pdf_text_executable self]
  | Inspect => []
  end
  ++ ["--content-type"; content_type; "--max-pages"; show_dec (maximum_pages self);
      "--max-page-pixels"; show_dec (maximum_page_pixels self);
      "--max-total-pixels"; show_dec (maximum_total_pixels self)].

(** What becomes of the child: it cannot be started, a pipe or the wait fails, the
    deadline passes, or it exits, [None] for a signal, having written its output. *)
Inductive ProcessEnd :=
| NotStarted
| PipeFailed
| DeadlineExpired
| Exited (status : option Z) (output : list Z).

Section Process.
Context (spawn : string → list string → list Z → Z → ProcessEnd).
Context (parse_report_json : list Z → option JsonReport).
Context (parse_pages_json : list Z → option (list RawDocumentPage)).

Definition run (self : ParserProcess) (encoded : list Z) (content_type : string)
    (mode : ParserMode) : ParserResult (list Z) :=
  if (zlen encoded =? 0) || (MAXIMUM_INPUT_BYTES <? zlen encoded)
     || negb (valid_content_type content_type)
  then Err ParserProcessError.InvalidDocument
  else
    match spawn (executable self) (command_args self content_type mode) encoded (deadline self) with
    | NotStarted | PipeFailed | DeadlineExpired => Err ParserProcessError.Unavailable
    | Exited status output =>
        if output_limit mode <? zlen output then Err ParserProcessError.Unavailable
        else
          match status with
          | Some 0 => Ok output
          | Some 10 => Err ParserProcessError.InvalidDocument
          | Some 11 => Err ParserProcessError.LimitsExceeded
          | Some 12 => Err ParserProcessError.PasswordRequired
          | _ => Err ParserProcessError.Unavailable
          end
    end.

Definition parse_report (output : list Z) : ParserResult ParserInspectionReport :=
  let? json := ok_or (parse_report_json output) ParserProcessError.Unavailable in
  let? report := WireReport_deserialize json in
  check_report report.

(** [u64 as i64]. *)
Definition as_i64 (z : Z) : Z := (z + 2 ^ 63) mod 2 ^ 64 - 2 ^ 63.

Definition ParserProcess_inspect (self : ParserProcess) (encoded : list Z) (content_type : string)
    : ParserResult ParserInspectionReport :=
  let? output := run self encoded content_type Inspect in
  let? report := parse_report output in
  if (maximum_pages self <? report_page_count report)
     || (as_i64 (maximum_page_pixels self) <? report_maximum_page_pixels report)
     || (as_i64 (maximum_total_pixels self) <? report_total_page_pixels report)
  then Err ParserProcessError.LimitsExceeded
  else Ok report.

(** The loop of [extract_native]: the total of the pixels. *)
Fixpoint native_total (self : ParserProcess) (index total : Z) (pages : list DocumentPage)
    : ParserResult Z :=
  match pages with
  | [] => Ok total
  | p :: rest =>
      let pixels := page_width p * page_height p in
      if negb (PageNumber_value (page p) =? (index mod 2 ^ 32 + 1) mod 2 ^ 32)
         || (maximum_page_pixels self <? pixels)
      then Err ParserProcessError.Unavailable
      else
        let? total := ok_or (checked_add u64_max total pixels) ParserProcessError.Unavailable in
        native_total self (index + 1) total rest
  end.

Definition extract_native (self : ParserProcess) (encoded : list Z) (content_type : string)
    : ParserResult (list DocumentPage) :=
  let? output := run self encoded content_type Native in
  let? raw := ok_or (parse_pages_json output) ParserProcessError.Unavailable in
  let? pages :=
    map_err (collect_results DocumentPage_try_from raw) (λ _, ParserProcessError.Unavailable) in
  if (zlen pages =? 0) || (maximum_pages self <? zlen pages)
  then Err ParserProcessError.Unavailable
  else
    let? total := native_total self 0 0 pages in
    if maximum_total_pixels self <? total then Err ParserProcessError.Unavailable else Ok pages.

(** [b"\x89PNG\r\n\x1a\n"]. *)
Definition PNG_SIGNATURE : list Z := [137; 80; 78; 71; 13; 10; 26; 10].

Fixpoint starts_with (prefix bytes : list Z) : bool :=
  match prefix, bytes with
  | [], _ => true
  | a :: prefix, b :: bytes => (a =? b) && starts_with prefix bytes
  | _ :: _, [] => false
  end.

Definition prepare_ocr (self : ParserProcess) (encoded : list Z) (content_type : string)
    : ParserResult (option (list Z)) :=
  let? output := run self encoded content_type Prepare in
  if zlen output =? 0 then Ok None
  else if negb (starts_with PNG_SIGNATURE output) then Err ParserProcessError.Unavailable
  else Ok (Some output).
End Process.
