(* ===== verification/Importer.v ===== *)
(** * Importer: inspecting an upload

    Models [ocr-service/src/importer.rs].  The scanner, the reader, the parser and the
    promoter are functions on the state [G] of the services outside.  [process] makes
    three calls of the store: call [k] happens at the time [clock k], and [meanwhile k]
    is what the rest of the system did to the database since the call before. *)

From S2P Require Import Prelude Text DomainTypes Identifiers Geometry Document StoreTypes.
From S2P Require Import StoreChecks StoreDb StoreJobs StoreUploads ParserProcess.

#[local] Open Scope list_scope.
#[local] Open Scope Z_scope.

Module UploadInspectionError.
Inductive UploadInspectionError := Invalid | Infected | Unavailable.
End UploadInspectionError.

Module DocumentReadError.
Inductive DocumentReadError := Invalid | Unavailable.
End DocumentReadError.

Module DocumentParseError.
Inductive DocumentParseError := Invalid | LimitsExceeded | PasswordRequired | Unavailable.
End DocumentParseError.

Module SourcePromotionError.
Inductive SourcePromotionError :=
| InvalidConfiguration
| InvalidSource
| DestinationConflict
| Unavailable.
End SourcePromotionError.

Record PromotedSource := mkPromotedSource {
  promoted_bucket : string;
  promoted_object_name : string;
  promoted_generation : string;
  promoted_digest : string;
  promoted_content_length : Z;
}.

Module ImportOutcome.
Inductive ImportOutcome :=
| Accepted
| Existing
| Rejected
| Busy
| NotFound
| LeaseLost
| Retryable
| Conflict
| NotInspectable.
End ImportOutcome.

Module RetryableStage.
Inductive RetryableStage := MalwareScan | DocumentRead | Parser | SourcePromotion.
End RetryableStage.

(** [impl DocumentParser for ParserProcess]: the mapping of its errors. *)
Definition parse_error (error : ParserProcessError.ParserProcessError)
    : DocumentParseError.DocumentParseError :=
  match error with
  | ParserProcessError.InvalidDocument => DocumentParseError.Invalid
  | ParserProcessError.LimitsExceeded => DocumentParseError.LimitsExceeded
  | ParserProcessError.PasswordRequired => DocumentParseError.PasswordRequired
  | ParserProcessError.InvalidConfiguration | ParserProcessError.Unavailable =>
      DocumentParseError.Unavailable
  end.

Definition DocumentParser_inspect (inspect : list Z → string → ParserResult ParserInspectionReport)
    (encoded : list Z) (content_type : string)
    : result DocumentParseError.DocumentParseError ParserInspectionReport :=
  map_err (inspect encoded content_type) parse_error.

(** Why an examination stops: the upload is refused, or a service is not available. *)
Notation Stop := (UploadRejectionReason + RetryableStage.RetryableStage)%type.

Definition malware_stop (error : UploadInspectionError.UploadInspectionError) : Stop :=
  match error with
  | UploadInspectionError.Infected => inl MalwareDetected
  | UploadInspectionError.Invalid => inl InvalidDocument
  | UploadInspectionError.Unavailable => inr RetryableStage.MalwareScan
  end.

Definition read_stop (error : DocumentReadError.DocumentReadError) : Stop :=
  match error with
  | DocumentReadError.Invalid => inl InvalidDocument
  | DocumentReadError.Unavailable => inr RetryableStage.DocumentRead
  end.

Definition parse_stop (error : DocumentParseError.DocumentParseError) : Stop :=
  match error with
  | DocumentParseError.Invalid => inl InvalidDocument
  | DocumentParseError.LimitsExceeded => inl ParserLimitsExceeded
  | DocumentParseError.PasswordRequired => inl PasswordRequired
  | DocumentParseError.Unavailable => inr RetryableStage.Parser
  end.

Definition promotion_stop (error : SourcePromotionError.SourcePromotionError) : Stop :=
  match error with
  | SourcePromotionError.InvalidSource => inl InvalidDocument
  | SourcePromotionError.DestinationConflict => inl SourceConflict
  | SourcePromotionError.InvalidConfiguration | SourcePromotionError.Unavailable =>
      inr RetryableStage.SourcePromotion
  end.

(** The four services, as the traits of [importer.rs]. *)
Record Services (G : Type) := mkServices {
  malware_inspect : StoredUpload → G → result UploadInspectionError.UploadInspectionError () * G;
  documents_read : StoredUpload → G → result DocumentReadError.DocumentReadError (list Z) * G;
  parser_inspect : list Z → string → G →
    result DocumentParseError.DocumentParseError ParserInspectionReport * G;
  sources_promote : ProductId → TenantId → StoredUpload → G →
    result SourcePromotionError.SourcePromotionError PromotedSource * G;
}.
Arguments malware_inspect {G}.
Arguments documents_read {G}.
Arguments parser_inspect {G}.
Arguments sources_promote {G}.

Section Importer.
Context (PARSER_VERSION : string).
Context {G : Type} (services : Services G).

(** The calls between the claim and the decision, in their order. *)
Definition examine (tenant_id : TenantId) (product_id : ProductId) (upload : StoredUpload) (g : G)
    : result Stop (ParserInspectionReport * PromotedSource) * G :=
  match malware_inspect services upload g with
  | (Err e, g) => (Err (malware_stop e), g)
  | (Ok _, g) =>
      match documents_read services upload g with
      | (Err e, g) => (Err (read_stop e), g)
      | (Ok bytes, g) =>
          match parser_inspect services bytes (su_expected_content_type upload) g with
          | (Err e, g) => (Err (parse_stop e), g)
          | (Ok inspection, g) =>
              match sources_promote services product_id tenant_id upload g with
              | (Err e, g) => (Err (promotion_stop e), g)
              | (Ok source, g) => (Ok (inspection, source), g)
              end
          end
      end
  end.

(** The command of [accept_upload]. *)
Definition accept_command (lease_owner : string) (inspection : ParserInspectionReport)
    (source : PromotedSource) : AcceptUpload :=
  {| inspection_lease_owner := lease_owner; source_bucket := promoted_bucket source;
     source_object_name := promoted_object_name source;
     source_object_version := promoted_generation source;
     source_digest := promoted_digest source;
     source_content_length := promoted_content_length source;
     parser_inspection :=
       {| pi_page_count := report_page_count inspection;
          pi_maximum_page_pixels := report_maximum_page_pixels inspection;
          pi_total_page_pixels := report_total_page_pixels inspection;
          pi_page_geometries := report_pages inspection; pi_profile := PARSER_PROFILE;
          pi_version := PARSER_VERSION |} |}.

Definition accepted_outcome (outcome : AcceptUploadOutcome.AcceptUploadOutcome)
    : ImportOutcome.ImportOutcome :=
  match outcome with
  | AcceptUploadOutcome.Accepted => ImportOutcome.Accepted
  | AcceptUploadOutcome.Existing => ImportOutcome.Existing
  | AcceptUploadOutcome.SourceMismatch => ImportOutcome.Conflict
  | AcceptUploadOutcome.NotAcceptable => ImportOutcome.LeaseLost
  | AcceptUploadOutcome.NotFound => ImportOutcome.NotFound
  end.

Definition rejected_outcome (outcome : RejectUploadOutcome.RejectUploadOutcome)
    : ImportOutcome.ImportOutcome :=
  match outcome with
  | RejectUploadOutcome.Rejected | RejectUploadOutcome.Existing => ImportOutcome.Rejected
  | RejectUploadOutcome.ReasonMismatch => ImportOutcome.Conflict
  | RejectUploadOutcome.NotRejectable => ImportOutcome.LeaseLost
  | RejectUploadOutcome.NotFound => ImportOutcome.NotFound
  end.

Definition reject (now : Z) (tenant_id : TenantId) (product_id : ProductId) (upload_id : UploadId)
    (lease_owner : string) (reason : UploadRejectionReason) (db : Db)
    : result StoreError ImportOutcome.ImportOutcome * Db :=
  match reject_upload now tenant_id product_id upload_id lease_owner reason db with
  | Err e => (Err e, db)
  | Ok (outcome, db) => (Ok (rejected_outcome outcome), db)
  end.

(** What the examination decides. *)
Definition decide_upload (now : Z) (tenant_id : TenantId) (product_id : ProductId)
    (upload_id : UploadId) (lease_owner : string)
    (examined : result Stop (ParserInspectionReport * PromotedSource)) (db : Db)
    : result StoreError ImportOutcome.ImportOutcome * Db :=
  match examined with
  | Err (inr _) => (Ok ImportOutcome.Retryable, db)
  | Err (inl reason) => reject now tenant_id product_id upload_id lease_owner reason db
  | Ok (inspection, source) =>
      match accept_upload now tenant_id product_id upload_id
              (accept_command lease_owner inspection source) db with
      | Err e => (Err e, db)
      | Ok (outcome, db) => (Ok (accepted_outcome outcome), db)
      end
  end.

Definition settled_outcome (found : option StoredUpload) : ImportOutcome.ImportOutcome :=
  match found with
  | Some upload =>
      match su_state upload with
      | UploadState.Accepted => ImportOutcome.Existing
      | UploadState.Rejected => ImportOutcome.Rejected
      | _ => ImportOutcome.NotInspectable
      end
  | None => ImportOutcome.NotFound
  end.

Context (clock : nat → Z) (meanwhile : nat → Db → Db).

Definition process (tenant_id : TenantId) (product_id : ProductId) (upload_id : UploadId)
    (lease_owner : string) (db : Db) (g : G)
    : result StoreError ImportOutcome.ImportOutcome * Db * G :=
  match claim_upload_inspection (clock 0) tenant_id product_id upload_id lease_owner db with
  | Err e => (Err e, db, g)
  | Ok (ClaimUploadInspectionOutcome.Busy, db) => (Ok ImportOutcome.Busy, db, g)
  | Ok (ClaimUploadInspectionOutcome.AttemptsExhausted, db) => (Ok ImportOutcome.Rejected, db, g)
  | Ok (ClaimUploadInspectionOutcome.NotFound, db) => (Ok ImportOutcome.NotFound, db, g)
  | Ok (ClaimUploadInspectionOutcome.NotInspectable, db) =>
      let db := meanwhile 1 db in
      match find_upload tenant_id product_id upload_id db with
      | Err e => (Err e, db, g)
      | Ok found => (Ok (settled_outcome found), db, g)
      end
  | Ok (ClaimUploadInspectionOutcome.Claimed, db) | Ok (ClaimUploadInspectionOutcome.Existing, db) =>
      let db := meanwhile 1 db in
      match load_claimed_upload (clock 1) tenant_id product_id upload_id lease_owner db with
      | Err e => (Err e, db, g)
      | Ok None => (Ok ImportOutcome.LeaseLost, db, g)
      | Ok (Some upload) =>
          let (examined, g) := examine tenant_id product_id upload g in
          let (outcome, db) :=
            decide_upload (clock 2) tenant_id product_id upload_id lease_owner examined
              (meanwhile 2 db) in
          (outcome, db, g)
      end
  end.
End Importer.
