(* ===== verification/Storage.v ===== *)
(** * Storage: object storage locations and verified reads

    Models [ocr-service/src/storage_client.rs] (locations and headers),
    [document_reader.rs], [accepted_source_reader.rs] and [upload_artifacts.rs].  An
    object store is a record of functions on its state [G]: what it answers, the
    streams it yields and how they break off are arbitrary.  The paths [Path::parse]
    accepts and SHA-256 are arguments.  The tasks that hash a document are assumed to
    run to their end. *)

From S2P Require Import Prelude Text DomainTypes Identifiers Digest StoreTypes StoreChecks.
From S2P Require Import ParserProcess Importer.

#[local] Open Scope list_scope.
#[local] Open Scope Z_scope.

Definition MAXIMUM_UPLOAD_BYTES : Z := 100 * 1024 * 1024.

(** ** Locations *)

Inductive Location :=
| Gcs (bucket : string)
| S3 (bucket : string)
| Azure (account container : string).

#[export] Instance Location_eq_dec : EqDecision Location.
Proof. solve_decision. Defined.

Definition dns_byte (b : ascii) : bool :=
  is_ascii_lowercase b || is_ascii_digit b || byte_in "._-" b.

Definition dns_name (value : string) : bool :=
  contains 3 63 (strlen value)
  && is_some_and is_ascii_alphanumeric (first_byte value)
  && is_some_and is_ascii_alphanumeric (last_byte value)
  && all_bytes dns_byte value
  && negb (has_substring ".." value).

(** One part of [Ipv4Addr::from_str]: one to three digits without a leading zero, at
    most 255. *)
Definition is_octet (part : string) : bool :=
  contains 1 3 (strlen part) && all_bytes is_ascii_digit part
  && ((strlen part =? 1) || negb (starts_with_str "0" part))
  && (read_dec 0 part <=? 255).

Definition is_ipv4 (value : string) : bool :=
  let parts := split_on "." value in
  (zlen parts =? 4) && forallb is_octet parts.

Definition location (value : string) : option Location :=
  match Text.strip_prefix "s3://" value with
  | Some bucket =>
      if dns_name bucket && negb (has_substring "_" bucket) && negb (is_ipv4 bucket)
      then Some (S3 bucket) else None
  | None =>
      match Text.strip_prefix "az://" value with
      | Some azure =>
          match split_once "/" azure with
          | None => None
          | Some (account, container) =>
              if contains 3 24 (strlen account)
                 && all_bytes (λ b, is_ascii_lowercase b || is_ascii_digit b) account
                 && dns_name container
                 && negb (has_substring "." container || has_substring "_" container)
                 && negb (has_substring "--" container)
              then Some (Azure account container) else None
          end
      | None =>
          let bucket := default value (Text.strip_prefix "gs://" value) in
          if dns_name bucket && negb (starts_with_str "goog" bucket)
             && negb (has_substring "google" bucket)
          then Some (Gcs bucket) else None
      end
  end.

Definition is_storage_location (value : string) : bool := bool_decide (is_Some (location value)).
Definition is_bucket_name (value : string) : bool := is_storage_location value.

(** The map of headers, as its list of entries in key order. *)
Definition upload_headers (content_type : string) (azure : bool) : list (string * string) :=
  ("content-type", content_type) :: (if azure then [("x-ms-blob-type", "BlockBlob")] else []).

Definition promotion_compatible (source destination : string) : bool :=
  match location source, location destination with
  | Some (Gcs a), Some (Gcs b) | Some (S3 a), Some (S3 b) => negb (String.eqb a b)
  | Some (Azure a c), Some (Azure b d) => negb (String.eqb a b && String.eqb c d)
  | _, _ => false
  end.

(** ** Object stores *)

(** The errors of the [object_store] crate that the code tells apart. *)
Module ObjectError.
Inductive ObjectError := NotFound | Precondition | AlreadyExists | Other.
End ObjectError.

(** A response: its metadata and the chunks of its stream. *)
Record GetResult := mkGetResult {
  meta_version : option string;
  meta_size : Z;
  stream : list (result ObjectError.ObjectError (list Z));
}.

Record ObjectStore (G : Type) := mkObjectStore {
  provider : Location;
  get_opts : string → option string → G → result ObjectError.ObjectError GetResult * G;
  put_create : string → list Z → G → result ObjectError.ObjectError () * G;
}.
Arguments provider {G}.
Arguments get_opts {G}.
Arguments put_create {G}.

(** [result.bytes()]: every chunk, or the first error. *)
Fixpoint stream_bytes (chunks : list (result ObjectError.ObjectError (list Z)))
    : result ObjectError.ObjectError (list Z) :=
  match chunks with
  | [] => Ok []
  | chunk :: rest => let? bytes := chunk in let? more := stream_bytes rest in Ok (bytes ++ more)
  end.

Definition map_object_error (error : ObjectError.ObjectError) : DocumentReadError.DocumentReadError :=
  match error with
  | ObjectError.NotFound | ObjectError.Precondition => DocumentReadError.Invalid
  | _ => DocumentReadError.Unavailable
  end.

(** The loop of [collect_verified]. *)
Fixpoint collect_chunks (capacity : Z) (bytes : list Z)
    (chunks : list (result ObjectError.ObjectError (list Z)))
    : result DocumentReadError.DocumentReadError (list Z) :=
  match chunks with
  | [] => Ok bytes
  | chunk :: rest =>
      let? chunk := map_err chunk map_object_error in
      if capacity <? saturating_add usize_max (zlen bytes) (zlen chunk)
      then Err DocumentReadError.Invalid
      else collect_chunks capacity (bytes ++ chunk) rest
  end.

Module AcceptedSourceReadError.
Inductive AcceptedSourceReadError := Invalid | Unavailable.
End AcceptedSourceReadError.

Definition map_source_object_error (error : ObjectError.ObjectError)
    : AcceptedSourceReadError.AcceptedSourceReadError :=
  match error with
  | ObjectError.NotFound | ObjectError.Precondition => AcceptedSourceReadError.Invalid
  | _ => AcceptedSourceReadError.Unavailable
  end.

Definition map_document_error (error : DocumentReadError.DocumentReadError)
    : AcceptedSourceReadError.AcceptedSourceReadError :=
  match error with
  | DocumentReadError.Invalid => AcceptedSourceReadError.Invalid
  | DocumentReadError.Unavailable => AcceptedSourceReadError.Unavailable
  end.

Module UploadArtifactError.
Inductive UploadArtifactError := NotFound | Invalid | Unavailable.
End UploadArtifactError.

Definition map_artifact_error (error : ObjectError.ObjectError)
    : UploadArtifactError.UploadArtifactError :=
  match error with
  | ObjectError.NotFound => UploadArtifactError.NotFound
  | _ => UploadArtifactError.Unavailable
  end.

Record VerifiedUploadArtifact := mkVerifiedUploadArtifact {
  verified_object_version : string;
  verified_content_type : string;
  verified_content_length : Z;
  verified_digest : string;
}.

(** The media type that the first bytes announce. *)
Definition detect_content_type (prefix : list Z) : option string :=
  if starts_with (string_bytes "%PDF-") prefix then Some "application/pdf"
  else if starts_with PNG_SIGNATURE prefix then Some "image/png"
  else if starts_with [255; 216; 255] prefix then Some "image/jpeg"
  else if starts_with [73; 73; 42; 0] prefix || starts_with [77; 77; 0; 42] prefix
  then Some "image/tiff"
  else if (12 <=? zlen prefix) && bool_decide (take 4 prefix = string_bytes "RIFF")
          && bool_decide (take 4 (drop 8 prefix) = string_bytes "WEBP")
  then Some "image/webp"
  else None.

(** The loop of [verify_stream]: the number of bytes, the first twelve, and what the
    hashing task received. *)
Fixpoint count_chunks (maximum_length expected_length count : Z) (prefix hashed : list Z)
    (chunks : list (result ObjectError.ObjectError (list Z)))
    : result UploadArtifactError.UploadArtifactError (Z * list Z * list Z) :=
  match chunks with
  | [] => Ok (count, prefix, hashed)
  | chunk :: rest =>
      let? chunk := map_err chunk map_artifact_error in
      let? count := ok_or (checked_add u64_max count (zlen chunk)) UploadArtifactError.Invalid in
      if (maximum_length <? count) || (expected_length <? count)
      then Err UploadArtifactError.Invalid
      else
        let prefix :=
          if zlen prefix <? 12 then prefix ++ take (Z.to_nat (Z.min (zlen chunk) (12 - zlen prefix))) chunk
          else prefix in
        count_chunks maximum_length expected_length count prefix (hashed ++ chunk) rest
  end.

Section Readers.
Context (sha256 : list Z → list Z).
Context (path_valid : string → bool).
Context {G : Type}.

Definition collect_verified (expected_content_length : Z) (expected_digest : string) (size : Z)
    (chunks : list (result ObjectError.ObjectError (list Z)))
    : result DocumentReadError.DocumentReadError (list Z) :=
  let? expected_length := ok_or (checked u64_max expected_content_length) DocumentReadError.Invalid in
  let? maximum_length := ok_or (checked u64_max MAXIMUM_UPLOAD_BYTES) DocumentReadError.Invalid in
  if negb (size =? expected_length) || (maximum_length <? size) then Err DocumentReadError.Invalid
  else
    let? capacity := ok_or (checked usize_max size) DocumentReadError.Invalid in
    let? bytes := collect_chunks capacity [] chunks in
    if negb (zlen bytes =? capacity) then Err DocumentReadError.Invalid
    else if negb (String.eqb (sha256_digest (sha256 bytes)) expected_digest)
    then Err DocumentReadError.Invalid
    else Ok bytes.

(** [GcsUploadDocumentReader::read]. *)
Definition read_upload (stores : gmap string (ObjectStore G)) (upload : StoredUpload) (g : G)
    : result DocumentReadError.DocumentReadError (list Z) * G :=
  if negb (bool_decide (su_state upload = UploadState.Inspecting))
  then (Err DocumentReadError.Invalid, g)
  else
    match su_object_version upload with
    | None => (Err DocumentReadError.Invalid, g)
    | Some generation =>
        if negb (valid_object_version generation) then (Err DocumentReadError.Invalid, g)
        else
          match stores !! su_object_bucket upload with
          | None => (Err DocumentReadError.Invalid, g)
          | Some store =>
              if negb (path_valid (su_object_name upload)) then (Err DocumentReadError.Invalid, g)
              else
                match get_opts store (su_object_name upload) (Some generation) g with
                | (Err e, g) => (Err (map_object_error e), g)
                | (Ok found, g) =>
                    if negb (bool_decide (meta_version found = Some generation))
                    then (Err DocumentReadError.Invalid, g)
                    else (collect_verified (su_expected_content_length upload)
                            (su_expected_digest upload) (meta_size found) (stream found), g)
                end
          end
    end.

(** ** Accepted sources *)

Record SourceRoute := mkSourceRoute { source_route_bucket : string; source_route_store : ObjectStore G }.

Definition source_object (product_id : ProductId) (tenant_id : TenantId) (digest : string) : string :=
  "products/" +:+ ProductId_str product_id +:+ "/tenants/" +:+ TenantId_str tenant_id
    +:+ "/documents/sha256/" +:+ digest.

(** [GcsAcceptedSourceReader::read_inner]. *)
Definition read_accepted_source (routes : gmap string SourceRoute) (product_id : ProductId)
    (tenant_id : TenantId) (source : StoredAcceptedSource) (g : G)
    : result AcceptedSourceReadError.AcceptedSourceReadError (list Z) * G :=
  match routes !! ProductId_str product_id with
  | None => (Err AcceptedSourceReadError.Invalid, g)
  | Some route =>
      match Text.strip_prefix "sha256:" (as_digest source) with
      | None => (Err AcceptedSourceReadError.Invalid, g)
      | Some digest =>
          if negb (String.eqb (as_bucket source) (source_route_bucket route))
             || negb (String.eqb (as_object_name source) (source_object product_id tenant_id digest))
             || negb (path_valid (as_object_name source))
          then (Err AcceptedSourceReadError.Invalid, g)
          else
            match get_opts (source_route_store route) (as_object_name source)
                    (Some (as_generation source)) g with
            | (Err e, g) => (Err (map_source_object_error e), g)
            | (Ok found, g) =>
                if negb (bool_decide (meta_version found = Some (as_generation source)))
                then (Err AcceptedSourceReadError.Invalid, g)
                else (map_err (collect_verified (as_content_length source) (as_digest source)
                                 (meta_size found) (stream found)) map_document_error, g)
            end
      end
  end.

(** ** Uploaded objects *)

Definition verify_stream (upload : StoredUpload) (generation : string) (size : Z)
    (chunks : list (result ObjectError.ObjectError (list Z)))
    : result UploadArtifactError.UploadArtifactError VerifiedUploadArtifact :=
  let? expected_length :=
    ok_or (checked u64_max (su_expected_content_length upload)) UploadArtifactError.Invalid in
  let? maximum_length := ok_or (checked u64_max MAXIMUM_UPLOAD_BYTES) UploadArtifactError.Invalid in
  if negb (size =? expected_length) || (maximum_length <? size)
  then Err UploadArtifactError.Invalid
  else
    let? (content_length, prefix, hashed) :=
      count_chunks maximum_length expected_length 0 [] [] chunks in
    let digest := sha256_digest (sha256 hashed) in
    let? content_type := ok_or (detect_content_type prefix) UploadArtifactError.Invalid in
    if negb (content_length =? expected_length)
       || negb (String.eqb content_type (su_expected_content_type upload))
       || negb (String.eqb digest (su_expected_digest upload))
    then Err UploadArtifactError.Invalid
    else
      let? content_length := ok_or (checked i64_max content_length) UploadArtifactError.Invalid in
      Ok {| verified_object_version := generation; verified_content_type := content_type;
            verified_content_length := content_length; verified_digest := digest |}.

(** [GcsUploadArtifactReader::verify]. *)
Definition verify_upload (stores : gmap string (ObjectStore G)) (upload : StoredUpload) (g : G)
    : result UploadArtifactError.UploadArtifactError VerifiedUploadArtifact * G :=
  match stores !! su_object_bucket upload with
  | None => (Err UploadArtifactError.Unavailable, g)
  | Some store =>
      if negb (path_valid (su_object_name upload)) then (Err UploadArtifactError.Invalid, g)
      else
        match get_opts store (su_object_name upload) None g with
        | (Err e, g) => (Err (map_artifact_error e), g)
        | (Ok found, g) =>
            match meta_version found with
            | None => (Err UploadArtifactError.Invalid, g)
            | Some generation =>
                if negb (valid_object_version generation) then (Err UploadArtifactError.Invalid, g)
                else (verify_stream upload generation (meta_size found) (stream found), g)
            end
        end
  end.
End Readers.
