(* ===== verification/Promotion.v ===== *)
(** * Promotion: moving a verified source out of quarantine

    Models [ocr-service/src/source_promotion.rs].  The answers of the object stores, of
    the credential provider and of the rewrite endpoint are functions on the state [G]
    of the services; a request that the deadline of 120 s interrupts is one that fails,
    with the same error.  The [url] crate gets the parts of [RewriteUrl]; the JSON of a
    rewrite response is read by the argument [parse_rewrite]. *)

From S2P Require Import Prelude Text DomainTypes Identifiers Digest StoreTypes StoreChecks.
From S2P Require Import Importer Storage.

#[local] Open Scope list_scope.
#[local] Open Scope Z_scope.

Definition MAXIMUM_REWRITE_CALLS : nat := 32.
Definition MAXIMUM_REWRITE_RESPONSE_BYTES : Z := 64 * 1024.

Notation PromotionResult := (result SourcePromotionError.SourcePromotionError).

Record RewriteUrl := mkRewriteUrl {
  base : string;
  segments : list string;
  query : list (string * string);
}.

Definition rewrite_url (base source_bucket source_name destination_bucket destination_name : string)
    (source_generation : Z) (rewrite_token : option string) : RewriteUrl :=
  {| base := base;
     segments := ["b"; source_bucket; "o"; source_name; "rewriteTo"; "b"; destination_bucket; "o";
                  destination_name];
     query := [("sourceGeneration", show_i64 source_generation); ("ifGenerationMatch", "0")]
              ++ match rewrite_token with
                 | Some token => [("rewriteToken", token)]
                 | None => []
                 end |}.

Record RewriteResource := mkRewriteResource {
  resource_bucket : string;
  resource_name : string;
  resource_generation : string;
  resource_size : string;
}.

Record RewriteResponse := mkRewriteResponse {
  rewrite_done : bool;
  rewrite_token : option string;
  resource : option RewriteResource;
}.

(** A response of the endpoint: its status and the chunks of its body, [None] where
    reading breaks off. *)
Record HttpResponse := mkHttpResponse { http_status : Z; body_chunks : list (option (list Z)) }.

Fixpoint bounded_chunks (body : list Z) (chunks : list (option (list Z))) : PromotionResult (list Z) :=
  match chunks with
  | [] => Ok body
  | chunk :: rest =>
      let? chunk := ok_or chunk SourcePromotionError.Unavailable in
      if MAXIMUM_REWRITE_RESPONSE_BYTES <? saturating_add usize_max (zlen body) (zlen chunk)
      then Err SourcePromotionError.Unavailable
      else bounded_chunks (body ++ chunk) rest
  end.

Definition bounded_response (response : HttpResponse) : PromotionResult (list Z) :=
  bounded_chunks [] (body_chunks response).

(** The loop of [verify_existing]. *)
Fixpoint hash_chunks (expected_length length : Z) (hashed : list Z)
    (chunks : list (result ObjectError.ObjectError (list Z))) : PromotionResult (Z * list Z) :=
  match chunks with
  | [] => Ok (length, hashed)
  | chunk :: rest =>
      let? chunk := map_err chunk (λ _, SourcePromotionError.Unavailable) in
      let? length :=
        ok_or (checked_add u64_max length (zlen chunk)) SourcePromotionError.DestinationConflict in
      if expected_length <? length then Err SourcePromotionError.DestinationConflict
      else hash_chunks expected_length length (hashed ++ chunk) rest
  end.

Record PromotionRoute (G : Type) := mkPromotionRoute {
  destination_bucket : string;
  route_source : ObjectStore G;
  route_destination : ObjectStore G;
}.
Arguments destination_bucket {G}.
Arguments route_source {G}.
Arguments route_destination {G}.
Arguments mkPromotionRoute {G}.

Definition is_gcs (location : Location) : bool :=
  match location with
  | Gcs _ => true
  | _ => false
  end.

(** [mem::discriminant(a) == mem::discriminant(b)]. *)
Definition same_provider (a b : Location) : bool :=
  match a, b with
  | Gcs _, Gcs _ | S3 _, S3 _ | Azure _ _, Azure _ _ => true
  | _, _ => false
  end.

Definition strip_gs (bucket : string) : string := default bucket (Text.strip_prefix "gs://" bucket).

Section Promoter.
Context (sha256 : list Z → list Z).
Context (path_valid : string → bool).
Context {G : Type}.
(** The bearer token of the source store. *)
Context (credential : G → option string * G).
Context (post : RewriteUrl → string → G → option HttpResponse * G).
Context (parse_rewrite : list Z → option RewriteResponse).

Definition verify_existing (route : PromotionRoute G) (destination_name expected_digest : string)
    (expected_length : Z) (g : G) : PromotionResult PromotedSource * G :=
  if negb (path_valid destination_name) then (Err SourcePromotionError.InvalidSource, g)
  else
    match get_opts (route_destination route) destination_name None g with
    | (Err _, g) => (Err SourcePromotionError.Unavailable, g)
    | (Ok found, g) =>
        (let? generation :=
           ok_or match meta_version found with
                 | Some value => if valid_object_version value then Some value else None
                 | None => None
                 end SourcePromotionError.DestinationConflict in
         let? length := ok_or (checked u64_max expected_length) SourcePromotionError.InvalidSource in
         if negb (meta_size found =? length) then Err SourcePromotionError.DestinationConflict
         else
           let? (count, hashed) := hash_chunks length 0 [] (stream found) in
           let actual_digest := sha256_digest (sha256 hashed) in
           if negb (count =? length) || negb (String.eqb actual_digest expected_digest)
           then Err SourcePromotionError.DestinationConflict
           else Ok {| promoted_bucket := destination_bucket route;
                      promoted_object_name := destination_name;
                      promoted_generation := generation; promoted_digest := expected_digest;
                      promoted_content_length := expected_length |}, g)
    end.

Definition promote_stream (route : PromotionRoute G) (upload : StoredUpload)
    (destination_name version : string) (g : G) : PromotionResult PromotedSource * G :=
  if negb (same_provider (provider (route_source route)) (provider (route_destination route)))
  then (Err SourcePromotionError.InvalidConfiguration, g)
  else if negb (path_valid (su_object_name upload)) then (Err SourcePromotionError.InvalidSource, g)
  else
    match get_opts (route_source route) (su_object_name upload) (Some version) g with
    | (Err _, g) => (Err SourcePromotionError.Unavailable, g)
    | (Ok source, g) =>
        if negb (bool_decide (meta_version source = Some version))
        then (Err SourcePromotionError.InvalidSource, g)
        else
          match collect_verified sha256 (su_expected_content_length upload)
                  (su_expected_digest upload) (meta_size source) (stream source) with
          | Err DocumentReadError.Invalid => (Err SourcePromotionError.InvalidSource, g)
          | Err DocumentReadError.Unavailable => (Err SourcePromotionError.Unavailable, g)
          | Ok bytes =>
              if negb (path_valid destination_name) then (Err SourcePromotionError.InvalidSource, g)
              else
                match put_create (route_destination route) destination_name bytes g with
                | (Ok _, g) | (Err ObjectError.AlreadyExists, g) | (Err ObjectError.Precondition, g) =>
                    verify_existing route destination_name (su_expected_digest upload)
                      (su_expected_content_length upload) g
                | (Err _, g) => (Err SourcePromotionError.Unavailable, g)
                end
          end
    end.

(** A finished rewrite: the new object must be the one asked for. *)
Definition promoted_resource (route : PromotionRoute G) (upload : StoredUpload)
    (destination_name : string) (found : option RewriteResource) : PromotionResult PromotedSource :=
  let? resource := ok_or found SourcePromotionError.Unavailable in
  let? generation :=
    ok_or match parse_i64 (resource_generation resource) with
          | Some value => if 0 <? value then Some value else None
          | None => None
          end SourcePromotionError.Unavailable in
  let? length := ok_or (parse_i64 (resource_size resource)) SourcePromotionError.Unavailable in
  if negb (String.eqb (resource_bucket resource) (strip_gs (destination_bucket route)))
     || negb (String.eqb (resource_name resource) destination_name)
     || negb (length =? su_expected_content_length upload)
  then Err SourcePromotionError.DestinationConflict
  else Ok {| promoted_bucket := destination_bucket route;
             promoted_object_name := resource_name resource;
             promoted_generation := show_dec generation;
             promoted_digest := su_expected_digest upload; promoted_content_length := length |}.

(** The loop over the rewrite calls. *)
Fixpoint rewrite_calls (calls : nat) (rewrite_base_url : string) (route : PromotionRoute G)
    (upload : StoredUpload) (destination_name generation bearer : string) (token : option string)
    (g : G) : PromotionResult PromotedSource * G :=
  match calls with
  | O => (Err SourcePromotionError.Unavailable, g)
  | S calls =>
      match parse_i64 generation with
      | None => (Err SourcePromotionError.InvalidSource, g)
      | Some source_generation =>
          let url :=
            rewrite_url rewrite_base_url (strip_gs (su_object_bucket upload)) (su_object_name upload)
              (strip_gs (destination_bucket route)) destination_name source_generation token in
          match post url bearer g with
          | (None, g) => (Err SourcePromotionError.Unavailable, g)
          | (Some response, g) =>
              if http_status response =? 412
              then verify_existing route destination_name (su_expected_digest upload)
                     (su_expected_content_length upload) g
              else if (http_status response =? 404) || (http_status response =? 400)
              then (Err SourcePromotionError.InvalidSource, g)
              else if negb (contains 200 299 (http_status response))
              then (Err SourcePromotionError.Unavailable, g)
              else
                match (let? body := bounded_response response in
                       ok_or (parse_rewrite body) SourcePromotionError.Unavailable) with
                | Err e => (Err e, g)
                | Ok answer =>
                    if rewrite_done answer
                    then (promoted_resource route upload destination_name (resource answer), g)
                    else
                      match rewrite_token answer with
                      | Some token =>
                          if negb (is_empty token) && (strlen token <=? 1024)
                          then rewrite_calls calls rewrite_base_url route upload destination_name
                                 generation bearer (Some token) g
                          else (Err SourcePromotionError.Unavailable, g)
                      | None => (Err SourcePromotionError.Unavailable, g)
                      end
                end
          end
      end
  end.

Definition lower_digest (value : string) : bool :=
  (strlen value =? 64) && all_bytes (λ b, is_ascii_digit b || contains 97 102 (code b)) value.

Definition quarantine_object (product_id : ProductId) (tenant_id : TenantId) (upload_id : UploadId)
    : string :=
  "products/" +:+ ProductId_str product_id +:+ "/tenants/" +:+ TenantId_str tenant_id
    +:+ "/quarantine/" +:+ UploadId_str upload_id.

(** The checks before any request: the generation, the route and the name to write. *)
Definition promotion_plan (routes : gmap string (PromotionRoute G)) (product_id : ProductId)
    (tenant_id : TenantId) (upload : StoredUpload)
    : PromotionResult (string * PromotionRoute G * string) :=
  let? generation :=
    ok_or match su_object_version upload with
          | Some value => if valid_object_version value then Some value else None
          | None => None
          end SourcePromotionError.InvalidSource in
  let? route := ok_or (routes !! su_object_bucket upload) SourcePromotionError.InvalidSource in
  let? digest :=
    ok_or match Text.strip_prefix "sha256:" (su_expected_digest upload) with
          | Some value => if lower_digest value then Some value else None
          | None => None
          end SourcePromotionError.InvalidSource in
  if negb (bool_decide (su_state upload = UploadState.Inspecting))
     || negb (String.eqb (su_object_name upload)
                (quarantine_object product_id tenant_id (su_upload_id upload)))
     || negb (contains 1 MAXIMUM_UPLOAD_BYTES (su_expected_content_length upload))
  then Err SourcePromotionError.InvalidSource
  else Ok (generation, route, source_object product_id tenant_id digest).

Definition promote (rewrite_base_url : string) (routes : gmap string (PromotionRoute G))
    (product_id : ProductId) (tenant_id : TenantId) (upload : StoredUpload) (g : G)
    : PromotionResult PromotedSource * G :=
  match promotion_plan routes product_id tenant_id upload with
  | Err e => (Err e, g)
  | Ok (generation, route, destination_name) =>
      if negb (is_gcs (provider (route_source route)))
      then promote_stream route upload destination_name generation g
      else if negb (is_gcs (provider (route_destination route)))
      then (Err SourcePromotionError.InvalidConfiguration, g)
      else
        match credential g with
        | (None, g) => (Err SourcePromotionError.Unavailable, g)
        | (Some bearer, g) =>
            rewrite_calls MAXIMUM_REWRITE_CALLS rewrite_base_url route upload destination_name
              generation bearer None g
        end
  end.

(** ** Configuration *)

(** [StorageClient::new]: [build] is the builder of the [object_store] crate. *)
Definition StorageClient_new (build : Location → option (ObjectStore G)) (resource : string)
    : option (ObjectStore G) :=
  match location resource with
  | Some found => build found
  | None => None
  end.

(** The loop of [GcsSourcePromoter::new] over the entries of the map. *)
Fixpoint configure_routes (build : Location → option (ObjectStore G))
    (configured : gmap string (PromotionRoute G)) (destinations : gset string)
    (routes : list (string * string)) : PromotionResult (gmap string (PromotionRoute G)) :=
  match routes with
  | [] => Ok configured
  | (source_bucket, destination) :: rest =>
      if negb (is_bucket_name source_bucket) || negb (is_bucket_name destination)
         || negb (promotion_compatible source_bucket destination)
         || bool_decide (is_Some (configured !! source_bucket))
         || bool_decide (destination ∈ destinations)
      then Err SourcePromotionError.InvalidConfiguration
      else
        let? source :=
          ok_or (StorageClient_new build source_bucket) SourcePromotionError.InvalidConfiguration in
        let? store :=
          ok_or (StorageClient_new build destination) SourcePromotionError.InvalidConfiguration in
        configure_routes build
          (<[source_bucket := mkPromotionRoute destination source store]> configured)
          ({[destination]} ∪ destinations) rest
  end.

Definition GcsSourcePromoter_new (build : Location → option (ObjectStore G))
    (routes : list (string * string)) : PromotionResult (gmap string (PromotionRoute G)) :=
  if zlen routes =? 0 then Err SourcePromotionError.InvalidConfiguration
  else configure_routes build ∅ ∅ routes.
End Promoter.
