(* ===== verification/ParserProcessFacts.v ===== *)
(** * ParserProcessFacts: what a parser report is good for

    A report that [parse_report] lets through describes its pages exactly, and the store
    accepts its numbers; native pages are numbered and within the limits. *)

From S2P Require Import Prelude Text DomainTypes Identifiers Geometry Document StoreTypes.
From S2P Require Import StoreChecks StoreDb StoreJobs StorePages StoreUploads StoreOutbox.
From S2P Require Import StoreRun StoreJobsFacts StoreUploadsFacts ParserProcess.

#[local] Open Scope list_scope.
#[local] Open Scope Z_scope.

(** The numbers of a report are those of its pages, which are numbered from 1. *)
Record report_ok (r : ParserInspectionReport) : Prop := {
  report_pages_valid : Forall geometry_valid (report_pages r);
  report_pages_numbered : numbered_from 0 (report_pages r);
  report_count : zlen (report_pages r) = report_page_count r;
  report_count_bounds : 1 ≤ report_page_count r ≤ MAXIMUM_PAGE_COUNT;
  report_maximum : report_maximum_page_pixels r = max_area (report_pages r);
  report_total : report_total_page_pixels r = sum_areas (report_pages r);
}.

(** A geometry that was read is valid, and is the one the JSON describes. *)
Lemma PageGeometry_deserialize_Ok json g :
  PageGeometry_deserialize json = Ok g →
  geometry_valid g ∧ PageNumber_value (geometry_page g) = json_page json
  ∧ geometry_width g = json_width json ∧ geometry_height g = json_height json.
Proof.
  unfold PageGeometry_deserialize. rewrite and_then_Ok. intros (n & Hn & H).
  apply ok_or_Ok, checked_Some in Hn as [-> Hn].
  apply and_then_Ok in H as (w & Hw & H). apply ok_or_Ok, checked_Some in Hw as [-> Hw].
  apply and_then_Ok in H as (h & Hh & H). apply ok_or_Ok, checked_Some in Hh as [-> Hh].
  apply map_err_Ok, and_then_Ok in H as (page & Hp & H). unfold PageNumber_new in Hp.
  destruct (Z.eqb_spec (json_page json) 0); [done|]. injection Hp as <-.
  unfold PageGeometry_try_from in H. simpl in H. pose proof H as Hnew.
  apply PageGeometry_new_Ok in H as (-> & ? & ? & ?); [|done..]. simpl.
  split_and!; [|done..]. split; [|done]. unfold geometry_ok. simpl.
  split_and!; [done|done|]. by exists (mkPageNumber (json_page json)), (json_width json), (json_height json).
Qed.

Lemma geometries_deserialized jsons gs :
  collect_results PageGeometry_deserialize jsons = Ok gs → Forall geometry_valid gs.
Proof.
  intros H%collect_results_Ok. induction H as [|j g js gs Hj _ IH]; constructor; [|done].
  by apply PageGeometry_deserialize_Ok in Hj as [? _].
Qed.

Lemma max_area_bound gs m :
  0 ≤ m → Forall (λ g, geometry_area g ≤ m) gs ↔ max_area gs ≤ m.
Proof.
  intros Hm. induction gs as [|g gs IH]; simpl; [rewrite Forall_nil; naive_solver lia|].
  rewrite Forall_cons, IH. unfold max_area in *. naive_solver lia.
Qed.

Lemma max_area_nonneg gs : 0 ≤ max_area gs.
Proof. induction gs; simpl; unfold max_area in *; lia. Qed.

Lemma check_pages_Ok gs index m cm ct a b :
  Forall geometry_valid gs → 0 ≤ index → 0 ≤ cm → 0 ≤ ct → 0 ≤ m →
  index + zlen gs ≤ MAXIMUM_PAGE_COUNT → ct + 100000000 * zlen gs ≤ i64_max →
  check_pages index m cm ct gs = Ok (a, b) ↔
  numbered_from index gs ∧ max_area gs ≤ m
  ∧ a = Z.max cm (max_area gs) ∧ b = ct + sum_areas gs.
Proof.
  unfold MAXIMUM_PAGE_COUNT. intros Hall. revert index cm ct.
  induction Hall as [|g gs Hg Hall IH]; intros index cm ct Hi Hcm Hct Hm Hlen Hfit; simpl.
  - split; [intros [= <- <-]; by split_and!; try lia|]. intros (_ & _ & -> & ->). f_equal. f_equal; lia.
  - rewrite zlen_cons in Hlen, Hfit. pose proof (zlen_nonneg gs).
    destruct (geometry_valid_pixels g Hg) as [Hp Hb]. rewrite Hp.
    rewrite checked_in_width by (unfold in_width, u32_max; lia).
    simpl. destruct (Z.eqb_spec (PageNumber_value (geometry_page g)) (index + 1)); simpl;
      [|naive_solver].
    rewrite checked_in_width by (unfold in_width, i64_max in *; lia).
    simpl. pose proof (max_area_nonneg gs).
    destruct (Z.ltb_spec m (geometry_area g)); [split; [done|]; fold (max_area gs); lia|].
    unfold checked_add. rewrite checked_in_width by (unfold in_width, i64_max in *; lia).
    simpl. rewrite IH by lia. fold (max_area gs) (sum_areas gs).
    rewrite Z.max_assoc, Z.add_assoc. naive_solver lia.
Qed.

Lemma sum_areas_bound gs : Forall geometry_valid gs → max_area gs ≤ sum_areas gs ≤ 100000000 * zlen gs.
Proof.
  induction 1 as [|g gs Hg Hall IH]; [done|]. rewrite zlen_cons. simpl.
  fold (max_area gs) (sum_areas gs). destruct (geometry_valid_pixels g Hg) as [_ Hb].
  pose proof (max_area_nonneg gs). lia.
Qed.

Lemma max_area_bounds gs : Forall geometry_valid gs → max_area gs ≤ 100000000.
Proof.
  induction 1 as [|g gs Hg Hall IH]; simpl; [done|]. fold (max_area gs).
  destruct (geometry_valid_pixels g Hg) as [_ Hb]. lia.
Qed.

Lemma max_area_positive gs : Forall geometry_valid gs → 0 < zlen gs → 1 ≤ max_area gs.
Proof.
  intros Hv Hlen. destruct Hv as [|g gs Hg Hv]; [done|].
  destruct (geometry_valid_pixels g Hg) as [_ Hb]. simpl. lia.
Qed.

Lemma check_report_Ok report r :
  Forall geometry_valid (wire_pages report) →
  check_report report = Ok r ↔
  wire_password_protected report = false ∧ report_ok r
  ∧ report = mkWireReport (report_page_count r) (report_maximum_page_pixels r)
               (report_total_page_pixels r) (report_pages r) false.
Proof.
  intros Hall. destruct report as [c m t gs pw]. simpl in Hall. unfold check_report. simpl.
  split.
  - rewrite and_then_Ok. intros (c' & Hc & H). apply ok_or_Ok, checked_Some in Hc as [-> Hc].
    apply and_then_Ok in H as (m' & Hm & H). apply ok_or_Ok, checked_Some in Hm as [-> Hm].
    apply and_then_Ok in H as (t' & Ht & H). apply ok_or_Ok, checked_Some in Ht as [-> Ht].
    destruct (_ || _) eqn:Hbad; [done|].
    rewrite !orb_false_iff, !negb_false_iff, !contains_true, Z.eqb_eq in Hbad.
    destruct Hbad as ((((-> & Hcb) & Hmb) & Htb) & Hlen).
    apply and_then_Ok in H as ([a b] & Hp & H).
    apply check_pages_Ok in Hp as (Hnum & Hmax & -> & ->);
      [|done|lia..|unfold MAXIMUM_PAGE_COUNT in *; lia|unfold MAXIMUM_PAGE_COUNT, i64_max in *; lia].
    pose proof (max_area_nonneg gs).
    destruct (negb _ || _) eqn:Heq; [done|].
    rewrite orb_false_iff, !negb_false_iff, !Z.eqb_eq in Heq. injection H as <-.
    split_and!; [done| |done]. split; simpl; try done; lia.
  - intros (-> & [Hv Hnum Hc Hcb Hm Ht] & [= -> -> -> ->]).
    pose proof (sum_areas_bound _ Hv). pose proof (max_area_bounds _ Hv).
    pose proof (max_area_nonneg (report_pages r)).
    pose proof (max_area_positive _ Hv ltac:(lia)).
    unfold MAXIMUM_PAGE_COUNT, MAXIMUM_TOTAL_PAGE_PIXELS in *.
    rewrite checked_in_width by (unfold in_width, i32_max; lia). simpl.
    rewrite checked_in_width by (unfold in_width, i64_max; lia). simpl.
    rewrite checked_in_width by (unfold in_width, i64_max, MAXIMUM_PAGE_COUNT in *; lia). simpl.
    rewrite !(proj2 (contains_true _ _ _)) by (unfold MAXIMUM_PAGE_COUNT; lia). simpl.
    rewrite (proj2 (Z.eqb_eq _ _)) by done. simpl.
    rewrite (proj2 (check_pages_Ok (report_pages r) 0 (report_maximum_page_pixels r) 0 0 (max_area (report_pages r)) (sum_areas (report_pages r))
      Hv ltac:(lia) ltac:(lia) ltac:(lia) ltac:(lia) ltac:(unfold MAXIMUM_PAGE_COUNT; lia)
      ltac:(unfold i64_max; lia))) by (split_and!; [done|lia..]).
    simpl. rewrite !(proj2 (Z.eqb_eq _ _)) by done. simpl. by destruct r.
Qed.

(** The store's own validation lets the pages of such a report through. *)
Lemma report_geometries_accepted r :
  report_ok r →
  valid_page_geometries (report_pages r) (report_page_count r) (report_maximum_page_pixels r)
    (report_total_page_pixels r) = true
  ∧ 1 ≤ report_maximum_page_pixels r ≤ 100000000
  ∧ report_maximum_page_pixels r ≤ report_total_page_pixels r ≤ MAXIMUM_TOTAL_PAGE_PIXELS.
Proof.
  intros [Hv Hnum Hc Hcb Hm Ht]. pose proof (sum_areas_bound _ Hv). pose proof (max_area_bounds _ Hv).
  unfold MAXIMUM_TOTAL_PAGE_PIXELS, MAXIMUM_PAGE_COUNT in *.
  pose proof (max_area_positive _ Hv ltac:(lia)).
  split; [|lia]. apply valid_page_geometries_true; [done|lia|]. by split_and!.
Qed.

(** ** Reading a report *)

Definition geometry_json (g : PageGeometry) : JsonGeometry :=
  mkJsonGeometry (PageNumber_value (geometry_page g)) (geometry_width g) (geometry_height g).

(** The JSON object that a report is read from. *)
Definition report_json (r : ParserInspectionReport) : JsonReport :=
  mkJsonReport (report_page_count r) (report_maximum_page_pixels r) (report_total_page_pixels r)
    (map geometry_json (report_pages r)) false.

Lemma PageGeometry_deserialize_valid g :
  geometry_valid g → in_width u32_max (PageNumber_value (geometry_page g)) →
  PageGeometry_deserialize (geometry_json g) = Ok g.
Proof.
  intros [(Hw & Hh & pg & w & h & Hw' & Hh' & Hn) Hp] Hpw. unfold PageGeometry_deserialize. simpl.
  rewrite !checked_in_width by done. simpl.
  unfold PageNumber_new. rewrite (proj2 (Z.eqb_neq _ _) Hp). simpl. unfold PageGeometry_try_from.
  simpl. pose proof Hn as Hn'. apply PageGeometry_new_Ok in Hn' as [-> Hb]; [|done..].
  simpl in *. destruct pg as [n]. simpl. by rewrite Hn.
Qed.

Lemma geometries_deserialize_valid index gs :
  Forall geometry_valid gs → numbered_from index gs → 0 ≤ index →
  index + zlen gs ≤ MAXIMUM_PAGE_COUNT →
  collect_results PageGeometry_deserialize (map geometry_json gs) = Ok gs.
Proof.
  unfold MAXIMUM_PAGE_COUNT.
  intros Hall. revert index. induction Hall as [|g gs Hg Hall IH]; intros index; [done|].
  simpl. intros [Hn Hnum] Hi Hlen. rewrite zlen_cons in Hlen. pose proof (zlen_nonneg gs).
  rewrite PageGeometry_deserialize_valid; [simpl|done|].
  - rewrite (IH (index + 1)); [done|done|lia|lia].
  - unfold in_width, u32_max. lia.
Qed.

(** The pages a report was read from are the ones the JSON lists. *)
Lemma geometries_deserialize_json jsons gs :
  collect_results PageGeometry_deserialize jsons = Ok gs → jsons = map geometry_json gs.
Proof.
  intros H%collect_results_Ok. induction H as [|j g js gs Hj _ IH]; [done|]. simpl.
  apply PageGeometry_deserialize_Ok in Hj as (_ & Hp & Hw & Hh). rewrite <- IH. f_equal.
  unfold geometry_json. rewrite Hp, Hw, Hh. by destruct j.
Qed.

Lemma parse_report_Ok (parse_report_json : list Z → option JsonReport) output r :
  parse_report parse_report_json output = Ok r ↔
  parse_report_json output = Some (report_json r) ∧ report_ok r.
Proof.
  unfold parse_report. rewrite and_then_Ok. split.
  - intros (json & Hj & H). apply ok_or_Ok in Hj. apply and_then_Ok in H as (w & Hw & H).
    unfold WireReport_deserialize in Hw.
    apply and_then_Ok in Hw as (c & Hc & Hw). apply ok_or_Ok, checked_Some in Hc as [-> Hc].
    apply and_then_Ok in Hw as (m & Hm & Hw). apply ok_or_Ok, checked_Some in Hm as [-> Hm].
    apply and_then_Ok in Hw as (t & Ht & Hw). apply ok_or_Ok, checked_Some in Ht as [-> Ht].
    apply and_then_Ok in Hw as (gs & Hgs & [= <-]).
    apply check_report_Ok in H as (Hpw & Hok & [= Hc' Hm' Ht' Hg' _]);
      [|by eapply geometries_deserialized]. simpl in Hpw.
    apply geometries_deserialize_json in Hgs. split; [|done]. rewrite Hj. f_equal.
    unfold report_json. destruct json; simpl in *; congruence.
  - intros [Hj Hok]. rewrite Hj. exists (report_json r). split; [done|].
    pose proof (report_geometries_accepted r Hok) as (_ & Hmb & Htb).
    destruct Hok as [Hv Hnum Hc Hcb Hm Ht] eqn:Heq. clear Heq.
    unfold WireReport_deserialize. simpl.
    unfold MAXIMUM_TOTAL_PAGE_PIXELS, MAXIMUM_PAGE_COUNT in *.
    rewrite !checked_in_width by (unfold in_width, u64_max; lia). simpl.
    rewrite (geometries_deserialize_valid 0) by (unfold MAXIMUM_PAGE_COUNT; done || lia). simpl.
    apply check_report_Ok; [done|]. by split_and!.
Qed.

(** C37: the service believes a parser report exactly when it is consistent.  Output of the
    parser is read as the report [r] precisely when it is a JSON object with the numbers
    and pages of [r], not password protected, in which there are 1 to 1000 pages numbered
    from 1 without gaps, every page has nonzero sides and at most 100 million pixels, and
    the maximum and the total are those of the pages; nothing overflows, and any other
    output is an error. *)
Theorem parse_report_exact (parse_report_json : list Z → option JsonReport) output r :
  parse_report parse_report_json output = Ok r ↔
  parse_report_json output = Some (report_json r) ∧ report_ok r.
Proof. apply parse_report_Ok. Qed.

(** What [inspect] returns is such a report, within the configured limits. *)
Lemma inspect_report_ok spawn parse_report_json self encoded content_type r :
  ParserProcess_inspect spawn parse_report_json self encoded content_type = Ok r →
  report_ok r ∧ report_page_count r ≤ maximum_pages self.
Proof.
  unfold ParserProcess_inspect. intros (output & _ & H)%and_then_Ok.
  apply and_then_Ok in H as (report & [_ Hok]%parse_report_Ok & H).
  destruct (_ || _) eqn:Hlim; [done|]. injection H as <-.
  rewrite !orb_false_iff, !Z.ltb_ge in Hlim. split; [done|]. apply Hlim.
Qed.
