(* ===== verification/StorageFacts.v ===== *)
(** * StorageFacts: what a verified read guarantees

    The readers return exactly the announced bytes, however the store answers and
    however it cuts its stream into chunks; the promoter only reports objects that the
    store of uploads will accept. *)

From S2P Require Import Prelude Text DomainTypes Identifiers Digest StoreTypes StoreChecks.
From S2P Require Import ParserProcess ParserProcessFacts Importer Storage Promotion.

#[local] Open Scope list_scope.
#[local] Open Scope Z_scope.

#[local] Arguments sha256_digest : simpl never.
#[local] Arguments String.eqb : simpl never.
#[local] Arguments detect_content_type : simpl never.

(** ** Streams *)

Lemma zlen_take_drop {A} (n : nat) (l : list A) : zlen l = zlen (take n l) + zlen (drop n l).
Proof. rewrite <- zlen_app. by rewrite take_drop. Qed.

(** The bounded loop returns all the bytes of the stream, unless there are too many. *)
Lemma collect_chunks_Ok capacity bytes chunks out :
  zlen bytes ≤ capacity → capacity < usize_max →
  collect_chunks capacity bytes chunks = Ok out ↔
  ∃ more, stream_bytes chunks = Ok more ∧ out = bytes ++ more ∧ zlen out ≤ capacity.
Proof.
  intros Hb Hc. revert bytes Hb. induction chunks as [|chunk rest IH]; intros bytes Hb; simpl.
  - split; [intros [= <-]; exists []; by rewrite app_nil_r|].
    intros (more & [= <-] & -> & _). by rewrite app_nil_r.
  - destruct chunk as [chunk|e]; simpl; [|naive_solver].
    unfold saturating_add. pose proof (zlen_nonneg chunk). pose proof (zlen_nonneg bytes).
    destruct (Z.ltb_spec capacity (Z.min (zlen bytes + zlen chunk) usize_max)) as [Hlt|Hge].
    + split; [done|]. intros (more & Hm & -> & Hle). exfalso.
      apply and_then_Ok in Hm as (m & _ & [= <-]). rewrite !zlen_app in Hle.
      pose proof (zlen_nonneg m). lia.
    + rewrite IH by (rewrite zlen_app; lia). split.
      * intros (more & Hm & -> & Hle). exists (chunk ++ more). rewrite Hm. simpl.
        rewrite <- app_assoc in *. done.
      * intros (more & Hm & -> & Hle). apply and_then_Ok in Hm as (m & Hm & [= <-]).
        exists m. by rewrite <- app_assoc.
Qed.

Section Reads.
Context (sha256 : list Z → list Z).

(** [bytes] are the announced ones. *)
Definition verified (length : Z) (digest : string) (bytes : list Z) : Prop :=
  zlen bytes = length ∧ length ≤ MAXIMUM_UPLOAD_BYTES ∧ sha256_digest (sha256 bytes) = digest.

Lemma collect_verified_Ok length digest size chunks bytes :
  collect_verified sha256 length digest size chunks = Ok bytes ↔
  size = length ∧ stream_bytes chunks = Ok bytes ∧ verified length digest bytes.
Proof.
  unfold collect_verified, verified. pose proof (zlen_nonneg bytes).
  assert (MAXIMUM_UPLOAD_BYTES < usize_max) as Hmax by done.
  rewrite (checked_in_width u64_max MAXIMUM_UPLOAD_BYTES) by done. simpl.
  destruct (checked u64_max length) as [n|] eqn:Hn; simpl.
  - apply checked_Some in Hn as [-> Hn].
    destruct (Z.eqb_spec size length) as [->|]; simpl; [|naive_solver].
    destruct (Z.ltb_spec MAXIMUM_UPLOAD_BYTES length); [naive_solver lia|].
    rewrite checked_in_width by done. simpl. rewrite and_then_Ok.
    assert (zlen (@nil Z) ≤ length) as Hnil by (rewrite zlen_nil; unfold in_width in Hn; lia).
    split.
    + intros (out & Hout & H'). apply collect_chunks_Ok in Hout as (more & Hm & -> & Hle);
        [|done|lia].
      simpl in *. destruct (Z.eqb_spec (zlen more) length); simpl in H'; [|done].
      destruct (String.eqb_spec (sha256_digest (sha256 more)) digest); simpl in H'; [|done].
      injection H' as <-. by split_and!.
    + intros (_ & Hs & Hl & _ & Hd). exists bytes. split.
      * apply collect_chunks_Ok; [done|lia|]. exists bytes. split_and!; [done|reflexivity|lia].
      * rewrite Hl, Z.eqb_refl. simpl. by rewrite Hd, String.eqb_refl.
  - apply checked_None in Hn. split; [done|]. intros (_ & _ & Hl & Hle & _). exfalso. apply Hn.
    unfold in_width, u64_max. unfold MAXIMUM_UPLOAD_BYTES in Hle. lia.
Qed.

(** The loop of [verify_stream] sees the whole stream and its first twelve bytes. *)
Lemma count_chunks_Ok maximum expected count prefix hashed chunks out :
  count = zlen hashed → prefix = take 12 hashed → expected < u64_max → count ≤ expected →
  count ≤ maximum →
  count_chunks maximum expected count prefix hashed chunks = Ok out ↔
  ∃ more, stream_bytes chunks = Ok more
    ∧ out = (zlen (hashed ++ more), take 12 (hashed ++ more), hashed ++ more)
    ∧ zlen (hashed ++ more) ≤ expected ∧ zlen (hashed ++ more) ≤ maximum.
Proof.
  intros -> -> He. revert hashed. induction chunks as [|chunk rest IH]; intros hashed Hle Hmx; simpl.
  - split; [intros [= <-]; exists []; by rewrite app_nil_r|].
    intros (more & [= <-] & -> & _). by rewrite app_nil_r.
  - destruct chunk as [chunk|e]; simpl; [|naive_solver].
    pose proof (zlen_nonneg chunk). pose proof (zlen_nonneg hashed).
    assert (Hpre : (if zlen (take 12 hashed) <? 12
      then take 12 hashed ++ take (Z.to_nat (Z.min (zlen chunk) (12 - zlen (take 12 hashed)))) chunk
      else take 12 hashed) = take 12 (hashed ++ chunk)).
    { rewrite take_app. unfold zlen in *. rewrite length_take.
      destruct (Z.ltb_spec (Z.of_nat (Nat.min 12 (length hashed))) 12) as [Hlt|Hge].
      - f_equal. destruct (decide (length chunk ≤ 12 - length hashed)%nat).
        + rewrite !take_ge by lia. done.
        + f_equal. lia.
      - replace (12 - length hashed)%nat with 0%nat by lia. by rewrite take_0, app_nil_r. }
    unfold checked_add, checked.
    destruct (Z.leb_spec 0 (zlen hashed + zlen chunk)); simpl; [|lia].
    assert (Hsum : ∀ m, stream_bytes rest = Ok m →
      zlen hashed + zlen chunk ≤ zlen (hashed ++ chunk ++ m)).
    { intros m _. rewrite !zlen_app. pose proof (zlen_nonneg m). lia. }
    assert (Hbig : expected < zlen hashed + zlen chunk ∨ maximum < zlen hashed + zlen chunk →
      ¬ ∃ more, (let? more := stream_bytes rest in Ok (chunk ++ more)) = Ok more
        ∧ out = (zlen (hashed ++ more), take 12 (hashed ++ more), hashed ++ more)
        ∧ zlen (hashed ++ more) ≤ expected ∧ zlen (hashed ++ more) ≤ maximum).
    { intros Hb (more & Hm & _ & Hl1 & Hl2). apply and_then_Ok in Hm as (m & Hm & [= <-]).
      specialize (Hsum _ Hm). lia. }
    destruct (Z.leb_spec (zlen hashed + zlen chunk) u64_max); simpl; [|naive_solver lia].
    destruct (_ || _) eqn:Hc.
    + apply orb_true_iff in Hc. rewrite !Z.ltb_lt in Hc. naive_solver lia.
    + apply orb_false_iff in Hc as [Hc1%Z.ltb_ge Hc2%Z.ltb_ge].
      rewrite Hpre, <- zlen_app, IH by (rewrite zlen_app; lia). split.
      * intros (m & Hm & -> & Hl). exists (chunk ++ m). rewrite Hm. simpl.
        rewrite <- app_assoc in *. done.
      * intros (more & Hm & -> & Hl). apply and_then_Ok in Hm as (m & Hm & [= <-]).
        exists m. by rewrite <- app_assoc.
Qed.

Lemma verify_stream_Ok upload generation size chunks v :
  verify_stream sha256 upload generation size chunks = Ok v ↔
  ∃ bytes, size = su_expected_content_length upload ∧ stream_bytes chunks = Ok bytes
    ∧ verified (su_expected_content_length upload) (su_expected_digest upload) bytes
    ∧ detect_content_type (take 12 bytes) = Some (su_expected_content_type upload)
    ∧ v = {| verified_object_version := generation;
             verified_content_type := su_expected_content_type upload;
             verified_content_length := su_expected_content_length upload;
             verified_digest := su_expected_digest upload |}.
Proof.
  unfold verify_stream, verified. set (length := su_expected_content_length upload).
  assert (MAXIMUM_UPLOAD_BYTES < i64_max ∧ i64_max < u64_max) as [Hmax Hmax'] by done.
  rewrite (checked_in_width u64_max MAXIMUM_UPLOAD_BYTES) by done. simpl.
  destruct (checked u64_max length) as [n|] eqn:Hn; simpl.
  - apply checked_Some in Hn as [-> Hn]. unfold in_width in Hn.
    destruct (Z.eqb_spec size length) as [->|]; simpl; [|naive_solver].
    destruct (Z.ltb_spec MAXIMUM_UPLOAD_BYTES length); [naive_solver lia|].
    rewrite and_then_Ok. split.
    + intros ([[count prefix] hashed] & Hc & H').
      apply count_chunks_Ok in Hc as (bytes & Hs & [= -> -> ->] & Hle & _); [|done|done|lia..].
      simpl in *. apply and_then_Ok in H' as (ct & Hct%ok_or_Ok & H').
      destruct (_ || _) eqn:Hbad; [done|].
      rewrite !orb_false_iff, !negb_false_iff, !String.eqb_eq, Z.eqb_eq in Hbad.
      destruct Hbad as ((Hl & ->) & Hd). rewrite Hl in H'.
      apply and_then_Ok in H' as (k & Hk%ok_or_Ok%checked_Some & [= <-]). destruct Hk as [-> _].
      exists bytes. rewrite Hd. by split_and!.
    + intros (bytes & _ & Hs & (Hl & _ & Hd) & Hct & ->).
      exists (zlen bytes, take 12 bytes, bytes). split.
      * apply count_chunks_Ok; [done|done|lia|simpl; lia|simpl; lia|].
        exists bytes. simpl. split_and!; [done|done|lia|lia].
      * rewrite Hct. simpl. rewrite Hl, Z.eqb_refl, Hd, !String.eqb_refl. simpl.
        by rewrite checked_in_width by (unfold in_width; lia).
  - apply checked_None in Hn. split; [done|]. intros (bytes & _ & _ & (Hl & Hle & _) & _).
    exfalso. apply Hn. unfold in_width, u64_max. unfold MAXIMUM_UPLOAD_BYTES in Hle.
    pose proof (zlen_nonneg bytes). lia.
Qed.
End Reads.
