(* ===== verification/PromotionFacts.v ===== *)
(** * PromotionFacts: verified reads and sound promotion

    The readers of documents return exactly the announced bytes; the promoter reports
    only objects at the address that belongs to the upload, with the announced digest
    and length, which the store of uploads accepts, and which it has read back or, given
    what Google documents of its rewrite calls ([PromotionServices]), had copied from
    the generation of the upload; it never replaces an object. *)

From S2P Require Import Prelude Text DomainTypes Identifiers Digest StoreTypes StoreChecks.
From S2P Require Import ParserProcess ParserProcessFacts Importer Storage Promotion StorageFacts.

#[local] Open Scope list_scope.
#[local] Open Scope Z_scope.

#[local] Arguments sha256_digest : simpl never.
#[local] Arguments String.eqb : simpl never.
#[local] Arguments valid_object_version : simpl never.
#[local] Arguments source_object : simpl never.
#[local] Arguments quarantine_object : simpl never.

(** ** Lengths of locations *)

Lemma dns_name_length v : dns_name v = true → 3 ≤ strlen v ≤ 63.
Proof. unfold dns_name. rewrite !andb_true_iff, contains_true. tauto. Qed.

Lemma location_length v : is_bucket_name v = true → 3 ≤ strlen v ≤ 222.
Proof.
  unfold is_bucket_name, is_storage_location. rewrite bool_decide_eq_true.
  intros [l Hl]. unfold location in Hl.
  destruct (Text.strip_prefix "s3://" v) as [bucket|] eqn:H3.
  - apply strip_prefix_Some in H3 as ->. destruct (dns_name bucket) eqn:Hd; [|done].
    apply dns_name_length in Hd. rewrite strlen_append. change (strlen "s3://") with 5. lia.
  - destruct (Text.strip_prefix "az://" v) as [azure|] eqn:Ha.
    + apply strip_prefix_Some in Ha as ->.
      destruct (split_once "/" azure) as [[account container]|] eqn:Hs; [|done].
      apply split_once_Some in Hs as ->.
      destruct (contains 3 24 (strlen account)) eqn:Hc; [|done]. apply contains_true in Hc.
      destruct (dns_name container) eqn:Hd; [|by rewrite andb_false_r in Hl].
      apply dns_name_length in Hd. rewrite !strlen_append, (strlen_cons "/" container).
      change (strlen "az://") with 5. lia.
    + destruct (dns_name (default v _)) eqn:Hd; [|done]. apply dns_name_length in Hd.
      destruct (Text.strip_prefix "gs://" v) as [bucket|] eqn:Hg; simpl in Hd; [|lia].
      apply strip_prefix_Some in Hg as ->. rewrite strlen_append. change (strlen "gs://") with 5. lia.
Qed.

(** ** Names and generations *)

Lemma validated_id_length value prefix e s :
  validated_id value prefix e = Ok s → strlen s ≤ strlen prefix + 64.
Proof.
  unfold validated_id. destruct (Text.strip_prefix prefix value) as [suffix|] eqn:Hp; simpl.
  - apply strip_prefix_Some in Hp as ->. destruct (_ && _) eqn:Hc; [|done]. intros [= <-].
    rewrite !andb_true_iff, Z.leb_le in Hc. rewrite strlen_append. lia.
  - done.
Qed.

Lemma TenantId_length (t : TenantId) : id_valid t → strlen (TenantId_str t) ≤ 68.
Proof.
  unfold id_valid. simpl. unfold TenantId_new. rewrite and_then_Ok. intros (s & Hs & [= <-]).
  apply validated_id_length in Hs. change (strlen "ten_") with 4 in Hs. simpl in *. lia.
Qed.

Lemma ProductId_length (p : ProductId) : id_valid p → strlen (ProductId_str p) ≤ 63.
Proof.
  unfold id_valid. simpl. unfold ProductId_new. destruct (_ && _) eqn:Hc; [|done]. intros _.
  rewrite !andb_true_iff, Z.leb_le in Hc. lia.
Qed.

Lemma source_object_length p t digest :
  id_valid p → id_valid t → strlen digest = 64 →
  is_empty (source_object p t digest) = false ∧ strlen (source_object p t digest) ≤ 1024.
Proof.
  intros Hp%ProductId_length Ht%TenantId_length Hd. split; [done|]. unfold source_object.
  rewrite !strlen_append, Hd. unfold strlen at 1 3 5. simpl. lia.
Qed.

Lemma show_dec_version n : 0 ≤ n ≤ u64_max → valid_object_version (show_dec n) = true.
Proof.
  intros Hn. unfold valid_object_version. rewrite !andb_true_iff, !negb_true_iff, Z.leb_le.
  pose proof (show_dec_nonempty n). pose proof (show_go_length 20 n "") as Hlen.
  pose proof (show_dec_digits n ltac:(lia)) as Hdig. split_and!.
  - by apply is_empty_false.
  - unfold show_dec. unfold strlen in *. simpl in *. lia.
  - destruct (String.eqb_spec (show_dec n) "null") as [He|]; [|done].
    rewrite He in Hdig. done.
  - eapply all_bytes_impl; [|done]. intros a. unfold is_ascii_digit, is_ascii_graphic.
    rewrite !contains_true. lia.
Qed.

(** ** The readers *)

Section Readers.
Context (sha256 : list Z → list Z) (path_valid : string → bool).
Context {G : Type}.

(** The store was asked for [name] at [version] and answered with [bytes]. *)
Definition fetched (store : ObjectStore G) (name : string) (version : option string) (g : G)
    (found : GetResult) (bytes : list Z) (g' : G) : Prop :=
  path_valid name = true ∧ get_opts store name version g = (Ok found, g')
  ∧ meta_size found = zlen bytes ∧ stream_bytes (stream found) = Ok bytes.

(** Both sides of an equivalence are false. *)
Ltac refuse :=
  split; [discriminate|];
  intros; repeat match goal with
  | H : ∃ _, _ |- _ => destruct H
  | H : _ ∧ _ |- _ => destruct H
  end; unfold fetched in *; repeat match goal with H : _ ∧ _ |- _ => destruct H end; congruence.

Lemma read_upload_Ok stores upload g bytes g' :
  read_upload sha256 path_valid stores upload g = (Ok bytes, g') ↔
  ∃ store generation found,
    su_state upload = UploadState.Inspecting ∧ su_object_version upload = Some generation
    ∧ valid_object_version generation = true
    ∧ stores !! su_object_bucket upload = Some store
    ∧ fetched store (su_object_name upload) (Some generation) g found bytes g'
    ∧ meta_version found = Some generation
    ∧ verified sha256 (su_expected_content_length upload) (su_expected_digest upload) bytes.
Proof.
  unfold read_upload. destruct (decide (su_state upload = UploadState.Inspecting)) as [Hs|Hs].
  - rewrite bool_decide_eq_true_2 by done. simpl.
    destruct (su_object_version upload) as [gen|]; [|refuse].
    destruct (valid_object_version gen) eqn:Hg; simpl; [|refuse].
    destruct (stores !! su_object_bucket upload) as [store|]; [|refuse].
    destruct (path_valid (su_object_name upload)) eqn:Hp; simpl; [|refuse].
    destruct (get_opts store _ _ g) as [[found|e] g1] eqn:Hget; [|refuse].
    destruct (decide (meta_version found = Some gen)) as [Hm|Hm].
    + rewrite bool_decide_eq_true_2 by done. simpl. split.
      * intros [= Hc <-]. apply collect_verified_Ok in Hc as (Hsz & Hst & Hv).
        exists store, gen, found. unfold fetched. split_and!; try done. by rewrite Hsz, (proj1 Hv).
      * intros (store' & gen' & found' & _ & [= <-] & _ & [= <-] & (_ & Hg' & Hsz & Hst) & _ & Hv).
        rewrite Hget in Hg'. injection Hg' as <- <-. f_equal. apply collect_verified_Ok.
        rewrite Hsz. by rewrite (proj1 Hv).
    + rewrite bool_decide_eq_false_2 by done. simpl. refuse.
  - rewrite bool_decide_eq_false_2 by done. simpl. refuse.
Qed.

Lemma read_accepted_source_Ok routes p t source g bytes g' :
  read_accepted_source sha256 path_valid routes p t source g = (Ok bytes, g') ↔
  ∃ route digest found,
    routes !! ProductId_str p = Some route ∧ as_bucket source = source_route_bucket route
    ∧ as_digest source = "sha256:" +:+ digest ∧ as_object_name source = source_object p t digest
    ∧ fetched (source_route_store route) (as_object_name source) (Some (as_generation source)) g
        found bytes g'
    ∧ meta_version found = Some (as_generation source)
    ∧ verified sha256 (as_content_length source) (as_digest source) bytes.
Proof.
  unfold read_accepted_source.
  destruct (routes !! ProductId_str p) as [route|]; [|refuse].
  destruct (Text.strip_prefix "sha256:" (as_digest source)) as [digest|] eqn:Hd.
  - apply strip_prefix_Some in Hd. destruct (_ || _ || _) eqn:Hbad.
    + split; [done|]. intros (r' & d' & f' & [= <-] & Hb & Hd' & Hn & (Hp & _) & _). exfalso.
      assert (d' = digest) as ->.
      { rewrite Hd in Hd'. apply (f_equal (Text.strip_prefix "sha256:")) in Hd'.
        rewrite !strip_prefix_append in Hd'. congruence. }
      by rewrite Hb, <- Hn, Hp, !String.eqb_refl in Hbad.
    + rewrite !orb_false_iff, !negb_false_iff, !String.eqb_eq in Hbad.
      destruct Hbad as ((Hb & Hn) & Hp).
      destruct (get_opts _ _ _ g) as [[found|e] g1] eqn:Hget; [|refuse].
      destruct (decide (meta_version found = Some (as_generation source))) as [Hm|Hm].
      * rewrite bool_decide_eq_true_2 by done. simpl. split.
        -- intros [= Hc%map_err_Ok <-]. apply collect_verified_Ok in Hc as (Hsz & Hst & Hv).
           exists route, digest, found. unfold fetched. split_and!; try done. by rewrite Hsz, (proj1 Hv).
        -- intros (r' & d' & found' & [= <-] & _ & _ & _ & (_ & Hg' & Hsz & Hst) & _ & Hv).
           rewrite Hget in Hg'. injection Hg' as <- <-. f_equal. apply map_err_Ok, collect_verified_Ok.
           rewrite Hsz. by rewrite (proj1 Hv).
      * rewrite bool_decide_eq_false_2 by done. simpl. refuse.
  - split; [done|]. intros (r' & d' & f' & _ & _ & Hd' & _). rewrite Hd', strip_prefix_append in Hd. done.
Qed.

Lemma verify_upload_Ok stores upload g v g' :
  verify_upload sha256 path_valid stores upload g = (Ok v, g') ↔
  ∃ store generation found bytes,
    valid_object_version generation = true ∧ stores !! su_object_bucket upload = Some store
    ∧ fetched store (su_object_name upload) None g found bytes g'
    ∧ meta_version found = Some generation
    ∧ verified sha256 (su_expected_content_length upload) (su_expected_digest upload) bytes
    ∧ detect_content_type (take 12 bytes) = Some (su_expected_content_type upload)
    ∧ v = {| verified_object_version := generation;
             verified_content_type := su_expected_content_type upload;
             verified_content_length := su_expected_content_length upload;
             verified_digest := su_expected_digest upload |}.
Proof.
  unfold verify_upload. destruct (stores !! su_object_bucket upload) as [store|]; [|refuse].
  destruct (path_valid (su_object_name upload)) eqn:Hp; simpl; [|refuse].
  destruct (get_opts store _ _ g) as [[found|e] g1] eqn:Hget; [|refuse].
  destruct (meta_version found) as [gen|] eqn:Hm; [|refuse].
  destruct (valid_object_version gen) eqn:Hg; simpl; [|refuse]. split.
  - intros [= Hv <-]. apply verify_stream_Ok in Hv as (bytes & Hsz & Hst & Hv & Hct & ->).
    exists store, gen, found, bytes. unfold fetched. split_and!; try done. by rewrite Hsz, (proj1 Hv).
  - intros (s' & gen' & f' & bytes & _ & [= <-] & (_ & Hg' & Hsz & Hst) & Hm' & Hv & Hct & ->).
    rewrite Hget in Hg'. injection Hg' as <- <-. rewrite Hm in Hm'. injection Hm' as ->.
    f_equal. apply verify_stream_Ok. exists bytes. rewrite Hsz, (proj1 Hv). by split_and!.
Qed.
End Readers.

(** A reader returns the announced bytes or nothing.  Whatever a store answers and
    however it cuts its stream, reading an upload for inspection, reading an accepted
    source and verifying an uploaded object succeed exactly when the store delivers a
    whole stream of the announced length, at most 100 MiB, with the announced digest,
    from the recorded generation (for a new upload: any valid generation, and a media
    type by its first bytes that is the announced one), at an address that the routes
    and the identifiers determine. *)
Theorem reads_are_verified {G : Type} (sha256 : list Z → list Z) (path_valid : string → bool)
    (g g' : G) :
  (∀ stores upload bytes, read_upload sha256 path_valid stores upload g = (Ok bytes, g') ↔
    ∃ store generation found,
      su_state upload = UploadState.Inspecting ∧ su_object_version upload = Some generation
      ∧ valid_object_version generation = true
      ∧ stores !! su_object_bucket upload = Some store
      ∧ fetched path_valid store (su_object_name upload) (Some generation) g found bytes g'
      ∧ meta_version found = Some generation
      ∧ verified sha256 (su_expected_content_length upload) (su_expected_digest upload) bytes)
  ∧ (∀ routes p t source bytes,
      read_accepted_source sha256 path_valid routes p t source g = (Ok bytes, g') ↔
    ∃ route digest found,
      routes !! ProductId_str p = Some route ∧ as_bucket source = source_route_bucket route
      ∧ as_digest source = "sha256:" +:+ digest ∧ as_object_name source = source_object p t digest
      ∧ fetched path_valid (source_route_store route) (as_object_name source)
          (Some (as_generation source)) g found bytes g'
      ∧ meta_version found = Some (as_generation source)
      ∧ verified sha256 (as_content_length source) (as_digest source) bytes)
  ∧ (∀ stores upload v, verify_upload sha256 path_valid stores upload g = (Ok v, g') ↔
    ∃ store generation found bytes,
      valid_object_version generation = true ∧ stores !! su_object_bucket upload = Some store
      ∧ fetched path_valid store (su_object_name upload) None g found bytes g'
      ∧ meta_version found = Some generation
      ∧ verified sha256 (su_expected_content_length upload) (su_expected_digest upload) bytes
      ∧ detect_content_type (take 12 bytes) = Some (su_expected_content_type upload)
      ∧ v = {| verified_object_version := generation;
               verified_content_type := su_expected_content_type upload;
               verified_content_length := su_expected_content_length upload;
               verified_digest := su_expected_digest upload |}).
Proof.
  split_and!; intros; [apply read_upload_Ok|apply read_accepted_source_Ok|apply verify_upload_Ok].
Qed.

(** ** Promotion *)

(** What the importer may rely on: the source is the upload's, at its own address. *)
Record promoted_ok (p : ProductId) (t : TenantId) (upload : StoredUpload) (s : PromotedSource)
    : Prop := {
  promoted_same_digest : promoted_digest s = su_expected_digest upload;
  promoted_same_length : promoted_content_length s = su_expected_content_length upload;
  promoted_length_bounds : 1 ≤ promoted_content_length s ≤ 104857600;
  promoted_valid_digest : valid_digest (promoted_digest s) = true;
  promoted_valid_generation : valid_object_version (promoted_generation s) = true;
  promoted_bucket_length : 3 ≤ strlen (promoted_bucket s) ≤ 222;
  promoted_name_length : is_empty (promoted_object_name s) = false
    ∧ strlen (promoted_object_name s) ≤ 1024;
  promoted_address : ∃ digest, promoted_digest s = "sha256:" +:+ digest
    ∧ promoted_object_name s = source_object p t digest;
}.

Section Promotion.
Context (sha256 : list Z → list Z) (path_valid : string → bool).
Context {G : Type}.
Context (credential : G → option string * G).
Context (post : RewriteUrl → string → G → option HttpResponse * G).
Context (parse_rewrite : list Z → option RewriteResponse).

Lemma hash_chunks_Ok expected length hashed chunks out :
  length = zlen hashed → length ≤ expected →
  hash_chunks expected length hashed chunks = Ok out →
  ∃ more, stream_bytes chunks = Ok more ∧ out = (zlen (hashed ++ more), hashed ++ more).
Proof.
  intros -> Hle. revert hashed Hle. induction chunks as [|chunk rest IH]; intros hashed Hle; simpl.
  - intros [= <-]. exists []. by rewrite app_nil_r.
  - destruct chunk as [chunk|e]; simpl; [|done].
    unfold checked_add. destruct (checked _ _) as [n|] eqn:Hn; simpl; [|done].
    apply checked_Some in Hn as [-> _]. rewrite <- zlen_app.
    destruct (Z.ltb_spec expected (zlen (hashed ++ chunk))); [done|].
    intros (m & Hm & ->)%IH; [|done]. exists (chunk ++ m). rewrite Hm, <- app_assoc. done.
Qed.

(** The object at the destination, read back whole. *)
Definition read_back (route : PromotionRoute G) (s : PromotedSource) (g' : G) : Prop :=
  ∃ g found bytes,
    fetched path_valid (route_destination route) (promoted_object_name s) None g found bytes g'
    ∧ meta_version found = Some (promoted_generation s)
    ∧ zlen bytes = promoted_content_length s
    ∧ sha256_digest (sha256 bytes) = promoted_digest s.

Lemma verify_existing_Ok (route : PromotionRoute G) name digest length g s g' :
  verify_existing sha256 path_valid route name digest length g = (Ok s, g') →
  promoted_bucket s = destination_bucket route ∧ promoted_object_name s = name
  ∧ promoted_digest s = digest ∧ promoted_content_length s = length
  ∧ valid_object_version (promoted_generation s) = true ∧ read_back route s g'.
Proof.
  unfold verify_existing. destruct (path_valid name) eqn:Hp; simpl; [|done].
  destruct (get_opts _ name None g) as [[found|e] g1] eqn:Hget; [|done]. intros [= H <-].
  apply and_then_Ok in H as (generation & Hgen%ok_or_Ok & H).
  destruct (meta_version found) as [v|] eqn:Hm; [|done].
  destruct (valid_object_version v) eqn:Hv; [|done]. injection Hgen as ->.
  apply and_then_Ok in H as (n & Hn%ok_or_Ok%checked_Some & H). destruct Hn as [-> Hn].
  destruct (Z.eqb_spec (meta_size found) length) as [Hsz|]; simpl in H; [|done].
  apply and_then_Ok in H as ([count hashed] & Hh & H).
  apply hash_chunks_Ok in Hh as (bytes & Hst & [= -> ->]); [|done|unfold in_width in Hn; simpl; lia].
  simpl in H. destruct (Z.eqb_spec (zlen bytes) length) as [Hl|]; simpl in H; [|done].
  destruct (String.eqb_spec (sha256_digest (sha256 bytes)) digest) as [Hd|]; simpl in H; [|done].
  injection H as <-. simpl. split_and!; try done.
  exists g, found, bytes. unfold fetched. simpl. split_and!; try done. congruence.
Qed.

Lemma promote_stream_Ok (route : PromotionRoute G) upload name version g s g' :
  promote_stream sha256 path_valid route upload name version g = (Ok s, g') →
  ∃ g1, verify_existing sha256 path_valid route name (su_expected_digest upload)
          (su_expected_content_length upload) g1 = (Ok s, g').
Proof.
  unfold promote_stream. destruct (same_provider _ _); simpl; [|done].
  destruct (path_valid _); simpl; [|done].
  destruct (get_opts _ _ _ g) as [[source|e] g1]; [|done].
  destruct (bool_decide _); simpl; [|done].
  destruct (collect_verified _ _ _ _ _) as [bytes|[]]; [|done..].
  destruct (path_valid _); simpl; [|done].
  destruct (put_create _ _ _ g1) as [[u|[]] g2]; intros H; try done; by exists g2.
Qed.

Lemma promoted_resource_Ok (route : PromotionRoute G) upload name found s :
  promoted_resource route upload name found = Ok s →
  promoted_bucket s = destination_bucket route ∧ promoted_object_name s = name
  ∧ promoted_digest s = su_expected_digest upload
  ∧ promoted_content_length s = su_expected_content_length upload
  ∧ valid_object_version (promoted_generation s) = true.
Proof.
  unfold promoted_resource. intros H. apply and_then_Ok in H as (r & _ & H).
  apply and_then_Ok in H as (gen & Hgen%ok_or_Ok & H).
  apply and_then_Ok in H as (len & _ & H).
  destruct (parse_i64 (resource_generation r)) as [v|] eqn:Hv; [|done].
  apply parse_i64_range in Hv. destruct (Z.ltb_spec 0 v); [|done]. injection Hgen as ->.
  destruct (_ || _) eqn:Hbad; [done|].
  rewrite !orb_false_iff, !negb_false_iff, !String.eqb_eq, Z.eqb_eq in Hbad.
  injection H as <-. simpl. split_and!; try tauto.
  apply show_dec_version. unfold i64_max, u64_max in *. lia.
Qed.

Lemma rewrite_calls_Ok calls url (route : PromotionRoute G) upload name generation bearer token g s g' :
  rewrite_calls sha256 path_valid post parse_rewrite calls url route upload name generation bearer
    token g = (Ok s, g') →
  promoted_bucket s = destination_bucket route ∧ promoted_object_name s = name
  ∧ promoted_digest s = su_expected_digest upload
  ∧ promoted_content_length s = su_expected_content_length upload
  ∧ valid_object_version (promoted_generation s) = true.
Proof.
  revert token g. induction calls as [|calls IH]; intros token g; simpl; [done|].
  destruct (parse_i64 generation) as [n|]; [|done].
  destruct (post _ bearer g) as [[response|] g1]; [|done].
  destruct (_ =? 412).
  { intros (? & ? & ? & ? & ? & _)%verify_existing_Ok. by split_and!. }
  destruct (_ || _); [done|]. destruct (negb _); [done|].
  destruct (and_then _ _) as [answer|]; [|done]. destruct (rewrite_done answer).
  - intros [= H <-]. by eapply promoted_resource_Ok.
  - destruct (rewrite_token answer) as [next|]; [|done]. destruct (_ && _); [|done]. apply IH.
Qed.

Lemma promotion_plan_Ok (routes : gmap string (PromotionRoute G)) p t upload generation route name :
  promotion_plan routes p t upload = Ok (generation, route, name) →
  routes !! su_object_bucket upload = Some route
  ∧ 1 ≤ su_expected_content_length upload ≤ MAXIMUM_UPLOAD_BYTES
  ∧ valid_digest (su_expected_digest upload) = true
  ∧ ∃ digest, su_expected_digest upload = "sha256:" +:+ digest ∧ strlen digest = 64
      ∧ name = source_object p t digest.
Proof.
  unfold promotion_plan. intros H. apply and_then_Ok in H as (gen & _ & H).
  apply and_then_Ok in H as (r & Hr%ok_or_Ok & H).
  apply and_then_Ok in H as (digest & Hd%ok_or_Ok & H).
  destruct (Text.strip_prefix "sha256:" (su_expected_digest upload)) as [d|] eqn:Hp; [|done].
  destruct (lower_digest d) eqn:Hl; [|done]. injection Hd as ->.
  destruct (_ || _) eqn:Hbad; [done|]. injection H as -> -> <-.
  rewrite !orb_false_iff, !negb_false_iff, contains_true in Hbad.
  split_and!; [done|apply Hbad|apply Hbad| |].
  - unfold valid_digest. rewrite Hp. simpl. unfold lower_digest in Hl. done.
  - apply strip_prefix_Some in Hp. exists digest. unfold lower_digest in Hl.
    rewrite andb_true_iff, Z.eqb_eq in Hl. by destruct Hl.
Qed.

Lemma configure_routes_ok build (configured : gmap string (PromotionRoute G)) destinations routes out :
  (∀ k r, configured !! k = Some r → is_bucket_name (destination_bucket r) = true) →
  configure_routes build configured destinations routes = Ok out →
  ∀ k r, out !! k = Some r → is_bucket_name (destination_bucket r) = true.
Proof.
  revert configured destinations. induction routes as [|[a b] routes IH]; intros configured dests Hok; simpl.
  - by intros [= <-].
  - destruct (_ || _) eqn:Hbad; [done|]. rewrite !orb_false_iff, !negb_false_iff in Hbad.
    intros H. apply and_then_Ok in H as (source & _ & H). apply and_then_Ok in H as (store & _ & H).
    revert H. apply IH. intros k r [[<- <-]|[_ Hk]]%lookup_insert_Some; [|by eapply Hok].
    simpl. apply Hbad.
Qed.

Lemma promote_Ok build entries configured url p t upload g s g' :
  GcsSourcePromoter_new build entries = Ok configured → id_valid p → id_valid t →
  promote sha256 path_valid credential post parse_rewrite url configured p t upload g = (Ok s, g') →
  promoted_ok p t upload s
  ∧ ∃ route, configured !! su_object_bucket upload = Some route
      ∧ promoted_bucket s = destination_bucket route
      ∧ (is_gcs (provider (route_source route)) = false → read_back route s g').
Proof.
  intros Hnew Hp Ht. unfold promote. generalize MAXIMUM_REWRITE_CALLS as calls. intros calls.
  destruct (promotion_plan configured p t upload) as [[[generation route] name]|] eqn:Hplan; [|done].
  apply promotion_plan_Ok in Hplan as (Hr & Hlen & Hdig & digest & Hd & Hd64 & ->).
  assert (Hbucket : 3 ≤ strlen (destination_bucket route) ≤ 222).
  { apply location_length. unfold GcsSourcePromoter_new in Hnew. destruct (_ =? 0); [done|].
    by eapply (configure_routes_ok build ∅ ∅); [|done|done]. }
  pose proof (source_object_length p t digest Hp Ht Hd64) as Hname.
  assert (Hall : promoted_bucket s = destination_bucket route
    ∧ promoted_object_name s = source_object p t digest
    ∧ promoted_digest s = su_expected_digest upload
    ∧ promoted_content_length s = su_expected_content_length upload
    ∧ valid_object_version (promoted_generation s) = true → promoted_ok p t upload s).
  { intros (Hb & Hn & Hdg & Hl & Hv). unfold MAXIMUM_UPLOAD_BYTES in Hlen.
    split; rewrite ?Hb, ?Hn, ?Hdg, ?Hl; try done. by exists digest. }
  destruct (is_gcs (provider (route_source route))) eqn:Hgcs; simpl.
  - destruct (is_gcs (provider (route_destination route))); simpl; [|done].
    destruct (credential g) as [[bearer|] g1]; [|done]. intros H%rewrite_calls_Ok.
    split; [by apply Hall|]. exists route. split_and!; [done|apply H|intros; congruence].
  - intros (g1 & H)%promote_stream_Ok. apply verify_existing_Ok in H as (? & ? & ? & ? & ? & ?).
    split; [by apply Hall|]. by exists route.
Qed.

(** ** What the code relies on of the services

    [endpoint] is the address of Google's JSON API.  [written g bucket name generation
    bytes]: by [g] the object has had that generation, with these contents.  [kept g g'] :
    from [g] to [g'] no request replaced an object.  Every operation of a store built for
    a location keeps the objects, [put_create] because it writes in the mode [Create].
    A rewrite call keeps them when it carries [ifGenerationMatch=0], and one that is
    answered as done has copied the generation it names of the source it names; the
    resource it reports is the metadata of the copy. *)
Class PromotionServices (build : Location → option (ObjectStore G)) (endpoint : string)
    (written : G → string → string → Z → list Z → Prop) (kept : G → G → Prop) : Prop := {
  #[global] kept_preorder :: PreOrder kept;
  written_once g bucket name n x y : written g bucket name n x → written g bucket name n y → x = y;
  kept_written g g' bucket name n x : kept g g' → written g bucket name n x → written g' bucket name n x;
  get_keeps l store name version g : build l = Some store → kept g (get_opts store name version g).2;
  put_keeps l store name bytes g : build l = Some store → kept g (put_create store name bytes g).2;
  credential_keeps g : kept g (credential g).2;
  rewrite_keeps url bearer g :
    base url = endpoint → ("ifGenerationMatch", "0") ∈ query url → kept g (post url bearer g).2;
  rewrite_copies url bearer g response g' body answer r source source_name n target target_name
      generation size :
    base url = endpoint →
    segments url = ["b"; source; "o"; source_name; "rewriteTo"; "b"; target; "o"; target_name] →
    - i64_max - 1 ≤ n ≤ i64_max → ("sourceGeneration", show_i64 n) ∈ query url →
    post url bearer g = (Some response, g') → contains 200 299 (http_status response) = true →
    bounded_response response = Ok body → parse_rewrite body = Some answer →
    rewrite_done answer = true → resource answer = Some r →
    parse_i64 (resource_generation r) = Some generation → parse_i64 (resource_size r) = Some size →
    ∃ bytes, written g' source source_name n bytes
      ∧ written g' (resource_bucket r) (resource_name r) generation bytes ∧ zlen bytes = size;
}.

(** Google copied the upload: the object that is reported has, at the generation that is
    reported, the contents that the generation of the upload has at its address, and had
    before; the length is theirs. *)
Definition copied (written : G → string → string → Z → list Z → Prop) (upload : StoredUpload)
    (s : PromotedSource) (g g' : G) : Prop :=
  ∃ version source_generation generation bytes,
    su_object_version upload = Some version ∧ parse_i64 version = Some source_generation
    ∧ promoted_generation s = show_dec generation
    ∧ written g' (strip_gs (su_object_bucket upload)) (su_object_name upload) source_generation bytes
    ∧ written g' (strip_gs (promoted_bucket s)) (promoted_object_name s) generation bytes
    ∧ zlen bytes = promoted_content_length s
    ∧ ∀ before, written g (strip_gs (su_object_bucket upload)) (su_object_name upload)
        source_generation before → before = bytes.

Section Services.
Context (build : Location → option (ObjectStore G)) (endpoint : string).
Context (written : G → string → string → Z → list Z → Prop) (kept : G → G → Prop).
Context `{!PromotionServices build endpoint written kept}.

(** The stores of a route are those of its two locations. *)
Definition route_built (source_bucket : string) (route : PromotionRoute G) : Prop :=
  StorageClient_new build source_bucket = Some (route_source route)
  ∧ StorageClient_new build (destination_bucket route) = Some (route_destination route).

Lemma configure_routes_built configured destinations routes out :
  (∀ k r, configured !! k = Some r → route_built k r) →
  configure_routes build configured destinations routes = Ok out →
  ∀ k r, out !! k = Some r → route_built k r.
Proof.
  revert configured destinations. induction routes as [|[a b] routes IH];
    intros configured dests Hok; simpl; [by intros [= <-]|].
  destruct (_ || _); [done|]. intros H.
  apply and_then_Ok in H as (source & Hs%ok_or_Ok & H).
  apply and_then_Ok in H as (store & Hd%ok_or_Ok & H). revert H. apply IH.
  intros k r [[<- <-]|[_ Hk]]%lookup_insert_Some; [done|by eapply Hok].
Qed.

Lemma new_routes_built entries configured k r :
  GcsSourcePromoter_new build entries = Ok configured → configured !! k = Some r → route_built k r.
Proof.
  unfold GcsSourcePromoter_new. destruct (_ =? 0); [done|]. intros H.
  by apply (configure_routes_built ∅ ∅ entries).
Qed.

Lemma client_keeps bucket store name version g :
  StorageClient_new build bucket = Some store → kept g (get_opts store name version g).2.
Proof. unfold StorageClient_new. destruct (location bucket); [apply get_keeps|done]. Qed.

Lemma client_put_keeps bucket store name bytes g :
  StorageClient_new build bucket = Some store → kept g (put_create store name bytes g).2.
Proof. unfold StorageClient_new. destruct (location bucket); [apply put_keeps|done]. Qed.

Lemma verify_existing_keeps bucket route name digest length g :
  route_built bucket route →
  kept g (verify_existing sha256 path_valid route name digest length g).2.
Proof.
  intros [_ Hb]. unfold verify_existing. destruct (negb _); [done|].
  pose proof (client_keeps _ _ name None g Hb) as Hk. by destruct (get_opts _ _ _ g) as [[]?].
Qed.

Lemma promote_stream_keeps bucket route upload name version g :
  route_built bucket route →
  kept g (promote_stream sha256 path_valid route upload name version g).2.
Proof.
  intros Hr. pose proof Hr as [Hs Hd]. unfold promote_stream.
  destruct (negb _); [done|]. destruct (negb _); [done|].
  pose proof (client_keeps _ _ (su_object_name upload) (Some version) g Hs) as Hk.
  destruct (get_opts _ _ _ g) as [[source|e] g1]; [|done]. cbn [snd] in Hk.
  destruct (negb _); [done|]. destruct (collect_verified _ _ _ _ _) as [bytes|[]]; [|done..].
  destruct (negb _); [done|].
  pose proof (client_put_keeps _ _ name bytes g1 Hd) as Hp.
  destruct (put_create _ _ _ g1) as [[u|e] g2]; cbn [snd] in Hp.
  - etrans; [exact Hk|]. etrans; [exact Hp|]. by eapply verify_existing_keeps.
  - destruct e; etrans; try exact Hk; try (etrans; [exact Hp|]); try done;
      by eapply verify_existing_keeps.
Qed.

Lemma copied_later upload s g g1 g' : kept g g1 → copied written upload s g1 g' → copied written upload s g g'.
Proof.
  intros Hk (version & sg & n & bytes & H1 & H2 & H3 & H4 & H5 & H6 & Hbefore).
  exists version, sg, n, bytes. split_and!; try done. intros before Hw.
  by eapply Hbefore, kept_written.
Qed.

Lemma rewrite_calls_keeps calls bucket route upload name generation bearer token g :
  route_built bucket route →
  kept g (rewrite_calls sha256 path_valid post parse_rewrite calls endpoint route upload name
            generation bearer token g).2.
Proof.
  intros Hr. revert token g. induction calls as [|calls IH]; intros token g; simpl; [done|].
  destruct (parse_i64 generation) as [n|]; [|done]. set (url := rewrite_url _ _ _ _ _ _ _).
  assert (Hk : kept g (post url bearer g).2) by (apply rewrite_keeps; [done|simpl; set_solver]).
  destruct (post url bearer g) as [[response|] g1]; [|done]. cbn [snd] in Hk.
  destruct (_ =? 412); [etrans; [exact Hk|by eapply verify_existing_keeps]|].
  destruct (_ || _); [done|]. destruct (negb _); [done|].
  destruct (and_then _ _) as [answer|]; [|done]. destruct (rewrite_done answer); [done|].
  destruct (rewrite_token answer); [|done]. destruct (_ && _); [|done]. etrans; [exact Hk|apply IH].
Qed.

(** The resource that is reported is the one the code compares with what it asked for. *)
Lemma promoted_resource_fields (route : PromotionRoute G) upload name found s :
  promoted_resource route upload name found = Ok s →
  ∃ r generation, found = Some r ∧ parse_i64 (resource_generation r) = Some generation
    ∧ promoted_generation s = show_dec generation
    ∧ parse_i64 (resource_size r) = Some (promoted_content_length s)
    ∧ resource_bucket r = strip_gs (promoted_bucket s)
    ∧ resource_name r = promoted_object_name s.
Proof.
  unfold promoted_resource. intros H. apply and_then_Ok in H as (r & Hr%ok_or_Ok & H).
  apply and_then_Ok in H as (gen & Hgen%ok_or_Ok & H).
  apply and_then_Ok in H as (len & Hlen%ok_or_Ok & H).
  destruct (parse_i64 (resource_generation r)) as [v|] eqn:Hv; [|done].
  destruct (0 <? v); [|done]. injection Hgen as ->.
  destruct (_ || _) eqn:Hbad; [done|].
  rewrite !orb_false_iff, !negb_false_iff, !String.eqb_eq, Z.eqb_eq in Hbad.
  injection H as <-. exists r, gen. simpl. split_and!; tauto.
Qed.

Lemma rewrite_calls_copied calls bucket route upload name generation bearer token g s g' :
  route_built bucket route → su_object_version upload = Some generation →
  rewrite_calls sha256 path_valid post parse_rewrite calls endpoint route upload name generation
    bearer token g = (Ok s, g') →
  read_back route s g' ∨ copied written upload s g g'.
Proof.
  intros Hr Hv. revert token g. induction calls as [|calls IH]; intros token g; simpl; [done|].
  destruct (parse_i64 generation) as [n|] eqn:Hn; [|done]. set (url := rewrite_url _ _ _ _ _ _ _).
  assert (Hk : kept g (post url bearer g).2) by (apply rewrite_keeps; [done|simpl; set_solver]).
  destruct (post url bearer g) as [[response|] g1] eqn:Hpost; [|done]. cbn [snd] in Hk.
  destruct (_ =? 412). { intros (_ & _ & _ & _ & _ & H)%verify_existing_Ok. by left. }
  destruct (_ || _); [done|]. destruct (contains _ _ _) eqn:Hok; simpl; [|done].
  destruct (bounded_response response) as [body|] eqn:Hbody; simpl; [|done].
  destruct (parse_rewrite body) as [answer|] eqn:Hparse; simpl; [|done].
  destruct (rewrite_done answer) eqn:Hdone.
  - intros [= H <-]. right.
    apply promoted_resource_fields in H as (r & gen & Hres & Hgen & Hsg & Hsize & Hb & Hname).
    destruct (rewrite_copies url bearer g response g1 body answer r (strip_gs (su_object_bucket upload))
      (su_object_name upload) n (strip_gs (destination_bucket route)) name gen
      (promoted_content_length s)) as (bytes & Hsrc & Hdst & Hlen);
      try done; [by eapply parse_i64_bounds|simpl; set_solver|].
    exists generation, n, gen, bytes. rewrite <- Hb, <- Hname. split_and!; try done.
    intros before Hbefore. eapply written_once; [|exact Hsrc]. by eapply kept_written.
  - destruct (rewrite_token answer) as [next|]; [|done]. destruct (_ && _); [|done].
    intros [H|H]%IH; [by left|right]. by eapply copied_later.
Qed.

Lemma promotion_plan_generation (routes : gmap string (PromotionRoute G)) p t upload generation route name :
  promotion_plan routes p t upload = Ok (generation, route, name) →
  su_object_version upload = Some generation ∧ routes !! su_object_bucket upload = Some route.
Proof.
  unfold promotion_plan. intros H. apply and_then_Ok in H as (gen & Hgen%ok_or_Ok & H).
  apply and_then_Ok in H as (r & Hr%ok_or_Ok & H). apply and_then_Ok in H as (digest & _ & H).
  destruct (su_object_version upload) as [v|]; [|done].
  destruct (valid_object_version v); [|done]. destruct (_ || _); [done|]. naive_solver.
Qed.

Lemma promote_services entries configured p t upload g result g' :
  GcsSourcePromoter_new build entries = Ok configured →
  promote sha256 path_valid credential post parse_rewrite endpoint configured p t upload g
    = (result, g') →
  kept g g'
  ∧ ∀ s, result = Ok s → ∃ route, configured !! su_object_bucket upload = Some route
      ∧ route_built (su_object_bucket upload) route
      ∧ (read_back route s g' ∨
         is_gcs (provider (route_source route)) = true ∧ copied written upload s g g').
Proof.
  intros Hnew. unfold promote. generalize MAXIMUM_REWRITE_CALLS as calls. intros calls.
  destruct (promotion_plan configured p t upload) as [[[generation route] name]|] eqn:Hplan;
    [|by intros [= <- <-]].
  apply promotion_plan_generation in Hplan as [Hv Hr].
  pose proof (new_routes_built _ _ _ _ Hnew Hr) as Hbuilt.
  destruct (is_gcs (provider (route_source route))) eqn:Hgcs; simpl.
  - destruct (is_gcs (provider (route_destination route))); simpl; [|by intros [= <- <-]].
    pose proof (credential_keeps g) as Hk.
    destruct (credential g) as [[bearer|] g1]; [|by intros [= <- <-]]. cbn [snd] in Hk. intros H.
    pose proof (rewrite_calls_keeps calls _ route upload name generation bearer None g1 Hbuilt) as Hk'.
    rewrite H in Hk'. split; [by etrans|]. intros s ->. exists route. split_and!; [done..|].
    destruct (rewrite_calls_copied _ _ _ _ _ _ _ _ _ _ _ Hbuilt Hv H) as [|Hc]; [by left|right].
    split; [done|]. by eapply copied_later.
  - intros H. pose proof (promote_stream_keeps _ route upload name generation g Hbuilt) as Hk.
    rewrite H in Hk. split; [done|]. intros s ->. exists route. split_and!; [done..|]. left.
    apply promote_stream_Ok in H as (g1 & H). apply verify_existing_Ok in H. apply H.
Qed.
End Services.
End Promotion.

(** C18: a promotion is sound.  With routes that the configuration accepted, whatever the
    services answer, a source that the promoter reports has the length and the digest the
    client announced, lies at the address that its product, its tenant and its digest
    determine in the bucket of its route, has a valid generation, and its bucket and name
    have lengths the store accepts; unless the upload lies in a Google Cloud bucket, the
    object was read back whole from that bucket, with the length and the digest.  With
    services that do what [PromotionServices] documents, moreover, no promotion, failed or
    not, replaces an object; and an object in a Google Cloud bucket was read back the same
    way or is Google's copy, at the generation reported and of the length announced, of
    exactly the generation of the upload that was inspected.  The copy is not hashed
    again: its digest is that of the generation it copies. *)
Theorem promotion_sound {G : Type} sha256 path_valid (credential : G → option string * G) post
    parse_rewrite (build : Location → option (ObjectStore G)) entries configured url p t upload
    (g g' : G) result :
  GcsSourcePromoter_new build entries = Ok configured → id_valid p → id_valid t →
  promote sha256 path_valid credential post parse_rewrite url configured p t upload g = (result, g') →
  (∀ s, result = Ok s →
     promoted_ok p t upload s
     ∧ ∃ route, configured !! su_object_bucket upload = Some route
         ∧ promoted_bucket s = destination_bucket route
         ∧ route_built build (su_object_bucket upload) route
         ∧ (is_gcs (provider (route_source route)) = false → read_back sha256 path_valid route s g'))
  ∧ ∀ written kept, PromotionServices credential post parse_rewrite build url written kept →
      kept g g'
      ∧ ∀ s, result = Ok s →
          copied written upload s g g'
          ∨ ∃ route, configured !! su_object_bucket upload = Some route
              ∧ read_back sha256 path_valid route s g'.
Proof.
  intros Hnew Hp Ht H. split.
  - intros s ->. destruct (promote_Ok _ _ _ _ _ _ _ _ _ _ _ _ _ _ _ Hnew Hp Ht H)
      as (Hok & route & Hr & Hb & Hread).
    split; [done|]. exists route. split_and!; try done. by eapply new_routes_built.
  - intros written kept Hservices.
    destruct (promote_services _ _ _ _ _ _ _ _ _ _ _ _ _ _ _ _ _ Hnew H) as [Hk Hs].
    split; [exact Hk|].
    intros s Hres. destruct (Hs s Hres) as (route & Hr & _ & [Hread|[_ Hc]]); [right|by left].
    by exists route.
Qed.

(** ** A sample promotion, between S3 buckets *)

Definition sample_sha256 (_ : list Z) : list Z := repeat 0 32.
Definition sample_product_id := mkProductId "prod".
Definition sample_tenant_id := mkTenantId "ten_a".

Definition sample_store (found : Location) : option (ObjectStore ()) :=
  Some {| provider := found;
          get_opts := λ _ _ g, (Ok (mkGetResult (Some "1") 3 [Ok [1]; Ok [2; 3]]), g);
          put_create := λ _ _ g, (Ok (), g) |}.

Definition sample_entries : list (string * string) := [("s3://quarantine-a", "s3://sources-a")].
Definition sample_routes : gmap string (PromotionRoute ()) :=
  default ∅ (result_ok (GcsSourcePromoter_new sample_store sample_entries)).

Definition sample_upload_in (bucket : string) : StoredUpload :=
  {| su_upload_id := mkUploadId "upl_1"; su_state := UploadState.Inspecting;
     su_object_bucket := bucket;
     su_object_name := "products/prod/tenants/ten_a/quarantine/upl_1";
     su_expected_content_type := "application/pdf"; su_expected_content_length := 3;
     su_expected_digest := sha256_digest (repeat 0 32); su_expires_at := 1000;
     su_created_at := 1; su_object_version := Some "1"; su_uploaded_at := Some 2 |}.

Definition sample_inspecting_upload : StoredUpload := sample_upload_in "s3://quarantine-a".

Definition sample_promoted (bucket generation : string) : PromotedSource :=
  {| promoted_bucket := bucket;
     promoted_object_name := source_object sample_product_id sample_tenant_id (hex_encode (repeat 0 32));
     promoted_generation := generation; promoted_digest := sha256_digest (repeat 0 32);
     promoted_content_length := 3 |}.

Example sample_promotion_streams :
  promote sample_sha256 (λ _, true) (λ g, (None, g)) (λ _ _ g, (None, g)) (λ _, None) ""
    sample_routes sample_product_id sample_tenant_id sample_inspecting_upload ()
  = (Ok (sample_promoted "s3://sources-a" "1"), ()).
Proof. vm_compute. reflexivity. Qed.

(** ** A sample promotion, between Google Cloud buckets

    The state says whether the destination exists; the service rewrites the one upload,
    to its one destination. *)

Definition cloud_store (found : Location) : option (ObjectStore bool) :=
  Some {| provider := found;
          get_opts := λ _ _ g, (Err ObjectError.NotFound, g);
          put_create := λ _ _ g, (Err ObjectError.AlreadyExists, g) |}.

Definition cloud_upload : StoredUpload := sample_upload_in "quarantine-a".
Definition cloud_entries : list (string * string) := [("quarantine-a", "sources-a")].
Definition cloud_routes : gmap string (PromotionRoute bool) :=
  default ∅ (result_ok (GcsSourcePromoter_new cloud_store cloud_entries)).

Definition cloud_target : string :=
  source_object sample_product_id sample_tenant_id (hex_encode (repeat 0 32)).
Definition cloud_segments : list string :=
  ["b"; "quarantine-a"; "o"; su_object_name cloud_upload; "rewriteTo"; "b"; "sources-a"; "o"; cloud_target].

Definition cloud_post (url : RewriteUrl) (_ : string) (exists_already : bool)
    : option HttpResponse * bool :=
  if bool_decide (segments url = cloud_segments
                  ∧ query url = [("sourceGeneration", "1"); ("ifGenerationMatch", "0")])
  then (Some (mkHttpResponse (if exists_already then 412 else 200) [Some [123; 125]]), true)
  else (Some (mkHttpResponse 404 []), exists_already).

Definition cloud_response (_ : list Z) : option RewriteResponse :=
  Some (mkRewriteResponse true None (Some (mkRewriteResource "sources-a" cloud_target "7" "3"))).

Definition cloud_written (g : bool) (bucket name : string) (generation : Z) (bytes : list Z) : Prop :=
  bytes = [1; 2; 3]
  ∧ ((bucket, name, generation) = ("quarantine-a", su_object_name cloud_upload, 1)
     ∨ g = true ∧ (bucket, name, generation) = ("sources-a", cloud_target, 7)).

Lemma cloud_services :
  PromotionServices (λ g : bool, (Some "token", g)) cloud_post cloud_response cloud_store "gcs"
    cloud_written (λ g g', g = true → g' = true).
Proof.
  split.
  - split; [by intros g|]. intros g1 g2 g3. tauto.
  - intros g bucket name n x y [-> _] [-> _]. done.
  - intros g g' bucket name n x Hk [-> [H|[Hg H]]]; split; try done; [by left|right].
    split; [by apply Hk|done].
  - intros l store name version g. by intros [= <-].
  - intros l store name bytes g. by intros [= <-].
  - done.
  - intros url bearer g _ _. unfold cloud_post. by case_bool_decide.
  - intros url bearer g response g' body answer r source source_name n target target_name generation size
      _ Hsegments Hn Hquery Hpost Hok Hbody Hparse Hdone Hres Hgen Hsize.
    revert Hpost. unfold cloud_post. case_bool_decide as Hurl; [|by intros [= <- <-]].
    destruct Hurl as [Hseg Hq]. destruct g; intros [= <- <-]; [done|].
    injection Hparse as <-. injection Hres as <-. simpl in Hgen, Hsize.
    injection Hgen as <-. injection Hsize as <-. exists [1; 2; 3].
    rewrite Hsegments in Hseg. injection Hseg as -> -> _ _.
    assert (n = 1) as ->.
    { rewrite Hq in Hquery. rewrite !elem_of_cons, elem_of_nil in Hquery.
      apply show_i64_inj; [done|unfold i64_max; lia|].
      destruct Hquery as [[= H]|[[=]|[]]]. exact H. }
    split_and!; [|split; [done|by right]|done]. split; [done|by left].
Qed.

Definition cloud_promotion : PromotionResult PromotedSource * bool :=
  promote sample_sha256 (λ _, true) (λ g, (Some "token", g)) cloud_post cloud_response "gcs"
    cloud_routes sample_product_id sample_tenant_id cloud_upload false.

Theorem promotion_sound_witness :
  cloud_promotion = (Ok (sample_promoted "sources-a" "7"), true)
  ∧ promoted_ok sample_product_id sample_tenant_id cloud_upload (sample_promoted "sources-a" "7")
  ∧ (copied cloud_written cloud_upload (sample_promoted "sources-a" "7") false true
     ∨ ∃ route, cloud_routes !! su_object_bucket cloud_upload = Some route
         ∧ read_back sample_sha256 (λ _, true) route (sample_promoted "sources-a" "7") true).
Proof.
  assert (Hrun : cloud_promotion = (Ok (sample_promoted "sources-a" "7"), true))
    by (vm_compute; reflexivity).
  split; [exact Hrun|].
  assert (Hnew : GcsSourcePromoter_new cloud_store cloud_entries = Ok cloud_routes)
    by (vm_compute; reflexivity).
  assert (Hp : id_valid sample_product_id) by (vm_compute; reflexivity).
  assert (Ht : id_valid sample_tenant_id) by (vm_compute; reflexivity).
  destruct (promotion_sound sample_sha256 (λ _, true) (λ g, (Some "token", g)) cloud_post
    cloud_response cloud_store cloud_entries cloud_routes "gcs" sample_product_id sample_tenant_id
    cloud_upload false true _ Hnew Hp Ht Hrun) as [Hall Hservices].
  split; [exact (proj1 (Hall _ eq_refl))|]. exact (proj2 (Hservices _ _ cloud_services) _ eq_refl).
Defined.
