(* ===== verification/ImporterFacts.v ===== *)
(** * ImporterFacts: what an import does

    The importer is proved against the interface [ImportServices], which the parser
    process and the source promoter implement: an upload is accepted only after every
    check passed, an undisturbed import settles it, and the store never refuses what
    the services deliver. *)

From S2P Require Import Prelude Text DomainTypes Identifiers Geometry PageWorkflow StoreTypes.
From S2P Require Import StoreChecks StoreDb StoreJobs StorePages StoreUploads StoreOutbox.
From S2P Require Import StoreRun StoreJobsFacts StoreUploadsFacts ParserProcess Importer Storage.
From S2P Require Import Digest Promotion ParserProcessFacts PromotionFacts.

#[local] Open Scope list_scope.
#[local] Open Scope Z_scope.

#[local] Arguments valid_digest : simpl never.
#[local] Arguments valid_object_version : simpl never.
#[local] Arguments valid_page_geometries : simpl never.
#[local] Arguments is_valid_parser_identifier : simpl never.
#[local] Arguments is_valid_lease_owner : simpl never.
#[local] Arguments contains : simpl never.

(** What the importer needs of its services: reports are consistent, promoted sources
    are the uploads'. *)
Class ImportServices {G : Type} (services : Services G) := {
  service_reports : ∀ bytes content_type g r g',
    parser_inspect services bytes content_type g = (Ok r, g') → report_ok r;
  service_promotes : ∀ p t upload g s g', id_valid p → id_valid t →
    sources_promote services p t upload g = (Ok s, g') → promoted_ok p t upload s;
}.

(** The deployed services: the parser process, and the promoter with its routes. *)
Definition deployed_services {G : Type} malware documents spawn parse_report_json parser
    sha256 path_valid credential post parse_rewrite url routes : Services G :=
  {| malware_inspect := malware; documents_read := documents;
     parser_inspect := λ encoded content_type g,
       (DocumentParser_inspect (ParserProcess_inspect spawn parse_report_json parser) encoded
          content_type, g);
     sources_promote := promote sha256 path_valid credential post parse_rewrite url routes |}.

Lemma deployed_importer {G : Type} malware documents spawn parse_report_json parser
    sha256 path_valid credential post parse_rewrite url build entries routes :
  GcsSourcePromoter_new build entries = Ok routes →
  ImportServices (G := G) (deployed_services malware documents spawn parse_report_json parser
    sha256 path_valid credential post parse_rewrite url routes).
Proof.
  intros Hnew. split; simpl.
  - intros bytes ct g r g' [= H <-]. apply map_err_Ok, inspect_report_ok in H. apply H.
  - intros p t upload g s g' Hp Ht H. by eapply promote_Ok.
Qed.

Section Facts.
Context (ss js : RawPageWorkflow → Z).
Context (PARSER_VERSION : string) (Hversion : is_valid_parser_identifier PARSER_VERSION = true).
Context {G : Type} (services : Services G) `{!ImportServices services}.
#[local] Notation reachable := (StoreRun.reachable ss js).
#[local] Notation effect_of_ops := (StoreRun.effect_of_ops ss js).

(** ** The examination *)

Lemma examine_Ok t p upload g i s g' :
  examine services t p upload g = (Ok (i, s), g') ↔
  ∃ bytes g1 g2 g3, malware_inspect services upload g = (Ok (), g1)
    ∧ documents_read services upload g1 = (Ok bytes, g2)
    ∧ parser_inspect services bytes (su_expected_content_type upload) g2 = (Ok i, g3)
    ∧ sources_promote services p t upload g3 = (Ok s, g').
Proof.
  unfold examine. split.
  - destruct (malware_inspect services upload g) as [[[]|e] g1]; [|done].
    destruct (documents_read services upload g1) as [[bytes|e] g2] eqn:Hr; [|done].
    destruct (parser_inspect services bytes _ g2) as [[i'|e] g3] eqn:Hi; [|done].
    destruct (sources_promote services p t upload g3) as [[s'|e] g4] eqn:Hs; [|done].
    intros [= -> -> ->]. by exists bytes, g1, g2, g3.
  - intros (bytes & g1 & g2 & g3 & -> & -> & -> & ->). done.
Qed.

Lemma examine_sound t p upload g i s g' :
  id_valid p → id_valid t → examine services t p upload g = (Ok (i, s), g') →
  report_ok i ∧ promoted_ok p t upload s.
Proof.
  intros Hp Ht (bytes & g1 & g2 & g3 & _ & _ & Hi & Hs)%examine_Ok.
  split; [by eapply service_reports|by eapply service_promotes].
Qed.

(** ** The store accepts what the services deliver *)

Lemma accept_command_valid t p upload owner i s :
  is_valid_lease_owner owner = true → report_ok i → promoted_ok p t upload s →
  validate_accepted_source (accept_command PARSER_VERSION owner i s) = Ok ().
Proof.
  intros Ho Hi Hs. destruct (report_geometries_accepted i Hi) as (Hgeo & Hmx & Htot).
  destruct Hi as [_ _ _ Hcount _ _]. destruct Hs as [_ _ Hlen Hdig Hgen Hb [Hne Hn] _].
  unfold validate_accepted_source. simpl.
  unfold MAXIMUM_TOTAL_PAGE_PIXELS, MAXIMUM_PAGE_COUNT in *.
  rewrite !checked_in_width by (unfold in_width, u32_max, u64_max; lia). simpl.
  rewrite Hne, Hgen, Hdig, Ho, Hversion, Hgeo. rewrite (proj2 (Z.ltb_ge _ _) Hn).
  rewrite !(proj2 (contains_true _ _ _)) by (unfold MAXIMUM_TOTAL_PAGE_PIXELS, MAXIMUM_PAGE_COUNT; lia).
  done.
Qed.

(** ** The claim *)

Lemma selected_row db t p u row :
  reachable db → select_upload t p u db = Some row → upload_row_ok (UploadId_str u) row.
Proof.
  intros Hreach (Hl & _ & _)%select_upload_Some. by apply (reachable_uploads_ok ss js db Hreach).
Qed.

Lemma parsed_state id row : upload_row_ok id row →
  ∃ s, parse_upload_state (ur_status row) = Ok s ∧ ur_status row = upload_state_text s ∧ state_ok s row.
Proof.
  intros [_ _ _ (s & Hs & Hok)]. exists s. split_and!; [|done|done]. by apply parse_upload_state_Ok.
Qed.

Lemma claim_total db now t p u owner :
  reachable db → is_valid_lease_owner owner = true →
  ∃ outcome db', claim_upload_inspection now t p u owner db = Ok (outcome, db').
Proof.
  intros Hreach Ho. unfold claim_upload_inspection, validate_lease_owner. rewrite Ho. simpl.
  destruct (select_upload t p u db) as [row|] eqn:Hsel; [|by do 2 eexists].
  destruct (parsed_state _ _ (selected_row _ _ _ _ _ Hreach Hsel)) as (s & -> & _). simpl.
  destruct (inspection_outcome _ _ _ _); by do 2 eexists.
Qed.

Lemma found_total db t p u :
  reachable db → ∃ found, find_upload t p u db = Ok found.
Proof.
  intros Hreach. unfold find_upload.
  destruct (select_upload t p u db) as [row|] eqn:Hsel; [|by eexists].
  pose proof (selected_row _ _ _ _ _ Hreach Hsel) as Hrow.
  destruct (parsed_state _ _ Hrow) as (s & _ & Hs & Hok).
  destruct (stored_upload_ok _ _ _ (upload_id_ok _ _ Hrow) (upload_static_ok _ _ Hrow) Hs Hok)
    as (v & -> & _). by eexists.
Qed.

Lemma load_total db now t p u owner :
  reachable db → is_valid_lease_owner owner = true →
  ∃ loaded, load_claimed_upload now t p u owner db = Ok loaded.
Proof.
  intros Hreach Ho. unfold load_claimed_upload, validate_lease_owner. rewrite Ho. simpl.
  destruct (select_upload t p u db) as [row|] eqn:Hsel; [|by eexists].
  destruct (_ && _); [|by eexists]. pose proof (selected_row _ _ _ _ _ Hreach Hsel) as Hrow.
  destruct (parsed_state _ _ Hrow) as (s & _ & Hs & Hok).
  destruct (stored_upload_ok _ _ _ (upload_id_ok _ _ Hrow) (upload_static_ok _ _ Hrow) Hs Hok)
    as (v & -> & _). by eexists.
Qed.

Lemma reject_total db now t p u owner reason :
  reachable db → is_valid_lease_owner owner = true →
  ∃ outcome db', reject_upload now t p u owner reason db = Ok (outcome, db').
Proof.
  intros Hreach Ho. unfold reject_upload, validate_lease_owner. rewrite Ho. simpl.
  destruct (select_upload t p u db) as [row|] eqn:Hsel; [|by do 2 eexists].
  destruct (parsed_state _ _ (selected_row _ _ _ _ _ Hreach Hsel)) as (s & -> & _). simpl.
  destruct (_ && _); [by do 2 eexists|].
  destruct (negb _); [by do 2 eexists|]. destruct (bool_decide _); by do 2 eexists.
Qed.

Lemma accept_total db now t p u src :
  reachable db → validate_accepted_source src = Ok () →
  ∃ outcome db', accept_upload now t p u src db = Ok (outcome, db').
Proof.
  intros Hreach Hv. unfold accept_upload. rewrite Hv. simpl.
  destruct (select_upload t p u db) as [row|] eqn:Hsel; [|by do 2 eexists].
  destruct (parsed_state _ _ (selected_row _ _ _ _ _ Hreach Hsel)) as (s & -> & _). simpl.
  destruct (_ && _); by do 2 eexists.
Qed.

(** ** An import, whatever the rest of the system does *)

Section Import.
Context (clock : nat → Z) (meanwhile : nat → Db → Db).
Context (Hmeanwhile : ∀ k db, effect_of_ops db (meanwhile k db)).
#[local] Notation process := (process PARSER_VERSION services clock meanwhile).

Lemma reachable_meanwhile k db : reachable db → reachable (meanwhile k db).
Proof. intros Hreach. by eapply effect_reachable. Qed.

(** Any transaction of the store that an operation stands for. *)
Lemma op_effect {A} (tx : Tx A) op db a db' :
  op_valid op → apply_op ss js op db = db_after tx db → tx db = Ok (a, db') → effect_of_ops db db'.
Proof. intros Hop Happ Htx. rewrite <- (db_after_Ok _ _ _ _ Htx), <- Happ. by apply effect_op. Qed.

Lemma decide_total t p u owner now examined db :
  reachable db → is_valid_lease_owner owner = true →
  (∀ i s, examined = Ok (i, s) → ∃ upload, report_ok i ∧ promoted_ok p t upload s) →
  ∃ outcome db', decide_upload PARSER_VERSION now t p u owner examined db = (Ok outcome, db')
    ∧ effect_of_ops db db'.
Proof.
  intros Hreach Ho Hex. destruct examined as [[i s]|[reason|stage]]; simpl.
  - destruct (Hex i s eq_refl) as (upload & Hi & Hs).
    destruct (accept_total db now t p u _ Hreach (accept_command_valid t p upload owner i s Ho Hi Hs))
      as (outcome & db' & Hacc). rewrite Hacc. do 2 eexists. split; [done|].
    eapply (op_effect _ (OpAcceptUpload now t p u (accept_command PARSER_VERSION owner i s)));
      [|done|exact Hacc]. simpl. apply Hi.
  - unfold reject. destruct (reject_total db now t p u owner reason Hreach Ho) as (outcome & db' & Hrej).
    rewrite Hrej. do 2 eexists. split; [done|].
    by eapply (op_effect _ (OpRejectUpload now t p u owner reason)); [| |exact Hrej].
  - do 2 eexists. split; [done|apply effect_none].
Qed.

Lemma process_total t p u owner db g :
  reachable db → id_valid p → id_valid t → is_valid_lease_owner owner = true →
  ∃ outcome db' g', process t p u owner db g = (Ok outcome, db', g') ∧ effect_of_ops db db'.
Proof.
  intros Hreach Hp Ht Ho. unfold Importer.process.
  destruct (claim_total db (clock 0) t p u owner Hreach Ho) as (claimed & db1 & Hclaim).
  rewrite Hclaim.
  assert (He1 : effect_of_ops db db1) by
    by eapply (op_effect _ (OpClaimUploadInspection (clock 0) t p u owner)); [| |exact Hclaim].
  assert (He : effect_of_ops db (meanwhile 1 db1)) by (by eapply effect_trans).
  pose proof (effect_reachable _ _ Hreach He) as Hr.
  assert (Hgo : ∃ outcome db' g',
    match load_claimed_upload (clock 1) t p u owner (meanwhile 1 db1) with
    | Err e => (Err e, meanwhile 1 db1, g)
    | Ok None => (Ok ImportOutcome.LeaseLost, meanwhile 1 db1, g)
    | Ok (Some upload) =>
        let (examined, g) := examine services t p upload g in
        let (outcome, db) := decide_upload PARSER_VERSION (clock 2) t p u owner examined
          (meanwhile 2 (meanwhile 1 db1)) in (outcome, db, g)
    end = (Ok outcome, db', g') ∧ effect_of_ops db db').
  { destruct (load_total _ (clock 1) t p u owner Hr Ho) as ([upload|] & ->); [|by do 3 eexists].
    destruct (examine services t p upload g) as [examined g'] eqn:Hex.
    destruct (decide_total t p u owner (clock 2) examined _ (reachable_meanwhile 2 _ Hr) Ho)
      as (outcome & db' & Hd & He').
    { intros i s ->. exists upload. by eapply examine_sound. }
    rewrite Hd. do 3 eexists. split; [done|]. eapply effect_trans; [exact He|].
    by eapply effect_trans. }
  destruct claimed; try done; try by do 3 eexists.
  destruct (found_total _ t p u Hr) as (found & ->). by do 3 eexists.
Qed.

(** An import fails only when it is called wrongly.  In every reachable database, whatever
    the services answer and the rest of the system does meanwhile, [process] is an error
    precisely when the lease owner is not a valid one, and then nothing has happened;
    otherwise it gives an outcome, the store never refuses a report or a promoted
    source, and all it did to the database are operations of the store. *)
Theorem import_fails_exactly t p u owner db g :
  reachable db → id_valid p → id_valid t →
  (is_valid_lease_owner owner = false → process t p u owner db g = (Err InvalidStoredUpload, db, g))
  ∧ (is_valid_lease_owner owner = true → ∃ outcome db' g',
       process t p u owner db g = (Ok outcome, db', g') ∧ effect_of_ops db db').
Proof.
  intros Hreach Hp Ht. split; [|by apply process_total].
  intros Ho. unfold Importer.process, claim_upload_inspection, validate_lease_owner. by rewrite Ho.
Qed.

(** ** Acceptance *)

Lemma load_claimed_Some now t p u owner db upload :
  load_claimed_upload now t p u owner db = Ok (Some upload) →
  ∃ row, select_upload t p u db = Some row ∧ ur_status row = "inspecting"
    ∧ ur_inspection_lease_owner row = Some owner
    ∧ stored_upload (UploadId_str u) row = Ok upload.
Proof.
  unfold load_claimed_upload. destruct (validate_lease_owner owner); simpl; [|done].
  destruct (select_upload t p u db) as [row|]; [|done].
  destruct (_ && _) eqn:Hc; [|done]. intros H. apply and_then_Ok in H as (v & Hv & [= <-]).
  rewrite !andb_true_iff, String.eqb_eq in Hc. destruct Hc as ((Hs & Ho) & _).
  exists row. split_and!; try done. unfold owned_by in Ho. by apply bool_decide_eq_true in Ho.
Qed.

(** The row that an upload was decoded from. *)
Lemma stored_upload_fields id row upload :
  stored_upload id row = Ok upload →
  su_expected_digest upload = ur_expected_digest row
  ∧ su_expected_content_length upload = ur_expected_content_length row
  ∧ su_expected_content_type upload = ur_expected_content_type row
  ∧ UploadId_str (su_upload_id upload) = id.
Proof.
  unfold stored_upload. intros (i & Hi%map_err_Ok & H)%and_then_Ok.
  apply and_then_Ok in H as (s & _ & H). apply and_then_Ok in H as ([] & _ & [= <-]). simpl.
  split_and!; try done. exact (id_new_str (T := UploadId) id i Hi).
Qed.

Lemma accept_Accepted now t p u src db db' :
  accept_upload now t p u src db = Ok (AcceptUploadOutcome.Accepted, db') →
  ∃ row, select_upload t p u db = Some row ∧ ur_status row = "inspecting"
    ∧ ocr_uploads db' !! UploadId_str u =
        Some (set_inspection row "accepted" (ur_inspection_attempts row) None None
          (ur_rejection_reason row)
          (Some (source_bucket src, source_object_name src, source_object_version src,
                 source_digest src, source_content_length src))
          (Some (parser_inspection src))).
Proof.
  unfold accept_upload. intros ([] & _ & H)%and_then_Ok.
  destruct (select_upload t p u db) as [row|]; [|done].
  destruct (_ && _) eqn:Hc.
  - injection H as <-. exists row. split_and!; [done| |].
    + rewrite !andb_true_iff, String.eqb_eq in Hc. apply Hc.
    + simpl. by rewrite lookup_insert_eq.
  - apply and_then_Ok in H as (s & _ & H). repeat case_match; congruence.
Qed.

Lemma process_Accepted t p u owner db g db' g' :
  process t p u owner db g = (Ok ImportOutcome.Accepted, db', g') →
  ∃ claimed db1 upload i s,
    claim_upload_inspection (clock 0) t p u owner db = Ok (claimed, db1)
    ∧ load_claimed_upload (clock 1) t p u owner (meanwhile 1 db1) = Ok (Some upload)
    ∧ examine services t p upload g = (Ok (i, s), g')
    ∧ accept_upload (clock 2) t p u (accept_command PARSER_VERSION owner i s)
        (meanwhile 2 (meanwhile 1 db1)) = Ok (AcceptUploadOutcome.Accepted, db').
Proof.
  unfold Importer.process.
  destruct (claim_upload_inspection _ _ _ _ _ _) as [[claimed db1]|e]; [|done].
  intros H. assert (Hgo : match load_claimed_upload (clock 1) t p u owner (meanwhile 1 db1) with
    | Err e => (Err e, meanwhile 1 db1, g)
    | Ok None => (Ok ImportOutcome.LeaseLost, meanwhile 1 db1, g)
    | Ok (Some upload) =>
        let (examined, g) := examine services t p upload g in
        let (outcome, db) := decide_upload PARSER_VERSION (clock 2) t p u owner examined
          (meanwhile 2 (meanwhile 1 db1)) in (outcome, db, g)
    end = (Ok ImportOutcome.Accepted, db', g')).
  { destruct claimed; try done. destruct (find_upload _ _ _ _) as [[v|]|]; try done.
    simpl in H. by destruct (su_state v). }
  clear H. destruct (load_claimed_upload _ _ _ _ _ _) as [[upload|]|] eqn:Hload; [|done..].
  destruct (examine services t p upload g) as [[[i s]|[reason|stage]] g1] eqn:Hex; simpl in Hgo.
  - destruct (accept_upload _ _ _ _ _ _) as [[outcome db2]|] eqn:Hacc; [|done].
    injection Hgo as Ho <- <-. destruct outcome; try done. exists claimed, db1, upload, i, s. by split_and!.
  - unfold reject in Hgo. destruct (reject_upload _ _ _ _ _ _ _) as [[[] db2]|]; simpl in Hgo; congruence.
  - done.
Qed.

(** C6: an upload is accepted only after every check.  When [process] answers accepted, the
    upload was loaded under the caller's lease, the scanner passed it, the reader
    returned its bytes, the parser reported on exactly those bytes, and the promoter
    promoted it, one after the other; whatever happened meanwhile, the row is then
    accepted with that promoted source and that consistent report, and the source has
    the digest and the length that the client reserved. *)
Theorem import_accepts_inspected t p u owner db g db' g' :
  reachable db → id_valid p → id_valid t →
  process t p u owner db g = (Ok ImportOutcome.Accepted, db', g') →
  ∃ upload bytes inspection source g1 g2 g3 row,
    malware_inspect services upload g = (Ok (), g1)
    ∧ documents_read services upload g1 = (Ok bytes, g2)
    ∧ parser_inspect services bytes (su_expected_content_type upload) g2 = (Ok inspection, g3)
    ∧ sources_promote services p t upload g3 = (Ok source, g')
    ∧ su_upload_id upload = u ∧ report_ok inspection ∧ promoted_ok p t upload source
    ∧ select_upload t p u db' = Some row ∧ ur_status row = "accepted"
    ∧ ur_source row = Some (promoted_bucket source, promoted_object_name source,
        promoted_generation source, ur_expected_digest row, ur_expected_content_length row)
    ∧ ur_parser row = Some (parser_inspection (accept_command PARSER_VERSION owner inspection source))
    ∧ ur_expected_content_type row = su_expected_content_type upload.
Proof.
  intros Hreach Hp Ht (claimed & db1 & upload & i & s & Hclaim & Hload & Hex & Hacc)%process_Accepted.
  pose proof (examine_sound _ _ _ _ _ _ _ Hp Ht Hex) as [Hi Hs].
  apply examine_Ok in Hex as (bytes & g1 & g2 & g3 & H1 & H2 & H3 & H4).
  assert (He1 : effect_of_ops db db1) by
    by eapply (op_effect _ (OpClaimUploadInspection (clock 0) t p u owner)); [| |exact Hclaim].
  pose proof (reachable_meanwhile 1 _ (effect_reachable _ _ Hreach He1)) as Hr1.
  apply load_claimed_Some in Hload as (row1 & Hsel1 & Hst1 & _ & Hdec).
  pose proof (stored_upload_fields _ _ _ Hdec) as (Hd & Hl & Hct & Hid).
  apply accept_Accepted in Hacc as (row2 & Hsel2 & Hst2 & Hrow).
  destruct (Hmeanwhile 2 (meanwhile 1 db1)) as (ops & Hops & Hrun).
  apply select_upload_Some in Hsel1 as (Hl1 & _ & _).
  apply select_upload_Some in Hsel2 as (Hl2 & Ht2 & Hp2). rewrite Hrun in Hl2.
  destruct (run_ops_upload ss js ops _ _ row1 UploadState.Inspecting
    (reachable_uploads_ok ss js _ Hr1) Hops Hl1 Hst1) as (row2' & s' & Hl2' & _ & Hfix & _ & _).
  rewrite Hl2 in Hl2'. injection Hl2' as <-. unfold reservation in Hfix. injection Hfix as
    Hf1 Hf2 Hf3 Hf4 Hf5 Hf6 Hf7 Hf8 Hf9 Hf10 Hf11.
  assert (Hsel : select_upload t p u db' = Some _)
    by (apply select_upload_Some; split_and!; [exact Hrow|exact Ht2|exact Hp2]).
  exists upload, bytes, i, s, g1, g2, g3. eexists.
  split_and!; [exact H1|exact H2|exact H3|exact H4| |exact Hi|exact Hs|exact Hsel|done| |done|].
  - exact (id_str_inj (T := UploadId) (su_upload_id upload) u Hid).
  - simpl. rewrite (promoted_same_digest _ _ _ _ Hs), (promoted_same_length _ _ _ _ Hs). congruence.
  - simpl. congruence.
Qed.
End Import.

(** ** An undisturbed import *)

(** The row of an upload that [owner] has just claimed. *)
Definition claimed_row (now : Z) (owner : string) (row : UploadRow) : UploadRow :=
  set_inspection row "inspecting" (ur_inspection_attempts row + 1) (Some owner)
    (Some (now + LEASE_SECONDS)) (ur_rejection_reason row) (ur_source row) (ur_parser row).

(** An upload that waits for an inspection. *)
Definition waiting (now : Z) (row : UploadRow) : Prop :=
  ur_status row = "uploaded"
  ∨ ur_status row = "inspecting" ∧ lease_live now (ur_inspection_lease_expires_at row) = false
    ∧ ur_inspection_attempts row < MAXIMUM_INSPECTION_ATTEMPTS.

Lemma claim_waiting db now t p u owner row :
  reachable db → select_upload t p u db = Some row → waiting now row →
  is_valid_lease_owner owner = true →
  claim_upload_inspection now t p u owner db
  = Ok (ClaimUploadInspectionOutcome.Claimed, put_upload u (claimed_row now owner row) db).
Proof.
  intros Hreach Hsel Hw Ho. pose proof (selected_row _ _ _ _ _ Hreach Hsel) as Hrow.
  unfold claim_upload_inspection, validate_lease_owner. rewrite Ho. simpl. rewrite Hsel.
  destruct Hw as [Hs|(Hs & Hlive & Hatt)].
  - destruct (row_state _ _ UploadState.Uploaded _ Hrow Hs eq_refl) as (_ & Ha & _).
    rewrite Hs. simpl. rewrite Ha. simpl. unfold claimed_row. by rewrite Ha.
  - rewrite Hs. simpl. rewrite Hlive. simpl. by rewrite (proj2 (Z.ltb_lt _ _) Hatt).
Qed.

Lemma select_put t p u row row' db :
  select_upload t p u db = Some row →
  ur_tenant_id row' = ur_tenant_id row → ur_product_id row' = ur_product_id row →
  select_upload t p u (put_upload u row' db) = Some row'.
Proof.
  intros (Hl & Ht & Hp)%select_upload_Some H1 H2. apply select_upload_Some. simpl.
  rewrite lookup_insert_eq. split_and!; [done|congruence..].
Qed.

(** What an examination that ended with [examined] leaves behind. *)
Definition settled (examined : result Stop (ParserInspectionReport * PromotedSource))
    (outcome : ImportOutcome.ImportOutcome) (row : UploadRow) : Prop :=
  match examined with
  | Ok (i, s) =>
      outcome = ImportOutcome.Accepted ∧ ur_status row = "accepted"
      ∧ ur_source row = Some (promoted_bucket s, promoted_object_name s, promoted_generation s,
                              promoted_digest s, promoted_content_length s)
      ∧ option_map pi_page_geometries (ur_parser row) = Some (report_pages i)
  | Err (inl reason) =>
      outcome = ImportOutcome.Rejected ∧ ur_status row = "rejected"
      ∧ ur_rejection_reason row = Some (UploadRejectionReason_str reason)
  | Err (inr _) => outcome = ImportOutcome.Retryable ∧ ur_status row = "inspecting"
  end.

Lemma decide_settles now expires t p u owner examined db row upload :
  reachable db → is_valid_lease_owner owner = true → select_upload t p u db = Some row →
  ur_status row = "inspecting" → ur_inspection_lease_owner row = Some owner →
  ur_inspection_lease_expires_at row = Some expires → now < expires →
  su_expected_digest upload = ur_expected_digest row →
  su_expected_content_length upload = ur_expected_content_length row →
  (∀ i s, examined = Ok (i, s) → report_ok i ∧ promoted_ok p t upload s) →
  ∃ outcome db' row', decide_upload PARSER_VERSION now t p u owner examined db = (Ok outcome, db')
    ∧ select_upload t p u db' = Some row' ∧ settled examined outcome row'.
Proof.
  intros Hreach Ho Hsel Hs Hown Hexp Hnow Hd Hl Hex.
  pose proof (selected_row _ _ _ _ _ Hreach Hsel) as Hrow.
  destruct (row_state _ _ UploadState.Inspecting _ Hrow Hs eq_refl) as ((_ & _ & _ & Hvl & Hvd) & _).
  assert (Hlive : lease_live now (Some expires) = true) by (by apply Z.ltb_lt).
  assert (Hmine : owned_by (Some owner) owner = true) by (by apply bool_decide_eq_true).
  destruct examined as [[i s]|[reason|stage]]; simpl.
  - destruct (Hex i s eq_refl) as [Hi Hp]. unfold accept_upload.
    rewrite (accept_command_valid t p upload owner i s Ho Hi Hp). simpl.
    rewrite Hsel, Hs, Hvd, Hvl, Hown, Hexp, Hlive, Hmine.
    rewrite (promoted_same_digest _ _ _ _ Hp), (promoted_same_length _ _ _ _ Hp), Hd, Hl.
    rewrite !bool_decide_eq_true_2 by done. simpl. do 3 eexists. split; [done|].
    split; [by eapply (select_put _ _ _ row)|]. by split_and!.
  - unfold reject, reject_upload, validate_lease_owner. rewrite Ho. simpl.
    rewrite Hsel, Hs, Hown, Hexp, Hlive, Hmine. simpl. do 3 eexists. split; [done|].
    split; [by eapply (select_put _ _ _ row)|]. by split_and!.
  - by exists ImportOutcome.Retryable, db, row.
Qed.

(** C36: an undisturbed import settles its upload.  If an upload waits (it was uploaded, or an
    inspection was abandoned and attempts remain) and the importer ends within its lease
    with nobody interfering, then: when all four services agree the upload is accepted
    with the promoted source and the reported pages; when one of them finds fault it is
    rejected with that reason; when one is unavailable it stays under inspection, for
    another attempt after the lease. *)
Theorem undisturbed_import_settles clock t p u owner db g row :
  reachable db → id_valid p → id_valid t → is_valid_lease_owner owner = true →
  select_upload t p u db = Some row → waiting (clock 0%nat) row →
  clock 1%nat < clock 0%nat + LEASE_SECONDS → clock 2%nat < clock 0%nat + LEASE_SECONDS →
  ∃ upload outcome db' row',
    stored_upload (UploadId_str u) (claimed_row (clock 0%nat) owner row) = Ok upload
    ∧ let examined := examine services t p upload g in
      process PARSER_VERSION services clock (λ _ db, db) t p u owner db g = (Ok outcome, db', examined.2)
      ∧ select_upload t p u db' = Some row' ∧ settled examined.1 outcome row'.
Proof.
  intros Hreach Hp Ht Ho Hsel Hw H1 H2.
  set (db1 := put_upload u (claimed_row (clock 0%nat) owner row) db).
  pose proof (claim_waiting db (clock 0%nat) t p u owner row Hreach Hsel Hw Ho) as Hclaim. fold db1 in Hclaim.
  assert (Hr1 : reachable db1).
  { eapply effect_reachable; [exact Hreach|].
    by eapply (op_effect _ (OpClaimUploadInspection (clock 0%nat) t p u owner)); [| |exact Hclaim]. }
  assert (Hsel1 : select_upload t p u db1 = Some (claimed_row (clock 0%nat) owner row))
    by (by eapply select_put).
  pose proof (selected_row _ _ _ _ _ Hr1 Hsel1) as Hrow1.
  destruct (parsed_state _ _ Hrow1) as (s1 & _ & Hs1 & Hok1).
  destruct (stored_upload_ok _ _ _ (upload_id_ok _ _ Hrow1) (upload_static_ok _ _ Hrow1) Hs1 Hok1)
    as (upload & Hdec & _).
  pose proof (stored_upload_fields _ _ _ Hdec) as (Hd & Hl & _ & _).
  assert (Hload : load_claimed_upload (clock 1%nat) t p u owner db1 = Ok (Some upload)).
  { unfold load_claimed_upload, validate_lease_owner. rewrite Ho. simpl. rewrite Hsel1.
    unfold owned_by, lease_live. simpl. rewrite bool_decide_eq_true_2 by done.
    rewrite (proj2 (Z.ltb_lt _ _) H1). simpl. by rewrite Hdec. }
  destruct (examine services t p upload g) as [examined g'] eqn:Hex.
  destruct (decide_settles (clock 2%nat) (clock 0%nat + LEASE_SECONDS) t p u owner examined db1 _
    upload Hr1 Ho Hsel1 eq_refl eq_refl eq_refl H2 Hd Hl) as (outcome & db' & row' & Hdecide & Hsel' & Hset).
  { intros i s ->. by eapply examine_sound. }
  exists upload, outcome, db', row'. rewrite Hex. simpl. split_and!; [done| |done|done].
  unfold process. rewrite Hclaim, Hload, Hex, Hdecide. done.
Qed.
End Facts.

(** ** Witnesses *)

Definition sample_reservation : CreateUpload :=
  {| cu_upload_id := sample_upload "1"; cu_tenant_id := sample_tenant; cu_product_id := sample_product;
     cu_idempotency_key := mkIdempotencyKey "key-1";
     cu_request_digest := mkRequestDigest sample_digest; cu_object_bucket := "s3://quarantine-a";
     cu_object_name := "products/prod/tenants/ten_a/quarantine/upl_1";
     cu_expected_content_type := "application/pdf"; cu_expected_content_length := 3;
     cu_expected_digest := sha256_digest (repeat 0 32); cu_expires_at := 1000 |}.

Definition sample_received : RecordUpload :=
  {| ru_object_version := "1"; ru_verified_content_type := "application/pdf";
     ru_verified_content_length := 3; ru_verified_digest := sha256_digest (repeat 0 32) |}.

Definition sample_waiting_ops : list StoreOp :=
  [OpCreateUpload 1 sample_reservation;
   OpRecordUploaded 2 2 sample_tenant sample_product (sample_upload "1") sample_received].

Definition sample_report : ParserInspectionReport :=
  mkParserInspectionReport 1 20000 20000 [sample_geometry].

Definition sample_parser : ParserProcess :=
  mkParserProcess "/bin/parser" 1000 1000 100000000 100000000000 "/usr/bin/pdftotext".

Definition sample_services : Services () :=
  deployed_services (λ _ g, (Ok (), g)) (λ _ g, (Ok [1; 2; 3], g))
    (λ _ _ _ _, Exited (Some 0) []) (λ _, Some (report_json sample_report)) sample_parser
    sample_sha256 (λ _, true) (λ g, (None, g)) (λ _ _ g, (None, g)) (λ _, None) "" sample_routes.

#[local] Instance sample_services_sound : ImportServices sample_services.
Proof. apply (deployed_importer _ _ _ _ _ _ _ _ _ _ _ sample_store sample_entries). by vm_compute. Qed.

Definition sample_import : result StoreError ImportOutcome.ImportOutcome * Db * () :=
  process "1.0" sample_services (λ _, 3) (λ _ db, db) sample_tenant sample_product (sample_upload "1")
    "worker-1" (sample_db sample_waiting_ops) ().

Lemma sample_waiting_reachable : reachable sample_size sample_size (sample_db sample_waiting_ops).
Proof.
  exists sample_waiting_ops. split; [|done]. repeat constructor; by vm_compute.
Qed.

Lemma sample_import_accepted : sample_import = (Ok ImportOutcome.Accepted, sample_import.1.2, ()).
Proof.
  assert (H : sample_import.1.1 = Ok ImportOutcome.Accepted) by (vm_compute; reflexivity).
  revert H. generalize sample_import. intros [[outcome db] []]. simpl. by intros ->.
Qed.

Lemma sample_no_interference (k : nat) db : effect_of_ops sample_size sample_size db ((λ _ db, db) k db).
Proof. apply effect_none. Qed.

Theorem import_accepts_inspected_witness :
  ∃ row, select_upload sample_tenant sample_product (sample_upload "1") sample_import.1.2 = Some row
    ∧ ur_status row = "accepted".
Proof.
  assert (Hp : id_valid sample_product) by (vm_compute; reflexivity).
  assert (Ht : id_valid sample_tenant) by (vm_compute; reflexivity).
  destruct (import_accepts_inspected sample_size sample_size "1.0" sample_services (λ _, 3)
    (λ _ db, db) sample_no_interference sample_tenant sample_product (sample_upload "1") "worker-1"
    (sample_db sample_waiting_ops) () sample_import.1.2 () sample_waiting_reachable Hp Ht
    sample_import_accepted) as (_ & _ & _ & _ & _ & _ & _ & row & _ & _ & _ & _ & _ & _ & _ & Hsel & Hs & _).
  exists row. split; [exact Hsel|exact Hs].
Defined.

Theorem import_fails_exactly_witness :
  process "1.0" sample_services (λ _, 3) (λ _ db, db) sample_tenant sample_product (sample_upload "1")
    "" (sample_db sample_waiting_ops) ()
  = (Err InvalidStoredUpload, sample_db sample_waiting_ops, ()).
Proof.
  assert (Hv : is_valid_parser_identifier "1.0" = true) by (vm_compute; reflexivity).
  assert (Hp : id_valid sample_product) by (vm_compute; reflexivity).
  assert (Ht : id_valid sample_tenant) by (vm_compute; reflexivity).
  assert (Ho : is_valid_lease_owner "" = false) by (vm_compute; reflexivity).
  exact (proj1 (import_fails_exactly sample_size sample_size "1.0" Hv sample_services (λ _, 3)
    (λ _ db, db) sample_no_interference sample_tenant sample_product (sample_upload "1") ""
    (sample_db sample_waiting_ops) () sample_waiting_reachable Hp Ht) Ho).
Defined.

Definition sample_waiting_row : UploadRow :=
  default sample_inspecting_row
    (select_upload sample_tenant sample_product (sample_upload "1") (sample_db sample_waiting_ops)).

Theorem undisturbed_import_settles_witness :
  ∃ upload outcome db' row',
    stored_upload "upl_1" (claimed_row 3 "worker-1" sample_waiting_row) = Ok upload
    ∧ process "1.0" sample_services (λ _, 3) (λ _ db, db) sample_tenant sample_product
        (sample_upload "1") "worker-1" (sample_db sample_waiting_ops) () = (Ok outcome, db', ())
    ∧ select_upload sample_tenant sample_product (sample_upload "1") db' = Some row'.
Proof.
  assert (Hv : is_valid_parser_identifier "1.0" = true) by (vm_compute; reflexivity).
  assert (Hp : id_valid sample_product) by (vm_compute; reflexivity).
  assert (Ht : id_valid sample_tenant) by (vm_compute; reflexivity).
  assert (Ho : is_valid_lease_owner "worker-1" = true) by (vm_compute; reflexivity).
  assert (Hsel : select_upload sample_tenant sample_product (sample_upload "1")
    (sample_db sample_waiting_ops) = Some sample_waiting_row) by (vm_compute; reflexivity).
  assert (Hw : waiting 3 sample_waiting_row) by (left; vm_compute; reflexivity).
  assert (Hlt : 3 < 3 + LEASE_SECONDS) by (vm_compute; reflexivity).
  destruct (undisturbed_import_settles sample_size sample_size "1.0" Hv sample_services (λ _, 3)
    sample_tenant sample_product (sample_upload "1") "worker-1" (sample_db sample_waiting_ops) ()
    sample_waiting_row sample_waiting_reachable Hp Ht Ho Hsel Hw Hlt Hlt)
    as (upload & outcome & db' & row' & Hdec & Hrun & Hsel' & _).
  exists upload, outcome, db', row'. split; [exact Hdec|]. split; [|exact Hsel'].
  rewrite Hrun. f_equal. by destruct (examine _ _ _ _ _) as [? []].
Defined.
