(* ===== verification/Dispatcher.v ===== *)
(** * Dispatcher: one pass over the scopes with work

    Models [ocr-temporal/src/work_scope_dispatcher.rs].  The uploads' importer and the
    job relay are functions on the database and the state [G] of everything else;
    [now] is the time at which a statement runs, read from that state.

    [dispatch_loop] is the loop of [ocr-temporal/src/bin/ocr-dispatch-worker.rs] over the
    ticks it awaits; the second between two ticks and the log lines are not modelled.

    The dispatcher is proved against interfaces of its importer and its relay, which
    [Importer] and [JobOutboxRelay] implement: in every reachable database every pass
    ends within its limits, or with the error that a lost lease makes. *)

From S2P Require Import Prelude Text DomainTypes Identifiers Digest PageWorkflow Geometry.
From S2P Require Import StoreTypes StoreChecks StoreDb StoreJobs StorePages StoreUploads.
From S2P Require Import StoreOutbox StoreRun StoreJobsFacts StoreUploadsFacts StoreOutboxFacts.
From S2P Require Import Temporal Relay RelayFacts ParserProcess Importer Promotion.
From S2P Require Import ParserProcessFacts PromotionFacts ImporterFacts.

#[local] Open Scope list_scope.
#[local] Open Scope Z_scope.

Record WorkScopeDispatchOutcome := mkWorkScopeDispatchOutcome {
  scopes : Z;
  uploads : Z;
  workflows : Z;
  lease_lost : Z;
}.

(** The store's errors, also those of the importer and of the relay. *)
Module WorkScopeDispatchError.
Inductive WorkScopeDispatchError :=
| Store (e : StoreError)
| Import (e : StoreError)
| Relay (e : StoreError)
| InvalidConfiguration.
End WorkScopeDispatchError.

Notation PassResult := (result WorkScopeDispatchError.WorkScopeDispatchError).

(** A letter or digit first, then also [. _ : -]. *)
Definition valid_lease_owner (value : string) : bool :=
  contains 1 128 (strlen value)
  && match value with
     | EmptyString => true
     | String first rest =>
         is_ascii_alphanumeric first
         && all_bytes (λ byte, is_ascii_alphanumeric byte || byte_in "._:-" byte) rest
     end.

Record WorkScopeDispatcher := mkWorkScopeDispatcher {
  dispatcher_lease_owner : string;
  scope_limit : Z;
  upload_limit : Z;
}.

Definition WorkScopeDispatcher_new (lease_owner : string) (scope_limit upload_limit : Z)
    : PassResult WorkScopeDispatcher :=
  if negb (valid_lease_owner lease_owner) || negb (contains 1 100 scope_limit)
     || negb (contains 1 100 upload_limit)
  then Err WorkScopeDispatchError.InvalidConfiguration
  else Ok {| dispatcher_lease_owner := lease_owner; scope_limit := scope_limit;
             upload_limit := upload_limit |}.

Section Dispatcher.
Context {G : Type}.
Context (now : Db * G → Z).
Context (locked : string * string → bool).
Context (reconcile : TenantId → ProductId → UploadId → string → Db * G →
  result StoreError ImportOutcome.ImportOutcome * (Db * G)).
Context (relay : TenantId → ProductId → string → Z → Db * G →
  result StoreError RelayOutcome.RelayOutcome * (Db * G)).
Context (self : WorkScopeDispatcher).

(** The loop over the uploads to reconcile. *)
Fixpoint reconcile_uploads (tenant_id : TenantId) (product_id : ProductId)
    (upload_ids : list UploadId) (outcome : WorkScopeDispatchOutcome) (world : Db * G)
    : PassResult WorkScopeDispatchOutcome * (Db * G) :=
  match upload_ids with
  | [] => (Ok outcome, world)
  | upload_id :: rest =>
      match reconcile tenant_id product_id upload_id (dispatcher_lease_owner self) world with
      | (Err e, world) => (Err (WorkScopeDispatchError.Import e), world)
      | (Ok _, world) =>
          reconcile_uploads tenant_id product_id rest
            (mkWorkScopeDispatchOutcome (scopes outcome) (uploads outcome + 1) (workflows outcome)
               (lease_lost outcome)) world
      end
  end.

Definition dispatch_scope (tenant_id : TenantId) (product_id : ProductId) (world : Db * G)
    : PassResult WorkScopeDispatchOutcome * (Db * G) :=
  match list_reconcilable_uploads (now world) tenant_id product_id (upload_limit self) world.1 with
  | Err e => (Err (WorkScopeDispatchError.Store e), world)
  | Ok upload_ids =>
      match reconcile_uploads tenant_id product_id upload_ids
              (mkWorkScopeDispatchOutcome 0 0 0 0) world with
      | (Err e, world) => (Err e, world)
      | (Ok outcome, world) =>
          match relay tenant_id product_id (dispatcher_lease_owner self) (upload_limit self) world with
          | (Err e, world) => (Err (WorkScopeDispatchError.Relay e), world)
          | (Ok relayed, world) =>
              let counted published lost :=
                mkWorkScopeDispatchOutcome (scopes outcome) (uploads outcome)
                  (workflows outcome + published) (lease_lost outcome + lost) in
              (Ok match relayed with
                  | RelayOutcome.Idle => outcome
                  | RelayOutcome.Published published | RelayOutcome.Retryable published =>
                      counted published 0
                  | RelayOutcome.LeaseLost published => counted published 1
                  end, world)
          end
      end
  end.

(** The loop over the claimed scopes: a scope is released whether or not its dispatch
    failed, and only then the error is returned. *)
Fixpoint dispatch_scopes (claimed : list StoredWorkScope) (outcome : WorkScopeDispatchOutcome)
    (world : Db * G) : PassResult WorkScopeDispatchOutcome * (Db * G) :=
  match claimed with
  | [] => (Ok outcome, world)
  | scope :: rest =>
      let (dispatched, world) := dispatch_scope (ws_tenant_id scope) (ws_product_id scope) world in
      let (db, g) := world in
      match release_work_scope (now (db, g)) scope (dispatcher_lease_owner self) db with
      | Err e => (Err (WorkScopeDispatchError.Store e), (db, g))
      | Ok (released, db) =>
          let lost := if released then 0 else 1 in
          match dispatched with
          | Err e => (Err e, (db, g))
          | Ok dispatched =>
              dispatch_scopes rest
                (mkWorkScopeDispatchOutcome (scopes outcome) (uploads outcome + uploads dispatched)
                   (workflows outcome + workflows dispatched)
                   (lease_lost outcome + lost + lease_lost dispatched)) (db, g)
          end
      end
  end.

Definition dispatch_once (world : Db * G) : PassResult WorkScopeDispatchOutcome * (Db * G) :=
  let (db, g) := world in
  match claim_work_scopes (now world) locked
          (mkClaimWorkScopes (dispatcher_lease_owner self) (scope_limit self)) db with
  | (Err e, db) => (Err (WorkScopeDispatchError.Store e), (db, g))
  | (Ok claimed, db) =>
      dispatch_scopes claimed (mkWorkScopeDispatchOutcome (zlen claimed) 0 0 0) (db, g)
  end.

(** What the loop of the worker awaits: the next tick of its clock, before which others
    may have changed the world, or a signal to shut down. *)
Inductive WorkerEvent :=
| Tick (meanwhile : Db * G → Db * G)
| ShutdownSignal.

(** The loop of the worker, with the results of its passes: an error is logged, and the
    next tick starts another pass. *)
Fixpoint dispatch_loop (events : list WorkerEvent) (world : Db * G)
    : list (PassResult WorkScopeDispatchOutcome) * (Db * G) :=
  match events with
  | [] | ShutdownSignal :: _ => ([], world)
  | Tick meanwhile :: rest =>
      let (outcome, world) := dispatch_once (meanwhile world) in
      let (outcomes, world) := dispatch_loop rest world in
      (outcome :: outcomes, world)
  end.
End Dispatcher.

(** [impl UploadReconciler for Importer]: the importer on its services, which are part of
    the state; [clock] and [meanwhile] are those of [process]. *)
Definition Importer_reconcile {G : Type} (PARSER_VERSION : string) (services : Services G)
    (clock : G → nat → Z) (meanwhile : G → nat → Db → Db) (tenant_id : TenantId)
    (product_id : ProductId) (upload_id : UploadId) (lease_owner : string) (world : Db * G)
    : result StoreError ImportOutcome.ImportOutcome * (Db * G) :=
  let '(outcome, db, g) :=
    process PARSER_VERSION services (clock world.2) (meanwhile world.2) tenant_id product_id upload_id
      lease_owner world.1 world.2 in
  (outcome, (db, g)).

Section Facts.
Context (ss js : RawPageWorkflow → Z).
#[local] Notation reachable := (StoreRun.reachable ss js).
#[local] Notation effect_of_ops := (StoreRun.effect_of_ops ss js).

(** ** The directory of scopes holds valid identifiers *)

Definition valid_key (key : string * string) : Prop := valid_scope key.1 key.2.

(** A scope is only ever registered for an upload or a job. *)
Definition scopes_from (db db' : Db) : Prop :=
  ∀ key, is_Some (ocr_work_scopes db' !! key) →
    is_Some (ocr_work_scopes db !! key) ∨ valid_key key
    ∨ (∃ id row, ocr_uploads db !! id = Some row ∧ key = (ur_product_id row, ur_tenant_id row))
    ∨ (∃ id row, ocr_jobs db !! id = Some row ∧ key = (jr_product_id row, jr_tenant_id row)).

Lemma scopes_from_same db db' : ocr_work_scopes db' = ocr_work_scopes db → scopes_from db db'.
Proof. intros Heq key. rewrite Heq. by left. Qed.

Lemma set_pending_keys now p t kind b db :
  ∀ key, is_Some (ocr_work_scopes (set_work_scope_pending now p t kind b db) !! key) →
    is_Some (ocr_work_scopes db !! key).
Proof.
  intros key. simpl. destruct (decide (key = (p, t))) as [->|Hne].
  - rewrite lookup_alter_eq. by rewrite fmap_is_Some.
  - by rewrite lookup_alter_ne.
Qed.

Lemma register_keys now p t kind db key :
  is_Some (ocr_work_scopes (register_work_scope now p t kind db) !! key) →
  key = (p, t) ∨ is_Some (ocr_work_scopes db !! key).
Proof. simpl. intros [s [[<- _]|[_ Hl]]%lookup_insert_Some]; [by left|right; by eexists]. Qed.

Ltac frame_scopes :=
  unfold db_after, and_then, ok_or, update_job_status, put_upload, insert_upload_outbox,
    insert_outbox, with_jobs, with_uploads, with_outbox;
  repeat (simpl; case_match; simplify_eq/=); done.

Lemma create_scopes now r db :
  id_valid (cj_tenant_id r) → id_valid (cj_product_id r) →
  scopes_from db (db_after (create now r) db).
Proof.
  intros Ht Hp. unfold db_after, create.
  destruct (insert_job now r db) as [[[row db']|]|e] eqn:Hi; simpl; [| |by apply scopes_from_same].
  - apply insert_job_spec in Hi as (_ & _ & _ & _ & _ & _ & _ & _ & _ & _ & _ & ->).
    destruct (stored_job _ _); simpl; [|by apply scopes_from_same].
    intros key [-> | Hk]%register_keys; [|by left]. right. left.
    split; [exact (id_valid_ok _ Hp)|exact (id_valid_ok _ Ht)].
  - unfold and_then. repeat (simpl; case_match; simplify_eq/=); by apply scopes_from_same.
Qed.

Lemma cancel_scopes now t p j db : scopes_from db (db_after (cancel now t p j) db).
Proof.
  unfold db_after, cancel. destruct (update_job_status _ _ _ _ _ _) as [[row db']|] eqn:Hu.
  - apply update_job_status_Some in Hu as (old & (Hj & Ht & Hp)%select_job_Some & _ & -> & ->).
    destruct (stored_job _ _); simpl; [|by apply scopes_from_same].
    intros key [-> | Hk]%register_keys; [|by left]. right. right. right.
    exists (JobId_str j), old. by rewrite Ht, Hp.
  - destruct (select_job _ _ _ _); [|by apply scopes_from_same].
    destruct (stored_job _ _) as [job|]; simpl; [|by apply scopes_from_same].
    destruct (sj_state job); by apply scopes_from_same.
Qed.

Lemma record_scopes now clock t p u r db : scopes_from db (db_after (record_uploaded now clock t p u r) db).
Proof.
  unfold db_after, record_uploaded. destruct (validate_record r); simpl; [|by apply scopes_from_same].
  destruct (select_upload t p u db) as [row|] eqn:Hsel; [|by apply scopes_from_same].
  apply select_upload_Some in Hsel as (Hl & Ht & Hp). destruct (_ && _).
  - destruct (stored_upload _ _); simpl; [|by apply scopes_from_same].
    intros key [-> | Hk]%register_keys; [|by left]. right. right. left.
    exists (UploadId_str u), row. by rewrite Ht, Hp.
  - unfold and_then. repeat (simpl; case_match; simplify_eq/=); by apply scopes_from_same.
Qed.

(** The statements that only set the flag of a scope. *)
Lemma claim_upload_scopes now t p u o db :
  ∀ key, is_Some (ocr_work_scopes (db_after (claim_upload_inspection now t p u o) db) !! key) →
    is_Some (ocr_work_scopes db !! key).
Proof.
  unfold db_after, claim_upload_inspection. destruct (validate_lease_owner o); simpl; [|done].
  destruct (select_upload t p u db) as [row|]; [|done].
  destruct (parse_upload_state _); simpl; [|done].
  destruct (inspection_outcome _ _ _ _); try done; [by destruct (owned_by _ _)|].
  intros key. exact (set_pending_keys _ _ _ _ _ _ key).
Qed.

Lemma accept_upload_scopes now t p u src db :
  ∀ key, is_Some (ocr_work_scopes (db_after (accept_upload now t p u src) db) !! key) →
    is_Some (ocr_work_scopes db !! key).
Proof.
  unfold db_after, accept_upload. destruct (validate_accepted_source src); simpl; [|done].
  destruct (select_upload t p u db) as [row|]; [|done]. destruct (_ && _).
  - intros key. exact (set_pending_keys _ _ _ _ _ _ key).
  - by destruct (parse_upload_state _).
Qed.

Lemma reject_upload_scopes now t p u o reason db :
  ∀ key, is_Some (ocr_work_scopes (db_after (reject_upload now t p u o reason) db) !! key) →
    is_Some (ocr_work_scopes db !! key).
Proof.
  unfold db_after, reject_upload. destruct (validate_lease_owner o); simpl; [|done].
  destruct (select_upload t p u db) as [row|]; [|done]. destruct (_ && _).
  - intros key. exact (set_pending_keys _ _ _ _ _ _ key).
  - destruct (parse_upload_state _); simpl; [|done]. destruct (negb _); [done|].
    by destruct (bool_decide _).
Qed.

Lemma claim_events_scopes now locked t p claim db :
  ∀ key, is_Some (ocr_work_scopes (db_after (claim_job_outbox now locked t p claim) db) !! key) →
    is_Some (ocr_work_scopes db !! key).
Proof.
  unfold db_after, claim_job_outbox. destruct (validate_lease_owner _); simpl; [|done].
  destruct (negb _); [done|]. destruct (claim_rows _ _ _ _) as [table claimed].
  destruct (collect_results _ _); simpl; [|done]. destruct (_ =? 0); [|done].
  intros key. exact (set_pending_keys _ _ _ _ _ _ key).
Qed.

Lemma publish_event_scopes now t p id o db :
  ∀ key, is_Some (ocr_work_scopes (db_after (publish_job_outbox now t p id o) db) !! key) →
    is_Some (ocr_work_scopes db !! key).
Proof.
  unfold db_after, publish_job_outbox. destruct (validate_lease_owner _); simpl; [|done].
  destruct (_ <=? 0); [done|]. destruct (existsb _ _); [|done].
  intros key. exact (set_pending_keys _ _ _ _ _ _ key).
Qed.

Lemma claim_scopes_scopes now locked claim db :
  ∀ key, is_Some (ocr_work_scopes (claim_work_scopes now locked claim db).2 !! key) →
    is_Some (ocr_work_scopes db !! key).
Proof.
  unfold claim_work_scopes. destruct (validate_lease_owner _); [|done].
  destruct (negb _); [done|]. destruct (negb _); [done|]. intros key. simpl.
  rewrite (foldr_insert_lookup (λ s, set_scope_lease s now (Some (scopes_lease_owner claim))
    (Some (now + LEASE_SECONDS)))); [by case_decide; rewrite ?fmap_is_Some|].
  intros k s Hin. by eapply scope_candidates_spec.
Qed.

Lemma release_scopes now scope o db :
  ∀ key, is_Some (ocr_work_scopes (db_after (release_work_scope now scope o) db) !! key) →
    is_Some (ocr_work_scopes db !! key).
Proof.
  unfold db_after, release_work_scope, ocr_release_work_scope.
  destruct (validate_lease_owner _); simpl; [|done].
  destruct (ocr_work_scopes db !! _) as [s|] eqn:Hs; [|done]. destruct (_ && _); [|done].
  simpl. intros key [x [[<- _]|[_ Hl]]%lookup_insert_Some]; by eexists.
Qed.

Lemma apply_op_scopes op db : op_valid op → scopes_from db (apply_op ss js op db).
Proof.
  intros Hop. destruct op; simpl in *.
  - apply create_scopes; apply Hop.
  - apply cancel_scopes.
  - apply scopes_from_same. unfold complete_cancellation. frame_scopes.
  - apply scopes_from_same. unfold commit_result, insert_result. frame_scopes.
  - apply scopes_from_same. unfold create_page_workflow, insert_workflow. frame_scopes.
  - apply scopes_from_same.
    unfold save_page_workflow_with_artifacts, update_workflow. frame_scopes.
  - apply scopes_from_same. unfold create_upload, insert_upload. frame_scopes.
  - apply record_scopes.
  - intros key. left. by eapply claim_upload_scopes.
  - intros key. left. by eapply accept_upload_scopes.
  - intros key. left. by eapply reject_upload_scopes.
  - intros key. left. by eapply claim_events_scopes.
  - apply scopes_from_same. unfold claim_webhook_outbox. frame_scopes.
  - intros key. left. by eapply publish_event_scopes.
  - intros key. left. by eapply claim_scopes_scopes.
  - intros key. left. by eapply release_scopes.
Qed.

Definition scopes_ok (db : Db) : Prop :=
  ∀ key, is_Some (ocr_work_scopes db !! key) → valid_key key.

Lemma reachable_scopes_ok db : reachable db → scopes_ok db.
Proof.
  intros (ops & Hops & ->).
  assert (H : uploads_ok (run_ops ss js ops empty_db) ∧ job_sources (run_ops ss js ops empty_db)
    ∧ scopes_ok (run_ops ss js ops empty_db)); [|apply H].
  apply (run_ops_ind ss js (λ db, uploads_ok db ∧ job_sources db ∧ scopes_ok db)); [|done|].
  - intros op db Hop (Hu & Hj & Hs).
    destruct (step_sources ss js op db Hop Hu Hj) as [Hu' Hj'].
    split_and!; [done|done|]. intros key Hk.
    destruct (apply_op_scopes op db Hop key Hk)
      as [Hold|[Hv|[(id & row & Hl & ->)|(id & row & Hl & ->)]]]; [by apply Hs|done|..].
    + apply (upload_scope_ok _ _ (Hu _ _ Hl)).
    + destruct (Hj _ _ Hl) as (up & Hup & _ & Ht & Hp). unfold valid_key. simpl.
      rewrite <- Ht, <- Hp. apply (upload_scope_ok _ _ (Hu _ _ Hup)).
  - split_and!; [| |intros key; simpl; rewrite lookup_empty; by intros [? [=]]];
      intros id row; simpl; by rewrite lookup_empty.
Qed.

(** ** The store's part of a pass *)

Lemma stored_scope_total key : valid_key key →
  ∃ scope, stored_work_scope key = Ok scope ∧ id_valid (ws_product_id scope)
    ∧ id_valid (ws_tenant_id scope).
Proof.
  intros [[p Hp]%is_ok_true [t Ht]%is_ok_true]. unfold stored_work_scope. rewrite Hp, Ht. simpl.
  eexists. split; [done|]. simpl. split.
  - exact (id_new_valid (T := ProductId) _ _ Hp).
  - exact (id_new_valid (T := TenantId) _ _ Ht).
Qed.

Lemma valid_owner_store owner :
  valid_lease_owner owner = true → is_valid_lease_owner owner = true ∧ sql_lease_owner owner = true.
Proof.
  unfold valid_lease_owner, sql_lease_owner, is_valid_lease_owner. rewrite andb_true_iff.
  intros [Hlen Hb]. destruct owner as [|first rest]; [done|]. rewrite andb_true_iff in Hb.
  destruct Hb as [Hf Hr]. cbn [first_byte is_some_and]. rewrite Hlen, Hf. simpl. rewrite Hf. simpl.
  assert (Hall : all_bytes (λ a, is_ascii_alphanumeric a || byte_in "-_.:" a) rest = true); [|done].
  eapply all_bytes_impl; [|exact Hr]. intros a. unfold byte_in. simpl.
  rewrite !orb_true_iff. tauto.
Qed.

Lemma collect_total {A B E} (f : A → result E B) (P : B → Prop) l :
  (∀ a, a ∈ l → ∃ b, f a = Ok b ∧ P b) → ∃ bs, collect_results f l = Ok bs ∧ Forall P bs.
Proof.
  induction l as [|a l IH]; intros Hall; simpl; [by exists []|].
  destruct (Hall a (list_elem_of_here _ _)) as (b & -> & Hb).
  destruct IH as (bs & -> & Hbs); [intros; apply Hall; by apply list_elem_of_further|].
  exists (b :: bs). split; [done|by constructor].
Qed.

Lemma claim_scopes_total now locked owner limit db :
  reachable db → valid_lease_owner owner = true → contains 1 100 limit = true →
  ∃ scopes, (claim_work_scopes now locked (mkClaimWorkScopes owner limit) db).1 = Ok scopes
    ∧ zlen scopes ≤ limit ∧ Forall (λ s, id_valid (ws_product_id s) ∧ id_valid (ws_tenant_id s)) scopes.
Proof.
  intros Hreach [Hv Hsql]%valid_owner_store Hlim. unfold claim_work_scopes, validate_lease_owner.
  simpl. rewrite Hv. simpl. rewrite Hlim, Hsql. simpl.
  set (candidates := take _ _).
  destruct (collect_total (λ '(key, _), stored_work_scope key)
    (λ s, id_valid (ws_product_id s) ∧ id_valid (ws_tenant_id s)) candidates) as (scopes & Hs & Hall).
  - intros [key s] Hin. apply stored_scope_total, (reachable_scopes_ok db Hreach).
    exists s. by eapply scope_candidates_spec.
  - exists scopes. split_and!; [done| |done]. apply collect_results_length in Hs.
    unfold zlen. rewrite Hs. unfold candidates. rewrite length_take.
    apply contains_true in Hlim. lia.
Qed.

Lemma list_uploads_total now t p limit db :
  reachable db → contains 1 100 limit = true →
  ∃ ids, list_reconcilable_uploads now t p limit db = Ok ids ∧ zlen ids ≤ limit.
Proof.
  intros Hreach Hlim. unfold list_reconcilable_uploads. rewrite Hlim. simpl.
  set (rows := List.filter _ _).
  destruct (collect_total (λ '(id, _), map_err (UploadId_new id) (λ _, InvalidStoredUpload))
    (λ _, True) (take (Z.to_nat limit) (sort_by uploaded_before rows))) as (ids & Hids & _).
  - intros [id row] Hin.
    assert (Hl : ocr_uploads db !! id = Some row).
    { apply elem_of_take in Hin as (i & Hin & _). apply list_elem_of_lookup_2 in Hin.
      apply elem_of_sort_by, list_elem_of_In, List.filter_In in Hin as [Hin _].
      by apply elem_of_map_to_list, list_elem_of_In. }
    pose proof (upload_id_ok _ _ (reachable_uploads_ok ss js db Hreach _ _ Hl)) as Hid.
    apply is_ok_true in Hid as [u ->]. by eexists.
  - exists ids. split; [done|]. apply collect_results_length in Hids. unfold zlen. rewrite Hids, length_take.
    apply contains_true in Hlim. lia.
Qed.

(** The lease of a scope, as the update of its release finds it. *)
Definition lease_held (now : Z) (owner : string) (scope : StoredWorkScope) (db : Db) : bool :=
  match ocr_work_scopes db !! (ProductId_str (ws_product_id scope), TenantId_str (ws_tenant_id scope)) with
  | Some s => owned_by (scope_lease_owner s) owner && lease_live now (scope_lease_expires_at s)
  | None => false
  end.

Lemma release_held now scope owner db :
  is_valid_lease_owner owner = true →
  if lease_held now owner scope db
  then ∃ db', release_work_scope now scope owner db = Ok (true, db') ∧ effect_of_ops db db'
  else release_work_scope now scope owner db = Err Database.
Proof.
  intros Ho. assert (He : effect_of_ops db (db_after (release_work_scope now scope owner) db))
    by (by apply (effect_op (OpReleaseWorkScope now scope owner))).
  revert He. unfold db_after, release_work_scope, ocr_release_work_scope, lease_held, validate_lease_owner.
  rewrite Ho. simpl. destruct (ocr_work_scopes db !! _) as [s|]; simpl; [|done].
  destruct (_ && _); simpl; [|done]. intros He. by eexists.
Qed.

(** ** The interfaces, and a pass *)

(** An importer never fails, and only runs operations of the store. *)
Class ReliableReconciler {G : Type}
    (reconcile : TenantId → ProductId → UploadId → string → Db * G →
       result StoreError ImportOutcome.ImportOutcome * (Db * G)) :=
  reconcile_total : ∀ t p u owner w, reachable w.1 → id_valid p → id_valid t →
    is_valid_lease_owner owner = true →
    ∃ outcome w', reconcile t p u owner w = (Ok outcome, w') ∧ effect_of_ops w.1 w'.1.

Class ReliableRelay {G : Type}
    (relay : TenantId → ProductId → string → Z → Db * G →
       result StoreError RelayOutcome.RelayOutcome * (Db * G)) :=
  relay_total : ∀ t p owner limit w, reachable w.1 → is_valid_lease_owner owner = true →
    contains 1 100 limit = true →
    ∃ outcome w', relay t p owner limit w = (Ok outcome, w') ∧ effect_of_ops w.1 w'.1
      ∧ 0 ≤ published_count outcome.

Lemma importer_reconciles {G : Type} version (services : Services G) `{!ImportServices services}
    (clock : G → nat → Z) meanwhile :
  is_valid_parser_identifier version = true → (∀ g k db, effect_of_ops db (meanwhile g k db)) →
  ReliableReconciler (Importer_reconcile version services clock meanwhile).
Proof.
  intros Hversion Hmean t p u owner [db g] Hreach Hp Ht Ho. unfold Importer_reconcile. simpl.
  destruct (process_total ss js version Hversion services (clock g) (meanwhile g) (Hmean g)
    t p u owner db g Hreach Hp Ht Ho) as (outcome & db' & g' & Hrun & Heff).
  rewrite Hrun. by exists outcome, (db', g').
Qed.

Lemma relay_relays {G : Type} sha256 (dispatch : WorkflowDispatch → Db * G → DispatchResult * (Db * G))
    `{!DurableStarter ss js dispatch} arrange clock (now : Db * G → Z) locked :
  (∀ l, arrange l ≡ₚ l) →
  ReliableRelay (λ t p owner limit w,
    relay_scope sha256 dispatch arrange clock (now w) locked t p owner limit w).
Proof.
  intros Harr t p owner limit [db g] Hreach Ho Hl.
  destruct (relay_scope_spec ss js sha256 dispatch clock arrange db g (now (db, g)) locked t p owner
    limit Harr Hreach Ho Hl) as (events & db1 & outcome & db' & g' & _ & Hrun & Heff & Hn & _).
  exists outcome, (db', g'). split_and!; [exact Hrun|done|lia].
Qed.

Section Pass.
Context {G : Type} (now : Db * G → Z) (locked : string * string → bool).
Context (reconcile : TenantId → ProductId → UploadId → string → Db * G →
  result StoreError ImportOutcome.ImportOutcome * (Db * G)) `{!ReliableReconciler reconcile}.
Context (relay : TenantId → ProductId → string → Z → Db * G →
  result StoreError RelayOutcome.RelayOutcome * (Db * G)) `{!ReliableRelay relay}.
Context (self : WorkScopeDispatcher).
Context (Howner : valid_lease_owner (dispatcher_lease_owner self) = true).
Context (Hscopes : contains 1 100 (scope_limit self) = true).
Context (Huploads : contains 1 100 (upload_limit self) = true).

Lemma store_owner : is_valid_lease_owner (dispatcher_lease_owner self) = true.
Proof. by apply valid_owner_store. Qed.

Lemma reconcile_uploads_total t p ids outcome w :
  reachable w.1 → id_valid p → id_valid t →
  ∃ w', reconcile_uploads reconcile self t p ids outcome w
      = (Ok (mkWorkScopeDispatchOutcome (scopes outcome) (uploads outcome + zlen ids)
               (workflows outcome) (lease_lost outcome)), w')
    ∧ effect_of_ops w.1 w'.1.
Proof.
  intros Hreach Hp Ht. revert outcome w Hreach. induction ids as [|id ids IH]; intros outcome w Hreach; simpl.
  - exists w. rewrite Z.add_0_r. destruct outcome. split; [done|apply effect_none].
  - destruct (reconcile_total t p id (dispatcher_lease_owner self) w Hreach Hp Ht store_owner)
      as (o & w1 & -> & Heff1).
    destruct (IH (mkWorkScopeDispatchOutcome (scopes outcome) (uploads outcome + 1)
      (workflows outcome) (lease_lost outcome)) w1 (effect_reachable _ _ Hreach Heff1))
      as (w2 & -> & Heff2).
    exists w2. simpl. rewrite zlen_cons. split; [|by eapply effect_trans].
    do 3 f_equal. lia.
Qed.

Lemma dispatch_scope_total t p w :
  reachable w.1 → id_valid p → id_valid t →
  ∃ outcome w', dispatch_scope now reconcile relay self t p w = (Ok outcome, w')
    ∧ effect_of_ops w.1 w'.1 ∧ 0 ≤ uploads outcome ≤ upload_limit self
    ∧ 0 ≤ workflows outcome ∧ 0 ≤ lease_lost outcome ≤ 1.
Proof.
  intros Hreach Hp Ht. unfold dispatch_scope.
  destruct (list_uploads_total (now w) t p (upload_limit self) w.1 Hreach Huploads) as (ids & -> & Hids).
  destruct (reconcile_uploads_total t p ids (mkWorkScopeDispatchOutcome 0 0 0 0) w Hreach Hp Ht)
    as (w1 & -> & Heff1). simpl.
  destruct (relay_total t p (dispatcher_lease_owner self) (upload_limit self) w1
    (effect_reachable _ _ Hreach Heff1) store_owner Huploads) as (relayed & w2 & -> & Heff2 & Hn).
  pose proof (zlen_nonneg ids). do 2 eexists. split; [done|].
  split; [by eapply effect_trans|]. destruct relayed; simpl in *; lia.
Qed.

(** The loop stops at the first claimed scope whose lease is lost when it is released:
    [outcome] and [w] are the state before the loop, [w'] after it. *)
Definition lease_lost_at (claimed : list StoredWorkScope) (outcome : WorkScopeDispatchOutcome)
    (w w' : Db * G) : Prop :=
  ∃ before scope after outcome1 w1 dispatched,
    claimed = before ++ scope :: after
    ∧ dispatch_scopes now reconcile relay self before outcome w = (Ok outcome1, w1)
    ∧ dispatch_scope now reconcile relay self (ws_tenant_id scope) (ws_product_id scope) w1
      = (Ok dispatched, w')
    ∧ lease_held (now w') (dispatcher_lease_owner self) scope w'.1 = false.

Lemma dispatch_scopes_app before after outcome w :
  dispatch_scopes now reconcile relay self (before ++ after) outcome w
  = match dispatch_scopes now reconcile relay self before outcome w with
    | (Ok outcome, w) => dispatch_scopes now reconcile relay self after outcome w
    | (Err e, w) => (Err e, w)
    end.
Proof.
  revert outcome w. induction before as [|scope before IH]; intros outcome w; cbn [app dispatch_scopes]; [done|].
  destruct (dispatch_scope now reconcile relay self _ _ w) as [dispatched [db g]].
  destruct (release_work_scope _ _ _ _) as [[released db1]|]; [|done].
  destruct dispatched; [apply IH|done].
Qed.

Lemma lease_lost_fails claimed outcome w w' :
  lease_lost_at claimed outcome w w' →
  dispatch_scopes now reconcile relay self claimed outcome w
  = (Err (WorkScopeDispatchError.Store Database), w').
Proof.
  intros (before & scope & after & o & w1 & d & -> & Hbefore & Hscope & Hlost).
  rewrite dispatch_scopes_app, Hbefore. cbn [dispatch_scopes]. rewrite Hscope.
  destruct w' as [db g]. pose proof (release_held (now (db, g)) scope _ db store_owner) as Hrel.
  simpl in Hlost. rewrite Hlost in Hrel. by rewrite Hrel.
Qed.

Lemma dispatch_scopes_spec claimed outcome w :
  reachable w.1 → Forall (λ s, id_valid (ws_product_id s) ∧ id_valid (ws_tenant_id s)) claimed →
  ∃ result w', dispatch_scopes now reconcile relay self claimed outcome w = (result, w')
    ∧ effect_of_ops w.1 w'.1
    ∧ match result with
      | Ok outcome' =>
          scopes outcome' = scopes outcome
          ∧ uploads outcome ≤ uploads outcome' ≤ uploads outcome + zlen claimed * upload_limit self
          ∧ workflows outcome ≤ workflows outcome'
          ∧ lease_lost outcome ≤ lease_lost outcome' ≤ lease_lost outcome + zlen claimed
      | Err e => e = WorkScopeDispatchError.Store Database ∧ lease_lost_at claimed outcome w w'
      end.
Proof.
  intros Hreach Hall. apply contains_true in Huploads as Hlim.
  revert outcome w Hreach. induction Hall as [|scope rest [Hp Ht] Hall IH]; intros outcome w Hreach;
    cbn [dispatch_scopes].
  { exists (Ok outcome), w. change (zlen (@nil StoredWorkScope)) with 0.
    split_and!; try done; try lia. apply effect_none. }
  destruct (dispatch_scope_total (ws_tenant_id scope) (ws_product_id scope) w Hreach Hp Ht)
    as (o & [db g] & Hscope & Heff1 & Hu & Hw & Hl). rewrite Hscope. simpl in Heff1.
  pose proof (release_held (now (db, g)) scope (dispatcher_lease_owner self) db store_owner) as Hrel.
  destruct (lease_held _ _ scope db) eqn:Hheld.
  - destruct Hrel as (db1 & Hrel & Heff2). rewrite Hrel.
    destruct (IH (mkWorkScopeDispatchOutcome (scopes outcome) (uploads outcome + uploads o)
      (workflows outcome + workflows o) (lease_lost outcome + 0 + lease_lost o)) (db1, g))
      as (result & w' & Hrun & Heff3 & Hresult).
    { eapply effect_reachable; [exact Hreach|]. by eapply effect_trans. }
    exists result, w'. split; [exact Hrun|]. split.
    { eapply effect_trans; [exact Heff1|]. by eapply effect_trans. }
    rewrite zlen_cons, Z.mul_add_distr_r. destruct result as [outcome'|e]; simpl in Hresult.
    { lia. }
    destruct Hresult as (-> & before & lost & after & o1 & w1 & d & -> & Hbefore & Hlost).
    split; [done|]. exists (scope :: before), lost, after, o1, w1, d.
    split; [done|]. split; [|done]. cbn [dispatch_scopes]. by rewrite Hscope, Hrel.
  - rewrite Hrel. eexists _, _. split; [done|]. split; [done|]. split; [done|].
    exists [], scope, rest, outcome, w, o. by split_and!.
Qed.

(** What a pass reports. *)
Definition within_limits (outcome : WorkScopeDispatchOutcome) : Prop :=
  0 ≤ scopes outcome ≤ scope_limit self
  ∧ 0 ≤ uploads outcome ≤ scopes outcome * upload_limit self
  ∧ 0 ≤ workflows outcome ∧ 0 ≤ lease_lost outcome ≤ scopes outcome.

(** A pass from [w] to [w'] lost the lease of a scope it had claimed. *)
Definition pass_loses_lease (w w' : Db * G) : Prop :=
  ∃ claimed db, claim_work_scopes (now w) locked
      (mkClaimWorkScopes (dispatcher_lease_owner self) (scope_limit self)) w.1 = (Ok claimed, db)
    ∧ lease_lost_at claimed (mkWorkScopeDispatchOutcome (zlen claimed) 0 0 0) (db, w.2) w'.

(** How a pass from [w] to [w'] ends. *)
Definition pass_ends (w : Db * G) (result : PassResult WorkScopeDispatchOutcome) (w' : Db * G) : Prop :=
  match result with
  | Ok outcome => within_limits outcome ∧ ¬ pass_loses_lease w w'
  | Err e => e = WorkScopeDispatchError.Store Database ∧ pass_loses_lease w w'
  end.

Lemma dispatch_once_ends w :
  reachable w.1 →
  ∃ result w', dispatch_once now locked reconcile relay self w = (result, w')
    ∧ effect_of_ops w.1 w'.1 ∧ pass_ends w result w'.
Proof.
  intros Hreach. destruct w as [db g]. unfold dispatch_once, pass_ends, pass_loses_lease, within_limits.
  destruct (claim_scopes_total (now (db, g)) locked (dispatcher_lease_owner self) (scope_limit self)
    db Hreach Howner Hscopes) as (claimed & Hclaim & Hlen & Hall).
  pose proof (effect_op (serde_size := ss) (jsonb_size := js) (OpClaimWorkScopes (now (db, g)) locked
    (mkClaimWorkScopes (dispatcher_lease_owner self) (scope_limit self))) db I) as Heff1.
  simpl in Heff1. cbn [fst snd]. destruct (claim_work_scopes _ _ _ _) as [found db1]. simpl in Hclaim, Heff1.
  subst found. pose proof (zlen_nonneg claimed).
  destruct (dispatch_scopes_spec claimed (mkWorkScopeDispatchOutcome (zlen claimed) 0 0 0) (db1, g)
    (effect_reachable _ _ Hreach Heff1) Hall) as (result & w' & Hrun & Heff2 & Hresult).
  exists result, w'. split; [exact Hrun|]. split; [by eapply effect_trans|].
  destruct result as [outcome|e]; simpl in Hresult.
  - split; [lia|]. intros (claimed' & db' & [= <- <-] & Hlost%lease_lost_fails).
    rewrite Hrun in Hlost. done.
  - destruct Hresult as [-> Hlost]. split; [done|]. by exists claimed, db1.
Qed.

(** C38: a pass of the dispatch worker fails exactly when a lease is lost.  A configured
    dispatcher, over any importer and relay that keep the interfaces, is started on a
    reachable database and polled until it is told to shut down; others may do anything
    to the database during and between its passes, and the scanner, the parser, the
    stores and the workflow engine may answer anything.  There is one pass per tick.  A
    pass that loses no lease completes: it counts the scopes it claimed, at most its
    limit, has imported at most its limit of uploads for each, and reports at most one
    lost delivery lease for each.  Any other pass ends with an error of the database at
    the first claimed scope that was no longer leased to the worker when it was to be
    released, with the scopes before it dispatched and released, the scopes after it not
    dispatched; and the next tick starts another pass. *)
Theorem pass_fails_exactly_on_lost_lease meanwhiles later w :
  reachable w.1 → Forall (λ meanwhile, ∀ w, effect_of_ops w.1 (meanwhile w).1) meanwhiles →
  ∃ results w',
    dispatch_loop now locked reconcile relay self (map Tick meanwhiles ++ ShutdownSignal :: later) w
      = (results, w')
    ∧ length results = length meanwhiles ∧ effect_of_ops w.1 w'.1
    ∧ Forall (λ result, ∃ from to, reachable from.1
        ∧ dispatch_once now locked reconcile relay self from = (result, to)
        ∧ pass_ends from result to) results.
Proof.
  intros Hreach Hall. revert w Hreach.
  induction Hall as [|meanwhile rest Hm Hall IH]; intros w Hreach; simpl.
  - exists [], w. split_and!; try done. apply effect_none.
  - assert (Hreach1 : reachable (meanwhile w).1) by (eapply effect_reachable; [exact Hreach|apply Hm]).
    destruct (dispatch_once_ends _ Hreach1) as (result & w1 & Hrun & Heff1 & Hend). rewrite Hrun.
    destruct (IH w1 (effect_reachable _ _ Hreach1 Heff1)) as (results & w2 & -> & Hlen & Heff2 & Hok).
    exists (result :: results), w2. split_and!; [done|simpl; lia| |].
    + eapply effect_trans; [apply Hm|]. by eapply effect_trans.
    + constructor; [by exists (meanwhile w), w1|done].
Qed.
End Pass.
End Facts.

(** ** Witness: an upload waits for its inspection *)

Definition sample_dispatcher : WorkScopeDispatcher := mkWorkScopeDispatcher "worker-1" 10 10.

Definition sample_reconcile :=
  Importer_reconcile "1.0" sample_services (λ _ _, 3) (λ _ _ db, db).

Definition sample_dispatch : WorkflowDispatch → Db * () → DispatchResult * (Db * ()) :=
  deployed_dispatch sample_size sample_size sample_sha256 (λ _, 100)
    (λ _ g, (Ok GatewayOutcome.Accepted, g)) 3 "queue" (λ _, []).

Definition sample_relay : TenantId → ProductId → string → Z → Db * () →
    result StoreError RelayOutcome.RelayOutcome * (Db * ()) :=
  λ t p owner limit w,
    relay_scope sample_sha256 sample_dispatch (λ l, l) (λ _, 3) ((λ _, 3) w) (λ _, false) t p owner limit w.

#[local] Instance sample_reconciler : ReliableReconciler sample_size sample_size sample_reconcile.
Proof.
  apply importer_reconciles; [exact sample_services_sound|by vm_compute|].
  intros. apply effect_none.
Qed.

#[local] Instance sample_relays : ReliableRelay sample_size sample_size sample_relay.
Proof.
  assert (DurableStarter sample_size sample_size sample_dispatch).
  { apply deployed_starter. intros _. constructor. }
  apply (relay_relays sample_size sample_size sample_sha256 sample_dispatch (λ l, l) (λ _, 3) (λ _, 3)
    (λ _, false)). done.
Qed.

Lemma pass_fails_exactly_on_lost_lease_witness :
  ∃ first second w', dispatch_loop (λ _, 3) (λ _, false) sample_reconcile sample_relay sample_dispatcher
      [Tick (λ w, w); Tick (λ w, w); ShutdownSignal] (sample_db sample_waiting_ops, ())
      = ([first; second], w')
    ∧ first = Ok (mkWorkScopeDispatchOutcome 1 1 0 0).
Proof.
  assert (Ho : valid_lease_owner "worker-1" = true) by (vm_compute; reflexivity).
  assert (Hs : contains 1 100 10 = true) by (vm_compute; reflexivity).
  assert (Hm : Forall (λ meanwhile : Db * () → Db * (), ∀ w, StoreRun.effect_of_ops sample_size sample_size
    w.1 (meanwhile w).1) [λ w, w; λ w, w]) by (repeat constructor; intros; apply effect_none).
  destruct (pass_fails_exactly_on_lost_lease sample_size sample_size (λ _, 3) (λ _, false) sample_reconcile
    sample_relay sample_dispatcher Ho Hs Hs [λ w, w; λ w, w] [] (sample_db sample_waiting_ops, ())
    sample_waiting_reachable Hm) as (results & w' & Hrun & Hlen & _).
  destruct results as [|first [|second [|]]]; try discriminate Hlen.
  exists first, second, w'. split; [exact Hrun|].
  assert (Hout : head (dispatch_loop (λ _, 3) (λ _, false) sample_reconcile sample_relay sample_dispatcher
      [Tick (λ w, w); Tick (λ w, w); ShutdownSignal] (sample_db sample_waiting_ops, ())).1
      = Some (Ok (mkWorkScopeDispatchOutcome 1 1 0 0))) by (vm_compute; reflexivity).
  cbn [map app] in Hrun. rewrite Hrun in Hout. simpl in Hout. by injection Hout as ->.
Defined.

(** A worker whose import takes longer than its lease: the pass fails instead of counting
    a lost lease.  The services' state is the time. *)
Definition slow_reconcile (tenant_id : TenantId) (product_id : ProductId) (upload_id : UploadId)
    (lease_owner : string) (world : Db * Z) : result StoreError ImportOutcome.ImportOutcome * (Db * Z) :=
  (Ok ImportOutcome.Busy, (world.1, world.2 + LEASE_SECONDS)).

Example slow_import_fails_pass :
  (dispatch_once snd (λ _, false) slow_reconcile (λ _ _ _ _ w, (Ok RelayOutcome.Idle, w)) sample_dispatcher
     (sample_db sample_waiting_ops, 3)).1 = Err (WorkScopeDispatchError.Store Database).
Proof. vm_compute. reflexivity. Qed.
