(* ===== verification/Artifacts.v ===== *)
(** * Artifacts: page and result artifacts in object storage

    Models [ocr-service/src/page_artifacts.rs] and [result_artifacts.rs]: the writers
    put an object that must not exist, read it back whatever the put answered, and
    report it only if it has the bytes they wrote; the readers fetch the version a
    locator names and check it.  [serde_json] is the pair of arguments [page_to_vec] and
    [result_to_vec]; an object store is any [Storage.ObjectStore], and a request that
    times out is one that fails. *)

From S2P Require Import Prelude Text DomainTypes Identifiers Digest Geometry PageWorkflow.
From S2P Require Import Document StoreTypes StoreChecks PageRunner Storage Promotion.

#[local] Open Scope list_scope.
#[local] Open Scope Z_scope.

Definition MAXIMUM_RESULT_BYTES : Z := MAXIMUM_DOCUMENT_RESULT_BYTES.

Module PageArtifactReadError.
Inductive PageArtifactReadError := Invalid | NotFound | Unavailable.
End PageArtifactReadError.

Module PageArtifactConfigurationError.
Inductive PageArtifactConfigurationError := MissingBuckets | InvalidBucket | InvalidProduct | Client.
End PageArtifactConfigurationError.

Module ResultArtifactConfigurationError.
Inductive ResultArtifactConfigurationError := MissingBuckets | InvalidBucket | InvalidProduct | Client.
End ResultArtifactConfigurationError.

Module ResultArtifactWriteError.
Inductive ResultArtifactWriteError := Invalid | Conflict | Unavailable.
End ResultArtifactWriteError.

(** [ResultArtifactError] is a unit struct. *)
Inductive ResultArtifactError := mkResultArtifactError.

Section Artifacts.
Context (sha256 : list Z → list Z).
Context (path_valid : string → bool).
Context {G : Type}.

(** [PageWriteRoute] and [ResultWriteRoute]. *)
Record WriteRoute := mkWriteRoute { write_bucket : string; write_store : ObjectStore G }.

(** The loop of both writers' [new] over the entries of the map, which come in any order. *)
Fixpoint configure_writers {E : Type} (invalid_product invalid_bucket client : E)
    (build : Location → option (ObjectStore G)) (routes : gmap string WriteRoute)
    (buckets : gset string) (product_buckets : list (string * string))
    : result E (gmap string WriteRoute) :=
  match product_buckets with
  | [] => Ok routes
  | (product, bucket) :: rest =>
      let? _ := map_err (ProductId_new product) (λ _, invalid_product) in
      if negb (is_bucket_name bucket) || bool_decide (bucket ∈ buckets) then Err invalid_bucket
      else
        let? store := ok_or (StorageClient_new build bucket) client in
        configure_writers invalid_product invalid_bucket client build
          (<[product := mkWriteRoute bucket store]> routes) ({[bucket]} ∪ buckets) rest
  end.

Definition GcsPageArtifactWriter_new (build : Location → option (ObjectStore G))
    (product_buckets : list (string * string))
    : result PageArtifactConfigurationError.PageArtifactConfigurationError (gmap string WriteRoute) :=
  if zlen product_buckets =? 0 then Err PageArtifactConfigurationError.MissingBuckets
  else configure_writers PageArtifactConfigurationError.InvalidProduct
         PageArtifactConfigurationError.InvalidBucket PageArtifactConfigurationError.Client
         build ∅ ∅ product_buckets.

Definition GcsResultWriter_new (build : Location → option (ObjectStore G))
    (product_buckets : list (string * string))
    : result ResultArtifactConfigurationError.ResultArtifactConfigurationError
        (gmap string WriteRoute) :=
  if zlen product_buckets =? 0 then Err ResultArtifactConfigurationError.MissingBuckets
  else configure_writers ResultArtifactConfigurationError.InvalidProduct
         ResultArtifactConfigurationError.InvalidBucket ResultArtifactConfigurationError.Client
         build ∅ ∅ product_buckets.

(** The loop of both readers' [new]. *)
Fixpoint configure_readers {E : Type} (invalid_bucket client : E)
    (build : Location → option (ObjectStore G)) (stores : gmap string (ObjectStore G))
    (buckets : list string) : result E (gmap string (ObjectStore G)) :=
  match buckets with
  | [] => Ok stores
  | bucket :: rest =>
      if negb (is_bucket_name bucket) || bool_decide (is_Some (stores !! bucket))
      then Err invalid_bucket
      else
        let? store := ok_or (StorageClient_new build bucket) client in
        configure_readers invalid_bucket client build (<[bucket := store]> stores) rest
  end.

Definition GcsPageArtifactReader_new (build : Location → option (ObjectStore G))
    (buckets : list string)
    : result PageArtifactConfigurationError.PageArtifactConfigurationError
        (gmap string (ObjectStore G)) :=
  if zlen buckets =? 0 then Err PageArtifactConfigurationError.MissingBuckets
  else configure_readers PageArtifactConfigurationError.InvalidBucket
         PageArtifactConfigurationError.Client build ∅ buckets.

Definition GcsResultReader_new (build : Location → option (ObjectStore G)) (buckets : list string)
    : result ResultArtifactConfigurationError.ResultArtifactConfigurationError
        (gmap string (ObjectStore G)) :=
  if zlen buckets =? 0 then Err ResultArtifactConfigurationError.MissingBuckets
  else configure_readers ResultArtifactConfigurationError.InvalidBucket
         ResultArtifactConfigurationError.Client build ∅ buckets.

(** ** Writing *)

(** From the put to the comparison, the same in both writers: the version of the object
    that holds [bytes]. *)
Definition put_and_read_back {E : Type} (invalid conflict unavailable : E)
    (store : ObjectStore G) (name : string) (bytes : list Z) (digest : string) (g : G)
    : result E string * G :=
  let read_back g :=
    match get_opts store name None g with
    | (Err _, g) => (Err unavailable, g)
    | (Ok stored, g) =>
        (let? generation :=
           ok_or (match meta_version stored with
                  | Some value => if valid_object_version value then Some value else None
                  | None => None
                  end) unavailable in
         let? size := ok_or (checked u64_max (zlen bytes)) invalid in
         if negb (meta_size stored =? size) then Err conflict
         else
           let? persisted := map_err (stream_bytes (stream stored)) (λ _, unavailable) in
           if negb (bool_decide (persisted = bytes))
              || negb (String.eqb (sha256_digest (sha256 persisted)) digest)
           then Err conflict
           else Ok generation, g)
    end in
  match put_create store name bytes g with
  | (Ok _, g) | (Err ObjectError.AlreadyExists, g) | (Err ObjectError.Precondition, g) =>
      read_back g
  | (Err _, g) => (Err unavailable, g)
  end.

Definition page_object (product_id : ProductId) (tenant_id : TenantId) (job_id : JobId)
    (task : PageTask) : string :=
  "products/" +:+ ProductId_str product_id +:+ "/tenants/" +:+ TenantId_str tenant_id
    +:+ "/pages/" +:+ JobId_str job_id +:+ "/" +:+ show_dec (task_page task)
    +:+ "/attempt-" +:+ show_dec (task_attempt task) +:+ ".json".

Section Pages.
Context (page_to_vec : DocumentPage → option (list Z)).

(** [GcsPageArtifactWriter::write_inner]. *)
Definition write_page_artifact (routes : gmap string WriteRoute) (product_id : ProductId)
    (tenant_id : TenantId) (job_id : JobId) (task : PageTask) (written : DocumentPage) (g : G)
    : result PageArtifactWriteError.PageArtifactWriteError StoredPageArtifact * G :=
  if negb (PageNumber_value (page written) =? task_page task)
     || negb (String.eqb (task_activity_key task)
                ("ocr-job-" +:+ JobId_str job_id +:+ "-page-" +:+ show_dec (task_page task)
                   +:+ "-attempt-" +:+ show_dec (task_attempt task)))
  then (Err PageArtifactWriteError.Invalid, g)
  else
    match routes !! ProductId_str product_id, page_to_vec written with
    | Some route, Some bytes =>
        if (zlen bytes =? 0) || (MAXIMUM_RESULT_BYTES <? zlen bytes)
        then (Err PageArtifactWriteError.Invalid, g)
        else
          let digest := sha256_digest (sha256 bytes) in
          let object_name := page_object product_id tenant_id job_id task in
          if negb (path_valid object_name) then (Err PageArtifactWriteError.Invalid, g)
          else
            let '(stored, g) :=
              put_and_read_back PageArtifactWriteError.Invalid PageArtifactWriteError.Conflict
                PageArtifactWriteError.Unavailable (write_store route) object_name bytes digest g in
            (let? generation := stored in
             let? content_length :=
               ok_or (checked i64_max (zlen bytes)) PageArtifactWriteError.Invalid in
             Ok {| artifact_page := task_page task; artifact_attempt := task_attempt task;
                   artifact_activity_key := task_activity_key task;
                   artifact_object_bucket := write_bucket route;
                   artifact_object_name := object_name; artifact_object_version := generation;
                   artifact_object_digest := digest;
                   artifact_content_length := content_length |}, g)
    | _, _ => (Err PageArtifactWriteError.Invalid, g)
    end.

(** [GcsPageArtifactReader::read]. *)
Definition read_page_artifact (buckets : gmap string (ObjectStore G))
    (artifact : StoredPageArtifact) (maximum_bytes : Z) (g : G)
    : result PageArtifactReadError.PageArtifactReadError (list Z) * G :=
  if (maximum_bytes =? 0) || (MAXIMUM_RESULT_BYTES <? maximum_bytes)
  then (Err PageArtifactReadError.Invalid, g)
  else
    match buckets !! artifact_object_bucket artifact with
    | None => (Err PageArtifactReadError.Invalid, g)
    | Some store =>
        if negb (path_valid (artifact_object_name artifact))
        then (Err PageArtifactReadError.Invalid, g)
        else
          let generation := artifact_object_version artifact in
          match get_opts store (artifact_object_name artifact) (Some generation) g with
          | (Err ObjectError.NotFound, g) => (Err PageArtifactReadError.NotFound, g)
          | (Err _, g) => (Err PageArtifactReadError.Unavailable, g)
          | (Ok found, g) =>
              (let? expected_length :=
                 ok_or (checked u64_max (artifact_content_length artifact))
                   PageArtifactReadError.Invalid in
               if negb (bool_decide (meta_version found = Some generation))
                  || negb (meta_size found =? expected_length) || (maximum_bytes <? meta_size found)
               then Err PageArtifactReadError.Invalid
               else
                 let? bytes :=
                   map_err (stream_bytes (stream found)) (λ _, PageArtifactReadError.Unavailable) in
                 if negb (zlen bytes =? expected_length)
                    || negb (String.eqb (sha256_digest (sha256 bytes))
                               (artifact_object_digest artifact))
                 then Err PageArtifactReadError.Invalid
                 else Ok bytes, g)
          end
    end.
End Pages.

(** ** Results *)

Section Results.
Context {Value : Type}.
Context (result_to_vec : DocumentResult Value → option (list Z)).

Record PreparedResultArtifact := mkPreparedResultArtifact {
  prepared_bytes : list Z;
  prepared_digest : string;
  prepared_object_name : string;
}.

Definition result_object (product_id tenant_id job_id version_digest : string) : string :=
  "products/" +:+ product_id +:+ "/tenants/" +:+ tenant_id +:+ "/results/" +:+ job_id
    +:+ "/" +:+ version_digest +:+ ".json".

Definition prepare_result_artifact (product_id tenant_id job_id : string)
    (document : DocumentResult Value)
    : result ResultArtifactWriteError.ResultArtifactWriteError PreparedResultArtifact :=
  let invalid {A} (m : result Error A) := map_err m (λ _, ResultArtifactWriteError.Invalid) in
  let? _ := invalid (ProductId_new product_id) in
  let? _ := invalid (TenantId_new tenant_id) in
  let? _ := invalid (JobId_new job_id) in
  let? bytes := ok_or (result_to_vec document) ResultArtifactWriteError.Invalid in
  if (zlen bytes =? 0) || (MAXIMUM_RESULT_BYTES <? zlen bytes)
  then Err ResultArtifactWriteError.Invalid
  else
    let? version_digest :=
      ok_or (Text.strip_prefix "sha256:" (DocumentVersion_str (document_version document)))
        ResultArtifactWriteError.Invalid in
    Ok {| prepared_bytes := bytes; prepared_digest := sha256_digest (sha256 bytes);
          prepared_object_name := result_object product_id tenant_id job_id version_digest |}.

(** [GcsResultWriter::write_inner]. *)
Definition write_result (routes : gmap string WriteRoute) (product_id : ProductId)
    (tenant_id : TenantId) (job_id : JobId) (document : DocumentResult Value) (g : G)
    : result ResultArtifactWriteError.ResultArtifactWriteError StoredResultLocator * G :=
  match routes !! ProductId_str product_id with
  | None => (Err ResultArtifactWriteError.Invalid, g)
  | Some route =>
      match prepare_result_artifact (ProductId_str product_id) (TenantId_str tenant_id)
              (JobId_str job_id) document with
      | Err e => (Err e, g)
      | Ok prepared =>
          if negb (path_valid (prepared_object_name prepared))
          then (Err ResultArtifactWriteError.Invalid, g)
          else
            let '(stored, g) :=
              put_and_read_back ResultArtifactWriteError.Invalid ResultArtifactWriteError.Conflict
                ResultArtifactWriteError.Unavailable (write_store route)
                (prepared_object_name prepared) (prepared_bytes prepared)
                (prepared_digest prepared) g in
            (let? generation := stored in
             let? content_length :=
               ok_or (checked i64_max (zlen (prepared_bytes prepared)))
                 ResultArtifactWriteError.Invalid in
             Ok {| loc_document_id := document_id document;
                   loc_document_version := document_version document;
                   loc_object_bucket := write_bucket route;
                   loc_object_name := prepared_object_name prepared;
                   loc_object_version := generation; loc_object_digest := prepared_digest prepared;
                   loc_content_length := content_length |}, g)
      end
  end.
End Results.

(** [GcsResultReader::read]. *)
Definition read_result (stores : gmap string (ObjectStore G)) (locator : StoredResultLocator)
    (maximum_bytes : Z) (g : G) : result ResultArtifactError (list Z) * G :=
  match stores !! loc_object_bucket locator with
  | None => (Err mkResultArtifactError, g)
  | Some store =>
      if negb (path_valid (loc_object_name locator)) then (Err mkResultArtifactError, g)
      else
        let generation := loc_object_version locator in
        match get_opts store (loc_object_name locator) (Some generation) g with
        | (Err _, g) => (Err mkResultArtifactError, g)
        | (Ok found, g) =>
            (let? expected_length :=
               ok_or (checked u64_max (loc_content_length locator)) mkResultArtifactError in
             if negb (bool_decide (meta_version found = Some generation))
                || negb (meta_size found =? expected_length) || (maximum_bytes <? meta_size found)
             then Err mkResultArtifactError
             else
               let? bytes := map_err (stream_bytes (stream found)) (λ _, mkResultArtifactError) in
               if maximum_bytes <? zlen bytes then Err mkResultArtifactError else Ok bytes, g)
        end
  end.
End Artifacts.
Arguments WriteRoute : clear implicits.
