(* ===== verification/Assembly.v ===== *)
(** * Assembly: the result of a document from its pages

    Models [ocr-service/src/result_assembly.rs] and the registry of
    [ocr-service/src/extraction.rs].  The text of a document is that of the leaves of
    its pages, the observations that no other names as parent, in page and reading
    order, each cited.  The heuristics of an extraction schema
    ([nutrition_label::extract]) are the argument [extract]; [result_to_vec] is
    [serde_json::to_vec], [None] an error. *)

From S2P Require Import Prelude Text Float64 DomainTypes Identifiers Geometry Document Artifacts.

#[local] Open Scope list_scope.
#[local] Open Scope Z_scope.

Definition DOCUMENT_AI_OCR_VERSION : string := "pretrained-ocr-v2.1.1-2025-01-31".

Module ResultAssemblyError.
Inductive ResultAssemblyError :=
| TooLarge
| Domain (e : DomainTypes.Error)
| Serialization.
End ResultAssemblyError.

Notation AssemblyResult := (result ResultAssemblyError.ResultAssemblyError).

Inductive ExtractionSchema := KoraNutritionLabelV1.

(** [ExtractionSchema::registered]. *)
Definition registered (schema_id schema_version : string) : option ExtractionSchema :=
  if String.eqb schema_id "kora.nutrition_label" && String.eqb schema_version "1"
  then Some KoraNutritionLabelV1 else None.

Definition append_bounded (output value : string) : AssemblyResult string :=
  let? length :=
    ok_or (checked_add usize_max (strlen output) (strlen value)) ResultAssemblyError.TooLarge in
  if MAXIMUM_RESULT_BYTES <? length then Err ResultAssemblyError.TooLarge
  else Ok (output +:+ value).

(** The observations of a page that are no other's parent, in order. *)
Definition leaves (p : DocumentPage) : list TextObservation :=
  let parent_ids : gset ObservationId :=
    list_to_set (omap parent_observation_id (observations p)) in
  base.filter (λ observation, observation_id observation ∉ parent_ids) (observations p).

(** [f64::from(observation.confidence) < 0.6]. *)
Definition is_low_confidence (observation : TextObservation) : bool :=
  f64_lt (Confidence_value (observation_confidence observation)) (f64_dec 6 1).

Definition cite (p : DocumentPage) (observation : TextObservation) : Evidence :=
  mkEvidence (page p) (observation_polygon observation) (observation_id observation).

(** The three variables of the loop. *)
Record Assembled := mkAssembled {
  assembled_text : string;
  assembled_citations : list Evidence;
  low_confidence : bool;
}.

(** The loop over the leaves of a page, from [index]. *)
Fixpoint assemble_leaves (p : DocumentPage) (index : Z) (leaves : list TextObservation)
    (acc : Assembled) : AssemblyResult Assembled :=
  match leaves with
  | [] => Ok acc
  | observation :: rest =>
      let? text :=
        if 0 <? index then append_bounded (assembled_text acc) (String "010" "")
        else Ok (assembled_text acc) in
      let low := low_confidence acc || is_low_confidence observation in
      let? text := append_bounded text (observation_text observation) in
      assemble_leaves p (index + 1) rest
        (mkAssembled text (assembled_citations acc ++ [cite p observation]) low)
  end.

(** The loop over the pages. *)
Fixpoint assemble_pages (pages : list DocumentPage) (acc : Assembled) : AssemblyResult Assembled :=
  match pages with
  | [] => Ok acc
  | p :: rest =>
      match leaves p with
      | [] => assemble_pages rest acc
      | _ =>
          let? text :=
            if negb (is_empty (assembled_text acc))
            then append_bounded (assembled_text acc) (String "010" (String "010" ""))
            else Ok (assembled_text acc) in
          let? acc :=
            assemble_leaves p 0 (leaves p)
              (mkAssembled text (assembled_citations acc) (low_confidence acc)) in
          assemble_pages rest acc
      end
  end.

Section Assembly.
Context {Value : Type}.

Record ExtractedFields := mkExtractedFields {
  extracted_fields : gmap string (ExtractedValue Value);
  extracted_failures : list ValidationFailure;
}.

(** [ExtractedFields::default()]. *)
Definition ExtractedFields_default : ExtractedFields := mkExtractedFields ∅ [].

Context (extract : ExtractionSchema → list DocumentPage → ExtractedFields).
Context (result_to_vec : DocumentResult Value → option (list Z)).

Definition domain {A : Type} (m : result Error A) : AssemblyResult A :=
  map_err m ResultAssemblyError.Domain.

(** [StableCode::new(code)?], pushed with its severity. *)
Definition push_failure (code : string) (severity : ValidationSeverity.ValidationSeverity)
    (failures : list ValidationFailure) : AssemblyResult (list ValidationFailure) :=
  let? code := domain (StableCode_new code) in
  Ok (failures ++ [mkValidationFailure code severity]).

Definition push_warning (code : string) (warnings : list StableCode)
    : AssemblyResult (list StableCode) :=
  let? code := domain (StableCode_new code) in Ok (warnings ++ [code]).

(** From the extraction to the payload: the failures and the warnings of the result. *)
Definition review (pages : list DocumentPage) (provenance : option ProcessingProvenance)
    (assembled : Assembled) (failures : list ValidationFailure)
    : AssemblyResult (list ValidationFailure * list StableCode) :=
  let? (failures, warnings) :=
    if is_some_and (λ profile, String.eqb (provider profile) "legacy-mixed") provenance
    then
      let? failures := push_failure "legacy_processing_requires_review"
                         ValidationSeverity.Warning failures in
      let? warnings := push_warning "manual_review_required" [] in
      Ok (failures, warnings)
    else Ok (failures, []) in
  let? (failures, warnings) :=
    if existsb (λ p, zlen (observations p) =? 0) pages
    then
      let? failures := push_failure "ocr_page_requires_manual_review"
                         ValidationSeverity.Warning failures in
      let? warnings := push_warning "manual_review_required" warnings in
      Ok (failures, warnings)
    else Ok (failures, warnings) in
  let? failures :=
    if low_confidence assembled
    then push_failure "ocr_low_confidence" ValidationSeverity.Warning failures
    else Ok failures in
  let? incomplete_row := domain (StableCode_new "nutrition_row_incomplete") in
  let? missing_panel := domain (StableCode_new "nutrition_panel_not_found") in
  if trim_is_empty (assembled_text assembled) then
    let? failures := push_failure "ocr_no_text_detected" ValidationSeverity.Error failures in
    let? warnings := push_warning "retake_include_readable_document" warnings in
    Ok (failures, warnings)
  else if low_confidence assembled
          || existsb (λ failure, bool_decide (failure_code failure = incomplete_row)) failures
  then
    let? warnings := push_warning "retake_sharper_image" warnings in Ok (failures, warnings)
  else if existsb (λ failure, bool_decide (failure_code failure = missing_panel)) failures
  then
    let? warnings := push_warning "retake_include_column_headers" warnings in
    Ok (failures, warnings)
  else Ok (failures, warnings).

Definition result_payload (text : string) (pages : list DocumentPage) (citations : list Evidence)
    (fields : gmap string (ExtractedValue Value)) (warnings : list StableCode)
    (failures : list ValidationFailure) (provenance : option ProcessingProvenance)
    : DocumentResultPayload Value :=
  {| payload_text := text; payload_markdown := ""; payload_pages := pages;
     payload_fields := fields; payload_tables := []; payload_confidence := None;
     payload_citations := citations; payload_warnings := warnings;
     payload_validation_failures := failures; payload_provenance := provenance;
     payload_cost := None |}.

Definition assemble_with_provenance (document_id : DocumentId) (document_version : DocumentVersion)
    (pages : list DocumentPage) (schema : option ExtractionSchema)
    (provenance : option ProcessingProvenance) : AssemblyResult (DocumentResult Value) :=
  let pages := sort_by_key page_order pages in
  let? assembled := assemble_pages pages (mkAssembled "" [] false) in
  let extraction :=
    match schema with
    | Some schema => extract schema pages
    | None => ExtractedFields_default
    end in
  let? (failures, warnings) := review pages provenance assembled (extracted_failures extraction) in
  let? document :=
    domain (DocumentResult_new document_id document_version
              (result_payload (assembled_text assembled) pages (assembled_citations assembled)
                 (extracted_fields extraction) warnings failures provenance)) in
  let? encoded := ok_or (result_to_vec document) ResultAssemblyError.Serialization in
  if MAXIMUM_RESULT_BYTES <? zlen encoded then Err ResultAssemblyError.TooLarge else Ok document.

Definition assemble_document_result (document_id : DocumentId) (document_version : DocumentVersion)
    (pages : list DocumentPage) (schema : option ExtractionSchema)
    : AssemblyResult (DocumentResult Value) :=
  assemble_with_provenance document_id document_version pages schema None.

(** The provider, the model and the profile that the observations' identifiers show. *)
Definition native_profile (pages : list DocumentPage) : string * string * string :=
  let ids := flat_map (λ p, map (λ o, ObservationId_str (observation_id o)) (observations p)) pages in
  let native id := is_some_and (λ _, true) (Text.strip_prefix "obs_native_" id) in
  let managed id := is_some_and (λ _, true) (Text.strip_prefix "obs_docai_" id) in
  if existsb (λ id, negb (native id) && negb (managed id)) ids
  then ("legacy-mixed", "unknown", "native-text-transition-v1")
  else if existsb managed ids
  then ("native-text-document-ai", DOCUMENT_AI_OCR_VERSION, "hybrid-ocr-v1")
  else ("native-text", "none", "native-text-v1").

Definition assemble_native_document_result (document_id : DocumentId)
    (document_version : DocumentVersion) (pages : list DocumentPage)
    (schema : option ExtractionSchema) (duration_ms : Z) : AssemblyResult (DocumentResult Value) :=
  let '(provider, model, profile) := native_profile pages in
  let? provenance := domain (ProcessingProvenance_new provider model profile duration_ms) in
  assemble_with_provenance document_id document_version pages schema (Some provenance).

Definition assemble_legacy_document_result (document_id : DocumentId)
    (document_version : DocumentVersion) (pages : list DocumentPage)
    (schema : option ExtractionSchema) : AssemblyResult (DocumentResult Value) :=
  let? provenance :=
    domain (ProcessingProvenance_new "legacy-mixed" "unknown" "native-text-transition-v1" 0) in
  assemble_with_provenance document_id document_version pages schema (Some provenance).
End Assembly.
Arguments ExtractedFields : clear implicits.
