(* ===== verification/NativePages.v ===== *)
(** * NativePages: the text layers kept in the database

    Models [ocr-store/src/native_pages.rs]: the tables [ocr_native_documents], by their
    unique key (job, profile, digest of the source), and [ocr_native_pages], whose rows
    belong to a document and are deleted with it.  No other statement of the store
    touches them, so they are a database of their own, read beside the jobs and the
    uploads they are joined with.  [encoded_size] is the length of the pages as JSON
    text and [stored_size] that of a page as PostgreSQL prints its [jsonb]; the CHECK
    constraints are not modelled. *)

From S2P Require Import Prelude Text DomainTypes Identifiers Geometry Document StoreTypes.
From S2P Require Import StoreChecks StoreDb StoreJobs.

#[local] Open Scope list_scope.
#[local] Open Scope Z_scope.

Definition MAXIMUM_NATIVE_BYTES : Z := MAXIMUM_DOCUMENT_RESULT_BYTES.

(** A row of [ocr_native_documents] with its rows of [ocr_native_pages]: the number and
    the data of each page. *)
Record NativeDocument := mkNativeDocument {
  nd_tenant_id : string;
  nd_product_id : string;
  nd_page_count : Z;
  nd_duration_ms : Z;
  nd_pages : list (Z * DocumentPage);
}.

(** The documents by job, profile and source digest. *)
Definition NativeDb : Type := gmap (string * string * string) NativeDocument.

(** The job and its upload, joined in the same scope. *)
Definition select_source (tenant_id : TenantId) (product_id : ProductId) (job_id : JobId) (db : Db)
    : option (JobRow * UploadRow) :=
  match select_job tenant_id product_id job_id db with
  | None => None
  | Some job =>
      match ocr_uploads db !! jr_upload_id job with
      | Some upload =>
          if in_scope tenant_id product_id (ur_tenant_id upload) (ur_product_id upload)
          then Some (job, upload) else None
      | None => None
      end
  end.

(** [u.source_digest]. *)
Definition row_source_digest (upload : UploadRow) : option string :=
  (λ '(_, _, _, digest, _), digest) <$> ur_source upload.

(** The document of a job under a profile, for the digest of its accepted source. *)
Definition select_native (tenant_id : TenantId) (product_id : ProductId) (job_id : JobId)
    (profile : string) (db : Db) (native : NativeDb) : option (string * NativeDocument) :=
  match select_source tenant_id product_id job_id db with
  | None => None
  | Some (_, upload) =>
      match row_source_digest upload with
      | None => None
      | Some digest =>
          match native !! (JobId_str job_id, profile, digest) with
          | Some document =>
              if in_scope tenant_id product_id (nd_tenant_id document) (nd_product_id document)
              then Some (digest, document) else None
          | None => None
          end
      end
  end.

Section NativePages.
Context (encoded_size : list DocumentPage → Z).
Context (stored_size : DocumentPage → Z).

(** [serde_json::from_str::<DocumentPage>] of a page that was serialised. *)
Definition decode_stored_page (stored : DocumentPage) : result StoreError DocumentPage :=
  map_err (DocumentPage_try_from (DocumentPage_to_raw stored)) (λ _, InvalidStoredPageArtifact).

Definition load_native_page (tenant : TenantId) (product : ProductId) (job : JobId)
    (profile : string) (number : Z) (db : Db) (native : NativeDb)
    : result StoreError (option DocumentPage) :=
  let? number := ok_or (checked i32_max number) InvalidStoredPageArtifact in
  match select_native tenant product job profile db native with
  | None => Ok None
  | Some (_, document) =>
      match list_find (λ row, row.1 = number) (nd_pages document) with
      | None => Ok None
      | Some (_, (_, stored)) =>
          if MAXIMUM_NATIVE_BYTES * 2 <? stored_size stored then Err InvalidStoredPageArtifact
          else
            let? value := decode_stored_page stored in
            if negb (PageNumber_value (page value) =? number) then Err InvalidStoredPageArtifact
            else Ok (Some value)
      end
  end.

(** The loop of [load_pages] over the rows, each with the count of its document and the
    total of the sizes. *)
Fixpoint load_rows (page_count total_bytes : Z) (pages : list DocumentPage)
    (rows : list DocumentPage) : result StoreError (list DocumentPage) :=
  match rows with
  | [] => Ok pages
  | stored :: rest =>
      let? count := ok_or (checked usize_max page_count) InvalidStoredPageArtifact in
      let? total := ok_or (checked usize_max total_bytes) InvalidStoredPageArtifact in
      if (count =? 0) || (MAXIMUM_PAGE_COUNT <? count) || (count <=? zlen pages)
         || (MAXIMUM_NATIVE_BYTES * 2 <? total)
      then Err InvalidStoredPageArtifact
      else
        let? value := decode_stored_page stored in
        if negb (PageNumber_value (page value) =? zlen pages mod 2 ^ 32 + 1)
        then Err InvalidStoredPageArtifact
        else load_rows page_count total_bytes (pages ++ [value]) rest
  end.

Definition load_pages (tenant : TenantId) (product : ProductId) (job : JobId) (profile : string)
    (source_digest : option string) (db : Db) (native : NativeDb)
    : result StoreError (option (list DocumentPage)) :=
  match select_native tenant product job profile db native with
  | None => Ok None
  | Some (digest, document) =>
      if negb (bool_decide (source_digest = None) || bool_decide (source_digest = Some digest))
      then Ok None
      else
        let rows := map snd (sort_by_key fst (nd_pages document)) in
        let total_bytes := foldr (λ stored total, stored_size stored + total) 0 rows in
        let? pages := load_rows (nd_page_count document) total_bytes [] rows in
        if zlen pages =? 0 then Ok None
        else if negb (zlen pages =? nd_page_count document) then Err InvalidStoredPageArtifact
        else Ok (Some pages)
  end.

Definition load_native_pages (tenant : TenantId) (product : ProductId) (job : JobId)
    (profile : string) (db : Db) (native : NativeDb)
    : result StoreError (option (list DocumentPage)) :=
  load_pages tenant product job profile None db native.

(** Some page is not the one after its predecessor, from [index]. *)
Fixpoint misnumbered (index : Z) (pages : list DocumentPage) : bool :=
  match pages with
  | [] => false
  | p :: rest => negb (PageNumber_value (page p) =? index + 1) || misnumbered (index + 1) rest
  end.

(** The two [insert]s: nothing unless the source was accepted with that digest and as
    many pages, and nothing if the document is there. *)
Definition insert_native (now : Z) (tenant : TenantId) (product : ProductId) (job : JobId)
    (profile source_digest : string) (pages : list DocumentPage) (db : Db) (native : NativeDb)
    : NativeDb :=
  match select_source tenant product job db with
  | Some (row, upload) =>
      if String.eqb (ur_status upload) "accepted"
         && bool_decide (row_source_digest upload = Some source_digest)
         && bool_decide (pi_page_count <$> ur_parser upload = Some (zlen pages))
      then
        match native !! (JobId_str job, profile, source_digest) with
        | Some _ => native
        | None =>
            <[(JobId_str job, profile, source_digest) :=
              {| nd_tenant_id := TenantId_str tenant; nd_product_id := ProductId_str product;
                 nd_page_count := zlen pages;
                 nd_duration_ms := Z.max 0 ((now - jr_created_at row) * 1000);
                 nd_pages := map (λ p, (PageNumber_value (page p), p)) pages |}]> native
        end
      else native
  | None => native
  end.

Definition save_native_pages (now : Z) (tenant : TenantId) (product : ProductId) (job : JobId)
    (profile source_digest : string) (pages : list DocumentPage) (db : Db) (native : NativeDb)
    : result StoreError (list DocumentPage * NativeDb) :=
  if (zlen pages =? 0) || (MAXIMUM_PAGE_COUNT <? zlen pages) || misnumbered 0 pages
  then Err InvalidStoredPageArtifact
  else if MAXIMUM_NATIVE_BYTES <? encoded_size pages then Err InvalidStoredPageArtifact
  else
    let native := insert_native now tenant product job profile source_digest pages db native in
    let? loaded := load_pages tenant product job profile (Some source_digest) db native in
    let? canonical := ok_or loaded InvalidStoredPageArtifact in
    Ok (canonical, native).

Definition load_native_duration_ms (tenant : TenantId) (product : ProductId) (job : JobId)
    (profile : string) (db : Db) (native : NativeDb) : result StoreError (option Z) :=
  match select_native tenant product job profile db native with
  | None => Ok None
  | Some (_, document) =>
      let? value := ok_or (checked u64_max (nd_duration_ms document)) InvalidStoredPageArtifact in
      Ok (Some value)
  end.

(** The [delete] of the documents of a job takes their pages with it. *)
Definition clear_native_pages (tenant : TenantId) (product : ProductId) (job : JobId)
    (native : NativeDb) : NativeDb :=
  base.filter (λ '((id, _, _), document),
    negb (String.eqb id (JobId_str job)
          && in_scope tenant product (nd_tenant_id document) (nd_product_id document)) = true)
    native.
End NativePages.
