(* ===== verification/Recognition.v ===== *)
(** * Recognition: where the text of a page comes from

    Models [ocr-service/src/page_source.rs], the recognition of
    [native_recognizer.rs] and [hybrid_recognizer.rs].  The repository of sources, the
    reader of their bytes and the managed recogniser are arguments, as are the time
    [now] and what other workers do to the databases before the [k]-th statement of a
    recognition, [meanwhile k].  [extract_document] is the work the document cache runs
    at most once at a time per document; [recognize] is a recognition that finds the
    cache empty, [DocumentCache] models the cache itself. *)

From S2P Require Import Prelude Text DomainTypes Identifiers Digest Geometry PageWorkflow.
From S2P Require Import Document StoreTypes StoreChecks StoreDb StoreJobs PageRunner.
From S2P Require Import ParserProcess Storage NativePages.

#[local] Open Scope list_scope.
#[local] Open Scope Z_scope.

Module PageSourceError.
Inductive PageSourceError := NotFound | Invalid | Unavailable.
End PageSourceError.

Record AcceptedPageSource := mkAcceptedPageSource {
  source_bytes : list Z;
  source_content_type : string;
  source_geometry : PageGeometry;
}.

Definition map_store_error (error : StoreError) : PageSourceError.PageSourceError :=
  match error with
  | InvalidStoredJob | InvalidStoredUpload | UploadSourceUnavailable => PageSourceError.Invalid
  | Database | IdempotencyConflict | InvalidStoredResult | InvalidOutboxEvent
  | InvalidStoredPageWorkflow | InvalidStoredPageArtifact | InvalidWorkScope =>
      PageSourceError.Unavailable
  end.

(** The index is below the length only if it fits. *)
Definition page_geometry (source : StoredAcceptedSource) (page : Z)
    : result PageSourceError.PageSourceError PageGeometry :=
  if (page =? 0) || (as_page_count source =? 0)
     || negb (as_page_count source
              =? default 0 (checked u32_max (zlen (as_page_geometries source))))
  then Err PageSourceError.Invalid
  else
    match as_page_geometries source !! Z.to_nat (page - 1) with
    | Some geometry =>
        if PageNumber_value (geometry_page geometry) =? page then Ok geometry
        else Err PageSourceError.Invalid
    | None => Err PageSourceError.Invalid
    end.

Notation RecognitionResult := (result PageRecognitionError.PageRecognitionError).

Section Recognition.
Context {G : Type}.

Section Loader.
Context (load_accepted_source : G →
  result StoreError (option StoredAcceptedSource) * G).
Context (read : StoredAcceptedSource → G →
  result AcceptedSourceReadError.AcceptedSourceReadError (list Z) * G).

(** [AcceptedPageSourceLoader::load_inner]. *)
Definition load_inner (task : PageTask) (g : G)
    : result PageSourceError.PageSourceError AcceptedPageSource * G :=
  match load_accepted_source g with
  | (Err e, g) => (Err (map_store_error e), g)
  | (Ok None, g) => (Err PageSourceError.NotFound, g)
  | (Ok (Some source), g) =>
      match page_geometry source (task_page task) with
      | Err e => (Err e, g)
      | Ok geometry =>
          match read source g with
          | (Err AcceptedSourceReadError.Invalid, g) => (Err PageSourceError.Invalid, g)
          | (Err AcceptedSourceReadError.Unavailable, g) => (Err PageSourceError.Unavailable, g)
          | (Ok bytes, g) =>
              (if negb (bool_decide (checked i64_max (zlen bytes)
                                     = Some (as_content_length source)))
               then Err PageSourceError.Invalid
               else Ok (mkAcceptedPageSource bytes (as_content_type source) geometry), g)
          end
      end
  end.
End Loader.

(** ** Native text *)

Definition NATIVE_PROFILE : string := "native-text-v1".

Definition source_error (error : PageSourceError.PageSourceError)
    : PageRecognitionError.PageRecognitionError :=
  match error with
  | PageSourceError.Unavailable => PageRecognitionError.Retryable
  | PageSourceError.NotFound | PageSourceError.Invalid => PageRecognitionError.Permanent
  end.

Definition parser_error (error : ParserProcessError.ParserProcessError)
    : PageRecognitionError.PageRecognitionError :=
  match error with
  | ParserProcessError.InvalidDocument | ParserProcessError.PasswordRequired
  | ParserProcessError.LimitsExceeded => PageRecognitionError.Permanent
  | _ => PageRecognitionError.Retryable
  end.

Definition find_page (number : Z) (pages : list DocumentPage) : option DocumentPage :=
  snd <$> list_find (λ p, PageNumber_value (page p) = number) pages.

(** What the parser's pages must show about the accepted page. *)
Definition check_extracted (task : PageTask) (source : AcceptedPageSource)
    (pages : list DocumentPage) : RecognitionResult () :=
  let? found := ok_or (find_page (task_page task) pages) PageRecognitionError.Permanent in
  let geometry := source_geometry source in
  let matches := (page_width found =? geometry_width geometry)
                 && (page_height found =? geometry_height geometry) in
  let rotated_legacy := (page_width found =? geometry_height geometry)
                        && (page_height found =? geometry_width geometry) in
  if negb matches && negb rotated_legacy then Err PageRecognitionError.Permanent else Ok ().

(** Old sources in TIFF were accepted for their first frame. *)
Definition accepted_frames (content_type : string) (page_count : Z) (pages : list DocumentPage)
    : list DocumentPage :=
  if String.eqb content_type "image/tiff" && (page_count =? 1) && (1 <? zlen pages)
  then take 1 pages else pages.

Section Native.
Context (sha256 : list Z → list Z).
Context (encoded_size : list DocumentPage → Z) (stored_size : DocumentPage → Z).
Context (load_source : PageTask → G → result PageSourceError.PageSourceError AcceptedPageSource * G).
Context (extract_native : list Z → string → result ParserProcessError.ParserProcessError (list DocumentPage)).
Context (now : Z) (meanwhile : nat → Db * NativeDb → Db * NativeDb).

Definition retryable {A : Type} (m : result StoreError A) : RecognitionResult A :=
  map_err m (λ _, PageRecognitionError.Retryable).

(** The closure that [NativePageRecognizer::recognize] gives to the cache. *)
Definition extract_document (tenant : TenantId) (product : ProductId) (job : JobId)
    (task : PageTask) (world : Db * NativeDb * G)
    : RecognitionResult (list DocumentPage) * (Db * NativeDb * G) :=
  let '(db, native, g) := world in
  let '(db, native) := meanwhile 1 (db, native) in
  match load_native_pages stored_size tenant product job NATIVE_PROFILE db native with
  | Err _ => (Err PageRecognitionError.Retryable, (db, native, g))
  | Ok (Some pages) => (Ok pages, (db, native, g))
  | Ok None =>
      match load_source task g with
      | (Err e, g) => (Err (source_error e), (db, native, g))
      | (Ok source, g) =>
          match map_err (extract_native (source_bytes source) (source_content_type source))
                  parser_error with
          | Err e => (Err e, (db, native, g))
          | Ok pages =>
              match check_extracted task source pages with
              | Err e => (Err e, (db, native, g))
              | Ok _ =>
                  let '(db, native) := meanwhile 2 (db, native) in
                  match load_accepted_source tenant product job db with
                  | Err _ => (Err PageRecognitionError.Retryable, (db, native, g))
                  | Ok None => (Err PageRecognitionError.Permanent, (db, native, g))
                  | Ok (Some accepted) =>
                      let pages := accepted_frames (source_content_type source)
                                     (as_page_count accepted) pages in
                      let digest := sha256_digest (sha256 (source_bytes source)) in
                      let '(db, native) := meanwhile 3 (db, native) in
                      match save_native_pages encoded_size stored_size now tenant product job
                              NATIVE_PROFILE digest pages db native with
                      | Err _ => (Err PageRecognitionError.Retryable, (db, native, g))
                      | Ok (canonical, native) => (Ok canonical, (db, native, g))
                      end
                  end
              end
          end
      end
  end.

(** [NativePageRecognizer::recognize] with [load], the cache's answer. *)
Definition recognize_with
    (load : Db * NativeDb * G → RecognitionResult (list DocumentPage) * (Db * NativeDb * G))
    (tenant : TenantId) (product : ProductId) (job : JobId) (task : PageTask)
    (world : Db * NativeDb * G) : RecognitionResult DocumentPage * (Db * NativeDb * G) :=
  let '(db, native, g) := world in
  match load_native_page stored_size tenant product job NATIVE_PROFILE (task_page task) db native with
  | Err _ => (Err PageRecognitionError.Retryable, world)
  | Ok (Some found) => (Ok found, world)
  | Ok None =>
      let '(pages, world) := load world in
      (let? pages := pages in
       ok_or (find_page (task_page task) pages) PageRecognitionError.Permanent, world)
  end.

Definition recognize (tenant : TenantId) (product : ProductId) (job : JobId) (task : PageTask)
    (world : Db * NativeDb * G) : RecognitionResult DocumentPage * (Db * NativeDb * G) :=
  recognize_with (extract_document tenant product job task) tenant product job task world.
End Native.
End Recognition.

(** ** Hybrid recognition *)

(** [HybridPageRecognizer::recognize]: the managed recogniser sees only pages without
    text; a page it cannot take stays without. *)
Definition hybrid_recognize {World : Type}
    (native managed : PageTask → World → RecognitionResult DocumentPage * World)
    (task : PageTask) (world : World) : RecognitionResult DocumentPage * World :=
  match native task world with
  | (Err e, world) => (Err e, world)
  | (Ok found, world) =>
      if negb (zlen (observations found) =? 0) then (Ok found, world)
      else
        match managed task world with
        | (Err PageRecognitionError.Permanent, world) => (Ok found, world)
        | read => read
        end
  end.
