(* ===== verification/Finalizer.v ===== *)
(** * Finalizer: from a settled workflow to a published result

    Models [ocr-service/src/document_finalizer.rs] and [result_publisher.rs], and
    [get_result] of [ocr-service/src/lib.rs], which serves what they published.  The
    page reader and the result writer are the arguments [read] and [write] on the state
    [G] of the object stores; [meanwhile k] is what the other workers do to the
    databases before the [k]-th statement.  [buffer_unordered] yields the pages in the
    order in which their reads end: [arrange] puts the artifacts in that order. *)

From S2P Require Import Prelude Text DomainTypes Identifiers Digest Geometry PageWorkflow.
From S2P Require Import Document StoreTypes StoreChecks StoreDb StoreJobs StorePages PageRunner.
From S2P Require Import Artifacts Assembly NativePages Recognition.

#[local] Open Scope list_scope.
#[local] Open Scope Z_scope.

Module PublishResultError.
Inductive PublishResultError :=
| Artifact (e : ResultArtifactWriteError.ResultArtifactWriteError)
| Store (e : StoreError).
End PublishResultError.

Module DocumentFinalizeError.
Inductive DocumentFinalizeError :=
| InvalidConfiguration
| NotReady
| Cancelled
| IncompleteArtifacts
| UnregisteredSchema
| InvalidPageArtifact
| PageArtifact (e : PageArtifactReadError.PageArtifactReadError)
| Assembly (e : ResultAssemblyError.ResultAssemblyError)
| Publish (e : PublishResultError.PublishResultError)
| Store (e : StoreError).
End DocumentFinalizeError.

Notation FinalizeResult := (result DocumentFinalizeError.DocumentFinalizeError).

(** The configuration of a [DocumentFinalizer]. *)
Record DocumentFinalizer := mkDocumentFinalizer {
  finalizer_concurrency : Z;
  native_processing : bool;
}.

Definition DocumentFinalizer_new (concurrency : Z) : FinalizeResult DocumentFinalizer :=
  if negb (contains 1 64 concurrency) then Err DocumentFinalizeError.InvalidConfiguration
  else Ok (mkDocumentFinalizer concurrency false).

Definition with_native_processing (self : DocumentFinalizer) : DocumentFinalizer :=
  mkDocumentFinalizer (finalizer_concurrency self) true.

(** The [try_fold] over the lengths of the artifacts. *)
Fixpoint total_length (total : Z) (artifacts : list StoredPageArtifact) : AssemblyResult Z :=
  match artifacts with
  | [] => Ok total
  | artifact :: rest =>
      let? length :=
        ok_or (checked usize_max (artifact_content_length artifact)) ResultAssemblyError.TooLarge in
      let? sum := ok_or (checked_add usize_max total length) ResultAssemblyError.TooLarge in
      if MAXIMUM_RESULT_BYTES <? sum then Err ResultAssemblyError.TooLarge
      else total_length sum rest
  end.

(** The state that a settled workflow leads to. *)
Definition settled_state (status : PageWorkflowStatus.PageWorkflowStatus) : FinalizeResult JobState :=
  match status with
  | PageWorkflowStatus.Completed => Ok Completed
  | PageWorkflowStatus.Partial => Ok Partial
  | PageWorkflowStatus.Running => Err DocumentFinalizeError.NotReady
  | PageWorkflowStatus.Cancelled => Err DocumentFinalizeError.Cancelled
  end.

(** A completed document with validation failures needs a review. *)
Definition reviewed_state {Value : Type} (terminal_state : JobState) (document : DocumentResult Value)
    : JobState :=
  if bool_decide (terminal_state = Completed)
     && negb (zlen (result_validation_failures document) =? 0)
  then ReviewRequired else terminal_state.

(** The errors of [get_result], without the identifier of the request. *)
Module ServeError.
Inductive ServeError := NotFound | ResultNotReady | ResultUnavailable | Unavailable.
End ServeError.

Section Finalizer.
Context {G Value : Type}.
Context (jsonb_size : RawPageWorkflow → Z).

(** ** Publishing *)

Section Publisher.
Context (write : ProductId → TenantId → JobId → DocumentResult Value → G →
  result ResultArtifactWriteError.ResultArtifactWriteError StoredResultLocator * G).
Context (now : Z).

(** [ResultPublisher::publish]; [disturb] is what happens between the two calls. *)
Definition publish (disturb : Db → Db) (tenant_id : TenantId) (product_id : ProductId)
    (job_id : JobId) (state : JobState) (document : DocumentResult Value) (db : Db) (g : G)
    : result PublishResultError.PublishResultError CommitResultOutcome.CommitResultOutcome * Db * G :=
  match write product_id tenant_id job_id document g with
  | (Err e, g) => (Err (PublishResultError.Artifact e), db, g)
  | (Ok locator, g) =>
      if negb (bool_decide (loc_document_id locator = document_id document))
         || negb (bool_decide (loc_document_version locator = document_version document))
      then (Err (PublishResultError.Artifact ResultArtifactWriteError.Invalid), db, g)
      else
        let db := disturb db in
        match commit_result now tenant_id product_id job_id
                {| terminal_state := state; locator := locator |} db with
        | Err e => (Err (PublishResultError.Store e), db, g)
        | Ok (outcome, db) => (Ok outcome, db, g)
        end
  end.
End Publisher.

(** ** Reading the pages *)

Section Reader.
Context (read : StoredPageArtifact → Z → G →
  result PageArtifactReadError.PageArtifactReadError (list Z) * G).
Context (page_from_slice : list Z → option RawDocumentPage).

(** [serde_json::from_slice::<DocumentPage>]. *)
Definition decode_page (bytes : list Z) : FinalizeResult DocumentPage :=
  let? raw := ok_or (page_from_slice bytes) DocumentFinalizeError.InvalidPageArtifact in
  map_err (DocumentPage_try_from raw) (λ _, DocumentFinalizeError.InvalidPageArtifact).

Fixpoint read_pages (artifacts : list StoredPageArtifact) (g : G)
    : FinalizeResult (list DocumentPage) * G :=
  match artifacts with
  | [] => (Ok [], g)
  | artifact :: rest =>
      match read artifact MAXIMUM_RESULT_BYTES g with
      | (Err e, g) => (Err (DocumentFinalizeError.PageArtifact e), g)
      | (Ok bytes, g) =>
          match decode_page bytes with
          | Err e => (Err e, g)
          | Ok decoded =>
              if negb (PageNumber_value (page decoded) =? artifact_page artifact)
              then (Err DocumentFinalizeError.InvalidPageArtifact, g)
              else
                let '(pages, g) := read_pages rest g in
                (let? pages := pages in Ok (decoded :: pages), g)
          end
      end
  end.
End Reader.

(** ** Finalizing *)

Section Finalize.
Context (write : ProductId → TenantId → JobId → DocumentResult Value → G →
  result ResultArtifactWriteError.ResultArtifactWriteError StoredResultLocator * G).
Context (read : StoredPageArtifact → Z → G →
  result PageArtifactReadError.PageArtifactReadError (list Z) * G).
Context (page_from_slice : list Z → option RawDocumentPage).
Context (extract : ExtractionSchema → list DocumentPage → ExtractedFields Value).
Context (result_to_vec : DocumentResult Value → option (list Z)).
Context (now : Z) (meanwhile : nat → Db * NativeDb → Db * NativeDb).
Context (arrange : list StoredPageArtifact → list StoredPageArtifact).

(** The choice among the three assemblies. *)
Definition assemble (self : DocumentFinalizer) (tenant_id : TenantId) (product_id : ProductId)
    (job_id : JobId) (document_id : DocumentId) (document_version : DocumentVersion)
    (schema : option ExtractionSchema) (pages : list DocumentPage) (db : Db) (native : NativeDb)
    : FinalizeResult (DocumentResult Value) :=
  let assembly m := map_err m DocumentFinalizeError.Assembly in
  if native_processing self then
    let? duration :=
      map_err (load_native_duration_ms tenant_id product_id job_id NATIVE_PROFILE db native)
        DocumentFinalizeError.Store in
    match duration with
    | Some duration =>
        assembly (assemble_native_document_result extract result_to_vec document_id
                    document_version pages schema duration)
    | None =>
        assembly (assemble_legacy_document_result extract result_to_vec document_id
                    document_version pages schema)
    end
  else assembly (assemble_document_result extract result_to_vec document_id document_version
                   pages schema).

(** From the loaded workflow to the artifacts to read and the state to reach. *)
Definition plan_pages (workflow : PageWorkflow) (artifacts : list StoredPageArtifact)
    : FinalizeResult () :=
  if negb (zlen artifacts =? successful_page_count workflow)
  then Err DocumentFinalizeError.IncompleteArtifacts
  else
    let? total_bytes := map_err (total_length 0 artifacts) DocumentFinalizeError.Assembly in
    if (total_bytes =? 0) && negb (zlen artifacts =? 0)
    then Err DocumentFinalizeError.InvalidPageArtifact else Ok ().

Notation World := (Db * NativeDb * G)%type.

(** [DocumentFinalizer::finalize] once no result was found. *)
Definition finalize_pages (self : DocumentFinalizer) (tenant_id : TenantId)
    (product_id : ProductId) (job_id : JobId) (document_id : DocumentId)
    (document_version : DocumentVersion) (schema : option ExtractionSchema) (world : World)
    : FinalizeResult CommitResultOutcome.CommitResultOutcome * World :=
  let '(db, native, g) := world in
  let '(db, native) := meanwhile 2 (db, native) in
  match load_page_workflow jsonb_size tenant_id product_id job_id db with
  | Err e => (Err (DocumentFinalizeError.Store e), (db, native, g))
  | Ok None => (Err DocumentFinalizeError.NotReady, (db, native, g))
  | Ok (Some stored) =>
      let workflow := stored_workflow stored in
      match settled_state (status workflow) with
      | Err e => (Err e, (db, native, g))
      | Ok terminal_state =>
          let '(db, native) := meanwhile 3 (db, native) in
          match load_page_artifacts tenant_id product_id job_id db with
          | Err e => (Err (DocumentFinalizeError.Store e), (db, native, g))
          | Ok artifacts =>
              match plan_pages workflow artifacts with
              | Err e => (Err e, (db, native, g))
              | Ok _ =>
                  match read_pages read page_from_slice (arrange artifacts) g with
                  | (Err e, g) => (Err e, (db, native, g))
                  | (Ok pages, g) =>
                      let '(db, native) := meanwhile 4 (db, native) in
                      match assemble self tenant_id product_id job_id document_id
                              document_version schema pages db native with
                      | Err e => (Err e, (db, native, g))
                      | Ok document =>
                          let state := reviewed_state terminal_state document in
                          let before := db in
                          let '(outcome, db, g) :=
                            publish write now (λ db, (meanwhile 5 (db, native)).1) tenant_id
                              product_id job_id state document db g in
                          let native := (meanwhile 5 (before, native)).2 in
                          match outcome with
                          | Err e => (Err (DocumentFinalizeError.Publish e), (db, native, g))
                          | Ok outcome =>
                              let native :=
                                match outcome with
                                | CommitResultOutcome.Committed _
                                | CommitResultOutcome.Existing _ =>
                                    if native_processing self
                                    then clear_native_pages tenant_id product_id job_id native
                                    else native
                                | _ => native
                                end in
                              (Ok outcome, (db, native, g))
                          end
                      end
                  end
              end
          end
      end
  end.

(** [DocumentFinalizer::finalize]. *)
Definition finalize (self : DocumentFinalizer) (tenant_id : TenantId)
    (product_id : ProductId) (job_id : JobId) (document_id : DocumentId)
    (document_version : DocumentVersion) (schema : option ExtractionSchema) (world : World)
    : FinalizeResult CommitResultOutcome.CommitResultOutcome * World :=
  let '(db, native, g) := world in
  if native_processing self then
    match find_result tenant_id product_id job_id db with
    | Err e => (Err (DocumentFinalizeError.Store e), world)
    | Ok (ResultLookup.Ready _) =>
        let '(db, native) := meanwhile 1 (db, native) in
        (match find tenant_id product_id job_id db with
         | Err e => Err (DocumentFinalizeError.Store e)
         | Ok None => Err DocumentFinalizeError.NotReady
         | Ok (Some job) => Ok (CommitResultOutcome.Existing job)
         end, (db, native, g))
    | Ok _ => finalize_pages self tenant_id product_id job_id document_id document_version schema
                world
    end
  else finalize_pages self tenant_id product_id job_id document_id document_version schema world.

(** [DocumentFinalizer::finalize_stored]. *)
Definition finalize_stored (self : DocumentFinalizer) (tenant_id : TenantId)
    (product_id : ProductId) (job_id : JobId) (world : World)
    : FinalizeResult CommitResultOutcome.CommitResultOutcome * World :=
  let '(db, native, g) := world in
  match load_document_identity tenant_id product_id job_id db with
  | Err e => (Err (DocumentFinalizeError.Store e), world)
  | Ok None => (Err DocumentFinalizeError.NotReady, world)
  | Ok (Some identity) =>
      match (match identity_extraction identity with
             | None => Ok None
             | Some reference =>
                 let? schema :=
                   ok_or (registered (schema_id reference) (ref_schema_version reference))
                     DocumentFinalizeError.UnregisteredSchema in
                 Ok (Some schema)
             end) with
      | Err e => (Err e, world)
      | Ok schema =>
          let '(db, native) := meanwhile 0 (db, native) in
          finalize self tenant_id product_id job_id (identity_document_id identity)
            (identity_document_version identity) schema (db, native, g)
      end
  end.
End Finalize.

(** ** Serving *)

Section Serve.
Context (sha256 : list Z → list Z).
Context (read : StoredResultLocator → Z → G → result ResultArtifactError (list Z) * G).
Context (result_from_slice : list Z → option (DocumentResult Value)).

(** [get_result]. *)
Definition get_result (tenant_id : TenantId) (product_id : ProductId) (job_id : string) (db : Db)
    (g : G) : result ServeError.ServeError (DocumentResult Value) * G :=
  match JobId_new job_id with
  | Err _ => (Err ServeError.NotFound, g)
  | Ok job_id =>
      match find_result tenant_id product_id job_id db with
      | Err _ => (Err ServeError.Unavailable, g)
      | Ok (ResultLookup.NotReady _) => (Err ServeError.ResultNotReady, g)
      | Ok (ResultLookup.Unavailable _) => (Err ServeError.ResultUnavailable, g)
      | Ok ResultLookup.NotFound => (Err ServeError.NotFound, g)
      | Ok (ResultLookup.Ready locator) =>
          match checked usize_max (loc_content_length locator) with
          | None => (Err ServeError.Unavailable, g)
          | Some expected_length =>
              if MAXIMUM_RESULT_BYTES <? expected_length then (Err ServeError.Unavailable, g)
              else
                let '(bytes, g) := read locator MAXIMUM_RESULT_BYTES g in
                (let? bytes := map_err bytes (λ _, ServeError.Unavailable) in
                 let digest := sha256_digest (sha256 bytes) in
                 if negb (zlen bytes =? expected_length)
                    || negb (String.eqb digest (loc_object_digest locator))
                 then Err ServeError.Unavailable
                 else
                   let? raw := ok_or (result_from_slice bytes) ServeError.Unavailable in
                   let? document :=
                     map_err (DocumentResult_try_from (mkRawDocumentResult raw))
                       (λ _, ServeError.Unavailable) in
                   if negb (bool_decide (document_id document = loc_document_id locator))
                      || negb (bool_decide
                                 (document_version document = loc_document_version locator))
                   then Err ServeError.Unavailable
                   else Ok document, g)
          end
      end
  end.
End Serve.
End Finalizer.
