(* ===== verification/DocumentCache.v ===== *)
(** * DocumentCache: at most one extraction per document

    Models [NativeDocumentCache] of [ocr-service/src/native_recognizer.rs] as a machine
    whose events are the atomic steps of the concurrent calls of [load]: each step under
    the lock of the entries, or one of the [OnceCell] of a document.  A cell is a number;
    [Arc::strong_count] is the count of the entries and the leases that hold it, and the
    pages of a cell are shared by the documents that calls returned.  An event that is
    not enabled gives [None]: a call that finds no room waits, and the notifications
    that wake it are not modelled. *)

From S2P Require Import Prelude Text DomainTypes Identifiers Geometry Document.

#[local] Open Scope list_scope.
#[local] Open Scope nat_scope.

Definition CacheKey : Type := ProductId * TenantId * JobId.

(** A call of [load] that holds the lease of a cell: waiting for the cell to be
    initialised, extracting, or with a failed extraction. *)
Inductive LoadPhase := Waiting | Extracting | Failed.

#[export] Instance LoadPhase_eq_dec : EqDecision LoadPhase.
Proof. solve_decision. Defined.

Record CellLease := mkCellLease { lease_key : CacheKey; lease_cell : nat; lease_phase : LoadPhase }.

(** A document that a call returned, with the key it was asked for. *)
Record CachedDocument := mkCachedDocument { cached_key : CacheKey; cached_cell : nat }.

(** [contents] has the initialised cells, with the key of the call that extracted. *)
Record NativeDocumentCache := mkNativeDocumentCache {
  capacity : nat;
  entries : list (CacheKey * nat);
  contents : gmap nat (CacheKey * list DocumentPage);
  leases : gmap nat CellLease;
  documents : gmap nat CachedDocument;
  next_cell : nat;
}.

Definition NativeDocumentCache_new (capacity : nat) : NativeDocumentCache :=
  mkNativeDocumentCache capacity [] ∅ ∅ ∅ 0.

Section Cache.
Implicit Types (s : NativeDocumentCache).

Definition lease_count (cell : nat) s : nat :=
  size (base.filter (λ '(_, lease), lease_cell lease = cell) (leases s)).
Definition document_count (cell : nat) s : nat :=
  size (base.filter (λ '(_, document), cached_cell document = cell) (documents s)).

(** [Arc::strong_count(cell)]. *)
Definition strong_count (cell : nat) s : nat :=
  length (base.filter (λ entry, entry.2 = cell) (entries s)) + lease_count cell s.

(** Nobody uses the cell of the entry or its pages. *)
Definition is_idle s (entry : CacheKey * nat) : bool :=
  (strong_count entry.2 s =? 1)
  && (bool_decide (contents s !! entry.2 = None) || (document_count entry.2 s =? 0)).

Definition with_entries s (entries : list (CacheKey * nat)) : NativeDocumentCache :=
  mkNativeDocumentCache (capacity s) entries (contents s) (leases s) (documents s) (next_cell s).
Definition with_leases s (leases : gmap nat CellLease) : NativeDocumentCache :=
  mkNativeDocumentCache (capacity s) (entries s) (contents s) leases (documents s) (next_cell s).

(** A lease of [cell] for the call [call]. *)
Definition add_lease (call : nat) (key : CacheKey) (cell : nat) s : NativeDocumentCache :=
  with_leases s (<[call := mkCellLease key cell Waiting]> (leases s)).

(** A new cell at the back of the entries. *)
Definition add_entry (call : nat) (key : CacheKey) s : NativeDocumentCache :=
  let cell := next_cell s in
  add_lease call key cell
    (mkNativeDocumentCache (capacity s) (entries s ++ [(key, cell)]) (contents s) (leases s)
       (documents s) (S cell)).

(** [entries.remove(index)]. *)
Definition remove_at {A : Type} (index : nat) (l : list A) : list A := take index l ++ drop (S index) l.

(** One round of the loop of [load]. *)
Definition acquire (call : nat) (key : CacheKey) s : option NativeDocumentCache :=
  match leases s !! call with
  | Some _ => None
  | None =>
      match list_find (λ entry, entry.1 = key) (entries s) with
      | Some (index, entry) =>
          Some (add_lease call key entry.2
                  (with_entries s (remove_at index (entries s) ++ [entry])))
      | None =>
          if capacity s <=? length (entries s) then
            match list_find (λ entry, is_idle s entry = true) (entries s) with
            | Some (index, _) =>
                Some (add_entry call key (with_entries s (remove_at index (entries s))))
            | None => None
            end
          else Some (add_entry call key s)
      end
  end.

(** Some lease of the cell is extracting. *)
Definition busy (cell : nat) s : bool :=
  existsb (λ '(_, lease), (lease_cell lease =? cell)%nat && bool_decide (lease_phase lease = Extracting))
    (map_to_list (leases s)).

Definition set_phase (call : nat) (phase : LoadPhase) (lease : CellLease) s : NativeDocumentCache :=
  with_leases s (<[call := mkCellLease (lease_key lease) (lease_cell lease) phase]> (leases s)).

(** The call ends with a document of its cell. *)
Definition give (call document : nat) (lease : CellLease)
    (contents : gmap nat (CacheKey * list DocumentPage)) s : option NativeDocumentCache :=
  match documents s !! document with
  | Some _ => None
  | None =>
      Some (mkNativeDocumentCache (capacity s) (entries s) contents (delete call (leases s))
              (<[document := mkCachedDocument (lease_key lease) (lease_cell lease)]> (documents s))
              (next_cell s))
  end.

Inductive Event :=
| Acquire (call : nat) (key : CacheKey)
| Extract (call : nat)
| Succeed (call document : nat) (pages : list DocumentPage)
| Fail (call : nat)
| Forget (call : nat)
| Reuse (call document : nat)
| Cancel (call : nat)
| Drop (document : nat).

Definition step (event : Event) s : option NativeDocumentCache :=
  match event with
  | Acquire call key => acquire call key s
  | Extract call =>
      (* [get_or_try_init] runs one closure at a time, on a cell without value *)
      match leases s !! call with
      | Some lease =>
          if bool_decide (lease_phase lease = Waiting)
             && bool_decide (contents s !! lease_cell lease = None)
             && negb (busy (lease_cell lease) s)
          then Some (set_phase call Extracting lease s) else None
      | None => None
      end
  | Succeed call document pages =>
      match leases s !! call with
      | Some lease =>
          if bool_decide (lease_phase lease = Extracting)
          then give call document lease
                 (<[lease_cell lease := (lease_key lease, pages)]> (contents s)) s
          else None
      | None => None
      end
  | Fail call =>
      match leases s !! call with
      | Some lease =>
          if bool_decide (lease_phase lease = Extracting)
          then Some (set_phase call Failed lease s) else None
      | None => None
      end
  | Forget call =>
      match leases s !! call with
      | Some lease =>
          if bool_decide (lease_phase lease = Failed) then
            let entries :=
              if strong_count (lease_cell lease) s =? 2
              then base.filter (λ entry, entry ≠ (lease_key lease, lease_cell lease)) (entries s)
              else entries s in
            Some (with_leases (with_entries s entries) (delete call (leases s)))
          else None
      | None => None
      end
  | Reuse call document =>
      match leases s !! call with
      | Some lease =>
          if bool_decide (lease_phase lease = Waiting)
             && bool_decide (is_Some (contents s !! lease_cell lease))
          then give call document lease (contents s) s else None
      | None => None
      end
  | Cancel call => Some (with_leases s (delete call (leases s)))
  | Drop document =>
      Some (mkNativeDocumentCache (capacity s) (entries s) (contents s) (leases s)
              (delete document (documents s)) (next_cell s))
  end.

(** The states that sequences of enabled events reach. *)
Inductive reachable_cache (capacity : nat) : NativeDocumentCache → Prop :=
| reach_new : reachable_cache capacity (NativeDocumentCache_new capacity)
| reach_step s event s' :
    reachable_cache capacity s → step event s = Some s' → reachable_cache capacity s'.
End Cache.

(** ** Counting *)

Lemma map_size_two {A} (m : gmap nat A) i k x y :
  m !! i = Some x → m !! k = Some y → i ≠ k → 2 ≤ size m.
Proof.
  intros Hi Hk Hne. assert (Hd : delete i m !! k = Some y) by by rewrite lookup_delete_ne.
  assert (size (delete i m) ≠ 0) as Hn by (rewrite map_size_empty_iff; intros He; by rewrite He in Hd).
  rewrite map_size_delete, Hi in Hn. lia.
Qed.

Lemma lease_count_zero cell s call lease :
  lease_count cell s = 0 → leases s !! call = Some lease → lease_cell lease ≠ cell.
Proof.
  unfold lease_count. rewrite map_size_empty_iff. intros He Hl Hc.
  assert (H : (base.filter (λ '(_, lease), lease_cell lease = cell) (leases s) : gmap nat CellLease)
              !! call = Some lease) by by apply map_lookup_filter_Some.
  by rewrite He in H.
Qed.

Lemma lease_count_one cell s call call' lease lease' :
  lease_count cell s ≤ 1 → leases s !! call = Some lease → leases s !! call' = Some lease' →
  lease_cell lease = cell → lease_cell lease' = cell → call = call'.
Proof.
  intros Hc Hl Hl' He He'. destruct (decide (call = call')) as [|Hne]; [done|exfalso].
  unfold lease_count in Hc.
  assert (2 ≤ size (base.filter (λ '(_, lease), lease_cell lease = cell) (leases s) : gmap nat CellLease));
    [|lia].
  eapply (map_size_two _ call call'); [by apply map_lookup_filter_Some..|done].
Qed.

Lemma filter_cells_in (cell : nat) (entries : list (CacheKey * nat)) entry :
  entry ∈ entries → entry.2 = cell →
  1 ≤ length (base.filter (λ entry, entry.2 = cell) entries).
Proof.
  intros Hin Hc. assert (H : entry ∈ base.filter (λ entry, entry.2 = cell) entries)
    by by apply list_elem_of_filter.
  destruct (base.filter _ entries); [by apply not_elem_of_nil in H|simpl; lia].
Qed.

(** ** The invariant *)

Record cache_ok (cap : nat) (s : NativeDocumentCache) : Prop := {
  ok_capacity : capacity s = cap;
  ok_bounded : length (entries s) ≤ cap;
  ok_keys : NoDup (entries s).*1;
  ok_cells : NoDup (entries s).*2;
  ok_fresh : ∀ entry, entry ∈ entries s → entry.2 < next_cell s;
  ok_fresh_contents : ∀ cell, is_Some (contents s !! cell) → cell < next_cell s;
  ok_leased : ∀ call lease, leases s !! call = Some lease →
    (lease_key lease, lease_cell lease) ∈ entries s;
  ok_single : ∀ call call' lease lease', leases s !! call = Some lease →
    leases s !! call' = Some lease' → lease_phase lease = Extracting →
    lease_phase lease' = Extracting → lease_cell lease = lease_cell lease' → call = call';
  ok_extracting : ∀ call lease, leases s !! call = Some lease → lease_phase lease = Extracting →
    contents s !! lease_cell lease = None;
  ok_contents : ∀ entry key pages, entry ∈ entries s → contents s !! entry.2 = Some (key, pages) →
    entry.1 = key;
  ok_documents : ∀ id document, documents s !! id = Some document →
    ∃ pages, contents s !! cached_cell document = Some (cached_key document, pages);
}.

Lemma cells_determine (entries : list (CacheKey * nat)) e e' :
  NoDup entries.*2 → e ∈ entries → e' ∈ entries → e.2 = e'.2 → e = e'.
Proof.
  intros Hnd [i Hi]%list_elem_of_lookup [k Hk]%list_elem_of_lookup He.
  assert (i = k) as <-; [|congruence].
  eapply NoDup_lookup; [done| |]; rewrite list_lookup_fmap; [by rewrite Hi|]. rewrite Hk. simpl.
  by rewrite He.
Qed.

Lemma keys_determine (entries : list (CacheKey * nat)) e e' :
  NoDup entries.*1 → e ∈ entries → e' ∈ entries → e.1 = e'.1 → e = e'.
Proof.
  intros Hnd [i Hi]%list_elem_of_lookup [k Hk]%list_elem_of_lookup He.
  assert (i = k) as <-; [|congruence].
  eapply NoDup_lookup; [done| |]; rewrite list_lookup_fmap; [by rewrite Hi|]. rewrite Hk. simpl.
  by rewrite He.
Qed.

Lemma new_ok cap : cache_ok cap (NativeDocumentCache_new cap).
Proof.
  split; simpl; try done; try lia; try constructor; intros *; rewrite ?lookup_empty;
    try (by intros [? [=]]); try done; by intros ?%not_elem_of_nil.
Qed.

(** Fewer leases. *)
Lemma delete_lease_ok cap s call : cache_ok cap s → cache_ok cap (with_leases s (delete call (leases s))).
Proof.
  intros [H1 H2 H3 H4 H5 H6 H7 H8 H9 H10 H11]. split; simpl; try done.
  - intros c l [_ Hl]%lookup_delete_Some. by eapply H7.
  - intros c c' l l' [_ Hl]%lookup_delete_Some [_ Hl']%lookup_delete_Some. by eapply H8.
  - intros c l [_ Hl]%lookup_delete_Some. by eapply H9.
Qed.

Lemma NoDup_sub {A} (l k : list A) : l ⊆+ k → NoDup k → NoDup l.
Proof. intros (rest & ->)%submseteq_Permutation. by intros (H & _ & _)%NoDup_app. Qed.

(** Entries in another order, or fewer of them, as long as leased ones stay. *)
Lemma entries_ok cap s es :
  cache_ok cap s → es ⊆+ entries s →
  (∀ call lease, leases s !! call = Some lease → (lease_key lease, lease_cell lease) ∈ es) →
  cache_ok cap (with_entries s es).
Proof.
  intros [H1 H2 H3 H4 H5 H6 H7 H8 H9 H10 H11] Hsub Hl.
  assert (Hin : ∀ e, e ∈ es → e ∈ entries s) by (intros e; intros He; by eapply elem_of_submseteq).
  split; simpl; try done.
  - pose proof (submseteq_length _ _ Hsub). lia.
  - eapply NoDup_sub; [|exact H3]. by apply fmap_submseteq.
  - eapply NoDup_sub; [|exact H4]. by apply fmap_submseteq.
  - intros e He. by apply H5, Hin.
  - intros e key pages He. by apply H10, Hin.
Qed.

Lemma remove_at_Permutation {A} (l : list A) index x :
  l !! index = Some x → x :: remove_at index l ≡ₚ l.
Proof.
  intros H. unfold remove_at. rewrite <- (take_drop_middle l index x H) at 3. apply Permutation_middle.
Qed.

(** A new lease that waits, on the cell of an entry of its key. *)
Lemma add_lease_ok cap s call key cell :
  cache_ok cap s → leases s !! call = None → (key, cell) ∈ entries s →
  cache_ok cap (add_lease call key cell s).
Proof.
  intros [H1 H2 H3 H4 H5 H6 H7 H8 H9 H10 H11] Hnew Hin. split; simpl; try done.
  - intros c l [[<- <-]|[_ Hl]]%lookup_insert_Some; [done|by eapply H7].
  - intros c c' l l' [[<- <-]|[_ Hl]]%lookup_insert_Some [[<- <-]|[_ Hl']]%lookup_insert_Some;
      simpl; try done. by eapply H8.
  - intros c l [[<- <-]|[_ Hl]]%lookup_insert_Some; [done|by eapply H9].
Qed.

(** A new entry, when there is room. *)
Lemma add_entry_ok cap s call key :
  cache_ok cap s → leases s !! call = None → key ∉ (entries s).*1 → length (entries s) < cap →
  cache_ok cap (add_entry call key s).
Proof.
  intros [H1 H2 H3 H4 H5 H6 H7 H8 H9 H10 H11] Hnew Hkey Hroom. unfold add_entry.
  apply add_lease_ok; [|done|simpl; set_solver]. split; simpl; try done.
  - rewrite length_app. simpl. lia.
  - rewrite fmap_app. apply NoDup_app. split_and!; [done| |apply NoDup_singleton]. set_solver.
  - rewrite fmap_app. apply NoDup_app. split_and!; [done| |apply NoDup_singleton].
    intros c (e & -> & He)%list_elem_of_fmap Hc%list_elem_of_singleton. apply H5 in He. simpl in Hc. lia.
  - intros e [He| ->%list_elem_of_singleton]%elem_of_app; simpl; [apply H5 in He; lia|lia].
  - intros c Hc%H6. lia.
  - intros c l Hl. apply elem_of_app. left. by eapply H7.
  - intros e k pages [He| ->%list_elem_of_singleton]%elem_of_app; [by apply H10|]. simpl.
    intros Hc. assert (next_cell s < next_cell s) by (apply H6; by eexists). lia.
Qed.

Lemma acquire_ok cap s call key s' : cache_ok cap s → acquire call key s = Some s' → cache_ok cap s'.
Proof.
  intros Hok. unfold acquire. destruct (leases s !! call) eqn:Hnew; [done|].
  destruct (list_find (λ entry, entry.1 = key) (entries s)) as [[index entry]|] eqn:Hf.
  - apply list_find_Some in Hf as (Hi & <- & _). intros [= <-].
    pose proof (remove_at_Permutation _ _ _ Hi) as Hp.
    assert (Hp' : remove_at index (entries s) ++ [entry] ≡ₚ entries s)
      by (etrans; [|exact Hp]; symmetry; apply Permutation_cons_append).
    apply add_lease_ok; [|done|].
    + apply entries_ok; [done|by rewrite Hp'|]. intros c l Hl. rewrite Hp'. by eapply ok_leased.
    + simpl. rewrite Hp'. destruct entry. by eapply list_elem_of_lookup_2.
  - apply list_find_None in Hf.
    assert (Hkey : key ∉ (entries s).*1).
    { intros (e & -> & He)%list_elem_of_fmap. rewrite Forall_forall in Hf. by apply (Hf e He). }
    destruct (Nat.leb_spec (capacity s) (length (entries s))) as [Hfull|Hroom].
    + destruct (list_find (λ entry, is_idle s entry = true) (entries s)) as [[index entry]|] eqn:Hidle;
        [|done].
      apply list_find_Some in Hidle as (Hi & Hidle & _). intros [= <-].
      pose proof (remove_at_Permutation _ _ _ Hi) as Hp.
      assert (Hsub : remove_at index (entries s) ⊆+ entries s) 
        by (etrans; [by apply (submseteq_cons entry)|by rewrite Hp]).
      assert (Hin : entry ∈ entries s) by by eapply list_elem_of_lookup_2.
      apply add_entry_ok; [|done| |].
      * apply entries_ok; [done|done|]. intros c l Hl. pose proof (ok_leased _ _ Hok c l Hl) as Hle.
        rewrite <- Hp in Hle. apply elem_of_cons in Hle as [He|]; [exfalso|done].
        unfold is_idle in Hidle. apply andb_true_iff in Hidle as [Hc%Nat.eqb_eq _].
        unfold strong_count in Hc. pose proof (filter_cells_in _ _ _ Hin eq_refl) as H1.
        eapply (lease_count_zero entry.2); [|exact Hl|by rewrite <- He]. lia.
      * simpl. intros (e & -> & He)%list_elem_of_fmap. apply Hkey. apply list_elem_of_fmap.
        exists e. split; [done|]. by eapply elem_of_submseteq.
      * simpl. pose proof (ok_bounded _ _ Hok) as Hb. apply Permutation_length in Hp. simpl in Hp. lia.
    + intros [= <-]. apply add_entry_ok; [done..|]. by rewrite (ok_capacity _ _ Hok) in Hroom.
Qed.

(** Nothing extracts on a cell that is not busy. *)
Lemma not_busy cell s call lease :
  busy cell s = false → leases s !! call = Some lease → lease_cell lease = cell →
  lease_phase lease ≠ Extracting.
Proof.
  unfold busy. intros Hb Hl Hc Hp. apply not_true_iff_false in Hb. apply Hb.
  apply existsb_exists. exists (call, lease). split.
  - apply list_elem_of_In. by apply elem_of_map_to_list.
  - by rewrite Hc, Nat.eqb_refl, bool_decide_eq_true_2.
Qed.

(** Another phase for a lease: extracting only on a free, uninitialised cell. *)
Lemma set_phase_ok cap s call phase lease :
  cache_ok cap s → leases s !! call = Some lease →
  (phase = Extracting → contents s !! lease_cell lease = None ∧ busy (lease_cell lease) s = false) →
  cache_ok cap (set_phase call phase lease s).
Proof.
  intros [H1 H2 H3 H4 H5 H6 H7 H8 H9 H10 H11] Hl Hphase. split; simpl; try done.
  - intros c l [[<- <-]|[_ Hc]]%lookup_insert_Some; [exact (H7 call lease Hl)|by eapply H7].
  - intros c c' l l' [[<- <-]|[Hn Hc]]%lookup_insert_Some [[<- <-]|[Hn' Hc']]%lookup_insert_Some;
      simpl; intros Hp Hp' He; [done| | |by eapply H8].
    + destruct (Hphase Hp) as [_ Hb]. by destruct (not_busy _ _ _ _ Hb Hc' (eq_sym He)).
    + destruct (Hphase Hp') as [_ Hb]. by destruct (not_busy _ _ _ _ Hb Hc He).
  - intros c l [[<- <-]|[_ Hc]]%lookup_insert_Some; simpl; [|by eapply H9]. intros Hp. by apply Hphase.
Qed.

(** A call ends with a document of its own key: its cell was initialised by a call for
    that key, or is now. *)
Lemma give_ok cap s call document lease new s' pages :
  cache_ok cap s → leases s !! call = Some lease →
  new = contents s ∧ is_Some (contents s !! lease_cell lease)
  ∨ lease_phase lease = Extracting ∧ new = <[lease_cell lease := (lease_key lease, pages)]> (contents s) →
  give call document lease new s = Some s' → cache_ok cap s'.
Proof.
  intros Hok Hl Hnew. unfold give. destruct (documents s !! document) eqn:Hd; [done|]. intros [= <-].
  pose proof (ok_leased _ _ Hok _ _ Hl) as Hin.
  destruct Hnew as [[-> [[key pages'] Hc]]|[Hp ->]].
  - pose proof (ok_contents _ _ Hok _ _ _ Hin Hc) as Hkey. simpl in Hkey. subst key.
    destruct (delete_lease_ok _ _ call Hok) as [H1 H2 H3 H4 H5 H6 H7 H8 H9 H10 H11].
    split; simpl in *; try done.
    intros id doc [[<- <-]|[_ Hid]]%lookup_insert_Some; [by exists pages'|by eapply H11].
  - pose proof (ok_extracting _ _ Hok _ _ Hl Hp) as Hnone.
    pose proof (ok_single _ _ Hok) as Hsingle.
    destruct (delete_lease_ok _ _ call Hok) as [H1 H2 H3 H4 H5 H6 H7 H8 H9 H10 H11].
    split; simpl in *; try done.
    + intros cell. destruct (decide (cell = lease_cell lease)) as [->|Hne].
      * intros _. by apply (H5 _ Hin).
      * rewrite lookup_insert_ne by done. apply H6.
    + intros c l Hc Hpc. destruct (decide (lease_cell l = lease_cell lease)) as [He|Hne].
      * exfalso. apply lookup_delete_Some in Hc as [Hcc Hc].
        apply Hcc. by eapply Hsingle.
      * rewrite lookup_insert_ne by done. by eapply H9.
    + intros e key pages' He [[Hec [= <- <-]]|[_ Hc]]%lookup_insert_Some; [|by eapply H10].
      by rewrite (cells_determine (entries s) e (lease_key lease, lease_cell lease)).
    + intros id doc [[<- <-]|[_ Hid]]%lookup_insert_Some; simpl.
      * exists pages. by rewrite lookup_insert_eq.
      * destruct (H11 _ _ Hid) as [pages' Hc]. exists pages'.
        rewrite lookup_insert_ne; [done|]. intros He. by rewrite <- He, Hnone in Hc.
Qed.

(** A failed call may take its own entry away: no other call leases the cell. *)
Lemma forget_ok cap s call lease :
  cache_ok cap s → leases s !! call = Some lease →
  cache_ok cap (with_leases
    (with_entries s
       (if strong_count (lease_cell lease) s =? 2
        then base.filter (λ entry, entry ≠ (lease_key lease, lease_cell lease)) (entries s)
        else entries s)) (delete call (leases s))).
Proof.
  intros Hok Hl. pose proof (delete_lease_ok _ _ call Hok) as Hdel.
  destruct (Nat.eqb_spec (strong_count (lease_cell lease) s) 2) as [Hc|]; [|done].
  change (cache_ok cap (with_entries (with_leases s (delete call (leases s)))
    (base.filter (λ entry, entry ≠ (lease_key lease, lease_cell lease)) (entries s)))).
  apply entries_ok; [done|apply sublist_submseteq, sublist_filter|].
  simpl. intros c l [Hne Hcl]%lookup_delete_Some.
  pose proof (ok_leased _ _ Hok _ _ Hcl) as Hin. apply list_elem_of_filter. split; [|done].
  intros [= _ He]. apply Hne. pose proof (ok_leased _ _ Hok _ _ Hl) as Hin0.
  pose proof (filter_cells_in (lease_cell lease) _ _ Hin0 eq_refl) as H1. unfold strong_count in Hc.
  eapply (lease_count_one (lease_cell lease) s); [lia|exact Hl|exact Hcl|done|done].
Qed.

Lemma step_ok cap s event s' : cache_ok cap s → step event s = Some s' → cache_ok cap s'.
Proof.
  intros Hok. destruct event as [call key|call|call document pages|call|call|call document|call|document];
    simpl; try (destruct (leases s !! call) as [lease|] eqn:Hl; [|done]).
  - by apply acquire_ok.
  - destruct (_ && _) eqn:Hc; [|done]. intros [= <-].
    rewrite !andb_true_iff, !bool_decide_eq_true, negb_true_iff in Hc. destruct Hc as [[_ Hn] Hb].
    by apply set_phase_ok.
  - destruct (bool_decide _) eqn:Hp; [|done]. apply bool_decide_eq_true in Hp. intros Hg.
    eapply give_ok; [done|exact Hl| |exact Hg]. by right.
  - destruct (bool_decide _); [|done]. intros [= <-]. by apply set_phase_ok.
  - destruct (bool_decide _); [|done]. intros [= <-]. by apply forget_ok.
  - destruct (_ && _) eqn:Hc; [|done]. rewrite andb_true_iff, !bool_decide_eq_true in Hc.
    intros Hg. eapply (give_ok _ _ _ _ _ _ _ []); [done|exact Hl|left; split; [done|apply Hc]|exact Hg].
  - intros [= <-]. by apply delete_lease_ok.
  - intros [= <-]. destruct Hok as [H1 H2 H3 H4 H5 H6 H7 H8 H9 H10 H11]. split; simpl; try done.
    intros id doc [_ Hid]%lookup_delete_Some. by eapply H11.
Qed.

Lemma reachable_cache_ok cap s : reachable_cache cap s → cache_ok cap s.
Proof. induction 1 as [|s event s' _ IH Hs]; [apply new_ok|by eapply step_ok]. Qed.

(** A cache that nobody uses has room. *)
Lemma idle_cache cap s call key :
  cache_ok cap s → 0 < cap → leases s = ∅ → documents s = ∅ → is_Some (acquire call key s).
Proof.
  intros Hok Hcap Hl Hd. unfold acquire. rewrite Hl, lookup_empty.
  destruct (list_find _ (entries s)) as [[index entry]|]; [by eexists|].
  destruct (capacity s <=? length (entries s)) eqn:Hfull; [|by eexists].
  destruct (entries s) as [|entry rest] eqn:He.
  { apply Nat.leb_le in Hfull. rewrite (ok_capacity _ _ Hok) in Hfull. simpl in Hfull. lia. }
  assert (Hidle : is_idle s entry = true).
  { unfold is_idle, strong_count, lease_count, document_count. rewrite Hl, Hd, He.
    assert (∀ A (P : nat * A → Prop) `{∀ x, Decision (P x)},
      size (base.filter P (∅ : gmap nat A)) = 0) as Hz
      by (intros; apply map_size_empty_iff, map_filter_empty).
    rewrite !Hz, orb_true_r, Nat.add_0_r, andb_true_r. apply Nat.eqb_eq.
    pose proof (ok_cells _ _ Hok) as Hcells. rewrite He in Hcells.
    rewrite filter_cons_True by done. simpl. f_equal. apply length_zero_iff_nil.
    destruct (base.filter (λ e, e.2 = entry.2) rest) as [|e l] eqn:Hf; [done|exfalso].
    assert (Hin : e ∈ base.filter (λ e, e.2 = entry.2) rest) by (rewrite Hf; set_solver).
    apply list_elem_of_filter in Hin as [He2 Hin]. apply NoDup_cons in Hcells as [Hnot _].
    apply Hnot. rewrite <- He2. by apply list_elem_of_fmap_2. }
  simpl. rewrite decide_True by done. by eexists.
Qed.

(** C30: the document cache is bounded, single-flight and keeps documents apart, in every
    interleaving of its calls.  It never has more entries than its capacity, nor two for
    one document; two calls never extract the same document at a time; the pages that a
    call returned were extracted by a call for the very same product, tenant and job; and
    a cache that nobody uses gives room to any call. *)
Theorem document_cache_sound cap s :
  reachable_cache cap s →
  length (entries s) ≤ cap ∧ NoDup (entries s).*1
  ∧ (∀ call call' lease lease', leases s !! call = Some lease → leases s !! call' = Some lease' →
       lease_phase lease = Extracting → lease_phase lease' = Extracting →
       lease_key lease = lease_key lease' → call = call')
  ∧ (∀ id document, documents s !! id = Some document →
       ∃ pages, contents s !! cached_cell document = Some (cached_key document, pages))
  ∧ (0 < cap → leases s = ∅ → documents s = ∅ → ∀ call key, is_Some (acquire call key s)).
Proof.
  intros Hok%reachable_cache_ok. split_and!.
  - apply Hok.
  - apply Hok.
  - intros call call' lease lease' Hl Hl' Hp Hp' Hk. eapply (ok_single _ _ Hok); try done.
    pose proof (keys_determine _ _ _ (ok_keys _ _ Hok) (ok_leased _ _ Hok _ _ Hl)
      (ok_leased _ _ Hok _ _ Hl') Hk) as He. by injection He.
  - apply Hok.
  - intros Hcap Hl Hd call key. by eapply idle_cache.
Qed.

(** ** A sample run: a second call for a document waits for the first *)

Definition sample_key : CacheKey := (mkProductId "prod", mkTenantId "ten_a", mkJobId "job_1").

Fixpoint run_events (events : list Event) (s : NativeDocumentCache) : option NativeDocumentCache :=
  match events with
  | [] => Some s
  | event :: rest =>
      match step event s with
      | Some s' => run_events rest s'
      | None => None
      end
  end.

Lemma run_events_reachable cap events s s' :
  reachable_cache cap s → run_events events s = Some s' → reachable_cache cap s'.
Proof.
  revert s. induction events as [|event events IH]; intros s Hr; simpl; [by intros [= <-]|].
  destruct (step event s) as [s1|] eqn:Hs; [|done]. apply IH. by eapply reach_step.
Qed.

Definition sample_events : list Event :=
  [Acquire 0 sample_key; Acquire 1 sample_key; Extract 0; Succeed 0 0 []; Reuse 1 1].

Theorem document_cache_sound_witness :
  ∃ s, run_events sample_events (NativeDocumentCache_new 1) = Some s
    ∧ run_events [Acquire 0 sample_key; Acquire 1 sample_key; Extract 0; Extract 1]
        (NativeDocumentCache_new 1) = None
    ∧ length (entries s) ≤ 1.
Proof.
  destruct (run_events sample_events (NativeDocumentCache_new 1)) as [s|] eqn:Hs;
    [|vm_compute in Hs; discriminate Hs].
  exists s. split; [reflexivity|]. split; [vm_compute; reflexivity|].
  exact (proj1 (document_cache_sound 1 s
    (run_events_reachable 1 sample_events _ s (reach_new 1) Hs))).
Defined.

(** A failed call that comes late takes away the entry of a document that another call
    has meanwhile extracted and still uses: the next call extracts it again, and the
    cache holds more documents than it has entries. *)
Lemma late_failure_forgets_document :
  match run_events [Acquire 0 sample_key; Acquire 1 sample_key; Extract 0; Fail 0; Extract 1;
                    Succeed 1 0 []; Forget 0] (NativeDocumentCache_new 1) with
  | Some s => bool_decide (entries s = [] ∧ is_Some (documents s !! 0)) = true
  | None => False
  end.
Proof. vm_compute. reflexivity. Qed.
