(* ===== verification/ArtifactsFacts.v ===== *)
(** * ArtifactsFacts: an artifact that was written is read back

    The writers only report objects that hold what they wrote, under locators that the
    store of jobs accepts; over a store whose object versions never change
    ([ImmutableVersions]) the readers return exactly those bytes. *)

From S2P Require Import Prelude Text DomainTypes Identifiers Digest Geometry PageWorkflow.
From S2P Require Import Document StoreTypes StoreChecks PageRunner ParserProcess.
From S2P Require Import ParserProcessFacts.
From S2P Require Import Storage Promotion StorageFacts PromotionFacts Artifacts.

#[local] Open Scope list_scope.
#[local] Open Scope Z_scope.

#[local] Arguments sha256_digest : simpl never.
#[local] Arguments String.eqb : simpl never.
#[local] Arguments valid_object_version : simpl never.
#[local] Arguments page_object : simpl never.
#[local] Arguments result_object : simpl never.

(** A version of an object never changes: what it holds when it is served, it holds in
    every [later] state.  This is what Google Cloud calls a generation, and Amazon and
    Azure a version. *)
Class ImmutableVersions {G : Type} (store : ObjectStore G) (later : G → G → Prop) :=
  version_stable name v g found g1 v' g2 found' g3 served bytes bytes' :
    get_opts store name v g = (Ok found, g1) → meta_version found = Some served →
    stream_bytes (stream found) = Ok bytes → later g1 g2 →
    get_opts store name v' g2 = (Ok found', g3) → meta_version found' = Some served →
    stream_bytes (stream found') = Ok bytes' → bytes' = bytes.

(** SHA-256 yields thirty-two bytes. *)
Definition digests (sha256 : list Z → list Z) : Prop :=
  ∀ bytes, length (sha256 bytes) = 32%nat ∧ Forall (λ b, 0 ≤ b < 256) (sha256 bytes).

Lemma canonical_valid_digest value : is_canonical_sha256 value = true → valid_digest value = true.
Proof.
  unfold is_canonical_sha256, valid_digest. destruct (Text.strip_prefix "sha256:" value); [|done].
  simpl. rewrite !andb_true_iff. intros [Hl Hb]. split; [done|]. eapply all_bytes_impl; [|done].
  intros c. unfold lower_hexdigit, is_ascii_hexdigit, is_ascii_uppercase.
  rewrite andb_true_iff, negb_true_iff, !orb_true_iff, !contains_true, contains_false.
  intros [[[Hd|Hd]|Hd] Hu]; [by left|by right|lia].
Qed.

Lemma sha256_digest_valid sha256 bytes :
  digests sha256 → valid_digest (sha256_digest (sha256 bytes)) = true.
Proof.
  intros [Hl Hb]%(λ H, H bytes). by apply canonical_valid_digest, sha256_digest_canonical.
Qed.

(** ** Names *)

Lemma JobId_length (j : JobId) : id_valid j → strlen (JobId_str j) ≤ 68.
Proof.
  unfold id_valid. simpl. unfold JobId_new. rewrite and_then_Ok. intros (s & Hs & [= <-]).
  apply validated_id_length in Hs. change (strlen "job_") with 4 in Hs. simpl in *. lia.
Qed.

Lemma show_dec_20 n : strlen (show_dec n) ≤ 21.
Proof.
  pose proof (show_go_length 20 n "") as H. unfold show_dec, strlen in *. simpl in *. lia.
Qed.

Lemma page_object_length p t j task :
  id_valid p → id_valid t → id_valid j →
  is_empty (page_object p t j task) = false ∧ strlen (page_object p t j task) ≤ 1024.
Proof.
  intros Hp%ProductId_length Ht%TenantId_length Hj%JobId_length. split; [done|].
  pose proof (show_dec_20 (task_page task)). pose proof (show_dec_20 (task_attempt task)).
  unfold page_object. rewrite !strlen_append. unfold strlen at 1 3 5 7 9 11. simpl.
  unfold strlen in *. simpl. lia.
Qed.

Lemma result_object_length p t j digest :
  id_valid p → id_valid t → id_valid j → strlen digest ≤ 64 →
  let name := result_object (ProductId_str p) (TenantId_str t) (JobId_str j) digest in
  is_empty name = false ∧ strlen name ≤ 1024.
Proof.
  intros Hp%ProductId_length Ht%TenantId_length Hj%JobId_length Hd. split; [done|].
  unfold result_object. rewrite !strlen_append.
  unfold strlen in *. simpl. lia.
Qed.

(** ** Configuration *)

Section Configuration.
Context {G : Type} (build : Location → option (ObjectStore G)).

(** The buckets of a configuration are locations, and no two products share one. *)
Record routes_ok (routes : gmap string (WriteRoute G)) : Prop := {
  route_buckets_ok product route : routes !! product = Some route →
    is_bucket_name (write_bucket route) = true;
  route_buckets_apart product product' route route' :
    routes !! product = Some route → routes !! product' = Some route' →
    write_bucket route = write_bucket route' → product = product';
}.

(** When a product is listed twice, which a map excludes, the later entry wins. *)
Lemma configure_writers_ok {E : Type} (e1 e2 e3 : E) routes (buckets : gset string) entries out :
  (∀ product route, routes !! product = Some route →
     is_bucket_name (write_bucket route) = true ∧ write_bucket route ∈ buckets) →
  routes_ok routes →
  configure_writers e1 e2 e3 build routes buckets entries = Ok out → routes_ok out.
Proof.
  revert routes buckets. induction entries as [|[product bucket] rest IH]; simpl;
    intros routes buckets Hin Hok; [by intros [= <-]|].
  rewrite and_then_Ok. intros (_ & _ & H). destruct (_ || _) eqn:Hbad; [done|].
  apply orb_false_iff in Hbad as [Hname%negb_false_iff Hnew%bool_decide_eq_false].
  apply and_then_Ok in H as (store & _ & H). revert H. apply IH.
  - intros k r [[<- <-]|[_ Hk]]%lookup_insert_Some; simpl; [set_solver|].
    destruct (Hin _ _ Hk). split; [done|set_solver].
  - split.
    + intros k r [[<- <-]|[_ Hk]]%lookup_insert_Some; [done|by eapply route_buckets_ok].
    + intros k k' r r' [[<- <-]|[Hn Hk]]%lookup_insert_Some [[<- <-]|[Hn' Hk']]%lookup_insert_Some;
        simpl; intros He; [done| | |by eapply route_buckets_apart].
      * destruct (Hin _ _ Hk'). by subst.
      * destruct (Hin _ _ Hk). by subst.
Qed.

Lemma no_routes_ok : routes_ok ∅.
Proof. split; intros *; rewrite ?lookup_empty; done. Qed.

Lemma GcsPageArtifactWriter_new_ok entries routes :
  GcsPageArtifactWriter_new build entries = Ok routes → routes_ok routes.
Proof.
  unfold GcsPageArtifactWriter_new. destruct (_ =? 0); [done|].
  apply configure_writers_ok; [|apply no_routes_ok]. intros *. by rewrite lookup_empty.
Qed.

Lemma GcsResultWriter_new_ok entries routes :
  GcsResultWriter_new build entries = Ok routes → routes_ok routes.
Proof.
  unfold GcsResultWriter_new. destruct (_ =? 0); [done|].
  apply configure_writers_ok; [|apply no_routes_ok]. intros *. by rewrite lookup_empty.
Qed.

Lemma route_bucket_length routes product route :
  routes_ok routes → routes !! product = Some route → 3 ≤ strlen (write_bucket route) ≤ 222.
Proof. intros Hok Hr. by eapply location_length, route_buckets_ok. Qed.
End Configuration.

(** ** Writing and reading *)

Section Artifacts.
Context (sha256 : list Z → list Z) (path_valid : string → bool).
Context {G : Type}.

Lemma put_and_read_back_Ok {E : Type} (invalid conflict unavailable : E) (store : ObjectStore G)
    name bytes digest g generation g' :
  put_and_read_back sha256 invalid conflict unavailable store name bytes digest g
    = (Ok generation, g') →
  valid_object_version generation = true
  ∧ ∃ g1 found, get_opts store name None g1 = (Ok found, g')
      ∧ meta_version found = Some generation ∧ stream_bytes (stream found) = Ok bytes.
Proof.
  unfold put_and_read_back. intros H.
  assert (Hback : ∃ g1, match get_opts store name None g1 with
    | (Err _, g) => (Err unavailable, g)
    | (Ok stored, g) =>
        (let? generation :=
           ok_or (match meta_version stored with
                  | Some value => if valid_object_version value then Some value else None
                  | None => None
                  end) unavailable in
         let? size := ok_or (checked u64_max (zlen bytes)) invalid in
         if negb (meta_size stored =? size) then Err conflict
         else
           let? persisted := map_err (stream_bytes (stream stored)) (λ _, unavailable) in
           if negb (bool_decide (persisted = bytes))
              || negb (String.eqb (sha256_digest (sha256 persisted)) digest)
           then Err conflict else Ok generation, g)
    end = (Ok generation, g')).
  { destruct (put_create store name bytes g) as [[[]|[]] g1]; by eauto. }
  clear H. destruct Hback as (g1 & H).
  destruct (get_opts store name None g1) as [[found|] g2] eqn:Hget; [|done].
  injection H as H <-. apply and_then_Ok in H as (v & Hv%ok_or_Ok & H).
  destruct (meta_version found) as [value|] eqn:Hmeta; [|done].
  destruct (valid_object_version value) eqn:Hvalid; [|done]. injection Hv as ->.
  apply and_then_Ok in H as (size & _ & H). destruct (negb (_ =? _)); [done|].
  apply and_then_Ok in H as (persisted & Hp%map_err_Ok & H).
  destruct (_ || _) eqn:Hbad; [done|].
  rewrite orb_false_iff, negb_false_iff, bool_decide_eq_true in Hbad.
  destruct Hbad as [-> _]. injection H as ->. split; [done|]. by exists g1, found.
Qed.

(** The page writer reports the task's artifact, at the page's address. *)
Lemma write_page_artifact_Ok page_to_vec (routes : gmap string (WriteRoute G)) p t j task written
    g a g' :
  write_page_artifact sha256 path_valid page_to_vec routes p t j task written g = (Ok a, g') →
  ∃ route bytes, routes !! ProductId_str p = Some route ∧ page_to_vec written = Some bytes
    ∧ PageNumber_value (page written) = task_page task
    ∧ task_activity_key task = activity_key_of j (task_page task) (task_attempt task)
    ∧ 1 ≤ zlen bytes ≤ MAXIMUM_RESULT_BYTES
    ∧ path_valid (page_object p t j task) = true
    ∧ valid_object_version (artifact_object_version a) = true
    ∧ a = {| artifact_page := task_page task; artifact_attempt := task_attempt task;
             artifact_activity_key := task_activity_key task;
             artifact_object_bucket := write_bucket route;
             artifact_object_name := page_object p t j task;
             artifact_object_version := artifact_object_version a;
             artifact_object_digest := sha256_digest (sha256 bytes);
             artifact_content_length := zlen bytes |}
    ∧ ∃ g1 found, get_opts (write_store route) (page_object p t j task) None g1 = (Ok found, g')
        ∧ meta_version found = Some (artifact_object_version a)
        ∧ stream_bytes (stream found) = Ok bytes.
Proof.
  unfold write_page_artifact. destruct (_ || _) eqn:Htask; [done|].
  rewrite orb_false_iff, !negb_false_iff, Z.eqb_eq, String.eqb_eq in Htask.
  destruct Htask as [Hpage Hkey].
  destruct (routes !! _) as [route|]; [|done]. destruct (page_to_vec written) as [bytes|]; [|done].
  destruct (_ || _) eqn:Hlen; [done|].
  apply orb_false_iff in Hlen as [Hl1%Z.eqb_neq Hl2%Z.ltb_ge]. pose proof (zlen_nonneg bytes).
  destruct (path_valid _) eqn:Hpath; simpl; [|done].
  destruct (put_and_read_back _ _ _ _ _ _ _ _ _) as [stored g1] eqn:Hput. intros [= Ha <-].
  apply and_then_Ok in Ha as (generation & -> & Ha).
  apply and_then_Ok in Ha as (n & Hn%ok_or_Ok%checked_Some & [= <-]). destruct Hn as [-> _].
  apply put_and_read_back_Ok in Hput as (Hv & Hread). simpl. exists route, bytes.
  split_and!; try done; lia.
Qed.

(** The page reader returns what the store serves under the artifact's version, if it
    has the length and the digest of the artifact. *)
Lemma read_page_artifact_Ok (buckets : gmap string (ObjectStore G)) a maximum g bytes g' :
  1 ≤ maximum ≤ MAXIMUM_RESULT_BYTES → artifact_content_length a ≤ maximum →
  read_page_artifact sha256 path_valid buckets a maximum g = (Ok bytes, g') ↔
  ∃ store found, buckets !! artifact_object_bucket a = Some store
    ∧ fetched path_valid store (artifact_object_name a) (Some (artifact_object_version a)) g
        found bytes g'
    ∧ meta_version found = Some (artifact_object_version a)
    ∧ zlen bytes = artifact_content_length a
    ∧ sha256_digest (sha256 bytes) = artifact_object_digest a.
Proof.
  intros Hmax Hlen. unfold read_page_artifact, fetched. pose proof (zlen_nonneg bytes) as Hpos.
  assert (MAXIMUM_RESULT_BYTES < u64_max) as Hm by done.
  destruct (Z.eqb_spec maximum 0); simpl; [lia|].
  destruct (Z.ltb_spec MAXIMUM_RESULT_BYTES maximum); [lia|].
  destruct (buckets !! _) as [store|]; [|naive_solver].
  destruct (path_valid _) eqn:Hpath; simpl; [|naive_solver].
  destruct (get_opts _ _ _ _) as [[found|e] g1] eqn:Hget;
    [|split; [by destruct e|intros (s & f & [= <-] & (_ & H' & _) & _); congruence]].
  split.
  - intros [= Hr <-]. apply and_then_Ok in Hr as (k & Hk%ok_or_Ok%checked_Some & Hr).
    destruct Hk as [-> _]. destruct (_ || _) eqn:Hbad; [done|].
    rewrite !orb_false_iff, !negb_false_iff, bool_decide_eq_true, Z.eqb_eq in Hbad.
    destruct Hbad as [[Hv Hsize] _]. apply and_then_Ok in Hr as (out & Hs%map_err_Ok & Hr).
    destruct (_ || _) eqn:Hbad; [done|].
    rewrite !orb_false_iff, !negb_false_iff, Z.eqb_eq, String.eqb_eq in Hbad.
    injection Hr as ->. exists store, found. split_and!; try done; [|apply Hbad..]. lia.
  - intros (s & f & [= <-] & (_ & Hf & Hsize & Hs) & Hv & Hl & Hd).
    rewrite Hget in Hf. injection Hf as <- <-.
    rewrite checked_in_width by (unfold in_width; lia). simpl.
    rewrite Hv, bool_decide_eq_true_2, Hsize, Hl, Z.eqb_refl by done. simpl.
    destruct (Z.ltb_spec maximum (artifact_content_length a)); [lia|].
    rewrite Hs. simpl. by rewrite Hl, Hd, Z.eqb_refl, String.eqb_refl.
Qed.

Section Results.
Context {Value : Type} (result_to_vec : DocumentResult Value → option (list Z)).

(** The result writer reports the document's artifact, at the document's address. *)
Lemma write_result_Ok (routes : gmap string (WriteRoute G)) p t j document g l g' :
  write_result sha256 path_valid result_to_vec routes p t j document g = (Ok l, g') →
  ∃ route bytes digest, routes !! ProductId_str p = Some route ∧ result_to_vec document = Some bytes
    ∧ DocumentVersion_str (document_version document) = "sha256:" +:+ digest
    ∧ 1 ≤ zlen bytes ≤ MAXIMUM_RESULT_BYTES
    ∧ path_valid (loc_object_name l) = true
    ∧ valid_object_version (loc_object_version l) = true
    ∧ l = {| loc_document_id := document_id document;
             loc_document_version := document_version document;
             loc_object_bucket := write_bucket route;
             loc_object_name := result_object (ProductId_str p) (TenantId_str t) (JobId_str j) digest;
             loc_object_version := loc_object_version l;
             loc_object_digest := sha256_digest (sha256 bytes);
             loc_content_length := zlen bytes |}
    ∧ ∃ g1 found, get_opts (write_store route) (loc_object_name l) None g1 = (Ok found, g')
        ∧ meta_version found = Some (loc_object_version l)
        ∧ stream_bytes (stream found) = Ok bytes.
Proof.
  unfold write_result. destruct (routes !! _) as [route|]; [|done].
  destruct (prepare_result_artifact _ _ _ _ _ _) as [prepared|] eqn:Hprep; [|done].
  unfold prepare_result_artifact in Hprep.
  apply and_then_Ok in Hprep as (_ & _ & Hprep). apply and_then_Ok in Hprep as (_ & _ & Hprep).
  apply and_then_Ok in Hprep as (_ & _ & Hprep).
  apply and_then_Ok in Hprep as (bytes & Hb%ok_or_Ok & Hprep).
  destruct (_ || _) eqn:Hlen; [done|].
  apply orb_false_iff in Hlen as [Hl1%Z.eqb_neq Hl2%Z.ltb_ge]. pose proof (zlen_nonneg bytes).
  apply and_then_Ok in Hprep as (digest & Hd%ok_or_Ok%strip_prefix_Some & [= <-]). simpl.
  destruct (path_valid _) eqn:Hpath; simpl; [|done].
  destruct (put_and_read_back _ _ _ _ _ _ _ _ _) as [stored g1] eqn:Hput. intros [= Ha <-].
  apply and_then_Ok in Ha as (generation & -> & Ha).
  apply and_then_Ok in Ha as (n & Hn%ok_or_Ok%checked_Some & [= <-]). destruct Hn as [-> _].
  apply put_and_read_back_Ok in Hput as (Hv & Hread). simpl. exists route, bytes, digest.
  split_and!; try done; lia.
Qed.
End Results.

Lemma read_result_Ok (stores : gmap string (ObjectStore G)) l maximum g bytes g' :
  0 ≤ loc_content_length l ≤ maximum → maximum ≤ MAXIMUM_RESULT_BYTES →
  read_result path_valid stores l maximum g = (Ok bytes, g') ↔
  ∃ store found, stores !! loc_object_bucket l = Some store
    ∧ path_valid (loc_object_name l) = true
    ∧ get_opts store (loc_object_name l) (Some (loc_object_version l)) g = (Ok found, g')
    ∧ meta_version found = Some (loc_object_version l) ∧ meta_size found = loc_content_length l
    ∧ stream_bytes (stream found) = Ok bytes ∧ zlen bytes ≤ maximum.
Proof.
  intros Hlen Hmax. unfold read_result.
  assert (MAXIMUM_RESULT_BYTES < u64_max) as Hm by done.
  destruct (stores !! _) as [store|]; [|naive_solver].
  destruct (path_valid _) eqn:Hpath; simpl; [|naive_solver].
  destruct (get_opts _ _ _ _) as [[found|e] g1] eqn:Hget;
    [|split; [done|intros (s & f & [= <-] & _ & H' & _); congruence]].
  rewrite checked_in_width by (unfold in_width; lia). simpl.
  split.
  - intros [= Hr <-]. destruct (_ || _) eqn:Hbad; [done|].
    rewrite !orb_false_iff, !negb_false_iff, bool_decide_eq_true, Z.eqb_eq in Hbad.
    destruct Hbad as [[Hv Hsize] _]. apply and_then_Ok in Hr as (out & Hs%map_err_Ok & Hr).
    destruct (Z.ltb_spec maximum (zlen out)); [done|]. injection Hr as ->.
    by exists store, found.
  - intros (s & f & [= <-] & _ & Hf & Hv & Hsize & Hs & Hb). rewrite Hget in Hf.
    injection Hf as <- <-. rewrite Hv, bool_decide_eq_true_2, Hsize, Z.eqb_refl by done. simpl.
    destruct (Z.ltb_spec maximum (loc_content_length l)); [lia|]. rewrite Hs. simpl.
    by destruct (Z.ltb_spec maximum (zlen bytes)); [lia|].
Qed.

(** The store of jobs accepts what the writers report. *)
Lemma page_artifact_valid page_to_vec (routes : gmap string (WriteRoute G)) p t j task written
    g a g' :
  digests sha256 → routes_ok routes → id_valid p → id_valid t → id_valid j →
  1 ≤ task_page task ≤ MAXIMUM_PAGE_COUNT → 1 ≤ task_attempt task ≤ 10 →
  write_page_artifact sha256 path_valid page_to_vec routes p t j task written g = (Ok a, g') →
  validate_page_artifact a = Ok () ∧ artifact_task a = task.
Proof.
  intros Hsha Hok Hp Ht Hj Hpg Hat
    (route & bytes & Hr & _ & _ & Hkey & Hlen & _ & Hv & -> & _)%write_page_artifact_Ok.
  pose proof (page_object_length p t j task Hp Ht Hj) as [Hn1 Hn2].
  pose proof (route_bucket_length _ _ _ Hok Hr) as Hb.
  pose proof (sha256_digest_valid _ bytes Hsha) as Hd.
  pose proof (JobId_length j Hj). pose proof (show_dec_20 (task_page task)).
  pose proof (show_dec_20 (task_attempt task)).
  split.
  - unfold validate_page_artifact. simpl in *. rewrite Hd, Hv. simpl.
    assert (is_empty (task_activity_key task) = false
      ∧ (160 <? strlen (task_activity_key task)) = false) as [-> ->].
    { rewrite Hkey. split; [done|]. apply Z.ltb_ge. unfold activity_key_of.
      rewrite !strlen_append. unfold strlen in *. simpl. lia. }
    assert (contains 1 MAXIMUM_PAGE_COUNT (task_page task) = true) as -> by by apply contains_true.
    assert (contains 1 10 (task_attempt task) = true) as -> by by apply contains_true.
    assert (contains 1 MAXIMUM_DOCUMENT_RESULT_BYTES (zlen bytes) = true) as ->
      by by apply contains_true.
    rewrite !(proj2 (Z.ltb_ge _ _)) by lia. done.
  - unfold artifact_task. simpl. by destruct task.
Qed.

Lemma result_locator_valid {Value : Type} (result_to_vec : DocumentResult Value → option (list Z))
    (routes : gmap string (WriteRoute G)) p t j document g l g' :
  digests sha256 → routes_ok routes → id_valid p → id_valid t → id_valid j →
  id_valid (document_version document) →
  write_result sha256 path_valid result_to_vec routes p t j document g = (Ok l, g') →
  validate_locator l = Ok ().
Proof.
  intros Hsha Hok Hp Ht Hj Hver
    (route & bytes & digest & Hr & _ & Hd & Hlen & _ & Hv & -> & _)%write_result_Ok.
  assert (Hd64 : strlen digest ≤ 64).
  { revert Hver. unfold id_valid. simpl. unfold DocumentVersion_new. rewrite Hd.
    destruct (is_canonical_sha256 _) eqn:Hc; [intros _|done]. revert Hc.
    unfold is_canonical_sha256. rewrite strip_prefix_append. simpl.
    rewrite andb_true_iff, Z.eqb_eq. lia. }
  pose proof (result_object_length p t j digest Hp Ht Hj Hd64) as [Hn1 Hn2].
  pose proof (route_bucket_length _ _ _ Hok Hr) as Hb.
  pose proof (sha256_digest_valid _ bytes Hsha) as Hdv.
  assert (is_empty (write_bucket route) = false) as Hne by (apply is_empty_false; lia).
  unfold validate_locator. simpl in *. rewrite Hdv, Hv, Hne. simpl.
  rewrite !(proj2 (Z.ltb_ge _ _)) by lia.
  by destruct (Z.leb_spec (zlen bytes) 0); [lia|].
Qed.
End Artifacts.

(** A page artifact that was written is read back.  What the writer reports is an
    artifact of its task that the store of jobs accepts, and in every later state of an
    object store with immutable versions the reader returns exactly the bytes that were
    written, whenever the store serves that version whole. *)
Theorem page_artifact_roundtrip {G : Type} sha256 path_valid page_to_vec
    (build : Location → option (ObjectStore G)) entries routes route later p t j task written g a g1 :
  digests sha256 → GcsPageArtifactWriter_new build entries = Ok routes →
  routes !! ProductId_str p = Some route → ImmutableVersions (write_store route) later →
  id_valid p → id_valid t → id_valid j →
  1 ≤ task_page task ≤ MAXIMUM_PAGE_COUNT → 1 ≤ task_attempt task ≤ 10 →
  write_page_artifact sha256 path_valid page_to_vec routes p t j task written g = (Ok a, g1) →
  validate_page_artifact a = Ok () ∧ artifact_task a = task
  ∧ ∃ encoded, page_to_vec written = Some encoded
      ∧ ∀ buckets maximum g2 bytes g3,
          buckets !! artifact_object_bucket a = Some (write_store route) → later g1 g2 →
          zlen encoded ≤ maximum ≤ MAXIMUM_RESULT_BYTES →
          read_page_artifact sha256 path_valid buckets a maximum g2 = (Ok bytes, g3) ↔
          bytes = encoded
          ∧ ∃ found, fetched path_valid (write_store route) (artifact_object_name a)
                       (Some (artifact_object_version a)) g2 found encoded g3
              ∧ meta_version found = Some (artifact_object_version a).
Proof.
  intros Hsha Hnew Hroute Himm Hp Ht Hj Hpg Hat Hw.
  pose proof (GcsPageArtifactWriter_new_ok _ _ _ Hnew) as Hok.
  destruct (page_artifact_valid _ _ _ _ _ _ _ _ _ _ _ _ Hsha Hok Hp Ht Hj Hpg Hat Hw) as [Hva Hta].
  apply write_page_artifact_Ok in Hw as (route' & encoded & Hr & He & _ & _ & Hlen & Hpath & Hv & Ha
    & g0 & found0 & Hget & Hm0 & Hs0).
  assert (route' = route) as -> by congruence. split_and!; [done..|]. exists encoded.
  split; [done|]. intros buckets maximum g2 bytes g3 Hb Hlater Hmax.
  assert (Hal : artifact_content_length a = zlen encoded) by by rewrite Ha.
  assert (Han : artifact_object_name a = page_object p t j task) by by rewrite Ha.
  assert (Had : artifact_object_digest a = sha256_digest (sha256 encoded)) by by rewrite Ha.
  rewrite read_page_artifact_Ok; [|lia|rewrite Hal; apply Hmax]. rewrite Hb, Hal, Han, Had. split.
  - intros (store & found & [= <-] & Hf & Hm & _). assert (bytes = encoded) as ->; [|by eauto].
    destruct Hf as (_ & Hf & _ & Hs). exact (Himm _ _ _ _ _ _ _ _ _ _ _ _ Hget Hm0 Hs0 Hlater Hf Hm Hs).
  - intros (-> & found & Hf & Hm). exists (write_store route), found. by split_and!.
Qed.

(** ** A sample store: a map of objects, each in its only version *)

Notation sample_objects := (gmap string (list Z)).

Definition sample_object_store (found : Location) : option (ObjectStore sample_objects) :=
  Some {| provider := found;
          get_opts := λ name _ g,
            (match g !! name with
             | Some bytes => Ok (mkGetResult (Some "1") (zlen bytes) [Ok bytes])
             | None => Err ObjectError.NotFound
             end, g);
          put_create := λ name bytes g,
            match g !! name with
            | Some _ => (Err ObjectError.AlreadyExists, g)
            | None => (Ok (), <[name := bytes]> g)
            end |}.

#[export] Instance sample_object_store_immutable found store :
  sample_object_store found = Some store → ImmutableVersions store map_subseteq.
Proof.
  intros [= <-] name v g f g1 v' g2 f' g3 served bytes bytes'. simpl. intros [= Hf <-].
  destruct (g !! name) as [b|] eqn:Hb; [|done]. injection Hf as <-. simpl. intros _ [= <-] Hsub.
  eapply lookup_weaken in Hb; [|done]. rewrite Hb. intros [= <- <-] _. simpl. intros [= <-].
  by rewrite !app_nil_r.
Qed.

Definition sample_writer_entries : list (string * string) := [("prod", "s3://artifacts-a")].
Definition sample_write_routes : gmap string (WriteRoute sample_objects) :=
  default ∅ (result_ok (GcsPageArtifactWriter_new sample_object_store sample_writer_entries)).
Definition sample_write_store : ObjectStore sample_objects :=
  default (mkObjectStore _ (Gcs "") (λ _ _ g, (Err ObjectError.NotFound, g)) (λ _ _ g, (Ok (), g)))
    (sample_object_store (S3 "artifacts-a")).
Definition sample_write_route : WriteRoute sample_objects :=
  mkWriteRoute "s3://artifacts-a" sample_write_store.
Definition sample_job_id : JobId := mkJobId "job_1".
Definition sample_page_task : PageTask := claimed_task sample_job_id 1 1.
Definition sample_written_page : DocumentPage := mkDocumentPage (mkPageNumber 1) 10 20 [].
Definition sample_page_artifact : StoredPageArtifact :=
  {| artifact_page := 1; artifact_attempt := 1;
     artifact_activity_key := activity_key_of sample_job_id 1 1;
     artifact_object_bucket := "s3://artifacts-a";
     artifact_object_name := page_object sample_product_id sample_tenant_id sample_job_id sample_page_task;
     artifact_object_version := "1"; artifact_object_digest := sha256_digest (repeat 0 32);
     artifact_content_length := 2 |}.

#[export] Instance sample_write_store_immutable : ImmutableVersions sample_write_store map_subseteq :=
  sample_object_store_immutable _ _ eq_refl.

Theorem page_artifact_roundtrip_witness :
  ∃ g1, write_page_artifact sample_sha256 (λ _, true) (λ _, Some [7; 8]) sample_write_routes
          sample_product_id sample_tenant_id sample_job_id sample_page_task sample_written_page ∅
        = (Ok sample_page_artifact, g1)
    ∧ (read_page_artifact sample_sha256 (λ _, true) {["s3://artifacts-a" := sample_write_store]}
         sample_page_artifact 100 g1).1 = Ok [7; 8]
    ∧ validate_page_artifact sample_page_artifact = Ok ().
Proof.
  set (run := write_page_artifact sample_sha256 (λ _, true) (λ _, Some [7; 8]) sample_write_routes
    sample_product_id sample_tenant_id sample_job_id sample_page_task sample_written_page ∅).
  exists run.2.
  assert (Hrun : run = (Ok sample_page_artifact, run.2)) by (vm_compute; reflexivity).
  split; [exact Hrun|]. split; [vm_compute; reflexivity|].
  assert (Hsha : digests sample_sha256).
  { intros bytes. split; [reflexivity|]. change (Forall (λ b, 0 ≤ b < 256) (repeat 0 32)). repeat (constructor; [lia|]). constructor. }
  assert (Hnew : GcsPageArtifactWriter_new sample_object_store sample_writer_entries
                 = Ok sample_write_routes) by (vm_compute; reflexivity).
  assert (Hroute : sample_write_routes !! "prod" = Some sample_write_route)
    by (vm_compute; reflexivity).
  assert (Hp : id_valid sample_product_id) by (vm_compute; reflexivity).
  assert (Ht : id_valid sample_tenant_id) by (vm_compute; reflexivity).
  assert (Hj : id_valid sample_job_id) by (vm_compute; reflexivity).
  assert (Hpg : 1 ≤ task_page sample_page_task ≤ MAXIMUM_PAGE_COUNT) by (split; done).
  assert (Hat : 1 ≤ task_attempt sample_page_task ≤ 10) by (split; done).
  exact (proj1 (page_artifact_roundtrip sample_sha256 (λ _, true) (λ _, Some [7; 8])
    sample_object_store sample_writer_entries sample_write_routes sample_write_route map_subseteq
    sample_product_id sample_tenant_id sample_job_id sample_page_task sample_written_page ∅
    sample_page_artifact run.2 Hsha Hnew Hroute sample_write_store_immutable Hp Ht Hj Hpg Hat Hrun)).
Defined.
