(* ===== verification/AssemblyFacts.v ===== *)
(** * AssemblyFacts: what an assembled result says

    The loops of the assembly against a reference: the text of a document is that of
    the leaves of its pages, joined, and every leaf is cited; the failures and warnings
    are lists of conditions.  A result without failures is one that needs no review. *)

From S2P Require Import Prelude Text Float64 DomainTypes Identifiers Geometry Document.
From S2P Require Import DocumentFacts ParserProcessFacts Artifacts Assembly.

#[local] Open Scope list_scope.
#[local] Open Scope Z_scope.

#[local] Arguments String.eqb : simpl never.
#[local] Arguments String.append : simpl never.

(** ** Joined texts *)

(** Each text after a separator. *)
Definition joined (sep : string) (texts : list string) : string :=
  foldr (λ text rest, sep +:+ text +:+ rest) "" texts.

Lemma concat_cons sep text texts :
  String.concat sep (text :: texts) = text +:+ joined sep texts.
Proof.
  revert text. induction texts as [|u texts IH]; intros text; simpl; [by rewrite append_nil_r|].
  change (text +:+ sep +:+ String.concat sep (u :: texts) = text +:+ sep +:+ u +:+ joined sep texts).
  by rewrite IH.
Qed.

Lemma joined_app sep texts texts' : joined sep (texts ++ texts') = joined sep texts +:+ joined sep texts'.
Proof. induction texts as [|text texts IH]; simpl; [done|]. by rewrite IH, !append_assoc. Qed.

Lemma append_bounded_spec output value :
  append_bounded output value =
    if MAXIMUM_RESULT_BYTES <? strlen (output +:+ value)
    then Err ResultAssemblyError.TooLarge else Ok (output +:+ value).
Proof.
  unfold append_bounded, checked_add, checked. rewrite strlen_append.
  pose proof (strlen_nonneg output). pose proof (strlen_nonneg value).
  assert (MAXIMUM_RESULT_BYTES < usize_max) by done.
  destruct (Z.leb_spec 0 (strlen output + strlen value)); [|lia]. simpl.
  destruct (Z.leb_spec (strlen output + strlen value) usize_max); simpl; [done|].
  destruct (Z.ltb_spec MAXIMUM_RESULT_BYTES (strlen output + strlen value)); [done|lia].
Qed.

(** ** The reference *)

Definition newline : string := String "010" "".
Definition blank_line : string := newline +:+ newline.

Definition page_text (p : DocumentPage) : string :=
  String.concat newline (observation_text <$> leaves p).

(** The pages with leaves. *)
Definition pages_with_text (pages : list DocumentPage) : list DocumentPage :=
  List.filter (λ p, negb (zlen (leaves p) =? 0)) pages.

Definition document_text (pages : list DocumentPage) : string :=
  String.concat blank_line (page_text <$> pages_with_text pages).

Definition document_citations (pages : list DocumentPage) : list Evidence :=
  flat_map (λ p, cite p <$> leaves p) pages.

Definition any_low_confidence (pages : list DocumentPage) : bool :=
  existsb (λ p, existsb is_low_confidence (leaves p)) pages.

(** Every observation has a text, as its constructor ensures. *)
Definition readable (p : DocumentPage) : Prop :=
  Forall (λ o, observation_text o ≠ "") (observations p).

(** [text] if it is short enough. *)
Definition bounded {A : Type} (text : string) (a : A) : AssemblyResult A :=
  if MAXIMUM_RESULT_BYTES <? strlen text then Err ResultAssemblyError.TooLarge else Ok a.

Lemma bounded_Ok {A : Type} (text : string) (a : A) :
  strlen text ≤ MAXIMUM_RESULT_BYTES → bounded text a = Ok a.
Proof. intros H. unfold bounded. by rewrite (proj2 (Z.ltb_ge _ _)). Qed.

(** A text that grows is refused at once or later: the last length decides. *)
Lemma append_then {A : Type} output value more final (k : string → AssemblyResult A) (a : A) :
  final = (output +:+ value) +:+ more →
  (strlen (output +:+ value) ≤ MAXIMUM_RESULT_BYTES → k (output +:+ value) = bounded final a) →
  (let? text := append_bounded output value in k text) = bounded final a.
Proof.
  intros -> Hk. rewrite append_bounded_spec.
  destruct (Z.ltb_spec MAXIMUM_RESULT_BYTES (strlen (output +:+ value))) as [Hlt|Hge]; simpl;
    [|by apply Hk].
  unfold bounded. rewrite (strlen_append (output +:+ value)). pose proof (strlen_nonneg more).
  destruct (Z.ltb_spec MAXIMUM_RESULT_BYTES (strlen (output +:+ value) + strlen more)); [done|lia].
Qed.

Lemma assemble_leaves_spec p index ls acc :
  0 ≤ index → strlen (assembled_text acc) ≤ MAXIMUM_RESULT_BYTES →
  let text :=
    assembled_text acc +:+
    match ls with
    | [] => ""
    | o :: rest =>
        (if 0 <? index then newline else "")
          +:+ observation_text o +:+ joined newline (observation_text <$> rest)
    end in
  assemble_leaves p index ls acc =
    bounded text
      (mkAssembled text (assembled_citations acc ++ (cite p <$> ls))
         (low_confidence acc || existsb is_low_confidence ls)).
Proof.
  revert index acc. induction ls as [|o ls IH]; intros index [text cit low] Hi Hacc; simpl in *.
  - rewrite append_nil_r, app_nil_r, orb_false_r. by rewrite bounded_Ok.
  - set (more := joined newline (observation_text <$> ls)).
    assert (Hrest : ∀ before, before +:+ observation_text o +:+ more =
      (before +:+ observation_text o) +:+ more) by (intros; by rewrite append_assoc).
    assert (Hstep : ∀ before, strlen before ≤ MAXIMUM_RESULT_BYTES →
      (let? text' := append_bounded before (observation_text o) in
       assemble_leaves p (index + 1) ls
         (mkAssembled text' (cit ++ [cite p o]) (low || is_low_confidence o))) =
      bounded (before +:+ observation_text o +:+ more)
        (mkAssembled (before +:+ observation_text o +:+ more)
           (cit ++ cite p o :: (cite p <$> ls)) (low || (is_low_confidence o || existsb is_low_confidence ls)))).
    { intros before Hb. eapply append_then; [apply Hrest|]. intros Hlen.
      rewrite IH by (simpl; lia || done). simpl.
      assert (match ls with
        | [] => ""
        | o' :: rest => (if 0 <? index + 1 then newline else "") +:+ observation_text o' +:+
            joined newline (observation_text <$> rest)
        end = more) as ->.
      { subst more. destruct ls as [|o' rest]; simpl; [done|].
        by destruct (Z.ltb_spec 0 (index + 1)); [|lia]. }
      by rewrite <- Hrest, <- app_assoc, orb_assoc. }
    destruct (0 <? index); simpl.
    + eapply append_then; [symmetry; apply append_assoc|]. intros Hlen.
      fold newline in *. rewrite Hstep by done. by rewrite (append_assoc text).
    + by apply Hstep.
Qed.

(** What the pages add to a text. *)
Definition pages_text (text : string) (pages : list DocumentPage) : string :=
  fold_left (λ text p, if zlen (leaves p) =? 0 then text
                       else (if is_empty text then "" else text +:+ blank_line) +:+ page_text p)
    pages text.

Lemma pages_text_grows text pages : strlen text ≤ strlen (pages_text text pages).
Proof.
  revert text. induction pages as [|p pages IH]; intros text; [done|]. unfold pages_text in *. simpl.
  etransitivity; [|apply IH]. destruct (_ =? 0); [done|]. rewrite strlen_append.
  pose proof (strlen_nonneg (page_text p)). pose proof (strlen_nonneg blank_line).
  destruct (is_empty text) eqn:He; [|rewrite strlen_append; lia].
  apply is_empty_true in He as ->. unfold strlen at 1 2. simpl. lia.
Qed.

Lemma assemble_pages_spec pages acc :
  strlen (assembled_text acc) ≤ MAXIMUM_RESULT_BYTES →
  let text := pages_text (assembled_text acc) pages in
  assemble_pages pages acc =
    bounded text
      (mkAssembled text (assembled_citations acc ++ document_citations pages)
         (low_confidence acc || any_low_confidence pages)).
Proof.
  revert acc. induction pages as [|p pages IH]; intros [text cit low] Hacc; simpl in *.
  - rewrite app_nil_r, orb_false_r. by rewrite bounded_Ok.
  - unfold pages_text, document_citations, any_low_confidence in *. simpl.
    destruct (leaves p) as [|o ls] eqn:Hl; [by rewrite IH|].
    assert ((zlen (o :: ls) =? 0) = false) as ->.
    { apply Z.eqb_neq. rewrite zlen_cons. pose proof (zlen_nonneg ls). lia. }
    set (before := if is_empty text then "" else text +:+ blank_line).
    assert (Hpage : page_text p = observation_text o +:+ joined newline (observation_text <$> ls)).
    { unfold page_text. rewrite Hl. apply concat_cons. }
    set (final := fold_left _ pages (before +:+ page_text p)).
    assert (Hgrow : strlen (before +:+ page_text p) ≤ strlen final) by apply pages_text_grows.
    assert (Hstep : strlen before ≤ MAXIMUM_RESULT_BYTES →
      (let? acc := assemble_leaves p 0 (o :: ls) (mkAssembled before cit low) in
       assemble_pages pages acc) =
      bounded final
        (mkAssembled final (cit ++ (cite p <$> o :: ls) ++ flat_map (λ p, cite p <$> leaves p) pages)
           (low || (existsb is_low_confidence (o :: ls)
                    || existsb (λ p, existsb is_low_confidence (leaves p)) pages)))).
    { intros Hb. rewrite assemble_leaves_spec by done.
      cbn [assembled_text assembled_citations low_confidence Z.ltb Z.compare].
      change ("" +:+ observation_text o +:+ joined newline (observation_text <$> ls))
        with (observation_text o +:+ joined newline (observation_text <$> ls)).
      rewrite <- Hpage. unfold bounded at 1.
      destruct (Z.ltb_spec MAXIMUM_RESULT_BYTES (strlen (before +:+ page_text p))).
      - simpl. unfold bounded. by rewrite (proj2 (Z.ltb_lt _ _)) by lia.
      - cbn [and_then]. rewrite IH by done. simpl. by rewrite <- app_assoc, !orb_assoc. }
    subst before. destruct (is_empty text) eqn:He; simpl.
    + apply is_empty_true in He as ->. by apply Hstep.
    + change (String "010" (String "010" "")) with blank_line.
      rewrite (append_bounded_spec text blank_line).
      destruct (Z.ltb_spec MAXIMUM_RESULT_BYTES (strlen (text +:+ blank_line))) as [Hlt|Hge];
        [|by apply Hstep].
      simpl. unfold bounded. rewrite (strlen_append _ (page_text p)) in Hgrow.
      pose proof (strlen_nonneg (page_text p)). by rewrite (proj2 (Z.ltb_lt _ _)) by lia.
Qed.

(** Over readable pages the text is the joined one. *)
Lemma pages_text_joined pages :
  Forall readable pages → pages_text "" pages = document_text pages.
Proof.
  assert (Hne : ∀ p, readable p → (zlen (leaves p) =? 0) = false → page_text p ≠ "").
  { intros p Hp Hl He. unfold page_text in He. destruct (leaves p) as [|o ls] eqn:Hls; [done|].
    change (observation_text <$> o :: ls) with (observation_text o :: (observation_text <$> ls)) in He.
    rewrite concat_cons in He.
    assert (Ho : o ∈ observations p).
    { assert (o ∈ leaves p) as H by (rewrite Hls; set_solver).
      unfold leaves in H. by apply list_elem_of_filter in H as [_ H]. }
    unfold readable in Hp. rewrite Forall_forall in Hp. apply (Hp _ Ho).
    by destruct (observation_text o). }
  assert (Hafter : ∀ pages text, Forall readable pages → text ≠ "" →
    pages_text text pages = text +:+ joined blank_line (page_text <$> pages_with_text pages)).
  { clear pages. intros pages. induction pages as [|p pages IH]; intros text Hall Ht;
      unfold pages_text, pages_with_text in *; simpl.
    - by rewrite append_nil_r.
    - apply Forall_cons_1 in Hall as [Hp Hps]. destruct (zlen (leaves p) =? 0) eqn:Hl; simpl.
      + by apply IH.
      + destruct (is_empty text) eqn:He; [by apply is_empty_true in He|].
        rewrite IH; [by rewrite !append_assoc|done|]. by destruct text. }
  unfold document_text. induction pages as [|p pages IH]; intros Hall; [done|].
  apply Forall_cons_1 in Hall as [Hp Hps]. unfold pages_text, pages_with_text in *. simpl.
  destruct (zlen (leaves p) =? 0) eqn:Hl; simpl; [by apply IH|].
  change ("" +:+ page_text p) with (page_text p).
  rewrite Hafter; [|done|by apply Hne].
  symmetry. apply concat_cons.
Qed.

(** ** Failures and warnings *)

Definition push_if {A : Type} (condition : bool) (a : A) : list A := if condition then [a] else [].

Definition failure (code : string) (severity : ValidationSeverity.ValidationSeverity)
    : ValidationFailure := mkValidationFailure (mkStableCode code) severity.

Definition has_failure (code : string) (failures : list ValidationFailure) : bool :=
  existsb (λ f, bool_decide (failure_code f = mkStableCode code)) failures.

Definition is_legacy (provenance : option ProcessingProvenance) : bool :=
  is_some_and (λ profile, String.eqb (provider profile) "legacy-mixed") provenance.

Definition has_empty_page (pages : list DocumentPage) : bool :=
  existsb (λ p, zlen (observations p) =? 0) pages.

(** The failures before the test of the text. *)
Definition page_failures (pages : list DocumentPage) (provenance : option ProcessingProvenance)
    (extracted : list ValidationFailure) : list ValidationFailure :=
  extracted
  ++ push_if (is_legacy provenance)
       (failure "legacy_processing_requires_review" ValidationSeverity.Warning)
  ++ push_if (has_empty_page pages)
       (failure "ocr_page_requires_manual_review" ValidationSeverity.Warning)
  ++ push_if (any_low_confidence pages) (failure "ocr_low_confidence" ValidationSeverity.Warning).

Definition document_failures (pages : list DocumentPage)
    (provenance : option ProcessingProvenance) (extracted : list ValidationFailure)
    : list ValidationFailure :=
  page_failures pages provenance extracted
  ++ push_if (trim_is_empty (document_text pages))
       (failure "ocr_no_text_detected" ValidationSeverity.Error).

Definition document_warnings (pages : list DocumentPage)
    (provenance : option ProcessingProvenance) (extracted : list ValidationFailure)
    : list StableCode :=
  let failures := page_failures pages provenance extracted in
  push_if (is_legacy provenance) (mkStableCode "manual_review_required")
  ++ push_if (has_empty_page pages) (mkStableCode "manual_review_required")
  ++ (if trim_is_empty (document_text pages)
      then [mkStableCode "retake_include_readable_document"]
      else if any_low_confidence pages || has_failure "nutrition_row_incomplete" failures
      then [mkStableCode "retake_sharper_image"]
      else push_if (has_failure "nutrition_panel_not_found" failures)
             (mkStableCode "retake_include_column_headers")).

(** The codes of the program are valid. *)
Lemma code_valid code : is_ok (StableCode_new code) = true →
  domain (StableCode_new code) = Ok (mkStableCode code).
Proof. unfold StableCode_new. by destruct (_ && _). Qed.

Lemma push_failure_spec code severity failures : is_ok (StableCode_new code) = true →
  push_failure code severity failures = Ok (failures ++ [failure code severity]).
Proof. intros H. unfold push_failure. by rewrite code_valid. Qed.

Lemma push_warning_spec code warnings : is_ok (StableCode_new code) = true →
  push_warning code warnings = Ok (warnings ++ [mkStableCode code]).
Proof. intros H. unfold push_warning. by rewrite code_valid. Qed.

Lemma review_spec pages provenance citations extracted :
  review pages provenance
    (mkAssembled (document_text pages) citations (any_low_confidence pages)) extracted
  = Ok (document_failures pages provenance extracted, document_warnings pages provenance extracted).
Proof.
  unfold review, document_failures, document_warnings, page_failures, has_failure.
  cbn [assembled_text low_confidence].
  fold (is_legacy provenance). fold (has_empty_page pages).
  generalize (is_legacy provenance) as legacy, (has_empty_page pages) as empty,
    (any_low_confidence pages) as low, (trim_is_empty (document_text pages)) as blank.
  intros legacy empty low blank.
  rewrite !push_failure_spec, !push_warning_spec by reflexivity.
  rewrite !(code_valid "nutrition_row_incomplete"), !(code_valid "nutrition_panel_not_found")
    by reflexivity.
  destruct legacy, empty, low, blank;
    repeat (cbn -[existsb app]; rewrite ?push_failure_spec, ?push_warning_spec by reflexivity);
    rewrite ?app_nil_r, <- ?app_assoc, ?app_nil_l; try done.
  all: repeat (match goal with |- context [existsb ?f ?l] => destruct (existsb f l) end;
    cbn -[existsb app]; rewrite ?push_warning_spec by reflexivity;
    rewrite ?app_nil_r, <- ?app_assoc, ?app_nil_l); done.
Qed.

Section Reference.
Context {Value : Type}.
Context (extract : ExtractionSchema → list DocumentPage → ExtractedFields Value).
Context (result_to_vec : DocumentResult Value → option (list Z)).

Definition extraction_of (schema : option ExtractionSchema) (pages : list DocumentPage)
    : ExtractedFields Value :=
  match schema with
  | Some schema => extract schema pages
  | None => ExtractedFields_default
  end.

(** The payload of a document with these pages, in their order. *)
Definition reference_payload (pages : list DocumentPage) (schema : option ExtractionSchema)
    (provenance : option ProcessingProvenance) : DocumentResultPayload Value :=
  let extraction := extraction_of schema pages in
  let failures := extracted_failures extraction in
  result_payload (document_text pages) pages (document_citations pages)
    (extracted_fields extraction) (document_warnings pages provenance failures)
    (document_failures pages provenance failures) provenance.

Definition reference_result (id : DocumentId) (version : DocumentVersion)
    (pages : list DocumentPage) (schema : option ExtractionSchema)
    (provenance : option ProcessingProvenance) : AssemblyResult (DocumentResult Value) :=
  let pages := sort_by_key page_order pages in
  if MAXIMUM_RESULT_BYTES <? strlen (document_text pages) then Err ResultAssemblyError.TooLarge
  else
    let? document :=
      map_err (DocumentResult_new id version (reference_payload pages schema provenance))
        ResultAssemblyError.Domain in
    match result_to_vec document with
    | None => Err ResultAssemblyError.Serialization
    | Some encoded =>
        if MAXIMUM_RESULT_BYTES <? zlen encoded then Err ResultAssemblyError.TooLarge
        else Ok document
    end.

Lemma readable_sorted pages : Forall readable pages → Forall readable (sort_by_key page_order pages).
Proof. apply Forall_sort_by. Qed.

Lemma assemble_reference id version pages schema provenance :
  Forall readable pages →
  assemble_with_provenance extract result_to_vec id version pages schema provenance
  = reference_result id version pages schema provenance.
Proof.
  intros Hr%readable_sorted. unfold assemble_with_provenance, reference_result.
  set (sorted := sort_by_key page_order pages) in *.
  rewrite assemble_pages_spec by done. cbn [assembled_text assembled_citations low_confidence].
  rewrite pages_text_joined by done. unfold bounded.
  destruct (MAXIMUM_RESULT_BYTES <? strlen (document_text sorted)); [done|].
  cbn [and_then]. change ([] ++ document_citations sorted) with (document_citations sorted).
  change (false || any_low_confidence sorted) with (any_low_confidence sorted).
  fold (extraction_of schema sorted). rewrite review_spec. cbn [and_then assembled_text assembled_citations].
  unfold domain. fold (reference_payload sorted schema provenance).
  destruct (DocumentResult_new _ _ _) as [document|e]; [|done]. cbn [map_err and_then].
  by destruct (result_to_vec document).
Qed.

(** A text has citations. *)
Lemma document_text_cited pages : document_text pages ≠ "" → document_citations pages ≠ [].
Proof.
  unfold document_text, document_citations, pages_with_text.
  induction pages as [|p pages IH]; [done|]. simpl.
  destruct (leaves p) as [|o ls]; [simpl; apply IH|]. by simpl.
Qed.

Lemma reference_cited id version pages schema provenance :
  DocumentResult_new id version (reference_payload pages schema provenance)
    ≠ Err MissingDocumentEvidence.
Proof.
  unfold DocumentResult_new, reference_payload, result_payload.
  cbn [payload_text payload_markdown payload_citations].
  destruct (_ && _) eqn:Hmissing.
  - exfalso. apply andb_true_iff in Hmissing as [Ht Hc%Z.eqb_eq]. simpl in Ht.
    rewrite orb_false_r, negb_true_iff in Ht. apply is_empty_false in Ht.
    apply (document_text_cited pages); [intros He; rewrite He in Ht; done|].
    apply length_zero_iff_nil. unfold zlen in Hc. lia.
  - by repeat case_match.
Qed.

(** A result without failures has a text on every page and nothing uncertain. *)
Record clean (r : DocumentResult Value) : Prop := {
  clean_text : trim_is_empty (result_text r) = false;
  clean_pages : Forall (λ p, observations p ≠ []) (result_pages r);
  clean_confidence :
    Forall (λ p, Forall (λ o, is_low_confidence o = false) (leaves p)) (result_pages r);
  clean_provider : result_provider r ≠ Some "legacy-mixed";
}.

Lemma push_if_nil {A : Type} (condition : bool) (a : A) : push_if condition a = [] ↔ condition = false.
Proof. by destruct condition. Qed.

Lemma reference_clean id version pages schema provenance r :
  reference_result id version pages schema provenance = Ok r →
  result_validation_failures r = [] → clean r.
Proof.
  unfold reference_result. set (sorted := sort_by_key page_order pages).
  destruct (_ <? _); [done|]. intros (document & Hd%map_err_Ok & Hr)%and_then_Ok Hf.
  assert (document = r) as ->.
  { revert Hr. destruct (result_to_vec document); [|done]. destruct (_ <? _); [done|].
    by intros [= ->]. }
  clear Hr. unfold DocumentResult_new in Hd.
  assert (Hsort : sort_by_key page_order sorted = sorted) by (apply sort_by_idemp; intros *; apply le_key_total || apply le_key_trans).
  revert Hd. repeat case_match; intros Hd; try done. injection Hd as <-. simpl in *.
  unfold document_failures, page_failures in Hf. rewrite !app_nil, !push_if_nil in Hf.
  destruct Hf as ((_ & Hlegacy & Hempty & Hlow) & Hblank).
  split; simpl; rewrite ?Hsort.
  - done.
  - apply Forall_forall. intros p Hp Hnil. apply not_true_iff_false in Hempty. apply Hempty.
    apply existsb_exists. exists p. rewrite Hnil. split; [by apply list_elem_of_In|done].
  - apply Forall_forall. intros p Hp. apply Forall_forall. intros o Ho.
    apply not_true_iff_false. intros Hl. apply not_true_iff_false in Hlow. apply Hlow.
    apply existsb_exists. exists p. split; [by apply list_elem_of_In|].
    apply existsb_exists. exists o. split; [by apply list_elem_of_In|done].
  - destruct provenance as [profile|]; [|done]. simpl in *. intros [= He].
    rewrite He in Hlegacy. done.
Qed.

(** The order in which the pages arrive does not matter. *)
Lemma reference_order id version pages pages' schema provenance :
  pages ≡ₚ pages' → NoDup (page_order <$> pages) →
  reference_result id version pages schema provenance
  = reference_result id version pages' schema provenance.
Proof.
  intros Hp Hd. unfold reference_result. by rewrite (sort_by_key_unique page_order _ _ Hp Hd).
Qed.
End Reference.

(** C29: the assembly of a document is the reference one.  The text is that of the leaves
    of its pages in page and reading order, the pages with text separated by a blank
    line and the leaves of a page by a line end; every leaf is cited, in that order; the
    failures and warnings are those of the document's conditions, listed; and the
    document is refused as too large exactly when the whole text or the encoded result
    is.  A text is never without evidence, and the order in which distinct pages arrive
    does not matter. *)
Theorem assembly_is_reference {Value : Type} extract (result_to_vec : DocumentResult Value → _)
    id version pages schema provenance :
  Forall readable pages →
  let assemble pages :=
    assemble_with_provenance extract result_to_vec id version pages schema provenance in
  assemble pages = reference_result extract result_to_vec id version pages schema provenance
  ∧ assemble pages ≠ Err (ResultAssemblyError.Domain MissingDocumentEvidence)
  ∧ ∀ pages', pages' ≡ₚ pages → NoDup (page_order <$> pages) → assemble pages' = assemble pages.
Proof.
  intros Hr assemble. subst assemble. cbv beta. split_and!.
  - by apply assemble_reference.
  - rewrite assemble_reference by done. unfold reference_result. destruct (_ <? _); [done|].
    pose proof (reference_cited extract id version (sort_by_key page_order pages) schema provenance)
      as Hc.
    destruct (DocumentResult_new _ _ _) as [document|e]; simpl; [|congruence].
    destruct (result_to_vec document); [|done]. by destruct (_ <? _).
  - intros pages' Hp Hd. rewrite !assemble_reference; [|done|by rewrite Hp].
    symmetry. by apply reference_order.
Qed.

(** ** A sample document *)

Definition sample_leaf (id text : string) (order : Z) : TextObservation :=
  {| observation_id := mkObservationId id; level := Line; observation_text := text;
     observation_confidence := mkConfidence (f64_dec 9 1); observation_polygon := mkPolygon [];
     reading_order := order; parent_observation_id := None |}.

Definition sample_text_page (number : Z) (texts : list (string * string)) : DocumentPage :=
  mkDocumentPage (mkPageNumber number) 10 20
    (imap (λ i '(id, text), sample_leaf id text (Z.of_nat i)) texts).

Definition sample_text_pages : list DocumentPage :=
  [sample_text_page 2 [("obs_c", "three")]; sample_text_page 1 [("obs_a", "one"); ("obs_b", "two")]].

Definition sample_assembled : AssemblyResult (DocumentResult unit) :=
  assemble_with_provenance (λ _ _, ExtractedFields_default) (λ _, Some [0]) (mkDocumentId "doc_1")
    (mkDocumentVersion "sha256:0") sample_text_pages None None.

Theorem assembly_is_reference_witness :
  match sample_assembled with Ok r => Some (result_text r) | Err _ => None end
    = Some ("one" +:+ newline +:+ "two" +:+ blank_line +:+ "three")
  ∧ sample_assembled ≠ Err (ResultAssemblyError.Domain MissingDocumentEvidence).
Proof.
  split; [vm_compute; reflexivity|].
  assert (Hr : Forall readable sample_text_pages).
  { repeat (constructor; [repeat (constructor; [done|]); constructor|]). constructor. }
  exact (proj1 (proj2 (assembly_is_reference (λ _ _, ExtractedFields_default) (λ _, Some [0])
    (mkDocumentId "doc_1") (mkDocumentVersion "sha256:0") sample_text_pages None None Hr))).
Defined.
