(* ===== verification/FinalizerFacts.v ===== *)
(** * FinalizerFacts: what a published result stands for

    A result is published once, for a settled workflow, from the artifacts of all its
    successful pages, and stays; a job is completed only by a clean document.  What was
    published is what is served.

    The publisher with the deployed writer, and [get_result] with the deployed reader,
    over an object store whose versions never change. *)

From S2P Require Import Prelude Text DomainTypes Identifiers Digest PageWorkflow Geometry.
From S2P Require Import Document DocumentFacts StoreTypes StoreChecks StoreDb StoreJobs.
From S2P Require Import StorePages StoreRun StoreJobsFacts StorePagesFacts PageRunner Storage.
From S2P Require Import Promotion ParserProcessFacts StorageFacts PromotionFacts Artifacts.
From S2P Require Import Assembly NativePages Recognition Finalizer ArtifactsFacts AssemblyFacts.

#[local] Open Scope list_scope.
#[local] Open Scope Z_scope.

#[local] Arguments sha256_digest : simpl never.
#[local] Arguments String.eqb : simpl never.

(** ** A committed result is there for good *)

Section Committed.
Context {ss js : RawPageWorkflow → Z}.

Lemma committed_result_kept now t p j c db job db1 db2 :
  reachable ss js db → op_valid (OpCommitResult now t p j c) →
  commit_result now t p j c db = Ok (CommitResultOutcome.Committed job, db1) →
  effect_of_ops ss js db1 db2 →
  find_result t p j db2 = Ok (ResultLookup.Ready (locator c))
  ∧ find t p j db2 = Ok (Some job) ∧ sj_state job = terminal_state c.
Proof.
  intros Hreach Hval Hc (ops & Hops & ->).
  assert (Hok : jobs_ok db1).
  { apply (reachable_jobs_ok ss js). rewrite <- (db_after_Ok _ _ _ _ Hc).
    change (db_after _ db) with (apply_op ss js (OpCommitResult now t p j c) db).
    by apply (effect_reachable _ _ Hreach), effect_op. }
  apply commit_state in Hc as (row & res & Hj & Hst & Hjs & Hs & Hdel & Hres & Hrt & Hrp & Hdec);
    [|apply Hval..].
  destruct (delivered_later ss js db1 ops t p j row (terminal_state c) Hok Hops Hj Hs)
    as [Hj2 Hres2]; [by destruct (terminal_state c)|]. rewrite Hres in Hres2.
  assert (Hsel : select_result t p j (run_ops ss js ops db1) = Some res).
  { unfold select_result. rewrite Hres2. by rewrite (proj2 (in_scope_spec _ _ _ _)). }
  unfold find_result, find. rewrite Hj2, Hs, parse_job_state_text. cbn [and_then].
  rewrite Hsel, Hdel, Hdec, Hst. by split_and!.
Qed.
End Committed.

(** ** Publishing and reading *)

Section Finalization.
Context {G Value : Type} {ss js : RawPageWorkflow → Z}.
Context (write : ProductId → TenantId → JobId → DocumentResult Value → G →
  result ResultArtifactWriteError.ResultArtifactWriteError StoredResultLocator * G).
Context (read : StoredPageArtifact → Z → G →
  result PageArtifactReadError.PageArtifactReadError (list Z) * G).
Context (page_from_slice : list Z → option RawDocumentPage).
Context (extract : ExtractionSchema → list DocumentPage → ExtractedFields Value).
Context (result_to_vec : DocumentResult Value → option (list Z)).
Context (now : Z) (meanwhile : nat → Db * NativeDb → Db * NativeDb).
Context (arrange : list StoredPageArtifact → list StoredPageArtifact).

Lemma publish_Committed disturb t p j state document db g job db' g' :
  publish write now disturb t p j state document db g
    = (Ok (CommitResultOutcome.Committed job), db', g') →
  ∃ l, write p t j document g = (Ok l, g') ∧ loc_document_id l = document_id document
    ∧ loc_document_version l = document_version document
    ∧ commit_result now t p j (mkCommitResult state l) (disturb db)
      = Ok (CommitResultOutcome.Committed job, db').
Proof.
  unfold publish. destruct (write p t j document g) as [[l|] g1]; [|done].
  destruct (_ || _) eqn:Hids; [done|].
  rewrite orb_false_iff, !negb_false_iff, !bool_decide_eq_true in Hids.
  destruct (commit_result _ _ _ _ _ _) as [[outcome db1]|] eqn:Hc; [|done].
  intros [= -> <- <-]. exists l. by destruct Hids.
Qed.

(** The page that an artifact holds. *)
Definition holds (artifact : StoredPageArtifact) (p : DocumentPage) : Prop :=
  PageNumber_value (page p) = artifact_page artifact
  ∧ ∃ g bytes g', read artifact MAXIMUM_RESULT_BYTES g = (Ok bytes, g')
      ∧ decode_page page_from_slice bytes = Ok p.

Lemma read_pages_Ok artifacts g pages g' :
  read_pages read page_from_slice artifacts g = (Ok pages, g') → Forall2 holds artifacts pages.
Proof.
  revert g pages g'. induction artifacts as [|a artifacts IH]; intros g pages g'; simpl.
  - intros [= <- _]. constructor.
  - destruct (read a _ g) as [[bytes|e] g1] eqn:Hread; [|done].
    destruct (decode_page page_from_slice bytes) as [p|e] eqn:Hd; [|done].
    destruct (Z.eqb_spec (PageNumber_value (page p)) (artifact_page a)); simpl; [|done].
    destruct (read_pages _ _ artifacts g1) as [[ps|] g2] eqn:Hrest; [|done].
    intros [= <- _]. constructor; [|by eapply IH]. split; [done|]. by exists g, bytes, g1.
Qed.

(** [serde] checks the observations that a page is made of. *)
Definition checked_pages : Prop :=
  ∀ bytes raw, page_from_slice bytes = Some raw →
    Forall (λ o, observation_text o ≠ "") (raw_observations raw).

Lemma decoded_readable bytes p :
  checked_pages → decode_page page_from_slice bytes = Ok p → readable p.
Proof.
  intros Hchecked. unfold decode_page. rewrite and_then_Ok.
  intros (raw & Hraw%ok_or_Ok%Hchecked & Hp%map_err_Ok).
  unfold DocumentPage_try_from, DocumentPage_new in Hp. destruct (_ || _); [done|].
  destruct (scan_observations _ _ _); [|done]. injection Hp as <-.
  unfold readable. simpl. by apply Forall_sort_by.
Qed.

Lemma held_readable artifacts pages :
  checked_pages → Forall2 holds artifacts pages → Forall readable pages.
Proof.
  intros Hchecked. induction 1 as [|a p artifacts pages (_ & g & bytes & g' & _ & Hd)]; constructor;
    [|done]. by eapply decoded_readable.
Qed.

(** Every way of assembling is [assemble_with_provenance]. *)
Lemma assemble_Ok self t p j id version schema pages db native document :
  Forall readable pages →
  assemble extract result_to_vec self t p j id version schema pages db native = Ok document →
  ∃ provenance,
    reference_result extract result_to_vec id version pages schema provenance = Ok document.
Proof.
  intros Hr. unfold assemble, assemble_native_document_result, assemble_legacy_document_result,
    assemble_document_result.
  destruct (native_processing self).
  - rewrite and_then_Ok. intros ([duration|] & _ & H%map_err_Ok).
    + destruct (native_profile pages) as [[provider model] profile].
      apply and_then_Ok in H as (provenance & _ & H). rewrite assemble_reference in H by done. eauto.
    + apply and_then_Ok in H as (provenance & _ & H). rewrite assemble_reference in H by done. eauto.
  - intros H%map_err_Ok. rewrite assemble_reference in H by done. eauto.
Qed.

Lemma reference_identity id version pages schema provenance document :
  reference_result extract result_to_vec id version pages schema provenance = Ok document →
  document_id document = id ∧ document_version document = version
  ∧ result_pages document = sort_by_key page_order pages
  ∧ result_text document = document_text (sort_by_key page_order pages)
  ∧ result_citations document = document_citations (sort_by_key page_order pages).
Proof.
  unfold reference_result. set (sorted := sort_by_key page_order pages).
  destruct (_ <? _); [done|]. intros (d & Hd%map_err_Ok & Hr)%and_then_Ok.
  assert (d = document) as ->.
  { revert Hr. destruct (result_to_vec d); [|done]. destruct (_ <? _); [done|]. by intros [= ->]. }
  clear Hr. unfold DocumentResult_new in Hd. revert Hd. repeat case_match; intros Hd; try done.
  injection Hd as <-. simpl. split_and!; try done.
  apply sort_by_idemp; intros *; apply le_key_total || apply le_key_trans.
Qed.

(** ** Finalizing *)

#[local] Notation finalize_pages :=
  (finalize_pages js write read page_from_slice extract result_to_vec now meanwhile arrange).
#[local] Notation finalize :=
  (finalize js write read page_from_slice extract result_to_vec now meanwhile arrange).
#[local] Notation finalize_stored :=
  (finalize_stored js write read page_from_slice extract result_to_vec now meanwhile arrange).

(** The rest of the system works on the databases by the operations of the store. *)
Context (Hmeanwhile : ∀ k db native, effect_of_ops ss js db (meanwhile k (db, native)).1).

(** What stands behind a committed job: the workflow and the artifacts that were found,
    the pages they hold, the document assembled from them and where it was written. *)
Record finalization (t : TenantId) (p : ProductId) (j : JobId) (db : Db) (id : DocumentId)
    (version : DocumentVersion) (schema : option ExtractionSchema) (job : StoredJob) (db' : Db)
    (g' : G) : Type := {
  fin_workflow_db : Db;
  fin_artifacts_db : Db;
  fin_commit_db : Db;
  fin_stored : StoredPageWorkflow;
  fin_artifacts : list StoredPageArtifact;
  fin_pages : list DocumentPage;
  fin_provenance : option ProcessingProvenance;
  fin_document : DocumentResult Value;
  fin_locator : StoredResultLocator;
  fin_state : JobState;
  fin_before : effect_of_ops ss js db fin_workflow_db;
  fin_between : effect_of_ops ss js fin_workflow_db fin_artifacts_db;
  fin_after : effect_of_ops ss js fin_artifacts_db fin_commit_db;
  fin_workflow : load_page_workflow js t p j fin_workflow_db = Ok (Some fin_stored);
  fin_settled : settled_state (status (stored_workflow fin_stored)) = Ok fin_state;
  fin_loaded : load_page_artifacts t p j fin_artifacts_db = Ok fin_artifacts;
  fin_complete : zlen fin_artifacts = successful_page_count (stored_workflow fin_stored);
  fin_held : Forall2 holds (arrange fin_artifacts) fin_pages;
  fin_assembled : reference_result extract result_to_vec id version fin_pages schema fin_provenance
                  = Ok fin_document;
  fin_written : ∃ g, write p t j fin_document g = (Ok fin_locator, g');
  fin_identity : loc_document_id fin_locator = id ∧ loc_document_version fin_locator = version;
  fin_committed :
    commit_result now t p j
      (mkCommitResult (reviewed_state fin_state fin_document) fin_locator) fin_commit_db
    = Ok (CommitResultOutcome.Committed job, db');
}.

Arguments fin_stored {t p j db id version schema job db' g'}.
Arguments fin_document {t p j db id version schema job db' g'}.
Arguments fin_locator {t p j db id version schema job db' g'}.
Arguments fin_state {t p j db id version schema job db' g'}.

Lemma finalization_earlier t p j db0 db id version schema job db' g' :
  effect_of_ops ss js db0 db → finalization t p j db id version schema job db' g' →
  finalization t p j db0 id version schema job db' g'.
Proof.
  intros He [dbw dba dbc stored artifacts pages provenance document l state He1]. 
  apply (Build_finalization t p j db0 id version schema job db' g' dbw dba dbc stored artifacts
    pages provenance document l state); try done. by eapply effect_trans.
Qed.

Lemma finalize_pages_Committed self t p j id version schema db native g job db' native' g' :
  checked_pages →
  finalize_pages self t p j id version schema (db, native, g)
    = (Ok (CommitResultOutcome.Committed job), (db', native', g')) →
  inhabited (finalization t p j db id version schema job db' g').
Proof.
  intros Hchecked. unfold finalize_pages, Finalizer.finalize_pages.
  destruct (meanwhile 2 (db, native)) as [db1 native1] eqn:Hm2.
  destruct (load_page_workflow js t p j db1) as [[stored|]|] eqn:Hw; [|done|done].
  destruct (settled_state _) as [state|] eqn:Hstate; [|done].
  destruct (meanwhile 3 (db1, native1)) as [db2 native2] eqn:Hm3.
  destruct (load_page_artifacts t p j db2) as [artifacts|] eqn:Ha; [|done].
  destruct (plan_pages _ _) as [[]|] eqn:Hplan; [|done].
  destruct (read_pages _ _ _ g) as [[pages|] g1] eqn:Hread; [|done].
  destruct (meanwhile 4 (db2, native2)) as [db3 native3] eqn:Hm4.
  destruct (assemble _ _ _ _ _ _ _ _ _ _ _ _) as [document|] eqn:Hdoc; [|done].
  destruct (publish _ _ _ _ _ _ _ _ _ _) as [[outcome db4] g2] eqn:Hpub.
  destruct outcome as [outcome|]; [|done]. intros [= -> <- _ <-].
  apply read_pages_Ok in Hread. pose proof (held_readable _ _ Hchecked Hread) as Hr.
  destruct (assemble_Ok _ _ _ _ _ _ _ _ _ _ _ Hr Hdoc) as (provenance & Href).
  destruct (reference_identity _ _ _ _ _ _ Href) as (Hid & Hver & _).
  apply publish_Committed in Hpub as (l & Hl & Hlid & Hlver & Hcommit).
  pose proof (Hmeanwhile 2 db native) as He2. rewrite Hm2 in He2.
  pose proof (Hmeanwhile 3 db1 native1) as He3. rewrite Hm3 in He3.
  pose proof (Hmeanwhile 4 db2 native2) as He4. rewrite Hm4 in He4.
  pose proof (Hmeanwhile 5 db3 native3) as He5.
  constructor.
  apply (Build_finalization t p j db id version schema job db4 g2 db1 db2
    (meanwhile 5 (db3, native3)).1 stored artifacts pages provenance document l state); try done.
  - by eapply effect_trans.
  - unfold plan_pages in Hplan. destruct (Z.eqb_spec (zlen artifacts) (successful_page_count
      (stored_workflow stored))); [done|]. done.
  - by exists g1.
  - split; congruence.
Qed.

Lemma identity_valid t p j db identity :
  load_document_identity t p j db = Ok (Some identity) →
  id_valid (identity_document_id identity) ∧ id_valid (identity_document_version identity).
Proof.
  unfold load_document_identity. destruct (select_accepted t p j db) as [[job upload]|]; [|done].
  intros H. apply and_then_Ok in H as (suffix & _ & H).
  apply and_then_Ok in H as (id & Hid%map_err_Ok & H). apply and_then_Ok in H as (digest & _ & H).
  apply and_then_Ok in H as (version & Hver%map_err_Ok & H).
  apply and_then_Ok in H as (extraction & _ & [= <-]). simpl.
  split; eapply id_new_valid; [exact Hid|exact Hver].
Qed.

Lemma finalize_Committed self t p j id version schema db native g job db' native' g' :
  checked_pages →
  finalize self t p j id version schema (db, native, g)
    = (Ok (CommitResultOutcome.Committed job), (db', native', g')) →
  inhabited (finalization t p j db id version schema job db' g').
Proof.
  intros Hchecked. unfold finalize, Finalizer.finalize. destruct (native_processing self);
    [|by apply finalize_pages_Committed].
  destruct (find_result t p j db) as [[| | |]|]; try done; try by apply finalize_pages_Committed.
  destruct (meanwhile 1 (db, native)). by destruct (find t p j _) as [[|]|].
Qed.

Lemma finalize_stored_Committed self t p j db native g job db' native' g' :
  checked_pages →
  finalize_stored self t p j (db, native, g)
    = (Ok (CommitResultOutcome.Committed job), (db', native', g')) →
  ∃ identity schema, load_document_identity t p j db = Ok (Some identity)
    ∧ inhabited (finalization t p j db (identity_document_id identity)
                   (identity_document_version identity) schema job db' g').
Proof.
  intros Hchecked. unfold finalize_stored, Finalizer.finalize_stored.
  destruct (load_document_identity t p j db) as [[identity|]|]; [|done|done].
  destruct (match identity_extraction identity with None => _ | Some _ => _ end) as [schema|]; [|done].
  destruct (meanwhile 0 (db, native)) as [db0 native0] eqn:Hm0.
  intros [F]%finalize_Committed; [|done]. exists identity, schema. split; [done|].
  pose proof (Hmeanwhile 0 db native) as He. rewrite Hm0 in He.
  simpl in *. constructor. by eapply finalization_earlier.
Qed.

(** A repeated finalization finds the result. *)
Lemma finalize_again self t p j id version schema db native g l job :
  native_processing self = true →
  find_result t p j db = Ok (ResultLookup.Ready l) →
  (∀ db2, effect_of_ops ss js db db2 → find t p j db2 = Ok (Some job)) →
  (finalize self t p j id version schema (db, native, g)).1
    = Ok (CommitResultOutcome.Existing job).
Proof.
  intros Hnative Hfound Hfind. unfold finalize, Finalizer.finalize. rewrite Hnative, Hfound.
  pose proof (Hmeanwhile 1 db native) as He. destruct (meanwhile 1 (db, native)) as [db1 native1].
  simpl in *. by rewrite (Hfind _ He).
Qed.

Lemma finalization_facts t p j db id version schema job db' g'
    (F : finalization t p j db id version schema job db' g') :
  reachable ss js db → id_valid id → id_valid version →
  sj_state job = reviewed_state (fin_state F) (fin_document F)
  ∧ (∀ db2, effect_of_ops ss js db' db2 →
       find_result t p j db2 = Ok (ResultLookup.Ready (fin_locator F))
       ∧ find t p j db2 = Ok (Some job))
  ∧ (sj_state job = Completed →
       status (stored_workflow (fin_stored F)) = PageWorkflowStatus.Completed
       ∧ clean (fin_document F)).
Proof.
  intros Hreach Hid Hver. destruct F as [dbw dba dbc stored artifacts pages provenance document l state
    He1 He2 He3 Hw Hs Ha Hc Hh Hr Hwr [Hlid Hlver] Hcommit]; simpl.
  assert (Hrc : reachable ss js dbc).
  { eapply effect_reachable; [done|]. eapply effect_trans; [done|]. by eapply effect_trans. }
  assert (Hval : op_valid (OpCommitResult now t p j
    (mkCommitResult (reviewed_state state document) l))) by (simpl; rewrite Hlid, Hlver; done).
  pose proof (λ db2, committed_result_kept now t p j _ dbc job db' db2 Hrc Hval Hcommit) as Hkept.
  destruct (Hkept db' (effect_none _)) as (_ & _ & Hstate). simpl in Hstate.
  split_and!; [done| |].
  - intros db2 He. destruct (Hkept db2 He) as (Hf & Hfj & _). done.
  - rewrite Hstate. unfold reviewed_state.
    destruct (bool_decide (state = Completed)) eqn:Hst; simpl.
    + apply bool_decide_eq_true in Hst as ->.
      destruct (Z.eqb_spec (zlen (result_validation_failures document)) 0) as [Hnil|]; simpl; [|done].
      intros _. split.
      * destruct (status (stored_workflow stored)); done.
      * eapply reference_clean; [done|]. apply nil_length_inv. unfold zlen in Hnil. lia.
    + intros ->. by rewrite bool_decide_eq_false in Hst.
Qed.

(** C8: a published result is sound.  When finalizing a stored job commits a result,
    whatever the rest of the system does meanwhile: the workflow was found settled, the
    artifacts of all its successful pages were loaded and each holds its page, the
    document is the reference assembly of those pages under the identity of the job's
    source, and the locator is the one its writing reported.  From then on, for ever, the
    job has that result and the state its review implies, and finalizing it again finds
    it; and a job is completed only if all pages succeeded and the document is clean: it
    has text, no page without observations and no leaf of low confidence. *)
Theorem finalization_sound self t p j db native g job db' native' g' :
  reachable ss js db → checked_pages →
  finalize_stored self t p j (db, native, g)
    = (Ok (CommitResultOutcome.Committed job), (db', native', g')) →
  ∃ identity schema
    (F : finalization t p j db (identity_document_id identity) (identity_document_version identity)
           schema job db' g'),
    load_document_identity t p j db = Ok (Some identity)
    ∧ sj_state job = reviewed_state (fin_state F) (fin_document F)
    ∧ (sj_state job = Completed →
         status (stored_workflow (fin_stored F)) = PageWorkflowStatus.Completed
         ∧ clean (fin_document F))
    ∧ ∀ db2, effect_of_ops ss js db' db2 →
        find_result t p j db2 = Ok (ResultLookup.Ready (fin_locator F))
        ∧ find t p j db2 = Ok (Some job)
        ∧ ∀ self' id version schema' native2 g2, native_processing self' = true →
            (finalize self' t p j id version schema' (db2, native2, g2)).1
              = Ok (CommitResultOutcome.Existing job).
Proof.
  intros Hreach Hchecked (identity & schema & Hid & [F])%finalize_stored_Committed; [|done].
  destruct (identity_valid _ _ _ _ _ Hid) as [Hi Hv].
  destruct (finalization_facts _ _ _ _ _ _ _ _ _ _ F Hreach Hi Hv) as (Hs & Hkept & Hclean).
  exists identity, schema, F. split_and!; [done..|]. intros db2 He.
  destruct (Hkept db2 He) as [Hf Hj]. split_and!; [done..|].
  intros self' id version schema' native2 g2 Hn. eapply finalize_again; [done|exact Hf|].
  intros db3 He3. apply Hkept. by eapply effect_trans.
Qed.
End Finalization.

(** ** A sample finalization *)

Definition sample_final_ops : list StoreOp :=
  sample_processing_ops
  ++ [OpSavePageWorkflow sample_tenant sample_product sample_job 0 sample_done_workflow
        [sample_artifact]].

Definition sample_page_json (_ : list Z) : option RawDocumentPage :=
  Some (mkRawDocumentPage (mkPageNumber 1) 100 200 [sample_leaf "obs_native_a" "some text" 0]).

Definition sample_write (_ : ProductId) (_ : TenantId) (_ : JobId) (_ : DocumentResult unit) (g : ())
    : result ResultArtifactWriteError.ResultArtifactWriteError StoredResultLocator * () :=
  (Ok sample_locator, g).

#[local] Notation sample_finalize :=
  (finalize_stored sample_size sample_write (λ _ _ g, (Ok [], g)) sample_page_json
     (λ _ _, ExtractedFields_default) (λ _, Some [0]) 9 (λ _ world, world) (λ artifacts, artifacts)
     (mkDocumentFinalizer 1 false) sample_tenant sample_product sample_job
     (sample_db sample_final_ops, (∅ : NativeDb), ())).

Definition sample_finished_job : StoredJob := mkStoredJob sample_job Completed 5.

Lemma sample_final_reachable : reachable sample_size sample_size (sample_db sample_final_ops).
Proof.
  eapply effect_reachable; [exact sample_processing_reachable|].
  exists [OpSavePageWorkflow sample_tenant sample_product sample_job 0 sample_done_workflow
            [sample_artifact]].
  split; [apply Forall_singleton; exact sample_done_ok|].
  unfold sample_final_ops, sample_db. by rewrite run_ops_app.
Qed.

Lemma sample_page_checked : checked_pages sample_page_json.
Proof.
  intros bytes raw H. unfold sample_page_json in H. injection H as <-. constructor; [|constructor].
  intros H. change ("some text" = "") in H. discriminate H.
Qed.

Lemma sample_finalize_runs :
  ∃ db', sample_finalize
    = (Ok (CommitResultOutcome.Committed sample_finished_job), (db', (∅ : NativeDb), ())).
Proof.
  assert (H : sample_finalize.1 = Ok (CommitResultOutcome.Committed sample_finished_job))
    by (vm_compute; reflexivity).
  assert (Hn : sample_finalize.2.1.2 = ∅) by (vm_compute; reflexivity).
  destruct sample_finalize as [out [[db native] []]]. exists db. cbn [fst snd] in H, Hn.
  by rewrite H, Hn.
Qed.

Theorem finalization_sound_witness :
  ∃ db', sample_finalize
      = (Ok (CommitResultOutcome.Committed sample_finished_job), (db', (∅ : NativeDb), ()))
    ∧ find sample_tenant sample_product sample_job db' = Ok (Some sample_finished_job).
Proof.
  destruct sample_finalize_runs as [db' Hrun]. exists db'. split; [exact Hrun|].
  destruct (finalization_sound (ss := sample_size) (js := sample_size) sample_write
    (λ _ _ g, (Ok [], g)) sample_page_json (λ _ _, ExtractedFields_default) (λ _, Some [0]) 9
    (λ _ world, world) (λ artifacts, artifacts) (λ _ db _, effect_none db)
    (mkDocumentFinalizer 1 false) sample_tenant sample_product sample_job
    (sample_db sample_final_ops) ∅ () sample_finished_job db' ∅ ()
    sample_final_reachable sample_page_checked Hrun) as (identity & schema & F & _ & _ & _ & Hkept).
  destruct (Hkept db' (effect_none db')) as (_ & Hfind & _). exact Hfind.
Defined.

Section Serving.
Context {G Value : Type} {ss js : RawPageWorkflow → Z}.
Context (sha256 : list Z → list Z) (path_valid : string → bool).
Context (result_to_vec : DocumentResult Value → option (list Z)).
Context (result_from_slice : list Z → option (DocumentResult Value)).
(** [serde_json] reads back the fields that it wrote. *)
Context (Hjson : ∀ document bytes, result_to_vec document = Some bytes →
  result_from_slice bytes = Some document).

(** The job's locator and what [get_result] makes of it. *)
Lemma get_result_ready stores t p j l db (g : G) :
  id_valid j → find_result t p j db = Ok (ResultLookup.Ready l) →
  0 ≤ loc_content_length l ≤ MAXIMUM_RESULT_BYTES →
  ∀ document g',
    get_result sha256 (read_result path_valid stores) result_from_slice t p (JobId_str j) db g
      = (Ok document, g') ↔
    ∃ bytes raw, read_result path_valid stores l MAXIMUM_RESULT_BYTES g = (Ok bytes, g')
      ∧ zlen bytes = loc_content_length l ∧ sha256_digest (sha256 bytes) = loc_object_digest l
      ∧ result_from_slice bytes = Some raw
      ∧ DocumentResult_try_from (mkRawDocumentResult raw) = Ok document
      ∧ document_id document = loc_document_id l ∧ document_version document = loc_document_version l.
Proof.
  intros Hj Hfound Hlen document g'. unfold get_result.
  assert (JobId_new (JobId_str j) = Ok j) as -> by exact Hj. rewrite Hfound.
  assert (MAXIMUM_RESULT_BYTES < usize_max) as Hmax by done.
  rewrite checked_in_width by (unfold in_width; lia).
  rewrite (proj2 (Z.ltb_ge _ _)) by lia.
  destruct (read_result _ _ _ _ _) as [[bytes|e] g1]; simpl; [|naive_solver].
  split.
  - intros [= H <-]. destruct (_ || _) eqn:Hbad in H; [done|].
    rewrite !orb_false_iff, !negb_false_iff, Z.eqb_eq, String.eqb_eq in Hbad.
    apply and_then_Ok in H as (raw & Hraw%ok_or_Ok & H).
    apply and_then_Ok in H as (d & Hd%map_err_Ok & H). destruct (_ || _) eqn:Hids in H; [done|].
    rewrite !orb_false_iff, !negb_false_iff, !bool_decide_eq_true in Hids. injection H as ->.
    exists bytes, raw. by destruct Hbad, Hids.
  - intros (b & raw & [= <- <-] & Hl & Hd & Hraw & Htry & Hi & Hv).
    rewrite Hl, Hd, Z.eqb_refl, String.eqb_refl. simpl. rewrite Hraw. simpl. rewrite Htry. simpl.
    by rewrite Hi, Hv, !bool_decide_eq_true_2.
Qed.

(** C11: what was published is served.  Once the publisher has committed a document, then
    in every later state of the databases and of an object store with immutable versions,
    [get_result] returns that very document exactly when the store serves the version of
    the locator whole, and never another one. *)
Theorem published_result_served (build : Location → option (ObjectStore G)) entries routes route later
    now disturb t p j state document db g job db1 g1 stores db2 g2 :
  digests sha256 → GcsResultWriter_new build entries = Ok routes →
  routes !! ProductId_str p = Some route → ImmutableVersions (write_store route) later →
  reachable ss js db → effect_of_ops ss js db (disturb db) → id_valid j →
  id_valid (document_id document) → id_valid (document_version document) → wire_stable document →
  publish (write_result sha256 path_valid result_to_vec routes) now disturb t p j state document db g
    = (Ok (CommitResultOutcome.Committed job), db1, g1) →
  stores !! write_bucket route = Some (write_store route) →
  effect_of_ops ss js db1 db2 → later g1 g2 →
  ∃ l encoded, find_result t p j db2 = Ok (ResultLookup.Ready l) ∧ validate_locator l = Ok ()
    ∧ result_to_vec document = Some encoded
    ∧ ∀ served g3,
        get_result sha256 (read_result path_valid stores) result_from_slice t p (JobId_str j) db2 g2
          = (Ok served, g3) ↔
        served = document
        ∧ ∃ found, fetched path_valid (write_store route) (loc_object_name l)
                     (Some (loc_object_version l)) g2 found encoded g3
            ∧ meta_version found = Some (loc_object_version l).
Proof.
  intros Hsha Hnew Hroute Himm Hreach Hdisturb Hj Hdid Hdver Hstable Hpub Hstore Heff Hlater.
  apply publish_Committed in Hpub as (l & Hl & Hlid & Hlver & Hcommit).
  assert (Hval : op_valid (OpCommitResult now t p j (mkCommitResult state l)))
    by (simpl; by rewrite Hlid, Hlver).
  destruct (committed_result_kept (ss := ss) (js := js) now t p j _ (disturb db) job db1 db2
    (effect_reachable _ _ Hreach Hdisturb) Hval Hcommit Heff) as (Hfound & _).
  apply commit_result_spec in Hcommit as (_ & _ & _ & _ & _ & Hlocok & _). simpl in Hfound, Hlocok.
  apply write_result_Ok in Hl as (route' & encoded & digest & Hr & He & _ & Hlen & Hpath & _ & Hdef
    & g0 & found0 & Hget & Hm0 & Hs0).
  assert (route' = route) as -> by congruence.
  assert (Hll : loc_content_length l = zlen encoded) by by rewrite Hdef.
  assert (Hlb : loc_object_bucket l = write_bucket route) by by rewrite Hdef.
  assert (Hld : loc_object_digest l = sha256_digest (sha256 encoded)) by by rewrite Hdef.
  exists l, encoded. split_and!; [done..|]. intros served g3.
  assert (Hb : 0 ≤ loc_content_length l ≤ MAXIMUM_RESULT_BYTES) by (rewrite Hll; lia).
  pose proof (λ b, read_result_Ok sha256 path_valid stores l MAXIMUM_RESULT_BYTES g2 b g3 Hb
    (Z.le_refl MAXIMUM_RESULT_BYTES)) as Hread.
  rewrite Hlb, Hstore in Hread.
  rewrite (get_result_ready _ _ _ _ _ _ _ Hj Hfound Hb). rewrite Hll, Hld in *. split.
  - intros (bytes & raw & (store & found & [= <-] & _ & Hf & Hm & Hsize & Hs & _)%Hread & Hl & Hd
      & Hraw & Htry & _).
    assert (bytes = encoded) as -> by exact (Himm _ _ _ _ _ _ _ _ _ _ _ _ Hget Hm0 Hs0 Hlater Hf Hm Hs).
    rewrite (Hjson _ _ He) in Hraw. injection Hraw as <-.
    assert (served = document) as -> by (unfold wire_stable in Hstable; simpl in Hstable; congruence).
    split; [done|]. exists found. by split_and!.
  - intros (-> & found & (_ & Hf & Hsize & Hs) & Hm). exists encoded, document. split_and!; try done.
    + apply Hread. exists (write_store route), found. split_and!; try done. lia.
    + by apply Hjson.
Qed.
End Serving.

(** ** A sample publication *)

#[local] Instance ContentTrust_eq_dec : EqDecision ContentTrust.
Proof. solve_decision. Defined.
#[local] Instance ExtractedValue_eq_dec : EqDecision (ExtractedValue ()).
Proof. solve_decision. Defined.
#[local] Instance DocumentResult_eq_dec : EqDecision (DocumentResult ()).
Proof. solve_decision. Defined.

Definition sample_published : DocumentResult () :=
  {| schema_version := RESULT_SCHEMA_VERSION; document_id := mkDocumentId "doc_1";
     document_version := mkDocumentVersion sample_digest; content_trust := Untrusted;
     result_text := ""; result_markdown := ""; result_pages := []; result_fields := ∅;
     result_tables := []; result_confidence := None; result_citations := []; result_warnings := [];
     result_validation_failures := []; result_provider := None; result_model_version := None;
     result_processing_profile_version := None; result_duration_ms := None; result_cost := None |}.

(** A JSON codec for one document. *)
Definition sample_result_to_vec (document : DocumentResult ()) : option (list Z) :=
  if decide (document = sample_published) then Some [1; 2; 3] else None.
Definition sample_result_from_slice (_ : list Z) : option (DocumentResult ()) := Some sample_published.

Lemma sample_result_json document bytes :
  sample_result_to_vec document = Some bytes → sample_result_from_slice bytes = Some document.
Proof. unfold sample_result_to_vec. by destruct (decide _) as [->|]. Qed.

Definition sample_result_entries : list (string * string) := [("prod", "s3://artifacts-a")].
Definition sample_result_routes : gmap string (WriteRoute sample_objects) :=
  default ∅ (Prelude.result_ok (GcsResultWriter_new sample_object_store sample_result_entries)).

#[local] Notation sample_publish :=
  (publish (write_result sample_sha256 (λ _, true) sample_result_to_vec sample_result_routes) 9
     (λ db, db) sample_tenant sample_product sample_job Completed sample_published
     (sample_db sample_processing_ops) ∅).

Definition sample_published_job : StoredJob := mkStoredJob sample_job Completed 5.

Lemma sample_publish_runs :
  ∃ db1 g1, sample_publish = (Ok (CommitResultOutcome.Committed sample_published_job), db1, g1).
Proof.
  assert (H : sample_publish.1.1 = Ok (CommitResultOutcome.Committed sample_published_job))
    by (vm_compute; reflexivity).
  destruct sample_publish as [[out db] g]. exists db, g. cbn [fst snd] in H. by rewrite H.
Qed.

Lemma sample_digests : digests sample_sha256.
Proof.
  intros bytes. split; [reflexivity|]. change (Forall (λ b, 0 ≤ b < 256) (repeat 0 32)).
  repeat (constructor; [lia|]). constructor.
Qed.

Theorem published_result_served_witness :
  ∃ db1 g1 l, sample_publish = (Ok (CommitResultOutcome.Committed sample_published_job), db1, g1)
    ∧ find_result sample_tenant sample_product sample_job db1 = Ok (ResultLookup.Ready l)
    ∧ validate_locator l = Ok ().
Proof.
  destruct sample_publish_runs as (db1 & g1 & Hrun). exists db1, g1.
  assert (Hnew : GcsResultWriter_new sample_object_store sample_result_entries
                 = Ok sample_result_routes) by (vm_compute; reflexivity).
  assert (Hroute : sample_result_routes !! "prod" = Some sample_write_route)
    by (vm_compute; reflexivity).
  assert (Hj : id_valid sample_job) by (vm_compute; reflexivity).
  assert (Hd : id_valid (document_id sample_published)) by (vm_compute; reflexivity).
  assert (Hv : id_valid (document_version sample_published)) by (vm_compute; reflexivity).
  assert (Hs : wire_stable sample_published) by (vm_compute; reflexivity).
  assert (Hstore : ({["s3://artifacts-a" := sample_write_store]} : gmap string (ObjectStore _))
    !! write_bucket sample_write_route = Some (write_store sample_write_route))
    by apply lookup_singleton_eq.
  assert (Hlater : map_subseteq g1 g1) by (change (g1 ⊆ g1); reflexivity).
  destruct (published_result_served (ss := sample_size) (js := sample_size) sample_sha256
    (λ _, true) sample_result_to_vec sample_result_from_slice sample_result_json sample_object_store
    sample_result_entries sample_result_routes sample_write_route map_subseteq 9 (λ db, db)
    sample_tenant sample_product sample_job Completed sample_published
    (sample_db sample_processing_ops) ∅ sample_published_job db1 g1
    {["s3://artifacts-a" := sample_write_store]} db1 g1 sample_digests Hnew Hroute
    sample_write_store_immutable sample_processing_reachable (effect_none _) Hj Hd Hv Hs Hrun
    Hstore (effect_none _) Hlater)
    as (l & encoded & Hl & Hlv & _).
  exists l. split; [exact Hrun|]. split; [exact Hl|exact Hlv].
Defined.
