(* ===== verification/NativePagesFacts.v ===== *)
(** * NativePagesFacts: one text layer per document

    The first pages saved for a source are the canonical ones: every later save returns
    them, every load finds them, until they are cleared; and every worker then
    recognises the same text. *)

From S2P Require Import Prelude Text DomainTypes Identifiers Geometry PageWorkflow Document.
From S2P Require Import StoreTypes StoreChecks StoreDb StoreJobs StoreRun PageRunner.
From S2P Require Import ParserProcessFacts.
From S2P Require Import Storage NativePages Recognition.

#[local] Open Scope list_scope.
#[local] Open Scope Z_scope.

(** ** Numbered pages *)

Lemma misnumbered_false index pages :
  misnumbered index pages = false ↔
  ∀ i p, pages !! i = Some p → PageNumber_value (page p) = index + Z.of_nat i + 1.
Proof.
  revert index. induction pages as [|p pages IH]; intros index; simpl; [by split|].
  rewrite orb_false_iff, negb_false_iff, Z.eqb_eq, IH. split.
  - intros [Hp Hps] [|i] q; simpl; [intros [= <-]; lia|]. intros Hq%Hps. lia.
  - intros H. split; [specialize (H 0%nat p eq_refl); lia|].
    intros i q Hq. specialize (H (S i) q Hq). lia.
Qed.

Definition numbered_row (p : DocumentPage) : Z * DocumentPage := (PageNumber_value (page p), p).

(** A document as an [insert] left it. *)
Definition document_ok (document : NativeDocument) : Prop :=
  ∃ pages, nd_pages document = map numbered_row pages ∧ misnumbered 0 pages = false
    ∧ nd_page_count document = zlen pages.

Definition native_ok (native : NativeDb) : Prop :=
  ∀ key document, native !! key = Some document → document_ok document.

Lemma empty_native_ok : native_ok ∅.
Proof. intros key document H. discriminate H. Qed.

Lemma clear_native_ok t p j native : native_ok native → native_ok (clear_native_pages t p j native).
Proof. intros Hok key document [Hl _]%map_lookup_filter_Some. by eapply Hok. Qed.

Lemma numbered_rows_sorted pages :
  misnumbered 0 pages = false →
  map snd (sort_by_key fst (map numbered_row pages)) = pages.
Proof.
  intros Hn. rewrite sort_by_key_sorted_id.
  - rewrite map_map. simpl. apply map_id.
  - revert Hn. generalize 0 as index. induction pages as [|p pages IH]; intros index; simpl;
      [constructor|].
    rewrite orb_false_iff, negb_false_iff, Z.eqb_eq. intros [Hp Hps]. constructor; [by eapply IH|].
    apply Forall_forall. intros row Hrow. apply list_elem_of_In, in_map_iff in Hrow as (q & <- & Hq).
    apply list_elem_of_In, list_elem_of_lookup in Hq as [i Hi].
    rewrite misnumbered_false in Hps. specialize (Hps i q Hi). simpl. lia.
Qed.

Section Native.
Context (encoded_size : list DocumentPage → Z) (stored_size : DocumentPage → Z).
Context (Hsize : ∀ p, 0 ≤ stored_size p).
#[local] Notation load_pages := (load_pages stored_size).
#[local] Notation load_native_page := (load_native_page stored_size).
#[local] Notation load_native_pages := (load_native_pages stored_size).
#[local] Notation save_native_pages := (save_native_pages encoded_size stored_size).

Lemma decode_number stored value :
  decode_stored_page stored = Ok value → page value = page stored.
Proof.
  unfold decode_stored_page. intros H%map_err_Ok.
  unfold DocumentPage_try_from, DocumentPage_new in H. destruct (_ || _); [done|].
  destruct (scan_observations _ _ _); [|done]. by injection H as <-.
Qed.

Lemma load_rows_Ok count total acc rows out :
  load_rows count total acc rows = Ok out →
  ∃ more, out = acc ++ more ∧ Forall2 (λ row v, decode_stored_page row = Ok v) rows more
    ∧ (rows ≠ [] → total ≤ MAXIMUM_NATIVE_BYTES * 2).
Proof.
  revert acc. induction rows as [|row rows IH]; intros acc; simpl.
  - intros [= <-]. exists []. by rewrite app_nil_r.
  - intros H. apply and_then_Ok in H as (c & _ & H).
    apply and_then_Ok in H as (n & Hn%ok_or_Ok%checked_Some & H). destruct Hn as [-> _].
    destruct (_ || _) eqn:Hbad in H; [done|]. apply orb_false_iff in Hbad as [_ Htotal%Z.ltb_ge].
    apply and_then_Ok in H as (v & Hv & H). destruct (negb _); [done|].
    destruct (IH _ H) as (more & -> & Hall & _). exists (v :: more).
    rewrite <- app_assoc. split_and!; [done|by constructor|done].
Qed.


(** The digest of the job's accepted source. *)
Definition source_is (t : TenantId) (p : ProductId) (j : JobId) (digest : string) (db : Db) : Prop :=
  ∃ job upload, select_source t p j db = Some (job, upload)
    ∧ row_source_digest upload = Some digest.

Lemma select_native_source t p j profile db native digest document :
  select_native t p j profile db native = Some (digest, document) →
  source_is t p j digest db ∧ native !! (JobId_str j, profile, digest) = Some document.
Proof.
  unfold select_native. destruct (select_source t p j db) as [[job upload]|] eqn:Hs; [|done].
  destruct (row_source_digest upload) as [d|] eqn:Hd; [|done].
  destruct (native !! _) as [doc|] eqn:Hn; [|done]. destruct (in_scope _ _ _ _); [|done].
  intros [= <- <-]. split; [by exists job, upload|done].
Qed.

(** The document depends on the databases only through the digest of the source. *)
Lemma select_native_digest t p j profile db db' native digest :
  source_is t p j digest db → source_is t p j digest db' →
  select_native t p j profile db native = select_native t p j profile db' native.
Proof.
  intros (job & upload & Hs & Hd) (job' & upload' & Hs' & Hd').
  unfold select_native. by rewrite Hs, Hs', Hd, Hd'.
Qed.

Lemma load_pages_Ok t p j profile wanted db native out :
  native_ok native → load_pages t p j profile wanted db native = Ok (Some out) →
  ∃ digest document pages, select_native t p j profile db native = Some (digest, document)
    ∧ (wanted = None ∨ wanted = Some digest)
    ∧ nd_pages document = map numbered_row pages ∧ misnumbered 0 pages = false
    ∧ Forall2 (λ stored v, decode_stored_page stored = Ok v) pages out
    ∧ Forall (λ stored, stored_size stored ≤ MAXIMUM_NATIVE_BYTES * 2) pages
    ∧ zlen out ≤ MAXIMUM_PAGE_COUNT.
Proof.
  intros Hok. unfold NativePages.load_pages.
  destruct (select_native t p j profile db native) as [[digest document]|] eqn:Hsel; [|done].
  pose proof Hsel as [_ Hl]%select_native_source.
  destruct (Hok _ _ Hl) as (pages & Hrows & Hnum & Hcount).
  destruct (negb _) eqn:Hw; [done|]. rewrite Hrows, numbered_rows_sorted by done.
  rewrite and_then_Ok. intros (loaded & Hload & Hout). revert Hout.
  destruct (Z.eqb_spec (zlen loaded) 0); [done|].
  destruct (Z.eqb_spec (zlen loaded) (nd_page_count document)) as [Hc|]; [|done]. simpl.
  intros [= ->].
  pose proof Hload as (more & -> & Hall & Htotal)%load_rows_Ok. simpl in *.
  exists digest, document, pages. split_and!; try done.
  - apply negb_false_iff, orb_true_iff in Hw. rewrite !bool_decide_eq_true in Hw. done.
  - assert (Hne : pages ≠ []). { intros ->. apply Forall2_nil_inv_l in Hall as ->. done. }
    specialize (Htotal Hne). clear -Htotal Hsize. revert Htotal.
    generalize (MAXIMUM_NATIVE_BYTES * 2) as bound. intros bound.
    assert (Hpos : ∀ l, 0 ≤ foldr (λ stored total, stored_size stored + total) 0 l).
    { induction l as [|a l IH]; simpl; [done|]. specialize (Hsize a). lia. }
    induction pages as [|a pages IH]; simpl; intros Hb; constructor.
    + specialize (Hpos pages). lia.
    + apply IH. specialize (Hsize a). lia.
  - destruct pages as [|stored pages]; [by apply Forall2_nil_inv_l in Hall as ->|].
    simpl in Hload. apply and_then_Ok in Hload as (c & Hcc%ok_or_Ok%checked_Some & Hload).
    destruct Hcc as [-> _]. apply and_then_Ok in Hload as (n' & _ & Hload).
    destruct (_ || _) eqn:Hbad in Hload; [done|].
    rewrite !orb_false_iff, Z.ltb_ge in Hbad. lia.
Qed.

Lemma load_pages_any t p j profile wanted wanted' db db' native out digest document :
  load_pages t p j profile wanted db native = Ok (Some out) →
  select_native t p j profile db native = Some (digest, document) →
  wanted = None ∨ wanted = Some digest → wanted' = None ∨ wanted' = Some digest →
  source_is t p j digest db' →
  load_pages t p j profile wanted' db' native = Ok (Some out).
Proof.
  intros Hload Hsel Hw Hw' Hs'. pose proof Hsel as [Hs _]%select_native_source.
  unfold NativePages.load_pages in *.
  rewrite <- (select_native_digest t p j profile db db' native digest Hs Hs'), Hsel in *.
  assert (Hyes : ∀ w : option string, w = None ∨ w = Some digest →
    negb (bool_decide (w = None) || bool_decide (w = Some digest)) = false).
  { intros w [-> | ->]; rewrite ?(bool_decide_eq_true_2 (Some digest = Some digest)) by done; [done|].
    by rewrite orb_true_r. }
  rewrite (Hyes _ Hw) in Hload. by rewrite (Hyes _ Hw').
Qed.

(** A single page is the one of the whole document. *)
Lemma load_one_page t p j profile wanted db native out n :
  native_ok native → load_pages t p j profile wanted db native = Ok (Some out) →
  1 ≤ n ≤ zlen out →
  ∃ v, out !! Z.to_nat (n - 1) = Some v ∧ PageNumber_value (page v) = n
    ∧ load_native_page t p j profile n db native = Ok (Some v).
Proof.
  intros Hok Hload Hn.
  destruct (load_pages_Ok _ _ _ _ _ _ _ _ Hok Hload)
    as (digest & document & pages & Hsel & _ & Hrows & Hnum & Hall & Hsizes & Hmax).
  destruct (lookup_lt_is_Some_2 out (Z.to_nat (n - 1))) as [v Hv]; [unfold zlen in Hn; lia|].
  destruct (Forall2_lookup_r _ _ _ _ _ Hall Hv) as (stored & Hst & Hdec).
  rewrite misnumbered_false in Hnum.
  pose proof (Hnum _ _ Hst) as Hsn. pose proof (decode_number _ _ Hdec) as Hpage.
  assert (Hvn : PageNumber_value (page v) = n) by (rewrite Hpage; lia).
  exists v. split_and!; [done|done|]. unfold NativePages.load_native_page.
  rewrite checked_in_width by (unfold in_width, i32_max, MAXIMUM_PAGE_COUNT in *; lia). simpl.
  rewrite Hsel, Hrows.
  assert (list_find (λ row : Z * DocumentPage, row.1 = n) (map numbered_row pages)
          = Some (Z.to_nat (n - 1), numbered_row stored)) as ->.
  { apply list_find_Some. split_and!.
    - by rewrite list_lookup_fmap, Hst.
    - simpl. lia.
    - intros k row. rewrite list_lookup_fmap. destruct (pages !! k) as [q|] eqn:Hq; [|done].
      intros [= <-] Hk. simpl. pose proof (Hnum _ _ Hq). lia. }
  unfold numbered_row. cbn.
  rewrite Forall_forall in Hsizes. pose proof (Hsizes _ (list_elem_of_lookup_2 _ _ _ Hst)).
  rewrite (proj2 (Z.ltb_ge _ _)) by done. rewrite Hdec. simpl. by rewrite Hvn, Z.eqb_refl.
Qed.

Lemma insert_native_ok now t p j profile digest pages db native :
  native_ok native → misnumbered 0 pages = false →
  native_ok (insert_native now t p j profile digest pages db native).
Proof.
  intros Hok Hn. unfold insert_native. destruct (select_source t p j db) as [[row upload]|]; [|done].
  destruct (_ && _); [|done]. destruct (native !! _); [done|].
  intros key document [[_ <-]|[_ Hl]]%lookup_insert_Some; [|by eapply Hok].
  exists pages. by split_and!.
Qed.

Lemma save_Ok now t p j profile digest pages db native out native1 :
  save_native_pages now t p j profile digest pages db native = Ok (out, native1) →
  misnumbered 0 pages = false
  ∧ native1 = insert_native now t p j profile digest pages db native
  ∧ load_pages t p j profile (Some digest) db native1 = Ok (Some out).
Proof.
  unfold NativePages.save_native_pages. destruct (_ || _) eqn:Hbad; [done|].
  apply orb_false_iff in Hbad as [_ Hn]. destruct (_ <? _); [done|].
  intros (loaded & Hload & H)%and_then_Ok. apply and_then_Ok in H as (o & Ho%ok_or_Ok & [= <- <-]).
  subst loaded. done.
Qed.
End Native.

(** All workers read one text.  Once the pages of a document have been saved, then in
    every state of the database in which the job's source has that digest: loading finds
    exactly the pages that this save returned, numbered from one; every other save returns
    them too, or refuses its own pages, and changes nothing; and recognising any of the
    pages returns it, without reading the source or running the parser. *)
Theorem native_text_agreed encoded_size stored_size now t p j profile digest pages db native
    out native1 db' :
  (∀ q, 0 ≤ stored_size q) → native_ok native →
  save_native_pages encoded_size stored_size now t p j profile digest pages db native
    = Ok (out, native1) →
  source_is t p j digest db' →
  native_ok native1
  ∧ load_native_pages stored_size t p j profile db' native1 = Ok (Some out)
  ∧ (∀ now' pages',
       let again := save_native_pages encoded_size stored_size now' t p j profile digest pages'
                      db' native1 in
       again = Ok (out, native1) ∨ again = Err InvalidStoredPageArtifact)
  ∧ ∀ n, 1 ≤ n ≤ zlen out →
      ∃ v, out !! Z.to_nat (n - 1) = Some v ∧ PageNumber_value (page v) = n
        ∧ (profile = NATIVE_PROFILE →
           ∀ G sha256 load_source extract_native now' meanwhile task (g : G), task_page task = n →
             recognize sha256 encoded_size stored_size load_source extract_native now' meanwhile
               t p j task (db', native1, g) = (Ok v, (db', native1, g))).
Proof.
  intros Hsize Hok (Hnum & -> & Hload)%save_Ok Hs'.
  set (native1 := insert_native _ _ _ _ _ _ _ _ _) in *.
  assert (Hok1 : native_ok native1) by by apply insert_native_ok.
  destruct (load_pages_Ok stored_size Hsize _ _ _ _ _ _ _ _ Hok1 Hload)
    as (digest' & document & pages1 & Hsel & [|[= <-]] & _ & _ & _ & _ & Hmax); [done|].
  assert (Hany : ∀ wanted, wanted = None ∨ wanted = Some digest →
    load_pages stored_size t p j profile wanted db' native1 = Ok (Some out))
    by (intros; eapply load_pages_any; eauto).
  split_and!; [done|by apply Hany; left| |].
  - intros now' pages' again. subst again. unfold save_native_pages.
    destruct (_ || _); [by right|]. destruct (_ <? _); [by right|]. left.
    pose proof Hsel as [_ Hl]%select_native_source.
    assert (insert_native now' t p j profile digest pages' db' native1 = native1) as ->.
    { unfold insert_native. destruct (select_source t p j db') as [[row upload]|]; [|done].
      destruct (_ && _); [|done]. by rewrite Hl. }
    rewrite Hany by by right. done.
  - intros n Hn.
    destruct (load_one_page stored_size Hsize _ _ _ _ _ _ _ _ n Hok1 (Hany None (or_introl eq_refl)) Hn)
      as (v & Hv & Hvn & Hone).
    exists v. split_and!; [done..|]. intros -> G sha256 load_source extract_native now' meanwhile
      task g <-. unfold recognize, recognize_with. by rewrite Hone.
Qed.

(** ** A sample: two workers extract one page *)

Definition sample_native_page (width : Z) : DocumentPage := mkDocumentPage (mkPageNumber 1) width 20 [].

#[local] Notation sample_native_save :=
  (save_native_pages (λ _, 100) (λ _, 100) 9 sample_tenant sample_product sample_job NATIVE_PROFILE
     sample_digest [sample_native_page 10] (sample_db sample_processing_ops) (∅ : NativeDb)).

Lemma sample_native_saved :
  ∃ native, sample_native_save = Ok ([sample_native_page 10], native).
Proof.
  assert (H : match sample_native_save with Ok (out, _) => Some out | Err _ => None end
              = Some [sample_native_page 10]) by (vm_compute; reflexivity).
  destruct (sample_native_save) as [[out native]|]; [|discriminate H].
  injection H as ->. by exists native.
Qed.

Lemma sample_source_is :
  source_is sample_tenant sample_product sample_job sample_digest (sample_db sample_processing_ops).
Proof.
  assert (H : match select_source sample_tenant sample_product sample_job
                      (sample_db sample_processing_ops) with
              | Some (_, upload) => bool_decide (row_source_digest upload = Some sample_digest)
              | None => false
              end = true) by (vm_compute; reflexivity).
  unfold source_is. destruct (select_source _ _ _ _) as [[job upload]|]; [|discriminate H].
  apply bool_decide_eq_true in H. by exists job, upload.
Qed.

Theorem native_text_agreed_witness :
  ∃ native, sample_native_save = Ok ([sample_native_page 10], native)
    ∧ load_native_pages (λ _, 100) sample_tenant sample_product sample_job NATIVE_PROFILE
        (sample_db sample_processing_ops) native = Ok (Some [sample_native_page 10]).
Proof.
  destruct sample_native_saved as [native Hrun]. exists native. split; [exact Hrun|].
  assert (Hsize : ∀ q : DocumentPage, 0 ≤ (λ _, 100) q) by (intros; lia).
  exact (proj1 (proj2 (native_text_agreed (λ _, 100) (λ _, 100) 9 sample_tenant sample_product
    sample_job NATIVE_PROFILE sample_digest [sample_native_page 10]
    (sample_db sample_processing_ops) ∅ [sample_native_page 10] native
    (sample_db sample_processing_ops) Hsize empty_native_ok Hrun sample_source_is))).
Defined.
