(* ===== verification/ApiTypes.v ===== *)
(** * ApiTypes: headers, identities and errors of the network boundary

    Models the parts of [ocr-service/src/lib.rs] that its handlers, the workload
    identity and the job endpoints share: [ApiError] with its constructors,
    [TrustedIdentity] and the identifier of a request.  A [HeaderMap] is what the code
    asks of it: the bytes of a header, and its text where [to_str] succeeds, by the
    header's name.  A status code is its number. *)

From S2P Require Import Prelude Text DomainTypes Identifiers.

#[local] Open Scope list_scope.
#[local] Open Scope Z_scope.

Record HeaderMap := mkHeaderMap {
  header_bytes : string → option (list Z);
  header_str : string → option string;
}.

Definition REQUEST_ID_HEADER : string := "x-request-id".

(** [request_id_from_headers] and [request_id_from_extensions]: [fresh] is the new UUID. *)
Definition request_id_from_headers (fresh : string) (headers : HeaderMap) : string :=
  default fresh (header_str headers REQUEST_ID_HEADER).

Definition request_id_from_extensions (fresh : string) (extension : option string) : string :=
  default fresh extension.

Record TrustedIdentity := mkTrustedIdentity {
  identity_product : ProductId;
  identity_tenant : TenantId;
}.

Definition TrustedIdentity_new (product_id tenant_id : string)
    : result DomainTypes.Error TrustedIdentity :=
  let? product_id := ProductId_new product_id in
  let? tenant_id := TenantId_new tenant_id in
  Ok (mkTrustedIdentity product_id tenant_id).

Record ErrorBody := mkErrorBody {
  error_code : string;
  error_message : string;
  error_request_id : string;
}.

Record ApiError := mkApiError { error_status : Z; error_body : ErrorBody }.

Module ApiError.
Definition authentication_required (request_id : string) : ApiError :=
  mkApiError 401 (mkErrorBody "authentication_required" "authentication is required" request_id).
Definition not_found (request_id : string) : ApiError :=
  mkApiError 404 (mkErrorBody "job_not_found" "job was not found" request_id).
Definition unavailable (request_id : string) : ApiError :=
  mkApiError 503 (mkErrorBody "service_unavailable" "service is temporarily unavailable" request_id).
Definition bad_request (code message request_id : string) : ApiError :=
  mkApiError 400 (mkErrorBody code message request_id).
Definition conflict (request_id : string) : ApiError :=
  mkApiError 409 (mkErrorBody "idempotency_conflict"
                    "idempotency key was reused with different input" request_id).
Definition not_cancellable (request_id : string) : ApiError :=
  mkApiError 409 (mkErrorBody "job_not_cancellable"
                    "job cannot be cancelled in its current state" request_id).
Definition result_not_ready (request_id : string) : ApiError :=
  mkApiError 409 (mkErrorBody "result_not_ready" "job result is not ready" request_id).
Definition result_unavailable (request_id : string) : ApiError :=
  mkApiError 409 (mkErrorBody "result_unavailable" "job has no result" request_id).
Definition upload_not_found (request_id : string) : ApiError :=
  mkApiError 404 (mkErrorBody "upload_not_found" "upload was not found" request_id).
Definition upload_conflict (code message request_id : string) : ApiError :=
  mkApiError 409 (mkErrorBody code message request_id).
Definition upload_verification_failed (request_id : string) : ApiError :=
  mkApiError 422 (mkErrorBody "upload_verification_failed"
                    "uploaded object did not match its reservation" request_id).
End ApiError.
