(* ===== verification/WorkloadIdentity.v ===== *)
(** * WorkloadIdentity: signed requests of the products' workloads

    Models [ocr-service/src/workload_identity.rs]: the keys and their configuration, the
    canonical message of a request, its verification, and the middleware that lets only
    verified requests through.  The MAC is the argument [hmac], which gives [None] for a
    key it refuses; [timestamp_in_range] says which [i64] are dates.  Instants and
    durations are in nanoseconds, the timestamps of headers in seconds.

    The canonical message determines what it covers of the request it was made from -
    identity, time, method, path and query, but not the body - so a signature admits no
    other target, within the clock skew; the configuration reads back the
    keys it was written from. *)

From S2P Require Import Prelude Text DomainTypes Identifiers Digest ApiTypes.

#[local] Open Scope list_scope.
#[local] Open Scope Z_scope.

Definition KEY_ID_HEADER : string := "x-ocr-key-id".
Definition TENANT_ID_HEADER : string := "x-ocr-tenant-id".
Definition TIMESTAMP_HEADER : string := "x-ocr-timestamp".
Definition SIGNATURE_HEADER : string := "x-ocr-signature".
Definition MINIMUM_KEY_BYTES : Z := 32.
Definition WORKLOAD_IDENTITY_KEYS : string := "OCR_WORKLOAD_IDENTITY_KEYS".
Definition WORKLOAD_IDENTITY_CLOCK_SKEW_SECONDS : string := "OCR_WORKLOAD_IDENTITY_CLOCK_SKEW_SECONDS".

(** [Duration::from_secs] and [OffsetDateTime::from_unix_timestamp], in nanoseconds. *)
Definition from_secs (seconds : Z) : Z := seconds * 1000000000.

Module WorkloadIdentityConfigurationError.
Inductive WorkloadIdentityConfigurationError :=
| EmptyKeySet
| InvalidKeyId
| InvalidProduct
| KeyTooShort
| DuplicateKeyId
| InvalidKeyEncoding
| InvalidClockSkew
| MissingKeys
| InvalidEncoding.
End WorkloadIdentityConfigurationError.

Notation ConfigurationResult :=
  (result WorkloadIdentityConfigurationError.WorkloadIdentityConfigurationError).

Record SigningKey := mkSigningKey { signing_product : ProductId; signing_secret : list Z }.

Record WorkloadIdentityVerifier := mkWorkloadIdentityVerifier {
  verifier_keys : gmap string SigningKey;
  maximum_clock_skew : Z;
}.

(** ** Encodings *)

Definition key_byte (b : ascii) : bool := is_ascii_alphanumeric b || byte_in "-_." b.

Definition valid_key_id (value : string) : bool :=
  negb (is_empty value) && (strlen value <=? 64) && all_bytes key_byte value.

(** [u8::from_str_radix(pair, 16)] on two hexadecimal digits. *)
Definition hex_value (b : ascii) : Z :=
  if is_ascii_digit b then code b - 48
  else if contains 97 102 (code b) then code b - 87 else code b - 55.

Fixpoint hex_pairs (value : string) : list Z :=
  match value with
  | String high (String low value) => hex_value high * 16 + hex_value low :: hex_pairs value
  | _ => []
  end.

Definition decode_hex_value (value : string) : option (list Z) :=
  if is_empty value || negb (strlen value mod 2 =? 0) || negb (all_bytes is_ascii_hexdigit value)
  then None else Some (hex_pairs value).

Definition decode_hex (value : string) : option (list Z) :=
  if negb (strlen value =? 64) then None else decode_hex_value value.

(** ** Configuration *)

(** The loop of [WorkloadIdentityVerifier::new]. *)
Fixpoint configure_keys (keys : list (string * string * list Z)) (configured : gmap string SigningKey)
    : ConfigurationResult (gmap string SigningKey) :=
  match keys with
  | [] => Ok configured
  | (key_id, product_id, secret) :: keys =>
      if negb (valid_key_id key_id) then Err WorkloadIdentityConfigurationError.InvalidKeyId
      else
        let? product_id :=
          map_err (ProductId_new product_id)
            (λ _, WorkloadIdentityConfigurationError.InvalidProduct) in
        if zlen secret <? MINIMUM_KEY_BYTES
        then Err WorkloadIdentityConfigurationError.KeyTooShort
        else
          match configured !! key_id with
          | Some _ => Err WorkloadIdentityConfigurationError.DuplicateKeyId
          | None => configure_keys keys (<[key_id := mkSigningKey product_id secret]> configured)
          end
  end.

Definition WorkloadIdentityVerifier_new (keys : list (string * string * list Z)) (maximum_clock_skew : Z)
    : ConfigurationResult WorkloadIdentityVerifier :=
  if maximum_clock_skew =? 0 then Err WorkloadIdentityConfigurationError.InvalidClockSkew
  else
    let? configured := configure_keys keys ∅ in
    if bool_decide (configured = ∅) then Err WorkloadIdentityConfigurationError.EmptyKeySet
    else Ok (mkWorkloadIdentityVerifier configured maximum_clock_skew).

(** One entry of the encoded keys, [key=product:secret]. *)
Definition decode_key (entry : string) : ConfigurationResult (string * string * list Z) :=
  let? (key_id, product_and_secret) :=
    ok_or (split_once "=" entry) WorkloadIdentityConfigurationError.InvalidKeyEncoding in
  let? (product_id, encoded_secret) :=
    ok_or (split_once ":" product_and_secret)
      WorkloadIdentityConfigurationError.InvalidKeyEncoding in
  let? secret :=
    ok_or (decode_hex_value encoded_secret)
      WorkloadIdentityConfigurationError.InvalidKeyEncoding in
  Ok (key_id, product_id, secret).

Definition from_encoded_keys (value : string) (maximum_clock_skew : Z)
    : ConfigurationResult WorkloadIdentityVerifier :=
  let? keys := collect_results decode_key (split_on "," value) in
  WorkloadIdentityVerifier_new keys maximum_clock_skew.

(** [env::VarError]. *)
Inductive VarError := NotPresent | NotUnicode.

Definition from_process_environment (var : string → result VarError string)
    : ConfigurationResult WorkloadIdentityVerifier :=
  let? keys :=
    map_err (var WORKLOAD_IDENTITY_KEYS)
      (λ error, match error with
                | NotPresent => WorkloadIdentityConfigurationError.MissingKeys
                | NotUnicode => WorkloadIdentityConfigurationError.InvalidEncoding
                end) in
  let? maximum_clock_skew :=
    match var WORKLOAD_IDENTITY_CLOCK_SKEW_SECONDS with
    | Ok value =>
        match parse_unsigned u64_max value with
        | Some seconds =>
            if contains 1 300 seconds then Ok (from_secs seconds)
            else Err WorkloadIdentityConfigurationError.InvalidClockSkew
        | None => Err WorkloadIdentityConfigurationError.InvalidClockSkew
        end
    | Err NotPresent => Ok (from_secs 60)
    | Err NotUnicode => Err WorkloadIdentityConfigurationError.InvalidEncoding
    end in
  from_encoded_keys keys maximum_clock_skew.

(** ** Verification *)

(** [Method] and [Uri], as the code uses them. *)
Record Target := mkTarget {
  target_method : string;
  target_path : string;
  target_path_and_query : option string;
}.

Definition canonical_message (key_id tenant_id : string) (timestamp : Z) (target : Target) : string :=
  key_id +:+ String "010" (tenant_id +:+ String "010" (show_i64 timestamp
    +:+ String "010" (target_method target
    +:+ String "010" (default "/" (target_path_and_query target))))).

Section Verify.
Context (hmac : list Z → list Z → option (list Z)) (timestamp_in_range : Z → bool).

(** [parse::<i64>] and [OffsetDateTime::from_unix_timestamp]. *)
Definition parse_timestamp (value : string) : option Z :=
  match parse_i64 value with
  | Some timestamp => if timestamp_in_range timestamp then Some timestamp else None
  | None => None
  end.

Definition verify (self : WorkloadIdentityVerifier) (headers : HeaderMap) (target : Target) (now : Z)
    : option TrustedIdentity :=
  match header_str headers KEY_ID_HEADER with
  | None => None
  | Some key_id =>
  match verifier_keys self !! key_id with
  | None => None
  | Some key =>
  match header_str headers TENANT_ID_HEADER with
  | None => None
  | Some tenant =>
  match TenantId_new tenant with
  | Err _ => None
  | Ok tenant_id =>
  match header_str headers TIMESTAMP_HEADER with
  | None => None
  | Some timestamp =>
  match parse_timestamp timestamp with
  | None => None
  | Some timestamp =>
  if maximum_clock_skew self <? Z.abs (now - from_secs timestamp) then None
  else
  match header_str headers SIGNATURE_HEADER with
  | None => None
  | Some signature =>
  match decode_hex signature with
  | None => None
  | Some supplied_signature =>
  match hmac (signing_secret key)
          (string_bytes (canonical_message key_id (TenantId_str tenant_id) timestamp target)) with
  | None => None
  | Some mac =>
      if bool_decide (mac = supplied_signature)
      then Some (mkTrustedIdentity (signing_product key) tenant_id) else None
  end end end end end end end end end.

(** What the middleware does with a request: pass it on with the identity it puts into
    the extensions, or respond. *)
Inductive Admission :=
| Next (identity : option TrustedIdentity)
| Respond (error : ApiError).

Definition verify_workload_identity (verifier : WorkloadIdentityVerifier) (headers : HeaderMap)
    (target : Target) (now : Z) (fresh : string) : Admission :=
  if String.eqb (target_path target) "/healthz" || String.eqb (target_path target) "/readyz"
  then Next None
  else
    match verify verifier headers target now with
    | Some identity => Next (Some identity)
    | None => Respond (ApiError.authentication_required (request_id_from_headers fresh headers))
    end.
End Verify.

(** ** Messages *)

(** A text without a line break. *)
Definition single_line (s : string) : bool := all_bytes (λ b, negb (Ascii.eqb b "010")) s.

Lemma show_i64_single_line n : single_line (show_i64 n) = true.
Proof.
  unfold single_line, show_i64. destruct (Z.ltb_spec n 0); [simpl|];
    (apply digits_without; [done|]; apply show_dec_digits; lia).
Qed.

Lemma valid_key_id_single_line s : valid_key_id s = true → single_line s = true.
Proof.
  unfold valid_key_id. rewrite !andb_true_iff. intros [_ H]. revert H. apply all_bytes_impl.
  intros b. destruct (Ascii.eqb_spec b "010") as [->|]; [by vm_compute|done].
Qed.

Lemma validated_id_single_line value prefix error s :
  single_line prefix = true → validated_id value prefix error = Ok s → single_line s = true.
Proof.
  unfold validated_id. intros Hp.
  destruct (strip_prefix prefix value) as [suffix|] eqn:Hs; simpl; [|done].
  destruct (_ && _) eqn:Hok; [|done]. intros [= <-]. apply strip_prefix_Some in Hs as ->.
  rewrite !andb_true_iff in Hok. destruct Hok as [_ Hb]. unfold single_line in *.
  rewrite all_bytes_append, Hp. simpl. revert Hb. apply all_bytes_impl. intros b.
  destruct (Ascii.eqb_spec b "010") as [->|]; [by vm_compute|done].
Qed.

Lemma TenantId_single_line value t : TenantId_new value = Ok t → single_line (TenantId_str t) = true.
Proof.
  unfold TenantId_new. destruct (validated_id _ _ _) as [s|] eqn:Hs; [|done].
  intros [= <-]. by apply validated_id_single_line in Hs.
Qed.

(** The parts of a message are those of the request. *)
Lemma canonical_message_inj k1 k2 t1 t2 n1 n2 r1 r2 :
  single_line k1 = true → single_line k2 = true → single_line t1 = true → single_line t2 = true →
  - i64_max - 1 ≤ n1 ≤ i64_max → - i64_max - 1 ≤ n2 ≤ i64_max →
  single_line (target_method r1) = true → single_line (target_method r2) = true →
  canonical_message k1 t1 n1 r1 = canonical_message k2 t2 n2 r2 →
  k1 = k2 ∧ t1 = t2 ∧ n1 = n2 ∧ target_method r1 = target_method r2
  ∧ default "/" (target_path_and_query r1) = default "/" (target_path_and_query r2).
Proof.
  unfold canonical_message. intros Hk1 Hk2 Ht1 Ht2 Hn1 Hn2 Hm1 Hm2 H.
  apply cut_unique in H as [-> H]; [|done..]. apply cut_unique in H as [-> H]; [|done..].
  apply cut_unique in H as [Hn H]; [|apply show_i64_single_line..].
  apply cut_unique in H as [Hm Hp]; [|done..]. by apply show_i64_inj in Hn as ->.
Qed.

(** ** Verification *)

Section Facts.
Context (hmac : list Z → list Z → option (list Z)) (timestamp_in_range : Z → bool).

Notation verify := (verify hmac timestamp_in_range).

(** What [verify] found when it returns an identity. *)
Record signed_by (self : WorkloadIdentityVerifier) (headers : HeaderMap) (target : Target) (now : Z)
    (key_id : string) (key : SigningKey) (tenant : TenantId) (timestamp : Z) (mac : list Z) : Prop := {
  signed_key_id : header_str headers KEY_ID_HEADER = Some key_id;
  signed_key : verifier_keys self !! key_id = Some key;
  signed_tenant : header_str headers TENANT_ID_HEADER = Some (TenantId_str tenant);
  signed_tenant_valid : id_valid tenant;
  signed_timestamp : ∃ value, header_str headers TIMESTAMP_HEADER = Some value
    ∧ parse_timestamp timestamp_in_range value = Some timestamp;
  signed_recently : Z.abs (now - from_secs timestamp) ≤ maximum_clock_skew self;
  signed_signature : ∃ value, header_str headers SIGNATURE_HEADER = Some value
    ∧ decode_hex value = Some mac;
  signed_mac : hmac (signing_secret key)
    (string_bytes (canonical_message key_id (TenantId_str tenant) timestamp target)) = Some mac;
}.

Lemma TenantId_new_Ok value t : TenantId_new value = Ok t ↔ value = TenantId_str t ∧ id_valid t.
Proof.
  split.
  - intros H. pose proof (id_new_str value t H) as Hs. simpl in Hs. split; [done|].
    by eapply (id_new_valid (T := TenantId)).
  - by intros [-> H].
Qed.

Lemma verify_spec self headers target now identity :
  verify self headers target now = Some identity ↔
  ∃ key_id key tenant timestamp mac,
    signed_by self headers target now key_id key tenant timestamp mac
    ∧ identity = mkTrustedIdentity (signing_product key) tenant.
Proof.
  unfold WorkloadIdentity.verify. split.
  - destruct (header_str headers KEY_ID_HEADER) as [key_id|] eqn:Hk; [|done].
    destruct (verifier_keys self !! key_id) as [key|] eqn:Hkey; [|done].
    destruct (header_str headers TENANT_ID_HEADER) as [tenant|] eqn:Ht; [|done].
    destruct (TenantId_new tenant) as [t|] eqn:Hnew; [|done].
    destruct (header_str headers TIMESTAMP_HEADER) as [ts|] eqn:Hts; [|done].
    destruct (parse_timestamp _ ts) as [n|] eqn:Hn; [|done].
    destruct (Z.ltb_spec (maximum_clock_skew self) (Z.abs (now - from_secs n))); [done|].
    destruct (header_str headers SIGNATURE_HEADER) as [sg|] eqn:Hsg; [|done].
    destruct (decode_hex sg) as [supplied|] eqn:Hd; [|done].
    destruct (hmac _ _) as [mac|] eqn:Hmac; [|done].
    destruct (bool_decide _) eqn:Heq; [|done]. apply bool_decide_eq_true in Heq as <-.
    apply TenantId_new_Ok in Hnew as [-> Hv]. intros [= <-].
    exists key_id, key, t, n, mac. split; [|done]. constructor; eauto.
  - intros (key_id & key & t & n & mac & [Hk Hkey Ht Hv (ts & Hts & Hn) Hnow (sg & Hsg & Hd) Hmac] & ->).
    assert (TenantId_new (TenantId_str t) = Ok t) as Hnew by exact Hv.
    rewrite Hk, Hkey, Ht, Hnew, Hts, Hn, (proj2 (Z.ltb_ge _ _) Hnow), Hsg, Hd, Hmac.
    by rewrite bool_decide_eq_true_2.
Qed.

Lemma parse_timestamp_bounds value n :
  parse_timestamp timestamp_in_range value = Some n → - i64_max - 1 ≤ n ≤ i64_max.
Proof.
  unfold parse_timestamp. destruct (parse_i64 value) as [m|] eqn:Hm; [|done].
  destruct (timestamp_in_range m); [|done]. intros [= <-]. by eapply parse_i64_bounds.
Qed.

(** The bytes whose MAC a request carries. *)
Definition signed_message (headers : HeaderMap) (target : Target) : option (list Z) :=
  key_id ← header_str headers KEY_ID_HEADER;
  tenant ← header_str headers TENANT_ID_HEADER;
  value ← header_str headers TIMESTAMP_HEADER;
  timestamp ← parse_timestamp timestamp_in_range value;
  Some (string_bytes (canonical_message key_id tenant timestamp target)).

(** These two messages differ and have one MAC. *)
Definition forged (key : SigningKey) (m1 m2 : option (list Z)) : Prop :=
  ∃ b1 b2 mac, m1 = Some b1 ∧ m2 = Some b2 ∧ b1 ≠ b2
    ∧ hmac (signing_secret key) b1 = Some mac ∧ hmac (signing_secret key) b2 = Some mac.

Lemma signed_by_message self headers target now key_id key tenant timestamp mac :
  signed_by self headers target now key_id key tenant timestamp mac →
  signed_message headers target
  = Some (string_bytes (canonical_message key_id (TenantId_str tenant) timestamp target)).
Proof.
  intros [Hk _ Ht _ (value & Hts & Hn) _ _ _]. unfold signed_message. rewrite Hk, Ht, Hts. simpl. by rewrite Hn.
Qed.

(** The configured keys have valid identifiers. *)
Definition keys_valid (self : WorkloadIdentityVerifier) : Prop :=
  ∀ key_id key, verifier_keys self !! key_id = Some key → valid_key_id key_id = true.

(** C23: a signature binds what it covers, and only that.  When two requests with the same
    key identifier and the same signature are both admitted, they have the same identity
    (product and tenant), the same method, the same path and query and the same
    timestamp, which both instants are within the clock skew of - or the messages of
    these two requests are different and have the same MAC under the key.  The signature
    does not cover the rest of a request: verification never sees the body, and a request
    that keeps the four headers of its signature is admitted with any others, such as
    another [Idempotency-Key]. *)
Theorem signature_binds_request self headers1 headers2 target1 target2 now1 now2 identity1 identity2
    key_id :
  keys_valid self →
  single_line (target_method target1) = true → single_line (target_method target2) = true →
  verify self headers1 target1 now1 = Some identity1 →
  verify self headers2 target2 now2 = Some identity2 →
  header_str headers1 KEY_ID_HEADER = Some key_id → header_str headers2 KEY_ID_HEADER = Some key_id →
  header_str headers1 SIGNATURE_HEADER = header_str headers2 SIGNATURE_HEADER →
  ((identity1 = identity2 ∧ target_method target1 = target_method target2
    ∧ default "/" (target_path_and_query target1) = default "/" (target_path_and_query target2)
    ∧ ∃ timestamp, header_str headers1 TIMESTAMP_HEADER ≫= parse_timestamp timestamp_in_range = Some timestamp
        ∧ header_str headers2 TIMESTAMP_HEADER ≫= parse_timestamp timestamp_in_range = Some timestamp
        ∧ Z.abs (now1 - from_secs timestamp) ≤ maximum_clock_skew self
        ∧ Z.abs (now2 - from_secs timestamp) ≤ maximum_clock_skew self)
   ∨ ∃ key, verifier_keys self !! key_id = Some key
       ∧ forged key (signed_message headers1 target1) (signed_message headers2 target2))
  ∧ ∀ headers', Forall (λ name, header_str headers' name = header_str headers1 name)
                  [KEY_ID_HEADER; TENANT_ID_HEADER; TIMESTAMP_HEADER; SIGNATURE_HEADER] →
      verify self headers' target1 now1 = Some identity1.
Proof.
  intros Hkeys Hm1 Hm2 Hv1 Hv2 Hid1 Hid2 Hsig. split.
  2:{ intros headers' Hsame. rewrite !Forall_cons in Hsame. destruct Hsame as (Hk & Ht & Hts & Hs & _).
      revert Hv1. unfold WorkloadIdentity.verify. by rewrite Hk, Ht, Hts, Hs. }
  apply verify_spec in Hv1 as (k1 & key1 & t1 & n1 & mac1 & Hby1 & ->).
  apply verify_spec in Hv2 as (k2 & key2 & t2 & n2 & mac2 & Hby2 & ->).
  rewrite (signed_by_message _ _ _ _ _ _ _ _ _ Hby1), (signed_by_message _ _ _ _ _ _ _ _ _ Hby2).
  destruct Hby1 as [Hk1 Hkey1 _ Ht1 (ts1 & Hts1 & Hn1) Hnow1 (s1 & Hs1 & Hd1) Hmac1].
  destruct Hby2 as [Hk2 Hkey2 _ Ht2 (ts2 & Hts2 & Hn2) Hnow2 (s2 & Hs2 & Hd2) Hmac2].
  assert (k1 = key_id) as -> by congruence. assert (k2 = key_id) as -> by congruence.
  assert (key2 = key1) as -> by congruence. assert (mac2 = mac1) as -> by congruence.
  destruct (decide (string_bytes (canonical_message key_id (TenantId_str t1) n1 target1)
    = string_bytes (canonical_message key_id (TenantId_str t2) n2 target2))) as [He|Hne].
  - left. apply string_bytes_inj in He.
    assert (Hk : single_line key_id = true) by (eapply valid_key_id_single_line, Hkeys; done).
    apply canonical_message_inj in He as (_ & Ht & <- & -> & ->);
      [|done|done|by eapply TenantId_single_line|by eapply TenantId_single_line
       |by eapply parse_timestamp_bounds|by eapply parse_timestamp_bounds|done|done].
    assert (t1 = t2) as -> by (by apply (id_str_inj (T := TenantId))).
    split_and!; [done..|]. exists n1. rewrite Hts1, Hts2. simpl. by split_and!.
  - right. exists key1. split; [done|]. by exists (string_bytes (canonical_message key_id (TenantId_str t1) n1 target1)),
      (string_bytes (canonical_message key_id (TenantId_str t2) n2 target2)), mac1.
Qed.

(** Nothing but the health checks gets past the middleware without a signature. *)
Lemma middleware_admits self headers target now fresh identity :
  verify_workload_identity hmac timestamp_in_range self headers target now fresh = Next identity ↔
  (target_path target ∈ ["/healthz"; "/readyz"] ∧ identity = None)
  ∨ (target_path target ∉ ["/healthz"; "/readyz"]
     ∧ ∃ i, identity = Some i ∧ verify self headers target now = Some i).
Proof.
  unfold verify_workload_identity.
  destruct (String.eqb_spec (target_path target) "/healthz") as [->|H1]; simpl;
    [|destruct (String.eqb_spec (target_path target) "/readyz") as [->|H2]; simpl].
  1, 2: split; [intros [= <-]; left; split; [set_solver|done]|intros [[_ ->]|[H _]]; [done|set_solver]].
  assert (Hni : target_path target ∉ ["/healthz"; "/readyz"]) by set_solver.
  destruct (WorkloadIdentity.verify _ _ _ _ _ _) as [i|] eqn:Hv; split.
  - intros [= <-]. right. eauto.
  - intros [[H _]|(_ & i' & -> & [= <-])]; [done|done].
  - done.
  - intros [[H _]|(_ & i' & _ & [=])]; done.
Qed.
End Facts.

(** ** Configuration *)

(** [parts.join(separator)]. *)
Fixpoint join_on (c : ascii) (parts : list string) : string :=
  match parts with
  | [] => ""
  | [part] => part
  | part :: parts => part +:+ String c (join_on c parts)
  end.

Definition without (c : ascii) (s : string) : bool := all_bytes (λ b, negb (Ascii.eqb b c)) s.

Lemma split_on_append c s rest : without c s = true →
  split_on c (s +:+ String c rest) = s :: split_on c rest.
Proof.
  induction s as [|a s IH]; simpl; [by rewrite Ascii.eqb_refl|].
  unfold without. simpl. rewrite andb_true_iff, negb_true_iff. intros [-> Hs]. by rewrite IH.
Qed.

Lemma split_on_without c s : without c s = true → split_on c s = [s].
Proof.
  induction s as [|a s IH]; simpl; [done|].
  unfold without. simpl. rewrite andb_true_iff, negb_true_iff. intros [-> Hs]. by rewrite IH.
Qed.

Lemma split_on_join c parts : parts ≠ [] → Forall (λ s, without c s = true) parts →
  split_on c (join_on c parts) = parts.
Proof.
  intros Hne H. induction H as [|s parts Hs H IH]; [done|].
  destruct parts as [|t parts]; simpl; [by apply split_on_without|].
  rewrite split_on_append by done. f_equal. by apply IH.
Qed.

Lemma split_once_append c s rest : without c s = true →
  split_once c (s +:+ String c rest) = Some (s, rest).
Proof.
  induction s as [|a s IH]; simpl; [by rewrite Ascii.eqb_refl|].
  unfold without. simpl. rewrite andb_true_iff, negb_true_iff. intros [-> Hs]. by rewrite IH.
Qed.

Lemma without_impl (p : ascii → bool) c s : p c = false → all_bytes p s = true → without c s = true.
Proof.
  intros Hc. apply all_bytes_impl. intros b Hb. apply negb_true_iff.
  destruct (Ascii.eqb_spec b c) as [->|]; congruence.
Qed.

Lemma without_append c s t : without c (s +:+ t) = without c s && without c t.
Proof. apply all_bytes_append. Qed.

(** Hexadecimal text reads back. *)
Lemma hex_value_digit d : 0 ≤ d < 16 →
  hex_value (hex_digit d) = d ∧ is_ascii_hexdigit (hex_digit d) = true.
Proof.
  intros Hd. assert (Hall : forallb (λ d, (hex_value (hex_digit d) =? d)
    && is_ascii_hexdigit (hex_digit d)) (map Z.of_nat (List.seq 0 16)) = true) by reflexivity.
  rewrite forallb_forall in Hall. specialize (Hall d).
  rewrite andb_true_iff, Z.eqb_eq in Hall. apply Hall.
  rewrite <- (Z2Nat.id d) by lia. apply in_map, in_seq. lia.
Qed.

Lemma decode_hex_encode bytes : bytes ≠ [] → Forall (λ b, 0 ≤ b < 256) bytes →
  decode_hex_value (hex_encode bytes) = Some bytes.
Proof.
  intros Hne Hb. unfold decode_hex_value.
  assert (Hlen := hex_encode_length bytes).
  assert (is_empty (hex_encode bytes) = false) as ->.
  { apply is_empty_false. rewrite Hlen. destruct bytes; [done|]. rewrite zlen_cons.
    pose proof (zlen_nonneg bytes). lia. }
  rewrite Hlen, Z.mul_comm, Z.mod_mul by lia. simpl.
  assert (all_bytes is_ascii_hexdigit (hex_encode bytes) = true ∧ hex_pairs (hex_encode bytes) = bytes)
    as [-> ->]; [|done].
  clear Hne Hlen. induction Hb as [|b bytes Hb _ [IH1 IH2]]; [done|].
  destruct (byte_nibbles b Hb) as [Hh Hl]. cbn [hex_encode all_bytes hex_pairs].
  destruct (hex_value_digit _ Hh) as [-> ->], (hex_value_digit _ Hl) as [-> ->].
  rewrite IH1, IH2. split; [done|]. f_equal.
  rewrite Z.shiftr_div_pow2 by lia. change 15 with (Z.ones 4). rewrite Z.land_ones by lia.
  change (2 ^ 4) with 16. pose proof (Z.div_mod b 16). lia.
Qed.

(** An entry of the key set, as it is configured and as it is written. *)
Record key_entry_ok (entry : string * string * list Z) : Prop := {
  entry_key_id : valid_key_id entry.1.1 = true;
  entry_product : is_ok (ProductId_new entry.1.2) = true;
  entry_secret : MINIMUM_KEY_BYTES ≤ zlen entry.2;
}.

Definition encode_key (entry : string * string * list Z) : string :=
  entry.1.1 +:+ String "=" (entry.1.2 +:+ String ":" (hex_encode entry.2)).

Definition entry_key (entry : string * string * list Z) : SigningKey :=
  mkSigningKey (mkProductId entry.1.2) entry.2.

Lemma ProductId_new_is_ok v : is_ok (ProductId_new v) = true →
  ProductId_new v = Ok (mkProductId v) ∧ all_bytes product_byte v = true.
Proof. unfold ProductId_new. destruct (_ && _) eqn:H; [|done]. rewrite !andb_true_iff in H. tauto. Qed.

(** Configuration succeeds exactly on valid entries under distinct identifiers. *)
Lemma configure_keys_Ok keys configured result :
  configure_keys keys configured = Ok result ↔
  Forall key_entry_ok keys ∧ NoDup ((λ e, e.1.1) <$> keys)
  ∧ (∀ e, e ∈ keys → configured !! e.1.1 = None)
  ∧ result = foldl (λ m e, <[e.1.1 := entry_key e]> m) configured keys.
Proof.
  revert configured. induction keys as [|[[key_id product] secret] keys IH]; intros configured; simpl.
  { split; [intros [= ->]|by intros (_ & _ & _ & ->)]. split_and!; try done; [constructor|].
    intros e He. by apply elem_of_nil in He. }
  rewrite Forall_cons, NoDup_cons. split.
  - destruct (valid_key_id key_id) eqn:Hk; simpl; [|done].
    destruct (ProductId_new product) as [p|] eqn:Hp; simpl; [|done].
    pose proof (ProductId_new_is_ok product) as Hpp. rewrite Hp in Hpp.
    destruct (Hpp eq_refl) as [[= ->] _].
    destruct (Z.ltb_spec (zlen secret) MINIMUM_KEY_BYTES); [done|].
    destruct (configured !! key_id) eqn:Hc; [done|]. rewrite IH. intros (Hall & Hnd & Hfree & ->).
    split_and!; try done.
    + constructor; simpl; [done|by rewrite Hp|done].
    + intros (e & He & Hin)%list_elem_of_fmap. specialize (Hfree e Hin).
      rewrite <- He in Hfree. by rewrite lookup_insert_eq in Hfree.
    + intros e [->|Hin]%elem_of_cons; [done|]. specialize (Hfree e Hin).
      by apply lookup_insert_None in Hfree as [? _].
  - intros ([[Hk Hp Hs] Hall] & [Hni Hnd] & Hfree & ->). simpl in *. rewrite Hk. simpl.
    apply ProductId_new_is_ok in Hp as [-> _]. simpl.
    rewrite (proj2 (Z.ltb_ge _ _)) by done.
    pose proof (Hfree (key_id, product, secret) (list_elem_of_here _ _)) as Hc. simpl in Hc.
    rewrite Hc. apply IH. split_and!; try done. intros e Hin. apply lookup_insert_None.
    split; [apply Hfree; by right|]. intros Heq. apply Hni. rewrite Heq.
    by apply (list_elem_of_fmap_2 (λ e : string * string * list Z, e.1.1)).
Qed.

Lemma decode_encode_key e : key_entry_ok e → Forall (λ b, 0 ≤ b < 256) e.2 →
  decode_key (encode_key e) = Ok e ∧ without "," (encode_key e) = true.
Proof.
  destruct e as [[key_id product] secret]. intros [Hk Hp Hs] Hb. simpl in *.
  assert (Hkb : all_bytes key_byte key_id = true)
    by (unfold valid_key_id in Hk; rewrite !andb_true_iff in Hk; tauto).
  apply ProductId_new_is_ok in Hp as [_ Hpb]. unfold decode_key, encode_key. simpl.
  rewrite split_once_append by (eapply without_impl; [|done]; done). simpl.
  rewrite split_once_append by (eapply without_impl; [|done]; done). simpl.
  rewrite decode_hex_encode by (done || (intros ->; by vm_compute in Hs)). split; [done|].
  rewrite without_append, (without_impl key_byte) by done. unfold without. simpl.
  rewrite all_bytes_append. fold (without "," product).
  rewrite (without_impl product_byte) by done. simpl.
  apply (without_impl lower_hexdigit); [done|]. by apply hex_encode_digits.
Qed.

(** The configured keys are those that were written.  For valid entries under
    distinct identifiers, the encoded key set is read back as a verifier with exactly
    those keys: each identifier has the product and the secret of its entry, and no
    other identifier has a key; the keys of any verifier so built are valid. *)
Theorem encoded_keys_roundtrip entries skew :
  entries ≠ [] → Forall key_entry_ok entries → NoDup ((λ e, e.1.1) <$> entries) →
  Forall (λ e, Forall (λ b, 0 ≤ b < 256) e.2) entries → 0 < skew →
  ∃ verifier, from_encoded_keys (join_on "," (encode_key <$> entries)) skew = Ok verifier
    ∧ maximum_clock_skew verifier = skew ∧ keys_valid verifier
    ∧ ∀ key_id key, verifier_keys verifier !! key_id = Some key ↔
        ∃ e, e ∈ entries ∧ e.1.1 = key_id ∧ entry_key e = key.
Proof.
  intros Hne Hall Hnd Hbytes Hskew. unfold from_encoded_keys.
  assert (Hboth : Forall (λ e, decode_key (encode_key e) = Ok e ∧ without "," (encode_key e) = true)
    entries).
  { rewrite Forall_forall in *. intros e He. by apply decode_encode_key; [apply Hall|apply Hbytes]. }
  rewrite split_on_join; [|by destruct entries|].
  2:{ apply Forall_fmap. eapply Forall_impl; [done|]. by intros e [_ H]. }
  assert (collect_results decode_key (encode_key <$> entries) = Ok entries) as ->.
  { apply collect_results_Ok. clear -Hboth. induction Hboth as [|e l [H _] _ IH]; by constructor. }
  simpl. unfold WorkloadIdentityVerifier_new. rewrite (proj2 (Z.eqb_neq _ _)) by lia.
  rewrite (proj2 (configure_keys_Ok entries ∅ _)) by (split_and!; done). simpl.
  assert (Hlook : ∀ (m : gmap string SigningKey) key_id key, NoDup ((λ e, e.1.1) <$> entries) →
    (∀ e, e ∈ entries → m !! e.1.1 = None) →
    foldl (λ m e, <[e.1.1 := entry_key e]> m) m entries !! key_id = Some key ↔
    m !! key_id = Some key ∨ ∃ e, e ∈ entries ∧ e.1.1 = key_id ∧ entry_key e = key).
  { clear. induction entries as [|e l IH]; intros m key_id key; simpl.
    - intros _ _. split; [by left|intros [?|(e & He & _)]; [done|by apply elem_of_nil in He]].
    - rewrite NoDup_cons. intros [Hni Hnd] Hfree. rewrite IH; [|done|].
      + rewrite lookup_insert_Some. setoid_rewrite elem_of_cons. split.
        * intros [[[<- <-]|[? ?]]|(e' & ? & ? & ?)]; [right; eauto|by left|right; eauto].
        * intros [Hm|(e' & [->|Hin] & <- & <-)]; [|left; by left|right; eauto].
          left. right. split; [|done]. intros <-. specialize (Hfree e (list_elem_of_here _ _)). congruence.
      + intros e' Hin. apply lookup_insert_None. split; [apply Hfree; by right|].
        intros Heq. apply Hni. rewrite Heq.
        by apply (list_elem_of_fmap_2 (λ e : string * string * list Z, e.1.1)). }
  set (m := foldl _ _ _) in *.
  assert (Hm : ∀ key_id key, m !! key_id = Some key ↔
    ∃ e, e ∈ entries ∧ e.1.1 = key_id ∧ entry_key e = key).
  { intros key_id key. subst m. rewrite Hlook by done. rewrite lookup_empty. naive_solver. }
  rewrite bool_decide_eq_false_2.
  2:{ intros Hempty. destruct entries as [|e l]; [done|].
      assert (m !! e.1.1 = Some (entry_key e)) as H by (apply Hm; exists e; by split_and!; [left|..]).
      by rewrite Hempty in H. }
  exists (mkWorkloadIdentityVerifier m skew). split_and!; try done.
  intros key_id key (e & Hin & <- & _)%Hm. rewrite Forall_forall in Hall. by destruct (Hall e Hin).
Qed.

(** ** Witnesses *)

(** A toy MAC: the first 32 bytes of the message. *)
Definition sample_hmac (key message : list Z) : option (list Z) :=
  Some (take 32 (message ++ replicate 32 0)).

Definition sample_entries : list (string * string * list Z) := [("key-1", "prod", replicate 32 7)].

Definition sample_verifier : WorkloadIdentityVerifier :=
  mkWorkloadIdentityVerifier {[ "key-1" := mkSigningKey (mkProductId "prod") (replicate 32 7) ]}
    (from_secs 60).

Definition sample_target : Target := mkTarget "GET" "/v1/ocr/jobs/job_1" (Some "/v1/ocr/jobs/job_1").

Definition sample_headers : HeaderMap :=
  mkHeaderMap (λ _, None) (λ name,
    if String.eqb name KEY_ID_HEADER then Some "key-1"
    else if String.eqb name TENANT_ID_HEADER then Some "ten_a"
    else if String.eqb name TIMESTAMP_HEADER then Some "1000"
    else if String.eqb name SIGNATURE_HEADER then
      Some (hex_encode (take 32 (string_bytes (canonical_message "key-1" "ten_a" 1000 sample_target)
                                 ++ replicate 32 0)))
    else None).

Definition sample_identity : TrustedIdentity := mkTrustedIdentity (mkProductId "prod") (mkTenantId "ten_a").

Theorem encoded_keys_roundtrip_witness :
  ∃ verifier, from_encoded_keys (join_on "," (encode_key <$> sample_entries)) 1 = Ok verifier
    ∧ verifier_keys verifier !! "key-1" = Some (mkSigningKey (mkProductId "prod") (replicate 32 7)).
Proof.
  assert (H1 : Forall key_entry_ok sample_entries) by (repeat constructor; by vm_compute).
  assert (H2 : NoDup ((λ e, e.1.1) <$> sample_entries)) by (apply NoDup_singleton).
  assert (H3 : Forall (λ e, Forall (λ b, 0 ≤ b < 256) e.2) sample_entries)
    by (repeat constructor; by vm_compute).
  destruct (encoded_keys_roundtrip sample_entries 1 ltac:(done) H1 H2 H3 ltac:(done))
    as (verifier & Hv & _ & _ & Hkeys).
  exists verifier. split; [done|]. apply Hkeys.
  exists ("key-1", "prod", replicate 32 7). by split_and!; [left|..].
Defined.

Theorem signature_binds_request_witness :
  verify sample_hmac (λ _, true) sample_verifier sample_headers sample_target (from_secs 1010)
    = Some sample_identity
  ∧ Z.abs (from_secs 990 - from_secs 1000) ≤ maximum_clock_skew sample_verifier.
Proof.
  assert (H1 : verify sample_hmac (λ _, true) sample_verifier sample_headers sample_target
    (from_secs 1010) = Some sample_identity) by (vm_compute; reflexivity).
  assert (H2 : verify sample_hmac (λ _, true) sample_verifier sample_headers sample_target
    (from_secs 990) = Some sample_identity) by (vm_compute; reflexivity).
  assert (Hk : keys_valid sample_verifier).
  { intros key_id key H. simpl in H. apply lookup_singleton_Some in H as [<- _]. by vm_compute. }
  assert (Hts : header_str sample_headers TIMESTAMP_HEADER ≫= parse_timestamp (λ _, true) = Some 1000)
    by (vm_compute; reflexivity).
  split; [exact H1|].
  destruct (signature_binds_request sample_hmac (λ _, true) sample_verifier sample_headers
    sample_headers sample_target sample_target _ _ _ _ "key-1" Hk eq_refl eq_refl H1 H2 eq_refl
    eq_refl eq_refl) as [[(_ & _ & _ & ts & Hts1 & _ & _ & H)|(key & _ & b1 & b2 & mac & Hb1 & Hb2 & Hne & _)] _].
  - rewrite Hts in Hts1. injection Hts1 as <-. exact H.
  - destruct Hne. congruence.
Defined.
