(* ===== verification/Mcp.v ===== *)
(** * Mcp: the tools of the agent gateway

    Models [ocr-service/src/mcp.rs]: the gateway keys, the signed access grants over
    canonical JSON, and the JSON-RPC endpoint with its two tools.  [Value] is
    [serde_json::Value]; the JSON text of a number and of a string is
    [number_to_string] and [string_to_string], as [serde_json] writes them, SHA-256
    and the MAC are arguments.  An object is the list of its entries, whose keys are
    distinct.  The store is only read: a request is answered from one database, and the
    state [G] of the object stores behind [read]. *)

From S2P Require Import Prelude Text DomainTypes Identifiers Digest Document StoreTypes.
From S2P Require Import StoreChecks StoreDb StoreJobs Artifacts ApiTypes WorkloadIdentity.

#[local] Open Scope list_scope.
#[local] Open Scope Z_scope.

Definition ACCESS_GRANT_KEY_ID_HEADER : string := "x-ocr-key-id".
Definition ACCESS_GRANT_TENANT_HEADER : string := "x-ocr-tenant-id".
Definition ACCESS_GRANT_SUBJECT_HEADER : string := "x-ocr-subject".
Definition ACCESS_GRANT_TIMESTAMP_HEADER : string := "x-ocr-timestamp".
Definition ACCESS_GRANT_SIGNATURE_HEADER : string := "x-ocr-grant-signature".
Definition MCP_KEY_HEADER : string := "x-mcp-key".

(** ** JSON values *)

Section Json.
Context {Number : Type}.

Inductive Value :=
| Null
| Bool (b : bool)
| Number_ (n : Number)
| String_ (s : string)
| Array (values : list Value)
| Object (entries : list (string * Value)).

(** [value.get(key)] and [value.as_str()]. *)
Definition value_get (key : string) (value : Value) : option Value :=
  match value with
  | Object entries => snd <$> List.find (λ e, String.eqb e.1 key) entries
  | _ => None
  end.

Definition as_str (value : Value) : option string :=
  match value with
  | String_ s => Some s
  | _ => None
  end.

Context (number_to_string : Number → string) (string_to_string : string → string).

(** [parts.join(",")]. *)
Fixpoint join_comma (parts : list string) : string :=
  match parts with
  | [] => ""
  | [part] => part
  | part :: parts => part +:+ "," +:+ join_comma parts
  end.

Definition key_le {A : Type} (a b : string * A) : bool := string_le a.1 b.1.

Definition entry_text (entry : string * string) : string :=
  string_to_string entry.1 +:+ ":" +:+ entry.2.

(** Sorting the keys and looking each one up is sorting the entries by their keys. *)
Fixpoint canonical_json (value : Value) : string :=
  match value with
  | Null => "null"
  | Bool b => if b then "true" else "false"
  | Number_ n => number_to_string n
  | String_ s => string_to_string s
  | Array values => "[" +:+ join_comma (map canonical_json values) +:+ "]"
  | Object entries =>
      let texts := map (λ '(key, value), (key, canonical_json value)) entries in
      "{" +:+ join_comma (map entry_text (sort_by key_le texts)) +:+ "}"
  end.
End Json.
Arguments Value : clear implicits.

(** ** Configuration *)

Module McpAuthenticationConfigurationError.
Inductive McpAuthenticationConfigurationError :=
| EmptyKeySet
| InvalidKeyId
| InvalidProduct
| KeyTooShort
| DuplicateKeyId
| InvalidClockSkew.
End McpAuthenticationConfigurationError.

Notation McpResult := (result McpAuthenticationConfigurationError.McpAuthenticationConfigurationError).

Record OcrAccessGrant := mkOcrAccessGrant {
  grant_product_id : ProductId;
  grant_tenant_id : TenantId;
  grant_subject : string;
}.

Record McpAccessGrantVerifier := mkMcpAccessGrantVerifier {
  grant_keys : gmap string SigningKey;
  grant_clock_skew : Z;
}.

(** The loop of [McpAccessGrantVerifier::new]. *)
Fixpoint configure_grant_keys (keys : list (string * string * list Z))
    (configured : gmap string SigningKey) : McpResult (gmap string SigningKey) :=
  match keys with
  | [] => Ok configured
  | (key_id, product_id, secret) :: keys =>
      if negb (valid_key_id key_id) then Err McpAuthenticationConfigurationError.InvalidKeyId
      else
        let? product_id :=
          map_err (ProductId_new product_id)
            (λ _, McpAuthenticationConfigurationError.InvalidProduct) in
        if zlen secret <? MINIMUM_KEY_BYTES
        then Err McpAuthenticationConfigurationError.KeyTooShort
        else
          match configured !! key_id with
          | Some _ => Err McpAuthenticationConfigurationError.DuplicateKeyId
          | None => configure_grant_keys keys (<[key_id := mkSigningKey product_id secret]> configured)
          end
  end.

Definition McpAccessGrantVerifier_new (keys : list (string * string * list Z)) (maximum_clock_skew : Z)
    : McpResult McpAccessGrantVerifier :=
  if maximum_clock_skew =? 0 then Err McpAuthenticationConfigurationError.InvalidClockSkew
  else
    let? configured := configure_grant_keys keys ∅ in
    if bool_decide (configured = ∅) then Err McpAuthenticationConfigurationError.EmptyKeySet
    else Ok (mkMcpAccessGrantVerifier configured maximum_clock_skew).

Definition parse_key_entry (entry : string) : McpResult (string * string * list Z) :=
  let? (key_id, product_and_secret) :=
    ok_or (split_once "=" entry) McpAuthenticationConfigurationError.InvalidKeyId in
  let? (product_id, secret) :=
    ok_or (split_once ":" product_and_secret) McpAuthenticationConfigurationError.InvalidKeyId in
  let? secret := ok_or (decode_hex_value secret) McpAuthenticationConfigurationError.InvalidKeyId in
  Ok (key_id, product_id, secret).

Definition parse_key_set (encoded : string) : McpResult (list (string * string * list Z)) :=
  collect_results parse_key_entry (split_on "," encoded).

(** [McpAccessGrantVerifier::from_process_environment]: a skew that is missing or not a
    number counts as 60 seconds. *)
Definition grants_from_process_environment (var : string → result VarError string)
    : McpResult McpAccessGrantVerifier :=
  let? encoded :=
    map_err (var "OCR_MCP_ACCESS_GRANT_KEYS")
      (λ _, McpAuthenticationConfigurationError.EmptyKeySet) in
  let skew :=
    from_secs
      (default 60
         (match var "OCR_MCP_ACCESS_GRANT_CLOCK_SKEW_SECONDS" with
          | Ok value => parse_unsigned u64_max value
          | Err _ => None
          end)) in
  let? keys := parse_key_set encoded in
  McpAccessGrantVerifier_new keys skew.

(** The keys of the gateways, in order. *)
Record McpUpstreamKeyVerifier := mkMcpUpstreamKeyVerifier { upstream_keys : list SigningKey }.

Fixpoint configure_upstream_keys (keys : list (string * list Z)) (configured : list SigningKey)
    : McpResult (list SigningKey) :=
  match keys with
  | [] => Ok configured
  | (product_id, secret) :: keys =>
      let? product_id :=
        map_err (ProductId_new product_id) (λ _, McpAuthenticationConfigurationError.InvalidProduct) in
      if zlen secret <? MINIMUM_KEY_BYTES then Err McpAuthenticationConfigurationError.KeyTooShort
      else if existsb (λ key, bool_decide (signing_product key = product_id)) configured
      then Err McpAuthenticationConfigurationError.DuplicateKeyId
      else configure_upstream_keys keys (configured ++ [mkSigningKey product_id secret])
  end.

Definition McpUpstreamKeyVerifier_new (keys : list (string * list Z)) : McpResult McpUpstreamKeyVerifier :=
  let? configured := configure_upstream_keys keys [] in
  if zlen configured =? 0 then Err McpAuthenticationConfigurationError.EmptyKeySet
  else Ok (mkMcpUpstreamKeyVerifier configured).

Definition parse_upstream_entry (entry : string) : McpResult (string * list Z) :=
  let? (product_id, secret) :=
    ok_or (split_once "=" entry) McpAuthenticationConfigurationError.InvalidKeyId in
  let? secret := ok_or (decode_hex_value secret) McpAuthenticationConfigurationError.InvalidKeyId in
  Ok (product_id, secret).

Definition upstream_from_process_environment (var : string → result VarError string)
    : McpResult McpUpstreamKeyVerifier :=
  let? encoded :=
    map_err (var "OCR_MCP_UPSTREAM_KEYS") (λ _, McpAuthenticationConfigurationError.EmptyKeySet) in
  let? keys := collect_results parse_upstream_entry (split_on "," encoded) in
  McpUpstreamKeyVerifier_new keys.

(** ** Verification *)

Definition valid_subject (value : string) : bool :=
  negb (is_empty value) && (strlen value <=? 256) && all_bytes is_ascii_graphic value.

Definition valid_tool_name (value : string) : bool :=
  negb (is_empty value) && (strlen value <=? 64)
  && all_bytes (λ b, is_ascii_lowercase b || is_ascii_digit b || Ascii.eqb b "_") value.

(** The fold looks at every pair of bytes. *)
Definition constant_time_eq (left right : list Z) : bool :=
  if negb (zlen left =? zlen right) then false
  else foldl (λ difference '(l, r), Z.lor difference (Z.lxor l r)) 0 (zip left right) =? 0.

(** [McpUpstreamKeyVerifier::verify]. *)
Definition verify_upstream (self : McpUpstreamKeyVerifier) (headers : HeaderMap) : option ProductId :=
  match header_bytes headers MCP_KEY_HEADER with
  | None => None
  | Some supplied_key =>
      signing_product
        <$> List.find (λ key, constant_time_eq supplied_key (signing_secret key)) (upstream_keys self)
  end.

Section Grants.
Context {Number : Type}.
Context (number_to_string : Number → string) (string_to_string : string → string).
Context (sha256 : list Z → list Z) (hmac : list Z → list Z → option (list Z)).
Context (timestamp_in_range : Z → bool).

Definition grant_message (key_id tenant_id subject : string) (timestamp : Z) (tool : string)
    (arguments : Value Number) : McpResult string :=
  if negb (valid_key_id key_id) || negb (valid_subject subject) || negb (valid_tool_name tool)
  then Err McpAuthenticationConfigurationError.InvalidKeyId
  else
    let? _ := map_err (TenantId_new tenant_id) (λ _, McpAuthenticationConfigurationError.InvalidKeyId) in
    let arguments_digest :=
      sha256_digest (sha256 (string_bytes (canonical_json number_to_string string_to_string arguments))) in
    Ok (key_id +:+ String "010" (tenant_id +:+ String "010" (subject +:+ String "010"
          (show_i64 timestamp +:+ String "010" (tool +:+ String "010" arguments_digest))))).

(** [McpAccessGrantVerifier::verify]. *)
Definition verify_grant (self : McpAccessGrantVerifier) (headers : HeaderMap) (tool : string)
    (arguments : Value Number) (now : Z) : option OcrAccessGrant :=
  match header_str headers ACCESS_GRANT_KEY_ID_HEADER with
  | None => None
  | Some key_id =>
  match grant_keys self !! key_id with
  | None => None
  | Some key =>
  match header_str headers ACCESS_GRANT_TENANT_HEADER with
  | None => None
  | Some tenant =>
  match TenantId_new tenant with
  | Err _ => None
  | Ok tenant_id =>
  match header_str headers ACCESS_GRANT_SUBJECT_HEADER with
  | None => None
  | Some subject =>
  if negb (valid_subject subject) || negb (valid_tool_name tool) then None
  else
  match header_str headers ACCESS_GRANT_TIMESTAMP_HEADER with
  | None => None
  | Some timestamp =>
  match parse_timestamp timestamp_in_range timestamp with
  | None => None
  | Some timestamp =>
  if grant_clock_skew self <? Z.abs (now - from_secs timestamp) then None
  else
  match header_str headers ACCESS_GRANT_SIGNATURE_HEADER with
  | None => None
  | Some signature =>
  match decode_hex signature with
  | None => None
  | Some supplied_signature =>
  match grant_message key_id (TenantId_str tenant_id) subject timestamp tool arguments with
  | Err _ => None
  | Ok message =>
  match hmac (signing_secret key) (string_bytes message) with
  | None => None
  | Some mac =>
      if bool_decide (mac = supplied_signature)
      then Some (mkOcrAccessGrant (signing_product key) tenant_id subject) else None
  end end end end end end end end end end end.
End Grants.

(** ** The endpoint *)

Record Response (Number : Type) := mkResponse { response_status : Z; response_body : Value Number }.
Arguments mkResponse {Number}.
Arguments response_status {Number}.
Arguments response_body {Number}.

Record RpcRequest (Number : Type) := mkRpcRequest {
  rpc_jsonrpc : string;
  rpc_id : Value Number;
  rpc_method : string;
  rpc_params : Value Number;
}.
Arguments mkRpcRequest {Number}.
Arguments rpc_jsonrpc {Number}.
Arguments rpc_id {Number}.
Arguments rpc_method {Number}.
Arguments rpc_params {Number}.

(** [derive(Debug)] on [JobState]. *)
Definition job_state_debug (s : JobState) : string :=
  match s with
  | Accepted => "Accepted"
  | Inspecting => "Inspecting"
  | Processing => "Processing"
  | Validating => "Validating"
  | Cancelling => "Cancelling"
  | Cancelled => "Cancelled"
  | Rejected => "Rejected"
  | Partial => "Partial"
  | ReviewRequired => "ReviewRequired"
  | Completed => "Completed"
  end.

Section Endpoint.
Context {Number G : Type}.
Notation Value := (Value Number).
Notation Response := (Response Number).
(** The numbers of the tool descriptors, the serialized forms of instants and results. *)
Context (number : Z → Number) (time_to_value : Z → Value) (CARGO_PKG_VERSION : string).
Context (result_to_value : DocumentResult Value → option Value).
Context (result_from_slice : list Z → option (DocumentResult Value)).
Context (number_to_string : Number → string) (string_to_string : string → string).
Context (sha256 : list Z → list Z) (hmac : list Z → list Z → option (list Z)).
Context (timestamp_in_range : Z → bool).

Record McpState := mkMcpState {
  mcp_results : option (StoredResultLocator → Z → G → result ResultArtifactError (list Z) * G);
  mcp_upstream_keys : McpUpstreamKeyVerifier;
  mcp_access_grants : McpAccessGrantVerifier;
}.

Definition rpc_error (status : Z) (id : Value) (code message : string) : Response :=
  mkResponse status
    (Object [("jsonrpc", String_ "2.0"); ("id", id);
             ("error", Object [("code", String_ code); ("message", String_ message)])]).

Definition rpc_result (id result : Value) : Response :=
  mkResponse 200 (Object [("jsonrpc", String_ "2.0"); ("id", id); ("result", result)]).

Definition text_content (text : string) : Value :=
  Array [Object [("type", String_ "text"); ("text", String_ text)]].

Definition tool_descriptor (name description : string) : Value :=
  Object [("name", String_ name); ("description", String_ description);
          ("inputSchema",
           Object [("type", String_ "object"); ("additionalProperties", Bool false);
                   ("required", Array [String_ "job_id"]);
                   ("properties",
                    Object [("job_id", Object [("type", String_ "string");
                                               ("minLength", Number_ (number 5));
                                               ("maxLength", Number_ (number 96))])])])].

Definition tool_descriptors : Value :=
  Array [tool_descriptor "get_document_status" "Read the status of one authorized OCR job.";
         tool_descriptor "get_document_result"
           "Read the normalized, untrusted result of one authorized OCR job."].

Definition tool_unavailable (id : Value) : Response :=
  rpc_error 503 id "tool_unavailable" "OCR tool is temporarily unavailable".

Definition document_not_found (id : Value) : Response :=
  rpc_error 404 id "not_found" "document job was not found".

Definition document_result (state : McpState) (grant : OcrAccessGrant) (job_id : JobId)
    (request_id : Value) (db : Db) (g : G) : Response * G :=
  match mcp_results state with
  | None => (rpc_error 503 request_id "tool_unavailable" "OCR result reader is not configured", g)
  | Some read =>
      match find_result (grant_tenant_id grant) (grant_product_id grant) job_id db with
      | Ok ResultLookup.NotFound => (document_not_found request_id, g)
      | Ok (ResultLookup.NotReady _) | Ok (ResultLookup.Unavailable _) =>
          (rpc_error 409 request_id "result_unavailable" "document result is not available", g)
      | Err _ => (tool_unavailable request_id, g)
      | Ok (ResultLookup.Ready locator) =>
          match checked usize_max (loc_content_length locator) with
          | None => (tool_unavailable request_id, g)
          | Some expected_length =>
              if MAXIMUM_RESULT_BYTES <? expected_length then (tool_unavailable request_id, g)
              else
                match read locator MAXIMUM_RESULT_BYTES g with
                | (Err _, g) => (tool_unavailable request_id, g)
                | (Ok bytes, g) =>
                    let digest := sha256_digest (sha256 bytes) in
                    (if negb (zlen bytes =? expected_length)
                        || negb (String.eqb digest (loc_object_digest locator))
                     then tool_unavailable request_id
                     else
                       match result_from_slice bytes with
                       | None => tool_unavailable request_id
                       | Some raw =>
                           match DocumentResult_try_from (mkRawDocumentResult raw) with
                           | Err _ => tool_unavailable request_id
                           | Ok document =>
                               if negb (bool_decide (document_id document = loc_document_id locator))
                                  || negb (bool_decide (document_version document
                                                        = loc_document_version locator))
                               then tool_unavailable request_id
                               else
                                 match result_to_value document with
                                 | None => tool_unavailable request_id
                                 | Some structured_content =>
                                     rpc_result request_id
                                       (Object [("content",
                                                 text_content "OCR result returned as untrusted data.");
                                                ("structuredContent", structured_content)])
                                 end
                           end
                       end, g)
                end
          end
      end
  end.

Definition handle_tool_call (state : McpState) (headers : HeaderMap) (upstream_product : ProductId)
    (request : RpcRequest Number) (now : Z) (db : Db) (g : G) : Response * G :=
  match value_get "name" (rpc_params request) ≫= as_str with
  | None => (rpc_error 400 (rpc_id request) "invalid_params" "tool name is required", g)
  | Some tool =>
      let arguments := default Null (value_get "arguments" (rpc_params request)) in
      match verify_grant number_to_string string_to_string sha256 hmac timestamp_in_range
              (mcp_access_grants state) headers tool arguments now with
      | None =>
          (rpc_error 401 (rpc_id request) "authentication_required" "OCR access grant is required", g)
      | Some grant =>
          if negb (bool_decide (grant_product_id grant = upstream_product))
          then (rpc_error 403 (rpc_id request) "authorization_denied"
                  "OCR access grant is not authorized for this route", g)
          else if negb (String.eqb tool "get_document_status" || String.eqb tool "get_document_result")
          then (rpc_error 400 (rpc_id request) "tool_not_found" "tool is not supported", g)
          else
            match value_get "job_id" arguments ≫= as_str with
            | None => (rpc_error 400 (rpc_id request) "invalid_params" "job ID is required", g)
            | Some job_id =>
                match JobId_new job_id with
                | Err _ => (document_not_found (rpc_id request), g)
                | Ok job_id =>
                    if String.eqb tool "get_document_result"
                    then document_result state grant job_id (rpc_id request) db g
                    else
                      (match find (grant_tenant_id grant) (grant_product_id grant) job_id db with
                       | Ok (Some job) =>
                           rpc_result (rpc_id request)
                             (Object [("content",
                                       text_content ("OCR job status: "
                                                     +:+ job_state_debug (sj_state job)));
                                      ("structuredContent",
                                       Object [("job_id", String_ (JobId_str (sj_job_id job)));
                                               ("status", String_ (job_state_text (sj_state job)));
                                               ("created_at", time_to_value (sj_created_at job))])])
                       | Ok None => document_not_found (rpc_id request)
                       | Err _ => tool_unavailable (rpc_id request)
                       end, g)
                end
            end
      end
  end.

Definition handle_rpc (state : McpState) (headers : HeaderMap) (request : RpcRequest Number) (now : Z)
    (db : Db) (g : G) : Response * G :=
  if bool_decide (is_Some (header_bytes headers "mcp-session-id"))
  then (rpc_error 400 (rpc_id request) "invalid_request" "MCP sessions are not supported", g)
  else
    match verify_upstream (mcp_upstream_keys state) headers with
    | None =>
        (rpc_error 401 (rpc_id request) "authentication_required"
           "gateway authentication is required", g)
    | Some upstream_product =>
        if negb (String.eqb (rpc_jsonrpc request) "2.0")
        then (rpc_error 400 (rpc_id request) "invalid_request" "JSON-RPC version is invalid", g)
        else if String.eqb (rpc_method request) "initialize" then
          (rpc_result (rpc_id request)
             (Object [("protocolVersion", String_ "2026-07-28");
                      ("serverInfo", Object [("name", String_ "document-intelligence-mcp");
                                             ("version", String_ CARGO_PKG_VERSION)]);
                      ("capabilities", Object [("tools", Object [])])]), g)
        else if String.eqb (rpc_method request) "tools/list" then
          (rpc_result (rpc_id request) (Object [("tools", tool_descriptors)]), g)
        else if String.eqb (rpc_method request) "tools/call" then
          handle_tool_call state headers upstream_product request now db g
        else
          (rpc_error 400 (rpc_id request) "method_not_found" "MCP method is not supported", g)
    end.
End Endpoint.
