(* ===== verification/McpFacts.v ===== *)
(** * McpFacts: canonical arguments and authorised tool calls

    The canonical text of JSON arguments determines them up to the order of object
    keys, so a signed grant admits one call; a tool answers only about jobs of the
    tenant and product of the grant. *)

From S2P Require Import Prelude Text DomainTypes Identifiers Digest Document StoreTypes.
From S2P Require Import StoreChecks StoreDb StoreJobs PageWorkflow StoreRun Artifacts ApiTypes.
From S2P Require Import ArtifactsFacts WorkloadIdentity Mcp.

#[local] Open Scope list_scope.
#[local] Open Scope Z_scope.

#[local] Arguments String.append : simpl nomatch.

(** ** Canonical JSON *)

Section Canonical.
Context {Number : Type}.
Notation Value := (Value Number).

(** The induction principle that sees the values inside arrays and objects. *)
Section ValueInd.
Context (P : Value → Prop).
Context (HNull : P Null) (HBool : ∀ b, P (Bool b)) (HNumber : ∀ n, P (Number_ n)).
Context (HString : ∀ s, P (String_ s)) (HArray : ∀ vs, Forall P vs → P (Array vs)).
Context (HObject : ∀ es, Forall (λ e, P e.2) es → P (Object es)).

Fixpoint value_ind (v : Value) : P v :=
  match v with
  | Null => HNull
  | Bool b => HBool b
  | Number_ n => HNumber n
  | String_ s => HString s
  | Array vs =>
      HArray vs ((fix go vs := match vs return Forall P vs with
                               | [] => Forall_nil_2 _
                               | v :: vs => Forall_cons_2 _ _ _ (value_ind v) (go vs)
                               end) vs)
  | Object es =>
      HObject es ((fix go es := match es return Forall (λ e, P e.2) es with
                                | [] => Forall_nil_2 _
                                | e :: es => Forall_cons_2 (λ e, P e.2) _ _ (value_ind e.2) (go es)
                                end) es)
  end.
End ValueInd.

(** The value with the keys of its objects sorted, at every depth. *)
Fixpoint sorted_keys (v : Value) : Value :=
  match v with
  | Array vs => Array (map sorted_keys vs)
  | Object es => Object (sort_by key_le (map (λ '(key, v), (key, sorted_keys v)) es))
  | v => v
  end.

Context (number_to_string : Number → string) (string_to_string : string → string).

(** What follows a value inside an array or an object, or at the end. *)
Definition ends (r : string) : Prop := r = "" ∨ ∃ b t, r = String b t ∧ byte_in ",]}" b = true.

(** What the JSON grammar says of the texts [serde_json] writes: a string is quoted
    and its end is recognisable, a number starts with a digit or a sign and extends to
    the next separator, and both determine what they were written from. *)
Class JsonText := {
  string_quoted : ∀ s, ∃ t, string_to_string s = String "034" t;
  string_delimited : ∀ s1 s2 r1 r2,
    string_to_string s1 +:+ r1 = string_to_string s2 +:+ r2 → s1 = s2 ∧ r1 = r2;
  number_digits : ∀ n, ∃ b t, number_to_string n = String b t
    ∧ is_ascii_digit b || Ascii.eqb b "-" = true;
  number_delimited : ∀ n1 n2 r1 r2, ends r1 → ends r2 →
    number_to_string n1 +:+ r1 = number_to_string n2 +:+ r2 → n1 = n2 ∧ r1 = r2;
}.

Notation canonical_json := (canonical_json number_to_string string_to_string).

(** The text without sorting. *)
Definition member_text (text : Value → string) (e : string * Value) : string :=
  string_to_string e.1 +:+ ":" +:+ text e.2.

Fixpoint json_text (v : Value) : string :=
  match v with
  | Null => "null"
  | Bool b => if b then "true" else "false"
  | Number_ n => number_to_string n
  | String_ s => string_to_string s
  | Array vs => "[" +:+ join_comma (map json_text vs) +:+ "]"
  | Object es => "{" +:+ join_comma (map (λ e, string_to_string e.1 +:+ ":" +:+ json_text e.2) es) +:+ "}"
  end.

(** Sorting by key does not look at the values. *)
Lemma insert_by_map {A B : Type} (f : A → B) x (l : list (string * A)) :
  insert_by key_le (x.1, f x.2) (map (λ e, (e.1, f e.2)) l)
  = map (λ e, (e.1, f e.2)) (insert_by key_le x l).
Proof.
  induction l as [|e l IH]; [done|]. simpl.
  change (key_le (x.1, f x.2) (e.1, f e.2)) with (key_le x e).
  destruct (key_le x e); [done|]. simpl. by rewrite IH.
Qed.

Lemma sort_by_map {A B : Type} (f : A → B) (l : list (string * A)) :
  sort_by key_le (map (λ e, (e.1, f e.2)) l) = map (λ e, (e.1, f e.2)) (sort_by key_le l).
Proof.
  unfold sort_by. induction l as [|e l IH]; [done|]. simpl. by rewrite IH, <- (insert_by_map f e).
Qed.

Lemma map_pair {A B : Type} (f : A → B) (l : list (string * A)) :
  map (λ '(key, v), (key, f v)) l = map (λ e, (e.1, f e.2)) l.
Proof. apply map_ext. by intros []. Qed.

Lemma map_values_ext {A B : Type} (f g : A → B) (l : list (string * A)) :
  Forall (λ e, f e.2 = g e.2) l → map (λ e, (e.1, f e.2)) l = map (λ e, (e.1, g e.2)) l.
Proof. induction 1 as [|e l H _ IH]; [done|]. simpl. by rewrite H, IH. Qed.

Lemma canonical_json_sorted v : canonical_json v = json_text (sorted_keys v).
Proof.
  induction v as [| | | |vs IH|es IH] using value_ind; try done.
  - simpl. do 3 f_equal. rewrite map_map. induction IH as [|v vs Hv _ IH]; [done|]. simpl. congruence.
  - simpl. do 3 f_equal. rewrite !map_pair, !sort_by_map, !map_map.
    pose proof IH as Hs. rewrite <- (Forall_sort_by key_le) in Hs.
    induction Hs as [|e l He _ IHl]; [done|]. simpl. rewrite IHl. f_equal.
    unfold entry_text. simpl. by rewrite He.
Qed.

(** The first byte of a text tells the constructor. *)
Definition shape (v : Value) : nat :=
  match v with
  | Null => 0 | Bool true => 1 | Bool false => 2 | Number_ _ => 3 | String_ _ => 4
  | Array _ => 5 | Object _ => 6
  end.

Definition byte_shape (b : ascii) : nat :=
  if Ascii.eqb b "n" then 0 else if Ascii.eqb b "t" then 1 else if Ascii.eqb b "f" then 2
  else if is_ascii_digit b || Ascii.eqb b "-" then 3 else if Ascii.eqb b "034" then 4
  else if Ascii.eqb b "[" then 5 else if Ascii.eqb b "{" then 6 else 7.

Lemma number_byte_shape b : is_ascii_digit b || Ascii.eqb b "-" = true → byte_shape b = 3%nat.
Proof.
  intros H. unfold byte_shape. rewrite H.
  destruct (Ascii.eqb_spec b "n") as [->|]; [by vm_compute in H|].
  destruct (Ascii.eqb_spec b "t") as [->|]; [by vm_compute in H|].
  destruct (Ascii.eqb_spec b "f") as [->|]; [by vm_compute in H|done].
Qed.

Context `{JsonText}.

Lemma json_text_head v : ∃ b t, json_text v = String b t ∧ byte_shape b = shape v.
Proof.
  destruct v as [|[]|n|s|vs|es]; simpl; try (by eexists _, _; split; [reflexivity|]).
  - destruct (number_digits n) as (b & t & -> & Hb). exists b, t.
    split; [done|]. by apply number_byte_shape.
  - destruct (string_quoted s) as [t ->]. by eexists _, _.
Qed.

Lemma json_text_not_ends v r : ends r → ∀ t, r ≠ json_text v +:+ t.
Proof.
  intros Hr t He. destruct (json_text_head v) as (b & u & Hv & Hb). rewrite Hv in He.
  destruct Hr as [->|(b' & t' & -> & Hin)]; [done|]. injection He as -> _.
  unfold byte_in in Hin. simpl in Hin. rewrite !orb_true_iff in Hin.
  destruct Hin as [Hin|[Hin|[Hin|Hin]]]; try done; apply Ascii.eqb_eq in Hin as ->;
    vm_compute in Hb; by destruct v as [|[]| | | |].
Qed.

(** Texts that can be told apart in front of a separator. *)
Definition delimited {A : Type} (text : A → string) (a : A) : Prop := ∀ b r1 r2,
  ends r1 → ends r2 → text a +:+ r1 = text b +:+ r2 → a = b ∧ r1 = r2.

(** A list of such texts can be told apart, up to its closing bracket. *)
Lemma join_delimited {A : Type} (text : A → string) close l :
  (close = "]"%char ∨ close = "}"%char) →
  (∀ a r, ends r → ∀ t, r ≠ text a +:+ t) → Forall (delimited text) l →
  ∀ k r1 r2, join_comma (map text l) +:+ String close r1 = join_comma (map text k) +:+ String close r2 →
  l = k ∧ r1 = r2.
Proof.
  intros Hclose Hhead Hl.
  assert (Hce : ∀ r, ends (String close r)).
  { intros r. right. exists close, r. split; [done|]. by destruct Hclose as [-> | ->]. }
  assert (Hcomma : ∀ r, ends (String "," r)) by (intros r; right; by exists ","%char, r).
  assert (Hnc : close ≠ ","%char) by by destruct Hclose as [-> | ->].
  induction Hl as [|a l Ha Hl IH]; intros [|b k] r1 r2.
  - simpl. by intros [= ->].
  - intros He. exfalso. simpl in He. destruct (map text k) as [|s k'].
    + by apply (Hhead b _ (Hce r1)) in He.
    + rewrite !append_assoc in He. by apply (Hhead b _ (Hce r1)) in He.
  - intros He. exfalso. symmetry in He. simpl in He. destruct (map text l) as [|s l'].
    + by apply (Hhead a _ (Hce r2)) in He.
    + rewrite !append_assoc in He. by apply (Hhead a _ (Hce r2)) in He.
  - destruct l as [|a' l], k as [|b' k]; cbn [map join_comma].
    + intros He. apply Ha in He as [-> He]; [|done..]. by injection He as ->.
    + rewrite append_assoc. intros He. apply Ha in He as [-> He]; [|done|apply Hcomma].
      by injection He as ?.
    + rewrite append_assoc. intros He. apply Ha in He as [-> He]; [|apply Hcomma|done].
      by injection He as ?.
    + rewrite !append_assoc. intros He. apply Ha in He as [-> He]; [|apply Hcomma..].
      simpl in He. injection He as He. destruct (IH (b' :: k) r1 r2 He) as [Hk ->]. by rewrite Hk.
Qed.

Lemma json_text_shape v w r1 r2 : json_text v +:+ r1 = json_text w +:+ r2 → shape w = shape v.
Proof.
  destruct (json_text_head v) as (b1 & t1 & -> & <-), (json_text_head w) as (b2 & t2 & -> & <-).
  by intros [= -> _].
Qed.

Lemma json_text_delimited v : delimited json_text v.
Proof.
  induction v as [|b|n|s|vs IH|es IH] using value_ind; intros w r1 r2 Hr1 Hr2 He;
    apply json_text_shape in He as Hshape.
  - destruct w as [|[]| | | |]; try done. simpl in He. by injection He as ->.
  - destruct b, w as [|[]| | | |]; try done; simpl in He; by injection He as ->.
  - destruct w as [|[]|n'| | |]; try done. simpl in He. apply number_delimited in He as [-> ->]; done.
  - destruct w as [|[]| |s'| |]; try done. simpl in He. apply string_delimited in He as [-> ->]; done.
  - destruct w as [|[]| | |ws|]; try done. simpl in He. injection He as He. rewrite !append_assoc in He.
    simpl in He. apply join_delimited in He as [-> ->]; [done|by left|apply json_text_not_ends|done].
  - destruct w as [|[]| | | |fs]; try done. simpl in He. injection He as He. rewrite !append_assoc in He.
    simpl in He. apply join_delimited in He as [-> ->]; [done|by right| |].
    + intros e r Hr t Ht. destruct (string_quoted e.1) as [u Hu]. rewrite Hu in Ht.
      destruct Hr as [->|(b & t' & -> & Hin)]; [done|]. injection Ht as -> _. by vm_compute in Hin.
    + eapply Forall_impl; [exact IH|]. intros e Hv f q1 q2 Hq1 Hq2 Heq. simpl in Heq.
      rewrite !append_assoc in Heq. apply string_delimited in Heq as [Hk Heq]. simpl in Heq.
      injection Heq as Heq. apply Hv in Heq as [Hvv ->]; [|done..]. split; [|done].
      destruct e, f. simpl in *. by subst.
Qed.

(** Canonical JSON is canonical.  Two values have the same canonical text exactly
    when they are equal up to the order of the keys of their objects, at every depth. *)
Theorem canonical_json_canonical v w :
  canonical_json v = canonical_json w ↔ sorted_keys v = sorted_keys w.
Proof.
  rewrite !canonical_json_sorted. split; [|by intros ->].
  intros He. assert (ends "") as Hend by by left.
  apply (json_text_delimited _ (sorted_keys w) "" "" Hend Hend). by rewrite He.
Qed.
End Canonical.

(** ** Keys *)

(** The comparison of keys is equality. *)
Lemma constant_time_eq_spec left right :
  Forall (λ b, 0 ≤ b < 256) left → Forall (λ b, 0 ≤ b < 256) right →
  constant_time_eq left right = true ↔ left = right.
Proof.
  intros Hl Hr. unfold constant_time_eq.
  assert (Hfold : ∀ l r d, Forall (λ b, 0 ≤ b < 256) l → Forall (λ b, 0 ≤ b < 256) r → 0 ≤ d →
    length l = length r →
    foldl (λ difference '(l, r), Z.lor difference (Z.lxor l r)) d (zip l r) = 0 ↔ d = 0 ∧ l = r).
  { induction l as [|a l IH]; intros [|b r] d Hl' Hr' Hd Hlen; try done; simpl; [naive_solver|].
    inversion Hl' as [|? ? Ha Hl'']; inversion Hr' as [|? ? Hb Hr'']; subst.
    assert (0 ≤ Z.lxor a b) by (apply Z.lxor_nonneg; lia).
    rewrite IH; [|done|done|by apply Z.lor_nonneg|by injection Hlen].
    rewrite Z.lor_eq_0_iff, Z.lxor_eq_0_iff. naive_solver. }
  destruct (Z.eqb_spec (zlen left) (zlen right)) as [Heq|Hne]; simpl.
  - rewrite Z.eqb_eq, Hfold; [naive_solver|done|done|done|]. unfold zlen in Heq. lia.
  - split; [done|]. intros ->. done.
Qed.

(** ** Grants *)

Section Grants.
Context {Number : Type} (number_to_string : Number → string) (string_to_string : string → string).
Context (sha256 : list Z → list Z) (hmac : list Z → list Z → option (list Z)).
Context (timestamp_in_range : Z → bool).

Notation verify_grant := (verify_grant number_to_string string_to_string sha256 hmac timestamp_in_range).
Notation grant_message := (grant_message number_to_string string_to_string sha256).
Notation canonical_json := (canonical_json number_to_string string_to_string).

Record granted (self : McpAccessGrantVerifier) (headers : HeaderMap) (tool : string)
    (arguments : Value Number) (now : Z) (key_id : string) (key : SigningKey) (tenant : TenantId)
    (subject : string) (timestamp : Z) (message : string) (mac : list Z) : Prop := {
  granted_key_id : header_str headers ACCESS_GRANT_KEY_ID_HEADER = Some key_id;
  granted_key : grant_keys self !! key_id = Some key;
  granted_tenant : header_str headers ACCESS_GRANT_TENANT_HEADER = Some (TenantId_str tenant);
  granted_tenant_valid : id_valid tenant;
  granted_subject : header_str headers ACCESS_GRANT_SUBJECT_HEADER = Some subject;
  granted_timestamp : ∃ value, header_str headers ACCESS_GRANT_TIMESTAMP_HEADER = Some value
    ∧ parse_timestamp timestamp_in_range value = Some timestamp;
  granted_recently : Z.abs (now - from_secs timestamp) ≤ grant_clock_skew self;
  granted_signature : ∃ value, header_str headers ACCESS_GRANT_SIGNATURE_HEADER = Some value
    ∧ decode_hex value = Some mac;
  granted_message : grant_message key_id (TenantId_str tenant) subject timestamp tool arguments
    = Ok message;
  granted_mac : hmac (signing_secret key) (string_bytes message) = Some mac;
}.

Lemma verify_grant_Some self headers tool arguments now grant :
  verify_grant self headers tool arguments now = Some grant →
  ∃ key_id key tenant subject timestamp message mac,
    granted self headers tool arguments now key_id key tenant subject timestamp message mac
    ∧ grant = mkOcrAccessGrant (signing_product key) tenant subject.
Proof.
  unfold Mcp.verify_grant.
  destruct (header_str headers ACCESS_GRANT_KEY_ID_HEADER) as [key_id|] eqn:Hk; [|done].
  destruct (grant_keys self !! key_id) as [key|] eqn:Hkey; [|done].
  destruct (header_str headers ACCESS_GRANT_TENANT_HEADER) as [tenant|] eqn:Ht; [|done].
  destruct (TenantId_new tenant) as [t|] eqn:Hnew; [|done].
  destruct (header_str headers ACCESS_GRANT_SUBJECT_HEADER) as [subject|] eqn:Hs; [|done].
  destruct (_ || _); [done|].
  destruct (header_str headers ACCESS_GRANT_TIMESTAMP_HEADER) as [ts|] eqn:Hts; [|done].
  destruct (parse_timestamp _ ts) as [n|] eqn:Hn; [|done].
  destruct (Z.ltb_spec (grant_clock_skew self) (Z.abs (now - from_secs n))); [done|].
  destruct (header_str headers ACCESS_GRANT_SIGNATURE_HEADER) as [sg|] eqn:Hsg; [|done].
  destruct (decode_hex sg) as [supplied|] eqn:Hd; [|done].
  destruct (grant_message _ _ _ _ _ _) as [message|] eqn:Hmsg; [|done].
  destruct (hmac _ _) as [mac|] eqn:Hmac; [|done].
  destruct (bool_decide _) eqn:Heq; [|done]. apply bool_decide_eq_true in Heq as <-.
  apply TenantId_new_Ok in Hnew as [-> Hv]. intros [= <-].
  exists key_id, key, t, subject, n, message, mac. split; [|done]. constructor; eauto.
Qed.

Lemma graphic_single_line s : all_bytes is_ascii_graphic s = true → single_line s = true.
Proof.
  apply all_bytes_impl. intros b. destruct (Ascii.eqb_spec b "010") as [->|]; [by vm_compute|done].
Qed.

Lemma grant_message_Ok key_id tenant subject timestamp tool arguments message :
  grant_message key_id tenant subject timestamp tool arguments = Ok message ↔
  valid_key_id key_id = true ∧ valid_subject subject = true ∧ valid_tool_name tool = true
  ∧ is_ok (TenantId_new tenant) = true
  ∧ message = key_id +:+ String "010" (tenant +:+ String "010" (subject +:+ String "010"
      (show_i64 timestamp +:+ String "010" (tool +:+ String "010"
        (sha256_digest (sha256 (string_bytes (canonical_json arguments)))))))).
Proof.
  unfold Mcp.grant_message. destruct (_ || _ || _) eqn:Hbad.
  - split; [done|]. intros (H1 & H2 & H3 & _). by rewrite H1, H2, H3 in Hbad.
  - rewrite !orb_false_iff, !negb_false_iff in Hbad. destruct Hbad as [[H1 H2] H3].
    destruct (TenantId_new tenant); simpl; [|naive_solver]. split; [intros [= <-]|intros (_ & _ & _ & _ & ->)]; done.
Qed.

(** The bytes whose MAC a granted call carries. *)
Definition signed_grant (headers : HeaderMap) (tool : string) (arguments : Value Number) : option (list Z) :=
  key_id ← header_str headers ACCESS_GRANT_KEY_ID_HEADER;
  tenant ← header_str headers ACCESS_GRANT_TENANT_HEADER;
  subject ← header_str headers ACCESS_GRANT_SUBJECT_HEADER;
  value ← header_str headers ACCESS_GRANT_TIMESTAMP_HEADER;
  timestamp ← parse_timestamp timestamp_in_range value;
  message ← result_ok (grant_message key_id tenant subject timestamp tool arguments);
  Some (string_bytes message).

Lemma granted_signed self headers tool arguments now key_id key tenant subject timestamp message mac :
  granted self headers tool arguments now key_id key tenant subject timestamp message mac →
  signed_grant headers tool arguments = Some (string_bytes message).
Proof.
  intros [Hk _ Ht _ Hs (value & Hts & Hn) _ _ Hm _]. unfold signed_grant.
  rewrite Hk, Ht, Hs, Hts. simpl. rewrite Hn. simpl. by rewrite Hm.
Qed.

(** C21: a grant admits one tool call.  When two calls are granted under the same key and
    signature, they have the same product, tenant and subject, the same tool, and
    arguments that differ at most in the order of object keys, within the clock skew of
    each other - or the messages of these two calls differ and have the same MAC under
    the key, or the canonical texts of these two arguments differ and have the same
    SHA-256 digest. *)
Theorem grant_binds_call `{JsonText Number number_to_string string_to_string} self headers1 headers2
    tool1 tool2 arguments1 arguments2 now1 now2 grant1 grant2 key_id :
  digests sha256 →
  verify_grant self headers1 tool1 arguments1 now1 = Some grant1 →
  verify_grant self headers2 tool2 arguments2 now2 = Some grant2 →
  header_str headers1 ACCESS_GRANT_KEY_ID_HEADER = Some key_id →
  header_str headers2 ACCESS_GRANT_KEY_ID_HEADER = Some key_id →
  header_str headers1 ACCESS_GRANT_SIGNATURE_HEADER = header_str headers2 ACCESS_GRANT_SIGNATURE_HEADER →
  (grant1 = grant2 ∧ tool1 = tool2 ∧ sorted_keys arguments1 = sorted_keys arguments2
   ∧ Z.abs (now1 - now2) ≤ 2 * grant_clock_skew self)
  ∨ (∃ key, grant_keys self !! key_id = Some key
       ∧ forged hmac key (signed_grant headers1 tool1 arguments1) (signed_grant headers2 tool2 arguments2))
  ∨ (canonical_json arguments1 ≠ canonical_json arguments2
     ∧ sha256 (string_bytes (canonical_json arguments1)) = sha256 (string_bytes (canonical_json arguments2))).
Proof.
  intros Hsha Hv1 Hv2 Hid1 Hid2 Hsig.
  apply verify_grant_Some in Hv1 as (k1 & key1 & t1 & s1 & n1 & m1 & mac1 & Hg1 & ->).
  apply verify_grant_Some in Hv2 as (k2 & key2 & t2 & s2 & n2 & m2 & mac2 & Hg2 & ->).
  rewrite (granted_signed _ _ _ _ _ _ _ _ _ _ _ _ Hg1), (granted_signed _ _ _ _ _ _ _ _ _ _ _ _ Hg2).
  destruct Hg1 as [Hk1 Hkey1 _ Ht1 _ (ts1 & _ & Hn1) Hnow1 (g1 & Hg1 & Hd1) Hm1 Hmac1].
  destruct Hg2 as [Hk2 Hkey2 _ Ht2 _ (ts2 & _ & Hn2) Hnow2 (g2 & Hg2 & Hd2) Hm2 Hmac2].
  assert (k1 = key_id) as -> by congruence. assert (k2 = key_id) as -> by congruence.
  assert (key2 = key1) as -> by congruence. assert (mac2 = mac1) as -> by congruence.
  apply grant_message_Ok in Hm1 as (Hv & Hs1 & Htool1 & _ & Hm1).
  apply grant_message_Ok in Hm2 as (_ & Hs2 & Htool2 & _ & Hm2).
  destruct (decide (string_bytes m1 = string_bytes m2)) as [He|Hne].
  2:{ right. left. exists key1. split; [done|]. by exists (string_bytes m1), (string_bytes m2), mac1. }
  apply string_bytes_inj in He. rewrite Hm1, Hm2 in He.
  assert (Htl : ∀ t : TenantId, id_valid t → single_line (TenantId_str t) = true)
    by (intros t Ht; eapply TenantId_single_line; exact Ht).
  assert (Hsl : ∀ s, valid_subject s = true → single_line s = true)
    by (intros s Hs; apply graphic_single_line; unfold valid_subject in Hs; rewrite !andb_true_iff in Hs; tauto).
  assert (Hll : ∀ s, valid_tool_name s = true → single_line s = true).
  { intros s Hs. unfold valid_tool_name in Hs. rewrite !andb_true_iff in Hs. destruct Hs as [_ Hs].
    revert Hs. apply all_bytes_impl. intros b. destruct (Ascii.eqb_spec b "010") as [->|]; [by vm_compute|done]. }
  apply cut_unique in He as [_ He]; [|by apply valid_key_id_single_line..].
  apply cut_unique in He as [Ht He]; [|by apply Htl..].
  apply cut_unique in He as [<- He]; [|by apply Hsl..].
  apply cut_unique in He as [Hn He]; [|apply show_i64_single_line..].
  apply cut_unique in He as [<- He]; [|by apply Hll..].
  apply show_i64_inj in Hn as <-; [|by eapply parse_timestamp_bounds..].
  assert (t1 = t2) as <- by (by apply (id_str_inj (T := TenantId))).
  assert (Hhex : sha256 (string_bytes (canonical_json arguments1))
    = sha256 (string_bytes (canonical_json arguments2))).
  { unfold sha256_digest in He. injection He as He. by apply hex_encode_inj in He; [|apply Hsha..]. }
  destruct (decide (canonical_json arguments1 = canonical_json arguments2)) as [Hc|Hne];
    [|right; right; by split].
  left. split_and!; [done|done| |lia]. by apply (canonical_json_canonical number_to_string string_to_string).
Qed.
End Grants.

(** ** Calls *)

Section Calls.
Context {Number G : Type} (number : Z → Number) (time_to_value : Z → Value Number).
Context (CARGO_PKG_VERSION : string).
Context (result_to_value : DocumentResult (Value Number) → option (Value Number)).
Context (result_from_slice : list Z → option (DocumentResult (Value Number))).
Context (number_to_string : Number → string) (string_to_string : string → string).
Context (sha256 : list Z → list Z) (hmac : list Z → list Z → option (list Z)).
Context (timestamp_in_range : Z → bool).

Notation handle_rpc := (handle_rpc number time_to_value CARGO_PKG_VERSION result_to_value
  result_from_slice number_to_string string_to_string sha256 hmac timestamp_in_range).
Notation verify_grant := (verify_grant number_to_string string_to_string sha256 hmac timestamp_in_range).

(** What the status tool says of a job. *)
Definition status_answer (id : Value Number) (job : StoredJob) : Response Number :=
  rpc_result id
    (Object [("content", text_content ("OCR job status: " +:+ job_state_debug (sj_state job)));
             ("structuredContent",
              Object [("job_id", String_ (JobId_str (sj_job_id job)));
                      ("status", String_ (job_state_text (sj_state job)));
                      ("created_at", time_to_value (sj_created_at job))])]).

Definition result_answer (id structured_content : Value Number) : Response Number :=
  rpc_result id
    (Object [("content", text_content "OCR result returned as untrusted data.");
             ("structuredContent", structured_content)]).

(** The status a job of the grant's product and tenant has in the database. *)
Definition answers_status (grant : OcrAccessGrant) (job_id : JobId) (db : Db) (id : Value Number)
    (response : Response Number) : Prop :=
  ∃ row job, ocr_jobs db !! JobId_str job_id = Some row
    ∧ jr_tenant_id row = TenantId_str (grant_tenant_id grant)
    ∧ jr_product_id row = ProductId_str (grant_product_id grant)
    ∧ jr_status row = job_state_text (sj_state job) ∧ response = status_answer id job.

(** A document with the digest and identity of the job's published result. *)
Definition answers_result (grant : OcrAccessGrant) (job_id : JobId) (db : Db) (id : Value Number)
    (response : Response Number) : Prop :=
  ∃ locator bytes raw document content,
    find_result (grant_tenant_id grant) (grant_product_id grant) job_id db
      = Ok (ResultLookup.Ready locator)
    ∧ zlen bytes = loc_content_length locator
    ∧ sha256_digest (sha256 bytes) = loc_object_digest locator
    ∧ result_from_slice bytes = Some raw ∧ DocumentResult_try_from (mkRawDocumentResult raw) = Ok document
    ∧ document_id document = loc_document_id locator
    ∧ document_version document = loc_document_version locator
    ∧ result_to_value document = Some content ∧ response = result_answer id content.

Lemma document_result_200 state grant job_id id db (g g' : G) response :
  document_result result_to_value result_from_slice sha256 state grant job_id id db g = (response, g') →
  response_status response = 200 → answers_result grant job_id db id response.
Proof.
  unfold document_result. destruct (mcp_results state) as [read|]; [|by intros [= <- _]].
  destruct (find_result _ _ _ db) as [[locator|s|s|]|e] eqn:Hfound; try (by intros [= <- _]).
  destruct (checked _ _) as [n|] eqn:Hn; [|by intros [= <- _]]. apply checked_Some in Hn as [-> _].
  destruct (MAXIMUM_RESULT_BYTES <? _); [by intros [= <- _]|].
  destruct (read _ _ _) as [[bytes|] g1]; [|by intros [= <- _]].
  destruct (_ || _) eqn:Hd; [by intros [= <- _]|].
  rewrite orb_false_iff, !negb_false_iff, Z.eqb_eq, String.eqb_eq in Hd. destruct Hd as [Hl Hd].
  destruct (result_from_slice bytes) as [raw|] eqn:Hraw; [|by intros [= <- _]].
  destruct (DocumentResult_try_from _) as [document|] eqn:Hdoc; [|by intros [= <- _]].
  destruct (_ || _) eqn:Hi; [by intros [= <- _]|].
  rewrite orb_false_iff, !negb_false_iff, !bool_decide_eq_true in Hi. destruct Hi as [Hi Hv].
  destruct (result_to_value document) as [content|] eqn:Hc; [|by intros [= <- _]].
  intros [= <- _] _. by exists locator, bytes, raw, document, content.
Qed.

(** C22: tool calls are authorised and scoped.  A tool call that succeeds carries the key
    of a gateway and a grant, signed for exactly this tool and these arguments, of that
    gateway's product; and what it answers is the status, or the verified published
    result, of a job of the grant's product and tenant. *)
Theorem tool_calls_are_authorised state headers request now db (g g' : G) response :
  handle_rpc state headers request now db g = (response, g') →
  rpc_method request = "tools/call" → response_status response = 200 →
  ∃ tool arguments grant job_id,
    value_get "name" (rpc_params request) ≫= as_str = Some tool
    ∧ arguments = default Null (value_get "arguments" (rpc_params request))
    ∧ verify_upstream (mcp_upstream_keys state) headers = Some (grant_product_id grant)
    ∧ verify_grant (mcp_access_grants state) headers tool arguments now = Some grant
    ∧ value_get "job_id" arguments ≫= as_str = Some (JobId_str job_id) ∧ id_valid job_id
    ∧ ((tool = "get_document_status" ∧ answers_status grant job_id db (rpc_id request) response)
       ∨ (tool = "get_document_result" ∧ answers_result grant job_id db (rpc_id request) response)).
Proof.
  unfold Mcp.handle_rpc. intros Hrun Hmethod H200. revert Hrun.
  destruct (bool_decide (is_Some _)); [by intros [= <- _]|].
  destruct (verify_upstream _ _) as [product|] eqn:Hup; [|by intros [= <- _]].
  destruct (negb _); [by intros [= <- _]|]. rewrite Hmethod. simpl. unfold handle_tool_call.
  destruct (value_get "name" _ ≫= as_str) as [tool|] eqn:Htool; [|by intros [= <- _]].
  destruct (Mcp.verify_grant _ _ _ _ _ _ _ _ _ _) as [grant|] eqn:Hgrant; [|by intros [= <- _]].
  destruct (bool_decide _) eqn:Hp; simpl; [|by intros [= <- _]]. apply bool_decide_eq_true in Hp as <-.
  destruct (_ || _) eqn:Hkind; simpl; [|by intros [= <- _]].
  destruct (value_get "job_id" _ ≫= as_str) as [job|] eqn:Hjob; [|by intros [= <- _]].
  destruct (JobId_new job) as [job_id|] eqn:Hid; [|by intros [= <- _]].
  pose proof (id_new_str (T := JobId) job job_id Hid) as Hstr. simpl in Hstr. subst job.
  pose proof (id_new_valid (T := JobId) _ _ Hid) as Hval.
  intros Hans. exists tool, (default Null (value_get "arguments" (rpc_params request))), grant, job_id.
  split_and!; try done. apply orb_true_iff in Hkind. rewrite !String.eqb_eq in Hkind.
  destruct (String.eqb_spec tool "get_document_result") as [Hres|Hres].
  - right. split; [done|]. by eapply document_result_200.
  - left. destruct Hkind as [Hkind|]; [|done]. split; [done|]. revert Hans.
    destruct (StoreJobs.find _ _ _ db) as [[job|]|] eqn:Hfind; [|by intros [= <- _]..]. intros [= <- _].
    unfold StoreJobs.find in Hfind. destruct (select_job _ _ _ db) as [row|] eqn:Hsel; [|done].
    apply select_job_Some in Hsel as (Hrow & Ht & Hpr).
    destruct (stored_job _ row) as [sj|] eqn:Hsj; [|done]. injection Hfind as <-.
    apply stored_job_Ok in Hsj as (j & _ & Hs & _). exists row, sj. by split_and!.
Qed.
End Calls.

(** ** Witnesses *)

(** Numbers with one digit, and strings in hexadecimal between quotes. *)
Definition sample_number (b : bool) : string := if b then "1" else "0".
Definition sample_string (s : string) : string :=
  String "034" (hex_encode (string_bytes s) +:+ String "034" "").

Lemma string_bytes_range s : Forall (λ b, 0 ≤ b < 256) (string_bytes s).
Proof. induction s; constructor; [apply code_range|done]. Qed.

#[local] Instance sample_json : JsonText sample_number sample_string.
Proof.
  constructor.
  - intros s. by eexists.
  - intros s1 s2 r1 r2 He. unfold sample_string in He. simpl in He. injection He as He.
    rewrite !append_assoc in He. simpl in He.
    assert (Hq : ∀ s, all_bytes (λ b, negb (Ascii.eqb b "034")) (hex_encode (string_bytes s)) = true).
    { intros s. apply (without_impl lower_hexdigit "034"); [done|].
      apply hex_encode_digits, string_bytes_range. }
    apply cut_unique in He as [He ->]; [|apply Hq..].
    apply hex_encode_inj in He; [|apply string_bytes_range..]. by apply string_bytes_inj in He as ->.
  - intros []; by eexists _, _.
  - intros [] [] r1 r2 _ _ He; simpl in He; by injection He as ->.
Qed.

Theorem canonical_json_canonical_witness :
  canonical_json sample_number sample_string (Object [("b", Bool true); ("a", Null)])
  = canonical_json sample_number sample_string (Object [("a", Null); ("b", Bool true)]).
Proof. apply (canonical_json_canonical sample_number sample_string). reflexivity. Defined.

Definition sample_sha256 (_ : list Z) : list Z := replicate 32 0.

Definition sample_arguments : Value bool := Object [("job_id", String_ "job_1")].

Definition sample_grant_message : string :=
  default "" (result_ok (grant_message sample_number sample_string sample_sha256 "key-1" "ten_a" "user"
    1000 "get_document_status" sample_arguments)).

Definition sample_grant_headers : HeaderMap :=
  mkHeaderMap (λ name, if String.eqb name MCP_KEY_HEADER then Some (replicate 32 7) else None) (λ name,
    if String.eqb name ACCESS_GRANT_KEY_ID_HEADER then Some "key-1"
    else if String.eqb name ACCESS_GRANT_TENANT_HEADER then Some "ten_a"
    else if String.eqb name ACCESS_GRANT_SUBJECT_HEADER then Some "user"
    else if String.eqb name ACCESS_GRANT_TIMESTAMP_HEADER then Some "1000"
    else if String.eqb name ACCESS_GRANT_SIGNATURE_HEADER then
      Some (hex_encode (take 32 (string_bytes sample_grant_message)))
    else None).

Definition sample_grants : McpAccessGrantVerifier :=
  mkMcpAccessGrantVerifier {[ "key-1" := mkSigningKey (mkProductId "prod") (replicate 32 7) ]}
    (from_secs 60).

Definition sample_grant : OcrAccessGrant :=
  mkOcrAccessGrant (mkProductId "prod") (mkTenantId "ten_a") "user".

Theorem grant_binds_call_witness :
  verify_grant sample_number sample_string sample_sha256 sample_hmac (λ _, true) sample_grants
    sample_grant_headers "get_document_status" sample_arguments (from_secs 1010) = Some sample_grant
  ∧ Z.abs (from_secs 1010 - from_secs 1010) ≤ 2 * grant_clock_skew sample_grants.
Proof.
  assert (Hsha : digests sample_sha256) by (intros bytes; split; [done|by apply Forall_replicate]).
  assert (H1 : verify_grant sample_number sample_string sample_sha256 sample_hmac (λ _, true)
    sample_grants sample_grant_headers "get_document_status" sample_arguments (from_secs 1010)
    = Some sample_grant) by (vm_compute; reflexivity).
  split; [exact H1|].
  destruct (grant_binds_call sample_number sample_string sample_sha256 sample_hmac (λ _, true)
    sample_grants sample_grant_headers _ _ _ _ _ _ _ _ _ "key-1" Hsha H1 H1 eq_refl
    eq_refl eq_refl) as [(_ & _ & _ & H)|[(key & _ & b1 & b2 & mac & Hb1 & Hb2 & Hne & _)|[Hne _]]].
  - exact H.
  - destruct Hne. congruence.
  - by destruct Hne.
Defined.

Definition sample_state : McpState (G := ()) :=
  mkMcpState None (mkMcpUpstreamKeyVerifier [mkSigningKey (mkProductId "prod") (replicate 32 7)])
    sample_grants.

Definition sample_request : RpcRequest bool :=
  mkRpcRequest "2.0" Null "tools/call"
    (Object [("name", String_ "get_document_status"); ("arguments", sample_arguments)]).

Theorem tool_calls_are_authorised_witness :
  ∃ response,
    handle_rpc (λ _, true) (λ _, Null) "1" (λ _, None) (λ _, None) sample_number sample_string
      sample_sha256 sample_hmac (λ _, true) sample_state sample_grant_headers sample_request
      (from_secs 1010) (sample_db sample_job_ops) () = (response, ())
    ∧ response_status response = 200
    ∧ ∃ grant, verify_upstream (mcp_upstream_keys sample_state) sample_grant_headers
                 = Some (grant_product_id grant).
Proof.
  set (run := handle_rpc _ _ _ _ _ _ _ _ _ _ _ _ _ _ _ _).
  assert (Hrun : ∃ response, run = (response, ()) ∧ response_status response = 200).
  { exists (status_answer (λ _, Null) Null (mkStoredJob sample_job Accepted 5)).
    split; [vm_compute; reflexivity|reflexivity]. }
  destruct Hrun as (response & Hrun & H200). exists response. split; [exact Hrun|]. split; [exact H200|].
  destruct (tool_calls_are_authorised (λ _, true) (λ _, Null) "1" (λ _, None) (λ _, None) sample_number
    sample_string sample_sha256 sample_hmac (λ _, true) sample_state sample_grant_headers sample_request
    (from_secs 1010) (sample_db sample_job_ops) () () response Hrun eq_refl H200)
    as (tool & arguments & grant & job_id & _ & _ & Hup & _).
  exists grant. exact Hup.
Defined.
