(* ===== verification/StatusCache.v ===== *)
(** * StatusCache: cached job states

    Models [ocr-service/src/job_status_cache.rs]: scopes and their keys, the record kept
    for a job, the policy, and the cache on a Valkey server.  A cache is a record of its
    two operations on the state [G] of the world.  Durations are in nanoseconds; a
    request that the deadline interrupts is one that fails.  The JSON text of a record
    is written and read by the arguments [record_to_vec] and [record_from_slice].

    [FaithfulCache] is what the handlers need of a cache: it returns only records that
    were put for the scope.  It is proved for the Valkey cache from what the server
    documents of [GETRANGE] and [SET]. *)

From S2P Require Import Prelude Text DomainTypes Identifiers.

#[local] Open Scope list_scope.
#[local] Open Scope Z_scope.

Definition CACHE_NAMESPACE : string := "ocr:job-status:v1".
Definition MAXIMUM_TTL : Z := 24 * 60 * 60 * 1000000000.
Definition MAXIMUM_TIMEOUT : Z := 1000000000.
Definition MINIMUM_RECORD_BYTES : Z := 128.
Definition MAXIMUM_RECORD_BYTES : Z := 4 * 1024.

Module CacheConfigurationError.
Inductive CacheConfigurationError := InvalidTtl | InvalidTimeout | InvalidRecordLimit.
End CacheConfigurationError.

Module CacheRecordError.
Inductive CacheRecordError := TooLarge | Invalid.
End CacheRecordError.

Inductive CacheOperationError := mkCacheOperationError.

(** ** Scopes and records *)

Record CacheScope := mkCacheScope {
  scope_product_id : ProductId;
  scope_tenant_id : TenantId;
  scope_job_id : JobId;
}.

#[export] Instance CacheScope_eq_dec : EqDecision CacheScope.
Proof. solve_decision. Defined.

Definition CacheScope_key (self : CacheScope) : string :=
  CACHE_NAMESPACE +:+ String ":" (ProductId_str (scope_product_id self)
    +:+ String ":" (TenantId_str (scope_tenant_id self)
    +:+ String ":" (JobId_str (scope_job_id self)))).

Record CacheRecord := mkCacheRecord {
  record_product_id : ProductId;
  record_tenant_id : TenantId;
  record_job_id : JobId;
  record_status : JobState;
  record_created_at : Z;
}.

(** The fields that [serde] reads before it checks them. *)
Record RawCacheRecord := mkRawCacheRecord {
  raw_product_id : string;
  raw_tenant_id : string;
  raw_job_id : string;
  raw_status : JobState;
  raw_created_at : Z;
}.

Definition CacheRecord_new (scope : CacheScope) (status : JobState) (created_at : Z) : CacheRecord :=
  mkCacheRecord (scope_product_id scope) (scope_tenant_id scope) (scope_job_id scope) status created_at.

Definition matches_scope (self : CacheRecord) (scope : CacheScope) : bool :=
  bool_decide (record_product_id self = scope_product_id scope)
  && bool_decide (record_tenant_id self = scope_tenant_id scope)
  && bool_decide (record_job_id self = scope_job_id scope).

(** [derive(Deserialize)]: identifiers go through their constructors. *)
Definition CacheRecord_deserialize (raw : RawCacheRecord) : result DomainTypes.Error CacheRecord :=
  let? product_id := ProductId_new (raw_product_id raw) in
  let? tenant_id := TenantId_new (raw_tenant_id raw) in
  let? job_id := JobId_new (raw_job_id raw) in
  Ok (mkCacheRecord product_id tenant_id job_id (raw_status raw) (raw_created_at raw)).

Definition CacheRecord_to_raw (self : CacheRecord) : RawCacheRecord :=
  mkRawCacheRecord (ProductId_str (record_product_id self)) (TenantId_str (record_tenant_id self))
    (JobId_str (record_job_id self)) (record_status self) (record_created_at self).

Section Codec.
Context (record_to_vec : CacheRecord → option (list Z)).
Context (record_from_slice : list Z → option RawCacheRecord).

Definition CacheRecord_encode (self : CacheRecord) (maximum_bytes : Z)
    : result CacheRecordError.CacheRecordError (list Z) :=
  let? value := ok_or (record_to_vec self) CacheRecordError.Invalid in
  if maximum_bytes <? zlen value then Err CacheRecordError.TooLarge else Ok value.

Definition CacheRecord_decode (value : list Z) (maximum_bytes : Z)
    : result CacheRecordError.CacheRecordError CacheRecord :=
  if maximum_bytes <? zlen value then Err CacheRecordError.TooLarge
  else
    let? raw := ok_or (record_from_slice value) CacheRecordError.Invalid in
    map_err (CacheRecord_deserialize raw) (λ _, CacheRecordError.Invalid).
End Codec.

(** ** The policy *)

Record CachePolicy := mkCachePolicy {
  active_ttl : Z;
  terminal_ttl : Z;
  policy_timeout : Z;
  maximum_record_bytes : Z;
}.

Definition CachePolicy_new (active_ttl terminal_ttl timeout maximum_record_bytes : Z)
    : result CacheConfigurationError.CacheConfigurationError CachePolicy :=
  if (active_ttl =? 0) || (terminal_ttl =? 0) || (MAXIMUM_TTL <? active_ttl)
     || (MAXIMUM_TTL <? terminal_ttl)
  then Err CacheConfigurationError.InvalidTtl
  else if (timeout =? 0) || (MAXIMUM_TIMEOUT <? timeout)
  then Err CacheConfigurationError.InvalidTimeout
  else if negb (contains MINIMUM_RECORD_BYTES MAXIMUM_RECORD_BYTES maximum_record_bytes)
  then Err CacheConfigurationError.InvalidRecordLimit
  else Ok (mkCachePolicy active_ttl terminal_ttl timeout maximum_record_bytes).

Definition policy_ttl (self : CachePolicy) (status : JobState) : Z :=
  match status with
  | Cancelled | Rejected | Partial | ReviewRequired | Completed => terminal_ttl self
  | _ => active_ttl self
  end.

(** ** Caches *)

Record JobStatusCache (G : Type) := mkJobStatusCache {
  cache_get : CacheScope → G → result CacheOperationError (option CacheRecord) * G;
  cache_put : CacheScope → CacheRecord → Z → G → result CacheOperationError () * G;
}.
Arguments mkJobStatusCache {G}.
Arguments cache_get {G}.
Arguments cache_put {G}.

Definition UnavailableJobStatusCache {G : Type} : JobStatusCache G :=
  mkJobStatusCache (λ _ g, (Ok None, g)) (λ _ _ _ g, (Ok (), g)).

(** The commands of the server: [GETRANGE key start end] and [SET key value PX ttl]. *)
Record ValkeyClient (G : Type) := mkValkeyClient {
  getrange : string → Z → Z → G → result () (list Z) * G;
  set_px : string → list Z → Z → G → result () () * G;
}.
Arguments mkValkeyClient {G}.
Arguments getrange {G}.
Arguments set_px {G}.

Section Valkey.
Context {G : Type} (client : ValkeyClient G) (policy : CachePolicy).
Context (record_to_vec : CacheRecord → option (list Z)).
Context (record_from_slice : list Z → option RawCacheRecord).

Definition valkey_get (scope : CacheScope) (g : G)
    : result CacheOperationError (option CacheRecord) * G :=
  match getrange client (CacheScope_key scope) 0 (maximum_record_bytes policy) g with
  | (Err _, g) => (Err mkCacheOperationError, g)
  | (Ok value, g) =>
      (if zlen value =? 0 then Ok None
       else
         let? record :=
           map_err (CacheRecord_decode record_from_slice value (maximum_record_bytes policy))
             (λ _, mkCacheOperationError) in
         Ok (Some record), g)
  end.

Definition valkey_put (scope : CacheScope) (record : CacheRecord) (ttl : Z) (g : G)
    : result CacheOperationError () * G :=
  match CacheRecord_encode record_to_vec record (maximum_record_bytes policy) with
  | Err _ => (Err mkCacheOperationError, g)
  | Ok value =>
      let ttl_millis := ttl / 1000000 in
      if (i64_max <? ttl_millis) || (ttl_millis <=? 0) then (Err mkCacheOperationError, g)
      else
        match set_px client (CacheScope_key scope) value ttl_millis g with
        | (Err _, g) => (Err mkCacheOperationError, g)
        | (Ok _, g) => (Ok (), g)
        end
  end.

Definition ValkeyJobStatusCache : JobStatusCache G := mkJobStatusCache valkey_get valkey_put.
End Valkey.

(** ** Keys and codecs *)

Definition scope_valid (s : CacheScope) : Prop :=
  id_valid (scope_product_id s) ∧ id_valid (scope_tenant_id s) ∧ id_valid (scope_job_id s).

Lemma matches_scope_spec r s :
  matches_scope r s = true ↔ r = CacheRecord_new s (record_status r) (record_created_at r).
Proof.
  unfold matches_scope, CacheRecord_new. rewrite !andb_true_iff, !bool_decide_eq_true.
  destruct r, s. simpl. naive_solver.
Qed.

Lemma product_without_colon (p : ProductId) : id_valid p →
  all_bytes (λ b, negb (Ascii.eqb b ":")) (ProductId_str p) = true.
Proof.
  unfold id_valid. simpl. unfold ProductId_new. destruct (_ && _) eqn:H; [|done]. intros _.
  rewrite !andb_true_iff in H. destruct H as [_ H]. revert H. apply all_bytes_impl.
  intros b. destruct (Ascii.eqb_spec b ":") as [->|]; [by vm_compute|done].
Qed.

Lemma tenant_without_colon (t : TenantId) : id_valid t →
  all_bytes (λ b, negb (Ascii.eqb b ":")) (TenantId_str t) = true.
Proof.
  unfold id_valid. simpl. unfold TenantId_new, validated_id.
  destruct (strip_prefix "ten_" (TenantId_str t)) as [suffix|] eqn:Hs; simpl; [|done].
  destruct (_ && _) eqn:H; [|done]. intros _. apply strip_prefix_Some in Hs as ->.
  rewrite !andb_true_iff in H. destruct H as [_ H]. rewrite all_bytes_append. simpl.
  revert H. apply all_bytes_impl. intros b. destruct (Ascii.eqb_spec b ":") as [->|]; [by vm_compute|done].
Qed.

(** Scopes have keys of their own. *)
Lemma CacheScope_key_inj s1 s2 : scope_valid s1 → scope_valid s2 →
  CacheScope_key s1 = CacheScope_key s2 → s1 = s2.
Proof.
  intros (Hp1 & Ht1 & _) (Hp2 & Ht2 & _). unfold CacheScope_key. simpl. intros [= He].
  apply cut_unique in He as [Hp He]; [|by apply product_without_colon..].
  apply cut_unique in He as [Ht He]; [|by apply tenant_without_colon..].
  destruct s1 as [[] [] []], s2 as [[] [] []]. simpl in *. by subst.
Qed.

Lemma CacheRecord_roundtrip s status created_at : scope_valid s →
  CacheRecord_deserialize (CacheRecord_to_raw (CacheRecord_new s status created_at))
  = Ok (CacheRecord_new s status created_at).
Proof.
  intros (Hp & Ht & Hj). unfold CacheRecord_deserialize. simpl.
  assert (ProductId_new (ProductId_str (scope_product_id s)) = Ok (scope_product_id s)) as -> by exact Hp.
  assert (TenantId_new (TenantId_str (scope_tenant_id s)) = Ok (scope_tenant_id s)) as -> by exact Ht.
  by assert (JobId_new (JobId_str (scope_job_id s)) = Ok (scope_job_id s)) as -> by exact Hj.
Qed.

(** ** The interface *)

(** [holds g scope record]: the cache may return this record for this scope. *)
Class FaithfulCache {G : Type} (cache : JobStatusCache G) (holds : G → CacheScope → CacheRecord → Prop) := {
  get_returns_held : ∀ scope record g g', scope_valid scope →
    cache_get cache scope g = (Ok (Some record), g') → holds g scope record;
  get_adds_nothing : ∀ scope out g g', cache_get cache scope g = (out, g') →
    ∀ s r, holds g' s r → holds g s r;
  put_adds_record : ∀ scope status created_at ttl out g g', scope_valid scope →
    cache_put cache scope (CacheRecord_new scope status created_at) ttl g = (out, g') →
    ∀ s r, holds g' s r → holds g s r ∨ (s = scope ∧ r = CacheRecord_new scope status created_at);
}.

#[export] Instance unavailable_faithful {G : Type} :
  FaithfulCache (UnavailableJobStatusCache (G := G)) (λ _ _ _, False).
Proof. by constructor. Qed.

(** What the server documents: [GETRANGE] gives the bytes between two inclusive offsets
    of what is stored, and nothing for a missing key; [SET] stores one value; values
    come from nowhere else. *)
Class ValkeyServer {G : Type} (client : ValkeyClient G) (stored : G → string → list Z → Prop) := {
  getrange_reads : ∀ key last g g' value, 0 ≤ last → getrange client key 0 last g = (Ok value, g') →
    value = [] ∨ ∃ whole, stored g key whole ∧ value = take (Z.to_nat (last + 1)) whole;
  getrange_keeps : ∀ key first last out g g', getrange client key first last g = (out, g') →
    ∀ k v, stored g' k v → stored g k v;
  set_stores : ∀ key value ttl out g g', set_px client key value ttl g = (out, g') →
    ∀ k v, stored g' k v → stored g k v ∨ (k = key ∧ v = value);
}.

Section Deployed.
Context {G : Type} (client : ValkeyClient G) (policy : CachePolicy) (stored : G → string → list Z → Prop).
Context (record_to_vec : CacheRecord → option (list Z)).
Context (record_from_slice : list Z → option RawCacheRecord).
(** [serde_json] reads back the fields that it wrote. *)
Context (Hjson : ∀ record bytes, record_to_vec record = Some bytes →
  record_from_slice bytes = Some (CacheRecord_to_raw record)).
Context (Hpolicy : 0 ≤ maximum_record_bytes policy).

Definition valkey_holds (g : G) (scope : CacheScope) (record : CacheRecord) : Prop :=
  scope_valid scope ∧ ∃ bytes, stored g (CacheScope_key scope) bytes
    ∧ CacheRecord_decode record_from_slice bytes (maximum_record_bytes policy) = Ok record.

(** The range that is read shows a value that is too long for a record as such. *)
Lemma decode_whole whole record :
  CacheRecord_decode record_from_slice (take (Z.to_nat (maximum_record_bytes policy + 1)) whole)
    (maximum_record_bytes policy) = Ok record →
  CacheRecord_decode record_from_slice whole (maximum_record_bytes policy) = Ok record.
Proof.
  intros H. destruct (decide (zlen whole ≤ maximum_record_bytes policy)) as [Hle|Hgt].
  - rewrite take_ge in H; [done|]. unfold zlen in Hle. lia.
  - exfalso. revert H. unfold CacheRecord_decode.
    rewrite (proj2 (Z.ltb_lt _ _)); [done|]. unfold zlen in *. rewrite length_take. lia.
Qed.

#[export] Instance valkey_faithful `{ValkeyServer G client stored} :
  FaithfulCache (ValkeyJobStatusCache client policy record_to_vec record_from_slice) valkey_holds.
Proof.
  constructor; simpl.
  - intros scope record g g' Hv. unfold valkey_get.
    destruct (getrange client _ _ _ g) as [[value|] g1] eqn:Hget; [|done].
    destruct (Z.eqb_spec (zlen value) 0) as [|Hne]; [done|]. intros [= Hdec _].
    apply and_then_Ok in Hdec as (r & Hdec%map_err_Ok & [= ->]).
    apply getrange_reads in Hget as [->|(whole & Hs & ->)]; [done| |done].
    split; [done|]. exists whole. split; [done|]. by apply decode_whole.
  - intros scope out g g'. unfold valkey_get.
    destruct (getrange client _ _ _ g) as [[value|] g1] eqn:Hget; intros [= _ <-] s r
      (Hv & bytes & Hs & Hd); (split; [done|]); exists bytes; (split; [|done]); by eapply getrange_keeps.
  - intros scope status created_at ttl out g g' Hv. unfold valkey_put.
    destruct (CacheRecord_encode _ _ _) as [value|] eqn:Henc; [|intros [= _ <-]; by left].
    destruct (_ || _); [intros [= _ <-]; by left|].
    destruct (set_px client _ _ _ g) as [o g1] eqn:Hset. intros Hout.
    assert (g' = g1) as -> by by destruct o; injection Hout.
    intros s r (Hsv & bytes & Hs & Hd). destruct (set_stores _ _ _ _ _ _ Hset _ _ Hs) as [Hold|[Hk ->]].
    + left. split; [done|]. by exists bytes.
    + right. apply CacheScope_key_inj in Hk as ->; [|done..]. split; [done|].
      apply and_then_Ok in Henc as (v & Hvec%ok_or_Ok & Hlen).
      destruct (_ <? _) eqn:Hlt in Hlen; [done|]. injection Hlen as ->.
      unfold CacheRecord_decode in Hd. rewrite Hlt, (Hjson _ _ Hvec) in Hd. simpl in Hd.
      rewrite CacheRecord_roundtrip in Hd by done. by injection Hd.
Qed.
End Deployed.
