(* ===== verification/UploadIntents.v ===== *)
(** * UploadIntents: where and how a client uploads

    Models [ocr-service/src/upload_intents.rs], [StorageClient::signed_upload] of
    [storage_client.rs] and the configuration of the quarantine buckets of
    [upload_intents.rs], [upload_artifacts.rs] and [malware.rs].  [sign_url] is the
    signer of the [object_store] crate, which gives a URL by its parts, [build] its
    client builder; instants are in seconds. *)

From S2P Require Import Prelude Text Identifiers StoreTypes Storage Promotion.

#[local] Open Scope list_scope.
#[local] Open Scope Z_scope.

(** ** Quarantine buckets *)

Module UploadIntentConfigurationError.
Inductive UploadIntentConfigurationError := MissingBuckets | InvalidBucket | Client.
End UploadIntentConfigurationError.

Module UploadArtifactConfigurationError.
Inductive UploadArtifactConfigurationError := MissingBuckets | InvalidBucket | Client.
End UploadArtifactConfigurationError.

Module UploadInspectorConfigurationError.
Inductive UploadInspectorConfigurationError := MissingBuckets | InvalidBucket | Client.
End UploadInspectorConfigurationError.

(** The loop that the three constructors share, with the errors of each. *)
Fixpoint configure_buckets {E G : Type} (invalid client : E) (build : Location → option (ObjectStore G))
    (stores : gmap string (ObjectStore G)) (buckets : list string)
    : result E (gmap string (ObjectStore G)) :=
  match buckets with
  | [] => Ok stores
  | bucket :: buckets =>
      if negb (is_bucket_name bucket) || bool_decide (is_Some (stores !! bucket)) then Err invalid
      else
        let? store := ok_or (StorageClient_new build bucket) client in
        configure_buckets invalid client build (<[bucket := store]> stores) buckets
  end.

Definition GcsUploadIssuer_new {G : Type} (build : Location → option (ObjectStore G)) (buckets : list string)
    : result UploadIntentConfigurationError.UploadIntentConfigurationError (gmap string (ObjectStore G)) :=
  if zlen buckets =? 0 then Err UploadIntentConfigurationError.MissingBuckets
  else configure_buckets UploadIntentConfigurationError.InvalidBucket
         UploadIntentConfigurationError.Client build ∅ buckets.

Definition GcsUploadArtifactReader_new {G : Type} (build : Location → option (ObjectStore G))
    (buckets : list string)
    : result UploadArtifactConfigurationError.UploadArtifactConfigurationError
        (gmap string (ObjectStore G)) :=
  if zlen buckets =? 0 then Err UploadArtifactConfigurationError.MissingBuckets
  else configure_buckets UploadArtifactConfigurationError.InvalidBucket
         UploadArtifactConfigurationError.Client build ∅ buckets.

Definition GcsUploadMalwareInspector_new {G : Type} (build : Location → option (ObjectStore G))
    (buckets : list string)
    : result UploadInspectorConfigurationError.UploadInspectorConfigurationError
        (gmap string (ObjectStore G)) :=
  if zlen buckets =? 0 then Err UploadInspectorConfigurationError.MissingBuckets
  else configure_buckets UploadInspectorConfigurationError.InvalidBucket
         UploadInspectorConfigurationError.Client build ∅ buckets.

(** ** Signed uploads *)

Inductive UploadIssueError := mkUploadIssueError.

(** The parts of a signed URL that the code looks at, and its text. *)
Record SignedUrl := mkSignedUrl {
  url_scheme : string;
  url_username : string;
  url_password : option string;
  url_fragment : option string;
  url_text : string;
}.

Record IssuedUpload := mkIssuedUpload {
  upload_url : string;
  required_headers : gmap string string;
}.

Definition is_azure (found : Location) : bool :=
  match found with
  | Azure _ _ => true
  | _ => false
  end.

Section Issuer.
Context {G : Type}.
Context (path_valid : string → bool).
Context (sign_url : Location → string → Z → G → option SignedUrl * G).

Definition signed_upload (store : ObjectStore G) (path : string) (expires : Z) (content_type : string)
    (g : G) : result () (string * gmap string string) * G :=
  let headers := list_to_map (upload_headers content_type (is_azure (provider store))) in
  match sign_url (provider store) path expires g with
  | (None, g) => (Err (), g)
  | (Some url, g) =>
      (if negb (String.eqb (url_scheme url) "https") || negb (is_empty (url_username url))
          || bool_decide (is_Some (url_password url)) || bool_decide (is_Some (url_fragment url))
       then Err () else Ok (url_text url, headers), g)
  end.

(** [GcsUploadIssuer::issue] at the time [now]. *)
Definition issue (stores : gmap string (ObjectStore G)) (now : Z) (upload : StoredUpload) (g : G)
    : result UploadIssueError IssuedUpload * G :=
  match stores !! su_object_bucket upload with
  | None => (Err mkUploadIssueError, g)
  | Some store =>
      if negb (path_valid (su_object_name upload)) then (Err mkUploadIssueError, g)
      else
        match checked u64_max (su_expires_at upload - now) with
        | None => (Err mkUploadIssueError, g)
        | Some seconds =>
            if seconds =? 0 then (Err mkUploadIssueError, g)
            else
              match signed_upload store (su_object_name upload) seconds
                      (su_expected_content_type upload) g with
              | (Err _, g) => (Err mkUploadIssueError, g)
              | (Ok (url, headers), g) => (Ok (mkIssuedUpload url headers), g)
              end
        end
  end.
End Issuer.
