(* ===== verification/Api.v ===== *)
(** * Api: the handlers of the HTTP boundary

    Models the handlers of [ocr-service/src/lib.rs] behind the verified identity of a
    request: uploads and their completion, jobs, results, cancellation and readiness,
    over the store, the status cache and the services behind them.  A handler returns
    the body of its response or an [ApiError], and the world: the database and the state
    [G] of everything else.  [now] is the database's time and [clock] the service's;
    [meanwhile] is what other workers and other requests do to the world between a
    handler's statements; [fresh] is the text of a new UUID.  Routing, limits and
    timeouts of requests belong to the web framework: the payload of a request is
    [None] when the framework rejects its JSON. *)

From S2P Require Import Prelude Text DomainTypes Identifiers Digest Document StoreTypes.
From S2P Require Import StoreChecks StoreDb StoreJobs StoreUploads Storage Promotion Artifacts.
From S2P Require Import Assembly Finalizer ApiTypes StatusCache UploadIntents.

#[local] Open Scope list_scope.
#[local] Open Scope Z_scope.

Definition UPLOAD_INTENT_TTL_MINUTES : Z := 10.

Module ApiCapability.
Inductive ApiCapability := Uploads | Jobs | Full.

Definition serves_uploads (self : ApiCapability) : bool :=
  match self with
  | Uploads | Full => true
  | Jobs => false
  end.

Definition serves_jobs (self : ApiCapability) : bool :=
  match self with
  | Jobs | Full => true
  | Uploads => false
  end.
End ApiCapability.

(** ** Requests *)

Inductive DocumentType :=
| Auto | General | Invoice | Receipt | PurchaseOrder | IdentityDocument | Contract | BankStatement
| MedicalForm | ApplicationForm | Resume.

Record OutputOptions := mkOutputOptions {
  output_text : bool;
  output_markdown : bool;
  output_layout : bool;
  output_evidence : bool;
}.

Inductive ProcessingClass := Interactive | Priority | Batch.

Record CreateJobRequest := mkCreateJobRequest {
  request_source_upload_id : string;
  request_document_type : DocumentType;
  request_output : option OutputOptions;
  request_extraction : option SchemaReference;
  request_language_hints : list string;
  request_processing_class : option ProcessingClass;
  request_webhook_subscription_id : option string;
}.

Record CreateUploadRequest := mkCreateUploadRequest {
  request_content_type : string;
  request_content_length : Z;
  request_sha256 : string;
}.

Definition valid_language_hint (value : string) : bool :=
  if negb (contains 2 35 (strlen value)) then false
  else
    match split_on "-" value with
    | [] => false
    | language :: segments =>
        contains 2 8 (strlen language) && all_bytes is_ascii_alphabetic language
        && forallb (λ segment, contains 1 8 (strlen segment) && all_bytes is_ascii_alphanumeric segment)
             segments
    end.

(** [hints[..index].contains(hint)] for every index. *)
Fixpoint all_distinct (before hints : list string) : bool :=
  match hints with
  | [] => true
  | hint :: hints => negb (existsb (String.eqb hint) before) && all_distinct (before ++ [hint]) hints
  end.

Definition has_valid_bounds (self : CreateJobRequest) : bool :=
  let hints := request_language_hints self in
  let language_hints_are_valid :=
    (zlen hints <=? 8) && forallb valid_language_hint hints && all_distinct [] hints in
  let extraction_is_valid :=
    match request_extraction self with
    | None => true
    | Some extraction =>
        bool_decide (is_Some (registered (schema_id extraction) (ref_schema_version extraction)))
    end in
  language_hints_are_valid && extraction_is_valid.

Definition is_supported_content_type (value : string) : bool :=
  existsb (String.eqb value)
    ["application/pdf"; "image/jpeg"; "image/png"; "image/tiff"; "image/webp"].

Definition invalid_upload_request (request_id : string) : ApiError :=
  ApiError.bad_request "invalid_upload_request" "upload request is invalid" request_id.

Definition upload_expired (request_id : string) : ApiError :=
  ApiError.upload_conflict "upload_expired" "upload reservation has expired" request_id.

Definition upload_not_completable (request_id : string) : ApiError :=
  ApiError.upload_conflict "upload_not_completable" "upload cannot be completed in its current state"
    request_id.

Definition invalid_job_request (request_id : string) : ApiError :=
  ApiError.bad_request "invalid_request" "request body is invalid" request_id.

(** ** Responses *)

Record JobResponse := mkJobResponse {
  response_job_id : JobId;
  response_status : JobState;
  response_created_at : Z;
  response_status_url : option string;
  response_result_url : option string;
}.

Record UploadIntentResponse := mkUploadIntentResponse {
  intent_upload_id : UploadId;
  intent_method : string;
  intent_upload_url : string;
  intent_required_headers : gmap string string;
  intent_expires_at : Z;
}.

(** [UploadCompletionResponse] and [UploadStatusResponse] have the same two fields. *)
Record UploadStatusResponse := mkUploadStatusResponse {
  status_upload_id : UploadId;
  status_text : string;
}.

Definition upload_status (state : UploadState.UploadState) : string :=
  match state with
  | UploadState.Reserved => "reserved"
  | UploadState.Uploaded => "uploaded"
  | UploadState.Inspecting => "inspecting"
  | UploadState.Accepted => "accepted"
  | UploadState.Rejected => "rejected"
  | UploadState.Expired => "expired"
  end.

(** The key that the create handlers require. *)
Definition idempotency_key_of (headers : HeaderMap) (request_id : string)
    : result ApiError IdempotencyKey :=
  let? value :=
    ok_or (header_str headers "idempotency-key")
      (ApiError.bad_request "idempotency_key_required" "Idempotency-Key is required" request_id) in
  map_err (IdempotencyKey_new value)
    (λ _, ApiError.bad_request "invalid_idempotency_key" "Idempotency-Key is invalid" request_id).

(** The parts of a URI that [validate_issued_upload] looks at. *)
Record UriParts := mkUriParts { uri_scheme : option string; uri_has_authority : bool }.

Definition validate_issued_upload (parse_uri : string → option UriParts) (issued : IssuedUpload)
    (upload : StoredUpload) : result UploadIssueError () :=
  let? uri := ok_or (parse_uri (upload_url issued)) mkUploadIssueError in
  let valid_url := bool_decide (uri_scheme uri = Some "https") && uri_has_authority uri in
  let expected_headers :=
    list_to_map (upload_headers (su_expected_content_type upload)
                   (starts_with_str "az://" (su_object_bucket upload))) in
  if negb valid_url || negb (bool_decide (required_headers issued = expected_headers))
  then Err mkUploadIssueError else Ok ().

Section Handlers.
Context {G Value : Type}.
Context (sha256 : list Z → list Z).
Context (upload_to_vec : CreateUploadRequest → option (list Z)).
Context (job_to_vec : CreateJobRequest → option (list Z)).
Context (result_from_slice : list Z → option (DocumentResult Value)).
Context (parse_uri : string → option UriParts).

Notation World := (Db * G)%type.

Record AppState := mkAppState {
  capability : ApiCapability.ApiCapability;
  job_status_cache : JobStatusCache G;
  job_status_cache_policy : CachePolicy;
  results : StoredResultLocator → Z → G → result ResultArtifactError (list Z) * G;
  result_artifacts_configured : bool;
  uploads : StoredUpload → G → result UploadIssueError IssuedUpload * G;
  upload_buckets : gmap string string;
  upload_intents_configured : bool;
  upload_artifacts : StoredUpload → G →
    result UploadArtifactError.UploadArtifactError VerifiedUploadArtifact * G;
  upload_artifacts_configured : bool;
}.

(** The services of a router that is built without them. *)
Definition UnavailableUploadArtifactReader (_ : StoredUpload) (g : G)
    : result UploadArtifactError.UploadArtifactError VerifiedUploadArtifact * G :=
  (Err UploadArtifactError.Unavailable, g).
Definition UnavailableUploadIssuer (_ : StoredUpload) (g : G) : result UploadIssueError IssuedUpload * G :=
  (Err mkUploadIssueError, g).
Definition UnavailableResultReader (_ : StoredResultLocator) (_ : Z) (g : G)
    : result ResultArtifactError (list Z) * G :=
  (Err mkResultArtifactError, g).

Definition default_job_status_cache_policy : CachePolicy :=
  mkCachePolicy (10 * 1000000000) (300 * 1000000000) (25 * 1000000) 512.

(** [router_with_runtime_dependencies]: the other constructors are its special cases. *)
Definition router_with_runtime_dependencies (capability : ApiCapability.ApiCapability)
    (results : option (StoredResultLocator → Z → G → result ResultArtifactError (list Z) * G))
    (upload_buckets : gmap string string)
    (uploads : option (StoredUpload → G → result UploadIssueError IssuedUpload * G))
    (upload_artifacts : option (StoredUpload → G →
      result UploadArtifactError.UploadArtifactError VerifiedUploadArtifact * G))
    (cache : option (JobStatusCache G * CachePolicy)) : AppState :=
  let '(job_status_cache, job_status_cache_policy) :=
    default (UnavailableJobStatusCache, default_job_status_cache_policy) cache in
  {| capability := capability; job_status_cache := job_status_cache;
     job_status_cache_policy := job_status_cache_policy;
     results := default UnavailableResultReader results;
     result_artifacts_configured := bool_decide (is_Some results);
     uploads := default UnavailableUploadIssuer uploads; upload_buckets := upload_buckets;
     upload_intents_configured := bool_decide (is_Some uploads);
     upload_artifacts := default UnavailableUploadArtifactReader upload_artifacts;
     upload_artifacts_configured := bool_decide (is_Some upload_artifacts) |}.

(** [ready] is [PgJobStore::ready], a query without tables. *)
Definition readiness (state : AppState) (ready : bool) (request_id : string) : result ApiError Z :=
  if (ApiCapability.serves_jobs (capability state) && negb (result_artifacts_configured state))
     || (ApiCapability.serves_uploads (capability state)
         && (negb (upload_intents_configured state) || negb (upload_artifacts_configured state)))
  then Err (ApiError.unavailable request_id)
  else if negb ready then Err (ApiError.unavailable request_id) else Ok 200.

(** *** The status cache *)

Definition cache_job_status (state : AppState) (scope : CacheScope) (job : StoredJob) (g : G) : G :=
  let record := CacheRecord_new scope (sj_state job) (sj_created_at job) in
  let ttl := policy_ttl (job_status_cache_policy state) (sj_state job) in
  (cache_put (job_status_cache state) scope record ttl g).2.

Definition read_cached_job_status (state : AppState) (scope : CacheScope) (g : G)
    : option CacheRecord * G :=
  match cache_get (job_status_cache state) scope g with
  | (Ok (Some record), g) => (if matches_scope record scope then Some record else None, g)
  | (_, g) => (None, g)
  end.

(** *** Uploads *)

Definition create_upload_command (identity : TrustedIdentity) (idempotency_key : IdempotencyKey)
    (request_digest : RequestDigest) (upload_id : UploadId) (bucket : string)
    (command : CreateUploadRequest) (clock : Z) : CreateUpload :=
  {| cu_upload_id := upload_id; cu_tenant_id := identity_tenant identity;
     cu_product_id := identity_product identity; cu_idempotency_key := idempotency_key;
     cu_request_digest := request_digest; cu_object_bucket := bucket;
     cu_object_name :=
       "products/" +:+ ProductId_str (identity_product identity) +:+ "/tenants/"
       +:+ TenantId_str (identity_tenant identity) +:+ "/quarantine/" +:+ UploadId_str upload_id;
     cu_expected_content_type := request_content_type command;
     cu_expected_content_length := request_content_length command;
     cu_expected_digest := request_sha256 command;
     cu_expires_at := clock + 60 * UPLOAD_INTENT_TTL_MINUTES |}.

(** The checks of [create_upload] up to its command. *)
Definition upload_command (state : AppState) (identity : TrustedIdentity) (headers : HeaderMap)
    (payload : option CreateUploadRequest) (fresh request_id : string) (clock : Z)
    : result ApiError CreateUpload :=
  let? idempotency_key := idempotency_key_of headers request_id in
  let? command := ok_or payload (invalid_upload_request request_id) in
  if negb (is_supported_content_type (request_content_type command))
     || negb (contains 1 MAXIMUM_UPLOAD_BYTES (request_content_length command))
     || negb (is_ok (RequestDigest_new (request_sha256 command)))
  then Err (invalid_upload_request request_id)
  else
    let? bucket :=
      ok_or (upload_buckets state !! ProductId_str (identity_product identity))
        (ApiError.unavailable request_id) in
    let? canonical := ok_or (upload_to_vec command) (invalid_upload_request request_id) in
    let? request_digest :=
      map_err (RequestDigest_new (sha256_digest (sha256 canonical)))
        (λ _, invalid_upload_request request_id) in
    let? upload_id :=
      map_err (UploadId_new ("upl_" +:+ fresh)) (λ _, ApiError.unavailable request_id) in
    Ok (create_upload_command identity idempotency_key request_digest upload_id bucket command clock).

Definition create_upload (state : AppState) (identity : TrustedIdentity) (headers : HeaderMap)
    (payload : option CreateUploadRequest) (fresh request_id : string) (now clock : Z)
    (meanwhile : World → World) (world : World)
    : result ApiError (Z * UploadIntentResponse) * World :=
  let '(db, g) := world in
  match upload_command state identity headers payload fresh request_id clock with
  | Err e => (Err e, world)
  | Ok command =>
      match StoreUploads.create_upload now command db with
      | Err IdempotencyConflict => (Err (ApiError.conflict request_id), world)
      | Err _ => (Err (ApiError.unavailable request_id), world)
      | Ok (outcome, db) =>
          let '(status, upload) :=
            match outcome with
            | CreateUploadOutcome.Created upload => (201, upload)
            | CreateUploadOutcome.Existing upload => (200, upload)
            end in
          let '(db, g) := meanwhile (db, g) in
          match uploads state upload g with
          | (Err _, g) => (Err (ApiError.unavailable request_id), (db, g))
          | (Ok issued, g) =>
              (let? _ := map_err (validate_issued_upload parse_uri issued upload)
                           (λ _, ApiError.unavailable request_id) in
               Ok (status,
                   {| intent_upload_id := su_upload_id upload; intent_method := "PUT";
                      intent_upload_url := upload_url issued;
                      intent_required_headers := required_headers issued;
                      intent_expires_at := su_expires_at upload |}), (db, g))
          end
      end
  end.

Definition get_upload (identity : TrustedIdentity) (upload_id request_id : string) (db : Db)
    : result ApiError UploadStatusResponse :=
  let? upload_id := map_err (UploadId_new upload_id) (λ _, ApiError.upload_not_found request_id) in
  let? found :=
    map_err (find_upload (identity_tenant identity) (identity_product identity) upload_id db)
      (λ _, ApiError.unavailable request_id) in
  let? upload := ok_or found (ApiError.upload_not_found request_id) in
  Ok (mkUploadStatusResponse (su_upload_id upload) (upload_status (su_state upload))).

Definition complete_upload (state : AppState) (identity : TrustedIdentity) (upload_id request_id : string)
    (now : Z) (clock : nat → Z) (meanwhile : World → World) (world : World)
    : result ApiError UploadStatusResponse * World :=
  let '(db, g) := world in
  match UploadId_new upload_id with
  | Err _ => (Err (ApiError.upload_not_found request_id), world)
  | Ok upload_id =>
      match find_upload (identity_tenant identity) (identity_product identity) upload_id db with
      | Err _ => (Err (ApiError.unavailable request_id), world)
      | Ok None => (Err (ApiError.upload_not_found request_id), world)
      | Ok (Some upload) =>
          match su_state upload with
          | UploadState.Uploaded => (Ok (mkUploadStatusResponse upload_id "uploaded"), world)
          | UploadState.Reserved =>
              if su_expires_at upload <=? clock 0%nat then (Err (upload_expired request_id), world)
              else
                match upload_artifacts state upload g with
                | (Err UploadArtifactError.NotFound, g) =>
                    (Err (ApiError.upload_conflict "upload_not_ready"
                            "uploaded object is not available" request_id), (db, g))
                | (Err UploadArtifactError.Invalid, g) =>
                    (Err (ApiError.upload_verification_failed request_id), (db, g))
                | (Err UploadArtifactError.Unavailable, g) =>
                    (Err (ApiError.unavailable request_id), (db, g))
                | (Ok artifact, g) =>
                    let '(db, g) := meanwhile (db, g) in
                    match record_uploaded now (clock 1%nat) (identity_tenant identity)
                            (identity_product identity) upload_id
                            {| ru_object_version := verified_object_version artifact;
                               ru_verified_content_type := verified_content_type artifact;
                               ru_verified_content_length := verified_content_length artifact;
                               ru_verified_digest := verified_digest artifact |} db with
                    | Err _ => (Err (ApiError.unavailable request_id), (db, g))
                    | Ok (outcome, db) =>
                        (match outcome with
                         | RecordUploadOutcome.Recorded _ | RecordUploadOutcome.Existing _ =>
                             Ok (mkUploadStatusResponse upload_id "uploaded")
                         | RecordUploadOutcome.Expired => Err (upload_expired request_id)
                         | RecordUploadOutcome.VerificationMismatch =>
                             Err (ApiError.upload_verification_failed request_id)
                         | RecordUploadOutcome.NotRecordable => Err (upload_not_completable request_id)
                         | RecordUploadOutcome.NotFound => Err (ApiError.upload_not_found request_id)
                         end, (db, g))
                    end
                end
          | _ => (Err (upload_not_completable request_id), world)
          end
      end
  end.

(** *** Jobs *)

(** The checks of [create_job] up to its command. *)
Definition job_command (identity : TrustedIdentity) (headers : HeaderMap)
    (payload : option CreateJobRequest) (fresh request_id : string) : result ApiError CreateJob :=
  let? idempotency_key := idempotency_key_of headers request_id in
  let? command := ok_or payload (invalid_job_request request_id) in
  if negb (has_valid_bounds command)
  then Err (ApiError.bad_request "invalid_job_request" "job request is invalid" request_id)
  else
    let? upload_id :=
      map_err (UploadId_new (request_source_upload_id command)) (λ _, invalid_job_request request_id) in
    let? webhook_subscription_id :=
      match request_webhook_subscription_id command with
      | None => Ok None
      | Some value =>
          let? id :=
            map_err (WebhookSubscriptionId_new value)
              (λ _, ApiError.bad_request "invalid_webhook_subscription_id"
                      "webhook subscription id is invalid" request_id) in
          Ok (Some id)
      end in
    let? canonical := ok_or (job_to_vec command) (invalid_job_request request_id) in
    let? request_digest :=
      map_err (RequestDigest_new (sha256_digest (sha256 canonical)))
        (λ _, invalid_job_request request_id) in
    let? generated_id :=
      map_err (JobId_new ("job_" +:+ fresh)) (λ _, ApiError.unavailable request_id) in
    Ok {| cj_job_id := generated_id; cj_tenant_id := identity_tenant identity;
          cj_product_id := identity_product identity; cj_idempotency_key := idempotency_key;
          cj_request_digest := request_digest; cj_upload_id := upload_id;
          cj_webhook_subscription_id := webhook_subscription_id;
          cj_extraction := request_extraction command |}.

Definition job_scope (identity : TrustedIdentity) (job_id : JobId) : CacheScope :=
  mkCacheScope (identity_product identity) (identity_tenant identity) job_id.

Definition create_job (state : AppState) (identity : TrustedIdentity) (headers : HeaderMap)
    (payload : option CreateJobRequest) (fresh request_id : string) (now : Z)
    (meanwhile : World → World) (world : World) : result ApiError (Z * JobResponse) * World :=
  let '(db, g) := world in
  match job_command identity headers payload fresh request_id with
  | Err e => (Err e, world)
  | Ok command =>
      match create now command db with
      | Err IdempotencyConflict => (Err (ApiError.conflict request_id), world)
      | Err UploadSourceUnavailable => (Err (ApiError.upload_not_found request_id), world)
      | Err _ => (Err (ApiError.unavailable request_id), world)
      | Ok (outcome, db) =>
          let job :=
            match outcome with
            | CreateOutcome.Created job | CreateOutcome.Existing job => job
            end in
          let status_url := "/v1/ocr/jobs/" +:+ JobId_str (sj_job_id job) in
          let result_url := status_url +:+ "/result" in
          let '(db, g) := meanwhile (db, g) in
          let g := cache_job_status state (job_scope identity (sj_job_id job)) job g in
          (Ok (202, {| response_job_id := sj_job_id job; response_status := sj_state job;
                       response_created_at := sj_created_at job;
                       response_status_url := Some status_url;
                       response_result_url := Some result_url |}), (db, g))
      end
  end.

Definition plain_response (job_id : JobId) (status : JobState) (created_at : Z) : JobResponse :=
  {| response_job_id := job_id; response_status := status; response_created_at := created_at;
     response_status_url := None; response_result_url := None |}.

(** [meanwhile 0] before the query, [meanwhile 1] before the cache is written. *)
Definition get_job (state : AppState) (identity : TrustedIdentity) (job_id request_id : string)
    (meanwhile : nat → World → World) (world : World) : result ApiError JobResponse * World :=
  let '(db, g) := world in
  match JobId_new job_id with
  | Err _ => (Err (ApiError.not_found request_id), world)
  | Ok job_id =>
      let scope := job_scope identity job_id in
      match read_cached_job_status state scope g with
      | (Some record, g) =>
          (Ok (plain_response job_id (record_status record) (record_created_at record)), (db, g))
      | (None, g) =>
          let '(db, g) := meanwhile 0%nat (db, g) in
          match StoreJobs.find (identity_tenant identity) (identity_product identity) job_id db with
          | Err _ => (Err (ApiError.unavailable request_id), (db, g))
          | Ok None => (Err (ApiError.not_found request_id), (db, g))
          | Ok (Some job) =>
              let '(db, g) := meanwhile 1%nat (db, g) in
              let g := cache_job_status state scope job g in
              (Ok (plain_response (sj_job_id job) (sj_state job) (sj_created_at job)), (db, g))
          end
      end
  end.

Definition cancel_job (state : AppState) (identity : TrustedIdentity) (job_id request_id : string)
    (now : Z) (meanwhile : World → World) (world : World) : result ApiError JobResponse * World :=
  let '(db, g) := world in
  match JobId_new job_id with
  | Err _ => (Err (ApiError.not_found request_id), world)
  | Ok job_id =>
      match cancel now (identity_tenant identity) (identity_product identity) job_id db with
      | Err _ => (Err (ApiError.unavailable request_id), world)
      | Ok (CancelOutcome.NotCancellable _, db) => (Err (ApiError.not_cancellable request_id), (db, g))
      | Ok (CancelOutcome.NotFound, db) => (Err (ApiError.not_found request_id), (db, g))
      | Ok (CancelOutcome.Requested job, db) | Ok (CancelOutcome.Existing job, db) =>
          let '(db, g) := meanwhile (db, g) in
          let g := cache_job_status state (job_scope identity (sj_job_id job)) job g in
          (Ok (plain_response (sj_job_id job) (sj_state job) (sj_created_at job)), (db, g))
      end
  end.

(** [get_result] of [Finalizer] with the answers of the handler. *)
Definition serve_error (request_id : string) (e : ServeError.ServeError) : ApiError :=
  match e with
  | ServeError.NotFound => ApiError.not_found request_id
  | ServeError.ResultNotReady => ApiError.result_not_ready request_id
  | ServeError.ResultUnavailable => ApiError.result_unavailable request_id
  | ServeError.Unavailable => ApiError.unavailable request_id
  end.

Definition get_result_response (state : AppState) (identity : TrustedIdentity)
    (job_id request_id : string) (db : Db) (g : G) : result ApiError (DocumentResult Value) * G :=
  let '(served, g) :=
    get_result sha256 (results state) result_from_slice (identity_tenant identity)
      (identity_product identity) job_id db g in
  (map_err served (serve_error request_id), g).
End Handlers.
