(* ===== verification/ApiFacts.v ===== *)
(** * ApiFacts: what clients of the HTTP boundary can rely on

    Job states answered from the cache or the database were true when they were stored,
    whatever other requests and workers do in between; creating a job twice with one
    idempotency key gives one job; an upload is reported as uploaded only with the
    verified object that was reserved. *)

From S2P Require Import Prelude Text DomainTypes Identifiers JobLifecycle Digest Document.
From S2P Require Import PageWorkflow StoreTypes.
From S2P Require Import StoreChecks StoreDb StoreJobs StoreUploads StoreRun StoreJobsFacts.
From S2P Require Import StoreUploadsFacts Storage Promotion ApiTypes StatusCache UploadIntents.
From S2P Require Import Api.

#[local] Open Scope list_scope.
#[local] Open Scope Z_scope.

(** ** Identifiers are what their constructors accepted *)

Definition identity_valid (identity : TrustedIdentity) : Prop :=
  id_valid (identity_product identity) ∧ id_valid (identity_tenant identity).

Lemma TrustedIdentity_new_valid product tenant identity :
  TrustedIdentity_new product tenant = Ok identity → identity_valid identity.
Proof.
  unfold TrustedIdentity_new. intros (p & Hp & (t & Ht & [= <-])%and_then_Ok)%and_then_Ok.
  split; by eapply id_new_valid.
Qed.

(** ** The commands of the handlers *)

Section Commands.
Context (sha256 : list Z → list Z) (job_to_vec : CreateJobRequest → option (list Z)).

#[local] Notation job_command := (job_command sha256 job_to_vec).

Lemma job_command_spec identity headers payload fresh rid command :
  job_command identity headers payload fresh rid = Ok command →
  ∃ request canonical value,
    payload = Some request ∧ has_valid_bounds request = true
    ∧ header_str headers "idempotency-key" = Some value
    ∧ IdempotencyKey_new value = Ok (cj_idempotency_key command)
    ∧ job_to_vec request = Some canonical
    ∧ RequestDigest_str (cj_request_digest command) = sha256_digest (sha256 canonical)
    ∧ JobId_new ("job_" +:+ fresh) = Ok (cj_job_id command)
    ∧ UploadId_new (request_source_upload_id request) = Ok (cj_upload_id command)
    ∧ cj_tenant_id command = identity_tenant identity
    ∧ cj_product_id command = identity_product identity.
Proof.
  unfold job_command, idempotency_key_of.
  intros (key & (value & Hv%ok_or_Ok & Hkey%map_err_Ok)%and_then_Ok
          & (request & Hr%ok_or_Ok & Hrest)%and_then_Ok)%and_then_Ok.
  destruct (has_valid_bounds request) eqn:Hb; simpl in Hrest; [|done].
  apply and_then_Ok in Hrest as (u & Hu%map_err_Ok & (w & _ & (canonical & Hc%ok_or_Ok
    & (d & Hd%map_err_Ok & (j & Hj%map_err_Ok & [= <-])%and_then_Ok)%and_then_Ok)%and_then_Ok)%and_then_Ok).
  exists request, canonical, value. simpl. split_and!; try done.
  exact (id_new_str (T := RequestDigest) _ _ Hd).
Qed.

Lemma job_command_valid identity headers payload fresh rid command now :
  identity_valid identity → job_command identity headers payload fresh rid = Ok command →
  op_valid (OpCreate now command).
Proof.
  intros [Hp Ht] (? & ? & ? & _ & _ & _ & _ & _ & _ & Hj & Hu & Ht' & Hp')%job_command_spec.
  simpl. rewrite Ht', Hp'.
  split_and!; [exact (id_new_valid (T := JobId) _ _ Hj)|done|done|exact (id_new_valid (T := UploadId) _ _ Hu)].
Qed.

(** The same request with another identifier and at another time is the same command. *)
Lemma job_command_again identity headers payload fresh rid command headers' fresh' rid' id :
  job_command identity headers payload fresh rid = Ok command →
  header_str headers' "idempotency-key" = header_str headers "idempotency-key" →
  JobId_new ("job_" +:+ fresh') = Ok id →
  ∃ command', job_command identity headers' payload fresh' rid' = Ok command'
    ∧ cj_request_digest command' = cj_request_digest command
    ∧ cj_webhook_subscription_id command' = cj_webhook_subscription_id command.
Proof.
  unfold job_command, idempotency_key_of.
  intros (key & (value & Hv%ok_or_Ok & Hkey%map_err_Ok)%and_then_Ok
          & (request & Hr%ok_or_Ok & Hrest)%and_then_Ok)%and_then_Ok Hsame Hid.
  rewrite Hsame, Hv, Hr. simpl. rewrite Hkey. simpl.
  destruct (negb (has_valid_bounds request)); [done|].
  apply and_then_Ok in Hrest as (u & Hu%map_err_Ok & (w & Hw & (canonical & Hc%ok_or_Ok
    & (d & Hd%map_err_Ok & (j & Hj%map_err_Ok & [= <-])%and_then_Ok)%and_then_Ok)%and_then_Ok)%and_then_Ok).
  rewrite Hu. simpl.
  assert (match request_webhook_subscription_id request with
    | None => Ok None
    | Some value0 => let? id0 := map_err (WebhookSubscriptionId_new value0)
        (λ _, ApiError.bad_request "invalid_webhook_subscription_id"
                "webhook subscription id is invalid" rid') in Ok (Some id0)
    end = Ok (E := ApiError) w) as ->.
  { destruct (request_webhook_subscription_id request); [|done].
    by destruct (WebhookSubscriptionId_new _). }
  simpl in Hid |- *. rewrite Hc. simpl. rewrite Hd. simpl. rewrite Hid. simpl. by eexists.
Qed.
End Commands.

(** ** Jobs and the cache *)

Section Jobs.
Context {serde_size jsonb_size : RawPageWorkflow → Z}.
Context {G : Type} {cache : JobStatusCache G} {holds : G → CacheScope → CacheRecord → Prop}.
Context {Hfaithful : FaithfulCache cache holds}.
Context (sha256 : list Z → list Z) (job_to_vec : CreateJobRequest → option (list Z)).
Context (state : @AppState G) (Hcache : job_status_cache state = cache).

#[local] Notation reachable := (reachable serde_size jsonb_size).
#[local] Notation effect_of_ops := (effect_of_ops serde_size jsonb_size).
#[local] Notation create_job := (create_job sha256 job_to_vec state).

(** The job of a scope has this state in a database. *)
Definition status_at (db : Db) (s : CacheScope) (status : JobState) (created_at : Z) : Prop :=
  ∃ row, select_job (scope_tenant_id s) (scope_product_id s) (scope_job_id s) db = Some row
    ∧ jr_status row = job_state_text status ∧ jr_created_at row = created_at.

(** It had this state in a database that the present one comes from. *)
Definition was_status (db : Db) (s : CacheScope) (status : JobState) (created_at : Z) : Prop :=
  ∃ db0, reachable db0 ∧ effect_of_ops db0 db ∧ status_at db0 s status created_at.

(** A database that the store can reach, and a cache of states that jobs really had. *)
Definition world_ok (w : Db * G) : Prop :=
  reachable w.1 ∧ ∀ s status created_at, scope_valid s →
    holds w.2 s (CacheRecord_new s status created_at) → was_status w.1 s status created_at.

(** Code that changes the database by operations of the store, and keeps the cache true. *)
Definition quiet (f : Db * G → Db * G) : Prop :=
  ∀ w, world_ok w → world_ok (f w) ∧ effect_of_ops w.1 (f w).1.

Lemma was_now db s status created_at : reachable db → status_at db s status created_at →
  was_status db s status created_at.
Proof. intros Hr Hs. exists db. split_and!; [done|apply effect_none|done]. Qed.

Lemma was_later db db' s status created_at : was_status db s status created_at →
  effect_of_ops db db' → was_status db' s status created_at.
Proof. intros (db0 & Hr & He & Hs) He'. exists db0. split_and!; [done|by eapply effect_trans|done]. Qed.

(** A state of the past leads to the present one; a final state is the present one. *)
Lemma was_present db s status created_at : was_status db s status created_at →
  ∃ present, status_at db s present created_at ∧ lifecycle_path status present
    ∧ (delivered status = true → present = status).
Proof.
  intros (db0 & Hr & (ops & Hops & ->) & row & (Hl & Ht & Hp)%select_job_Some & Hs & Hc).
  destruct (run_ops_row serde_size jsonb_size ops db0 (JobId_str (scope_job_id s)) row status)
    as (present & Hl' & Hpath & Hdel); [by eapply reachable_jobs_ok|done..|].
  exists present. split_and!; [|done|by intros [? _]%Hdel].
  exists (set_job_status row (job_state_text present)). split; [|done]. by apply select_job_Some.
Qed.

Lemma world_effect db db' g : world_ok (db, g) → effect_of_ops db db' → world_ok (db', g).
Proof.
  intros [Hr Hh] He. split; simpl in *; [by eapply effect_reachable|].
  intros s status created_at Hv Hheld. eapply was_later; [by apply Hh|done].
Qed.

Lemma cache_job_status_ok db g scope job :
  world_ok (db, g) → scope_valid scope → was_status db scope (sj_state job) (sj_created_at job) →
  world_ok (db, cache_job_status state scope job g).
Proof.
  intros [Hr Hh] Hv Hw. split; [done|]. intros s status created_at Hs. simpl. unfold cache_job_status.
  rewrite Hcache. destruct (cache_put cache _ _ _ g) as [out g'] eqn:Hput. simpl. intros Hheld.
  destruct (put_adds_record _ _ _ _ _ _ _ Hv Hput _ _ Hheld) as [Hold|[-> [= -> ->]]]; [|done].
  by apply Hh.
Qed.

Lemma read_cached_ok db g scope out g' :
  world_ok (db, g) → scope_valid scope → read_cached_job_status state scope g = (out, g') →
  world_ok (db, g')
  ∧ ∀ record, out = Some record → was_status db scope (record_status record) (record_created_at record).
Proof.
  intros [Hr Hh] Hv. unfold read_cached_job_status. rewrite Hcache.
  destruct (cache_get cache scope g) as [answer g1] eqn:Hget. intros Hout.
  assert (Hok : world_ok (db, g1)).
  { split; [done|]. intros s status created_at Hs Hheld. apply Hh; [done|].
    by apply (get_adds_nothing _ _ _ _ Hget). }
  destruct answer as [[record|]|]; try (injection Hout as <- <-; by split).
  injection Hout as <- <-. split; [done|]. intros r.
  destruct (matches_scope record scope) eqn:Hm; [|done]. intros [= <-].
  apply matches_scope_spec in Hm. apply Hh; [done|]. simpl. rewrite <- Hm.
  by eapply get_returns_held.
Qed.

(** What the statements of the handlers return is the state of a job in its scope. *)
Lemma stored_job_at t p id row job db :
  ocr_jobs db !! id = Some row → stored_job id row = Ok job →
  jr_tenant_id row = TenantId_str t → jr_product_id row = ProductId_str p →
  id_valid (sj_job_id job) ∧ status_at db (mkCacheScope p t (sj_job_id job)) (sj_state job) (sj_created_at job).
Proof.
  intros Hl (j & Hj & Hs & Hjob)%stored_job_Ok Ht Hp. rewrite Hjob. simpl.
  split; [exact (id_new_valid (T := JobId) _ _ Hj)|]. exists row. split; [|done].
  apply select_job_Some. simpl. split_and!; [|done..].
  assert (JobId_str j = id) as -> by exact (id_new_str (T := JobId) _ _ Hj). done.
Qed.

Lemma find_at t p j db job : StoreJobs.find t p j db = Ok (Some job) → id_valid j →
  sj_job_id job = j ∧ status_at db (mkCacheScope p t j) (sj_state job) (sj_created_at job).
Proof.
  unfold StoreJobs.find. destruct (select_job t p j db) as [row|] eqn:Hj; [|done].
  intros (found & Hst & [= <-])%and_then_Ok Hv. pose proof Hj as (Hl & Ht & Hp)%select_job_Some.
  destruct (stored_job_at t p _ _ _ _ Hl Hst Ht Hp) as [_ Hat].
  assert (sj_job_id found = j) as Hid; [|by rewrite Hid in Hat].
  apply stored_job_Ok in Hst as (j' & Hj' & _ & ->). unfold id_valid in Hv. simpl in *. congruence.
Qed.

Lemma create_at now r db out db1 :
  create now r db = Ok (out, db1) →
  let job := match out with CreateOutcome.Created job | CreateOutcome.Existing job => job end in
  id_valid (sj_job_id job)
  ∧ status_at db1 (mkCacheScope (cj_product_id r) (cj_tenant_id r) (sj_job_id job)) (sj_state job)
      (sj_created_at job).
Proof.
  intros (id & row & job & Hl & (Hp & Ht & _) & _ & _ & Hst & Hout)%create_Ok.
  assert (match out with CreateOutcome.Created job | CreateOutcome.Existing job => job end = job) as ->
    by by destruct Hout as [-> | ->].
  by eapply stored_job_at.
Qed.

Lemma cancel_at now t p j db out db1 job :
  cancel now t p j db = Ok (out, db1) →
  out = CancelOutcome.Requested job ∨ out = CancelOutcome.Existing job →
  id_valid (sj_job_id job)
  ∧ status_at db1 (mkCacheScope p t (sj_job_id job)) (sj_state job) (sj_created_at job).
Proof.
  unfold cancel. destruct (update_job_status _ _ _ _ _ _) as [[row db']|] eqn:Hu.
  - apply update_job_status_Some in Hu as (old & (Hl & Ht & Hp)%select_job_Some & _ & -> & ->).
    intros (stored & Hst & [= <- <-])%and_then_Ok [[= <-]|]; [|done].
    eapply stored_job_at; [|done..]. by simplify_map_eq.
  - destruct (select_job t p j db) as [row|] eqn:Hj; [|by intros [= <- <-] [|]].
    apply select_job_Some in Hj as (Hl & Ht & Hp).
    intros (stored & Hst & Hout)%and_then_Ok Hcase.
    assert (db1 = db ∧ stored = job) as [-> ->]; [|by eapply stored_job_at].
    destruct (sj_state stored); injection Hout as <- <-; destruct Hcase as [[=]|[=]]; by subst.
Qed.

(** The end of the handlers: others act, then the cache is written. *)
Lemma cached_answer (meanwhile : Db * G → Db * G) w scope job :
  world_ok w → quiet meanwhile → scope_valid scope →
  was_status w.1 scope (sj_state job) (sj_created_at job) →
  let w' := meanwhile w in
  world_ok (w'.1, cache_job_status state scope job w'.2) ∧ effect_of_ops w.1 w'.1
  ∧ was_status w'.1 scope (sj_state job) (sj_created_at job).
Proof.
  intros Hok Hq Hv Hw. destruct (Hq _ Hok) as [Hok' He]. simpl.
  assert (Hw' := was_later _ _ _ _ _ Hw He). split_and!; [|done|done].
  apply cache_job_status_ok; [by destruct (meanwhile w)|done|done].
Qed.

Lemma create_job_ok identity headers payload fresh rid now meanwhile w :
  identity_valid identity → quiet meanwhile → world_ok w →
  let '(out, w') := create_job identity headers payload fresh rid now meanwhile w in
  world_ok w' ∧ effect_of_ops w.1 w'.1.
Proof.
  intros Hid Hq Hok. unfold create_job. destruct w as [db g].
  destruct (job_command _ _ _ _ _ _ _) as [command|] eqn:Hc; [|split; [done|apply effect_none]].
  destruct (create now command db) as [[out db1]|e] eqn:Hcreate;
    [|destruct e; (split; [done|apply effect_none])].
  assert (He : effect_of_ops db db1).
  { rewrite <- (db_after_Ok _ _ _ _ Hcreate). apply (effect_op (OpCreate now command)).
    by eapply job_command_valid. }
  destruct (create_at _ _ _ _ _ Hcreate) as [Hj Hat].
  destruct (job_command_spec _ _ _ _ _ _ _ _ Hc) as (? & ? & ? & _ & _ & _ & _ & _ & _ & _ & _ & Ht & Hp).
  rewrite Ht, Hp in Hat. set (job := match out with CreateOutcome.Created job => job | _ => _ end) in *.
  assert (Hok1 := world_effect _ _ _ Hok He).
  destruct (cached_answer meanwhile (db1, g) (job_scope identity (sj_job_id job)) job Hok1 Hq) as (Hok2 & He2 & _).
  { destruct Hid. by split_and!. }
  { apply was_now; [apply Hok1|exact Hat]. }
  destruct (meanwhile (db1, g)) as [db2 g2]. simpl in *. split; [done|by eapply effect_trans].
Qed.

Lemma get_job_ok identity id rid (meanwhile : nat → Db * G → Db * G) w :
  identity_valid identity → (∀ i, quiet (meanwhile i)) → world_ok w →
  let '(out, w') := get_job state identity id rid meanwhile w in
  world_ok w' ∧ effect_of_ops w.1 w'.1
  ∧ ∀ answer, out = Ok answer →
      JobId_new id = Ok (response_job_id answer)
      ∧ was_status w'.1 (job_scope identity (response_job_id answer)) (response_status answer)
          (response_created_at answer).
Proof.
  intros Hid Hq Hok. unfold get_job. destruct w as [db g].
  destruct (JobId_new id) as [j|] eqn:Hj; [|split_and!; [done|apply effect_none|done]].
  assert (Hjv : id_valid j) by exact (id_new_valid (T := JobId) _ _ Hj).
  assert (Hv : scope_valid (job_scope identity j)) by (destruct Hid; by split_and!).
  destruct (read_cached_job_status _ _ g) as [cached g1] eqn:Hread.
  destruct (read_cached_ok _ _ _ _ _ Hok Hv Hread) as [Hok1 Hcached].
  destruct cached as [record|].
  { split_and!; [done|apply effect_none|]. intros answer [= <-]. simpl. split; [done|].
    by apply Hcached. }
  destruct (Hq 0%nat _ Hok1) as [Hok2 He2]. destruct (meanwhile 0%nat (db, g1)) as [db2 g2]. simpl in *.
  destruct (StoreJobs.find _ _ j db2) as [[job|]|] eqn:Hf; [|by split_and!..].
  destruct (find_at _ _ _ _ _ Hf Hjv) as [Hjid Hat].
  assert (Hw2 := was_now _ _ _ _ (proj1 Hok2) Hat).
  destruct (cached_answer (meanwhile 1%nat) (db2, g2) (job_scope identity j) job Hok2 (Hq 1%nat) Hv Hw2)
    as (Hok3 & He3 & Hw3).
  destruct (meanwhile 1%nat (db2, g2)) as [db3 g3]. simpl in *.
  split_and!; [done|by eapply effect_trans|]. intros answer [= <-]. simpl. by rewrite Hjid.
Qed.

Lemma cancel_job_ok identity id rid now meanwhile w :
  identity_valid identity → quiet meanwhile → world_ok w →
  let '(out, w') := cancel_job state identity id rid now meanwhile w in
  world_ok w' ∧ effect_of_ops w.1 w'.1.
Proof.
  intros Hid Hq Hok. unfold cancel_job. destruct w as [db g].
  destruct (JobId_new id) as [j|] eqn:Hj; [|split; [done|apply effect_none]].
  destruct (cancel now _ _ j db) as [[out db1]|e] eqn:Hcancel; [|split; [done|apply effect_none]].
  assert (He : effect_of_ops db db1).
  { rewrite <- (db_after_Ok _ _ _ _ Hcancel).
    by apply (effect_op (OpCancel now (identity_tenant identity) (identity_product identity) j)). }
  assert (Hok1 := world_effect _ _ _ Hok He).
  assert (Hanswer : ∀ job, out = CancelOutcome.Requested job ∨ out = CancelOutcome.Existing job →
    let '(db2, g2) := meanwhile (db1, g) in
    world_ok (db2, cache_job_status state (job_scope identity (sj_job_id job)) job g2)
    ∧ effect_of_ops db db2).
  { intros job Hout. destruct (cancel_at _ _ _ _ _ _ _ _ Hcancel Hout) as [Hjv Hat].
    destruct (cached_answer meanwhile (db1, g) (job_scope identity (sj_job_id job)) job Hok1 Hq) as (Hok2 & He2 & _).
    { destruct Hid. by split_and!. }
    { apply was_now; [apply Hok1|exact Hat]. }
    destruct (meanwhile (db1, g)). simpl in *. split; [done|by eapply effect_trans]. }
  destruct out as [job|job| |job]; try done; specialize (Hanswer job (ltac:(by auto)));
    by destruct (meanwhile (db1, g)).
Qed.

(** C12: the job endpoints keep the status cache true: whatever request they answer, and
    whatever well-behaved requests and workers do between their statements, they change
    the database only as operations of the store, and every state that the cache can
    then return for a scope is one that its job had; so they are themselves such
    requests. *)
Theorem job_endpoints_keep_cache_true identity headers payload fresh id rid now meanwhile between :
  identity_valid identity → quiet meanwhile → (∀ i, quiet (between i)) →
  quiet (λ w, (create_job identity headers payload fresh rid now meanwhile w).2)
  ∧ quiet (λ w, (get_job state identity id rid between w).2)
  ∧ quiet (λ w, (cancel_job state identity id rid now meanwhile w).2).
Proof.
  intros Hid Hq Hb. split_and!; intros w Hok.
  - assert (H := create_job_ok identity headers payload fresh rid now meanwhile w Hid Hq Hok).
    by destruct (create_job _ _ _ _ _ _ _ w).
  - assert (H := get_job_ok identity id rid between w Hid Hb Hok).
    destruct (get_job _ _ _ _ _ w). by destruct H as (? & ? & _).
  - assert (H := cancel_job_ok identity id rid now meanwhile w Hid Hq Hok).
    by destruct (cancel_job _ _ _ _ _ _ w).
Qed.

(** A job's status is answered truly: whether it comes from the cache or from the
    database, and whatever other requests and workers do meanwhile, it is a state that
    this job had in the caller's own scope, with the time it was created; the job's
    present state comes from it by transitions of the state machine, and is the same
    when it is a final one. *)
Theorem job_status_was_true identity id rid between w answer w' :
  identity_valid identity → (∀ i, quiet (between i)) → world_ok w →
  get_job state identity id rid between w = (Ok answer, w') →
  JobId_new id = Ok (response_job_id answer)
  ∧ was_status w'.1 (job_scope identity (response_job_id answer)) (response_status answer)
      (response_created_at answer)
  ∧ ∃ present,
      status_at w'.1 (job_scope identity (response_job_id answer)) present (response_created_at answer)
      ∧ lifecycle_path (response_status answer) present
      ∧ (delivered (response_status answer) = true → present = response_status answer).
Proof.
  intros Hid Hb Hok Hget. assert (H := get_job_ok identity id rid between w Hid Hb Hok).
  rewrite Hget in H. destruct H as (_ & _ & Hanswer). destruct (Hanswer _ eq_refl) as [Hj Hw].
  split_and!; [done|done|]. by apply was_present.
Qed.
End Jobs.

(** ** Creating a job again *)

Section Again.
Context {serde_size jsonb_size : RawPageWorkflow → Z} {G : Type}.
Context (sha256 : list Z → list Z) (job_to_vec : CreateJobRequest → option (list Z)).
Context (state : @AppState G).

#[local] Notation reachable := (reachable serde_size jsonb_size).
#[local] Notation effect_of_ops := (effect_of_ops serde_size jsonb_size).
#[local] Notation job_command := (job_command sha256 job_to_vec).
#[local] Notation create_job := (create_job sha256 job_to_vec state).

Definition with_status (answer : JobResponse) (s : JobState) : JobResponse :=
  {| response_job_id := response_job_id answer; response_status := s;
     response_created_at := response_created_at answer;
     response_status_url := response_status_url answer;
     response_result_url := response_result_url answer |}.

(** An accepted request and what it left in the database. *)
Lemma create_job_Ok identity headers payload fresh rid now meanwhile w answer w1 :
  reachable w.1 → identity_valid identity → (∀ w, effect_of_ops w.1 (meanwhile w).1) →
  create_job identity headers payload fresh rid now meanwhile w = (Ok answer, w1) →
  ∃ command id row job db1, job_command identity headers payload fresh rid = Ok command
    ∧ jobs_ok db1 ∧ effect_of_ops db1 w1.1
    ∧ ocr_jobs db1 !! id = Some row ∧ stored_job id row = Ok job
    ∧ has_key row (ProductId_str (cj_product_id command)) (TenantId_str (cj_tenant_id command))
        (IdempotencyKey_str (cj_idempotency_key command))
    ∧ jr_request_digest row = RequestDigest_str (cj_request_digest command)
    ∧ jr_webhook_subscription_id row
      = (WebhookSubscriptionId_str <$> cj_webhook_subscription_id command)
    ∧ answer = (202,
        {| response_job_id := sj_job_id job; response_status := sj_state job;
           response_created_at := sj_created_at job;
           response_status_url := Some ("/v1/ocr/jobs/" +:+ JobId_str (sj_job_id job));
           response_result_url := Some (("/v1/ocr/jobs/" +:+ JobId_str (sj_job_id job)) +:+ "/result") |}).
Proof.
  intros Hr Hid Hm. unfold create_job. destruct w as [db g]. simpl in Hr.
  destruct (job_command _ _ _ _ _) as [command|] eqn:Hc; [|done].
  destruct (create now command db) as [[out db1]|e] eqn:Hcreate; [|by destruct e].
  assert (Hok := create_jobs_ok _ _ _ _ _ _ _ Hr (job_command_valid _ _ _ _ _ _ _ _ now Hid Hc) Hcreate).
  apply create_Ok in Hcreate as (id & row & job & Hl & Hk & Hd & Hw & Hst & Hout).
  assert (Heff := Hm (db1, g)). destruct (meanwhile (db1, g)) as [db2 g2]. simpl in Heff.
  intros [= Hanswer <-]. exists command, id, row, job, db1. split_and!; try done.
  by destruct Hout as [-> | ->].
Qed.

(** C26: creating a job over HTTP is idempotent: after a request was accepted, the same
    request with the same [Idempotency-Key], at any later time, is accepted with the
    same job, its links and its creation time, and the job's state at that time, which
    its first answer leads to; the database does not change.  Another request with that
    key is a conflict, and nothing happens. *)
Theorem http_create_idempotent identity headers payload fresh rid now meanwhile w answer w1 w2
    headers' payload' fresh' rid' now' meanwhile' :
  reachable w.1 → identity_valid identity → (∀ w, effect_of_ops w.1 (meanwhile w).1) →
  create_job identity headers payload fresh rid now meanwhile w = (Ok (202, answer), w1) →
  effect_of_ops w1.1 w2.1 →
  header_str headers' "idempotency-key" = header_str headers "idempotency-key" →
  (payload' = payload → is_ok (JobId_new ("job_" +:+ fresh')) = true →
   ∃ s w3, create_job identity headers' payload' fresh' rid' now' meanwhile' w2
           = (Ok (202, with_status answer s), w3)
     ∧ lifecycle_path (response_status answer) s ∧ w3.1 = (meanwhile' w2).1)
  ∧ (∀ command command', job_command identity headers payload fresh rid = Ok command →
     job_command identity headers' payload' fresh' rid' = Ok command' →
     cj_request_digest command' ≠ cj_request_digest command →
     create_job identity headers' payload' fresh' rid' now' meanwhile' w2
     = (Err (ApiError.conflict rid'), w2)).
Proof.
  intros Hr Hid Hm Hcreate (ops & Hops & Hw2) Hkey.
  destruct (create_job_Ok _ _ _ _ _ _ _ _ _ _ Hr Hid Hm Hcreate)
    as (command & id & row & job & db1 & Hc & Hok & (ops1 & Hops1 & Hw1) & Hl & Hst & Hk & Hd & Hw & [= ->]).
  pose proof Hst as (j & Hj & Hs & Hjob)%stored_job_Ok.
  destruct (run_ops_row serde_size jsonb_size (ops1 ++ ops) db1 id row (sj_state job) Hok
    (proj2 (Forall_app _ _ _) (conj Hops1 Hops)) Hl Hs) as (s & Hl2 & Hpath & _).
  rewrite run_ops_app, <- Hw1, <- Hw2 in Hl2.
  assert (Hok2 : jobs_ok w2.1).
  { rewrite Hw2, Hw1. apply run_ops_jobs_ok; [done|]. by apply run_ops_jobs_ok. }
  assert (Hagain : ∀ command', cj_product_id command' = cj_product_id command →
    cj_tenant_id command' = cj_tenant_id command → cj_idempotency_key command' = cj_idempotency_key command →
    create now' command' w2.1 =
    if bool_decide (cj_request_digest command' = cj_request_digest command)
       && bool_decide (cj_webhook_subscription_id command' = cj_webhook_subscription_id command)
    then Ok (CreateOutcome.Existing (mkStoredJob (sj_job_id job) s (sj_created_at job)), w2.1)
    else Err IdempotencyConflict).
  { intros command' Hp' Ht' Hk'.
    rewrite (create_again _ _ _ _ _ _ Hok2 Hl2 (stored_job_moved _ _ _ s Hst))
      by by rewrite Hp', Ht', Hk'.
    assert (jr_created_at row = sj_created_at job) as -> by by rewrite Hjob.
    simpl. by rewrite Hd, Hw, same_request. }
  pose proof Hc as (request & canonical & key & Hreq & _ & Hh & Hik & Hv & Hdig & _ & _ & Ht & Hp)%job_command_spec.
  destruct w2 as [db2 g2]. simpl in *. split.
  - intros -> (id' & Hid')%is_ok_true.
    destruct (job_command_again sha256 job_to_vec _ _ _ _ _ _ headers' fresh' rid' id' Hc Hkey Hid')
      as (command' & Hc' & Hd' & Hw').
    pose proof Hc' as (? & ? & ? & _ & _ & Hh' & Hik' & _ & _ & _ & _ & Ht' & Hp')%job_command_spec.
    rewrite Hkey in Hh'. unfold create_job. rewrite Hc', Hagain by congruence.
    rewrite !bool_decide_eq_true_2 by done. simpl. destruct (meanwhile' (db2, g2)) as [db3 g3] eqn:Hm'.
    eexists s, _. split; [reflexivity|]. done.
  - intros command0 command' Hc0 Hc' Hne. rewrite Hc in Hc0. injection Hc0 as <-.
    pose proof Hc' as (? & ? & ? & _ & _ & Hh' & Hik' & _ & _ & _ & _ & Ht' & Hp')%job_command_spec.
    rewrite Hkey in Hh'. unfold create_job. rewrite Hc', Hagain by congruence.
    by rewrite bool_decide_eq_false_2.
Qed.
End Again.

(** ** Uploads *)

(** A verification that is recorded, now or before. *)
Lemma record_uploaded_row now clock t p u record db out db' :
  record_uploaded now clock t p u record db = Ok (out, db') →
  (∃ upload, out = RecordUploadOutcome.Recorded upload ∨ out = RecordUploadOutcome.Existing upload) →
  ∃ row, select_upload t p u db' = Some row ∧ ur_status row = "uploaded"
    ∧ ur_object_version row = Some (ru_object_version record)
    ∧ ur_verified_content_type row = Some (ru_verified_content_type record)
    ∧ ur_verified_content_length row = Some (ru_verified_content_length record)
    ∧ ur_verified_digest row = Some (ru_verified_digest record).
Proof.
  unfold record_uploaded. intros (_ & _ & H)%and_then_Ok Hout.
  destruct (select_upload t p u db) as [row|] eqn:Hsel; [|injection H as <- <-; naive_solver].
  destruct (_ && _) eqn:Hguard.
  - apply and_then_Ok in H as (upload & _ & [= <- <-]).
    apply select_upload_Some in Hsel as (_ & Ht & Hp). eexists. split.
    + apply select_upload_Some. simpl. by rewrite lookup_insert_eq.
    + by split_and!.
  - apply and_then_Ok in H as (s & Hs & H). apply parse_upload_state_Ok in Hs.
    destruct s; try (injection H as <- <-; naive_solver);
      destruct (_ && _) eqn:Hsame in H || destruct (_ <=? _) in H;
      try (injection H as <- <-; naive_solver).
    apply and_then_Ok in H as (upload & _ & [= <- <-]).
    rewrite !andb_true_iff, !bool_decide_eq_true in Hsame. exists row. by destruct_and!.
Qed.

Section Completion.
Context {serde_size jsonb_size : RawPageWorkflow → Z} {G : Type} (state : @AppState G).

#[local] Notation reachable := (reachable serde_size jsonb_size).
#[local] Notation effect_of_ops := (effect_of_ops serde_size jsonb_size).

(** C25: an upload is reported as uploaded only with its object: when the completion of
    an upload succeeds, the upload of the caller's scope is in the state uploaded, with
    the version, type, length and digest of a verified object, which are those of its
    reservation; when it was still reserved, these are what was just read back from
    quarantine.  The database changes only by operations of the store. *)
Theorem upload_completion_verified identity upload_id rid now clock meanwhile w answer w' :
  reachable w.1 → (∀ w, effect_of_ops w.1 (meanwhile w).1) →
  complete_upload state identity upload_id rid now clock meanwhile w = (Ok answer, w') →
  effect_of_ops w.1 w'.1
  ∧ ∃ u row before,
      UploadId_new upload_id = Ok u ∧ answer = mkUploadStatusResponse u "uploaded"
      ∧ select_upload (identity_tenant identity) (identity_product identity) u w'.1 = Some row
      ∧ ur_status row = "uploaded" ∧ verified_ok row
      ∧ find_upload (identity_tenant identity) (identity_product identity) u w.1 = Ok (Some before)
      ∧ (su_state before = UploadState.Reserved →
         ∃ artifact g, upload_artifacts state before w.2 = (Ok artifact, g)
           ∧ ur_object_version row = Some (verified_object_version artifact)
           ∧ ur_verified_digest row = Some (verified_digest artifact)).
Proof.
  intros Hr Hm. unfold complete_upload. destruct w as [db g]. simpl in *.
  destruct (UploadId_new upload_id) as [u|]; [|done].
  destruct (find_upload _ _ u db) as [[before|]|] eqn:Hf; [|done|done].
  assert (Hverified : ∀ db1 row, reachable db1 →
    select_upload (identity_tenant identity) (identity_product identity) u db1 = Some row →
    ur_status row = "uploaded" → verified_ok row).
  { intros db1 row Hr1 (Hl & _ & _)%select_upload_Some Hs.
    apply (reachable_uploads_ok _ _ _ Hr1) in Hl.
    by destruct (row_state _ _ UploadState.Uploaded _ Hl Hs eq_refl) as (? & _). }
  destruct (su_state before) eqn:Hstate; try done.
  - destruct (_ <=? _); [done|].
    destruct (upload_artifacts state before g) as [[artifact|[]] g1] eqn:Hart; try done.
    assert (He := Hm (db, g1)). destruct (meanwhile (db, g1)) as [db1 g2]. simpl in He.
    destruct (record_uploaded _ _ _ _ _ _ db1) as [[out db2]|] eqn:Hrec; [|done].
    assert (He2 : effect_of_ops db db2).
    { eapply effect_trans; [done|]. rewrite <- (db_after_Ok _ _ _ _ Hrec).
      by apply (effect_op (OpRecordUploaded _ _ _ _ _ _)). }
    intros Hout. assert (Hcase : (∃ upload, out = RecordUploadOutcome.Recorded upload
      ∨ out = RecordUploadOutcome.Existing upload) ∧ answer = mkUploadStatusResponse u "uploaded" ∧ w' = (db2, g2)).
    { destruct out; try done; injection Hout as <- <-; split_and!; eauto. }
    destruct Hcase as (Hcase & -> & ->). split; [done|].
    destruct (record_uploaded_row _ _ _ _ _ _ _ _ _ Hrec Hcase) as (row & Hsel & Hs & Hv & _ & _ & Hd).
    exists u, row, before. split_and!; try done.
    + eapply Hverified; [|done..]. by eapply effect_reachable.
    + intros _. by exists artifact, g1.
  - intros [= <- <-]. split; [apply effect_none|].
    pose proof Hf as Hf'. unfold find_upload in Hf'. destruct (select_upload _ _ u db) as [row|] eqn:Hsel; [|done].
    apply and_then_Ok in Hf' as (found & Hst & [= ->]).
    assert (Hs : ur_status row = "uploaded").
    { revert Hst. unfold stored_upload. intros (? & _ & (s & Hs%parse_upload_state_Ok & Hst)%and_then_Ok)%and_then_Ok.
      apply and_then_Ok in Hst as (? & _ & [= <-]). simpl in Hstate. by subst s. }
    exists u, row, before. split_and!; try done; [by eapply Hverified|congruence].
Qed.
End Completion.

(** ** Samples *)

(** A cache that remembers the last state it was given. *)
Definition LastCache : JobStatusCache (option (CacheScope * CacheRecord)) :=
  mkJobStatusCache
    (λ scope g, (Ok (match g with
                     | Some (s, record) => if decide (s = scope) then Some record else None
                     | None => None
                     end), g))
    (λ scope record _ _, (Ok (), Some (scope, record))).

#[export] Instance last_faithful : FaithfulCache LastCache (λ g s r, g = Some (s, r)).
Proof.
  constructor; simpl.
  - intros scope record g g' _ [= Hr <-]. destruct g as [[s r]|]; [|done].
    destruct (decide (s = scope)) as [->|]; naive_solver.
  - by intros scope out g g' [= _ <-].
  - intros scope status created_at ttl out g g' _ [= _ <-]. naive_solver.
Qed.

Definition sample_state : @AppState (option (CacheScope * CacheRecord)) :=
  router_with_runtime_dependencies ApiCapability.Full None ∅ None
    (Some (λ _ g, (Ok {| verified_object_version := "1"; verified_content_type := "application/pdf";
                         verified_content_length := 10; verified_digest := sample_digest |}, g)))
    (Some (LastCache, default_job_status_cache_policy)).

Definition sample_identity : TrustedIdentity := mkTrustedIdentity sample_product sample_tenant.

Definition sample_headers : HeaderMap :=
  mkHeaderMap (λ _, None) (λ name, if String.eqb name "idempotency-key" then Some "job-key" else None).

Definition sample_request : CreateJobRequest :=
  mkCreateJobRequest "upl_1" Auto None None ["en"] None None.

Lemma sample_identity_valid : identity_valid sample_identity.
Proof. by split. Qed.

Lemma sample_reachable n : reachable sample_size sample_size (sample_db (firstn n sample_processing_ops)).
Proof.
  exists (firstn n sample_processing_ops). split; [|done].
  eapply (sample_valid_prefix _ (skipn n sample_processing_ops)). symmetry. apply firstn_skipn.
Qed.

#[local] Notation empty_handed db := (db, @None (CacheScope * CacheRecord)).

Lemma sample_world_ok n :
  world_ok (serde_size := sample_size) (jsonb_size := sample_size)
    (holds := λ g s r, g = Some (s, r)) (empty_handed (sample_db (firstn n sample_processing_ops))).
Proof. split; [apply sample_reachable|]. by intros ? ? ? _ [=]. Qed.

Lemma quiet_id {G : Type} ss js (holds : G → CacheScope → CacheRecord → Prop) :
  quiet (serde_size := ss) (jsonb_size := js) (holds := holds) (λ w, w).
Proof. intros w Hok. split; [done|apply effect_none]. Qed.

#[local] Notation sample_sha := (λ bytes : list Z, repeat (zlen bytes) 32).
#[local] Notation sample_vec := (λ request, Some (repeat 7 (String.length (request_source_upload_id request)))).
#[local] Notation sample_create :=
  (create_job sample_sha sample_vec sample_state sample_identity sample_headers (Some sample_request) "9" "req").

Theorem job_endpoints_keep_cache_true_witness :
  world_ok (serde_size := sample_size) (jsonb_size := sample_size) (holds := λ g s r, g = Some (s, r))
    (sample_create 5 (λ w, w) (empty_handed (sample_db (firstn 4 sample_processing_ops)))).2.
Proof.
  assert (Hq := quiet_id sample_size sample_size (λ (g : option (CacheScope * CacheRecord)) s r, g = Some (s, r))).
  destruct (job_endpoints_keep_cache_true (serde_size := sample_size) (jsonb_size := sample_size)
    (cache := LastCache) (holds := λ g s r, g = Some (s, r)) sample_sha sample_vec sample_state eq_refl
    sample_identity sample_headers (Some sample_request) "9" "job_9" "req" 5 (λ w, w) (λ _ w, w)
    sample_identity_valid Hq (λ _, Hq)) as (Hcreate & _).
  exact (proj1 (Hcreate _ (sample_world_ok 4))).
Defined.

Theorem job_status_was_true_witness :
  ∃ w', get_job sample_state sample_identity "job_1" "req" (λ _ w, w)
          (empty_handed (sample_db (firstn 6 sample_processing_ops)))
        = (Ok (plain_response sample_job Processing 5), w')
    ∧ ∃ present, status_at w'.1 (job_scope sample_identity sample_job) present 5
        ∧ lifecycle_path Processing present.
Proof.
  destruct (get_job sample_state sample_identity "job_1" "req" (λ _ w, w)
    (empty_handed (sample_db (firstn 6 sample_processing_ops)))) as [out w'] eqn:Hg.
  assert (Hout : out = Ok (plain_response sample_job Processing 5)).
  { apply (f_equal fst) in Hg. vm_compute in Hg. exact (eq_sym Hg). }
  subst out. exists w'. split; [reflexivity|].
  assert (Hq := quiet_id sample_size sample_size (λ (g : option (CacheScope * CacheRecord)) s r, g = Some (s, r))).
  destruct (job_status_was_true (serde_size := sample_size) (jsonb_size := sample_size)
    (cache := LastCache) (holds := λ g s r, g = Some (s, r)) sample_state eq_refl sample_identity
    "job_1" "req" (λ _ w, w) _ _ w' sample_identity_valid (λ _, Hq) (sample_world_ok 6) Hg)
    as (_ & _ & present & Hat & Hpath & _).
  exists present. split; [exact Hat|exact Hpath].
Defined.

Theorem http_create_idempotent_witness :
  ∃ w1 s w3, sample_create 5 (λ w, w) (empty_handed (sample_db (firstn 4 sample_processing_ops))) = (Ok (202,
      {| response_job_id := mkJobId "job_9"; response_status := Accepted; response_created_at := 5;
         response_status_url := Some "/v1/ocr/jobs/job_9";
         response_result_url := Some "/v1/ocr/jobs/job_9/result" |}), w1)
    ∧ create_job sample_sha sample_vec sample_state sample_identity sample_headers (Some sample_request)
        "10" "again" 8 (λ w, w) w1 = (Ok (202,
      {| response_job_id := mkJobId "job_9"; response_status := s; response_created_at := 5;
         response_status_url := Some "/v1/ocr/jobs/job_9";
         response_result_url := Some "/v1/ocr/jobs/job_9/result" |}), w3).
Proof.
  destruct (sample_create 5 (λ w, w) (empty_handed (sample_db (firstn 4 sample_processing_ops))))
    as [out w1] eqn:Hc.
  assert (Hout : out = Ok (202,
    {| response_job_id := mkJobId "job_9"; response_status := Accepted; response_created_at := 5;
       response_status_url := Some "/v1/ocr/jobs/job_9";
       response_result_url := Some "/v1/ocr/jobs/job_9/result" |})).
  { apply (f_equal fst) in Hc. vm_compute in Hc. exact (eq_sym Hc). }
  subst out.
  destruct (http_create_idempotent (serde_size := sample_size) (jsonb_size := sample_size)
    sample_sha sample_vec sample_state sample_identity sample_headers (Some sample_request) "9" "req" 5
    (λ w, w) (empty_handed (sample_db (firstn 4 sample_processing_ops))) _ w1 w1 sample_headers (Some sample_request) "10" "again" 8 (λ w, w)
    (sample_reachable 4) sample_identity_valid (λ w, effect_none w.1) Hc (effect_none _) eq_refl)
    as [Hagain _].
  destruct (Hagain eq_refl eq_refl) as (s & w3 & Hc' & _ & _).
  exists w1, s, w3. split; [reflexivity|exact Hc'].
Defined.

Theorem upload_completion_verified_witness :
  ∃ w' row, complete_upload sample_state sample_identity "upl_1" "req" 2 (λ _, 2) (λ w, w)
      (empty_handed (sample_db (firstn 1 sample_processing_ops)))
    = (Ok (mkUploadStatusResponse (mkUploadId "upl_1") "uploaded"), w')
    ∧ select_upload sample_tenant sample_product (mkUploadId "upl_1") w'.1 = Some row ∧ verified_ok row.
Proof.
  destruct (complete_upload sample_state sample_identity "upl_1" "req" 2 (λ _, 2) (λ w, w)
    (empty_handed (sample_db (firstn 1 sample_processing_ops)))) as [out w'] eqn:Hc.
  assert (Hout : out = Ok (mkUploadStatusResponse (mkUploadId "upl_1") "uploaded")).
  { apply (f_equal fst) in Hc. vm_compute in Hc. exact (eq_sym Hc). }
  subst out.
  destruct (upload_completion_verified (serde_size := sample_size) (jsonb_size := sample_size)
    sample_state sample_identity "upl_1" "req" 2 (λ _, 2) (λ w, w)
    (empty_handed (sample_db (firstn 1 sample_processing_ops))) _ w' (sample_reachable 1)
    (λ w, effect_none w.1) Hc) as (_ & u & row & before & Hu & _ & Hsel & _ & Hv & _).
  exists w', row. split; [reflexivity|]. injection Hu as <-. split; [exact Hsel|exact Hv].
Defined.
