(* ===== verification/Malware.v ===== *)
(** * Malware: scanning an upload with clamd

    Models [ocr-service/src/malware.rs]: the scanner, which sends a stream of chunks to a
    clamd server in its framing and reads its answer, and the inspection of an upload.
    A TCP connection is a record of operations on the state [G] of the world; one that
    the timeout of a scan interrupts is one that fails, since both answer
    [Unavailable].

    [ClamdConnection] is what the theorem needs of a connection: what was written is
    what was sent.  It shows that a clean inspection means the server was sent the whole
    object, in frames that it decodes to the object's bytes.

    The framing of the scanner against the decoder of the protocol's documentation, and
    what a clean inspection says about the bytes that were sent and the answer read. *)

From S2P Require Import Prelude Text DomainTypes Identifiers Digest StoreTypes StoreChecks.
From S2P Require Import StoreRun Importer Storage.

#[local] Open Scope list_scope.
#[local] Open Scope Z_scope.

Definition MAXIMUM_CHUNK_BYTES : Z := 1024 * 1024.
Definition MAXIMUM_RESPONSE_BYTES : Z := 1024.

Module MalwareScanOutcome.
Inductive MalwareScanOutcome := Clean | Infected.
End MalwareScanOutcome.

Module MalwareScanError.
Inductive MalwareScanError := InvalidConfiguration | Unavailable | LimitExceeded | InvalidResponse.
End MalwareScanError.

Notation ScanResult := (result MalwareScanError.MalwareScanError).

(** ** The scanner *)

(** [IpAddr]: the octets, or the 128 bits. *)
Inductive IpAddr := V4 (a b c d : Z) | V6 (bits : Z).

Definition is_loopback (ip : IpAddr) : bool :=
  match ip with
  | V4 a _ _ _ => a =? 127
  | V6 bits => bits =? 1
  end.

Record SocketAddr := mkSocketAddr { ip : IpAddr; port : Z }.

(** [timeout] is in nanoseconds. *)
Record ClamdScanner := mkClamdScanner {
  scanner_address : SocketAddr;
  scanner_timeout : Z;
  scanner_maximum_bytes : Z;
}.

Definition ClamdScanner_new (address : SocketAddr) (timeout maximum_bytes : Z) : ScanResult ClamdScanner :=
  if negb (is_loopback (ip address)) || (timeout =? 0) || (maximum_bytes =? 0)
  then Err MalwareScanError.InvalidConfiguration
  else Ok (mkClamdScanner address timeout maximum_bytes).

Record Tcp (G : Type) := mkTcp {
  connect : SocketAddr → G → result () () * G;
  write_all : list Z → G → result () () * G;
  shutdown : G → result () () * G;
  read_u8 : G → result () Z * G;
}.
Arguments mkTcp {G}.
Arguments connect {G}.
Arguments write_all {G}.
Arguments shutdown {G}.
Arguments read_u8 {G}.

(** [u32::to_be_bytes]. *)
Definition u32_be (z : Z) : list Z :=
  [Z.land (Z.shiftr z 24) 255; Z.land (Z.shiftr z 16) 255; Z.land (Z.shiftr z 8) 255; Z.land z 255].

(** [slice::chunks]; a chunk takes at least one byte, so the length is fuel enough. *)
Fixpoint chunks_from {A : Type} (fuel : nat) (size : nat) (l : list A) : list (list A) :=
  match fuel, l with
  | O, _ | _, [] => []
  | S fuel, _ => firstn size l :: chunks_from fuel size (skipn size l)
  end.

Definition slice_chunks {A : Type} (size : Z) (l : list A) : list (list A) :=
  chunks_from (length l) (Z.to_nat size) l.

Definition starts_with_bytes (prefix bytes : list Z) : bool :=
  bool_decide (firstn (length prefix) bytes = prefix).
Definition ends_with_bytes (suffix bytes : list Z) : bool :=
  bool_decide (skipn (length bytes - length suffix) bytes = suffix).

Definition scan_outcome (response : list Z) : ScanResult MalwareScanOutcome.MalwareScanOutcome :=
  if bool_decide (response = string_bytes "stream: OK") then Ok MalwareScanOutcome.Clean
  else if starts_with_bytes (string_bytes "stream: ") response
          && ends_with_bytes (string_bytes " FOUND") response
  then Ok MalwareScanOutcome.Infected
  else Err MalwareScanError.InvalidResponse.

Section Scan.
Context {G : Type} (tcp : Tcp G).

(** [socket.write_all(..).await.map_err(|_| Unavailable)?]. *)
Definition send (bytes : list Z) (g : G) : ScanResult () * G :=
  let '(out, g) := write_all tcp bytes g in (map_err out (λ _, MalwareScanError.Unavailable), g).

(** The loop over the parts of a chunk. *)
Fixpoint send_parts (parts : list (list Z)) (g : G) : ScanResult () * G :=
  match parts with
  | [] => (Ok (), g)
  | part :: parts =>
      match checked u32_max (zlen part) with
      | None => (Err MalwareScanError.LimitExceeded, g)
      | Some length =>
          match send (u32_be length) g with
          | (Err e, g) => (Err e, g)
          | (Ok _, g) =>
              match send part g with
              | (Err e, g) => (Err e, g)
              | (Ok _, g) => send_parts parts g
              end
          end
      end
  end.

(** The loop over the stream, with the bytes sent before. *)
Fixpoint send_chunks {E : Type} (maximum_bytes total : Z) (chunks : list (result E (list Z))) (g : G)
    : ScanResult Z * G :=
  match chunks with
  | [] => (Ok total, g)
  | Err _ :: _ => (Err MalwareScanError.Unavailable, g)
  | Ok chunk :: chunks =>
      match checked_add usize_max total (zlen chunk) with
      | None => (Err MalwareScanError.LimitExceeded, g)
      | Some total =>
          if maximum_bytes <? total then (Err MalwareScanError.LimitExceeded, g)
          else
            match send_parts (slice_chunks MAXIMUM_CHUNK_BYTES chunk) g with
            | (Err e, g) => (Err e, g)
            | (Ok _, g) => send_chunks maximum_bytes total chunks g
            end
      end
  end.

(** The loop that reads the answer: [room] bytes may still be pushed. *)
Fixpoint read_response (room : nat) (response : list Z) (g : G) : ScanResult (list Z) * G :=
  match read_u8 tcp g with
  | (Err _, g) => (Err MalwareScanError.Unavailable, g)
  | (Ok byte, g) =>
      if (byte =? 0) || (byte =? 10) then (Ok response, g)
      else
        match room with
        | O => (Err MalwareScanError.InvalidResponse, g)
        | S room => read_response room (response ++ [byte]) g
        end
  end.

(** [scan_inner]. *)
Definition scan {E : Type} (self : ClamdScanner) (chunks : list (result E (list Z))) (g : G)
    : ScanResult MalwareScanOutcome.MalwareScanOutcome * G :=
  match connect tcp (scanner_address self) g with
  | (Err _, g) => (Err MalwareScanError.Unavailable, g)
  | (Ok _, g) =>
      match send (string_bytes "zINSTREAM" ++ [0]) g with
      | (Err e, g) => (Err e, g)
      | (Ok _, g) =>
          match send_chunks (scanner_maximum_bytes self) 0 chunks g with
          | (Err e, g) => (Err e, g)
          | (Ok total, g) =>
              if total =? 0 then (Err MalwareScanError.LimitExceeded, g)
              else
                match send (u32_be 0) g with
                | (Err e, g) => (Err e, g)
                | (Ok _, g) =>
                    match shutdown tcp g with
                    | (Err _, g) => (Err MalwareScanError.Unavailable, g)
                    | (Ok _, g) =>
                        match read_response (Z.to_nat MAXIMUM_RESPONSE_BYTES) [] g with
                        | (Err e, g) => (Err e, g)
                        | (Ok response, g) => (scan_outcome response, g)
                        end
                    end
                end
          end
      end
  end.
End Scan.

(** ** Inspecting an upload *)

Definition map_inspection_object_error (error : ObjectError.ObjectError)
    : UploadInspectionError.UploadInspectionError :=
  match error with
  | ObjectError.NotFound | ObjectError.Precondition => UploadInspectionError.Invalid
  | _ => UploadInspectionError.Unavailable
  end.

Definition inspection_answer (scanned : ScanResult MalwareScanOutcome.MalwareScanOutcome)
    : result UploadInspectionError.UploadInspectionError () :=
  match scanned with
  | Ok MalwareScanOutcome.Clean => Ok ()
  | Ok MalwareScanOutcome.Infected => Err UploadInspectionError.Infected
  | Err MalwareScanError.LimitExceeded => Err UploadInspectionError.Invalid
  | Err _ => Err UploadInspectionError.Unavailable
  end.

Section Inspect.
Context {G : Type} (tcp : Tcp G) (path_valid : string → bool).

Definition GcsUploadMalwareInspector_inspect (stores : gmap string (ObjectStore G)) (scanner : ClamdScanner)
    (upload : StoredUpload) (g : G) : result UploadInspectionError.UploadInspectionError () * G :=
  let invalid := Err UploadInspectionError.Invalid in
  if negb (bool_decide (su_state upload = UploadState.Inspecting)) then (invalid, g)
  else
    match su_object_version upload with
    | None => (invalid, g)
    | Some generation =>
        if negb (valid_object_version generation) then (invalid, g)
        else
          match stores !! su_object_bucket upload with
          | None => (invalid, g)
          | Some store =>
              if negb (path_valid (su_object_name upload)) then (invalid, g)
              else
                match get_opts store (su_object_name upload) (Some generation) g with
                | (Err e, g) => (Err (map_inspection_object_error e), g)
                | (Ok found, g) =>
                    match checked u64_max (su_expected_content_length upload) with
                    | None => (invalid, g)
                    | Some expected_length =>
                        if negb (bool_decide (meta_version found = Some generation))
                           || negb (meta_size found =? expected_length)
                           || (MAXIMUM_UPLOAD_BYTES <? meta_size found)
                        then (invalid, g)
                        else
                          let '(scanned, g) := scan tcp scanner (stream found) g in
                          (inspection_answer scanned, g)
                    end
                end
          end
    end.
End Inspect.

(** ** Chunks *)

Lemma chunks_from_concat {A} fuel size (l : list A) :
  (0 < size)%nat → (length l ≤ fuel)%nat → concat (chunks_from fuel size l) = l.
Proof.
  intros Hs. revert l. induction fuel as [|fuel IH]; intros [|x l] Hl; simpl in *; try done; [lia|].
  rewrite IH; [apply take_drop|]. rewrite length_drop. simpl. lia.
Qed.

Lemma chunks_from_sizes {A} fuel size (l : list A) :
  (0 < size)%nat → Forall (λ part, part ≠ [] ∧ (length part ≤ size)%nat) (chunks_from fuel size l).
Proof.
  intros Hs. revert l. induction fuel as [|fuel IH]; intros [|x l]; simpl; try constructor; [|apply IH].
  split; [by destruct size; [lia|]|]. rewrite length_take. lia.
Qed.

(** ** The protocol *)

(** A length in network order. *)
Definition be_value (bytes : list Z) : Z := fold_left (λ acc b, acc * 256 + b) bytes 0.

Lemma u32_be_value z : in_width u32_max z → be_value (u32_be z) = z.
Proof.
  unfold in_width, u32_max, be_value, u32_be. intros Hz. simpl.
  rewrite !Z.shiftr_div_pow2 by lia. change 255 with (Z.ones 8).
  rewrite !Z.land_ones by lia. change (2 ^ 8) with 256. change (2 ^ 24) with 16777216.
  change (2 ^ 16) with 65536. Z.div_mod_to_equations. lia.
Qed.

(** What clamd documents of [INSTREAM]: chunks of a four byte length in network order
    and that many bytes, up to a chunk of length zero. *)
Fixpoint decode_frames (fuel : nat) (bytes : list Z) : option (list Z) :=
  match fuel with
  | O => None
  | S fuel =>
      let length := be_value (firstn 4 bytes) in
      let rest := skipn 4 bytes in
      if (zlen bytes <? 4) || (zlen rest <? length) then None
      else if length =? 0 then if bool_decide (rest = []) then Some [] else None
      else
        more ← decode_frames fuel (skipn (Z.to_nat length) rest);
        Some (firstn (Z.to_nat length) rest ++ more)
  end.

Definition clamd_reads (bytes : list Z) : option (list Z) :=
  let command := string_bytes "zINSTREAM" ++ [0] in
  if bool_decide (firstn (length command) bytes = command)
  then decode_frames (length bytes) (skipn (length command) bytes) else None.

Definition frame (part : list Z) : list Z := u32_be (zlen part) ++ part.

Lemma decode_frame fuel part rest : part ≠ [] → zlen part ≤ u32_max →
  decode_frames (S fuel) (frame part ++ rest) = (more ← decode_frames fuel rest; Some (part ++ more)).
Proof.
  intros Hne Hlen. assert (Hpos : 0 < zlen part) by (destruct part; [done|rewrite zlen_cons; pose proof (zlen_nonneg part); lia]).
  unfold frame. rewrite <- app_assoc. cbn [decode_frames].
  assert (firstn 4 (u32_be (zlen part) ++ part ++ rest) = u32_be (zlen part)) as -> by done.
  assert (skipn 4 (u32_be (zlen part) ++ part ++ rest) = part ++ rest) as -> by done.
  rewrite u32_be_value by (unfold in_width; lia).
  rewrite !zlen_app. change (zlen (u32_be (zlen part))) with 4.
  pose proof (zlen_nonneg rest).
  rewrite !(proj2 (Z.ltb_ge _ _)) by lia. simpl. rewrite (proj2 (Z.eqb_neq _ _)) by lia.
  assert (Z.to_nat (zlen part) = length part) as -> by (unfold zlen; lia).
  by rewrite drop_app_length, take_app_length.
Qed.

Lemma decode_frames_exact parts fuel :
  Forall (λ part, part ≠ [] ∧ zlen part ≤ u32_max) parts → (length parts < fuel)%nat →
  decode_frames fuel (concat (frame <$> parts) ++ u32_be 0) = Some (concat parts).
Proof.
  intros Hparts. revert fuel. induction Hparts as [|part parts [Hne Hlen] _ IH]; intros fuel Hf;
    (destruct fuel as [|fuel]; [simpl in Hf; lia|]); [done|].
  cbn [fmap list_fmap concat]. rewrite <- app_assoc, decode_frame by done.
  rewrite IH by (simpl in Hf; lia). done.
Qed.

Lemma frames_long parts : (length parts ≤ length (concat (frame <$> parts)))%nat.
Proof.
  induction parts as [|part parts IH]; [simpl; lia|].
  cbn [fmap list_fmap concat]. unfold frame at 1. rewrite !length_app.
  change (length (u32_be (zlen part))) with 4%nat. cbn [length]. lia.
Qed.

Lemma clamd_reads_frames parts : Forall (λ part, part ≠ [] ∧ zlen part ≤ u32_max) parts →
  clamd_reads ((string_bytes "zINSTREAM" ++ [0]) ++ concat (frame <$> parts) ++ u32_be 0) = Some (concat parts).
Proof.
  intros Hparts. unfold clamd_reads. rewrite take_app_length, bool_decide_eq_true_2, drop_app_length by done.
  apply decode_frames_exact; [done|]. rewrite !length_app. pose proof (frames_long parts). simpl. lia.
Qed.

(** ** The connection *)

(** [sent]: the bytes written since the connection was made; [heard]: the bytes read. *)
Class ClamdConnection {G : Type} (tcp : Tcp G) (sent heard : G → list Z) := {
  connect_fresh : ∀ address g g', connect tcp address g = (Ok (), g') → sent g' = [] ∧ heard g' = [];
  write_sends : ∀ bytes g g', write_all tcp bytes g = (Ok (), g') → sent g' = sent g ++ bytes ∧ heard g' = heard g;
  shutdown_keeps : ∀ g g', shutdown tcp g = (Ok (), g') → sent g' = sent g ∧ heard g' = heard g;
  read_hears : ∀ byte g g', read_u8 tcp g = (Ok byte, g') → sent g' = sent g ∧ heard g' = heard g ++ [byte];
}.

Section Scan.
Context {G : Type} (tcp : Tcp G) {sent heard : G → list Z} `{!ClamdConnection tcp sent heard}.

Lemma send_spec bytes g g' : send tcp bytes g = (Ok (), g') → sent g' = sent g ++ bytes ∧ heard g' = heard g.
Proof.
  unfold send. destruct (write_all tcp bytes g) as [[[]|] g1] eqn:Hw; [|done]. intros [= <-].
  by apply (write_sends _ _ _ Hw).
Qed.

Lemma send_parts_spec parts g g' : send_parts tcp parts g = (Ok (), g') →
  sent g' = sent g ++ concat (frame <$> parts) ∧ heard g' = heard g.
Proof.
  revert g. induction parts as [|part parts IH]; intros g; simpl.
  - intros [= <-]. by rewrite app_nil_r.
  - destruct (checked u32_max (zlen part)) as [n|] eqn:Hn; [|done].
    apply checked_Some in Hn as [-> _].
    destruct (send tcp (u32_be _) g) as [[[]|] g1] eqn:H1; [|done].
    destruct (send tcp part g1) as [[[]|] g2] eqn:H2; [|done]. intros [Hs Hh]%IH.
    apply send_spec in H1 as [H1 Hh1]. apply send_spec in H2 as [H2 Hh2].
    split; [|congruence]. rewrite Hs, H2, H1. unfold frame. by rewrite <- !app_assoc.
Qed.

Lemma slice_chunks_spec (chunk : list Z) :
  concat (slice_chunks MAXIMUM_CHUNK_BYTES chunk) = chunk
  ∧ Forall (λ part, part ≠ [] ∧ zlen part ≤ u32_max) (slice_chunks MAXIMUM_CHUNK_BYTES chunk).
Proof.
  assert (Hpos : (0 < Z.to_nat MAXIMUM_CHUNK_BYTES)%nat) by (unfold MAXIMUM_CHUNK_BYTES; lia).
  split; [by apply chunks_from_concat|].
  eapply Forall_impl; [by apply chunks_from_sizes|]. intros part [? Hl]. split; [done|].
  unfold zlen, u32_max, MAXIMUM_CHUNK_BYTES in *. lia.
Qed.

(** The whole stream was read, and its bytes were sent in frames. *)
Lemma send_chunks_spec maximum total (chunks : list (result ObjectError.ObjectError (list Z))) g g' total' :
  total ≤ maximum → send_chunks tcp maximum total chunks g = (Ok total', g') →
  ∃ bytes parts, stream_bytes chunks = Ok bytes ∧ concat parts = bytes
    ∧ Forall (λ part, part ≠ [] ∧ zlen part ≤ u32_max) parts
    ∧ sent g' = sent g ++ concat (frame <$> parts) ∧ heard g' = heard g
    ∧ total' = total + zlen bytes ∧ total' ≤ maximum.
Proof.
  revert total g. induction chunks as [|[chunk|e] chunks IH]; intros total g Hle; simpl; [| |done].
  - intros [= <- <-]. exists [], []. simpl. rewrite app_nil_r, zlen_nil, Z.add_0_r.
    by split_and!.
  - destruct (checked_add usize_max total (zlen chunk)) as [total1|] eqn:Ht; [|done].
    apply checked_Some in Ht as [-> _]. destruct (Z.ltb_spec maximum (total + zlen chunk)); [done|].
    destruct (send_parts tcp _ g) as [[[]|] g1] eqn:Hp; [|done].
    intros (bytes & parts & Hb & Hc & Hf & Hs & Hh & -> & Hmax)%IH; [|done].
    apply send_parts_spec in Hp as [Hp Hhp]. destruct (slice_chunks_spec chunk) as [Hcc Hcf].
    exists (chunk ++ bytes), (slice_chunks MAXIMUM_CHUNK_BYTES chunk ++ parts).
    rewrite Hb, concat_app, Hcc, Hc, fmap_app, concat_app. simpl. split_and!; try done.
    + by apply Forall_app.
    + by rewrite Hs, Hp, <- app_assoc.
    + congruence.
    + rewrite zlen_app. lia.
Qed.

Lemma read_response_spec room response g out g' : read_response tcp room response g = (Ok out, g') →
  ∃ more stop, out = response ++ more ∧ (stop = 0 ∨ stop = 10)
    ∧ sent g' = sent g ∧ heard g' = heard g ++ more ++ [stop].
Proof.
  revert response g. induction room as [|room IH]; intros response g; simpl;
    (destruct (read_u8 tcp g) as [[byte|] g1] eqn:Hr; [|done]);
    apply read_hears in Hr as [Hs Hh]; destruct ((byte =? 0) || (byte =? 10)) eqn:Hstop.
  - intros [= <- <-]. exists [], byte. rewrite app_nil_r. split_and!; [done|lia|done|done].
  - done.
  - intros [= <- <-]. exists [], byte. rewrite app_nil_r. split_and!; [done|lia|done|done].
  - intros (more & stop & -> & Hst & Hs' & Hh')%IH. exists (byte :: more), stop.
    split_and!; [by rewrite <- app_assoc|done|congruence|]. rewrite Hh', Hh, <- app_assoc. done.
Qed.

Lemma scan_outcome_Clean response : scan_outcome response = Ok MalwareScanOutcome.Clean →
  response = string_bytes "stream: OK".
Proof. unfold scan_outcome. case_bool_decide; [done|]. by destruct (_ && _). Qed.

(** A clean scan: the whole stream was sent, and the answer was exactly that it is OK. *)
Lemma scan_clean self (chunks : list (result ObjectError.ObjectError (list Z))) g g' :
  0 ≤ scanner_maximum_bytes self → scan tcp self chunks g = (Ok MalwareScanOutcome.Clean, g') →
  ∃ bytes stop, stream_bytes chunks = Ok bytes ∧ 0 < zlen bytes ≤ scanner_maximum_bytes self
    ∧ clamd_reads (sent g') = Some bytes
    ∧ heard g' = string_bytes "stream: OK" ++ [stop] ∧ (stop = 0 ∨ stop = 10).
Proof.
  intros Hmax. unfold scan. destruct (connect tcp _ g) as [[[]|] g1] eqn:Hc; [|done].
  apply connect_fresh in Hc as [Hs1 Hh1].
  destruct (send tcp _ g1) as [[[]|] g2] eqn:H2; [|done]. apply send_spec in H2 as [Hs2 Hh2].
  destruct (send_chunks tcp _ 0 chunks g2) as [[total|] g3] eqn:H3; [|done].
  apply send_chunks_spec in H3 as (bytes & parts & Hb & Hcc & Hf & Hs3 & Hh3 & -> & Hle); [|done].
  destruct (Z.eqb_spec (0 + zlen bytes) 0) as [|Hne]; [done|].
  destruct (send tcp (u32_be 0) g3) as [[[]|] g4] eqn:H4; [|done]. apply send_spec in H4 as [Hs4 Hh4].
  destruct (shutdown tcp g4) as [[[]|] g5] eqn:H5; [|done]. apply shutdown_keeps in H5 as [Hs5 Hh5].
  destruct (read_response tcp _ [] g5) as [[response|] g6] eqn:H6; [|done].
  apply read_response_spec in H6 as (more & stop & -> & Hstop & Hs6 & Hh6).
  intros [= Hclean <-]. apply scan_outcome_Clean in Hclean as Hmore. simpl in Hmore.
  exists bytes, stop. pose proof (zlen_nonneg bytes). split_and!; [done|lia|lia| | |done].
  - rewrite Hs6, Hs5, Hs4, Hs3, Hs2, Hs1, <- Hcc. rewrite app_nil_l, <- app_assoc. by apply clamd_reads_frames.
  - rewrite Hh6, Hh5, Hh4, Hh3, Hh2, Hh1. simpl. by rewrite Hmore.
Qed.

(** [object_store] documents that the stream of a whole object has the length of its
    metadata; the code relies on it, and does not count the bytes it scanned against
    the length that was reserved. *)
Definition whole_streams (store : ObjectStore G) : Prop :=
  ∀ name version g found g' bytes, get_opts store name version g = (Ok found, g') →
    stream_bytes (stream found) = Ok bytes → zlen bytes = meta_size found.

(** C31: a clean inspection is about what the store gave: when an upload passes the
    malware inspection, it was under inspection, the object was read at the recorded
    version from its bucket, whose metadata had the reserved length, every byte that the
    store then streamed was sent to the scanner, in frames that clamd's protocol decodes
    to exactly these bytes, there was at least one and no more than the scanner's limit,
    and the scanner's answer was exactly "stream: OK".  The bytes are as many as the
    upload reserved when the store streams whole objects, as it documents; the code
    itself compares the metadata alone. *)
Theorem clean_inspection_scans_object path_valid stores scanner upload g g' :
  0 ≤ scanner_maximum_bytes scanner →
  GcsUploadMalwareInspector_inspect tcp path_valid stores scanner upload g = (Ok (), g') →
  ∃ generation store found g1 bytes stop,
    su_state upload = UploadState.Inspecting ∧ su_object_version upload = Some generation
    ∧ stores !! su_object_bucket upload = Some store
    ∧ get_opts store (su_object_name upload) (Some generation) g = (Ok found, g1)
    ∧ meta_version found = Some generation ∧ meta_size found = su_expected_content_length upload
    ∧ su_expected_content_length upload ≤ MAXIMUM_UPLOAD_BYTES
    ∧ stream_bytes (stream found) = Ok bytes ∧ 0 < zlen bytes ≤ scanner_maximum_bytes scanner
    ∧ clamd_reads (sent g') = Some bytes
    ∧ heard g' = string_bytes "stream: OK" ++ [stop] ∧ (stop = 0 ∨ stop = 10)
    ∧ (whole_streams store → zlen bytes = su_expected_content_length upload).
Proof.
  intros Hmax. unfold GcsUploadMalwareInspector_inspect. case_bool_decide as Hstate; [|done]. simpl.
  destruct (su_object_version upload) as [generation|]; [|done]. destruct (negb _); [done|].
  destruct (stores !! _) as [store|]; [|done]. destruct (negb (path_valid _)); [done|].
  destruct (get_opts store _ _ g) as [[found|] g1] eqn:Hget; [|done].
  destruct (checked u64_max _) as [expected|] eqn:Hexp; [|done]. apply checked_Some in Hexp as [-> _].
  destruct (_ || _) eqn:Hbad; [done|].
  rewrite !orb_false_iff, !negb_false_iff, bool_decide_eq_true, Z.eqb_eq, Z.ltb_ge in Hbad.
  destruct Hbad as [[Hv Hsz] Hmx].
  destruct (scan tcp scanner _ g1) as [scanned g2] eqn:Hscan. intros [= Hans <-].
  assert (scanned = Ok MalwareScanOutcome.Clean) as -> by by destruct scanned as [[]|[]].
  apply scan_clean in Hscan as (bytes & stop & Hb & Hlen & Hsent & Hheard & Hstop); [|done].
  exists generation, store, found, g1, bytes, stop. split_and!; try done; [lia..|].
  intros Hwhole. rewrite <- Hsz. by eapply Hwhole.
Qed.
End Scan.

(** ** A sample connection: what was sent, what was heard, what is still to hear *)

Definition sample_tcp : Tcp (list Z * list Z * list Z) :=
  mkTcp (λ _ '(_, _, answers), (Ok (), ([], [], answers)))
    (λ bytes '(s, h, answers), (Ok (), (s ++ bytes, h, answers)))
    (λ g, (Ok (), g))
    (λ '(s, h, answers),
       match answers with
       | byte :: answers => (Ok byte, (s, h ++ [byte], answers))
       | [] => (Err (), (s, h, answers))
       end).

#[export] Instance sample_connection : ClamdConnection sample_tcp (λ g, g.1.1) (λ g, g.1.2).
Proof.
  constructor.
  - by intros address [[s h] a] g' [= <-].
  - by intros bytes [[s h] a] g' [= <-].
  - by intros [[s h] a] g' [= <-].
  - intros byte [[s h] [|b a]] g' [=]; by subst.
Qed.

Definition sample_inspected : StoredUpload :=
  {| su_upload_id := mkUploadId "upl_1"; su_state := UploadState.Inspecting; su_object_bucket := "quarantine";
     su_object_name := "object-1"; su_expected_content_type := "application/pdf";
     su_expected_content_length := 3; su_expected_digest := sample_digest; su_expires_at := 1000;
     su_created_at := 1; su_object_version := Some "7"; su_uploaded_at := Some 2 |}.

Definition sample_quarantine : ObjectStore (list Z * list Z * list Z) :=
  mkObjectStore _ (Gcs "quarantine")
    (λ _ version g, (Ok (mkGetResult version 3 [Ok [1; 2]; Ok [3]]), g)) (λ _ _ g, (Ok (), g)).

#[local] Notation sample_stores := ({["quarantine" := sample_quarantine]} : gmap string (ObjectStore _)).
#[local] Notation sample_scanner := (mkClamdScanner (mkSocketAddr (V4 127 0 0 1) 3310) 1000 100).

Theorem clean_inspection_scans_object_witness :
  ∃ g', GcsUploadMalwareInspector_inspect sample_tcp (λ _, true) sample_stores sample_scanner sample_inspected
          ([], [], string_bytes "stream: OK" ++ [0]) = (Ok (), g')
    ∧ clamd_reads g'.1.1 = Some [1; 2; 3]
    ∧ zlen [1; 2; 3] = su_expected_content_length sample_inspected.
Proof.
  destruct (GcsUploadMalwareInspector_inspect sample_tcp (λ _, true) sample_stores sample_scanner sample_inspected
    ([], [], string_bytes "stream: OK" ++ [0])) as [out g'] eqn:Hi.
  assert (out = Ok ()) as -> by by apply (f_equal fst) in Hi; vm_compute in Hi.
  exists g'. split; [reflexivity|].
  destruct (clean_inspection_scans_object sample_tcp (λ _, true) sample_stores sample_scanner sample_inspected
    ([], [], string_bytes "stream: OK" ++ [0]) g' ltac:(done) Hi)
    as (generation & store & found & g1 & bytes & stop & _ & _ & Hstore & Hget & _ & _ & _ & Hbytes & _ & Hreads & _ & _ & Hwhole).
  apply lookup_singleton_Some in Hstore as [_ <-]. injection Hget as <- _.
  injection Hbytes as <-. split; [exact Hreads|]. apply Hwhole.
  intros name version g found g2 bytes [= <- <-] [= <-]. reflexivity.
Defined.
