(* ===== verification/DocumentAi.v ===== *)
(** * DocumentAi: recognition by the managed service

    Models [ocr-service/src/document_ai.rs]: the configuration, the choice of the
    identity, the request to the service and its bounded response, the conversion of the
    response into a page, and the recogniser over the page's source, an optional
    preparation of small images and a transport.  Obtaining a token, the HTTP client, JSON and base64 are parameters; a
    call that its timeout interrupts is one that fails. *)

From S2P Require Import Prelude Text Float64 DomainTypes Identifiers Geometry PageWorkflow.
From S2P Require Import Document.
From S2P Require Import PageRunner ParserProcess Recognition Assembly.

#[local] Open Scope list_scope.
#[local] Open Scope Z_scope.

Definition MAXIMUM_MANAGED_INPUT_BYTES : Z := 20 * 1024 * 1024.
Definition MAXIMUM_MANAGED_RESPONSE_BYTES : Z := 16 * 1024 * 1024.

(** ** Configuration *)

Module DocumentAiConfigurationError.
Inductive DocumentAiConfigurationError := Invalid.
End DocumentAiConfigurationError.

Record DocumentAiConfiguration := mkDocumentAiConfiguration {
  project_id : string;
  processor_location : string;
  processor_id : string;
}.

Definition is_component (value : string) : bool :=
  contains 1 63 (strlen value)
  && all_bytes (λ byte, is_ascii_alphanumeric byte || byte_in "-_" byte) value.

Definition DocumentAiConfiguration_new (project_id location processor_id : string)
    : result DocumentAiConfigurationError.DocumentAiConfigurationError DocumentAiConfiguration :=
  if negb (is_component project_id) || negb (is_component location) || negb (is_component processor_id)
  then Err DocumentAiConfigurationError.Invalid
  else Ok (mkDocumentAiConfiguration project_id location processor_id).

Definition endpoint (self : DocumentAiConfiguration) : string :=
  "https://" +:+ processor_location self +:+ "-documentai.googleapis.com/v1/projects/"
  +:+ project_id self +:+ "/locations/" +:+ processor_location self +:+ "/processors/"
  +:+ processor_id self +:+ "/processorVersions/" +:+ DOCUMENT_AI_OCR_VERSION +:+ ":process".

(** ** The transport *)

Module DocumentAiTransportError.
Inductive DocumentAiTransportError := RateLimited | Invalid | Unavailable.
End DocumentAiTransportError.

Notation TransportResult := (result DocumentAiTransportError.DocumentAiTransportError).

Record DocumentAiRequest := mkDocumentAiRequest {
  request_page : Z;
  request_content_type : string;
  request_bytes : list Z;
}.

Definition DocumentAiRequest_new (page : Z) (source : AcceptedPageSource) : DocumentAiRequest :=
  mkDocumentAiRequest page (source_content_type source) (source_bytes source).

Module DocumentAiIdentity.
Inductive DocumentAiIdentity := Metadata | ApplicationDefault.
End DocumentAiIdentity.

Record MetadataDocumentAiTransport := mkMetadataDocumentAiTransport {
  transport_configuration : DocumentAiConfiguration;
  transport_identity : DocumentAiIdentity.DocumentAiIdentity;
}.

(** [available]: the credential library provides the identity, in time. *)
Definition MetadataDocumentAiTransport_new_with_auth
    (available : DocumentAiIdentity.DocumentAiIdentity → bool) (configuration : DocumentAiConfiguration)
    (mode : string) : TransportResult MetadataDocumentAiTransport :=
  let? identity :=
    if String.eqb mode "metadata" then Ok DocumentAiIdentity.Metadata
    else if String.eqb mode "application-default" then Ok DocumentAiIdentity.ApplicationDefault
    else Err DocumentAiTransportError.Invalid in
  if available identity
  then Ok {| transport_configuration := configuration; transport_identity := identity |}
  else Err DocumentAiTransportError.Unavailable.

Definition MetadataDocumentAiTransport_new
    (available : DocumentAiIdentity.DocumentAiIdentity → bool) (configuration : DocumentAiConfiguration)
    : TransportResult MetadataDocumentAiTransport :=
  MetadataDocumentAiTransport_new_with_auth available configuration "metadata".

Definition is_supported_content_type (value : string) : bool :=
  existsb (String.eqb value)
    ["application/pdf"; "image/jpeg"; "image/png"; "image/tiff"; "image/webp"].

(** A status is its number. *)
Definition map_http_status (status : Z) : DocumentAiTransportError.DocumentAiTransportError :=
  if status =? 429 then DocumentAiTransportError.RateLimited
  else if (status =? 408) || contains 500 599 status then DocumentAiTransportError.Unavailable
  else DocumentAiTransportError.Invalid.

Record HttpResponse := mkHttpResponse {
  http_status : Z;
  http_content_length : option Z;
  http_body : list (result () (list Z));
}.

Fixpoint read_body (body : list Z) (chunks : list (result () (list Z))) : TransportResult (list Z) :=
  match chunks with
  | [] => Ok body
  | chunk :: chunks =>
      let? chunk := map_err chunk (λ _, DocumentAiTransportError.Unavailable) in
      if MAXIMUM_MANAGED_RESPONSE_BYTES <? saturating_add usize_max (zlen body) (zlen chunk)
      then Err DocumentAiTransportError.Invalid
      else read_body (body ++ chunk) chunks
  end.

Definition read_bounded_response (response : HttpResponse) : TransportResult (list Z) :=
  let too_long :=
    match http_content_length response with
    | Some length => MAXIMUM_MANAGED_RESPONSE_BYTES <? length
    | None => false
    end in
  if too_long then Err DocumentAiTransportError.Invalid
  else
    let? body := read_body [] (http_body response) in
    if zlen body =? 0 then Err DocumentAiTransportError.Invalid else Ok body.

(** [ProcessRequest] with its nested structures. *)
Record ProcessRequest := mkProcessRequest {
  raw_document_content : string;
  raw_document_mime_type : string;
  skip_human_review : bool;
  field_mask : string;
  individual_pages : list Z;
}.

Section Transport.
Context {G : Type}.
Context (encode_base64 : list Z → string).
Context (token : G → result () string * G).
Context (post : string → string → ProcessRequest → G → result () HttpResponse * G).

Definition ProcessRequest_from (request : DocumentAiRequest) : ProcessRequest :=
  {| raw_document_content := encode_base64 (request_bytes request);
     raw_document_mime_type := request_content_type request; skip_human_review := true;
     field_mask := "text,pages.pageNumber,pages.lines";
     individual_pages := [request_page request] |}.

(** [MetadataDocumentAiTransport::process_inner]. *)
Definition process_inner (configuration : DocumentAiConfiguration) (request : DocumentAiRequest) (g : G)
    : TransportResult (list Z) * G :=
  if (zlen (request_bytes request) =? 0) || (MAXIMUM_MANAGED_INPUT_BYTES <? zlen (request_bytes request))
     || negb (is_supported_content_type (request_content_type request))
  then (Err DocumentAiTransportError.Invalid, g)
  else
    match token g with
    | (Err _, g) => (Err DocumentAiTransportError.Unavailable, g)
    | (Ok token, g) =>
        match post (endpoint configuration) token (ProcessRequest_from request) g with
        | (Err _, g) => (Err DocumentAiTransportError.Unavailable, g)
        | (Ok response, g) =>
            (if negb (contains 200 299 (http_status response))
             then Err (map_http_status (http_status response))
             else read_bounded_response response, g)
        end
    end.
End Transport.

(** ** The response *)

Module WireOffset.
Inductive WireOffset := Number (value : Z) | String (value : string).
End WireOffset.

Record WireTextSegment := mkWireTextSegment {
  start_index : option WireOffset.WireOffset;
  end_index : option WireOffset.WireOffset;
}.

Record WireVertex := mkWireVertex { vertex_x : option f64; vertex_y : option f64 }.

(** [WireLine] with its layout. *)
Record WireLine := mkWireLine {
  text_segments : list WireTextSegment;
  line_confidence : option f64;
  normalized_vertices : list WireVertex;
}.

Record WirePage := mkWirePage { page_number : Z; lines : list WireLine }.
Record WireDocument := mkWireDocument { document_text : string; document_pages : list WirePage }.
Record ProcessResponse := mkProcessResponse { response_document : option WireDocument }.

#[local] Notation permanent := PageRecognitionError.Permanent.

Definition WireOffset_value (self : WireOffset.WireOffset) : RecognitionResult Z :=
  match self with
  | WireOffset.Number value => ok_or (checked usize_max value) permanent
  | WireOffset.String value => ok_or (parse_unsigned usize_max value) permanent
  end.

(** [str::char_indices]: the byte where each character starts, from [at_byte]. *)
Fixpoint char_indices (at_byte : Z) (s : string) : list Z :=
  match s with
  | EmptyString => []
  | String a s1 =>
      if code a <? 128 then at_byte :: char_indices (at_byte + 1) s1
      else match s1 with
           | EmptyString => []
           | String _ s2 =>
               if code a <? 224 then at_byte :: char_indices (at_byte + 2) s2
               else match s2 with
                    | EmptyString => []
                    | String _ s3 =>
                        if code a <? 240 then at_byte :: char_indices (at_byte + 3) s3
                        else match s3 with
                             | EmptyString => []
                             | String _ s4 => at_byte :: char_indices (at_byte + 4) s4
                             end
                    end
           end
  end.

Record AnchoredText := mkAnchoredText { anchored_text : string; boundaries : list Z }.

Definition AnchoredText_new (text : string) : AnchoredText :=
  mkAnchoredText text (char_indices 0 text ++ [strlen text]).

Definition AnchoredText_byte (self : AnchoredText) (character : Z) : RecognitionResult Z :=
  ok_or (boundaries self !! Z.to_nat character) permanent.

(** [&text[start..end]] for a range within the text. *)
Definition slice (text : string) (from to : Z) : string :=
  String.substring (Z.to_nat from) (Z.to_nat (to - from)) text.

(** The indices of a segment, checked. *)
Definition segment_range (segment : WireTextSegment) : RecognitionResult (Z * Z) :=
  let? start_ :=
    match start_index segment with
    | None => Ok 0
    | Some offset => WireOffset_value offset
    end in
  let? offset := ok_or (end_index segment) permanent in
  let? end_ := WireOffset_value offset in
  if end_ <? start_ then Err permanent else Ok (start_, end_).

(** The loop of [resolve]. *)
Fixpoint resolve_segments (self : AnchoredText) (value : string) (segments : list WireTextSegment)
    : RecognitionResult string :=
  match segments with
  | [] => Ok value
  | segment :: segments =>
      let? range := segment_range segment in
      let? from := AnchoredText_byte self range.1 in
      let? to := AnchoredText_byte self range.2 in
      resolve_segments self (value +:+ slice (anchored_text self) from to) segments
  end.

Definition resolve (self : AnchoredText) (segments : list WireTextSegment) : RecognitionResult string :=
  if zlen segments =? 0 then Err permanent
  else
    let? value := resolve_segments self "" segments in
    if trim_is_empty value || (65536 <? strlen value) then Err permanent else Ok value.

Definition line_point (vertex : WireVertex) : RecognitionResult NormalizedPoint :=
  map_err (NormalizedPoint_new (default f64_zero (vertex_x vertex)) (default f64_zero (vertex_y vertex)))
    (λ _, permanent).

Definition docai_observation_id (page : PageNumber) (index : Z) : string :=
  "obs_docai_p" +:+ show_dec (PageNumber_value page) +:+ "_line" +:+ show_dec index.

Definition observation (document_text : AnchoredText) (page : PageNumber) (index : Z) (line : WireLine)
    : RecognitionResult TextObservation :=
  let? reading_order := ok_or (checked u32_max index) permanent in
  let? text := resolve document_text (text_segments line) in
  let? confidence := ok_or (line_confidence line) permanent in
  let? confidence := map_err (Confidence_new confidence) (λ _, permanent) in
  let? points := collect_results line_point (normalized_vertices line) in
  let? polygon := map_err (Polygon_new points) (λ _, permanent) in
  let? observation_id :=
    map_err (ObservationId_try_from (docai_observation_id page index)) (λ _, permanent) in
  map_err (TextObservation_new observation_id Line text confidence polygon reading_order None)
    (λ _, permanent).

(** [.enumerate().map(..).collect::<Result<Vec<_>, _>>()] from an index. *)
Fixpoint page_lines (document_text : AnchoredText) (page : PageNumber) (index : Z) (lines : list WireLine)
    : RecognitionResult (list TextObservation) :=
  match lines with
  | [] => Ok []
  | line :: lines =>
      let? observed := observation document_text page index line in
      let? rest := page_lines document_text page (index + 1) lines in
      Ok (observed :: rest)
  end.

Section Recognizer.
Context {G : Type}.
Context (response_from_slice : list Z → option ProcessResponse).

Definition parse_document (encoded : list Z) (expected_page width height : Z)
    : RecognitionResult DocumentPage :=
  let? response := ok_or (response_from_slice encoded) permanent in
  let? document := ok_or (response_document response) permanent in
  if (MAXIMUM_MANAGED_RESPONSE_BYTES <? strlen (document_text document))
     || negb (zlen (document_pages document) =? 1)
  then Err permanent
  else
    let? page := ok_or (head (document_pages document)) permanent in
    if negb (page_number page =? expected_page) || (100000 <? zlen (lines page))
    then Err permanent
    else
      let? number := map_err (PageNumber_new expected_page) (λ _, permanent) in
      let text := AnchoredText_new (document_text document) in
      let? observations := page_lines text number 0 (lines page) in
      map_err (DocumentPage_new number width height observations) (λ _, permanent).

(** [map_source_error]. *)
Definition map_source_error (error : PageSourceError.PageSourceError)
    : PageRecognitionError.PageRecognitionError :=
  match error with
  | PageSourceError.Unavailable => PageRecognitionError.Retryable
  | PageSourceError.NotFound | PageSourceError.Invalid => permanent
  end.

Definition transport_error (error : DocumentAiTransportError.DocumentAiTransportError)
    : PageRecognitionError.PageRecognitionError :=
  match error with
  | DocumentAiTransportError.Invalid => permanent
  | DocumentAiTransportError.Unavailable => PageRecognitionError.Retryable
  | DocumentAiTransportError.RateLimited => PageRecognitionError.RateLimited
  end.

(** The condition under which [recognize_inner] prepares an image. *)
Definition is_small_image (width height : Z) (content_type : string) : bool :=
  (Z.max width height <=? 640) && (64 <=? Z.min width height)
  && existsb (String.eqb content_type) ["image/png"; "image/jpeg"; "image/webp"].

(** The request that is sent, after the preparation of a small image. *)
Definition prepared_request
    (preprocessor : option (list Z → string → ParserResult (option (list Z))))
    (geometry : PageGeometry) (request : DocumentAiRequest) : DocumentAiRequest :=
  if is_small_image (geometry_width geometry) (geometry_height geometry) (request_content_type request)
  then
    match preprocessor with
    | Some prepare_ocr =>
        match prepare_ocr (request_bytes request) (request_content_type request) with
        | Ok (Some bytes) => mkDocumentAiRequest (request_page request) "image/png" bytes
        | _ => request
        end
    | None => request
    end
  else request.

(** [DocumentAiPageRecognizer::recognize_inner] over [load], the source of the job's
    pages, and a transport. *)
Definition recognize_managed
    (load : PageTask → G → result PageSourceError.PageSourceError AcceptedPageSource * G)
    (preprocessor : option (list Z → string → ParserResult (option (list Z))))
    (process : DocumentAiRequest → G → TransportResult (list Z) * G)
    (task : PageTask) (g : G) : RecognitionResult DocumentPage * G :=
  match load task g with
  | (Err e, g) => (Err (map_source_error e), g)
  | (Ok source, g) =>
      let geometry := source_geometry source in
      let request :=
        prepared_request preprocessor geometry (DocumentAiRequest_new (task_page task) source) in
      match process request g with
      | (Err e, g) => (Err (transport_error e), g)
      | (Ok output, g) =>
          (parse_document output (task_page task) (geometry_width geometry) (geometry_height geometry), g)
      end
  end.
End Recognizer.
