(* ===== verification/DocumentAiFacts.v ===== *)
(** * DocumentAiFacts: text anchors and managed recognition

    The anchors of the service count characters, whatever their length in bytes; a page
    that is recognised is the response's page, line by line, on the geometry of the
    accepted source. *)

From S2P Require Import Prelude Text Float64 DomainTypes Identifiers Geometry PageWorkflow.
From S2P Require Import Document.
From S2P Require Import DocumentFacts PageRunner ParserProcess Recognition DocumentAi.

#[local] Open Scope list_scope.
#[local] Open Scope Z_scope.

Arguments String.append : simpl never.

(** ** Characters *)

(** The bytes of one character, by its first byte. *)
Definition is_char (c : string) : Prop :=
  match c with
  | String a "" => code a < 128
  | String a (String _ "") => 128 ≤ code a < 224
  | String a (String _ (String _ "")) => 224 ≤ code a < 240
  | String a (String _ (String _ (String _ ""))) => 240 ≤ code a
  | _ => False
  end.

(** What every [str] is: a sequence of whole characters. *)
Inductive utf8 : string → Prop :=
| utf8_nil : utf8 ""
| utf8_char c s : is_char c → utf8 s → utf8 (c +:+ s).

Definition join (cs : list string) : string := foldr String.append "" cs.

Definition code_point (c : string) : Z := default 0 (head (chars c)).

Lemma utf8_join s : utf8 s ↔ ∃ cs, Forall is_char cs ∧ s = join cs.
Proof.
  split.
  - induction 1 as [|c s Hc _ (cs & Hcs & ->)]; [by exists []|]. exists (c :: cs). by split; [constructor|].
  - intros (cs & Hcs & ->). induction Hcs as [|c cs Hc _ IH]; [constructor|]. by apply (utf8_char c (join cs)).
Qed.

Lemma char_first c s n : is_char c →
  chars (c +:+ s) = code_point c :: chars s
  ∧ char_indices n (c +:+ s) = n :: char_indices (n + strlen c) s.
Proof.
  destruct c as [|a [|b [|d [|e [|]]]]]; simpl; try done; intros Hc; unfold code_point, String.append; simpl.
  - by rewrite !(proj2 (Z.ltb_lt _ _) Hc).
  - destruct Hc as [H1 H2]. by rewrite !(proj2 (Z.ltb_ge _ _) H1), !(proj2 (Z.ltb_lt _ _) H2).
  - destruct Hc as [H1 H2].
    by rewrite !(proj2 (Z.ltb_ge (code a) 128)), !(proj2 (Z.ltb_ge (code a) 224)), !(proj2 (Z.ltb_lt _ _) H2) by lia.
  - by rewrite !(proj2 (Z.ltb_ge (code a) 128)), !(proj2 (Z.ltb_ge (code a) 224)), !(proj2 (Z.ltb_ge _ _) Hc) by lia.
Qed.

Lemma chars_join cs : Forall is_char cs → chars (join cs) = code_point <$> cs.
Proof.
  induction 1 as [|c cs Hc _ IH]; [done|]. change (join (c :: cs)) with (c +:+ join cs).
  rewrite (proj1 (char_first c (join cs) 0 Hc)). by rewrite IH.
Qed.

Lemma join_app cs ds : join (cs ++ ds) = join cs +:+ join ds.
Proof. induction cs as [|c cs IH]; [done|]. simpl. by rewrite IH, append_assoc. Qed.

(** The boundary of the [k]-th character is the length of the characters before. *)
Lemma boundaries_join cs n k b : Forall is_char cs →
  (char_indices n (join cs) ++ [n + strlen (join cs)]) !! k = Some b ↔
  (k ≤ length cs)%nat ∧ b = n + strlen (join (take k cs)).
Proof.
  intros Hcs. revert n k. induction Hcs as [|c cs Hc _ IH]; intros n k.
  - destruct k as [|k]; simpl.
    + split; [intros [= <-]; split; [lia|done]|intros [_ ->]; done].
    + split; [by destruct k|lia].
  - change (join (c :: cs)) with (c +:+ join cs). rewrite (proj2 (char_first c (join cs) n Hc)), strlen_append.
    destruct k as [|k].
    + simpl. change (strlen (join [])) with 0. rewrite Z.add_0_r.
      split; [intros [= <-]; split; [lia|done]|by intros [_ ->]].
    + replace (n + (strlen c + strlen (join cs))) with (n + strlen c + strlen (join cs)) by lia.
      cbn [app lookup list_lookup take length]. rewrite IH.
      change (join (c :: take k cs)) with (c +:+ join (take k cs)). rewrite strlen_append.
      split; intros [? ->]; split; lia.
Qed.

Lemma substring_middle p m s : String.substring (String.length p) (String.length m) (p +:+ m +:+ s) = m.
Proof.
  induction p as [|a p IH]; [|exact IH].
  change (String.substring 0 (String.length m) (m +:+ s) = m).
  induction m as [|a m IH]; [by destruct s|].
  change (String a (String.substring 0 (String.length m) (m +:+ s)) = String a m). by rewrite IH.
Qed.

Lemma length_strlen s : String.length s = Z.to_nat (strlen s).
Proof. unfold strlen. lia. Qed.

Lemma slice_join cs i j : (i ≤ j)%nat →
  slice (join cs) (strlen (join (take i cs))) (strlen (join (take j cs))) = join (drop i (take j cs)).
Proof.
  intros Hij. assert (Htake : take j cs = take i cs ++ drop i (take j cs)).
  { rewrite <- (take_drop i (take j cs)) at 1. by rewrite take_take, Nat.min_l. }
  rewrite <- (take_drop j cs) at 1. rewrite join_app, Htake at 1. rewrite join_app, append_assoc.
  unfold slice. rewrite Htake at 1. rewrite join_app, strlen_append, Z.add_simpl_l, <- !length_strlen.
  apply substring_middle.
Qed.

(** ** Anchors *)

(** The characters of a range. *)
Definition chars_range (text : string) (range : Z * Z) : list Z :=
  drop (Z.to_nat range.1) (take (Z.to_nat range.2) (chars text)).

Definition range_fits (text : string) (segment : WireTextSegment) (range : Z * Z) : Prop :=
  segment_range segment = Ok range ∧ range.2 ≤ zlen (chars text).

Lemma segment_range_bounds segment range : segment_range segment = Ok range → 0 ≤ range.1 ≤ range.2.
Proof.
  assert (Hoff : ∀ offset v, WireOffset_value offset = Ok v → 0 ≤ v).
  { intros [value|value] v; simpl.
    - intros [Hv Hw]%ok_or_Ok%checked_Some. unfold in_width in Hw. lia.
    - intros Hp%ok_or_Ok. unfold parse_unsigned in Hp.
      destruct (parse_digits _) as [n|] eqn:Hd; [|done]. destruct (_ <=? _); [|done].
      injection Hp as <-. by eapply parse_digits_nonneg. }
  unfold segment_range. intros (from & Hf & (offset & _ & (to & Ht & Hle)%and_then_Ok)%and_then_Ok)%and_then_Ok.
  destruct (Z.ltb_spec to from); [done|]. injection Hle as <-. simpl.
  apply Hoff in Ht. split; [|done]. destruct (start_index segment); [by eapply Hoff|]. by injection Hf as <-.
Qed.

Lemma AnchoredText_byte_spec cs k b : Forall is_char cs → 0 ≤ k →
  AnchoredText_byte (AnchoredText_new (join cs)) k = Ok b ↔
  k ≤ zlen cs ∧ b = strlen (join (take (Z.to_nat k) cs)).
Proof.
  intros Hcs Hk. unfold AnchoredText_byte. rewrite ok_or_Ok. simpl.
  rewrite (boundaries_join cs 0 (Z.to_nat k) b Hcs). unfold zlen. split; intros [? ?]; split; lia.
Qed.

(** The text of one segment. *)
Definition segment_text (text : string) (segment : WireTextSegment) : RecognitionResult string :=
  let? range := segment_range segment in
  let? from := AnchoredText_byte (AnchoredText_new text) range.1 in
  let? to := AnchoredText_byte (AnchoredText_new text) range.2 in
  Ok (slice text from to).

Lemma segment_text_spec text segment : utf8 text →
  (∀ piece, segment_text text segment = Ok piece → ∃ range, range_fits text segment range)
  ∧ ∀ range, range_fits text segment range →
      ∃ piece, segment_text text segment = Ok piece ∧ utf8 piece ∧ chars piece = chars_range text range.
Proof.
  intros (cs & Hcs & ->)%utf8_join. unfold segment_text, range_fits, chars_range.
  assert (Hlen : zlen (chars (join cs)) = zlen cs)
    by by rewrite chars_join by done; unfold zlen; rewrite length_fmap.
  rewrite Hlen. split.
  - intros piece (range & Hr & (from & Hf & (to & Ht & _)%and_then_Ok)%and_then_Ok)%and_then_Ok.
    pose proof (segment_range_bounds _ _ Hr) as Hb. exists range.
    apply AnchoredText_byte_spec in Ht as [Ht _]; [done|done|lia].
  - intros range [Hr Hfit]. pose proof (segment_range_bounds _ _ Hr) as Hb. rewrite Hr. simpl.
    rewrite (proj2 (AnchoredText_byte_spec cs range.1 _ Hcs ltac:(lia))) by (split; [lia|done]). simpl.
    rewrite (proj2 (AnchoredText_byte_spec cs range.2 _ Hcs ltac:(lia))) by (split; [lia|done]). simpl.
    rewrite slice_join by lia. eexists. split; [done|].
    assert (Hpiece : Forall is_char (drop (Z.to_nat range.1) (take (Z.to_nat range.2) cs)))
      by by apply Forall_drop, Forall_take.
    split; [by apply utf8_join; eexists|].
    by rewrite !chars_join, fmap_drop, fmap_take by done.
Qed.

Lemma utf8_append s t : utf8 s → utf8 t → utf8 (s +:+ t).
Proof. intros Hs Ht. induction Hs as [|c s Hc _ IH]; [done|]. rewrite append_assoc. by constructor. Qed.

Lemma chars_append s t : utf8 s → chars (s +:+ t) = chars s ++ chars t.
Proof.
  induction 1 as [|c s Hc _ IH]; [done|]. rewrite append_assoc.
  rewrite (proj1 (char_first c (s +:+ t) 0 Hc)), (proj1 (char_first c s 0 Hc)), IH. done.
Qed.

Lemma resolve_segments_spec text value segments :
  utf8 text → utf8 value →
  (∀ out, resolve_segments (AnchoredText_new text) value segments = Ok out →
     ∃ ranges, Forall2 (range_fits text) segments ranges)
  ∧ ∀ ranges, Forall2 (range_fits text) segments ranges →
      ∃ out, resolve_segments (AnchoredText_new text) value segments = Ok out
        ∧ utf8 out ∧ chars out = chars value ++ concat (chars_range text <$> ranges).
Proof.
  intros Htext. revert value. induction segments as [|segment segments IH]; intros value Hvalue.
  - split; [intros out _; exists []; constructor|]. intros ranges H. inversion H; subst.
    exists value. simpl. by rewrite app_nil_r.
  - assert (Hstep : resolve_segments (AnchoredText_new text) value (segment :: segments)
      = let? piece := segment_text text segment in
        resolve_segments (AnchoredText_new text) (value +:+ piece) segments).
    { unfold segment_text. simpl. destruct (segment_range segment); [|done]. simpl.
      destruct (AnchoredText_byte _ _); [|done]. simpl. by destruct (AnchoredText_byte _ _). }
    rewrite Hstep. destruct (segment_text_spec text segment Htext) as [Hfwd Hbwd]. split.
    + intros out (piece & Hp & Hout)%and_then_Ok. destruct (Hfwd _ Hp) as [range Hr].
      destruct (Hbwd _ Hr) as (piece' & Hp' & Hu & _). rewrite Hp in Hp'. injection Hp' as <-.
      destruct (proj1 (IH _ (utf8_append _ _ Hvalue Hu)) _ Hout) as [ranges Hranges].
      exists (range :: ranges). by constructor.
    + intros ranges H. inversion H as [|? range ? ranges' Hr Hranges]; subst.
      destruct (Hbwd _ Hr) as (piece & Hp & Hu & Hc). rewrite Hp. simpl.
      destruct (proj2 (IH _ (utf8_append _ _ Hvalue Hu)) _ Hranges) as (out & Hout & Huo & Hco).
      exists out. split_and!; [done|done|].
      by rewrite Hco, (chars_append _ _ Hvalue), Hc, <- app_assoc.
Qed.

(** Text anchors count characters, not bytes: on any text, an anchor is read exactly
    as the characters of its segments, in order, whatever their length in bytes, and
    what is read is again whole characters; this fails only when there is no segment, a
    segment has no valid indices or reaches past the last character, or the text is
    blank or too long. *)
Theorem anchors_count_characters text segments :
  utf8 text →
  (∀ value, resolve (AnchoredText_new text) segments = Ok value →
     ∃ ranges, Forall2 (range_fits text) segments ranges ∧ segments ≠ [] ∧ utf8 value
       ∧ chars value = concat (chars_range text <$> ranges)
       ∧ trim_is_empty value = false ∧ strlen value ≤ 65536)
  ∧ ∀ ranges, Forall2 (range_fits text) segments ranges → segments ≠ [] →
      ∃ value, chars value = concat (chars_range text <$> ranges)
        ∧ resolve (AnchoredText_new text) segments
          = if trim_is_empty value || (65536 <? strlen value)
            then Err PageRecognitionError.Permanent else Ok value.
Proof.
  intros Htext. destruct (resolve_segments_spec text "" segments Htext utf8_nil) as [Hfwd Hbwd].
  unfold resolve. split.
  - destruct (Z.eqb_spec (zlen segments) 0) as [|Hne]; [done|].
    intros value (out & Hout & Hok)%and_then_Ok. destruct (Hfwd _ Hout) as [ranges Hranges].
    destruct (Hbwd _ Hranges) as (out' & Hout' & Hu & Hc). rewrite Hout in Hout'. injection Hout' as <-.
    destruct (trim_is_empty out) eqn:Htrim; [done|]. simpl in Hok.
    destruct (Z.ltb_spec 65536 (strlen out)); [done|]. injection Hok as <-.
    exists ranges. split_and!; try done. by intros ->.
  - intros ranges Hranges Hne. destruct (Hbwd _ Hranges) as (out & Hout & Hu & Hc).
    destruct (Z.eqb_spec (zlen segments) 0) as [H0|_].
    { destruct segments; [done|]. rewrite zlen_cons in H0. pose proof (zlen_nonneg segments). lia. }
    exists out. split; [done|]. by rewrite Hout.
Qed.

(** ** Pages *)

(** What an observation says of its line. *)
Definition line_observed (text : string) (number : PageNumber) (index : Z) (line : WireLine)
    (observed : TextObservation) : Prop :=
  ObservationId_str (observation_id observed) = docai_observation_id number index
  ∧ reading_order observed = index ∧ level observed = Line ∧ parent_observation_id observed = None
  ∧ resolve (AnchoredText_new text) (text_segments line) = Ok (observation_text observed)
  ∧ line_confidence line = Some (Confidence_value (observation_confidence observed))
  ∧ Forall2 (λ vertex point, vertex_x vertex = Some (point_x point) ∨ vertex_x vertex = None ∧ point_x point = f64_zero)
      (normalized_vertices line) (points (observation_polygon observed))
  ∧ Forall2 (λ vertex point, vertex_y vertex = Some (point_y point) ∨ vertex_y vertex = None ∧ point_y point = f64_zero)
      (normalized_vertices line) (points (observation_polygon observed)).

Lemma line_point_Ok vertex point : line_point vertex = Ok point →
  (vertex_x vertex = Some (point_x point) ∨ vertex_x vertex = None ∧ point_x point = f64_zero)
  ∧ (vertex_y vertex = Some (point_y point) ∨ vertex_y vertex = None ∧ point_y point = f64_zero).
Proof.
  unfold line_point, NormalizedPoint_new. destruct (_ && _); simpl; [|done]. intros [= <-]. simpl.
  destruct (vertex_x vertex), (vertex_y vertex); simpl; auto.
Qed.

Lemma observation_Ok text number index line observed :
  observation (AnchoredText_new text) number index line = Ok observed →
  line_observed text number index line observed.
Proof.
  unfold observation. intros (order & [-> _]%ok_or_Ok%checked_Some & (value & Hv
    & (c & Hc%ok_or_Ok & (conf & Hconf%map_err_Ok & (ps & Hps%collect_results_Ok
    & (poly & Hpoly%map_err_Ok & (id & Hid%map_err_Ok & Hobs%map_err_Ok)%and_then_Ok)%and_then_Ok)%and_then_Ok)%and_then_Ok)%and_then_Ok)%and_then_Ok)%and_then_Ok.
  apply Confidence_new_Ok in Hconf as [-> _]. apply Polygon_new_Ok in Hpoly as (-> & _).
  unfold TextObservation_new in Hobs. destruct (_ || _); [done|]. rewrite bool_decide_eq_false_2 in Hobs by done.
  injection Hobs as <-. unfold line_observed. simpl. split_and!; try done.
  - exact (id_new_str (T := ObservationId) _ _ Hid).
  - eapply Forall2_impl; [exact Hps|]. intros vertex point Hp. by apply line_point_Ok in Hp as [? _].
  - eapply Forall2_impl; [exact Hps|]. intros vertex point Hp. by apply line_point_Ok in Hp as [_ ?].
Qed.

Lemma page_lines_Ok text number lines index observed :
  page_lines (AnchoredText_new text) number index lines = Ok observed →
  length observed = length lines
  ∧ ∀ i line o, lines !! i = Some line → observed !! i = Some o →
      line_observed text number (index + Z.of_nat i) line o.
Proof.
  revert index observed. induction lines as [|line lines IH]; intros index observed; simpl.
  - intros [= <-]. split; [done|]. by intros [].
  - intros (o & Ho & (rest & Hrest & [= <-])%and_then_Ok)%and_then_Ok. apply IH in Hrest as [Hlen Hall].
    split; [simpl; lia|]. intros [|i] line' o' Hl Ho'; simpl in *.
    + injection Hl as <-. injection Ho' as <-. rewrite Z.add_0_r. by apply observation_Ok.
    + replace (index + Z.of_nat (S i)) with (index + 1 + Z.of_nat i) by lia. by apply Hall.
Qed.

(** Observations come in reading order, so the page keeps them in place. *)
Lemma page_lines_sorted text number lines index observed :
  page_lines (AnchoredText_new text) number index lines = Ok observed →
  StronglySorted (λ a b, reading_order a < reading_order b) observed
  ∧ Forall (λ o, index ≤ reading_order o) observed.
Proof.
  revert index observed. induction lines as [|line lines IH]; intros index observed; simpl.
  - intros [= <-]. split; constructor.
  - intros (o & Ho & (rest & Hrest & [= <-])%and_then_Ok)%and_then_Ok. apply IH in Hrest as [Hs Hall].
    apply observation_Ok in Ho as (_ & Ho & _). split; constructor; try done.
    + eapply Forall_impl; [exact Hall|]. simpl. lia.
    + lia.
    + eapply Forall_impl; [exact Hall|]. simpl. lia.
Qed.

Section Recognizer.
Context (response_from_slice : list Z → option ProcessResponse).

#[local] Arguments MAXIMUM_MANAGED_RESPONSE_BYTES : simpl never.
#[local] Arguments MAXIMUM_MANAGED_INPUT_BYTES : simpl never.

#[local] Notation parse_document := (parse_document response_from_slice).

(** A page that is the one page of a response, on a given geometry. *)
Definition page_of_response (number width height : Z) (encoded : list Z) (p : DocumentPage) : Prop :=
  ∃ text wire_lines,
    response_from_slice encoded
    = Some (mkProcessResponse (Some (mkWireDocument text [mkWirePage number wire_lines])))
    ∧ strlen text ≤ MAXIMUM_MANAGED_RESPONSE_BYTES
    ∧ page p = mkPageNumber number ∧ number ≠ 0 ∧ page_width p = width ∧ page_height p = height
    ∧ length (observations p) = length wire_lines
    ∧ ∀ i line o, wire_lines !! i = Some line → observations p !! i = Some o →
        line_observed text (mkPageNumber number) (Z.of_nat i) line o.

Lemma parse_document_Ok encoded number width height p :
  parse_document encoded number width height = Ok p → page_of_response number width height encoded p.
Proof.
  unfold parse_document. intros ([found] & Hr%ok_or_Ok & (document & Hd%ok_or_Ok & H)%and_then_Ok)%and_then_Ok.
  simpl in Hd. subst found. destruct document as [text pages]. simpl in H.
  destruct (_ || _) eqn:Hbounds; [done|].
  rewrite orb_false_iff, negb_false_iff, Z.ltb_ge, Z.eqb_eq in Hbounds. destruct Hbounds as [Htext Hone].
  destruct pages as [|[n wire_lines] [|? rest]]; [done| |rewrite !zlen_cons in Hone; pose proof (zlen_nonneg rest); lia].
  simpl in H. destruct (_ || _) eqn:Hpage; [done|].
  rewrite orb_false_iff, negb_false_iff, Z.ltb_ge, Z.eqb_eq in Hpage. destruct Hpage as [-> Hlines].
  apply and_then_Ok in H as (pn & Hn%map_err_Ok & (obs & Hobs & Hp%map_err_Ok)%and_then_Ok).
  unfold PageNumber_new in Hn. destruct (Z.eqb_spec number 0); [done|]. injection Hn as <-.
  apply DocumentPage_new_Ok in Hp as (-> & _).
  exists text, wire_lines. destruct (page_lines_sorted _ _ _ _ _ Hobs) as [Hs _].
  simpl. rewrite sort_by_key_sorted_id by done. apply page_lines_Ok in Hobs as [Hlen Hall].
  by split_and!.
Qed.

Context {G : Type}.
Context (encode_base64 : list Z → string).
Context (token : G → result () string * G).
Context (post : string → string → ProcessRequest → G → result () HttpResponse * G).
Context (configuration : DocumentAiConfiguration).
Context (load : PageTask → G → result PageSourceError.PageSourceError AcceptedPageSource * G).
Context (preprocessor : option (list Z → string → ParserResult (option (list Z)))).

#[local] Notation process := (process_inner encode_base64 token post configuration).
#[local] Notation recognize := (recognize_managed response_from_slice load preprocessor process).

Lemma within_limit a b :
  (MAXIMUM_MANAGED_RESPONSE_BYTES <? saturating_add usize_max a b) = false →
  a + b ≤ MAXIMUM_MANAGED_RESPONSE_BYTES.
Proof.
  rewrite Z.ltb_ge. unfold saturating_add, usize_max, u64_max, MAXIMUM_MANAGED_RESPONSE_BYTES. lia.
Qed.

Lemma read_body_Ok body chunks out : read_body body chunks = Ok out →
  ∃ parts, chunks = (Ok <$> parts) ∧ out = body ++ concat parts ∧ (zlen body ≤ MAXIMUM_MANAGED_RESPONSE_BYTES →
    zlen out ≤ MAXIMUM_MANAGED_RESPONSE_BYTES).
Proof.
  revert body. induction chunks as [|chunk chunks IH]; intros body; simpl.
  - intros [= <-]. exists []. simpl. by rewrite app_nil_r.
  - intros (part & Hpart%map_err_Ok & H)%and_then_Ok. subst chunk.
    destruct (_ <? _) eqn:Hle in H; [done|]. apply within_limit in Hle.
    apply IH in H as (parts & -> & -> & Hmax). exists (part :: parts).
    split_and!; [done|by rewrite <- app_assoc|]. intros _. apply Hmax. by rewrite zlen_app.
Qed.

(** What an answer of the transport says about its request and the response. *)
Lemma process_Ok request g output g' : process request g = (Ok output, g') →
  0 < zlen (request_bytes request) ≤ MAXIMUM_MANAGED_INPUT_BYTES
  ∧ is_supported_content_type (request_content_type request) = true
  ∧ 0 < zlen output ≤ MAXIMUM_MANAGED_RESPONSE_BYTES
  ∧ ∃ access g1 response parts,
      token g = (Ok access, g1)
      ∧ post (endpoint configuration) access (ProcessRequest_from encode_base64 request) g1 = (Ok response, g')
      ∧ 200 ≤ http_status response ≤ 299
      ∧ http_body response = (Ok <$> parts) ∧ output = concat parts.
Proof.
  unfold process_inner. destruct (_ || _) eqn:Hbad; [done|].
  rewrite !orb_false_iff, negb_false_iff, Z.eqb_neq, Z.ltb_ge in Hbad. destruct Hbad as [[Hne Hmax] Htype].
  destruct (token g) as [[access|] g1] eqn:Htoken; [|done].
  destruct (post _ access _ g1) as [[response|] g2] eqn:Hpost; [|done].
  intros [= Hout <-]. destruct (contains 200 299 _) eqn:Hstatus; [|done]. apply contains_true in Hstatus.
  simpl in Hout. unfold read_bounded_response in Hout.
  destruct (match http_content_length response with Some _ => _ | None => _ end); [done|].
  apply and_then_Ok in Hout as (body & Hbody & Hempty).
  destruct (Z.eqb_spec (zlen body) 0) as [|Hb]; [done|]. injection Hempty as ->.
  apply read_body_Ok in Hbody as (parts & Hparts & -> & Hlen). rewrite zlen_nil in Hlen.
  pose proof (zlen_nonneg (request_bytes request)). pose proof (zlen_nonneg (concat parts)).
  assert (Hmax0 : 0 ≤ MAXIMUM_MANAGED_RESPONSE_BYTES) by (unfold MAXIMUM_MANAGED_RESPONSE_BYTES; lia).
  rewrite app_nil_l in Hb, Hlen |- *.
  split_and!; [lia|lia|done|lia|exact (Hlen Hmax0)|].
  exists access, g1, response, parts. destruct Hstatus. by split_and!.
Qed.

(** C32: a page that the managed service recognises is the service's answer for that page:
    the accepted source was sent, or the image prepared from it, nothing empty and at
    most 20 MiB, in a supported type; the answer was a success of at most 16 MiB, whose
    one page is the page asked for; the page has the geometry of the accepted source and
    one observation per line, in order, with the text of the line's anchor, its
    confidence and its outline. *)
Theorem managed_recognition_sound task g p g' :
  recognize task g = (Ok p, g') →
  ∃ source g1 request output,
    load task g = (Ok source, g1)
    ∧ request_page request = task_page task
    ∧ (request = DocumentAiRequest_new (task_page task) source
       ∨ ∃ prepare bytes, preprocessor = Some prepare
           ∧ prepare (source_bytes source) (source_content_type source) = Ok (Some bytes)
           ∧ request = mkDocumentAiRequest (task_page task) "image/png" bytes)
    ∧ process request g1 = (Ok output, g')
    ∧ 0 < zlen (request_bytes request) ≤ MAXIMUM_MANAGED_INPUT_BYTES
    ∧ is_supported_content_type (request_content_type request) = true
    ∧ 0 < zlen output ≤ MAXIMUM_MANAGED_RESPONSE_BYTES
    ∧ page_of_response (task_page task) (geometry_width (source_geometry source))
        (geometry_height (source_geometry source)) output p.
Proof.
  unfold recognize_managed. destruct (load task g) as [[source|] g1] eqn:Hload; [|done].
  set (request := prepared_request _ _ _). destruct (process request g1) as [[output|] g2] eqn:Hproc; [|done].
  intros [= Hparse <-]. apply parse_document_Ok in Hparse.
  pose proof Hproc as (Hin & Htype & Hout & _)%process_Ok.
  exists source, g1, request, output. split_and!; try done; try apply Hin; try apply Hout.
  - unfold request, prepared_request. by repeat case_match.
  - unfold request, prepared_request. destruct (is_small_image _ _ _); [|by left].
    destruct preprocessor as [prepare|]; [|by left]. simpl.
    destruct (prepare (source_bytes source) (source_content_type source)) as [[bytes|]|] eqn:Hprep;
      [|by left..]. right. by exists prepare, bytes.
Qed.
End Recognizer.

(** ** Samples *)

#[local] Notation sample_text := "né ok".
#[local] Notation sample_anchor :=
  [mkWireTextSegment None (Some (WireOffset.Number 2)); mkWireTextSegment (Some (WireOffset.String "3")) (Some (WireOffset.Number 5))].

Theorem anchors_count_characters_witness :
  resolve (AnchoredText_new sample_text) sample_anchor = Ok "néok"
  ∧ ∃ ranges, Forall2 (range_fits sample_text) sample_anchor ranges
      ∧ chars "néok" = concat (chars_range sample_text <$> ranges).
Proof.
  assert (Hutf8 : utf8 sample_text).
  { apply utf8_join. exists ["n"; "é"; " "; "o"; "k"]. split; [|reflexivity].
    repeat constructor; vm_compute; congruence. }
  assert (Hr : resolve (AnchoredText_new sample_text) sample_anchor = Ok "néok") by by vm_compute.
  split; [exact Hr|].
  destruct (proj1 (anchors_count_characters sample_text sample_anchor Hutf8) _ Hr)
    as (ranges & Hfit & _ & _ & Hc & _).
  exists ranges. split; [exact Hfit|exact Hc].
Defined.

#[local] Notation sample_line :=
  (mkWireLine sample_anchor (Some f64_one)
     [mkWireVertex None None; mkWireVertex (Some f64_one) None; mkWireVertex (Some f64_one) (Some f64_one)]).
#[local] Notation sample_from_slice :=
  (λ _, Some (mkProcessResponse (Some (mkWireDocument sample_text [mkWirePage 2 [sample_line]])))).
#[local] Notation sample_source :=
  (mkAcceptedPageSource [1; 2; 3] "application/pdf" (mkPageGeometry (mkPageNumber 2) 100 200)).
#[local] Notation sample_recognize :=
  (recognize_managed (G := ()) sample_from_slice (λ _ g, (Ok sample_source, g)) None
     (process_inner (λ _, "AQID") (λ g, (Ok "token", g))
        (λ _ _ _ g, (Ok (mkHttpResponse 200 (Some 1) [Ok [123]]), g))
        (mkDocumentAiConfiguration "project" "eu" "processor"))).

Theorem managed_recognition_sound_witness :
  ∃ p, sample_recognize (mkPageTask 2 1 "key") () = (Ok p, ()) ∧ page_width p = 100 ∧ page_height p = 200
    ∧ length (observations p) = 1%nat.
Proof.
  destruct (sample_recognize (mkPageTask 2 1 "key") ()) as [[p|e] []] eqn:Hr;
    [|exfalso; revert Hr; vm_compute; discriminate].
  exists p. split; [reflexivity|].
  destruct (managed_recognition_sound sample_from_slice (λ _, "AQID") (λ g : (), (Ok "token", g))
    (λ _ _ _ g, (Ok (mkHttpResponse 200 (Some 1) [Ok [123]]), g))
    (mkDocumentAiConfiguration "project" "eu" "processor") (λ _ g, (Ok sample_source, g)) None
    (mkPageTask 2 1 "key") () p () Hr)
    as (source & g1 & request & output & Hload & _ & _ & _ & _ & _ & _ & text & wire_lines & Hslice & _ & _
        & _ & Hw & Hh & Hlen & _).
  injection Hload as <- _. injection Hslice as _ <-.
  split; [exact Hw|]. split; [exact Hh|exact Hlen].
Defined.
