(* ===== verification/Engine.v ===== *)
(** * Engine: from detected regions to page observations

    Models [ocr-engine/src/geometry.rs], [detection.rs], [recognition.rs] and [page.rs]:
    the chain of transformations an image went through, the selection of detected
    regions, the batch of recognised texts and the observations of a page.  A [usize]
    is a [Z].  The sine and cosine of the platform, whose precision Rust leaves open, are
    arguments.

    The selected regions are the greedy choice in order of confidence; a batch of texts
    is accepted exactly when it covers the regions; a page has one observation per
    region, with the region's own text, in reading order. *)

From Stdlib Require Import SpecFloat.
From S2P Require Import Prelude Text Float64 Identifiers Geometry Document DocumentFacts.

#[local] Open Scope list_scope.
#[local] Open Scope Z_scope.

Module EngineError.
Inductive Error :=
| InvalidLimit | InvalidQualityThreshold | InvalidSharpnessThreshold
| EncodedByteLimitExceeded (bytes limit : Z)
| PixelLimitExceeded (pixels limit : Z)
| UnsupportedOrInvalidImage | InvalidGeometry | InvalidDeskewAngle | InvalidDeskewPolicy
| InvalidDetectionCandidate | InvalidDetectionLimits
| DetectionOutputLimitExceeded (candidates limit : Z)
| InvalidRecognition | InvalidRecognitionBatch | InvalidPageObservation | InvalidModelProfile
| InvalidTrustedModelKey | UnknownModelSigningKey | InvalidModelSignature
| ModelProfileByteLimitExceeded (bytes limit : Z)
| ModelArtifactByteLimitExceeded (bytes limit : Z)
| ModelArtifactDigestMismatch.
End EngineError.

Notation EngineResult := (result EngineError.Error).

(** ** Transformations *)

Definition MAXIMUM_DESKEW_DEGREES : f64 := f64_of_Z 12.

(** [(lo..=hi).contains(&x)]. *)
Definition f64_within (lo hi x : f64) : bool := f64_le lo x && f64_le x hi.

Definition valid_coordinate (value : f64) : bool := is_finite value && in_unit value.

Record DeskewAngle := mkDeskewAngle { degrees : f64 }.

Definition DeskewAngle_new (degrees : f64) : EngineResult DeskewAngle :=
  if is_finite degrees && f64_within (SFopp MAXIMUM_DESKEW_DEGREES) MAXIMUM_DESKEW_DEGREES degrees
  then Ok (mkDeskewAngle degrees) else Err EngineError.InvalidDeskewAngle.

Record CropRegion := mkCropRegion {
  crop_left : f64;
  crop_top : f64;
  crop_width : f64;
  crop_height : f64;
}.

Definition CropRegion_new (left top width height : f64) : EngineResult CropRegion :=
  if existsb (λ value, negb (is_finite value)) [left; top; width; height]
     || f64_lt left f64_zero || f64_lt top f64_zero || f64_le width f64_zero || f64_le height f64_zero
     || f64_lt f64_one (f64_add left width) || f64_lt f64_one (f64_add top height)
  then Err EngineError.InvalidGeometry
  else Ok (mkCropRegion left top width height).

Inductive Rotation := Clockwise90 | Clockwise180 | Clockwise270.

Module TransformStep.
Inductive TransformStep :=
| Crop (region : CropRegion)
| Deskew (angle : DeskewAngle)
| FlipHorizontal
| FlipVertical
| Rotation (rotation : Rotation).
End TransformStep.

Record TransformChain := mkTransformChain { steps : list TransformStep.TransformStep }.

(** [push_crop] and its fellows. *)
Definition push (chain : TransformChain) (step : TransformStep.TransformStep) : TransformChain :=
  mkTransformChain (steps chain ++ [step]).

Definition f64_half : f64 := f64_dec 5 1.
(** [std::f64::consts::PI]. *)
Definition f64_pi : f64 := S754_finite false 7074237752028440 (-51).
Definition to_radians (degrees : f64) : f64 := f64_mul degrees (f64_div f64_pi (f64_of_Z 180)).

Section Transforms.
Context (cos sin : f64 → f64).

(** One step back towards the original image. *)
Definition step_back (p : f64 * f64) (transform : TransformStep.TransformStep) : f64 * f64 :=
  let '(x, y) := p in
  match transform with
  | TransformStep.Crop region =>
      (f64_add (crop_left region) (f64_mul x (crop_width region)),
       f64_add (crop_top region) (f64_mul y (crop_height region)))
  | TransformStep.Deskew angle =>
      let radians := to_radians (degrees angle) in
      let translated_x := f64_sub x f64_half in
      let translated_y := f64_sub y f64_half in
      (f64_add (f64_add f64_half (f64_mul (cos radians) translated_x))
         (f64_mul (sin radians) translated_y),
       f64_add (f64_sub f64_half (f64_mul (sin radians) translated_x))
         (f64_mul (cos radians) translated_y))
  | TransformStep.FlipHorizontal => (f64_sub f64_one x, y)
  | TransformStep.FlipVertical => (x, f64_sub f64_one y)
  | TransformStep.Rotation Clockwise90 => (y, f64_sub f64_one x)
  | TransformStep.Rotation Clockwise180 => (f64_sub f64_one x, f64_sub f64_one y)
  | TransformStep.Rotation Clockwise270 => (f64_sub f64_one y, x)
  end.

Definition map_to_original (self : TransformChain) (x y : f64) : EngineResult (f64 * f64) :=
  if negb (valid_coordinate x) || negb (valid_coordinate y) then Err EngineError.InvalidGeometry
  else
    let '(x, y) := fold_left step_back (rev (steps self)) (x, y) in
    if valid_coordinate x && valid_coordinate y then Ok (x, y) else Err EngineError.InvalidGeometry.
End Transforms.

(** ** Detection *)

Record DetectionCandidate := mkDetectionCandidate {
  region_left : f64;
  region_top : f64;
  region_right : f64;
  region_bottom : f64;
  region_confidence : f64;
}.

#[export] Instance DetectionCandidate_eq_dec : EqDecision DetectionCandidate.
Proof. solve_decision. Defined.

Definition DetectionCandidate_new (left top right bottom confidence : f64)
    : EngineResult DetectionCandidate :=
  if existsb (λ value, negb (is_finite value)) [left; top; right; bottom; confidence]
     || negb (in_unit left) || negb (in_unit top) || negb (in_unit right) || negb (in_unit bottom)
     || negb (in_unit confidence) || f64_le right left || f64_le bottom top
  then Err EngineError.InvalidDetectionCandidate
  else Ok (mkDetectionCandidate left top right bottom confidence).

Record DetectionLimits := mkDetectionLimits { maximum_candidates : Z; overlap_threshold : f64 }.

Definition DetectionLimits_new (maximum_candidates : Z) (overlap_threshold : f64)
    : EngineResult DetectionLimits :=
  if (maximum_candidates =? 0) || negb (is_finite overlap_threshold)
     || negb (f64_lt f64_zero overlap_threshold && f64_le overlap_threshold f64_one)
  then Err EngineError.InvalidDetectionLimits
  else Ok (mkDetectionLimits maximum_candidates overlap_threshold).

Definition intersection_over_union (left right : DetectionCandidate) : f64 :=
  let intersection_width :=
    f64_max (f64_sub (f64_min (region_right left) (region_right right))
               (f64_max (region_left left) (region_left right))) f64_zero in
  let intersection_height :=
    f64_max (f64_sub (f64_min (region_bottom left) (region_bottom right))
               (f64_max (region_top left) (region_top right))) f64_zero in
  let intersection := f64_mul intersection_width intersection_height in
  let left_area :=
    f64_mul (f64_sub (region_right left) (region_left left))
      (f64_sub (region_bottom left) (region_top left)) in
  let right_area :=
    f64_mul (f64_sub (region_right right) (region_left right))
      (f64_sub (region_bottom right) (region_top right)) in
  f64_div intersection (f64_sub (f64_add left_area right_area) intersection).

Definition rank_le (left right : DetectionCandidate) : bool :=
  not_greater
    (then_with (total_cmp (region_confidence right) (region_confidence left))
      (then_with (total_cmp (region_top left) (region_top right))
         (total_cmp (region_left left) (region_left right)))).

Definition reading_le (left right : DetectionCandidate) : bool :=
  not_greater
    (then_with (total_cmp (region_top left) (region_top right))
      (then_with (total_cmp (region_left left) (region_left right))
        (then_with (total_cmp (region_bottom left) (region_bottom right))
           (total_cmp (region_right left) (region_right right))))).

(** The loop over the ranked candidates. *)
Fixpoint select_ranked (threshold : f64) (selected ranked : list DetectionCandidate)
    : list DetectionCandidate :=
  match ranked with
  | [] => selected
  | candidate :: ranked =>
      select_ranked threshold
        (if forallb (λ accepted, f64_lt (intersection_over_union candidate accepted) threshold) selected
         then selected ++ [candidate] else selected) ranked
  end.

Definition select_regions (candidates : list DetectionCandidate) (limits : DetectionLimits)
    : EngineResult (list DetectionCandidate) :=
  if maximum_candidates limits <? zlen candidates
  then Err (EngineError.DetectionOutputLimitExceeded (zlen candidates) (maximum_candidates limits))
  else
    let ranked := sort_by rank_le candidates in
    Ok (sort_by reading_le (select_ranked (overlap_threshold limits) [] ranked)).

(** ** Recognition *)

Definition MAXIMUM_RECOGNIZED_TEXT_BYTES : Z := 4096.
Definition MAXIMUM_ALTERNATIVES : Z := 16.

Definition valid_text (value : string) : bool :=
  negb (trim_is_empty value) && (strlen value <=? MAXIMUM_RECOGNIZED_TEXT_BYTES).

Definition valid_confidence (value : f64) : bool := is_finite value && in_unit value.

Record RecognitionAlternative := mkRecognitionAlternative {
  alternative_text : string;
  alternative_confidence : f64;
}.

Definition RecognitionAlternative_new (text : string) (confidence : f64)
    : EngineResult RecognitionAlternative :=
  if negb (valid_text text) || negb (valid_confidence confidence) then Err EngineError.InvalidRecognition
  else Ok (mkRecognitionAlternative text confidence).

Record RecognizedRegion := mkRecognizedRegion {
  region_index : Z;
  region_text : string;
  recognized_confidence : f64;
  alternatives : list RecognitionAlternative;
}.

Definition RecognizedRegion_new (region_index : Z) (text : string) (confidence : f64)
    (alternatives : list RecognitionAlternative) : EngineResult RecognizedRegion :=
  if negb (valid_text text) || negb (valid_confidence confidence)
     || (MAXIMUM_ALTERNATIVES <? zlen alternatives)
  then Err EngineError.InvalidRecognition
  else Ok (mkRecognizedRegion region_index text confidence alternatives).

(** [.enumerate().any(|(expected, output)| output.region_index != expected)] from an index. *)
Fixpoint any_misplaced (expected : Z) (outputs : list RecognizedRegion) : bool :=
  match outputs with
  | [] => false
  | output :: outputs => negb (region_index output =? expected) || any_misplaced (expected + 1) outputs
  end.

Definition assemble_recognitions (outputs : list RecognizedRegion) (region_count : Z)
    : EngineResult (list RecognizedRegion) :=
  if negb (zlen outputs =? region_count) then Err EngineError.InvalidRecognitionBatch
  else
    let outputs := sort_by_key region_index outputs in
    if any_misplaced 0 outputs then Err EngineError.InvalidRecognitionBatch else Ok outputs.

(** ** Pages *)

Section Pages.
Context (cos sin : f64 → f64).

Definition original_point (transforms : TransformChain) (corner : f64 * f64)
    : EngineResult NormalizedPoint :=
  let? mapped := map_to_original cos sin transforms corner.1 corner.2 in
  map_err (NormalizedPoint_new mapped.1 mapped.2) (λ _, EngineError.InvalidPageObservation).

Definition original_polygon (region : DetectionCandidate) (transforms : TransformChain)
    : EngineResult Polygon :=
  let left := region_left region in
  let top := region_top region in
  let right := region_right region in
  let bottom := region_bottom region in
  let? points :=
    collect_results (original_point transforms)
      [(left, top); (right, top); (right, bottom); (left, bottom)] in
  map_err (Polygon_new points) (λ _, EngineError.InvalidPageObservation).

Definition pair_le (left right : DetectionCandidate * RecognizedRegion) : bool :=
  not_greater
    (then_with (total_cmp (region_top left.1) (region_top right.1))
       (total_cmp (region_left left.1) (region_left right.1))).

Definition engine_observation_id (page index : Z) : string :=
  "obs_p" +:+ show_dec page +:+ "_r" +:+ show_dec index.

Definition region_observation (page : PageNumber) (transforms : TransformChain)
    (level : ObservationLevel) (reading_order : Z) (entry : DetectionCandidate * RecognizedRegion)
    : EngineResult TextObservation :=
  let invalid := EngineError.InvalidPageObservation in
  let '(region, recognition) := entry in
  let? reading_order := ok_or (checked u32_max reading_order) invalid in
  let? polygon := original_polygon region transforms in
  let? observation_id :=
    map_err (ObservationId_try_from
               (engine_observation_id (PageNumber_value page) (region_index recognition)))
      (λ _, invalid) in
  let? confidence := map_err (Confidence_new (recognized_confidence recognition)) (λ _, invalid) in
  map_err (TextObservation_new observation_id level (region_text recognition) confidence polygon
             reading_order None) (λ _, invalid).

(** [.enumerate().map(..).collect::<Result<Vec<_>>>()] from an index. *)
Fixpoint page_observations (page : PageNumber) (transforms : TransformChain) (level : ObservationLevel)
    (reading_order : Z) (pairs : list (DetectionCandidate * RecognizedRegion))
    : EngineResult (list TextObservation) :=
  match pairs with
  | [] => Ok []
  | entry :: pairs =>
      let? observed := region_observation page transforms level reading_order entry in
      let? rest := page_observations page transforms level (reading_order + 1) pairs in
      Ok (observed :: rest)
  end.

Definition build_page_observations (page : PageNumber) (width height : Z)
    (regions : list DetectionCandidate) (recognitions : list RecognizedRegion)
    (transforms : TransformChain) (level : ObservationLevel) : EngineResult DocumentPage :=
  let? recognitions := assemble_recognitions recognitions (zlen regions) in
  let pairs := sort_by pair_le (zip regions recognitions) in
  let? observations := page_observations page transforms level 0 pairs in
  map_err (DocumentPage_new page width height observations) (λ _, EngineError.InvalidPageObservation).
End Pages.

(** ** Orders by several keys *)

Lemma not_greater_compare a b : not_greater (a ?= b) = true ↔ a ≤ b.
Proof. unfold Z.le. destruct (a ?= b); simpl; naive_solver. Qed.

Lemma not_greater_then a b c :
  not_greater (then_with (a ?= b) c) = true ↔ a < b ∨ a = b ∧ not_greater c = true.
Proof.
  destruct (Z.compare_spec a b) as [->|Hlt|Hgt]; simpl.
  - split; [auto|]. intros [?|[_ ?]]; [lia|done].
  - split; [by left|done].
  - split; [done|]. intros [?|[? _]]; lia.
Qed.

Ltac lexicographic :=
  unfold rank_le, reading_le, pair_le, total_cmp;
  repeat setoid_rewrite not_greater_then; repeat setoid_rewrite not_greater_compare; lia.

Lemma rank_le_total a b : rank_le a b = true ∨ rank_le b a = true.
Proof. lexicographic. Qed.
Lemma rank_le_trans a b c : rank_le a b = true → rank_le b c = true → rank_le a c = true.
Proof. lexicographic. Qed.
Lemma reading_le_total a b : reading_le a b = true ∨ reading_le b a = true.
Proof. lexicographic. Qed.
Lemma reading_le_trans a b c : reading_le a b = true → reading_le b c = true → reading_le a c = true.
Proof. lexicographic. Qed.
Lemma pair_le_total a b : pair_le a b = true ∨ pair_le b a = true.
Proof. lexicographic. Qed.
Lemma pair_le_trans a b c : pair_le a b = true → pair_le b c = true → pair_le a c = true.
Proof. lexicographic. Qed.

(** ** Selection *)

(** [c] overlaps [accepted] less than the threshold. *)
Definition apart (threshold : f64) (accepted c : DetectionCandidate) : Prop :=
  f64_lt (intersection_over_union c accepted) threshold = true.

#[export] Instance apart_dec threshold accepted c : Decision (apart threshold accepted c).
Proof. unfold apart. apply _. Defined.

Lemma select_ranked_spec threshold selected ranked :
  ∃ kept dropped, select_ranked threshold selected ranked = selected ++ kept
    ∧ kept ++ dropped ≡ₚ ranked ∧ kept `sublist_of` ranked
    ∧ (StronglySorted (apart threshold) selected → StronglySorted (apart threshold) (selected ++ kept))
    ∧ ∀ R : relation DetectionCandidate, (∀ a c, a ∈ selected → c ∈ ranked → R a c) → StronglySorted R ranked →
        ∀ c, c ∈ dropped → ∃ a, a ∈ selected ++ kept ∧ R a c ∧ ¬ apart threshold a c.
Proof.
  revert selected. induction ranked as [|c ranked IH]; intros selected; simpl.
  - exists [], []. rewrite app_nil_r. split_and!; try done. intros R _ _ c Hc. set_solver.
  - destruct (forallb _ selected) eqn:Hall.
    + destruct (IH (selected ++ [c])) as (kept & dropped & -> & Hp & Hsub & Hs & Hd).
      exists (c :: kept), dropped. rewrite <- app_assoc. split_and!; try done.
      * simpl. by rewrite Hp.
      * by apply sublist_skip.
      * intros Hsel. rewrite <- app_assoc in Hs. apply Hs. apply StronglySorted_app. split_and!.
        -- intros a c' Ha ->%list_elem_of_singleton. rewrite forallb_forall in Hall. apply Hall.
           by apply list_elem_of_In.
        -- done.
        -- repeat constructor.
      * intros R Hbefore Hsorted c' Hc'. apply StronglySorted_inv in Hsorted as [Hsorted Hfirst].
        rewrite Forall_forall in Hfirst. rewrite <- app_assoc in Hd. apply Hd; [|done|done].
        intros a c'' [Ha| ->%list_elem_of_singleton]%elem_of_app Hin; [apply Hbefore; [done|by right]|auto].
    + destruct (IH selected) as (kept & dropped & -> & Hp & Hsub & Hs & Hd).
      exists kept, (c :: dropped). split_and!; try done.
      * by rewrite <- Permutation_middle, Hp.
      * by apply sublist_cons.
      * intros R Hbefore Hsorted c' [->|Hc']%elem_of_cons.
        -- assert (¬ Forall (λ a, apart threshold a c) selected) as Hno.
           { intros Hf. assert (Ht : forallb (λ accepted, f64_lt (intersection_over_union c accepted) threshold) selected = true).
             { apply forallb_forall. intros a Ha%list_elem_of_In. rewrite Forall_forall in Hf. by apply Hf. }
             congruence. }
           apply not_Forall_Exists, Exists_exists in Hno as (a & Ha & Hov); [|intros a; apply apart_dec].
           exists a. split_and!; [apply elem_of_app; by left|apply Hbefore; [done|by left]|done].
        -- apply StronglySorted_inv in Hsorted as [Hsorted _]. apply Hd; try done.
           intros a c'' Ha Hin. apply Hbefore; [done|by right].
Qed.

Lemma StronglySorted_sublist {A} (R : relation A) l k :
  l `sublist_of` k → StronglySorted R k → StronglySorted R l.
Proof.
  induction 1 as [|x l k Hs IH|x l k Hs IH]; [done| |]; intros [Hk Hx]%StronglySorted_inv; [|auto].
  constructor; [auto|]. rewrite Forall_forall in *. intros y Hy. by eapply Hx, elem_of_sublist.
Qed.

(** Region selection is the greedy choice by confidence: within the limit on
    candidates, the result consists of candidates, in reading order; ranked by
    confidence, no kept region overlaps an earlier kept one by the threshold or more,
    and every candidate that was dropped overlaps a kept one of no lower rank by that
    much. *)
Theorem select_regions_greedy candidates limits :
  if maximum_candidates limits <? zlen candidates
  then select_regions candidates limits
       = Err (EngineError.DetectionOutputLimitExceeded (zlen candidates) (maximum_candidates limits))
  else
    ∃ out kept dropped, select_regions candidates limits = Ok out
      ∧ kept ++ dropped ≡ₚ candidates ∧ out ≡ₚ kept
      ∧ StronglySorted (λ a b, reading_le a b = true) out
      ∧ StronglySorted (λ a b, rank_le a b = true) kept
      ∧ StronglySorted (apart (overlap_threshold limits)) kept
      ∧ ∀ c, c ∈ dropped → ∃ a, a ∈ kept ∧ rank_le a c = true ∧ ¬ apart (overlap_threshold limits) a c.
Proof.
  unfold select_regions. destruct (_ <? _); [done|].
  destruct (select_ranked_spec (overlap_threshold limits) [] (sort_by rank_le candidates))
    as (kept & dropped & Hk & Hp & Hsub & Hs & Hd).
  assert (Hsorted : StronglySorted (λ a b, rank_le a b = true) (sort_by rank_le candidates))
    by (apply sort_by_StronglySorted; [apply rank_le_total|apply rank_le_trans]).
  eexists _, kept, dropped. split; [done|]. rewrite Hk. simpl. split_and!.
  - by rewrite Hp, sort_by_Permutation.
  - by rewrite sort_by_Permutation.
  - apply sort_by_StronglySorted; [apply reading_le_total|apply reading_le_trans].
  - by eapply StronglySorted_sublist.
  - apply Hs. constructor.
  - apply Hd; [|done]. intros a c Ha. by apply elem_of_nil in Ha.
Qed.

(** ** Batches *)

Lemma any_misplaced_false expected outputs :
  any_misplaced expected outputs = false ↔ region_index <$> outputs = seqZ expected (zlen outputs).
Proof.
  revert expected. induction outputs as [|o outputs IH]; intros expected; simpl; [done|].
  rewrite orb_false_iff, negb_false_iff, Z.eqb_eq, IH, zlen_cons.
  pose proof (zlen_nonneg outputs). rewrite (seqZ_cons expected) by lia.
  replace (Z.pred (zlen outputs + 1)) with (zlen outputs) by lia.
  replace (Z.succ expected) with (expected + 1) by lia.
  split; [intros [Ha Hb]; by f_equal|intros Heq; by injection Heq].
Qed.

Lemma indexed_sorted from l : region_index <$> l = seqZ from (zlen l) →
  StronglySorted (λ a b, region_index a < region_index b) l ∧ Forall (λ b, from ≤ region_index b) l.
Proof.
  revert from. induction l as [|o l IH]; intros from; [split; constructor|].
  rewrite zlen_cons. pose proof (zlen_nonneg l). rewrite seqZ_cons by lia. simpl.
  replace (Z.pred (zlen l + 1)) with (zlen l) by lia. intros [= Ho Hl].
  destruct (IH _ Hl) as [Hs Hf]. split; constructor; try done; try lia;
    (eapply Forall_impl; [exact Hf|]); simpl; lia.
Qed.

(** A batch of recognised texts is accepted exactly when it has one text for each
    region, in whatever order they came; the result is the batch in the order of the
    regions. *)
Theorem recognitions_cover_regions outputs count out :
  0 ≤ count →
  assemble_recognitions outputs count = Ok out ↔
  out ≡ₚ outputs ∧ region_index <$> out = seqZ 0 count.
Proof.
  intros Hcount. unfold assemble_recognitions. split.
  - destruct (Z.eqb_spec (zlen outputs) count) as [Hlen|]; simpl; [|done].
    destruct (any_misplaced 0 _) eqn:Hm; [done|]. intros [= <-]. split; [apply sort_by_Permutation|].
    apply any_misplaced_false in Hm. rewrite Hm. f_equal. rewrite <- Hlen. unfold zlen.
    f_equal. apply sort_by_length.
  - intros [Hp Hidx].
    assert (Hlen : zlen out = count).
    { unfold zlen. rewrite <- (length_fmap region_index out), Hidx, length_seqZ. lia. }
    assert (zlen outputs = count) as -> by (rewrite <- Hlen; unfold zlen; by rewrite Hp).
    rewrite Z.eqb_refl. simpl. rewrite <- Hlen in Hidx.
    assert (sort_by_key region_index outputs = out) as ->.
    { rewrite <- (sort_by_key_unique region_index out outputs); [|done|rewrite Hidx; apply NoDup_seqZ].
      apply sort_by_key_sorted_id. by apply (indexed_sorted 0). }
    by rewrite (proj2 (any_misplaced_false 0 out) Hidx).
Qed.

(** ** Pages *)

Section Pages.
Context (cos sin : f64 → f64).

(** What an observation says of its region and text. *)
Definition region_observed (number : PageNumber) (transforms : TransformChain) (lvl : ObservationLevel)
    (order : Z) (entry : DetectionCandidate * RecognizedRegion) (o : TextObservation) : Prop :=
  ObservationId_str (observation_id o)
    = engine_observation_id (PageNumber_value number) (region_index entry.2)
  ∧ level o = lvl ∧ observation_text o = region_text entry.2
  ∧ Confidence_value (observation_confidence o) = recognized_confidence entry.2
  ∧ original_polygon cos sin entry.1 transforms = Ok (observation_polygon o)
  ∧ reading_order o = order ∧ parent_observation_id o = None.

Lemma region_observation_Ok number transforms lvl order entry o :
  region_observation cos sin number transforms lvl order entry = Ok o →
  region_observed number transforms lvl order entry o.
Proof.
  destruct entry as [region recognition]. unfold region_observation.
  intros (n & [-> _]%ok_or_Ok%checked_Some & (polygon & Hpoly & (id & Hid%map_err_Ok
    & (c & Hc%map_err_Ok & Ho%map_err_Ok)%and_then_Ok)%and_then_Ok)%and_then_Ok)%and_then_Ok.
  apply Confidence_new_Ok in Hc as [-> _]. unfold TextObservation_new in Ho.
  destruct (_ || _); [done|]. rewrite bool_decide_eq_false_2 in Ho by done. injection Ho as <-.
  unfold region_observed. simpl. split_and!; try done. exact (id_new_str (T := ObservationId) _ _ Hid).
Qed.

Lemma page_observations_Ok number transforms lvl order entries os :
  page_observations cos sin number transforms lvl order entries = Ok os →
  length os = length entries
  ∧ (∀ k entry o, entries !! k = Some entry → os !! k = Some o →
       region_observed number transforms lvl (order + Z.of_nat k) entry o)
  ∧ StronglySorted (λ a b, reading_order a < reading_order b) os
  ∧ Forall (λ o, order ≤ reading_order o) os.
Proof.
  revert order os. induction entries as [|entry entries IH]; intros order os; simpl.
  - intros [= <-]. split_and!; [done|done|constructor|constructor].
  - intros (o & Ho%region_observation_Ok & (rest & Hrest & [= <-])%and_then_Ok)%and_then_Ok.
    destruct (IH _ _ Hrest) as (Hlen & Hall & Hs & Hf).
    assert (Ho' := Ho). destruct Ho' as (_ & _ & _ & _ & _ & Horder & _).
    split_and!; [simpl; lia| | |].
    + intros [|k] entry' o' He Ho'; simpl in *.
      * injection He as <-. injection Ho' as <-. by rewrite Z.add_0_r.
      * replace (order + Z.of_nat (S k)) with (order + 1 + Z.of_nat k) by lia. by apply Hall.
    + constructor; [done|]. eapply Forall_impl; [exact Hf|]. simpl. lia.
    + constructor; [lia|]. eapply Forall_impl; [exact Hf|]. simpl. lia.
Qed.

(** The corner of the first region is higher, or as high and no further right. *)
Definition upper_left_first (a b : DetectionCandidate * RecognizedRegion) : Prop :=
  total_key (region_top a.1) < total_key (region_top b.1)
  ∨ total_key (region_top a.1) = total_key (region_top b.1)
    ∧ total_key (region_left a.1) ≤ total_key (region_left b.1).

Lemma pair_le_sorted entries : StronglySorted upper_left_first (sort_by pair_le entries).
Proof.
  assert (Hs : StronglySorted (λ a b, pair_le a b = true) (sort_by pair_le entries)).
  { apply sort_by_StronglySorted; [apply pair_le_total|apply pair_le_trans]. }
  induction Hs as [|a entries' _ IH Ha]; constructor; [done|].
  eapply Forall_impl; [exact Ha|]. intros b. unfold pair_le, total_cmp, upper_left_first. simpl.
  by rewrite not_greater_then, not_greater_compare.
Qed.

(** A page shows each region's own text: when the observations of a page are built,
    the texts are one for each region; the page has the size given and one observation
    for each region, in order of the regions' upper left corners, with the identifier
    of the region, its text and confidence, and its outline in the original image. *)
Theorem page_shows_regions number width height regions recognitions transforms lvl p :
  build_page_observations cos sin number width height regions recognitions transforms lvl = Ok p →
  page p = number ∧ page_width p = width ∧ page_height p = height
  ∧ ∃ batch entries,
      batch ≡ₚ recognitions ∧ region_index <$> batch = seqZ 0 (zlen regions)
      ∧ entries ≡ₚ zip regions batch ∧ StronglySorted upper_left_first entries
      ∧ length (observations p) = length regions
      ∧ ∀ k entry o, entries !! k = Some entry → observations p !! k = Some o →
          region_observed number transforms lvl (Z.of_nat k) entry o.
Proof.
  unfold build_page_observations.
  intros (batch & Hbatch & (os & Hos & Hp%map_err_Ok)%and_then_Ok)%and_then_Ok.
  assert (Hcover : batch ≡ₚ recognitions ∧ region_index <$> batch = seqZ 0 (zlen regions)).
  { revert Hbatch. unfold assemble_recognitions.
    destruct (Z.eqb_spec (zlen recognitions) (zlen regions)) as [Hlen|]; simpl; [|done].
    destruct (any_misplaced 0 _) eqn:Hm; [done|]. intros [= <-]. split; [apply sort_by_Permutation|].
    apply any_misplaced_false in Hm. rewrite Hm, <- Hlen. unfold zlen. f_equal. f_equal. apply sort_by_length. }
  destruct Hcover as [Hperm Hidx]. apply page_observations_Ok in Hos as (Hlen & Hall & Hs & _).
  apply DocumentPage_new_Ok in Hp as (-> & _). simpl.
  split_and!; [done..|]. exists batch, (sort_by pair_le (zip regions batch)).
  rewrite sort_by_key_sorted_id by done.
  assert (Hbl : length batch = length regions).
  { rewrite <- (length_fmap region_index), Hidx, length_seqZ. unfold zlen. lia. }
  split_and!; [done|done|apply sort_by_Permutation| | |].
  - apply pair_le_sorted.
  - rewrite Hlen, sort_by_length, length_zip_with_l_eq; [done|by rewrite Hbl].
  - intros k entry o He Ho. by apply (Hall k).
Qed.
End Pages.

(** ** Samples *)

#[local] Notation candidate l t r b c := (mkDetectionCandidate (f64_dec l 1) (f64_dec t 1) (f64_dec r 1) (f64_dec b 1) (f64_dec c 1)).
#[local] Notation sample_regions := [candidate 1 1 5 2 9; candidate 1 4 5 6 8].
#[local] Notation recognized i t := (mkRecognizedRegion i t f64_one []).

Theorem recognitions_cover_regions_witness :
  assemble_recognitions [recognized 1 "b"; recognized 0 "a"] 2 = Ok [recognized 0 "a"; recognized 1 "b"].
Proof.
  apply (recognitions_cover_regions [recognized 1 "b"; recognized 0 "a"] 2); [lia|].
  split; [apply perm_swap|reflexivity].
Defined.

Theorem page_shows_regions_witness :
  ∃ p, build_page_observations (λ _, f64_one) (λ _, f64_zero) (mkPageNumber 1) 100 200 sample_regions
         [recognized 1 "b"; recognized 0 "a"] (mkTransformChain [TransformStep.Rotation Clockwise180]) Line = Ok p
    ∧ length (observations p) = 2%nat.
Proof.
  destruct (build_page_observations (λ _, f64_one) (λ _, f64_zero) (mkPageNumber 1) 100 200 sample_regions
    [recognized 1 "b"; recognized 0 "a"] (mkTransformChain [TransformStep.Rotation Clockwise180]) Line)
    as [p|e] eqn:Hp; [|exfalso; revert Hp; vm_compute; discriminate].
  exists p. split; [reflexivity|].
  destruct (page_shows_regions _ _ _ _ _ _ _ _ _ _ Hp) as (_ & _ & _ & batch & entries & _ & _ & _ & _ & Hlen & _).
  exact Hlen.
Defined.
