(* ===== verification/Sandbox.v ===== *)
(** * Sandbox: the disposable document parser

    Models [ocr-parser-sandbox/src/lib.rs], [native_text.rs] and [main.rs]: the limits of
    an inspection, the inspection of PDF documents and images, the check of PNG metadata,
    the enlargement of small images, the native text of PDF documents, and the program's
    command line and exit codes.  The PDF, image, TIFF, XML and inflate libraries and the
    text extraction process are arguments: a PDF object is what the library's accessors
    make of it. *)

From Stdlib Require Import SpecFloat.
From S2P Require Import Prelude Text Float64 DomainTypes Identifiers Geometry.
From S2P Require Import PageWorkflow.
From S2P Require Import Document StoreTypes StoreChecks ParserProcess Malware.

#[local] Open Scope list_scope.
#[local] Open Scope Z_scope.

Definition MAXIMUM_ENCODED_BYTES : Z := 100 * 1024 * 1024.
Definition HARD_MAXIMUM_PAGES : Z := MAXIMUM_PAGE_COUNT.
Definition HARD_MAXIMUM_PAGE_PIXELS : Z := 100000000.
Definition HARD_MAXIMUM_TOTAL_PIXELS : Z := MAXIMUM_TOTAL_PAGE_PIXELS.
Definition HARD_MAXIMUM_DECODED_STREAM_BYTES : Z := 64 * 1024 * 1024.
Definition MAXIMUM_DECOMPRESSION_RATIO : Z := 200.
Definition MAXIMUM_PDF_OBJECTS : Z := 500000.
Definition MAXIMUM_PAGE_TREE_DEPTH : nat := 64.
Definition MAXIMUM_PNG_METADATA_BYTES : Z := 1024 * 1024.
Definition RENDER_DPI : f64 := f64_of_Z 300.
Definition PDF_POINTS_PER_INCH : f64 := f64_of_Z 72.

Module SandboxError.
Inductive Error :=
| NativeTextUnavailable | NativeTextLimitExceeded | InvalidLimits | UnsupportedContentType
| InvalidDocument | PasswordProtected
| EncodedByteLimitExceeded (bytes limit : Z)
| PageLimitExceeded (pages limit : Z)
| PixelLimitExceeded (pixels limit : Z)
| ObjectLimitExceeded (objects limit : Z)
| DecodedStreamLimitExceeded (limit : Z)
| DecompressionRatioExceeded (compressed decompressed limit : Z).
End SandboxError.

Notation SandboxResult := (result SandboxError.Error).
#[local] Notation invalid := SandboxError.InvalidDocument.

(** ** Limits and reports *)

Record DocumentLimits := mkDocumentLimits {
  limit_pages : Z;
  limit_page_pixels : Z;
  limit_total_pixels : Z;
  limit_decoded_stream_bytes : Z;
}.

Definition DocumentLimits_new (maximum_pages maximum_page_pixels maximum_total_pixels : Z)
    : SandboxResult DocumentLimits :=
  if (maximum_pages =? 0) || (HARD_MAXIMUM_PAGES <? maximum_pages) || (maximum_page_pixels =? 0)
     || (HARD_MAXIMUM_PAGE_PIXELS <? maximum_page_pixels) || (maximum_total_pixels <? maximum_page_pixels)
     || (HARD_MAXIMUM_TOTAL_PIXELS <? maximum_total_pixels)
  then Err SandboxError.InvalidLimits
  else Ok (mkDocumentLimits maximum_pages maximum_page_pixels maximum_total_pixels
             HARD_MAXIMUM_DECODED_STREAM_BYTES).

Definition with_maximum_decoded_stream_bytes (self : DocumentLimits) (maximum_bytes : Z)
    : SandboxResult DocumentLimits :=
  if (maximum_bytes =? 0) || (HARD_MAXIMUM_DECODED_STREAM_BYTES <? maximum_bytes)
  then Err SandboxError.InvalidLimits
  else Ok (mkDocumentLimits (limit_pages self) (limit_page_pixels self) (limit_total_pixels self)
             maximum_bytes).

Record InspectionReport := mkInspectionReport {
  inspected_page_count : Z;
  inspected_maximum_pixels : Z;
  inspected_total_pixels : Z;
  inspected_pages : list PageGeometry;
  inspected_password_protected : bool;
}.

(** ** PDF *)

Definition ObjectId : Type := (Z * Z)%type.

Inductive PdfError := MemoryLimitExceeded | OtherPdfError.

(** A stream: its filters, if they can be read, the length of its content, and the
    length of what it decompresses to within a limit. *)
Record PdfStream := mkPdfStream {
  stream_filters : option (list string);
  stream_content_length : Z;
  decompressed_content_with_limit : Z → result PdfError Z;
}.

Section Pdf.
Context {PdfObject : Type}.
Context (as_array : PdfObject → option (list PdfObject)).
Context (as_float : PdfObject → option f64).
Context (as_reference : PdfObject → option ObjectId).
Context (as_stream : PdfObject → option PdfStream).

Record PdfDocument := mkPdfDocument {
  has_encrypt : bool;
  pdf_objects : list PdfObject;
  get_pages : list (Z * ObjectId);
  get_dictionary : ObjectId → option (string → option PdfObject);
}.

(** The loop of [inherited_optional_value]: [depth] dictionaries may still be read. *)
Fixpoint inherited_from (document : PdfDocument) (depth : nat) (visited : gset ObjectId)
    (current : ObjectId) (key : string) : SandboxResult (option PdfObject) :=
  match depth with
  | O => Err invalid
  | S depth =>
      if bool_decide (current ∈ visited) then Err invalid
      else
        let? dictionary := ok_or (get_dictionary document current) invalid in
        match dictionary key with
        | Some value => Ok (Some value)
        | None =>
            match dictionary "Parent" with
            | None => Ok None
            | Some parent =>
                let? parent := ok_or (as_reference parent) invalid in
                inherited_from document depth ({[current]} ∪ visited) parent key
            end
        end
  end.

Definition inherited_optional_value (document : PdfDocument) (page_id : ObjectId) (key : string)
    : SandboxResult (option PdfObject) :=
  inherited_from document MAXIMUM_PAGE_TREE_DEPTH ∅ page_id key.

Definition inherited_value (document : PdfDocument) (page_id : ObjectId) (key : string)
    : SandboxResult PdfObject :=
  let? value := inherited_optional_value document page_id key in ok_or value invalid.

Definition inherited_optional_number (document : PdfDocument) (page_id : ObjectId) (key : string)
    : SandboxResult (option f64) :=
  let? value := inherited_optional_value document page_id key in
  match value with
  | Some value => let? number := ok_or (as_float value) invalid in Ok (Some number)
  | None => Ok None
  end.

(** [(coordinates[2] - coordinates[0]).abs() * user_unit] and its fellow. *)
Definition page_points (coordinates : list f64) (user_unit : f64) : f64 * f64 :=
  let at_ i := default f64_zero (coordinates !! i) in
  (f64_mul (f64_abs (f64_sub (at_ 2%nat) (at_ 0%nat))) user_unit,
   f64_mul (f64_abs (f64_sub (at_ 3%nat) (at_ 1%nat))) user_unit).

Definition rendered_pixels (points : f64) : f64 :=
  f64_ceil (f64_div (f64_mul points RENDER_DPI) PDF_POINTS_PER_INCH).

Definition page_geometry (document : PdfDocument) (page_id : ObjectId) (page : Z)
    : SandboxResult PageGeometry :=
  let? media_box := inherited_value document page_id "MediaBox" in
  let? media_box := ok_or (as_array media_box) invalid in
  if negb (zlen media_box =? 4) then Err invalid
  else
    let? coordinates := collect_results (λ value, ok_or (as_float value) invalid) media_box in
    let? user_unit := inherited_optional_number document page_id "UserUnit" in
    let '(width_points, height_points) := page_points coordinates (default f64_one user_unit) in
    if negb (is_finite width_points) || negb (is_finite height_points)
       || f64_le width_points f64_zero || f64_le height_points f64_zero
    then Err invalid
    else
      let width_pixels := rendered_pixels width_points in
      let height_pixels := rendered_pixels height_points in
      if f64_lt (f64_of_Z u32_max) width_pixels || f64_lt (f64_of_Z u32_max) height_pixels
      then Err (SandboxError.PixelLimitExceeded u64_max u64_max)
      else
        let? rotation := inherited_optional_number document page_id "Rotate" in
        let rotation := default f64_zero rotation in
        if negb (is_finite rotation) || negb (f64_eq (rem_euclid rotation 90) f64_zero)
        then Err invalid
        else
          let width := as_unsigned u32_max width_pixels in
          let height := as_unsigned u32_max height_pixels in
          let '(width, height) :=
            if f64_eq (rem_euclid rotation 180) (f64_of_Z 90) then (height, width)
            else (width, height) in
          let? pixels :=
            ok_or (checked_mul u64_max width height)
              (SandboxError.PixelLimitExceeded u64_max HARD_MAXIMUM_PAGE_PIXELS) in
          if HARD_MAXIMUM_PAGE_PIXELS <? pixels
          then Err (SandboxError.PixelLimitExceeded pixels HARD_MAXIMUM_PAGE_PIXELS)
          else
            map_err (let? number := PageNumber_new page in PageGeometry_new number width height)
              (λ _, invalid).

Definition stream_error (maximum_decoded_bytes : Z) (error : PdfError) : SandboxError.Error :=
  match error with
  | MemoryLimitExceeded => SandboxError.DecodedStreamLimitExceeded maximum_decoded_bytes
  | OtherPdfError => invalid
  end.

Definition is_decodable (filter : string) : bool :=
  existsb (String.eqb filter) ["FlateDecode"; "LZWDecode"; "ASCII85Decode"].

Definition validate_stream (maximum_decoded_bytes : Z) (stream : PdfStream) : SandboxResult () :=
  match stream_filters stream with
  | None =>
      if maximum_decoded_bytes <? stream_content_length stream
      then Err (SandboxError.DecodedStreamLimitExceeded maximum_decoded_bytes) else Ok ()
  | Some filters =>
      if existsb (λ filter, negb (is_decodable filter)) filters then Ok ()
      else
        let? decompressed :=
          map_err (decompressed_content_with_limit stream maximum_decoded_bytes)
            (stream_error maximum_decoded_bytes) in
        if negb (stream_content_length stream =? 0)
           && (Z.min (stream_content_length stream * MAXIMUM_DECOMPRESSION_RATIO) usize_max
               <? decompressed)
        then Err (SandboxError.DecompressionRatioExceeded (stream_content_length stream) decompressed
                    MAXIMUM_DECOMPRESSION_RATIO)
        else Ok ()
  end.

Fixpoint validate_pdf_streams (maximum_decoded_bytes : Z) (objects : list PdfObject) : SandboxResult () :=
  match objects with
  | [] => Ok ()
  | object :: objects =>
      let? _ :=
        match as_stream object with
        | Some stream => validate_stream maximum_decoded_bytes stream
        | None => Ok ()
        end in
      validate_pdf_streams maximum_decoded_bytes objects
  end.

(** The loop over the pages, with the maximum, the total and the geometries so far. *)
Fixpoint inspect_pages (limits : DocumentLimits) (document : PdfDocument) (maximum total : Z)
    (geometries : list PageGeometry) (pages : list (Z * ObjectId))
    : SandboxResult (Z * Z * list PageGeometry) :=
  match pages with
  | [] => Ok (maximum, total, geometries)
  | (page, page_id) :: pages =>
      let? geometry := page_geometry document page_id page in
      let pixels := PageGeometry_pixels geometry in
      if limit_page_pixels limits <? pixels
      then Err (SandboxError.PixelLimitExceeded pixels (limit_page_pixels limits))
      else
        let? total :=
          ok_or (checked_add u64_max total pixels)
            (SandboxError.PixelLimitExceeded u64_max (limit_total_pixels limits)) in
        if limit_total_pixels limits <? total
        then Err (SandboxError.PixelLimitExceeded total (limit_total_pixels limits))
        else
          inspect_pages limits document (Z.max maximum pixels) total (geometries ++ [geometry]) pages
  end.

Definition report_of (maximum total : Z) (geometries : list PageGeometry) : InspectionReport :=
  mkInspectionReport (zlen geometries) maximum total geometries false.

(** [load_mem] is [Document::load_mem_with_options] with its limit. *)
Definition inspect_pdf (load_mem : list Z → Z → result PdfError PdfDocument)
    (encoded : list Z) (limits : DocumentLimits) : SandboxResult InspectionReport :=
  if negb (starts_with [37; 80; 68; 70; 45] encoded) then Err invalid
  else
    let maximum_bytes := limit_decoded_stream_bytes limits in
    let? document := map_err (load_mem encoded maximum_bytes) (stream_error maximum_bytes) in
    if has_encrypt document then Err SandboxError.PasswordProtected
    else if MAXIMUM_PDF_OBJECTS <? zlen (pdf_objects document)
    then Err (SandboxError.ObjectLimitExceeded (zlen (pdf_objects document)) MAXIMUM_PDF_OBJECTS)
    else
      let? _ := validate_pdf_streams maximum_bytes (pdf_objects document) in
      let pages := get_pages document in
      if zlen pages =? 0 then Err invalid
      else if limit_pages limits <? zlen pages
      then Err (SandboxError.PageLimitExceeded (zlen pages) (limit_pages limits))
      else
        let? out := inspect_pages limits document 0 0 [] pages in
        let '(maximum, total, geometries) := out in
        Ok (report_of maximum total geometries).
End Pdf.
Arguments PdfDocument : clear implicits.

(** ** PNG metadata *)

Definition png_text_field (data : list Z) : SandboxResult (list Z) :=
  match list_find (λ byte, byte = 0) data with
  | Some (end_, _) => Ok (drop (S end_) data)
  | None => Err invalid
  end.

Definition kind_is (kind : list Z) (name : string) : bool := bool_decide (kind = Digest.string_bytes name).

(** The part of a chunk that is compressed, if any. *)
Definition compressed_part (kind data : list Z) : SandboxResult (option (list Z)) :=
  if kind_is kind "iCCP" || kind_is kind "zTXt" then
    let? value := png_text_field data in
    match value with
    | 0 :: compressed => Ok (Some compressed)
    | _ => Err invalid
    end
  else if kind_is kind "iTXt" then
    let? value := png_text_field data in
    match value with
    | compressed :: method :: rest =>
        if (1 <? compressed) || negb (method =? 0) then Err invalid
        else
          let? language := png_text_field rest in
          let? text := png_text_field language in
          Ok (if compressed =? 1 then Some text else None)
    | _ => Err invalid
    end
  else Ok None.

Definition is_ancillary (kind : list Z) : bool :=
  match kind with
  | first :: _ => contains 97 122 first && negb (kind_is kind "fdAT")
  | [] => false
  end.

Section Png.
(** [fdeflate::decompress_to_vec_bounded]. *)
Context (inflate : list Z → Z → option (list Z)).

(** What a chunk leaves of the budget for metadata. *)
Definition spend_chunk (remaining : Z) (kind data : list Z) : SandboxResult Z :=
  let? remaining :=
    if is_ancillary kind then ok_or (checked_sub usize_max remaining (zlen data)) invalid
    else Ok remaining in
  let? compressed := compressed_part kind data in
  match compressed with
  | Some compressed =>
      let? decoded := ok_or (inflate compressed remaining) invalid in
      ok_or (checked_sub usize_max remaining (zlen decoded)) invalid
  | None => Ok remaining
  end.

(** [chunks.get(..8)], the length and kind of a chunk, its data, and what follows it. *)
Definition next_chunk (chunks : list Z) : SandboxResult (list Z * list Z * list Z) :=
  if zlen chunks <? 8 then Err invalid
  else
    let length := fold_left (λ acc b, acc * 256 + b) (take 4 chunks) 0 in
    let? end_ := ok_or (checked_add usize_max length 12) invalid in
    if zlen chunks <? end_ then Err invalid
    else
      let kind := take 4 (drop 4 chunks) in
      let data := take (Z.to_nat length) (drop 8 chunks) in
      Ok (kind, data, drop (Z.to_nat end_) chunks).

(** The loop; [None] when the fuel runs out.  A chunk takes at least twelve bytes. *)
Fixpoint validate_chunks (fuel : nat) (remaining : Z) (chunks : list Z) : option (SandboxResult ()) :=
  match fuel, chunks with
  | _, [] => Some (Err invalid)
  | O, _ => None
  | S fuel, _ =>
      match next_chunk chunks with
      | Err e => Some (Err e)
      | Ok (kind, data, rest) =>
          match spend_chunk remaining kind data with
          | Err e => Some (Err e)
          | Ok remaining =>
              if kind_is kind "IEND" then Some (Ok ()) else validate_chunks fuel remaining rest
          end
      end
  end.

Definition validate_png_metadata (encoded : list Z) : SandboxResult () :=
  if zlen encoded <? 8 then Err invalid
  else
    let chunks := drop 8 encoded in
    default (Err invalid) (validate_chunks (length chunks) MAXIMUM_PNG_METADATA_BYTES chunks).
End Png.

(** ** Images *)

Inductive ImageFormat := Jpeg | Png | WebP.

#[export] Instance ImageFormat_eq_dec : EqDecision ImageFormat.
Proof. solve_decision. Defined.

(** What the image library is asked of encoded bytes: the format it guesses, the
    dimensions, whether the whole image decodes within the limits for these dimensions;
    for the preparation whether it moves, whether its orientation is the usual one, and
    the PNG of the image enlarged to a size. *)
Record ImageLibrary := mkImageLibrary {
  guessed_format : list Z → option ImageFormat;
  into_dimensions : ImageFormat → list Z → option (Z * Z);
  decodes : ImageFormat → list Z → Z → Z → bool;
  is_animated : ImageFormat → list Z → option bool;
  is_upright : ImageFormat → list Z → option bool;
  enlarged_png : ImageFormat → list Z → Z → Z → option (list Z);
}.

(** The decoder of the TIFF library, at a frame. *)
Inductive TiffError := LimitsExceeded | OtherTiffError.

Record TiffLibrary := mkTiffLibrary {
  Decoder : Type;
  decoder_new : list Z → option Decoder;
  tiff_dimensions : Decoder → option (Z * Z);
  read_image : Decoder → result TiffError Decoder;
  more_images : Decoder → bool;
  next_image : Decoder → option Decoder;
}.

Section Images.
Context (images : ImageLibrary) (tiff : TiffLibrary).
Context (inflate : list Z → Z → option (list Z)).

Definition one_page_geometry (number width height : Z) : SandboxResult PageGeometry :=
  map_err (let? number := PageNumber_new number in PageGeometry_new number width height) (λ _, invalid).

Definition inspect_image (encoded : list Z) (expected_format : ImageFormat) (limits : DocumentLimits)
    : SandboxResult InspectionReport :=
  if negb (bool_decide (guessed_format images encoded = Some expected_format)) then Err invalid
  else
    let? _ := if bool_decide (expected_format = Png) then validate_png_metadata inflate encoded else Ok () in
    let? size := ok_or (into_dimensions images expected_format encoded) invalid in
    let '(width, height) := size in
    let? pixels :=
      ok_or (checked_mul u64_max width height)
        (SandboxError.PixelLimitExceeded u64_max (limit_page_pixels limits)) in
    if pixels =? 0 then Err invalid
    else if limit_page_pixels limits <? pixels
    then Err (SandboxError.PixelLimitExceeded pixels (limit_page_pixels limits))
    else if negb (decodes images expected_format encoded width height) then Err invalid
    else
      let? geometry := one_page_geometry 1 width height in
      Ok (mkInspectionReport 1 pixels pixels [geometry] false).

(** The loop of [inspect_tiff]: [room] more pages are allowed. *)
Fixpoint inspect_frames (limits : DocumentLimits) (room : nat) (pages : list PageGeometry)
    (total maximum : Z) (decoder : Decoder tiff) : SandboxResult InspectionReport :=
  match room with
  | O => Err (SandboxError.PageLimitExceeded (zlen pages + 1) (limit_pages limits))
  | S room =>
      let? size := ok_or (tiff_dimensions tiff decoder) invalid in
      let '(width, height) := size in
      let too_large := SandboxError.PixelLimitExceeded u64_max (limit_total_pixels limits) in
      let? pixels := ok_or (checked_mul u64_max width height) too_large in
      if negb ((0 <? pixels) && (pixels <=? limit_page_pixels limits)) then Err too_large
      else
        let? total := ok_or (checked_add u64_max total pixels) too_large in
        if negb (total <=? limit_total_pixels limits) then Err too_large
        else
          let maximum := Z.max maximum pixels in
          let? decoder :=
            map_err (read_image tiff decoder)
              (λ error, match error with
                        | LimitsExceeded =>
                            SandboxError.PixelLimitExceeded pixels (limit_page_pixels limits)
                        | OtherTiffError => invalid
                        end) in
          let? geometry := one_page_geometry (zlen pages mod 2 ^ 32 + 1) width height in
          let pages := pages ++ [geometry] in
          if negb (more_images tiff decoder) then Ok (report_of maximum total pages)
          else
            let? decoder := ok_or (next_image tiff decoder) invalid in
            inspect_frames limits room pages total maximum decoder
  end.

Definition inspect_tiff (encoded : list Z) (limits : DocumentLimits) : SandboxResult InspectionReport :=
  let? decoder := ok_or (decoder_new tiff encoded) invalid in
  inspect_frames limits (Z.to_nat (limit_pages limits)) [] 0 0 decoder.

Definition prepare_ocr_image (encoded : list Z) (content_type : string)
    : SandboxResult (option (list Z)) :=
  if negb (existsb (String.eqb content_type) ["image/png"; "image/jpeg"; "image/webp"]) then Ok None
  else if 20 * 1024 * 1024 <? zlen encoded then Err invalid
  else
    let format :=
      if String.eqb content_type "image/png" then Png
      else if String.eqb content_type "image/jpeg" then Jpeg else WebP in
    let? size := ok_or (into_dimensions images format encoded) invalid in
    let '(width, height) := size in
    if (Z.min width height <? 64) || (640 <? Z.max width height) then Ok None
    else
      let? animated :=
        match format with
        | Jpeg => Ok false
        | _ => ok_or (is_animated images format encoded) invalid
        end in
      if animated then Ok None
      else
        let? upright := ok_or (is_upright images format encoded) invalid in
        if negb upright then Ok None
        else
          let? output := ok_or (enlarged_png images format encoded (width * 3) (height * 3)) invalid in
          Ok (Some output).

Context {PdfObject : Type}.
Context (as_array : PdfObject → option (list PdfObject)).
Context (as_float : PdfObject → option f64).
Context (as_reference : PdfObject → option ObjectId).
Context (as_stream : PdfObject → option PdfStream).
Context (load_mem : list Z → Z → result PdfError (PdfDocument PdfObject)).

Definition inspect_document (encoded : list Z) (content_type : string) (limits : DocumentLimits)
    : SandboxResult InspectionReport :=
  if zlen encoded =? 0 then Err invalid
  else if MAXIMUM_ENCODED_BYTES <? zlen encoded
  then Err (SandboxError.EncodedByteLimitExceeded (zlen encoded) MAXIMUM_ENCODED_BYTES)
  else if String.eqb content_type "application/pdf"
  then inspect_pdf as_array as_float as_reference as_stream load_mem encoded limits
  else if String.eqb content_type "image/jpeg" then inspect_image encoded Jpeg limits
  else if String.eqb content_type "image/png" then inspect_image encoded Png limits
  else if String.eqb content_type "image/tiff" then inspect_tiff encoded limits
  else if String.eqb content_type "image/webp" then inspect_image encoded WebP limits
  else Err SandboxError.UnsupportedContentType.

(** ** Native text *)

Definition MAXIMUM_XML_BYTES : Z := MAXIMUM_DOCUMENT_RESULT_BYTES * 2.

(** [Line], with the texts of its words; [PdfPage], with the lines of its blocks. *)
Record XmlLine := mkXmlLine {
  line_left : f64;
  line_top : f64;
  line_right : f64;
  line_bottom : f64;
  words : list string;
}.
Record XmlPage := mkXmlPage {
  layout_width : f64;
  layout_height : f64;
  flows : list (list (list XmlLine));
}.

(** What becomes of the text extraction process: it cannot be started, it writes too
    much or cannot be read, its input cannot be written or it fails, or its output. *)
Inductive LayoutEnd :=
| LayoutNotStarted
| LayoutUnreadable
| LayoutWaitFailed
| LayoutExited (input_written : bool) (success : bool) (output : list Z).

Context (spawn_layout : string → list Z → LayoutEnd).
(** [quick_xml::de::from_reader]. *)
Context (parse_html : list Z → option (list XmlPage)).

Definition pdf_layout (encoded : list Z) (executable : string) : SandboxResult (list Z) :=
  match spawn_layout executable encoded with
  | LayoutNotStarted | LayoutWaitFailed => Err SandboxError.NativeTextUnavailable
  | LayoutUnreadable => Err SandboxError.NativeTextLimitExceeded
  | LayoutExited input_written success output =>
      if MAXIMUM_XML_BYTES <? zlen output then Err SandboxError.NativeTextLimitExceeded
      else if negb input_written || negb success then Err invalid
      else Ok output
  end.

(** [char::is_control]. *)
Definition is_control (c : Z) : bool := contains 0 31 c || contains 127 159 c.

Fixpoint join_words (words : list string) : string :=
  match words with
  | [] => ""
  | [word] => word
  | word :: words => word +:+ " " +:+ join_words words
  end.

Definition unreadable (c : Z) : bool := (c =? 65533) || (is_control c && negb (is_whitespace c)).

Definition native_observation_id (page order : Z) : string :=
  "obs_native_p" +:+ show_dec page +:+ "_line" +:+ show_dec order.

(** The display size of a page's layout. *)
Definition layout_size (page : XmlPage) (geometry : PageGeometry) : f64 * f64 :=
  let width := layout_width page in
  let height := layout_height page in
  if negb (geometry_width geometry =? geometry_height geometry)
     && negb (Bool.eqb (geometry_height geometry <? geometry_width geometry) (f64_lt height width))
  then (height, width) else (width, height).

(** The observation of a line at the next place in reading order. *)
Definition native_observation (geometry : PageGeometry) (text : string) (left top right bottom : f64)
    (order : Z) : SandboxResult TextObservation :=
  let? points :=
    map_err (collect_results (λ '(x, y), NormalizedPoint_new x y)
               [(left, top); (right, top); (right, bottom); (left, bottom)]) (λ _, invalid) in
  let? polygon := map_err (Polygon_new points) (λ _, invalid) in
  let? order := ok_or (checked u32_max order) SandboxError.NativeTextLimitExceeded in
  let? id :=
    map_err (ObservationId_try_from
               (native_observation_id (PageNumber_value (geometry_page geometry)) order))
      (λ _, invalid) in
  let? confidence := map_err (Confidence_new f64_one) (λ _, invalid) in
  map_err (TextObservation_new id Line text confidence polygon order None) (λ _, invalid).

(** The loop over the lines of a page: [None] when its text is not usable. *)
Fixpoint native_lines (geometry : PageGeometry) (size : f64 * f64) (observations : list TextObservation)
    (lines : list XmlLine) : SandboxResult (option (list TextObservation)) :=
  match lines with
  | [] => Ok (Some observations)
  | line :: lines =>
      let text := join_words (words line) in
      if trim_is_empty text then native_lines geometry size observations lines
      else if (65536 <? strlen text) || existsb unreadable (chars text) then Ok None
      else
        let coordinates :=
          [f64_div (line_left line) size.1; f64_div (line_top line) size.2;
           f64_div (line_right line) size.1; f64_div (line_bottom line) size.2] in
        if existsb (λ value, negb (is_finite value)) coordinates then Err invalid
        else
          let clamped i := f64_clamp f64_zero f64_one (default f64_zero (coordinates !! i)) in
          let left := clamped 0%nat in
          let top := clamped 1%nat in
          let right := clamped 2%nat in
          let bottom := clamped 3%nat in
          if f64_le right left || f64_le bottom top then native_lines geometry size observations lines
          else
            let? observed :=
              native_observation geometry text left top right bottom (zlen observations) in
            native_lines geometry size (observations ++ [observed]) lines
  end.

Definition native_page (entry : XmlPage * PageGeometry) : SandboxResult DocumentPage :=
  let '(page, geometry) := entry in
  if negb (is_finite (layout_width page)) || negb (is_finite (layout_height page))
     || f64_le (layout_width page) f64_zero || f64_le (layout_height page) f64_zero
  then Err invalid
  else
    let lines := concat (concat (flows page)) in
    let? observations := native_lines geometry (layout_size page geometry) [] lines in
    map_err (DocumentPage_new (geometry_page geometry) (geometry_width geometry)
               (geometry_height geometry) (default [] observations)) (λ _, invalid).

Definition empty_page (geometry : PageGeometry) : SandboxResult DocumentPage :=
  map_err (DocumentPage_new (geometry_page geometry) (geometry_width geometry)
             (geometry_height geometry) []) (λ _, invalid).

Definition extract_native_document (encoded : list Z) (content_type : string) (limits : DocumentLimits)
    (executable : string) : SandboxResult (list DocumentPage) :=
  let? report := inspect_document encoded content_type limits in
  if negb (String.eqb content_type "application/pdf")
  then collect_results empty_page (inspected_pages report)
  else if negb (is_absolute executable) then Err SandboxError.NativeTextUnavailable
  else
    let? xml := pdf_layout encoded executable in
    let? pages := ok_or (parse_html xml) invalid in
    if negb (zlen pages =? inspected_page_count report) then Err invalid
    else collect_results native_page (zip pages (inspected_pages report)).

(** ** The program *)

(** An exit code and what was written to the standard output. *)
Definition ExitCode : Type := (Z * list Z)%type.

Definition error_exit (error : SandboxError.Error) : Z :=
  match error with
  | SandboxError.NativeTextUnavailable => 13
  | SandboxError.UnsupportedContentType | SandboxError.InvalidDocument => 10
  | SandboxError.PasswordProtected => 12
  | _ => 11
  end.

(** The variables of [configuration]. *)
Record Options := mkOptions {
  option_content_type : option string;
  option_pages : option Z;
  option_page_pixels : option Z;
  option_total_pixels : option Z;
  option_executable : option string;
}.

(** One pair of arguments; [None] returns.  A flag whose number does not parse leaves its
    variable empty. *)
Definition read_option (options : Options) (key value : string) : option Options :=
  if String.eqb key "--content-type" && negb (bool_decide (is_Some (option_content_type options)))
  then Some (mkOptions (Some value) (option_pages options) (option_page_pixels options)
               (option_total_pixels options) (option_executable options))
  else if String.eqb key "--max-pages" && negb (bool_decide (is_Some (option_pages options)))
  then Some (mkOptions (option_content_type options) (parse_unsigned usize_max value)
               (option_page_pixels options) (option_total_pixels options) (option_executable options))
  else if String.eqb key "--max-page-pixels" && negb (bool_decide (is_Some (option_page_pixels options)))
  then Some (mkOptions (option_content_type options) (option_pages options)
               (parse_unsigned u64_max value) (option_total_pixels options) (option_executable options))
  else if String.eqb key "--max-total-pixels" && negb (bool_decide (is_Some (option_total_pixels options)))
  then Some (mkOptions (option_content_type options) (option_pages options)
               (option_page_pixels options) (parse_unsigned u64_max value) (option_executable options))
  else if String.eqb key "--pdf-text-executable" && negb (bool_decide (is_Some (option_executable options)))
  then if negb (is_absolute value) then None
       else Some (mkOptions (option_content_type options) (option_pages options)
                    (option_page_pixels options) (option_total_pixels options) (Some value))
  else None.

Fixpoint read_options (options : Options) (arguments : list (option string)) : option Options :=
  match arguments with
  | key :: value :: arguments =>
      key ← key;
      value ← value;
      options ← read_option options key value;
      read_options options arguments
  | _ => Some options
  end.

(** An argument that is not Unicode is [None]. *)
Definition configuration (arguments : list (option string)) : option (string * DocumentLimits * string) :=
  if negb ((zlen arguments =? 8) || (zlen arguments =? 10)) then None
  else
    options ← read_options (mkOptions None None None None None) arguments;
    pages ← option_pages options;
    page_pixels ← option_page_pixels options;
    total_pixels ← option_total_pixels options;
    limits ← result_ok (DocumentLimits_new pages page_pixels total_pixels);
    content_type ← option_content_type options;
    Some (content_type, limits, default "/usr/bin/pdftotext" (option_executable options)).

(** [serde_json::to_vec] of the pages and of a report. *)
Context (pages_to_vec : list DocumentPage → option (list Z)).
Context (report_to_vec : InspectionReport → list Z).

Definition native_exit (result : SandboxResult (list DocumentPage)) : ExitCode :=
  match result with
  | Ok pages =>
      match pages_to_vec pages with
      | Some bytes => if zlen bytes <=? MAXIMUM_DOCUMENT_RESULT_BYTES then (0, bytes) else (11, [])
      | None => (13, [])
      end
  | Err error => (error_exit error, [])
  end.

Definition prepare_exit (result : SandboxResult (option (list Z))) : ExitCode :=
  match result with
  | Ok (Some bytes) => (0, bytes)
  | Ok None => (0, [])
  | Err _ => (10, [])
  end.

Definition inspect_exit (result : SandboxResult InspectionReport) : ExitCode :=
  match result with
  | Ok report => (0, report_to_vec report)
  | Err error => (error_exit error, [])
  end.

(** [main] on its arguments and its standard input, whose pipes work. *)
Definition main (arguments : list (option string)) (input : list Z) : ExitCode :=
  let prepare := bool_decide (head arguments = Some (Some "prepare-ocr")) in
  let native := bool_decide (head arguments = Some (Some "extract-native")) in
  let arguments := if prepare || native then tail arguments else arguments in
  match configuration arguments with
  | None => (2, [])
  | Some (content_type, limits, pdf_text_executable) =>
      let encoded := take (Z.to_nat (MAXIMUM_ENCODED_BYTES + 1)) input in
      if native then
        native_exit (extract_native_document encoded content_type limits pdf_text_executable)
      else if prepare then prepare_exit (prepare_ocr_image encoded content_type)
      else inspect_exit (inspect_document encoded content_type limits)
  end.
End Images.
