(* ===== verification/SandboxFacts.v ===== *)
(** * SandboxFacts: what the sandbox reports, and the process around it

    A report that [inspect_document] returns numbers its pages from 1, has the true
    maximum and total of their pixels, and is within the limits; PNG metadata never takes
    more than its budget and the loop over it ends; the process that [ParserProcess]
    starts gives it exactly what the sandbox finds. *)

From S2P Require Import Prelude Text Float64 DomainTypes Identifiers Geometry.
From S2P Require Import PageWorkflow.
From S2P Require Import Document StoreTypes StoreChecks StoreRun StoreUploadsFacts ParserProcess.
From S2P Require Import ParserProcessFacts Digest Malware Sandbox.

#[local] Open Scope list_scope.
#[local] Open Scope Z_scope.

(** ** Reports within limits *)

(** What the loops over pages have checked so far. *)
Record within (limits : DocumentLimits) (geometries : list PageGeometry) (maximum total : Z) : Prop := {
  within_valid : Forall geometry_valid geometries;
  within_numbered : numbered_from 0 geometries;
  within_maximum : maximum = max_area geometries;
  within_total : total = sum_areas geometries;
  within_page_limit : Forall (λ g, geometry_area g ≤ limit_page_pixels limits) geometries;
  within_total_limit : geometries = [] ∨ total ≤ limit_total_pixels limits;
}.

Lemma numbered_from_snoc index gs g :
  numbered_from index (gs ++ [g]) ↔
  numbered_from index gs ∧ PageNumber_value (geometry_page g) = index + zlen gs + 1.
Proof.
  revert index. induction gs as [|h gs IH]; intros index; simpl.
  - unfold zlen. simpl. naive_solver lia.
  - rewrite IH, zlen_cons. naive_solver lia.
Qed.

Lemma max_area_snoc gs g : max_area (gs ++ [g]) = Z.max (max_area gs) (geometry_area g).
Proof.
  induction gs as [|h gs IH]; simpl; [pose proof (Z.le_max_l 0 (geometry_area g)); lia|].
  unfold max_area in *. lia.
Qed.

Lemma sum_areas_snoc gs g : sum_areas (gs ++ [g]) = sum_areas gs + geometry_area g.
Proof. induction gs as [|h gs IH]; simpl; unfold sum_areas in *; lia. Qed.

Lemma within_nil limits : within limits [] 0 0.
Proof. by split; auto. Qed.

Lemma within_snoc limits gs m t g :
  within limits gs m t → geometry_valid g →
  PageNumber_value (geometry_page g) = zlen gs + 1 →
  geometry_area g ≤ limit_page_pixels limits → t + geometry_area g ≤ limit_total_pixels limits →
  within limits (gs ++ [g]) (Z.max m (geometry_area g)) (t + geometry_area g).
Proof.
  intros [Hv Hn -> -> Hp _] Hg Hnum Hpage Htotal. split.
  - by apply Forall_app_2, Forall_singleton.
  - apply numbered_from_snoc. split; [done|lia].
  - by rewrite max_area_snoc.
  - by rewrite sum_areas_snoc.
  - by apply Forall_app_2, Forall_singleton.
  - by right.
Qed.

(** The numbers of a report: those of the pages, within the limits. *)
Record sandbox_report_ok (limits : DocumentLimits) (r : InspectionReport) : Prop := {
  sandbox_within : within limits (inspected_pages r) (inspected_maximum_pixels r) (inspected_total_pixels r);
  sandbox_count : inspected_page_count r = zlen (inspected_pages r);
  sandbox_count_bounds : 1 ≤ inspected_page_count r ≤ limit_pages limits;
  sandbox_unprotected : inspected_password_protected r = false;
}.

(** The range that [DocumentLimits::new] lets through. *)
Record limits_ok (limits : DocumentLimits) : Prop := {
  limits_pages : limit_pages limits ≤ MAXIMUM_PAGE_COUNT;
  limits_page_pixels : limit_page_pixels limits ≤ 100000000;
  limits_total_pixels : limit_total_pixels limits ≤ MAXIMUM_TOTAL_PAGE_PIXELS;
}.

Lemma DocumentLimits_new_Ok pages page_pixels total limits :
  DocumentLimits_new pages page_pixels total = Ok limits →
  limits = mkDocumentLimits pages page_pixels total HARD_MAXIMUM_DECODED_STREAM_BYTES
  ∧ limits_ok limits ∧ pages ≠ 0 ∧ page_pixels ≠ 0 ∧ page_pixels ≤ total.
Proof.
  unfold DocumentLimits_new, HARD_MAXIMUM_PAGES, HARD_MAXIMUM_PAGE_PIXELS, HARD_MAXIMUM_TOTAL_PIXELS.
  destruct (_ || _) eqn:Hlim; [done|]. boolify. intros [= <-].
  destruct Hlim as (((((? & ?) & ?) & ?) & ?) & ?). by split_and!; [|split| | |].
Qed.

Lemma one_page_geometry_Ok number width height g :
  in_width u32_max width → in_width u32_max height →
  one_page_geometry number width height = Ok g →
  geometry_valid g ∧ PageNumber_value (geometry_page g) = number
  ∧ geometry_width g = width ∧ geometry_height g = height.
Proof.
  intros Hw Hh Hg. unfold one_page_geometry in Hg.
  apply map_err_Ok, and_then_Ok in Hg as (n & [-> Hn]%PageNumber_new_Ok & Hg).
  pose proof Hg as Hnew. apply PageGeometry_new_Ok in Hg as (-> & _); [|done..].
  split_and!; [|done..]. split; [|done]. by split_and!; [| |exists (mkPageNumber number), width, height].
Qed.

(** ** The three kinds of documents *)

Section Images.
Context (images : ImageLibrary) (tiff : TiffLibrary).
Context (inflate : list Z → Z → option (list Z)).

(** What the libraries document: image sizes are [u32]. *)
Hypothesis image_size : ∀ format encoded width height,
  into_dimensions images format encoded = Some (width, height) →
  in_width u32_max width ∧ in_width u32_max height.
Hypothesis tiff_size : ∀ decoder width height,
  tiff_dimensions tiff decoder = Some (width, height) →
  in_width u32_max width ∧ in_width u32_max height.

Lemma inspect_image_sound encoded format limits r :
  1 ≤ limit_pages limits → limit_page_pixels limits ≤ limit_total_pixels limits →
  inspect_image images inflate encoded format limits = Ok r → sandbox_report_ok limits r.
Proof.
  intros Hpages Htotal. unfold inspect_image.
  destruct (negb (bool_decide _)); [done|]. intros (u & _ & H)%and_then_Ok.
  apply and_then_Ok in H as ([width height] & [Hw Hh]%ok_or_Ok%image_size & H).
  apply and_then_Ok in H as (pixels & [-> _]%ok_or_Ok%checked_Some & H).
  destruct (_ =? 0); [done|]. destruct (Z.ltb_spec (limit_page_pixels limits) (width * height)); [done|].
  destruct (negb _); [done|]. apply and_then_Ok in H as (g & Hg & H).
  apply one_page_geometry_Ok in Hg as (Hv & Hn & Hgw & Hgh); [|done..]. injection H as <-.
  assert (Ha : geometry_area g = width * height) by (unfold geometry_area; by rewrite Hgw, Hgh).
  pose proof (proj2 (geometry_valid_pixels g Hv)) as Hb. rewrite Ha in Hb.
  pose proof (within_snoc limits [] 0 0 g (within_nil limits) Hv Hn) as Hin.
  rewrite Ha, Z.max_r, Z.add_0_l in Hin by lia.
  split; simpl; [apply Hin; lia|done|lia|done].
Qed.

Lemma inspect_frames_sound limits room pages total maximum decoder r :
  limit_pages limits ≤ MAXIMUM_PAGE_COUNT →
  limit_pages limits = zlen pages + Z.of_nat room →
  within limits pages maximum total →
  inspect_frames tiff limits room pages total maximum decoder = Ok r → sandbox_report_ok limits r.
Proof.
  intros Hmax. revert pages total maximum decoder.
  induction room as [|room IH]; intros pages total maximum decoder Hroom Hin; [done|].
  cbn [inspect_frames]. intros ([width height] & [Hw Hh]%ok_or_Ok%tiff_size & H)%and_then_Ok.
  apply and_then_Ok in H as (pixels & [-> _]%ok_or_Ok%checked_Some & H).
  destruct (_ && _) eqn:Hpixels; [|done]. boolify. simpl in H.
  apply and_then_Ok in H as (total' & [-> _]%ok_or_Ok%checked_Some & H).
  destruct (Z.leb_spec (total + width * height) (limit_total_pixels limits)) as [Htotal|]; [|done].
  simpl in H. apply and_then_Ok in H as (decoder' & _ & H).
  apply and_then_Ok in H as (g & Hg & H).
  pose proof (zlen_nonneg pages). unfold MAXIMUM_PAGE_COUNT in Hmax.
  rewrite Z.mod_small in Hg by lia.
  apply one_page_geometry_Ok in Hg as (Hv & Hn & Hgw & Hgh); [|done..].
  assert (Ha : geometry_area g = width * height) by (unfold geometry_area; by rewrite Hgw, Hgh).
  pose proof (within_snoc limits pages maximum total g Hin Hv Hn) as Hnext. rewrite Ha in Hnext.
  assert (Hlen : zlen (pages ++ [g]) = zlen pages + 1) by (rewrite zlen_app; done).
  destruct (more_images tiff decoder').
  - simpl in H. apply and_then_Ok in H as (next & _ & H).
    eapply IH; [|by apply Hnext; lia|exact H]. lia.
  - simpl in H. injection H as <-. split; simpl; [apply Hnext; lia|done|lia|done].
Qed.

Context {PdfObject : Type}.
Context (as_array : PdfObject → option (list PdfObject)).
Context (as_float : PdfObject → option f64).
Context (as_reference : PdfObject → option ObjectId).
Context (as_stream : PdfObject → option PdfStream).

Lemma page_geometry_Ok document page_id number g :
  page_geometry as_array as_float as_reference document page_id number = Ok g →
  geometry_valid g ∧ PageNumber_value (geometry_page g) = number.
Proof.
  unfold page_geometry. intros (media_box & _ & H)%and_then_Ok.
  apply and_then_Ok in H as (box & _ & H). destruct (negb _); [done|].
  apply and_then_Ok in H as (coordinates & _ & H). apply and_then_Ok in H as (unit & _ & H).
  destruct (page_points _ _) as [wp hp]. destruct (_ || _); [done|]. destruct (_ || _); [done|].
  apply and_then_Ok in H as (rotation & _ & H). destruct (_ || _); [done|].
  set (w := as_unsigned u32_max (rendered_pixels wp)) in H.
  set (h := as_unsigned u32_max (rendered_pixels hp)) in H.
  assert (Hw : in_width u32_max w) by (by apply as_unsigned_range).
  assert (Hh : in_width u32_max h) by (by apply as_unsigned_range).
  destruct (if f64_eq _ _ then _ else _) as [width height] eqn:Hturn.
  assert (in_width u32_max width ∧ in_width u32_max height) as [Hwidth Hheight].
  { destruct (f64_eq _ _); injection Hturn as <- <-; done. }
  apply and_then_Ok in H as (pixels & _ & H). destruct (_ <? _); [done|].
  apply one_page_geometry_Ok in H as (? & ? & _); done.
Qed.

Lemma inspect_pages_sound limits document pages maximum total gs m t gs' :
  within limits gs maximum total →
  fst <$> pages = seqZ (zlen gs + 1) (zlen pages) →
  inspect_pages as_array as_float as_reference limits document maximum total gs pages = Ok (m, t, gs') →
  within limits gs' m t ∧ zlen gs' = zlen gs + zlen pages.
Proof.
  revert maximum total gs. induction pages as [|[number id] pages IH]; intros maximum total gs Hin Hnum.
  { simpl. intros [= <- <- <-]. unfold zlen. simpl. split; [done|lia]. }
  pose proof (zlen_nonneg pages) as Hlen. rewrite zlen_cons in Hnum |- *.
  rewrite seqZ_cons in Hnum by lia. injection Hnum as Hn Hnum.
  cbn [inspect_pages]. intros (g & [Hv Hg]%page_geometry_Ok & H)%and_then_Ok. rewrite Hn in Hg.
  destruct (geometry_valid_pixels g Hv) as [Hp _]. rewrite Hp in H.
  destruct (Z.ltb_spec (limit_page_pixels limits) (geometry_area g)) as [|Hpage]; [done|].
  apply and_then_Ok in H as (total' & [-> _]%ok_or_Ok%checked_Some & H).
  destruct (Z.ltb_spec (limit_total_pixels limits) (total + geometry_area g)) as [|Htotal]; [done|].
  pose proof (within_snoc limits gs maximum total g Hin Hv Hg Hpage Htotal) as Hnext.
  assert (Hsnoc : zlen (gs ++ [g]) = zlen gs + 1) by (rewrite zlen_app; done).
  apply IH in H as [Hr Hl]; [split; [done|lia]|done|].
  rewrite Hsnoc. etrans; [exact Hnum|]. f_equal; lia.
Qed.
End Images.

(** ** Inspection *)

(** A configuration of the libraries, and what they document: image sizes are [u32] and
    the pages of a PDF document are numbered from 1. *)
Record Libraries := mkLibraries {
  library_images : ImageLibrary;
  library_tiff : TiffLibrary;
  library_inflate : list Z → Z → option (list Z);
  library_object : Type;
  library_as_array : library_object → option (list library_object);
  library_as_float : library_object → option f64;
  library_as_reference : library_object → option ObjectId;
  library_as_stream : library_object → option PdfStream;
  library_load_mem : list Z → Z → result PdfError (PdfDocument library_object);
}.

Record Libraries_ok (l : Libraries) : Prop := {
  libraries_image_size : ∀ format encoded width height,
    into_dimensions (library_images l) format encoded = Some (width, height) →
    in_width u32_max width ∧ in_width u32_max height;
  libraries_tiff_size : ∀ decoder width height,
    tiff_dimensions (library_tiff l) decoder = Some (width, height) →
    in_width u32_max width ∧ in_width u32_max height;
  libraries_page_numbers : ∀ encoded limit document,
    library_load_mem l encoded limit = Ok document →
    fst <$> get_pages document = seqZ 1 (zlen (get_pages document));
}.

(** [inspect_document] with these libraries. *)
Definition inspects (l : Libraries) : list Z → string → DocumentLimits → SandboxResult InspectionReport :=
  inspect_document (library_images l) (library_tiff l) (library_inflate l) (library_as_array l)
    (library_as_float l) (library_as_reference l) (library_as_stream l) (library_load_mem l).

Lemma inspect_pdf_sound l encoded limits r :
  Libraries_ok l →
  inspect_pdf (library_as_array l) (library_as_float l) (library_as_reference l) (library_as_stream l)
    (library_load_mem l) encoded limits = Ok r →
  sandbox_report_ok limits r.
Proof.
  intros Hl. unfold inspect_pdf. destruct (negb _); [done|].
  intros (document & Hload%map_err_Ok & H)%and_then_Ok.
  pose proof (libraries_page_numbers l Hl _ _ _ Hload) as Hnum.
  destruct (has_encrypt document); [done|]. destruct (_ <? _); [done|].
  apply and_then_Ok in H as (u & _ & H).
  destruct (Z.eqb_spec (zlen (get_pages document)) 0) as [|Hne]; [done|].
  destruct (Z.ltb_spec (limit_pages limits) (zlen (get_pages document))) as [|Hle]; [done|].
  apply and_then_Ok in H as ([[m t] gs] & H & Hr). injection Hr as <-.
  apply inspect_pages_sound in H as [Hin Hlen]; [|apply within_nil|done].
  pose proof (zlen_nonneg (get_pages document)). change (zlen (@nil PageGeometry)) with 0 in Hlen.
  split; simpl; [done|done|lia|done].
Qed.

Lemma inspect_document_sound l pages page_pixels total limits encoded content_type r :
  Libraries_ok l → 0 ≤ pages → DocumentLimits_new pages page_pixels total = Ok limits →
  inspects l encoded content_type limits = Ok r → sandbox_report_ok limits r.
Proof.
  intros Hl Hpos (-> & [Hpages Hpixels _] & Hp & _ & Hle)%DocumentLimits_new_Ok.
  set (limits := mkDocumentLimits _ _ _ _) in *. simpl in *.
  assert (Himage : ∀ format, inspect_image (library_images l) (library_inflate l) encoded format limits = Ok r →
    sandbox_report_ok limits r).
  { intros format. apply inspect_image_sound; [apply (libraries_image_size l Hl)|simpl; lia|done]. }
  unfold inspects, inspect_document.
  destruct (_ =? 0); [done|]. destruct (_ <? _); [done|].
  destruct (String.eqb _ "application/pdf"); [by apply inspect_pdf_sound|].
  destruct (String.eqb _ "image/jpeg"); [by apply Himage|].
  destruct (String.eqb _ "image/png"); [by apply Himage|].
  destruct (String.eqb _ "image/tiff"); [|destruct (String.eqb _ "image/webp"); [by apply Himage|done]].
  unfold inspect_tiff. intros (decoder & _ & H)%and_then_Ok.
  apply inspect_frames_sound in H; [done|apply (libraries_tiff_size l Hl)|done| |apply within_nil].
  change (zlen (@nil PageGeometry)) with 0. simpl. lia.
Qed.

(** ** The report as JSON *)

Definition member (name value : string) : string :=
  String "034" (name +:+ String "034" (":" +:+ value)).

Definition geometry_text (g : PageGeometry) : string :=
  "{" +:+ member "page" (show_dec (PageNumber_value (geometry_page g)))
  +:+ "," +:+ member "width" (show_dec (geometry_width g))
  +:+ "," +:+ member "height" (show_dec (geometry_height g)) +:+ "}".

(** The compact JSON text of a report, its fields in their order. *)
Definition report_text (r : InspectionReport) : string :=
  "{" +:+ member "page_count" (show_dec (inspected_page_count r))
  +:+ "," +:+ member "maximum_page_pixels" (show_dec (inspected_maximum_pixels r))
  +:+ "," +:+ member "total_page_pixels" (show_dec (inspected_total_pixels r))
  +:+ "," +:+ member "pages" ("[" +:+ String.concat "," (geometry_text <$> inspected_pages r) +:+ "]")
  +:+ "," +:+ member "password_protected" (if inspected_password_protected r then "true" else "false")
  +:+ "}".

Definition inspection_json (r : InspectionReport) : JsonReport :=
  mkJsonReport (inspected_page_count r) (inspected_maximum_pixels r) (inspected_total_pixels r)
    (map geometry_json (inspected_pages r)) (inspected_password_protected r).

(** The lengths of the literal parts of a text. *)
Ltac text_lengths :=
  repeat first [rewrite strlen_append | rewrite strlen_cons]; change (strlen "") with 0.

Lemma geometry_text_length g :
  geometry_valid g → PageNumber_value (geometry_page g) ≤ 1000 → 0 < PageNumber_value (geometry_page g) →
  strlen (geometry_text g) ≤ 60.
Proof.
  intros Hg Hp Hp0. destruct (geometry_valid_pixels g Hg) as [_ Harea].
  destruct Hg as [(Hw & Hh & _) _]. unfold geometry_area, in_width in *.
  assert (geometry_width g < 10 ^ Z.of_nat 9 ∧ geometry_height g < 10 ^ Z.of_nat 9).
  { change (10 ^ Z.of_nat 9) with 1000000000.
    assert (1 ≤ geometry_width g ∧ 1 ≤ geometry_height g) by nia. nia. }
  pose proof (show_dec_short 8 (geometry_width g) ltac:(lia)).
  pose proof (show_dec_short 8 (geometry_height g) ltac:(lia)).
  pose proof (show_dec_short 3 (PageNumber_value (geometry_page g)) ltac:(simpl; lia)).
  unfold geometry_text, member. text_lengths. lia.
Qed.

Lemma concat_length (sep : string) (bound : Z) (texts : list string) :
  0 ≤ bound → Forall (λ t, strlen t ≤ bound) texts →
  strlen (String.concat sep texts) ≤ (bound + strlen sep) * zlen texts.
Proof.
  intros Hb. pose proof (strlen_nonneg sep) as Hsep.
  induction 1 as [|t texts Ht Hall IH]; [unfold zlen; simpl; change (strlen "") with 0; lia|].
  rewrite zlen_cons.
  destruct texts as [|u texts].
  - change (zlen (@nil string)) with 0. change (String.concat sep [t]) with t. lia.
  - change (String.concat sep (t :: u :: texts)) with (t +:+ sep +:+ String.concat sep (u :: texts)).
    rewrite !strlen_append. lia.
Qed.

Lemma numbered_from_range index gs :
  0 ≤ index → numbered_from index gs →
  Forall (λ g, 0 < PageNumber_value (geometry_page g) ≤ index + zlen gs) gs.
Proof.
  revert index. induction gs as [|g gs IH]; intros index Hi; [done|]. intros [Hg Hgs].
  rewrite zlen_cons. pose proof (zlen_nonneg gs). constructor; [lia|].
  apply IH in Hgs; [|lia]. eapply Forall_impl; [exact Hgs|]. simpl. lia.
Qed.

(** The report of any document fits the output of the process. *)
Lemma report_text_fits limits r :
  limits_ok limits → sandbox_report_ok limits r →
  zlen (string_bytes (report_text r)) ≤ MAXIMUM_OUTPUT_BYTES.
Proof.
  intros [Hpages Hpixels Htotal] [[Hv Hn Hm Ht Hp Htl] Hc Hcb Hu].
  unfold MAXIMUM_PAGE_COUNT in Hpages. unfold MAXIMUM_TOTAL_PAGE_PIXELS in Htotal.
  unfold zlen at 1. rewrite string_bytes_length.
  pose proof (sum_areas_bound _ Hv) as Hsum. pose proof (max_area_bounds _ Hv) as Hmax.
  pose proof (max_area_nonneg (inspected_pages r)) as Hpos.
  assert (Hbound : Forall (λ t, strlen t ≤ 60) (geometry_text <$> inspected_pages r)).
  { apply Forall_fmap, Forall_forall. intros g Hg. apply geometry_text_length.
    - by apply (proj1 (Forall_forall _ _) Hv).
    - pose proof (proj1 (Forall_forall _ _) (numbered_from_range 0 _ ltac:(lia) Hn) g Hg) as Hr.
      simpl in Hr. lia.
    - pose proof (proj1 (Forall_forall _ _) (numbered_from_range 0 _ ltac:(lia) Hn) g Hg) as Hr.
      simpl in Hr. lia. }
  pose proof (concat_length "," 60 _ ltac:(lia) Hbound) as Hconcat.
  change (strlen ",") with 1 in Hconcat. unfold zlen in Hconcat. rewrite length_fmap in Hconcat.
  fold (zlen (inspected_pages r)) in Hconcat.
  pose proof (show_dec_short 3 (inspected_page_count r) ltac:(simpl; lia)).
  pose proof (show_dec_short 8 (inspected_maximum_pixels r) ltac:(simpl; lia)).
  pose proof (show_dec_short 11 (inspected_total_pixels r) ltac:(simpl; lia)).
  unfold report_text, member, MAXIMUM_OUTPUT_BYTES. rewrite Hu. text_lengths. lia.
Qed.

(** ** The process that runs the sandbox *)

Lemma parse_unsigned_show_dec maximum n :
  maximum ≤ u64_max → in_width maximum n → parse_unsigned maximum (show_dec n) = Some n.
Proof.
  intros Hmax Hn. unfold parse_unsigned, in_width in *.
  pose proof (show_dec_digits n ltac:(lia)) as Hdigits. pose proof (show_dec_nonempty n) as Hne.
  assert (Text.strip_prefix "+" (show_dec n) = None) as ->.
  { destruct (Text.strip_prefix _ _) as [t|] eqn:Hs; [|done].
    apply Text.strip_prefix_Some in Hs. rewrite Hs in Hdigits. done. }
  simpl. unfold parse_digits. rewrite Hdigits.
  assert (is_empty (show_dec n) = false) as ->.
  { destruct (show_dec n); [|done]. change (strlen "") with 0 in Hne. lia. }
  simpl. rewrite read_show_dec by lia. by rewrite (proj2 (Z.leb_le _ _)) by lia.
Qed.

(** The sandbox reads the limits that the service writes on the command line. *)
Lemma command_line_read self content_type limits :
  in_width usize_max (maximum_pages self) → in_width u64_max (maximum_page_pixels self) →
  in_width u64_max (maximum_total_pixels self) →
  DocumentLimits_new (maximum_pages self) (maximum_page_pixels self) (maximum_total_pixels self) = Ok limits →
  configuration (Some <$> command_args self content_type Inspect)
  = Some (content_type, limits, "/usr/bin/pdftotext").
Proof.
  intros Hpages Hpixels Htotal Hlimits.
  pose proof (parse_unsigned_show_dec usize_max _ ltac:(done) Hpages) as H1.
  pose proof (parse_unsigned_show_dec u64_max _ ltac:(done) Hpixels) as H2.
  pose proof (parse_unsigned_show_dec u64_max _ ltac:(done) Htotal) as H3.
  unfold configuration, command_args. cbn -[show_dec parse_unsigned].
  rewrite H1. cbn -[show_dec parse_unsigned]. rewrite H2. cbn -[show_dec parse_unsigned]. rewrite H3.
  cbn -[DocumentLimits_new]. by rewrite Hlimits.
Qed.

(** What the service makes of what the sandbox finds. *)
Definition service_error (error : SandboxError.Error) : ParserProcessError.ParserProcessError :=
  match error with
  | SandboxError.NativeTextUnavailable => ParserProcessError.Unavailable
  | SandboxError.UnsupportedContentType | SandboxError.InvalidDocument =>
      ParserProcessError.InvalidDocument
  | SandboxError.PasswordProtected => ParserProcessError.PasswordRequired
  | _ => ParserProcessError.LimitsExceeded
  end.

Definition service_report (r : InspectionReport) : ParserInspectionReport :=
  mkParserInspectionReport (inspected_page_count r) (inspected_maximum_pixels r)
    (inspected_total_pixels r) (inspected_pages r).

Definition service_result (result : SandboxResult InspectionReport) : ParserResult ParserInspectionReport :=
  match result with
  | Ok report => Ok (service_report report)
  | Err error => Err (service_error error)
  end.

(** [main] of the sandbox with these libraries. *)
Definition sandbox_main (l : Libraries) (spawn_layout : string → list Z → LayoutEnd)
    (parse_html : list Z → option (list XmlPage)) (pages_to_vec : list DocumentPage → option (list Z))
    (report_to_vec : InspectionReport → list Z) : list (option string) → list Z → ExitCode :=
  main (library_images l) (library_tiff l) (library_inflate l) (library_as_array l)
    (library_as_float l) (library_as_reference l) (library_as_stream l) (library_load_mem l)
    spawn_layout parse_html pages_to_vec report_to_vec.

Lemma service_report_ok limits r :
  limits_ok limits → sandbox_report_ok limits r →
  report_ok (service_report r) ∧ report_json (service_report r) = inspection_json r.
Proof.
  intros Hlimits [[Hv Hn Hm Ht _ _] Hc Hcb Hu]. destruct Hlimits as [Hp _ _]. split.
  - split; simpl; [done|done|by rewrite Hc|lia|done|done].
  - unfold report_json, inspection_json. by rewrite Hu.
Qed.

(** The limits that [inspect] checks once more hold of such a report. *)
Lemma limits_hold self limits r :
  limits = mkDocumentLimits (maximum_pages self) (maximum_page_pixels self)
             (maximum_total_pixels self) HARD_MAXIMUM_DECODED_STREAM_BYTES →
  in_width u64_max (maximum_page_pixels self) → in_width u64_max (maximum_total_pixels self) →
  limits_ok limits → sandbox_report_ok limits r →
  (maximum_pages self <? inspected_page_count r)
  || (as_i64 (maximum_page_pixels self) <? inspected_maximum_pixels r)
  || (as_i64 (maximum_total_pixels self) <? inspected_total_pixels r) = false.
Proof.
  intros -> [Hpp _] [Htp _] [_ Hp Ht] [[Hv Hn Hm Hs Hpl Htl] Hc Hcb _]. simpl in *.
  unfold MAXIMUM_TOTAL_PAGE_PIXELS, MAXIMUM_PAGE_COUNT in Ht.
  unfold as_i64. rewrite Z.mod_small by lia. rewrite Z.mod_small by lia.
  apply max_area_bound in Hpl; [|done].
  assert (inspected_pages r ≠ []) by (intros He; rewrite He in Hc; unfold zlen in Hc; simpl in Hc; lia).
  destruct Htl as [|Htl]; [done|]. rewrite !orb_false_iff, !Z.ltb_ge. lia.
Qed.

(** A document of another type is not looked at. *)
Lemma other_type_unsupported l encoded content_type limits :
  valid_content_type content_type = false → zlen encoded ≤ MAXIMUM_INPUT_BYTES →
  service_result (inspects l encoded content_type limits) = Err ParserProcessError.InvalidDocument.
Proof.
  intros Ht Hlen. unfold inspects, inspect_document. destruct (_ =? 0); [done|].
  change MAXIMUM_ENCODED_BYTES with MAXIMUM_INPUT_BYTES. rewrite (proj2 (Z.ltb_ge _ _)) by lia.
  unfold valid_content_type in Ht. cbn [existsb] in Ht.
  repeat match goal with |- context [String.eqb ?a ?b] => destruct (String.eqb a b); [done|] end. done.
Qed.

Section Process.
Context (l : Libraries) (Hl : Libraries_ok l).
Context (spawn_layout : string → list Z → LayoutEnd) (parse_html : list Z → option (list XmlPage)).
Context (pages_to_vec : list DocumentPage → option (list Z)).
Context (report_to_vec : InspectionReport → list Z).
Context (spawn : string → list string → list Z → Z → ProcessEnd).
Context (parse_report_json : list Z → option JsonReport).

(** What [run] gives when the sandbox ends with the exit of an inspection. *)
Definition run_exit (exit : ExitCode) : ParserResult (list Z) :=
  let '(code, output) := exit in
  if MAXIMUM_OUTPUT_BYTES <? zlen output then Err ParserProcessError.Unavailable
  else
    match code with
    | 0 => Ok output
    | 10 => Err ParserProcessError.InvalidDocument
    | 11 => Err ParserProcessError.LimitsExceeded
    | 12 => Err ParserProcessError.PasswordRequired
    | _ => Err ParserProcessError.Unavailable
    end.

Lemma run_sandbox self limits encoded content_type :
  in_width usize_max (maximum_pages self) → in_width u64_max (maximum_page_pixels self) →
  in_width u64_max (maximum_total_pixels self) →
  DocumentLimits_new (maximum_pages self) (maximum_page_pixels self) (maximum_total_pixels self) = Ok limits →
  (∀ arguments input,
    spawn (executable self) arguments input (deadline self) =
    let '(code, output) :=
      sandbox_main l spawn_layout parse_html pages_to_vec report_to_vec (Some <$> arguments) input in
    Exited (Some code) output) →
  zlen encoded ≠ 0 → zlen encoded ≤ MAXIMUM_INPUT_BYTES → valid_content_type content_type = true →
  run spawn self encoded content_type Inspect =
  run_exit (inspect_exit report_to_vec (inspects l encoded content_type limits)).
Proof.
  intros Hpages Hpixels Htotal Hlimits Hspawn Hne Hlen Htype. unfold run.
  rewrite (proj2 (Z.eqb_neq _ _) Hne), (proj2 (Z.ltb_ge _ _) Hlen), Htype. cbn [orb negb].
  rewrite Hspawn. unfold sandbox_main, main.
  change (head (Some <$> command_args self content_type Inspect)) with (Some (Some "--content-type")).
  rewrite !bool_decide_eq_false_2 by done. cbn [orb].
  rewrite (command_line_read self content_type limits) by done. cbn -[take].
  rewrite take_ge; [by destruct (inspect_exit _ _)|].
  unfold zlen, MAXIMUM_INPUT_BYTES in Hlen. unfold MAXIMUM_ENCODED_BYTES. lia.
Qed.

(** C14: the process around the sandbox adds and loses nothing.  When the executable is the
    sandbox's [main], run on the service's own command line within its deadline, and the
    report that the inspection finds is written as compact JSON that is read back as what
    it says, then [inspect] gives exactly the result of [inspect_document] under the
    configured limits: the same report, which always fits the 64 KiB of output and always
    passes the service's validation, or the error that its exit code stands for.  Only a
    document over 100 MiB is refused before the process is started. *)
Theorem parser_process_runs_sandbox self limits encoded content_type :
  in_width usize_max (maximum_pages self) → in_width u64_max (maximum_page_pixels self) →
  in_width u64_max (maximum_total_pixels self) →
  DocumentLimits_new (maximum_pages self) (maximum_page_pixels self) (maximum_total_pixels self) = Ok limits →
  (∀ arguments input,
    spawn (executable self) arguments input (deadline self) =
    let '(code, output) :=
      sandbox_main l spawn_layout parse_html pages_to_vec report_to_vec (Some <$> arguments) input in
    Exited (Some code) output) →
  (∀ r, inspects l encoded content_type limits = Ok r →
    report_to_vec r = string_bytes (report_text r)
    ∧ parse_report_json (report_to_vec r) = Some (inspection_json r)) →
  ParserProcess_inspect spawn parse_report_json self encoded content_type =
  if MAXIMUM_INPUT_BYTES <? zlen encoded then Err ParserProcessError.InvalidDocument
  else service_result (inspects l encoded content_type limits).
Proof.
  intros Hpages Hpixels Htotal Hlimits Hspawn Hjson. unfold ParserProcess_inspect.
  destruct (Z.eqb_spec (zlen encoded) 0) as [H0|Hne].
  { unfold run. rewrite H0. simpl. unfold inspects, inspect_document. by rewrite H0. }
  destruct (Z.ltb_spec MAXIMUM_INPUT_BYTES (zlen encoded)) as [Hbig|Hlen].
  { unfold run. rewrite (proj2 (Z.eqb_neq _ _) Hne), (proj2 (Z.ltb_lt _ _) Hbig). done. }
  destruct (valid_content_type content_type) eqn:Htype.
  2:{ rewrite other_type_unsupported by done. unfold run.
      rewrite (proj2 (Z.eqb_neq _ _) Hne), (proj2 (Z.ltb_ge _ _) Hlen), Htype. done. }
  rewrite (run_sandbox self limits) by done.
  destruct (inspects l encoded content_type limits) as [r|error] eqn:Hr; [|by destruct error].
  destruct (Hjson r eq_refl) as [Hvec Hparse].
  pose proof (inspect_document_sound _ _ _ _ _ _ _ _ Hl (proj1 Hpages) Hlimits Hr) as Hok.
  apply DocumentLimits_new_Ok in Hlimits as (Heq & Hlimits & _).
  destruct (service_report_ok limits r Hlimits Hok) as [Hreport Hread]. simpl.
  rewrite Hvec, (proj2 (Z.ltb_ge _ _)) by (by apply (report_text_fits limits)). rewrite <- Hvec. simpl.
  rewrite (proj2 (parse_report_Ok parse_report_json (report_to_vec r) (service_report r)))
    by (by rewrite Hparse, Hread). simpl.
  by rewrite (limits_hold self limits r).
Qed.
End Process.

(** ** PNG metadata *)

Section Png.
Context (inflate : list Z → Z → option (list Z)).
(** What a compressed part decompresses to, whatever the limit. *)
Context (inflated : list Z → option (list Z)).
Hypothesis inflate_bounded : ∀ compressed limit, 0 ≤ limit →
  inflate compressed limit = (out ← inflated compressed; if zlen out <=? limit then Some out else None).

(** The chunks of a PNG, up to the first IEND. *)
Inductive png_chunks : list Z → list (list Z * list Z) → Prop :=
| last_chunk bytes kind data rest :
    next_chunk bytes = Ok (kind, data, rest) → kind_is kind "IEND" = true →
    png_chunks bytes [(kind, data)]
| another_chunk bytes kind data rest chunks :
    next_chunk bytes = Ok (kind, data, rest) → kind_is kind "IEND" = false →
    png_chunks rest chunks → png_chunks bytes ((kind, data) :: chunks).

(** The metadata of a chunk: the bytes of an ancillary chunk and what they decompress to. *)
Definition chunk_metadata (chunk : list Z * list Z) : option Z :=
  let own := if is_ancillary chunk.1 then zlen chunk.2 else 0 in
  compressed ← result_ok (compressed_part chunk.1 chunk.2);
  match compressed with
  | Some compressed => out ← inflated compressed; Some (own + zlen out)
  | None => Some own
  end.

Definition sum_Z (zs : list Z) : Z := foldr Z.add 0 zs.

Lemma chunk_metadata_nonneg chunk cost : chunk_metadata chunk = Some cost → 0 ≤ cost.
Proof.
  unfold chunk_metadata. pose proof (zlen_nonneg chunk.2) as Hd.
  destruct (compressed_part chunk.1 chunk.2) as [[c|]|]; simpl; [| |done].
  - destruct (inflated c) as [out|]; simpl; [|done]. intros [= <-]. pose proof (zlen_nonneg out).
    destruct (is_ancillary _); lia.
  - intros [= <-]. destruct (is_ancillary _); lia.
Qed.

(** What is left after a known cost. *)
Lemma left_after_cost remaining total left remaining' :
  left = remaining - total → total ≤ remaining →
  (Ok left : SandboxResult Z) = Ok remaining' ↔
  ∃ cost, Some total = Some cost ∧ cost ≤ remaining ∧ remaining' = remaining - cost.
Proof.
  intros -> Hle. split.
  - intros [= <-]. by exists total.
  - by intros (cost & [= <-] & _ & ->).
Qed.

Lemma no_room (total remaining remaining' : Z) :
  remaining < total →
  ¬ ∃ cost, Some total = Some cost ∧ cost ≤ remaining ∧ remaining' = remaining - cost.
Proof. intros Hlt (cost & [= <-] & Hle & _). lia. Qed.

Lemma spend_chunk_Ok remaining kind data remaining' :
  0 ≤ remaining ≤ usize_max →
  spend_chunk inflate remaining kind data = Ok remaining' ↔
  ∃ cost, chunk_metadata (kind, data) = Some cost ∧ cost ≤ remaining ∧ remaining' = remaining - cost.
Proof.
  intros Hr. unfold spend_chunk, chunk_metadata. cbn [fst snd]. pose proof (zlen_nonneg data) as Hd.
  set (own := if is_ancillary kind then zlen data else 0).
  assert (Hown : (if is_ancillary kind then ok_or (checked_sub usize_max remaining (zlen data)) SandboxError.InvalidDocument
    else Ok remaining) = if own <=? remaining then Ok (remaining - own) else Err SandboxError.InvalidDocument).
  { unfold own. destruct (is_ancillary kind).
    - unfold checked_sub. destruct (Z.leb_spec (zlen data) remaining) as [Hle|Hgt].
      + by rewrite checked_in_width by (unfold in_width; lia).
      + destruct (checked _ _) as [v|] eqn:Hv; [|done]. apply checked_Some in Hv as [-> Hv].
        unfold in_width in Hv. lia.
    - rewrite (proj2 (Z.leb_le _ _)) by lia. by rewrite Z.sub_0_r. }
  assert (Hpos : 0 ≤ own) by (unfold own; destruct (is_ancillary kind); lia).
  rewrite Hown. destruct (Z.leb_spec own remaining) as [Hle|Hgt]; simpl.
  - destruct (compressed_part kind data) as [[c|]|e]; simpl;
      [|by apply left_after_cost|naive_solver].
    rewrite inflate_bounded by lia. destruct (inflated c) as [out|]; simpl; [|naive_solver].
    pose proof (zlen_nonneg out). destruct (Z.leb_spec (zlen out) (remaining - own)); simpl.
    + unfold checked_sub. rewrite checked_in_width by (unfold in_width; lia). simpl.
      apply left_after_cost; lia.
    + split; [done|]. intros H'. exfalso. revert H'. apply no_room. lia.
  - split; [done|]. intros (cost & Hc & Hcost & _).
    destruct (compressed_part kind data) as [[c|]|e]; simpl in Hc; [| |done].
    + destruct (inflated c) as [out|]; simpl in Hc; [|done]. pose proof (zlen_nonneg out).
      injection Hc as <-. lia.
    + injection Hc as <-. lia.
Qed.

(** A chunk takes at least twelve bytes, so that the loop ends. *)
Lemma next_chunk_shorter bytes kind data rest :
  Forall (contains 0 255) bytes → next_chunk bytes = Ok (kind, data, rest) →
  (length rest < length bytes)%nat ∧ Forall (contains 0 255) rest.
Proof.
  intros Hb. unfold next_chunk. destruct (Z.ltb_spec (zlen bytes) 8) as [|H8]; [done|].
  set (len := fold_left _ _ _). assert (Hlen : 0 ≤ len).
  { unfold len. assert (Hacc : ∀ bs acc, Forall (contains 0 255) bs → 0 ≤ acc →
      0 ≤ fold_left (λ acc b, acc * 256 + b) bs acc).
    { induction bs as [|b bs IH]; intros acc Hbs Hacc; [done|]. simpl. inversion Hbs as [|? ? Hx Hxs]; subst.
      apply IH; [done|]. apply Is_true_true, contains_true in Hx. lia. }
    apply Hacc; [by apply Forall_take|lia]. }
  intros (end_ & [-> _]%ok_or_Ok%checked_Some & H)%and_then_Ok.
  destruct (Z.ltb_spec (zlen bytes) (len + 12)); [done|]. injection H as <- <- <-.
  split; [|by apply Forall_drop]. rewrite length_drop. unfold zlen in *. lia.
Qed.

Lemma validate_chunks_spec fuel remaining bytes :
  Forall (contains 0 255) bytes → (length bytes ≤ fuel)%nat → 0 ≤ remaining ≤ usize_max →
  ∃ outcome, validate_chunks inflate fuel remaining bytes = Some outcome
  ∧ (outcome = Ok () ↔ ∃ chunks costs, png_chunks bytes chunks
      ∧ Forall2 (λ chunk cost, chunk_metadata chunk = Some cost) chunks costs
      ∧ sum_Z costs ≤ remaining).
Proof.
  revert remaining bytes. induction fuel as [|fuel IH]; intros remaining bytes Hb Hfuel Hr.
  { destruct bytes; [|simpl in Hfuel; lia]. exists (Err SandboxError.InvalidDocument). split; [done|].
    split; [done|]. intros (? & ? & Hc & _). inversion Hc; done. }
  destruct (next_chunk bytes) as [[[kind data] rest]|e] eqn:Hn.
  2:{ exists (Err (match bytes with [] => SandboxError.InvalidDocument | _ => e end)).
      split; [simpl; rewrite Hn; by destruct bytes|]. split; [done|].
      intros (? & ? & Hc & _). inversion Hc; congruence. }
  destruct (next_chunk_shorter _ _ _ _ Hb Hn) as [Hshort Hrest].
  assert (Hne : validate_chunks inflate (S fuel) remaining bytes =
    match spend_chunk inflate remaining kind data with
    | Err e => Some (Err e)
    | Ok remaining =>
        if kind_is kind "IEND" then Some (Ok ()) else validate_chunks inflate fuel remaining rest
    end) by (simpl; rewrite Hn; by destruct bytes).
  rewrite Hne. destruct (spend_chunk inflate remaining kind data) as [remaining'|e] eqn:Hs.
  - apply spend_chunk_Ok in Hs as (cost & Hcost & Hle & ->); [|done].
    pose proof (chunk_metadata_nonneg _ _ Hcost).
    destruct (kind_is kind "IEND") eqn:Hend.
    + exists (Ok ()). split; [done|]. split; [intros _|done].
      exists [(kind, data)], [cost]. split_and!; [by eapply last_chunk|by repeat constructor|simpl; lia].
    + destruct (IH (remaining - cost) rest Hrest ltac:(lia) ltac:(lia)) as (outcome & Ho & Hiff).
      exists outcome. split; [done|]. rewrite Hiff. split.
      * intros (chunks & costs & Hc & Hf & Hsum). exists ((kind, data) :: chunks), (cost :: costs).
        split_and!; [by eapply another_chunk|by constructor|simpl; fold (sum_Z costs); lia].
      * intros (chunks & costs & Hc & Hf & Hsum).
        inversion Hc as [? k d r Hn' He'|? k d r cs Hn' He' Hcs]; subst;
          rewrite Hn in Hn'; injection Hn' as <- <- <-; [congruence|].
        inversion Hf as [|? c ? cs' Hc1 Hf1]; subst. rewrite Hcost in Hc1. injection Hc1 as <-.
        exists cs, cs'. simpl in Hsum. fold (sum_Z cs') in Hsum. split_and!; [done|done|lia].
  - exists (Err e). split; [done|]. split; [done|]. intros (chunks & costs & Hc & Hf & Hsum).
    assert (∃ cs, chunks = (kind, data) :: cs) as [cs ->].
    { inversion Hc; subst; rewrite Hn in *; simplify_eq; by eexists. }
    inversion Hf as [|? c ? costs' Hc1 Hf1]; subst.
    assert (0 ≤ sum_Z costs').
    { clear -Hf1 inflated. induction Hf1 as [|? ? ? ? Hx _ IH]; simpl; [done|].
      apply chunk_metadata_nonneg in Hx. unfold sum_Z in *. lia. }
    assert (Hok : spend_chunk inflate remaining kind data = Ok (remaining - c)).
    { apply spend_chunk_Ok; [done|]. exists c. simpl in Hsum. fold (sum_Z costs') in Hsum.
      split_and!; [done|lia|done]. }
    congruence.
Qed.

(** C35: PNG metadata is bounded before the image is decoded.  On any bytes the check of
    the chunks ends, and it passes exactly when the bytes after the signature are chunks up
    to an IEND, none of them cut short or with a malformed compressed text, of which all
    ancillary data together with everything it decompresses to is at most 1 MiB. *)
Theorem png_metadata_bounded encoded :
  Forall (contains 0 255) encoded →
  (∃ outcome, validate_chunks inflate (length (drop 8 encoded)) MAXIMUM_PNG_METADATA_BYTES (drop 8 encoded)
    = Some outcome)
  ∧ (validate_png_metadata inflate encoded = Ok () ↔
     ∃ chunks costs, png_chunks (drop 8 encoded) chunks
       ∧ Forall2 (λ chunk cost, chunk_metadata chunk = Some cost) chunks costs
       ∧ sum_Z costs ≤ MAXIMUM_PNG_METADATA_BYTES).
Proof.
  intros Hb. destruct (validate_chunks_spec (length (drop 8 encoded)) MAXIMUM_PNG_METADATA_BYTES
    (drop 8 encoded)) as (outcome & Ho & Hiff); [by apply Forall_drop|done|done|].
  split; [by exists outcome|]. rewrite <- Hiff. unfold validate_png_metadata.
  destruct (Z.ltb_spec (zlen encoded) 8) as [Hshort|]; [|by rewrite Ho].
  split; [done|]. intros H. apply Hiff in H as (chunks & costs & Hc & _).
  rewrite drop_ge in Hc by (unfold zlen in Hshort; lia). inversion Hc; done.
Qed.
End Png.

(** ** Witnesses *)

(** A text chunk of three bytes and the end. *)
Definition sample_png : list Z :=
  PNG_SIGNATURE
  ++ [0; 0; 0; 3] ++ string_bytes "tEXt" ++ [97; 0; 98] ++ [1; 2; 3; 4]
  ++ [0; 0; 0; 0] ++ string_bytes "IEND" ++ [1; 2; 3; 4].

Definition sample_inflate (compressed : list Z) (limit : Z) : option (list Z) :=
  if zlen compressed <=? limit then Some compressed else None.

Lemma png_metadata_bounded_witness :
  ∃ chunks costs, png_chunks (drop 8 sample_png) chunks
  ∧ Forall2 (λ chunk cost, chunk_metadata Some chunk = Some cost) chunks costs
  ∧ sum_Z costs ≤ MAXIMUM_PNG_METADATA_BYTES.
Proof.
  apply (png_metadata_bounded sample_inflate Some (λ compressed limit _, eq_refl) sample_png).
  - repeat constructor.
  - vm_compute. reflexivity.
Defined.

(** Documents of two letter pages, the second one turned; an object is a list of
    numbers. *)
Definition sample_page (turn : Z) (key : string) : option (list f64) :=
  if String.eqb key "MediaBox" then Some (f64_of_Z <$> [0; 0; 612; 792])
  else if String.eqb key "Rotate" then Some [f64_of_Z turn] else None.

Definition sample_document : PdfDocument (list f64) :=
  mkPdfDocument false [] [(1, (3, 0)); (2, (4, 0))]
    (λ id, Some (sample_page (if id.1 =? 4 then 90 else 0))).

Definition sample_libraries : Libraries :=
  mkLibraries
    (mkImageLibrary (λ _, None) (λ _ _, None) (λ _ _ _ _, false) (λ _ _, None) (λ _ _, None)
       (λ _ _ _ _, None))
    (mkTiffLibrary () (λ _, None) (λ _, None) (λ _, Err OtherTiffError) (λ _, false) (λ _, None))
    sample_inflate (list f64) (λ o, Some ((λ x, [x]) <$> o)) head (λ _, None) (λ _, None)
    (λ _ _, Ok sample_document).

Lemma sample_libraries_ok : Libraries_ok sample_libraries.
Proof. split; simpl; [done|done|]. by intros encoded limit document [= <-]. Qed.

Definition sample_self : ParserProcess :=
  mkParserProcess "/usr/local/bin/sandbox" 1000000000 10 100000000 1000000000 "/usr/bin/pdftotext".
Definition sample_limits : DocumentLimits :=
  mkDocumentLimits 10 100000000 1000000000 HARD_MAXIMUM_DECODED_STREAM_BYTES.
Definition sample_geometries : list PageGeometry :=
  [mkPageGeometry (mkPageNumber 1) 2550 3300; mkPageGeometry (mkPageNumber 2) 3300 2550].
Definition sample_report : InspectionReport :=
  mkInspectionReport 2 8415000 16830000 sample_geometries false.

#[local] Notation sample_main :=
  (sandbox_main sample_libraries (λ _ _, LayoutNotStarted) (λ _, None) (λ _, None)
     (λ r, string_bytes (report_text r))).

Lemma parser_process_runs_sandbox_witness :
  inspects sample_libraries (string_bytes "%PDF-1.7") "application/pdf" sample_limits = Ok sample_report
  ∧ ParserProcess_inspect
      (λ _ arguments input _,
        let '(code, output) := sample_main (Some <$> arguments) input in Exited (Some code) output)
      (λ _, Some (inspection_json sample_report)) sample_self (string_bytes "%PDF-1.7") "application/pdf"
    = Ok (service_report sample_report).
Proof.
  assert (Hr : inspects sample_libraries (string_bytes "%PDF-1.7") "application/pdf" sample_limits
    = Ok sample_report) by (vm_compute; reflexivity).
  split; [exact Hr|].
  rewrite (parser_process_runs_sandbox sample_libraries sample_libraries_ok (λ _ _, LayoutNotStarted)
    (λ _, None) (λ _, None) (λ r, string_bytes (report_text r))
    (λ _ arguments input _,
      let '(code, output) := sample_main (Some <$> arguments) input in Exited (Some code) output)
    (λ _, Some (inspection_json sample_report)) sample_self sample_limits).
  - rewrite Hr. reflexivity.
  - unfold in_width, usize_max, u64_max. simpl. lia.
  - unfold in_width, u64_max. simpl. lia.
  - unfold in_width, u64_max. simpl. lia.
  - by vm_compute.
  - intros arguments input. exact eq_refl.
  - intros r Hfound. rewrite Hr in Hfound. injection Hfound as <-. split; exact eq_refl.
Defined.
