(* ===== verification/ParserIsolation.v ===== *)
(** * ParserIsolation: the system calls that the parser process is denied

    Models [ocr-service/src/parser_isolation.rs]: the filter that [configure] builds for
    the architecture it was compiled for, and what runs in the child before it executes
    the parser.  A filter is a program of classic BPF; [ClassicBpf] is what the kernel
    documents of the four instructions it consists of, for any interpreter.  [libc]'s
    numbers of the system calls and of [EPERM] are arguments, as is [prctl].

    The theorem says what the filter decides on every system call, on every architecture
    the kernel may report: so the parser has no network, and cannot reach the memory of
    other processes. *)

From S2P Require Import Prelude.

#[local] Open Scope list_scope.
#[local] Open Scope Z_scope.

(** [libc::sock_filter]. *)
Record SockFilter := mkSockFilter {
  filter_code : Z;
  filter_jt : Z;
  filter_jf : Z;
  filter_k : Z;
}.

Definition instruction (code jt jf k : Z) : SockFilter := mkSockFilter code jt jf k.

(** The system calls that the loop names. *)
Inductive Syscall :=
| SYS_socket | SYS_socketpair | SYS_connect | SYS_bind | SYS_listen | SYS_accept | SYS_accept4
| SYS_sendto | SYS_sendmsg | SYS_recvfrom | SYS_recvmsg | SYS_io_uring_setup | SYS_ptrace
| SYS_process_vm_readv | SYS_process_vm_writev.

Definition denied_syscalls : list Syscall :=
  [SYS_socket; SYS_socketpair; SYS_connect; SYS_bind; SYS_listen; SYS_accept; SYS_accept4; SYS_sendto;
   SYS_sendmsg; SYS_recvfrom; SYS_recvmsg; SYS_io_uring_setup; SYS_ptrace; SYS_process_vm_readv;
   SYS_process_vm_writev].

(** [cfg!(target_arch)]: the audit identifier of the compiled architecture. *)
Inductive TargetArch := X86_64 | Aarch64 | OtherArch.

Definition architecture_of (target : TargetArch) : option Z :=
  match target with
  | X86_64 => Some 0xc000003e
  | Aarch64 => Some 0xc00000b7
  | OtherArch => None
  end.

Definition KILL_PROCESS : Z := 0x80000000.
Definition ALLOW : Z := 0x7fff0000.

Section Filter.
Context (number : Syscall → Z) (EPERM ENOTSUP : Z).

(** [syscall as u32]. *)
Definition as_u32 (n : Z) : Z := n mod 2 ^ 32.

(** The verdict [SECCOMP_RET_ERRNO] with [EPERM]. *)
Definition DENY : Z := Z.lor 0x50000 (as_u32 EPERM).

(** The two instructions of a denied system call. *)
Definition deny (syscall : Syscall) : list SockFilter :=
  [instruction 0x15 0 1 (as_u32 (number syscall)); instruction 0x06 0 0 DENY].

Definition filter (architecture : Z) : list SockFilter :=
  [instruction 0x20 0 0 4; instruction 0x15 1 0 architecture; instruction 0x06 0 0 KILL_PROCESS;
   instruction 0x20 0 0 0; instruction 0x35 0 1 0x40000000; instruction 0x06 0 0 KILL_PROCESS]
  ++ concat (deny <$> denied_syscalls) ++ [instruction 0x06 0 0 ALLOW].

(** [prctl] with its arguments, and what the child runs after the fork. *)
Inductive Prctl := SetNoNewPrivs | SetSeccomp (length : Z) (program : list SockFilter).

Section PreExec.
Context {G : Type} (prctl : Prctl → G → Z * G) (last_os_error : G → Z).

(** The closure of [pre_exec]; [len] is a [u16]. *)
Definition pre_exec (program : list SockFilter) (g : G) : result Z () * G :=
  match prctl SetNoNewPrivs g with
  | (code, g) =>
      if negb (code =? 0) then (Err (last_os_error g), g)
      else
        match prctl (SetSeccomp (zlen program mod 2 ^ 16) program) g with
        | (code, g) => if negb (code =? 0) then (Err (last_os_error g), g) else (Ok (), g)
        end
  end.

(** What [configure] adds to a command. *)
Definition configure (target : TargetArch) : result Z (G → result Z () * G) :=
  match architecture_of target with
  | None => Err ENOTSUP
  | Some architecture => Ok (pre_exec (filter architecture))
  end.
End PreExec.
End Filter.

(** ** What a filter decides *)

(** [struct seccomp_data]: the first two words. *)
Record SeccompData := mkSeccompData { data_nr : Z; data_arch : Z }.

(** The word at an offset. *)
Definition data_word (data : SeccompData) (offset : Z) : Z :=
  if offset =? 0 then data_nr data else if offset =? 4 then data_arch data else 0.

(** An interpreter of filters: from a program, the data, the index of an instruction and
    the accumulator to the verdict. *)
Class ClassicBpf (run : list SockFilter → SeccompData → nat → Z → option Z) := {
  run_load program data pc acc k :
    program !! pc = Some (mkSockFilter 0x20 0 0 k) → k = 0 ∨ k = 4 →
    run program data pc acc = run program data (S pc) (data_word data k);
  run_jump_equal program data pc acc jt jf k :
    program !! pc = Some (mkSockFilter 0x15 jt jf k) → 0 ≤ jt → 0 ≤ jf →
    run program data pc acc = run program data (S pc + Z.to_nat (if (acc =? k)%Z then jt else jf))%nat acc;
  run_jump_at_least program data pc acc jt jf k :
    program !! pc = Some (mkSockFilter 0x35 jt jf k) → 0 ≤ jt → 0 ≤ jf →
    run program data pc acc = run program data (S pc + Z.to_nat (if (k <=? acc)%Z then jt else jf))%nat acc;
  run_return program data pc acc k :
    program !! pc = Some (mkSockFilter 0x06 0 0 k) → run program data pc acc = Some k;
}.

Section Verdict.
Context (run : list SockFilter → SeccompData → nat → Z → option Z) `{!ClassicBpf run}.
Context (number : Syscall → Z) (EPERM : Z).
#[local] Notation filter := (filter number EPERM).
#[local] Notation DENY := (DENY EPERM).

(** The tail of a filter, from the first denied system call on. *)
Lemma run_denied before syscalls data acc :
  run (before ++ concat (deny number EPERM <$> syscalls) ++ [instruction 0x06 0 0 ALLOW]) data (length before) acc
  = Some (if existsb (λ s, acc =? as_u32 (number s)) syscalls then DENY else ALLOW).
Proof.
  revert before. induction syscalls as [|s syscalls IH]; intros before; simpl.
  - apply run_return. by rewrite lookup_app_r, Nat.sub_diag by done.
  - erewrite run_jump_equal
      by first [rewrite lookup_app_r, Nat.sub_diag by done; reflexivity|lia].
    destruct (acc =? as_u32 (number s)); simpl.
    + erewrite run_return; [reflexivity|]. rewrite lookup_app_r by lia.
      by match goal with |- context [(?n - length before)%nat] => replace (n - length before)%nat with 1%nat by lia end.
    + specialize (IH (before ++ deny number EPERM s)). rewrite <- app_assoc in IH.
      rewrite <- IH. f_equal. rewrite length_app. simpl. lia.
Qed.

Lemma all_denied s : s ∈ denied_syscalls.
Proof. destruct s; set_solver. Qed.

(** What the filter decides. *)
Definition filter_verdict (architecture : Z) (data : SeccompData) : Z :=
  if negb (data_arch data =? architecture) then KILL_PROCESS
  else if 0x40000000 <=? data_nr data then KILL_PROCESS
  else if bool_decide (data_nr data ∈ (λ s, as_u32 (number s)) <$> denied_syscalls) then DENY
  else ALLOW.

Lemma run_filter architecture data : run (filter architecture) data 0 0 = Some (filter_verdict architecture data).
Proof.
  unfold ParserIsolation.filter, filter_verdict. set (tail := concat _ ++ _).
  erewrite run_load by (reflexivity || by right). erewrite run_jump_equal by (reflexivity || lia).
  change (data_word data 4) with (data_arch data).
  destruct (data_arch data =? architecture); simpl; [|by erewrite run_return by reflexivity].
  erewrite run_load by (reflexivity || by left). erewrite run_jump_at_least by (reflexivity || lia).
  change (data_word data 0) with (data_nr data).
  destruct (0x40000000 <=? data_nr data); simpl; [by erewrite run_return by reflexivity|].
  etrans; [exact (run_denied
    [instruction 0x20 0 0 4; instruction 0x15 1 0 architecture; instruction 0x06 0 0 KILL_PROCESS;
     instruction 0x20 0 0 0; instruction 0x35 0 1 0x40000000; instruction 0x06 0 0 KILL_PROCESS]
    denied_syscalls data (data_nr data))|].
  f_equal. assert (Hmem : existsb (λ s, data_nr data =? as_u32 (number s)) denied_syscalls
    = bool_decide (data_nr data ∈ (λ s, as_u32 (number s)) <$> denied_syscalls)); [|by rewrite Hmem].
  generalize denied_syscalls. intros syscalls. apply eq_true_iff_eq.
  rewrite bool_decide_eq_true, existsb_exists, list_elem_of_fmap.
  setoid_rewrite Z.eqb_eq. setoid_rewrite <- list_elem_of_In. naive_solver.
Qed.

(** C13: the parser never runs without its filter, and the filter leaves it no network.
    When the child of a configured command goes on to execute the parser, it has given
    up new privileges and then installed a program, whole, that under any interpreter
    of the instructions decides on a system call as follows: one of another architecture
    than the compiled one, or of the compatibility range of numbers, kills the process;
    of the others the fifteen of [Syscall] fail with [EPERM], whatever their numbers are,
    and all others are allowed. *)
Theorem parser_runs_filtered {G : Type} (prctl : Prctl → G → Z * G) (last_os_error : G → Z) ENOTSUP target
    before g g' :
  configure number EPERM ENOTSUP prctl last_os_error target = Ok before →
  before g = (Ok (), g') →
  ∃ architecture program g1,
    architecture_of target = Some architecture
    ∧ prctl SetNoNewPrivs g = (0, g1) ∧ prctl (SetSeccomp (zlen program) program) g1 = (0, g')
    ∧ ∀ data,
        (data_arch data ≠ architecture ∨ 0x40000000 ≤ data_nr data → run program data 0 0 = Some KILL_PROCESS)
        ∧ (data_arch data = architecture → data_nr data < 0x40000000 →
           (∀ s, data_nr data = as_u32 (number s) → run program data 0 0 = Some DENY)
           ∧ ((∀ s, data_nr data ≠ as_u32 (number s)) → run program data 0 0 = Some ALLOW)).
Proof.
  unfold configure. destruct (architecture_of target) as [architecture|]; [|done]. intros [= <-].
  unfold pre_exec. destruct (prctl SetNoNewPrivs g) as [code g1] eqn:H1.
  destruct (Z.eqb_spec code 0) as [->|]; simpl; [|done].
  change (zlen (filter architecture) mod 2 ^ 16) with (zlen (filter architecture)).
  destruct (prctl (SetSeccomp _ _) g1) as [code g2] eqn:H2.
  destruct (Z.eqb_spec code 0) as [->|]; simpl; [|done]. intros [= <-].
  exists architecture, (filter architecture), g1. split_and!; [done..|].
  intros data. rewrite run_filter. unfold filter_verdict. split.
  - intros Hforeign. destruct (Z.eqb_spec (data_arch data) architecture), (Z.leb_spec 0x40000000 (data_nr data));
      simpl; try done. lia.
  - intros -> Hlow. rewrite Z.eqb_refl, (proj2 (Z.leb_gt _ _)) by lia. cbn [negb]. split.
    + intros s Hs. rewrite bool_decide_eq_true_2; [done|]. apply list_elem_of_fmap. by exists s; split; [|apply all_denied].
    + intros Hno. rewrite bool_decide_eq_false_2; [done|]. intros (s & Hs & _)%list_elem_of_fmap. by apply (Hno s).
Qed.
End Verdict.

(** ** A sample interpreter *)

Fixpoint interpret (fuel : nat) (program : list SockFilter) (data : SeccompData) (pc : nat) (acc : Z) : option Z :=
  match fuel with
  | O => None
  | S fuel =>
      match program !! pc with
      | Some (mkSockFilter code jt jf k) =>
          if code =? 0x20 then interpret fuel program data (S pc) (data_word data k)
          else if code =? 0x15
          then interpret fuel program data (S pc + Z.to_nat (if (acc =? k)%Z then jt else jf))%nat acc
          else if code =? 0x35
          then interpret fuel program data (S pc + Z.to_nat (if (k <=? acc)%Z then jt else jf))%nat acc
          else if code =? 0x06 then Some k else None
      | None => None
      end
  end.

(** Jumps go forward, so an instruction is run at most once. *)
Definition run_forward (program : list SockFilter) (data : SeccompData) (pc : nat) (acc : Z) : option Z :=
  interpret (length program - pc) program data pc acc.

Lemma interpret_enough fuel program data pc acc :
  (length program - pc ≤ fuel)%nat → interpret fuel program data pc acc = run_forward program data pc acc.
Proof.
  revert pc acc. induction fuel as [fuel IH] using lt_wf_ind. intros pc acc Hfuel. unfold run_forward.
  destruct (program !! pc) as [[code jt jf k]|] eqn:Hl.
  - apply lookup_lt_Some in Hl as Hlt. destruct fuel as [|fuel]; [lia|].
    replace (length program - pc)%nat with (S (length program - S pc)) by lia. simpl. rewrite Hl.
    assert (Hrest : ∀ next acc, (S pc ≤ next)%nat →
      interpret fuel program data next acc = interpret (length program - S pc) program data next acc).
    { intros next acc' Hnext. rewrite (IH fuel) by lia. rewrite (IH (length program - S pc)%nat) by lia. done. }
    rewrite !Hrest by lia. done.
  - assert (Hnone : ∀ fuel acc, interpret fuel program data pc acc = None)
      by (intros [|n] a; simpl; [done|by rewrite Hl]).
    by rewrite !Hnone.
Qed.

#[local] Instance run_forward_bpf : ClassicBpf run_forward.
Proof.
  assert (Hstep : ∀ program data pc acc code jt jf k, program !! pc = Some (mkSockFilter code jt jf k) →
    run_forward program data pc acc = interpret (S (length program - S pc)) program data pc acc).
  { intros program data pc acc code jt jf k Hl%lookup_lt_Some. unfold run_forward. f_equal. lia. }
  split; intros; erewrite Hstep by done; simpl;
    match goal with H : _ !! _ = _ |- _ => rewrite H end; simpl;
    rewrite ?interpret_enough by lia; done.
Qed.

(** A kernel that accepts both calls and remembers the installed program. *)
Definition sample_prctl (call : Prctl) (g : list SockFilter) : Z * list SockFilter :=
  match call with
  | SetNoNewPrivs => (0, g)
  | SetSeccomp _ program => (0, program)
  end.

Definition sample_number (s : Syscall) : Z :=
  match s with
  | SYS_socket => 41 | SYS_socketpair => 53 | SYS_connect => 42 | SYS_bind => 49 | SYS_listen => 50
  | SYS_accept => 43 | SYS_accept4 => 288 | SYS_sendto => 44 | SYS_sendmsg => 46 | SYS_recvfrom => 45
  | SYS_recvmsg => 47 | SYS_io_uring_setup => 425 | SYS_ptrace => 101 | SYS_process_vm_readv => 310
  | SYS_process_vm_writev => 311
  end.

Theorem parser_runs_filtered_witness :
  ∃ program, run_forward program (mkSeccompData 42 0xc000003e) 0 0 = Some (DENY 1)
    ∧ run_forward program (mkSeccompData 0 0xc000003e) 0 0 = Some ALLOW
    ∧ run_forward program (mkSeccompData 42 0xc00000b7) 0 0 = Some KILL_PROCESS.
Proof.
  destruct (parser_runs_filtered run_forward sample_number 1 sample_prctl (λ _, 0) 95 X86_64 _ [] _ eq_refl eq_refl)
    as (architecture & program & g1 & [= <-] & _ & _ & Hrun).
  exists program. split_and!.
  - apply (Hrun (mkSeccompData 42 0xc000003e)) with (s := SYS_connect); reflexivity.
  - apply (Hrun (mkSeccompData 0 0xc000003e)); [reflexivity..|]. by intros [].
  - apply (Hrun (mkSeccompData 42 0xc00000b7)). by left.
Defined.
