(* ===== verification/Nutrition.v ===== *)
(** * Nutrition: fields from the lines of a nutrition label

    Models [ocr-service/src/nutrition_label.rs]: quantities in text, the rows and columns
    of the panel, the reading of cells beside a label, the fields with their evidence and
    the checks that report what looks wrong.  A text is the list of its characters.
    Unicode's lower case and alphabetic property, and the trigonometry of the system's
    library, are arguments. *)

From Stdlib Require Import SpecFloat.
From S2P Require Import Prelude Text Float64 DomainTypes Identifiers Geometry Document.
From S2P Require Import Assembly ParserProcess.

#[local] Open Scope list_scope.
#[local] Open Scope Z_scope.

Definition KJ_PER_KCAL : f64 := f64_dec 4184 3.
Definition MAXIMUM_LABEL_CHARS : Z := 40.

Inductive Column := PerServing | Per100g | Per100ml.

#[export] Instance Column_eq_dec : EqDecision Column.
Proof. solve_decision. Defined.

(** The derived order. *)
Definition Column_rank (column : Column) : Z :=
  match column with PerServing => 0 | Per100g => 1 | Per100ml => 2 end.

#[export, refine] Instance Column_countable : Countable Column :=
  inj_countable' (λ c, match c with PerServing => 0%nat | Per100g => 1%nat | Per100ml => 2%nat end)
    (λ n, match n with O => PerServing | S O => Per100g | _ => Per100ml end) _.
Proof. by intros []. Defined.

Definition Column_key (column : Column) : string :=
  match column with
  | PerServing => "per_serving"
  | Per100g => "per_100g"
  | Per100ml => "per_100ml"
  end.

Definition HEADERS : list (string * Column) :=
  [("per serving", PerServing); ("per serve", PerServing); ("per 100g", Per100g);
   ("per 100 g", Per100g); ("per 100ml", Per100ml); ("per 100 ml", Per100ml)].

Inductive Nutrient :=
| EnergyKj | EnergyKcal | Protein | Fat | SaturatedFat | Carbohydrate | Sugars | Fibre | Sodium.

#[export] Instance Nutrient_eq_dec : EqDecision Nutrient.
Proof. solve_decision. Defined.

#[export, refine] Instance Nutrient_countable : Countable Nutrient :=
  inj_countable'
    (λ n, match n with
          | EnergyKj => 0%nat | EnergyKcal => 1%nat | Protein => 2%nat | Fat => 3%nat
          | SaturatedFat => 4%nat | Carbohydrate => 5%nat | Sugars => 6%nat | Fibre => 7%nat
          | Sodium => 8%nat
          end)
    (λ n, nth n [EnergyKj; EnergyKcal; Protein; Fat; SaturatedFat; Carbohydrate; Sugars; Fibre] Sodium) _.
Proof. by intros []. Defined.

Definition Nutrient_key (nutrient : Nutrient) : string :=
  match nutrient with
  | EnergyKj => "energy_kj"
  | EnergyKcal => "energy_kcal"
  | Protein => "protein_g"
  | Fat => "fat_g"
  | SaturatedFat => "saturated_fat_g"
  | Carbohydrate => "carbohydrate_g"
  | Sugars => "sugars_g"
  | Fibre => "fibre_g"
  | Sodium => "sodium_mg"
  end.

Module Unit.
Inductive Unit := Kj | Kcal | G | Mg | Mcg | Ml | Percent | Other.

#[export] Instance Unit_eq_dec : EqDecision Unit.
Proof. solve_decision. Defined.
End Unit.
Export (hints) Unit.

Definition normalise_mass (self : Nutrient) (amount : f64) (unit : Unit.Unit) : option f64 :=
  let grams :=
    match unit with
    | Unit.G => Some amount
    | Unit.Mg => Some (f64_div amount (f64_of_Z 1000))
    | Unit.Mcg => Some (f64_div amount (f64_of_Z 1000000))
    | _ => None
    end in
  (λ grams, if bool_decide (self = Sodium) then f64_mul grams (f64_of_Z 1000) else grams) <$> grams.

Record Quantity := mkQuantity {
  quantity_amount : f64;
  quantity_unit : option Unit.Unit;
  upper_bound : bool;
}.

Inductive Row := Energy (calories : bool) | Mass (nutrient : Nutrient).

(** The values that [json!] makes of numbers, texts, a serving size and the headers. *)
Inductive FieldValue :=
| NullValue
| NumberValue (value : f64)
| TextValue (value : string)
| ServingValue (amount : FieldValue) (unit : string)
| HeadersValue (keys : list string).

(** [json!] of a number: what is not finite becomes [null]. *)
Definition json_number (value : f64) : FieldValue :=
  if is_finite value then NumberValue value else NullValue.

Definition round (value : f64) : f64 :=
  f64_div (f64_round (f64_mul value (f64_of_Z 1000))) (f64_of_Z 1000).

(** ** Text *)

Fixpoint take_while {A : Type} (p : A → bool) (l : list A) : list A :=
  match l with
  | a :: l => if p a then a :: take_while p l else []
  | [] => []
  end.

Fixpoint drop_while {A : Type} (p : A → bool) (l : list A) : list A :=
  match l with
  | a :: rest => if p a then drop_while p rest else l
  | [] => []
  end.

Definition is_digit (c : Z) : bool := contains 48 57 c.

(** [text.starts_with(prefix)], [text.strip_prefix(prefix).unwrap_or(text)]. *)
Definition begins (prefix : string) (text : list Z) : bool := starts_with (chars prefix) text.

Definition without_prefix (prefix : string) (text : list Z) : list Z :=
  if begins prefix text then drop (length (chars prefix)) text else text.

(** [text.find(pattern)], counted in characters. *)
Fixpoint find_text (pattern : string) (text : list Z) : option nat :=
  if begins pattern text then Some 0%nat
  else
    match text with
    | [] => None
    | _ :: text => S <$> find_text pattern text
    end.

Definition mentions (pattern : string) (text : list Z) : bool :=
  bool_decide (is_Some (find_text pattern text)).

(** [text.match_indices(pattern)], from a position on: [skip] characters belong to the
    last match. *)
Fixpoint match_indices (pattern : string) (skip : nat) (position : Z) (text : list Z) : list Z :=
  match text with
  | [] => []
  | _ :: rest =>
      match skip with
      | S skip => match_indices pattern skip (position + 1) rest
      | O =>
          if begins pattern text
          then position :: match_indices pattern (length (chars pattern) - 1) (position + 1) rest
          else match_indices pattern 0 (position + 1) rest
      end
  end.

(** ** Quantities *)

(** [number.parse::<f64>()] for digits with points between them. *)
Definition digits_value (digits : list Z) : Z := fold_left (λ acc c, acc * 10 + (c - 48)) digits 0.

Definition decimal (digits : Z) (places : Z) : f64 :=
  match digits with
  | Zpos m => f64_dec m places
  | _ => f64_zero
  end.

Definition parse_number (number : list Z) : option f64 :=
  let whole := take_while is_digit number in
  match drop_while is_digit number with
  | [] => Some (decimal (digits_value whole) 0)
  | _ :: fraction =>
      if forallb is_digit fraction
      then Some (decimal (digits_value (whole ++ fraction)) (zlen fraction)) else None
  end.

(** The digits of a number and what follows it: a comma before exactly three digits
    separates thousands, any other comma is a decimal point. *)
Fixpoint read_number (number text : list Z) : list Z * list Z :=
  match text with
  | [] => (number, [])
  | c :: rest =>
      let next_is_digit := is_some_and is_digit (head rest) in
      if is_digit c then read_number (number ++ [c]) rest
      else if (c =? 46) && next_is_digit then read_number (number ++ [46]) rest
      else if (c =? 44) && next_is_digit then
        if zlen (take_while is_digit rest) =? 3 then read_number number rest
        else read_number (number ++ [46]) rest
      else (number, text)
  end.

Definition unit_of (word : list Z) : option Unit.Unit :=
  let is_ (names : list string) := existsb (λ name, bool_decide (word = chars name)) names in
  if is_ [""] then None
  else if is_ ["kj"] then Some Unit.Kj
  else if is_ ["kcal"; "cal"; "calories"] then Some Unit.Kcal
  else if is_ ["g"; "gm"; "grams"] then Some Unit.G
  else if is_ ["mg"] then Some Unit.Mg
  else if is_ ["mcg"; "µg"; "ug"] then Some Unit.Mcg
  else if is_ ["ml"] then Some Unit.Ml
  else if is_ ["%"] then Some Unit.Percent
  else Some Unit.Other.

(** The text before a number, the last character first, says that it is a bound. *)
Definition is_upper_bound (seen : list Z) : bool :=
  let before := drop_while (Z.eqb 32) seen in
  bool_decide (head before = Some 60) || bool_decide (rev (take 9 before) = chars "less than").

Section Nutrition.
Context (to_lowercase : string → string) (is_alphabetic : Z → bool).

(** The loop: [seen] is the text before the index, the last character first.  [None]
    when the fuel runs out; a round of the loop takes at least one character. *)
Fixpoint quantities_from (fuel : nat) (seen text : list Z) : option (list Quantity) :=
  match fuel, text with
  | _, [] => Some []
  | O, _ => None
  | S fuel, c :: rest =>
      if negb (is_digit c) || is_some_and is_alphabetic (head seen)
      then quantities_from fuel (c :: seen) rest
      else
        let '(number, after) := read_number [] text in
        let unit_text := drop_while (Z.eqb 32) after in
        let is_unit c := is_alphabetic c || (c =? 37) in
        let unit := unit_of (take_while is_unit unit_text) in
        let next := if bool_decide (is_Some unit) then drop_while is_unit unit_text else after in
        let seen_next := rev (take (length text - length next) text) ++ seen in
        found ← quantities_from fuel seen_next next;
        Some match parse_number number with
             | Some amount => mkQuantity amount unit (is_upper_bound seen) :: found
             | None => found
             end
  end.

Definition quantities (text : list Z) : list Quantity :=
  default [] (quantities_from (length text) [] text).

Definition is_metric (quantity : Quantity) : bool :=
  match quantity_unit quantity with
  | Some Unit.G | Some Unit.Ml => true
  | _ => false
  end.

Definition metric_quantity (text : list Z) : option Quantity :=
  List.find is_metric (rev (quantities text)).

Definition header_serving (text : list Z) : option Quantity :=
  at_ ← find_text "per serv" text;
  let after := drop (at_ + length (chars "per serv")) text in
  metric_quantity (take (default (length after) (find_text "per " after)) after).

(** ** Rows and columns *)

Definition push_new {A : Type} `{EqDecision A} (l : list A) (a : A) : list A :=
  if bool_decide (a ∈ l) then l else l ++ [a].

Definition header_le (a b : Z * Column) : bool :=
  (a.1 <? b.1) || ((a.1 =? b.1) && (Column_rank a.2 <=? Column_rank b.2)).

Definition column_headers (text : list Z) : list Column :=
  let found :=
    concat ((λ '(phrase, column), (λ at_, (at_, column)) <$> match_indices phrase 0 0 text) <$> HEADERS) in
  fold_left push_new (snd <$> sort_by header_le found) [].

Definition classify_label (label : list Z) : option Row :=
  if begins "saturated" label then Some (Mass SaturatedFat)
  else if begins "sugar" label then Some (Mass Sugars)
  else if existsb (λ prefix, begins prefix label) ["fibre"; "fiber"; "dietary fibre"; "dietary fiber"]
  then Some (Mass Fibre)
  else if begins "energy" label then Some (Energy false)
  else if begins "calories" label then Some (Energy true)
  else if begins "protein" label then Some (Mass Protein)
  else if begins "fat" label then Some (Mass Fat)
  else if begins "carbohydrate" label then Some (Mass Carbohydrate)
  else if begins "sodium" label then Some (Mass Sodium)
  else None.

Definition label_unit (label : list Z) : option Unit.Unit :=
  snd <$> List.find (λ e, mentions e.1 label)
    [("(g)", Unit.G); ("(mg)", Unit.Mg); ("(kcal)", Unit.Kcal); ("(kj)", Unit.Kj)].

Definition classify (text : list Z) : option (Row * option Unit.Unit) :=
  let label := take_while (λ c, negb (is_digit c || (c =? 60))) text in
  if MAXIMUM_LABEL_CHARS <? zlen label then None
  else
    let label := drop_while (λ c, bool_decide (c ∈ chars "-–—•*· ")) label in
    let label := without_prefix "total " (without_prefix "of which " label) in
    if existsb (λ word, mentions word label) ["unsaturated"; "trans"; "added"; "includes"; "from"]
    then None
    else row ← classify_label label; Some (row, label_unit label).

(** ** Lines and readings *)

(** [Line], and its text in lower case. *)
Record PanelLine := mkPanelLine {
  panel_page : PageNumber;
  panel_observation : TextObservation;
  lower : list Z;
}.

Record Reading := mkReading {
  reading_nutrient : Nutrient;
  slot : nat;
  reading_amount : f64;
  reading_lines : list PanelLine;
}.

(** The nutrient and amount that a quantity of a row gives. *)
Definition quantity_reading (row : Row) (label_unit : option Unit.Unit) (quantity : Quantity)
    : option (Nutrient * f64) :=
  let amount := quantity_amount quantity in
  let row_unit := match row with Energy true => Some Unit.Kcal | _ => None end in
  let unit :=
    match quantity_unit quantity with
    | Some unit => Some unit
    | None => match label_unit with Some unit => Some unit | None => row_unit end
    end in
  match row, unit with
  | Energy _, Some Unit.Kj => Some (EnergyKj, amount)
  | Energy _, Some Unit.Kcal => Some (EnergyKcal, amount)
  | Mass nutrient, Some unit => (λ amount, (nutrient, amount)) <$> normalise_mass nutrient amount unit
  | _, _ => None
  end.

(** The loop of [read_row]: [slots] counts the quantities of each nutrient so far. *)
Fixpoint read_quantities (row : Row) (label_unit : option Unit.Unit) (line : PanelLine)
    (slots : gmap Nutrient nat) (quantities : list Quantity) : list Reading :=
  match quantities with
  | [] => []
  | quantity :: quantities =>
      match quantity_reading row label_unit quantity with
      | None => read_quantities row label_unit line slots quantities
      | Some (nutrient, amount) =>
          let slot := default 0%nat (slots !! nutrient) in
          (if upper_bound quantity then [] else [mkReading nutrient slot amount [line]])
          ++ read_quantities row label_unit line (<[nutrient := S slot]> slots) quantities
      end
  end.

(** What [read_row] appends to the readings. *)
Definition read_row (row : Row) (label_unit : option Unit.Unit) (line : PanelLine) : list Reading :=
  read_quantities row label_unit line ∅ (quantities (lower line)).

(** ** Cells beside a label *)

Context (hypot atan2 : f64 → f64 → f64) (cos sin : f64 → f64).

Definition text_angle (line : PanelLine) : option f64 :=
  let corners := points (observation_polygon (panel_observation line)) in
  a ← corners !! 0%nat;
  b ← corners !! 1%nat;
  let dx := f64_sub (point_x b) (point_x a) in
  let dy := f64_sub (point_y b) (point_y a) in
  if f64_lt f64_epsilon (hypot dx dy) then Some (atan2 dy dx) else None.

Definition angle_le (a b : f64) : bool := not_greater (total_cmp a b).

Definition is_row (line : PanelLine) : bool := bool_decide (is_Some (classify (lower line))).

Definition on_page (page : PageNumber) (line : PanelLine) : bool := bool_decide (panel_page line = page).

Definition panel_axis (lines : list PanelLine) (page : PageNumber) : f64 * f64 :=
  let angles :=
    sort_by angle_le
      (omap text_angle (List.filter (λ line, on_page page line && is_row line) lines)) in
  let angle := default f64_zero (angles !! Nat.div2 (length angles)) in
  (cos angle, sin angle).

Record Bounds := mkBounds { low_x : f64; high_x : f64; low_y : f64; high_y : f64 }.

Definition extend_bounds (axis : f64 * f64) (bounds : Bounds) (point : NormalizedPoint) : Bounds :=
  let x := f64_add (f64_mul (point_x point) axis.1) (f64_mul (point_y point) axis.2) in
  let y := f64_add (f64_mul (SFopp (point_x point)) axis.2) (f64_mul (point_y point) axis.1) in
  mkBounds (f64_min (low_x bounds) x) (f64_max (high_x bounds) x)
    (f64_min (low_y bounds) y) (f64_max (high_y bounds) y).

Definition bounds (line : PanelLine) (axis : f64 * f64) : Bounds :=
  fold_left (extend_bounds axis) (points (observation_polygon (panel_observation line)))
    (mkBounds f64_infinity (S754_infinity true) f64_infinity (S754_infinity true)).

Definition aligned_row (a b : Bounds) : bool :=
  let overlap := f64_sub (f64_min (high_y a) (high_y b)) (f64_max (low_y a) (low_y b)) in
  f64_lt (f64_mul (f64_dec 5 1)
            (f64_min (f64_sub (high_y a) (low_y a)) (f64_sub (high_y b) (low_y b)))) overlap.

Definition center (b : Bounds) : f64 := f64_div (f64_add (low_x b) (high_x b)) (f64_of_Z 2).

(** A header of one column above the label and to its right: its column's place, its line
    and its bounds. *)
Definition spatial_header (columns : list Column) (label_bounds : Bounds) (axis : f64 * f64)
    (line : PanelLine) : option (nat * PanelLine * Bounds) :=
  match column_headers (lower line) with
  | [header] =>
      found ← list_find (λ column, column = header) columns;
      let position := bounds line axis in
      if f64_lt (high_y position) (low_y label_bounds) && f64_lt (high_x label_bounds) (low_x position)
      then Some (found.1, line, position) else None
  | _ => None
  end.

Definition spatial_headers (columns : list Column) (label : PanelLine) (lines : list PanelLine)
    (axis : f64 * f64) : list (nat * PanelLine * Bounds) :=
  omap (spatial_header columns (bounds label axis) axis)
    (List.filter (on_page (panel_page label)) lines).

Definition one_header_each (columns : list Column) (headers : list (nat * PanelLine * Bounds)) : bool :=
  Nat.eqb (length headers) (length columns) && negb (Nat.eqb (length columns) 0)
  && forallb (λ slot, Nat.eqb (length (List.filter (λ header, Nat.eqb header.1.1 slot) headers)) 1)
       (seq 0 (length columns)).

(** The condition on a candidate for the cell under a header. *)
Definition is_cell (lines : list PanelLine) (label : PanelLine) (axis : f64 * f64)
    (headers : list (nat * PanelLine * Bounds)) (slot : nat) (position : Bounds) (line : PanelLine)
    : bool :=
  let label_bounds := bounds label axis in
  let cell := bounds line axis in
  let distance := f64_abs (f64_sub (center cell) (center position)) in
  on_page (panel_page label) line
  && is_some_and (λ c, is_digit c || (c =? 60)) (head (drop_while is_whitespace (lower line)))
  && negb (f64_le (low_x cell) (high_x label_bounds)) && aligned_row label_bounds cell
  && negb (f64_lt (f64_max (f64_sub (high_x position) (low_x position))
                     (f64_sub (high_x cell) (low_x cell))) distance)
  && negb (existsb (λ '(other, _, other_position),
             negb (Nat.eqb other slot)
             && f64_le (f64_abs (f64_sub (center cell) (center other_position))) distance) headers)
  && negb (existsb (λ other,
             on_page (panel_page label) other
             && negb (bool_decide (observation_id (panel_observation other)
                                   = observation_id (panel_observation label)))
             && is_row other && aligned_row (bounds other axis) cell) lines).

(** The readings of the cell under a header, if there is exactly one. *)
Definition read_cell (row : Row) (label_unit : option Unit.Unit) (label : PanelLine)
    (lines : list PanelLine) (axis : f64 * f64) (headers : list (nat * PanelLine * Bounds))
    (header : nat * PanelLine * Bounds) : list Reading :=
  let '(slot, header_line, position) := header in
  match List.filter (is_cell lines label axis headers slot position) lines with
  | [cell] =>
      (λ reading, mkReading (reading_nutrient reading) slot (reading_amount reading)
                    [label; cell; header_line]) <$> read_row row label_unit cell
  | _ => []
  end.

(** What [read_spatial_row] appends to the readings. *)
Definition read_spatial_row (row : Row) (label_unit : option Unit.Unit) (label : PanelLine)
    (lines : list PanelLine) (columns : list Column) : list Reading :=
  let axis := panel_axis lines (panel_page label) in
  let headers := spatial_headers columns label lines axis in
  if negb (one_header_each columns headers) then []
  else concat (read_cell row label_unit label lines axis headers <$> headers).

(** ** Barcodes and locale *)

(** A text without its white space, if it is eight, twelve or thirteen digits (a text that
    is only digits has one byte for each). *)
Definition digits_string (digits : list Z) : string :=
  foldr (λ c s, String (ascii_of_N (Z.to_N c)) s) "" digits.

(** The sum with weights three and one, from the last digit. *)
Fixpoint weighted_sum (weight : Z) (values : list Z) : Z :=
  match values with
  | [] => 0
  | value :: values => value * weight + weighted_sum (4 - weight) values
  end.

Definition barcode (text : list Z) : option string :=
  let digits := List.filter (λ c, negb (is_whitespace c)) text in
  if negb (existsb (Z.eqb (zlen digits)) [8; 12; 13]) || negb (forallb is_digit digits) then None
  else
    match rev ((λ c, c - 48) <$> digits) with
    | check :: body =>
        if (10 - weighted_sum 3 body mod 10) mod 10 =? check then Some (digits_string digits) else None
    | [] => None
    end.

Definition locale (lines : list PanelLine) : option (string * PanelLine) :=
  head (omap (λ '(marker, locale),
                (λ line, (locale, line)) <$> List.find (λ line, mentions marker (lower line)) lines)
          [("fssai", "en-IN"); ("nutrition facts", "en-US"); ("nutrition information", "en-AU")]).

(** ** Output *)

Record Output := mkOutput {
  fields : gmap string (ExtractedValue FieldValue);
  validation_failures : list ValidationFailure;
}.

(** [.min_by(..)]: the first of the least. *)
Definition least_confidence (confidences : list Confidence) : option Confidence :=
  match confidences with
  | [] => None
  | first :: rest =>
      Some (fold_left (λ a b, if total_cmp (Confidence_value a) (Confidence_value b) is Gt then b else a)
              rest first)
  end.

Definition line_evidence (line : PanelLine) : Evidence :=
  mkEvidence (panel_page line) (observation_polygon (panel_observation line))
    (observation_id (panel_observation line)).

Definition put (name : string) (value : FieldValue) (lines : list PanelLine) (output : Output) : Output :=
  if bool_decide (is_Some (fields output !! name)) then output
  else
    match least_confidence ((λ line, observation_confidence (panel_observation line)) <$> lines) with
    | None => output
    | Some confidence =>
        match ExtractedValue_new value confidence (line_evidence <$> lines) with
        | Ok extracted => mkOutput (<[name := extracted]> (fields output)) (validation_failures output)
        | Err _ => output
        end
    end.

Definition fail (failure_code_text : string) (severity : ValidationSeverity.ValidationSeverity)
    (output : Output) : Output :=
  match StableCode_new failure_code_text with
  | Err _ => output
  | Ok code =>
      if existsb (λ failure, bool_decide (failure_code failure = code)) (validation_failures output)
      then output
      else mkOutput (fields output) (validation_failures output ++ [mkValidationFailure code severity])
  end.

(** ** Checks *)

Definition Values : Type := gmap (Column * Nutrient) f64.

Definition exceeds (part whole : option f64) : bool :=
  match part, whole with
  | Some part, Some whole => f64_lt (f64_add whole (f64_dec 5 2)) part
  | _, _ => false
  end.

Definition energy_units_differ (kj kcal : option f64) : bool :=
  match kj, kcal with
  | Some kj, Some kcal =>
      f64_lt f64_zero kcal
      && negb (f64_le (f64_dec 39 1) (f64_div kj kcal) && f64_le (f64_div kj kcal) (f64_dec 45 1))
  | _, _ => false
  end.

Definition atwater_differs (energy protein fat carbohydrate : option f64) : bool :=
  match energy, protein, fat, carbohydrate with
  | Some energy, Some protein, Some fat, Some carbohydrate =>
      let atwater :=
        f64_add (f64_add (f64_mul (f64_of_Z 4) protein) (f64_mul (f64_of_Z 4) carbohydrate))
          (f64_mul (f64_of_Z 9) fat) in
      f64_lt (f64_max (f64_mul (f64_dec 2 1) energy) (f64_of_Z 15)) (f64_abs (f64_sub atwater energy))
  | _, _, _, _ => false
  end.

Definition fail_if (condition : bool) (failure_code_text : string) (output : Output) : Output :=
  if condition then fail failure_code_text ValidationSeverity.Warning output else output.

Definition column_energy (values : Values) (column : Column) : option f64 :=
  match values !! (column, EnergyKcal) with
  | Some kcal => Some kcal
  | None => (λ kj, f64_div kj KJ_PER_KCAL) <$> values !! (column, EnergyKj)
  end.

Definition solids (values : Values) (column : Column) : f64 :=
  fold_left f64_add
    (omap (λ nutrient, values !! (column, nutrient)) [Protein; Fat; Carbohydrate; Fibre]) f64_zero.

(** One round of the loop of [validate]. *)
Definition validate_column (values : Values) (output : Output) (column : Column) : Output :=
  let get nutrient := values !! (column, nutrient) in
  let output := fail_if (energy_units_differ (get EnergyKj) (get EnergyKcal)) "energy_unit_mismatch" output in
  let output :=
    fail_if (atwater_differs (column_energy values column) (get Protein) (get Fat) (get Carbohydrate))
      "energy_atwater_mismatch" output in
  let output := fail_if (exceeds (get SaturatedFat) (get Fat)) "saturated_fat_exceeds_fat" output in
  let output := fail_if (exceeds (get Sugars) (get Carbohydrate)) "sugars_exceed_carbohydrate" output in
  fail_if (bool_decide (column = Per100g) && f64_lt (f64_of_Z 101) (solids values column))
    "per_100g_exceeds_100g" output.

(** A value per serving that is not what the value per hundred gives for the serving. *)
Definition serving_differs (values : Values) (reference : Column) (size : f64) : bool :=
  existsb
    (λ '((column, nutrient), per_serving),
      bool_decide (column = PerServing)
      && match values !! (reference, nutrient) with
         | Some per_100 =>
             let expected := f64_div (f64_mul per_100 size) (f64_of_Z 100) in
             f64_lt (f64_max (f64_mul (f64_dec 1 1) expected) (f64_dec 5 1))
               (f64_abs (f64_sub per_serving expected))
         | None => false
         end)
    (map_to_list values).

Definition validate (columns : list Column) (values : Values) (serving : option (f64 * Unit.Unit))
    (output : Output) : Output :=
  let output := fold_left (validate_column values) columns output in
  match serving with
  | None => output
  | Some (size, unit) =>
      let reference := if bool_decide (unit = Unit.Ml) then Per100ml else Per100g in
      if negb (bool_decide (PerServing ∈ columns)) || negb (bool_decide (reference ∈ columns)) then output
      else fail_if (serving_differs values reference size) "serving_column_mismatch" output
  end.

(** ** Extraction *)

(** The variables of the loop of [extract]. *)
Record Panel := mkPanel {
  panel_output : Output;
  panel_columns : list Column;
  header_lines : list PanelLine;
  panel_serving : option (f64 * Unit.Unit);
  panel_readings : list Reading;
  panel_rows : Z;
}.

Definition record_serving (size : Quantity) (line : PanelLine) (panel : Panel) : Panel :=
  match quantity_unit size, panel_serving panel with
  | Some unit, None =>
      let amount := json_number (round (quantity_amount size)) in
      let name := if bool_decide (unit = Unit.Ml) then "ml" else "g" in
      mkPanel (put "serving_size" (ServingValue amount name) [line] (panel_output panel))
        (panel_columns panel) (header_lines panel) (Some (quantity_amount size, unit))
        (panel_readings panel) (panel_rows panel)
  | _, _ => panel
  end.

Definition with_output (output : Output) (panel : Panel) : Panel :=
  mkPanel output (panel_columns panel) (header_lines panel) (panel_serving panel)
    (panel_readings panel) (panel_rows panel).

(** Some column has no reading among these. *)
Definition row_incomplete (columns : list Column) (readings : list Reading) : bool :=
  negb (Nat.eqb (length columns) 0)
  && existsb (λ slot_, negb (existsb (λ reading, Nat.eqb (slot reading) slot_) readings))
       (seq 0 (length columns)).

Definition read_panel_row (lines : list PanelLine) (row : Row) (unit : option Unit.Unit)
    (line : PanelLine) (panel : Panel) : Panel :=
  let own := read_row row unit line in
  let spatial := Nat.eqb (length own) 0 && Nat.eqb (length (quantities (lower line))) 0 in
  let added := if spatial then read_spatial_row row unit line lines (panel_columns panel) else own in
  let output :=
    if spatial && row_incomplete (panel_columns panel) added
    then fail "nutrition_row_incomplete" ValidationSeverity.Error (panel_output panel)
    else panel_output panel in
  let found := negb (Nat.eqb (length added) 0) || existsb upper_bound (quantities (lower line)) in
  mkPanel output (panel_columns panel) (header_lines panel) (panel_serving panel)
    (panel_readings panel ++ added) (if found then panel_rows panel + 1 else panel_rows panel).

(** One round of the loop of [extract]. *)
Definition read_line (lines : list PanelLine) (panel : Panel) (line : PanelLine) : Panel :=
  let text := lower line in
  if mentions "servings per" text then
    match head (quantities text) with
    | Some quantity =>
        with_output (put "servings_per_pack" (json_number (round (quantity_amount quantity))) [line]
                       (panel_output panel)) panel
    | None => panel
    end
  else
    let headers := column_headers text in
    if negb (Nat.eqb (length headers) 0) then
      let panel :=
        mkPanel (panel_output panel) (fold_left push_new headers (panel_columns panel))
          (header_lines panel ++ [line]) (panel_serving panel) (panel_readings panel)
          (panel_rows panel) in
      match header_serving text with
      | Some size => record_serving size line panel
      | None => panel
      end
    else if mentions "serving size" text || mentions "serve size" text then
      match metric_quantity text with
      | Some size => record_serving size line panel
      | None => panel
      end
    else
      match classify text with
      | Some (row, unit) => read_panel_row lines row unit line panel
      | None =>
          match barcode (chars (observation_text (panel_observation line))) with
          | Some barcode => with_output (put "barcode" (TextValue barcode) [line] (panel_output panel)) panel
          | None => panel
          end
      end.

Definition field_name (column : Column) (nutrient : Nutrient) : string :=
  Column_key column +:+ "." +:+ Nutrient_key nutrient.

(** The loop over the readings: the first value for a column and a nutrient stays. *)
Definition record_reading (columns : list Column) (state : Values * Output) (reading : Reading)
    : Values * Output :=
  let '(values, output) := state in
  match columns !! slot reading with
  | None => state
  | Some column =>
      let key := (column, reading_nutrient reading) in
      if bool_decide (is_Some (values !! key)) then state
      else
        (<[key := reading_amount reading]> values,
         put (field_name column (reading_nutrient reading)) (json_number (round (reading_amount reading)))
           (reading_lines reading) output)
  end.

Definition panel_lines (pages : list DocumentPage) : list PanelLine :=
  concat ((λ p,
             (λ o, mkPanelLine (page p) o (chars (to_lowercase (observation_text o))))
             <$> List.filter (λ o, bool_decide (level o = Line)) (observations p))
          <$> pages).

Definition finish_panel (panel : Panel) (output : Output) : Output :=
  if panel_rows panel =? 0 then fail "nutrition_panel_not_found" ValidationSeverity.Error output
  else if Nat.eqb (length (panel_columns panel)) 0
  then fail "nutrition_columns_unidentified" ValidationSeverity.Error output
  else
    let output :=
      put "column_headers" (HeadersValue (Column_key <$> panel_columns panel)) (header_lines panel) output in
    let '(values, output) :=
      fold_left (record_reading (panel_columns panel)) (panel_readings panel) (∅, output) in
    validate (panel_columns panel) values (panel_serving panel) output.

Definition extract (pages : list DocumentPage) : ExtractedFields FieldValue :=
  let lines := panel_lines pages in
  let panel := fold_left (read_line lines) lines (mkPanel (mkOutput ∅ []) [] [] None [] 0) in
  let output :=
    match locale lines with
    | Some (locale, line) => put "locale" (TextValue locale) [line] (panel_output panel)
    | None => panel_output panel
    end in
  let output := finish_panel panel output in
  mkExtractedFields (fields output) (validation_failures output).
End Nutrition.
