(* ===== verification/NutritionFacts.v ===== *)
(** * NutritionFacts: what an extracted nutrition label says

    Every field cites lines that were observed, with the least of their confidences; a
    reading beside a label belongs to the column of the one header above it; the checks
    report and never adjust; a barcode has the check digit of its number. *)

From Stdlib Require Import SpecFloat.
From S2P Require Import Prelude Text Float64 DomainTypes Identifiers Geometry Document.
From S2P Require Import Assembly ParserProcess Nutrition.

#[local] Open Scope list_scope.
#[local] Open Scope Z_scope.

#[local] Arguments String.append : simpl never.
#[local] Arguments StableCode_new : simpl never.

(** ** Texts *)

Lemma drop_while_length {A} (p : A → bool) l : (length (drop_while p l) ≤ length l)%nat.
Proof. induction l as [|a l IH]; simpl; [done|]. destruct (p a); simpl; lia. Qed.

Lemma read_number_length number text :
  (length (read_number number text).2 ≤ length text)%nat.
Proof.
  revert number. induction text as [|c text IH]; intros number; simpl; [done|].
  repeat case_match; simpl; try (etrans; [apply IH|]); lia.
Qed.

Section Quantities.
Context (is_alphabetic : Z → bool).

(** A round of the loop takes at least one character, so its fuel suffices. *)
Lemma quantities_from_total fuel seen text :
  (length text ≤ fuel)%nat → is_Some (quantities_from is_alphabetic fuel seen text).
Proof.
  revert seen text. induction fuel as [|fuel IH]; intros seen [|c rest] Hlen;
    [by exists []|cbn in Hlen; lia|by exists []|]. cbn [quantities_from]. cbn in Hlen.
  destruct (negb (is_digit c) || _) eqn:Hc; [apply IH; lia|].
  apply orb_false_iff in Hc as [Hdigit _]. apply negb_false_iff in Hdigit.
  cbn [read_number]. rewrite Hdigit.
  destruct (read_number ([] ++ [c]) rest) as [number after] eqn:Hn.
  pose proof (read_number_length ([] ++ [c]) rest) as Hafter. rewrite Hn in Hafter. simpl in Hafter.
  match goal with |- context [quantities_from _ fuel ?s ?n] => destruct (IH s n) as [found Hf] end.
  { match goal with |- context [if ?b then _ else _] => destruct b end; [|lia].
    etrans; [apply drop_while_length|]. etrans; [apply drop_while_length|]. lia. }
  rewrite Hf. simpl. by eexists.
Qed.

Lemma quantities_total text :
  quantities_from is_alphabetic (length text) [] text = Some (quantities is_alphabetic text).
Proof.
  unfold quantities. destruct (quantities_from_total (length text) [] text ltac:(done)) as [found Hf].
  by rewrite Hf.
Qed.
End Quantities.

(** ** Evidence *)

Definition line_confidence (line : PanelLine) : Confidence :=
  observation_confidence (panel_observation line).

Definition confidence_key (c : Confidence) : Z := total_key (Confidence_value c).

(** A value cites some of the lines, at least one, each by its page, outline and
    identifier, with the least of their confidences. *)
Definition cites (lines : list PanelLine) (value : ExtractedValue FieldValue) : Prop :=
  ∃ cited, cited ≠ [] ∧ cited ⊆ lines
    ∧ extracted_evidence value
      = (λ line, mkEvidence (panel_page line) (observation_polygon (panel_observation line))
                   (observation_id (panel_observation line))) <$> cited
    ∧ (∃ line, line ∈ cited ∧ extracted_confidence value = line_confidence line)
    ∧ Forall (λ line, confidence_key (extracted_confidence value) ≤ confidence_key (line_confidence line)) cited.

Lemma least_of_fold rest first :
  let least := fold_left (λ a b, if total_cmp (Confidence_value a) (Confidence_value b) is Gt then b else a)
                 rest first in
  least ∈ first :: rest ∧ Forall (λ c, confidence_key least ≤ confidence_key c) (first :: rest).
Proof.
  revert first. induction rest as [|c rest IH]; intros first; simpl.
  { split; [left|repeat constructor; done]. }
  assert (Hstep : ∀ next, next = first ∨ next = c →
    confidence_key next ≤ confidence_key first → confidence_key next ≤ confidence_key c →
    let least := fold_left (λ a b, if total_cmp (Confidence_value a) (Confidence_value b) is Gt then b else a)
                   rest next in
    least ∈ first :: c :: rest ∧ Forall (λ c, confidence_key least ≤ confidence_key c) (first :: c :: rest)).
  { intros next Hnext Hf Hc. destruct (IH next) as [Hin Hall]. apply Forall_cons in Hall as [Hn Hall].
    split; [set_solver|]. repeat constructor; [lia|lia|done]. }
  unfold total_cmp. fold (confidence_key first) (confidence_key c).
  destruct (Z.compare_spec (confidence_key first) (confidence_key c)); apply Hstep; auto; lia.
Qed.

Lemma least_confidence_spec cs c :
  least_confidence cs = Some c → c ∈ cs ∧ Forall (λ d, confidence_key c ≤ confidence_key d) cs.
Proof. destruct cs as [|d cs]; [done|]. intros [= <-]. apply least_of_fold. Qed.

Definition output_cites (lines : list PanelLine) (output : Output) : Prop :=
  map_Forall (λ _ value, cites lines value) (fields output).

Lemma put_cites lines name value cited output :
  cited ⊆ lines → output_cites lines output → output_cites lines (put name value cited output).
Proof.
  intros Hsub Hout. unfold put. case_match; [done|].
  destruct (least_confidence _) as [c|] eqn:Hc; [|done].
  destruct (ExtractedValue_new _ _ _) as [extracted|] eqn:Hv; [|done].
  unfold output_cites. simpl. apply map_Forall_insert_2; [|done].
  apply least_confidence_spec in Hc as [Hin Hall].
  destruct cited as [|line cited]; [by apply elem_of_nil in Hin|]. injection Hv as <-.
  exists (line :: cited). split_and!; [done|done|done| |].
  - apply list_elem_of_fmap in Hin as (l & -> & Hl). by exists l.
  - exact (proj1 (Forall_fmap _ _ _) Hall).
Qed.

Lemma put_defined name value cited output :
  cited ≠ [] → is_Some (fields (put name value cited output) !! name).
Proof.
  intros Hne. unfold put. case_bool_decide as Hd; [done|].
  destruct cited as [|line cited]; [done|]. simpl. rewrite lookup_insert_eq. by eexists.
Qed.

Lemma put_keeps name value cited output other :
  is_Some (fields output !! other) → is_Some (fields (put name value cited output) !! other).
Proof.
  intros Ho. unfold put. repeat case_match; simpl; try done.
  destruct (decide (name = other)) as [->|Hne]; [rewrite lookup_insert_eq; by eexists|].
  by rewrite lookup_insert_ne.
Qed.

Lemma put_failures name value cited output :
  validation_failures (put name value cited output) = validation_failures output.
Proof. unfold put. by repeat case_match. Qed.

(** ** Failures *)

Definition codes (output : Output) : list string :=
  (λ f, StableCode_str (failure_code f)) <$> validation_failures output.

Lemma fail_fields text severity output : fields (fail text severity output) = fields output.
Proof. unfold fail. by repeat case_match. Qed.

Lemma StableCode_new_str text code : StableCode_new text = Ok code → code = mkStableCode text.
Proof. unfold StableCode_new. case_match; [|done]. by intros [= <-]. Qed.

Lemma fail_spec text severity output :
  StableCode_new text = Ok (mkStableCode text) →
  ∃ added, validation_failures (fail text severity output) = validation_failures output ++ added
  ∧ (text ∈ codes output → added = [])
  ∧ (text ∉ codes output → added = [mkValidationFailure (mkStableCode text) severity]).
Proof.
  intros Hcode. unfold fail. rewrite Hcode.
  destruct (existsb _ _) eqn:He.
  - exists []. rewrite app_nil_r. split_and!; [done|done|]. intros Hno. destruct Hno.
    apply existsb_exists in He as (f & Hf & Heq). apply bool_decide_eq_true in Heq.
    apply list_elem_of_fmap. exists f. rewrite Heq. split; [done|]. by apply list_elem_of_In.
  - eexists. split_and!; [done| |done]. intros Hin. exfalso.
    apply list_elem_of_fmap in Hin as (f & Htext & Hf).
    assert (existsb (λ failure, bool_decide (failure_code failure = mkStableCode text))
              (validation_failures output) = true); [|congruence].
    apply existsb_exists. exists f. split; [by apply list_elem_of_In|].
    apply bool_decide_eq_true. destruct f as [[s] sev]. simpl in *. by subst.
Qed.

(** ** Checks *)

(** The conditions that are reported for a column, and for the serving size. *)
Definition column_conditions (values : Values) (column : Column) : list (bool * string) :=
  let get nutrient := values !! (column, nutrient) in
  [(energy_units_differ (get EnergyKj) (get EnergyKcal), "energy_unit_mismatch");
   (atwater_differs (column_energy values column) (get Protein) (get Fat) (get Carbohydrate),
    "energy_atwater_mismatch");
   (exceeds (get SaturatedFat) (get Fat), "saturated_fat_exceeds_fat");
   (exceeds (get Sugars) (get Carbohydrate), "sugars_exceed_carbohydrate");
   (bool_decide (column = Per100g) && f64_lt (f64_of_Z 101) (solids values column),
    "per_100g_exceeds_100g")].

Definition serving_conditions (columns : list Column) (values : Values)
    (serving : option (f64 * Unit.Unit)) : list (bool * string) :=
  match serving with
  | None => []
  | Some (size, unit) =>
      let reference := if bool_decide (unit = Unit.Ml) then Per100ml else Per100g in
      [(bool_decide (PerServing ∈ columns) && bool_decide (reference ∈ columns)
        && serving_differs values reference size, "serving_column_mismatch")]
  end.

Definition conditions (columns : list Column) (values : Values) (serving : option (f64 * Unit.Unit))
    : list (bool * string) :=
  concat (column_conditions values <$> columns) ++ serving_conditions columns values serving.

Definition report (output : Output) (condition : bool * string) : Output :=
  fail_if condition.1 condition.2 output.

Lemma validate_reports columns values serving output :
  validate columns values serving output = fold_left report (conditions columns values serving) output.
Proof.
  unfold conditions. rewrite fold_left_app. unfold validate.
  assert (Hcols : ∀ cols out, fold_left (validate_column values) cols out
    = fold_left report (concat (column_conditions values <$> cols)) out).
  { induction cols as [|column cols IH]; intros out; [done|]. cbn [fmap list_fmap concat].
    rewrite fold_left_app. simpl. apply IH. }
  rewrite Hcols. destruct serving as [[size unit]|]; [|done]. simpl. unfold report, fail_if. simpl.
  destruct (bool_decide (PerServing ∈ columns)); [|done].
  by destruct (bool_decide (_ ∈ columns)).
Qed.

Definition stable_text (text : string) : Prop := StableCode_new text = Ok (mkStableCode text).

Lemma conditions_stable columns values serving :
  Forall (λ c, stable_text c.2) (conditions columns values serving).
Proof.
  unfold conditions. apply Forall_app. split.
  - induction columns as [|column columns IH]; [constructor|]. cbn [fmap list_fmap concat].
    apply Forall_app. split; [|done]. repeat constructor; vm_compute; reflexivity.
  - destruct serving as [[size unit]|]; repeat constructor; vm_compute; reflexivity.
Qed.

(** What reporting a list of conditions does. *)
Lemma report_all conds output :
  Forall (λ c, stable_text c.2) conds →
  fields (fold_left report conds output) = fields output
  ∧ (∃ added, validation_failures (fold_left report conds output) = validation_failures output ++ added
     ∧ Forall (λ f, severity f = ValidationSeverity.Warning) added)
  ∧ (∀ code, code ∈ codes (fold_left report conds output) ↔ code ∈ codes output ∨ (true, code) ∈ conds)
  ∧ (NoDup (codes output) → NoDup (codes (fold_left report conds output))).
Proof.
  intros Hstable. revert output. induction Hstable as [|[b text] conds Htext _ IH]; intros output.
  { split_and!; [done|exists []; by rewrite app_nil_r|set_solver|done]. }
  cbn [fold_left]. destruct (IH (report output (b, text))) as (Hf & (added & Ha & Hw) & Hc & Hn).
  unfold report, fail_if in *. cbn [fst snd] in *. destruct b.
  2:{ split_and!; [done|by exists added| |done]. intros code. rewrite Hc. set_solver. }
  destruct (fail_spec text ValidationSeverity.Warning output Htext) as (new & Hnew & Hin & Hout).
  assert (Hcodes : codes (fail text ValidationSeverity.Warning output)
    = codes output ++ ((λ f, StableCode_str (failure_code f)) <$> new)).
  { unfold codes. by rewrite Hnew, fmap_app. }
  split_and!.
  - by rewrite Hf, fail_fields.
  - exists (new ++ added). rewrite Ha, Hnew, app_assoc. split; [done|]. apply Forall_app. split; [|done].
    destruct (decide (text ∈ codes output)) as [Hi|Hi]; [by rewrite (Hin Hi)|rewrite (Hout Hi)].
    by repeat constructor.
  - intros code. rewrite Hc, Hcodes.
    destruct (decide (text ∈ codes output)) as [Hi|Hi]; [rewrite (Hin Hi)|rewrite (Hout Hi)]; set_solver.
  - intros Hd. apply Hn. rewrite Hcodes.
    destruct (decide (text ∈ codes output)) as [Hi|Hi]; [by rewrite (Hin Hi), app_nil_r|rewrite (Hout Hi)].
    apply NoDup_app. split_and!; [done|set_solver|]. simpl. apply NoDup_singleton.
Qed.

(** The checks report and never adjust: validation leaves every extracted field as it
    is and every earlier failure in its place, and adds warnings only; afterwards a code
    is present exactly when it was before or its condition holds for one of the columns
    or for the serving size, and no code is present twice. *)
Theorem checks_only_report columns values serving output :
  NoDup (codes output) →
  let checked := validate columns values serving output in
  fields checked = fields output
  ∧ (∃ added, validation_failures checked = validation_failures output ++ added
     ∧ Forall (λ f, severity f = ValidationSeverity.Warning) added)
  ∧ (∀ code, code ∈ codes checked ↔ code ∈ codes output ∨ (true, code) ∈ conditions columns values serving)
  ∧ NoDup (codes checked).
Proof.
  intros Hd. simpl. rewrite validate_reports.
  destruct (report_all (conditions columns values serving) output (conditions_stable _ _ _))
    as (Hf & Ha & Hc & Hn). split_and!; [done|done|done|by apply Hn].
Qed.

(** ** Barcodes *)

(** The sum of the digits, the last one with weight one, the next with three, and so on. *)
Definition gtin_sum (digits : list Z) : Z := weighted_sum 1 (rev digits).

Lemma weighted_sum_digits weight values :
  0 ≤ weight ≤ 4 → Forall (λ v, 0 ≤ v) values → 0 ≤ weighted_sum weight values.
Proof.
  intros Hw Hall. revert weight Hw.
  induction Hall as [|v values Hv _ IH]; intros weight Hw; simpl; [done|].
  specialize (IH (4 - weight) ltac:(lia)). nia.
Qed.

(** A barcode is read exactly when it is one: the text, without its white space, is
    eight, twelve or thirteen digits whose weighted sum, the check digit included, is a
    multiple of ten; then the barcode is these digits. *)
Theorem barcode_has_check_digit text out :
  let digits := List.filter (λ c, negb (is_whitespace c)) text in
  barcode text = Some out ↔
  out = digits_string digits ∧ zlen digits ∈ [8; 12; 13] ∧ Forall (λ c, 48 ≤ c ≤ 57) digits
  ∧ gtin_sum ((λ c, c - 48) <$> digits) mod 10 = 0.
Proof.
  simpl. unfold barcode. set (digits := List.filter _ text).
  assert (Hlen : existsb (Z.eqb (zlen digits)) [8; 12; 13] = true ↔ zlen digits ∈ [8; 12; 13]).
  { rewrite existsb_exists. split.
    - intros (n & Hn & He). apply Z.eqb_eq in He as ->. by apply list_elem_of_In.
    - intros Hin. exists (zlen digits). split; [by apply list_elem_of_In|apply Z.eqb_refl]. }
  assert (Hall : forallb is_digit digits = true ↔ Forall (λ c, 48 ≤ c ≤ 57) digits).
  { rewrite forallb_forall, Forall_forall. unfold is_digit.
    split; intros H c Hc; apply contains_true, H; by apply list_elem_of_In. }
  destruct (existsb _ _) eqn:He; simpl.
  2:{ split; [done|]. intros (_ & Hl & _). apply Hlen in Hl. congruence. }
  destruct (forallb is_digit digits) eqn:Hd; simpl.
  2:{ split; [done|]. intros (_ & _ & Hl & _). apply Hall in Hl. congruence. }
  pose proof (proj1 Hlen eq_refl) as Hl. pose proof (proj1 Hall eq_refl) as Hdigits.
  unfold gtin_sum. destruct (rev _) as [|check body] eqn:Hrev.
  { apply (f_equal (@length Z)) in Hrev. rewrite length_rev, length_fmap in Hrev. unfold zlen in Hl.
    simpl in Hrev. rewrite Hrev in Hl. set_solver. }
  assert (Hvalues : Forall (λ v, 0 ≤ v ≤ 9) (check :: body)).
  { rewrite <- Hrev. apply Forall_rev, Forall_fmap. eapply Forall_impl; [exact Hdigits|]. simpl. lia. }
  inversion Hvalues as [|? ? Hcheck Hbody]; subst. cbn [weighted_sum]. change (4 - 1) with 3.
  pose proof (weighted_sum_digits 3 body ltac:(lia)
    ltac:(eapply Forall_impl; [exact Hbody|]; simpl; lia)) as Hpos.
  assert (Hsum : (10 - weighted_sum 3 body mod 10) mod 10 = check ↔
    (check * 1 + weighted_sum 3 body) mod 10 = 0).
  { rewrite Z.mul_1_r. generalize dependent (weighted_sum 3 body). clear -Hcheck. intros n Hn.
    split; intros H; Z.to_euclidean_division_equations; lia. }
  destruct (Z.eqb_spec ((10 - weighted_sum 3 body mod 10) mod 10) check) as [Heq|Hne].
  - split; [|naive_solver]. intros [= <-]. split_and!; [done|done|done|by apply Hsum].
  - split; [done|]. intros (_ & _ & _ & Hs). by apply Hsum in Hs.
Qed.

(** ** Cells beside a label *)

Lemma elem_of_filter {A} (p : A → bool) (l : list A) a : a ∈ List.filter p l ↔ p a = true ∧ a ∈ l.
Proof. rewrite !list_elem_of_In, filter_In. tauto. Qed.

Section Spatial.
Context (is_alphabetic : Z → bool) (hypot atan2 : f64 → f64 → f64) (cos sin : f64 → f64).

(** Every reading of a row is one of the quantities of its line. *)
Lemma read_quantities_from row unit line slots qs r :
  r ∈ read_quantities row unit line slots qs →
  reading_lines r = [line] ∧ ∃ q, q ∈ qs ∧ upper_bound q = false
    ∧ quantity_reading row unit q = Some (reading_nutrient r, reading_amount r).
Proof.
  revert slots. induction qs as [|q qs IH]; intros slots; simpl; [set_solver|].
  destruct (quantity_reading row unit q) as [[nutrient amount]|] eqn:Hq.
  2:{ intros (Hl & q' & ? & ?)%IH. split; [done|]. exists q'. split; [by right|done]. }
  rewrite elem_of_app. intros [Hr|(Hl & q' & ? & ?)%IH].
  - destruct (upper_bound q) eqn:Hu; [by apply elem_of_nil in Hr|].
    apply list_elem_of_singleton in Hr as ->. simpl. split; [done|]. exists q. by split_and!; [left|..].
  - split; [done|]. exists q'. split; [by right|done].
Qed.

Lemma spatial_headers_elem columns label lines axis place header position :
  (place, header, position) ∈ spatial_headers columns label lines axis →
  header ∈ lines ∧ panel_page header = panel_page label ∧ position = bounds header axis
  ∧ ∃ column, column_headers (lower header) = [column] ∧ columns !! place = Some column.
Proof.
  unfold spatial_headers. rewrite list_elem_of_omap. intros (line & Hin & Hs).
  apply elem_of_filter in Hin as [Hpage Hin]. apply bool_decide_eq_true in Hpage.
  unfold spatial_header in Hs. destruct (column_headers (lower line)) as [|column [|? ?]] eqn:Hc; [done| |done].
  destruct (list_find _ columns) as [[i c]|] eqn:Hf; simpl in Hs; [|done].
  destruct (_ && _); [|done]. injection Hs as <- <- <-.
  apply list_find_Some in Hf as (Hi & -> & _). split_and!; [done|done|done|]. by exists column.
Qed.

Lemma one_header_each_spec columns headers :
  one_header_each columns headers = true →
  columns ≠ [] ∧ length headers = length columns
  ∧ ∀ place, (place < length columns)%nat →
      ∃ header, List.filter (λ h, Nat.eqb h.1.1 place) headers = [header].
Proof.
  unfold one_header_each. rewrite !andb_true_iff, negb_true_iff. intros [[Hl Hne] Hall].
  apply Nat.eqb_eq in Hl. apply Nat.eqb_neq in Hne. split_and!; [by intros ->|done|].
  intros place Hp. rewrite forallb_forall in Hall. specialize (Hall place ltac:(apply in_seq; lia)).
  apply Nat.eqb_eq in Hall. destruct (List.filter _ headers) as [|h [|? ?]]; [done|by exists h|done].
Qed.

(** A value is never shifted to another column: when a label's values stand beside it,
    every reading is that of a single cell that lies on the label's row, under a single
    header; the header names just the column that the reading is recorded for, each
    column has exactly one such header, and the amount is a quantity written in the cell
    that is not an upper bound.  If a header is missing or two name one column, nothing
    is read. *)
Theorem spatial_readings_in_column row unit label lines columns r :
  r ∈ read_spatial_row is_alphabetic hypot atan2 cos sin row unit label lines columns →
  let axis := panel_axis hypot atan2 cos sin lines (panel_page label) in
  let headers := spatial_headers columns label lines axis in
  ∃ cell header column,
    reading_lines r = [label; cell; header]
    ∧ columns !! slot r = Some column ∧ column_headers (lower header) = [column]
    ∧ header ∈ lines ∧ panel_page header = panel_page label
    ∧ List.filter (λ h, Nat.eqb h.1.1 (slot r)) headers = [(slot r, header, bounds header axis)]
    ∧ length headers = length columns
    ∧ List.filter (is_cell lines label axis headers (slot r) (bounds header axis)) lines = [cell]
    ∧ ∃ q, q ∈ quantities is_alphabetic (lower cell) ∧ upper_bound q = false
        ∧ quantity_reading row unit q = Some (reading_nutrient r, reading_amount r).
Proof.
  unfold read_spatial_row. set (axis := panel_axis _ _ _ _ lines _). set (headers := spatial_headers _ _ _ _).
  destruct (one_header_each columns headers) eqn:Hone; simpl; [|set_solver].
  apply one_header_each_spec in Hone as (_ & Hlen & Hone).
  intros (readings & Hreadings%list_elem_of_In & Hr%list_elem_of_In)%list_elem_of_In%in_concat.
  apply list_elem_of_fmap in Hreadings as ([[place header] position] & -> & Hh).
  pose proof Hh as Hheader. apply spatial_headers_elem in Hh as (Hin & Hpage & -> & column & Hc & Hcol).
  simpl in Hr. destruct (List.filter _ lines) as [|cell [|? ?]] eqn:Hcells; [by apply elem_of_nil in Hr| |by apply elem_of_nil in Hr].
  apply list_elem_of_fmap in Hr as (reading & -> & Hq). apply read_quantities_from in Hq as (_ & q & Hq & Hu & Hqr).
  exists cell, header, column. simpl. split_and!; try done; [|by exists q].
  destruct (Hone place ltac:(by eapply lookup_lt_Some)) as [h Hfilter]. rewrite Hfilter. f_equal.
  assert (Hmem : (place, header, bounds header axis) ∈ List.filter (λ h, Nat.eqb h.1.1 place) headers).
  { apply elem_of_filter. split; [by apply Nat.eqb_refl|done]. }
  rewrite Hfilter in Hmem. by apply list_elem_of_singleton in Hmem.
Qed.
End Spatial.

(** ** Extraction *)

Section Extraction.
Context (to_lowercase : string → string) (is_alphabetic : Z → bool).
Context (hypot atan2 : f64 → f64 → f64) (cos sin : f64 → f64).

(** What holds of the panel while its lines are read. *)
Record panel_ok (lines : list PanelLine) (panel : Panel) : Prop := {
  panel_cites : output_cites lines (panel_output panel);
  panel_codes : NoDup (codes (panel_output panel));
  panel_headers : header_lines panel ⊆ lines;
  panel_header_lines : panel_columns panel ≠ [] → header_lines panel ≠ [];
  panel_columns_distinct : NoDup (panel_columns panel);
  panel_reading_lines : Forall (λ r, reading_lines r ⊆ lines) (panel_readings panel);
}.

Lemma push_new_NoDup (columns added : list Column) :
  NoDup columns → NoDup (fold_left push_new added columns).
Proof.
  revert columns. induction added as [|column added IH]; intros columns Hd; [done|]. simpl. apply IH.
  unfold push_new. case_bool_decide as Hin; [done|]. apply NoDup_app. split_and!; [done|set_solver|].
  apply NoDup_singleton.
Qed.

Lemma put_codes name value cited output : codes (put name value cited output) = codes output.
Proof. unfold codes. by rewrite put_failures. Qed.

Lemma fail_codes text severity output :
  stable_text text → NoDup (codes output) →
  NoDup (codes (fail text severity output)) ∧ text ∈ codes (fail text severity output)
  ∧ codes output ⊆ codes (fail text severity output).
Proof.
  intros Htext Hd. destruct (fail_spec text severity output Htext) as (added & Ha & Hin & Hout).
  assert (Hcodes : codes (fail text severity output)
    = codes output ++ ((λ f, StableCode_str (failure_code f)) <$> added)).
  { unfold codes. by rewrite Ha, fmap_app. }
  rewrite Hcodes. destruct (decide (text ∈ codes output)) as [Hi|Hi].
  - rewrite (Hin Hi), app_nil_r. done.
  - rewrite (Hout Hi). split_and!; [|simpl; set_solver|set_solver].
    apply NoDup_app. split_and!; [done|set_solver|apply NoDup_singleton].
Qed.

Lemma put_ok lines name value line panel :
  line ∈ lines → panel_ok lines panel →
  panel_ok lines (with_output (put name value [line] (panel_output panel)) panel).
Proof.
  intros Hin [Hc Hn Hh Hl Hd Hr]. split; simpl; [|by rewrite put_codes|done..].
  apply put_cites; [set_solver|done].
Qed.

Lemma record_serving_ok lines size line panel :
  line ∈ lines → panel_ok lines panel → panel_ok lines (record_serving size line panel).
Proof.
  intros Hin Hok. unfold record_serving. destruct (quantity_unit size) as [unit|]; [|done].
  destruct (panel_serving panel); [done|]. destruct Hok as [Hc Hn Hh Hl Hd Hr].
  split; simpl; [|by rewrite put_codes|done..]. apply put_cites; [set_solver|done].
Qed.

Lemma read_row_lines row unit line lines :
  line ∈ lines → Forall (λ r, reading_lines r ⊆ lines) (read_row is_alphabetic row unit line).
Proof.
  intros Hin. apply Forall_forall. intros r Hr. apply read_quantities_from in Hr as (-> & _). set_solver.
Qed.

Lemma read_spatial_row_lines row unit label lines columns :
  label ∈ lines →
  Forall (λ r, reading_lines r ⊆ lines)
    (read_spatial_row is_alphabetic hypot atan2 cos sin row unit label lines columns).
Proof.
  intros Hin. unfold read_spatial_row. case_match; [done|]. apply Forall_concat, Forall_fmap, Forall_forall.
  intros [[place header] position] Hh. apply spatial_headers_elem in Hh as (Hheader & _). simpl.
  destruct (List.filter _ lines) as [|cell [|? ?]] eqn:Hcells; [done| |done].
  assert (Hcell : cell ∈ List.filter (is_cell lines label
    (panel_axis hypot atan2 cos sin lines (panel_page label))
    (spatial_headers columns label lines (panel_axis hypot atan2 cos sin lines (panel_page label)))
    place position) lines) by (rewrite Hcells; set_solver).
  apply elem_of_filter in Hcell as [_ Hcell]. apply Forall_fmap, Forall_forall. intros r _. simpl. set_solver.
Qed.

Lemma read_line_ok lines panel line :
  line ∈ lines → panel_ok lines panel →
  panel_ok lines (read_line is_alphabetic hypot atan2 cos sin lines panel line).
Proof.
  intros Hin Hok. unfold read_line. destruct (mentions "servings per" (lower line)).
  { case_match; [by apply put_ok|done]. }
  destruct (negb (Nat.eqb (length (column_headers (lower line))) 0)) eqn:Hheaders.
  { assert (Hnext : panel_ok lines (mkPanel (panel_output panel)
      (fold_left push_new (column_headers (lower line)) (panel_columns panel))
      (header_lines panel ++ [line]) (panel_serving panel) (panel_readings panel) (panel_rows panel))).
    { destruct Hok as [Hc Hn Hh Hl Hd Hr].
      split; simpl; [done|done|set_solver|by destruct (header_lines panel)|by apply push_new_NoDup|done]. }
    case_match; [by apply record_serving_ok|done]. }
  destruct (_ || _); [case_match; [by apply record_serving_ok|done]|].
  destruct (classify (lower line)) as [[row unit]|].
  2:{ case_match; [by apply put_ok|done]. }
  destruct Hok as [Hc Hn Hh Hl Hd Hr]. unfold read_panel_row. split; simpl; [| |done|done|done|].
  - case_match; [|done]. unfold output_cites. by rewrite fail_fields.
  - case_match; [|done]. by apply fail_codes.
  - apply Forall_app. split; [done|]. case_match; [by apply read_spatial_row_lines|by apply read_row_lines].
Qed.

Lemma read_lines_ok lines rest panel :
  rest ⊆ lines → panel_ok lines panel →
  panel_ok lines (fold_left (read_line is_alphabetic hypot atan2 cos sin lines) rest panel).
Proof.
  revert panel. induction rest as [|line rest IH]; intros panel Hsub Hok; [done|]. simpl.
  apply IH; [set_solver|]. apply read_line_ok; [set_solver|done].
Qed.

Lemma record_readings_ok lines columns readings values output :
  Forall (λ r, reading_lines r ⊆ lines) readings → output_cites lines output →
  let out := (fold_left (record_reading columns) readings (values, output)).2 in
  output_cites lines out ∧ codes out = codes output
  ∧ ∀ name, is_Some (fields output !! name) → is_Some (fields out !! name).
Proof.
  intros Hall. revert values output. induction Hall as [|r readings Hr _ IH]; intros values output Hc; [done|].
  cbn [fold_left record_reading]. destruct (columns !! slot r) as [column|]; [|by apply IH].
  case_bool_decide; [by apply IH|].
  destruct (IH (<[(column, reading_nutrient r) := reading_amount r]> values)
    (put (field_name column (reading_nutrient r)) (json_number (round (reading_amount r))) (reading_lines r) output))
    as (H1 & H2 & H3); [by apply put_cites|].
  split_and!; [done|by rewrite H2, put_codes|]. intros name Hn. by apply H3, put_keeps.
Qed.

(** C33: an extracted label rests on what was observed.  Every field cites at least one
    line of the pages, with that line's page, outline and identifier, and has the least
    of the confidences of the lines it cites; no failure is reported twice; and either
    the label's columns are named by a field, or the result says that the panel was not
    found or that its columns were not identified. *)
Theorem extraction_cites_lines pages :
  let lines := panel_lines to_lowercase pages in
  let result := extract to_lowercase is_alphabetic hypot atan2 cos sin pages in
  let failures := (λ f, StableCode_str (failure_code f)) <$> extracted_failures result in
  map_Forall (λ _ value, cites lines value) (extracted_fields result)
  ∧ NoDup failures
  ∧ (is_Some (extracted_fields result !! "column_headers")
     ∨ "nutrition_panel_not_found" ∈ failures ∨ "nutrition_columns_unidentified" ∈ failures).
Proof.
  simpl. unfold extract. set (lines := panel_lines to_lowercase pages).
  assert (Hok : panel_ok lines (fold_left (read_line is_alphabetic hypot atan2 cos sin lines) lines
    (mkPanel (mkOutput ∅ []) [] [] None [] 0))).
  { apply read_lines_ok; [done|].
    split; simpl; [apply map_Forall_empty|constructor|set_solver|done|constructor|constructor]. }
  set (panel := fold_left _ lines _) in *. clearbody panel. cbn [extracted_fields extracted_failures].
  set (output := match locale lines with
                 | Some (locale, line) => put "locale" (TextValue locale) [line] (panel_output panel)
                 | None => panel_output panel
                 end).
  assert (Hout : output_cites lines output ∧ codes output = codes (panel_output panel)).
  { unfold output, locale. destruct (head _) as [[name line]|] eqn:Hl; [|by destruct Hok].
    split; [|by rewrite put_codes]. apply put_cites; [|by destruct Hok].
    apply head_Some_elem_of, list_elem_of_omap in Hl as ([marker name'] & _ & Hl).
    apply fmap_Some in Hl as (line' & Hl & [= -> ->]). apply find_some in Hl as [Hl _].
    apply list_elem_of_In in Hl. set_solver. }
  destruct Hout as [Hcites Hcodes]. destruct Hok as [_ Hn Hh Hl Hd Hr]. rewrite <- Hcodes in Hn.
  clearbody output. unfold finish_panel.
  destruct (panel_rows panel =? 0).
  { destruct (fail_codes "nutrition_panel_not_found" ValidationSeverity.Error output eq_refl Hn) as (H1 & H2 & _).
    rewrite fail_fields. split_and!; [done|done|auto]. }
  destruct (Nat.eqb_spec (length (panel_columns panel)) 0) as [|Hne].
  { destruct (fail_codes "nutrition_columns_unidentified" ValidationSeverity.Error output eq_refl Hn) as (H1 & H2 & _).
    rewrite fail_fields. split_and!; [done|done|auto]. }
  destruct (record_readings_ok lines (panel_columns panel) (panel_readings panel) ∅
    (put "column_headers" (HeadersValue (Column_key <$> panel_columns panel)) (header_lines panel) output))
    as (H1 & H2 & H3); [done|by apply put_cites|]. rewrite put_codes in H2.
  destruct (fold_left _ _ _) as [values out]. simpl in H1, H2, H3. rewrite validate_reports.
  destruct (report_all (conditions (panel_columns panel) values (panel_serving panel)) out
    (conditions_stable _ _ _)) as (Hf & _ & _ & Hdup). rewrite Hf. split_and!; [done| |].
  - apply Hdup. by rewrite H2.
  - left. apply H3, put_defined, Hl. by intros He; rewrite He in Hne.
Qed.
End Extraction.

(** ** Samples *)

(** Lower case and letters, for text in ASCII. *)
Fixpoint ascii_lowercase (s : string) : string :=
  match s with
  | EmptyString => EmptyString
  | String a s =>
      String (if is_ascii_uppercase a then ascii_of_N (Z.to_N (code a + 32)) else a) (ascii_lowercase s)
  end.
Definition ascii_letter (c : Z) : bool := contains 97 122 c || contains 65 90 c.

(** A rectangle in tenths. *)
Definition sample_box (left top right bottom : positive) : Polygon :=
  let at_ x y := mkNormalizedPoint (f64_dec x 1) (f64_dec y 1) in
  mkPolygon [at_ left top; at_ right top; at_ right bottom; at_ left bottom].

Definition sample_observation (order : nat) (text : string) (box : Polygon) : TextObservation :=
  mkTextObservation (mkObservationId ("obs_line" +:+ show_dec (Z.of_nat order))) Line text
    (mkConfidence (f64_dec 9 1)) box (Z.of_nat order) None.

Definition sample_label : list string :=
  ["NUTRITION INFORMATION"; "Servings per package: 8"; "Serving size: 30g";
   "Avg Quantity Per Serving Per 100g"; "Energy 540kJ (129Cal) 1800kJ (430Cal)"; "Protein 3.2g 10.7g";
   "Fat, total 1.5g 5.0g"; "- saturated 0.3g 1.0g"; "Carbohydrate 20.1g 67.0g"; "- sugars 4.5g 15.0g";
   "Dietary Fibre 3.0g 10.0g"; "Sodium 120mg 400mg"; "Ingredients: wholegrain oats, sugar.";
   "9300605000117"].

Definition sample_label_page : DocumentPage :=
  mkDocumentPage (mkPageNumber 1) 1000 1400
    (imap (λ i text, sample_observation i text (sample_box 1 1 9 2)) sample_label).

#[local] Notation flat_hypot := (λ x _ : f64, x).
#[local] Notation flat_atan2 := (λ _ _ : f64, f64_zero).
#[local] Notation flat_cos := (λ _ : f64, f64_one).
#[local] Notation flat_sin := (λ _ : f64, f64_zero).

#[local] Notation sample_extracted :=
  (extract ascii_lowercase ascii_letter flat_hypot flat_atan2 flat_cos flat_sin [sample_label_page]).

Example sample_panel_read :
  extracted_failures sample_extracted = []
  ∧ (extracted_value <$> extracted_fields sample_extracted !! "per_100g.protein_g")
    = Some (NumberValue (f64_dec 107 1))
  ∧ (extracted_value <$> extracted_fields sample_extracted !! "per_serving.sodium_mg")
    = Some (NumberValue (f64_of_Z 120))
  ∧ (extracted_value <$> extracted_fields sample_extracted !! "barcode")
    = Some (TextValue "9300605000117").
Proof. vm_compute. auto. Qed.

(** A comma before three digits separates thousands even after a zero. *)
Example decimal_comma_before_three_digits :
  quantity_amount <$> quantities ascii_letter (chars "0,125 g") = [f64_of_Z 125].
Proof. vm_compute. reflexivity. Qed.

Definition sample_values : Values :=
  {[(Per100g, Fat) := f64_of_Z 5; (Per100g, SaturatedFat) := f64_of_Z 7]}.

Lemma checks_only_report_witness :
  NoDup (codes (mkOutput ∅ [])) ∧
  ("saturated_fat_exceeds_fat" ∈ codes (validate [Per100g] sample_values None (mkOutput ∅ []))
   ↔ "saturated_fat_exceeds_fat" ∈ codes (mkOutput ∅ [])
     ∨ (true, "saturated_fat_exceeds_fat") ∈ conditions [Per100g] sample_values None).
Proof.
  assert (Hd : NoDup (codes (mkOutput ∅ []))) by constructor.
  split; [exact Hd|].
  destruct (checks_only_report [Per100g] sample_values None (mkOutput ∅ []) Hd) as (_ & _ & Hc & _).
  apply Hc.
Defined.

(** A label, a header above it to the right, and the cell below the header. *)
Definition sample_lines : list PanelLine :=
  imap (λ i e, mkPanelLine (mkPageNumber 1) (sample_observation i e.1 e.2) (chars e.1))
    [("protein", sample_box 1 4 3 5); ("per 100g", sample_box 5 1 7 2); ("10.5 g", sample_box 5 4 7 5)].

Definition sample_reading : Reading :=
  mkReading Protein 0 (f64_dec 105 1) (omap (λ i, sample_lines !! i) [0; 2; 1]%nat).

#[local] Notation sample_spatial label :=
  (read_spatial_row ascii_letter flat_hypot flat_atan2 flat_cos flat_sin (Mass Protein) None label
     sample_lines [Per100g]).

Lemma spatial_readings_in_column_witness :
  ∃ label, head sample_lines = Some label ∧ sample_reading ∈ sample_spatial label
  ∧ ∃ cell header column, reading_lines sample_reading = [label; cell; header]
    ∧ [Per100g] !! slot sample_reading = Some column ∧ column_headers (lower header) = [column].
Proof.
  destruct (head sample_lines) as [label|] eqn:Hl; [|by vm_compute in Hl].
  assert (Hin : sample_reading ∈ sample_spatial label).
  { vm_compute in Hl. injection Hl as <-. vm_compute. left. }
  exists label. split; [done|]. split; [exact Hin|].
  destruct (spatial_readings_in_column ascii_letter flat_hypot flat_atan2 flat_cos flat_sin
    (Mass Protein) None label sample_lines [Per100g] sample_reading Hin)
    as (cell & header & column & H1 & H2 & H3 & _).
  exists cell, header, column. auto.
Defined.
