(* ===== verification/ModelProfile.v ===== *)
(** * ModelProfile: signed model profiles of the OCR engine

    Models [ocr-engine/src/model_profile.rs]: the trusted keys, the verification of a
    signed profile, the validation of its contents with the memory its tensors may take,
    and the check of a model artifact.  Ed25519, SHA-256 and the reading of JSON are
    arguments.

    The tensors of an accepted profile have distinct names and bounded memory, computed
    without overflow; a model artifact that passes is the one that a trusted key signed. *)

From S2P Require Import Prelude Text Digest Engine.

#[local] Open Scope list_scope.
#[local] Open Scope Z_scope.

Definition MAXIMUM_MODEL_PROFILE_BYTES : Z := 64 * 1024.
Definition MAXIMUM_TENSORS : Z := 16.
Definition MAXIMUM_TENSOR_RANK : Z := 8.
Definition MAXIMUM_TENSOR_DIMENSION : Z := 65536.
Definition MAXIMUM_TENSOR_BYTES : Z := 64 * 1024 * 1024.
Definition MAXIMUM_PROFILE_TENSOR_BYTES : Z := 128 * 1024 * 1024.

#[local] Notation invalid := EngineError.InvalidModelProfile.

(** ** Names *)

(** [value.bytes().enumerate().all(..)]: the first byte and the others. *)
Definition first_and_others (first others : ascii → bool) (value : string) : bool :=
  match value with
  | EmptyString => true
  | String a value => first a && all_bytes others value
  end.

Definition valid_sha256 (value : string) : bool :=
  (strlen value =? 71)
  && match strip_prefix "sha256:" value with
     | Some digits => all_bytes (λ a, is_ascii_digit a || contains 97 102 (code a)) digits
     | None => false
     end.

Definition valid_identifier (value : string) : bool :=
  let own a := is_ascii_lowercase a || is_ascii_digit a in
  contains 1 64 (strlen value)
  && first_and_others own (λ a, own a || byte_in "._-" a) value
  && is_some_and is_ascii_alphanumeric (last_byte value).

Definition valid_version_part (part : string) : bool :=
  negb (is_empty part) && (strlen part <=? 5) && all_bytes is_ascii_digit part
  && (String.eqb part "0" || negb (starts_with_str "0" part)).

Definition valid_semantic_version (value : string) : bool :=
  let parts := split_on "." value in
  (zlen parts =? 3) && forallb valid_version_part parts.

Definition valid_license_id (value : string) : bool :=
  contains 1 128 (strlen value) && is_trimmed value
  && all_bytes (λ a, is_ascii_alphanumeric a || byte_in ".-+() " a) value.

Definition valid_locale (value : string) : bool :=
  contains 2 32 (strlen value)
  && first_and_others is_ascii_alphabetic (λ a, is_ascii_alphabetic a || Ascii.eqb a "-") value
  && is_some_and is_ascii_alphabetic (last_byte value).

Definition valid_tensor_name (value : string) : bool :=
  contains 1 64 (strlen value)
  && first_and_others is_ascii_alphanumeric (λ a, is_ascii_alphanumeric a || Ascii.eqb a "_") value
  && is_some_and is_ascii_alphabetic (first_byte value).

(** ** Tensors *)

Inductive TensorDataType := Float32 | Int64.

Definition byte_width (data_type : TensorDataType) : Z :=
  match data_type with Float32 => 4 | Int64 => 8 end.

Inductive TensorDimension := Fixed (value : Z) | Dynamic (maximum : Z).

Definition dimension_maximum (dimension : TensorDimension) : Z :=
  match dimension with Fixed value => value | Dynamic maximum => maximum end.

Definition is_invalid (dimension : TensorDimension) : bool :=
  match dimension with
  | Fixed value => (value =? 0) || (MAXIMUM_TENSOR_DIMENSION <? value)
  | Dynamic maximum => (maximum =? 0) || (MAXIMUM_TENSOR_DIMENSION <? maximum)
  end.

Record TensorContract := mkTensorContract {
  tensor_name : string;
  data_type : TensorDataType;
  dimensions : list TensorDimension;
}.

Record RawTensorContract := mkRawTensorContract {
  raw_tensor_name : string;
  raw_data_type : TensorDataType;
  raw_dimensions : list TensorDimension;
}.

Definition TensorContract_try_from (value : RawTensorContract) : EngineResult TensorContract :=
  if negb (valid_tensor_name (raw_tensor_name value)) || (zlen (raw_dimensions value) =? 0)
     || (MAXIMUM_TENSOR_RANK <? zlen (raw_dimensions value))
     || existsb is_invalid (raw_dimensions value)
  then Err invalid
  else Ok (mkTensorContract (raw_tensor_name value) (raw_data_type value) (raw_dimensions value)).

(** A sorted list in which two neighbours are equal. *)
Definition has_duplicates (values : list string) : bool :=
  any_adjacent String.eqb (sort_by string_le values).

Definition validate_tensors (values : list RawTensorContract) : EngineResult (list TensorContract) :=
  if (zlen values =? 0) || (MAXIMUM_TENSORS <? zlen values) then Err invalid
  else
    let? tensors := collect_results TensorContract_try_from values in
    if has_duplicates (tensor_name <$> tensors) then Err invalid else Ok tensors.

(** [try_fold] with [checked_mul]. *)
Fixpoint checked_elements (total : Z) (dimensions : list TensorDimension) : option Z :=
  match dimensions with
  | [] => Some total
  | dimension :: dimensions =>
      total ← checked_mul u64_max total (dimension_maximum dimension);
      checked_elements total dimensions
  end.

(** The loop of [validate_tensor_envelope]. *)
Fixpoint check_envelope (total_bytes : Z) (tensors : list TensorContract) : EngineResult () :=
  match tensors with
  | [] => Ok ()
  | tensor :: tensors =>
      let? elements := ok_or (checked_elements 1 (dimensions tensor)) invalid in
      let? bytes := ok_or (checked_mul u64_max elements (byte_width (data_type tensor))) invalid in
      if MAXIMUM_TENSOR_BYTES <? bytes then Err invalid
      else
        let? total_bytes := ok_or (checked_add u64_max total_bytes bytes) invalid in
        if MAXIMUM_PROFILE_TENSOR_BYTES <? total_bytes then Err invalid
        else check_envelope total_bytes tensors
  end.

Definition validate_tensor_envelope (inputs outputs : list TensorContract) : EngineResult () :=
  check_envelope 0 (inputs ++ outputs).

Definition validate_locales (values : list string) : EngineResult (list string) :=
  if (zlen values =? 0) || (MAXIMUM_TENSORS <? zlen values)
     || existsb (λ value, negb (valid_locale value)) values
  then Err invalid
  else
    let unique := sort_by string_le values in
    if any_adjacent String.eqb unique then Err invalid else Ok unique.

(** ** Profiles *)

Inductive ModelStage := Detector | Recognizer.
Inductive ExecutionProfile := Cpu | Cuda | TensorRt.

Record ModelProfile := mkModelProfile {
  profile_id : string;
  stage : ModelStage;
  model_version : string;
  artifact_digest : string;
  license_id : string;
  dataset_version : string;
  calibration_version : string;
  execution_profile : ExecutionProfile;
  runtime_contract_version : string;
  supported_locales : list string;
  rollback_predecessor : option string;
  inputs : list TensorContract;
  outputs : list TensorContract;
}.

Record RawModelProfile := mkRawModelProfile {
  raw_schema_version : Z;
  raw_profile_id : string;
  raw_stage : ModelStage;
  raw_model_version : string;
  raw_artifact_digest : string;
  raw_license_id : string;
  raw_dataset_version : string;
  raw_calibration_version : string;
  raw_execution_profile : ExecutionProfile;
  raw_runtime_contract_version : string;
  raw_supported_locales : list string;
  raw_rollback_predecessor : option string;
  raw_inputs : list RawTensorContract;
  raw_outputs : list RawTensorContract;
}.

Definition invalid_names (value : RawModelProfile) : bool :=
  negb (raw_schema_version value =? 1) || negb (valid_identifier (raw_profile_id value))
  || negb (valid_semantic_version (raw_model_version value))
  || negb (valid_sha256 (raw_artifact_digest value)) || negb (valid_license_id (raw_license_id value))
  || negb (valid_identifier (raw_dataset_version value))
  || negb (valid_identifier (raw_calibration_version value))
  || negb (valid_semantic_version (raw_runtime_contract_version value))
  || is_some_and (λ digest, negb (valid_sha256 digest) || String.eqb digest (raw_artifact_digest value))
       (raw_rollback_predecessor value).

Definition ModelProfile_try_from (value : RawModelProfile) : EngineResult ModelProfile :=
  if invalid_names value then Err invalid
  else
    let? inputs := validate_tensors (raw_inputs value) in
    let? outputs := validate_tensors (raw_outputs value) in
    let? _ := validate_tensor_envelope inputs outputs in
    let? supported_locales := validate_locales (raw_supported_locales value) in
    if existsb (λ input, existsb (λ output, String.eqb (tensor_name output) (tensor_name input)) outputs)
         inputs
    then Err invalid
    else
      Ok (mkModelProfile (raw_profile_id value) (raw_stage value) (raw_model_version value)
            (raw_artifact_digest value) (raw_license_id value) (raw_dataset_version value)
            (raw_calibration_version value) (raw_execution_profile value)
            (raw_runtime_contract_version value) supported_locales (raw_rollback_predecessor value)
            inputs outputs).

(** ** Keys, profiles and artifacts *)

Record ArtifactLimits := mkArtifactLimits { maximum_bytes : Z }.

Definition ArtifactLimits_new (maximum_bytes : Z) : EngineResult ArtifactLimits :=
  if maximum_bytes =? 0 then Err EngineError.InvalidLimit else Ok (mkArtifactLimits maximum_bytes).

Section Verifier.
Context {VerifyingKey : Type} (from_bytes : list Z → option VerifyingKey).
Context (verify_strict : VerifyingKey → list Z → list Z → bool).
Context (sha256 : list Z → list Z).
(** [serde_json::from_slice::<RawModelProfile>]. *)
Context (parse_profile : list Z → option RawModelProfile).

Record TrustedModelKey := mkTrustedModelKey { key_id : string; verifying_key : VerifyingKey }.

Definition TrustedModelKey_new (id : string) (public_key : list Z) : EngineResult TrustedModelKey :=
  if negb (valid_identifier id) then Err EngineError.InvalidTrustedModelKey
  else
    let? key := ok_or (from_bytes public_key) EngineError.InvalidTrustedModelKey in
    Ok (mkTrustedModelKey id key).

Record ModelProfileVerifier := mkModelProfileVerifier { keys : gmap string VerifyingKey }.

(** The loop of [ModelProfileVerifier::new]. *)
Fixpoint trust_keys (trusted : gmap string VerifyingKey) (keys : list TrustedModelKey)
    : EngineResult (gmap string VerifyingKey) :=
  match keys with
  | [] => Ok trusted
  | key :: keys =>
      if bool_decide (is_Some (trusted !! key_id key)) then Err EngineError.InvalidTrustedModelKey
      else trust_keys (<[key_id key := verifying_key key]> trusted) keys
  end.

Definition ModelProfileVerifier_new (keys : list TrustedModelKey) : EngineResult ModelProfileVerifier :=
  if zlen keys =? 0 then Err EngineError.InvalidTrustedModelKey
  else let? trusted := trust_keys ∅ keys in Ok (mkModelProfileVerifier trusted).

Record VerifiedModelProfile := mkVerifiedModelProfile {
  verified_profile : ModelProfile;
  profile_digest : string;
}.

(** [sha256] of the module: the hexadecimal digest with its prefix. *)
Definition profile_sha256 (value : list Z) : string := "sha256:" +:+ hex_encode (sha256 value).

Definition verify_profile (self : ModelProfileVerifier) (key_id : string) (manifest_bytes signature_bytes : list Z)
    : EngineResult VerifiedModelProfile :=
  if MAXIMUM_MODEL_PROFILE_BYTES <? zlen manifest_bytes
  then Err (EngineError.ModelProfileByteLimitExceeded (zlen manifest_bytes) MAXIMUM_MODEL_PROFILE_BYTES)
  else
    let? key := ok_or (keys self !! key_id) EngineError.UnknownModelSigningKey in
    if negb (verify_strict key manifest_bytes signature_bytes) then Err EngineError.InvalidModelSignature
    else
      let? raw := ok_or (parse_profile manifest_bytes) invalid in
      let? profile := ModelProfile_try_from raw in
      Ok (mkVerifiedModelProfile profile (profile_sha256 manifest_bytes)).

Definition verify_artifact (self : VerifiedModelProfile) (artifact : list Z) (limits : ArtifactLimits)
    : EngineResult () :=
  if maximum_bytes limits <? zlen artifact
  then Err (EngineError.ModelArtifactByteLimitExceeded (zlen artifact) (maximum_bytes limits))
  else if String.eqb (profile_sha256 artifact) (artifact_digest (verified_profile self)) then Ok ()
  else Err EngineError.ModelArtifactDigestMismatch.
End Verifier.

(** ** Duplicates *)

Lemma sorted_distinct_NoDup (l : list string) :
  StronglySorted (λ a b, string_le a b = true) l → any_adjacent String.eqb l = false → NoDup l.
Proof.
  intros Hs Hadj. apply any_adjacent_false in Hadj.
  induction Hs as [|a l Hs IH Hall]; constructor.
  - intros Hin. inversion Hadj as [|? ? Hadj' Hhead]; subst. destruct l as [|b l]; [by apply elem_of_nil in Hin|].
    inversion Hhead as [|? ? Hne]; subst. apply String.eqb_neq in Hne. apply Hne.
    inversion Hall as [|? ? Hab _]; subst. apply string_le_antisym; [done|].
    apply elem_of_cons in Hin as [->|Hin]; [done|].
    apply StronglySorted_inv in Hs as [_ Hb]. by apply (proj1 (Forall_forall _ _) Hb).
  - apply IH. by inversion Hadj.
Qed.

Lemma string_sort_sorted (l : list string) :
  StronglySorted (λ a b, string_le a b = true) (sort_by string_le l).
Proof. apply sort_by_StronglySorted; [apply string_le_total|apply string_le_trans]. Qed.

Lemma has_duplicates_false (l : list string) : has_duplicates l = false → NoDup l.
Proof.
  intros H. rewrite <- (sort_by_Permutation string_le l).
  apply sorted_distinct_NoDup; [apply string_sort_sorted|done].
Qed.

(** ** Tensors *)

Definition dimension_ok (dimension : TensorDimension) : Prop :=
  1 ≤ dimension_maximum dimension ≤ MAXIMUM_TENSOR_DIMENSION.

Record tensor_ok (tensor : TensorContract) : Prop := {
  tensor_named : valid_tensor_name (tensor_name tensor) = true;
  tensor_rank : 1 ≤ zlen (dimensions tensor) ≤ MAXIMUM_TENSOR_RANK;
  tensor_dimensions : Forall dimension_ok (dimensions tensor);
}.

(** The bytes of a tensor at its largest. *)
Definition elements (dimensions : list TensorDimension) : Z :=
  foldr (λ d total, dimension_maximum d * total) 1 dimensions.
Definition tensor_bytes (tensor : TensorContract) : Z :=
  elements (dimensions tensor) * byte_width (data_type tensor).
Definition total_bytes (tensors : list TensorContract) : Z :=
  foldr (λ tensor total, tensor_bytes tensor + total) 0 tensors.

Lemma elements_positive dims : Forall dimension_ok dims → 1 ≤ elements dims.
Proof. induction 1 as [|d dims [Hd _] _ IH]; simpl; [lia|]. fold (elements dims). nia. Qed.

Lemma tensor_bytes_positive tensor : tensor_ok tensor → 1 ≤ tensor_bytes tensor.
Proof.
  intros [_ _ Hd]. apply elements_positive in Hd. unfold tensor_bytes, byte_width.
  destruct (data_type tensor); lia.
Qed.

Lemma checked_elements_Some total dims n :
  1 ≤ total ≤ u64_max → Forall dimension_ok dims →
  checked_elements total dims = Some n ↔ n = total * elements dims ∧ total * elements dims ≤ u64_max.
Proof.
  intros Ht Hall. revert total Ht. induction Hall as [|d dims [Hd Hd'] Hall IH]; intros total Ht; cbn [checked_elements].
  { simpl. rewrite Z.mul_1_r. naive_solver. }
  cbn [elements foldr]. fold (elements dims). pose proof (elements_positive dims Hall) as He.
  unfold checked_mul. destruct (checked u64_max (total * dimension_maximum d)) as [t|] eqn:Hc; simpl.
  - apply checked_Some in Hc as [-> Hc]. unfold in_width in Hc. rewrite IH by nia.
    by rewrite Z.mul_assoc.
  - split; [done|]. intros [_ Hle]. exfalso.
    assert (in_width u64_max (total * dimension_maximum d)) as Hw by (unfold in_width; nia).
    apply checked_in_width in Hw. congruence.
Qed.

Lemma check_envelope_Ok total tensors :
  0 ≤ total ≤ MAXIMUM_PROFILE_TENSOR_BYTES → Forall tensor_ok tensors →
  check_envelope total tensors = Ok () ↔
  Forall (λ tensor, tensor_bytes tensor ≤ MAXIMUM_TENSOR_BYTES) tensors
  ∧ total + total_bytes tensors ≤ MAXIMUM_PROFILE_TENSOR_BYTES.
Proof.
  intros Ht Hall. revert total Ht. induction Hall as [|tensor tensors Htensor Hall IH]; intros total Ht.
  { simpl. rewrite Forall_nil, Z.add_0_r. naive_solver lia. }
  cbn [check_envelope total_bytes foldr]. fold (total_bytes tensors). rewrite Forall_cons.
  pose proof (tensor_bytes_positive tensor Htensor) as Hpos. destruct Htensor as [_ _ Hdims].
  pose proof (elements_positive _ Hdims) as Helem.
  assert (Hrest : 0 ≤ total_bytes tensors).
  { clear -Hall. induction Hall as [|t ts Htk _ IH]; simpl; [done|]. apply tensor_bytes_positive in Htk.
    fold (total_bytes ts). lia. }
  destruct (Z.le_gt_cases (tensor_bytes tensor) MAXIMUM_TENSOR_BYTES) as [Hle|Hgt].
  - unfold MAXIMUM_TENSOR_BYTES, MAXIMUM_PROFILE_TENSOR_BYTES in *. unfold tensor_bytes in Hle, Hpos.
    assert (Hwidth : 4 ≤ byte_width (data_type tensor) ≤ 8) by (destruct (data_type tensor); simpl; lia).
    rewrite (proj2 (checked_elements_Some 1 (dimensions tensor) (elements (dimensions tensor))
      ltac:(unfold u64_max; lia) Hdims)) by (unfold u64_max; nia).
    simpl. unfold checked_mul. rewrite checked_in_width by (unfold in_width, u64_max; lia). simpl.
    rewrite (proj2 (Z.ltb_ge _ _)) by lia. unfold checked_add.
    rewrite checked_in_width by (unfold in_width, u64_max; lia). simpl. fold (tensor_bytes tensor).
    destruct (Z.ltb_spec (64 * 1024 * 1024 * 2) (total + tensor_bytes tensor)) as [Hover|Hin].
    + rewrite (proj2 (Z.ltb_lt _ _)) by lia. split; [done|]. lia.
    + rewrite (proj2 (Z.ltb_ge _ _)) by lia. rewrite IH by (unfold tensor_bytes in *; lia).
      unfold tensor_bytes in *. split; intros [H1 H2]; [split; [split|]|split; [apply H1|]]; (done || lia).
  - split; [|intros [[Hle _] _]; lia]. intros H. exfalso.
    apply and_then_Ok in H as (n & Hn & H). apply ok_or_Ok, checked_elements_Some in Hn as [-> _];
      [|unfold u64_max; lia|done]. rewrite Z.mul_1_l in H.
    apply and_then_Ok in H as (bytes & Hb & H). apply ok_or_Ok, checked_Some in Hb as [-> _].
    fold (tensor_bytes tensor) in H. by rewrite (proj2 (Z.ltb_lt _ _) Hgt) in H.
Qed.

(** The memory of a model's tensors is bounded without overflow: tensors with valid
    dimensions are accepted exactly when each, at its largest, takes at most 64 MiB and
    all inputs and outputs together at most 128 MiB; a product that would not fit in 64
    bits is never mistaken for a small one. *)
Theorem tensor_memory_bounded inputs outputs :
  Forall tensor_ok (inputs ++ outputs) →
  validate_tensor_envelope inputs outputs = Ok () ↔
  Forall (λ tensor, tensor_bytes tensor ≤ MAXIMUM_TENSOR_BYTES) (inputs ++ outputs)
  ∧ total_bytes (inputs ++ outputs) ≤ MAXIMUM_PROFILE_TENSOR_BYTES.
Proof. intros Hall. apply check_envelope_Ok; [done|done]. Qed.

(** ** Profiles *)

(** What serde makes of the dimensions: [u32] values. *)
Definition raw_tensor_width (value : RawTensorContract) : Prop :=
  Forall (λ d, in_width u32_max (dimension_maximum d)) (raw_dimensions value).

Record profile_ok (p : ModelProfile) : Prop := {
  profile_tensors : Forall tensor_ok (inputs p ++ outputs p);
  profile_names : NoDup (tensor_name <$> inputs p ++ outputs p);
  profile_inputs : 1 ≤ zlen (inputs p) ≤ MAXIMUM_TENSORS;
  profile_outputs : 1 ≤ zlen (outputs p) ≤ MAXIMUM_TENSORS;
  profile_tensor_memory : Forall (λ tensor, tensor_bytes tensor ≤ MAXIMUM_TENSOR_BYTES) (inputs p ++ outputs p);
  profile_memory : total_bytes (inputs p ++ outputs p) ≤ MAXIMUM_PROFILE_TENSOR_BYTES;
  profile_locales : StronglySorted (λ a b, string_le a b = true) (supported_locales p)
    ∧ NoDup (supported_locales p) ∧ Forall (λ l, valid_locale l = true) (supported_locales p)
    ∧ 1 ≤ zlen (supported_locales p) ≤ MAXIMUM_TENSORS;
  profile_digest_valid : valid_sha256 (artifact_digest p) = true;
  profile_rollback : ∀ digest, rollback_predecessor p = Some digest →
    valid_sha256 digest = true ∧ digest ≠ artifact_digest p;
}.

Lemma TensorContract_try_from_Ok value tensor :
  raw_tensor_width value → TensorContract_try_from value = Ok tensor → tensor_ok tensor.
Proof.
  intros Hwidth. unfold TensorContract_try_from. destruct (_ || _) eqn:Hbad; [done|]. intros [= <-].
  rewrite !orb_false_iff, negb_false_iff, Z.eqb_neq, Z.ltb_ge in Hbad. destruct Hbad as [[[Hn H0] Hr] Hd].
  pose proof (zlen_nonneg (raw_dimensions value)).
  split; simpl; [done|lia|]. apply Forall_forall. intros d Hin.
  pose proof (proj1 (Forall_forall _ _) Hwidth d Hin) as [Hpos _]. unfold dimension_ok.
  assert (is_invalid d = false) as Hd'.
  { destruct (is_invalid d) eqn:Hi; [|done].
    assert (existsb is_invalid (raw_dimensions value) = true); [|congruence].
    apply existsb_exists. exists d. split; [by apply list_elem_of_In|done]. }
  destruct d; simpl in *; apply orb_false_iff in Hd' as [H1 H2]; apply Z.eqb_neq in H1;
    apply Z.ltb_ge in H2; lia.
Qed.

Lemma validate_tensors_Ok values tensors :
  Forall raw_tensor_width values → validate_tensors values = Ok tensors →
  Forall tensor_ok tensors ∧ NoDup (tensor_name <$> tensors) ∧ 1 ≤ zlen tensors ≤ MAXIMUM_TENSORS.
Proof.
  intros Hwidth. unfold validate_tensors.
  destruct (Z.eqb_spec (zlen values) 0) as [|H0]; [done|].
  destruct (Z.ltb_spec MAXIMUM_TENSORS (zlen values)) as [|Hmax]; [done|]. simpl.
  intros (ts & Hts & H)%and_then_Ok. destruct (has_duplicates _) eqn:Hd; [done|]. injection H as <-.
  pose proof (collect_results_length _ _ _ Hts) as Hlen. apply collect_results_Ok in Hts.
  pose proof (zlen_nonneg values). split_and!; [|by apply has_duplicates_false|unfold zlen in *; lia..].
  clear -Hwidth Hts. induction Hts as [|v t vs ts Ht _ IH]; [constructor|].
  inversion Hwidth; subst. constructor; [by eapply TensorContract_try_from_Ok|by apply IH].
Qed.

Lemma validate_locales_Ok values locales :
  validate_locales values = Ok locales →
  StronglySorted (λ a b, string_le a b = true) locales ∧ NoDup locales
  ∧ Forall (λ l, valid_locale l = true) locales ∧ 1 ≤ zlen locales ≤ MAXIMUM_TENSORS.
Proof.
  unfold validate_locales. destruct (_ || _) eqn:Hbad; [done|].
  rewrite !orb_false_iff, Z.eqb_neq, Z.ltb_ge in Hbad. destruct Hbad as [[H0 Hmax] Hv].
  destruct (any_adjacent _ _) eqn:Hd; [done|]. intros [= <-].
  pose proof (zlen_nonneg values). split_and!.
  - apply string_sort_sorted.
  - apply sorted_distinct_NoDup; [apply string_sort_sorted|done].
  - apply Forall_sort_by, Forall_forall. intros l Hl. destruct (valid_locale l) eqn:Hvl; [done|].
    assert (existsb (λ value, negb (valid_locale value)) values = true); [|congruence].
    apply existsb_exists. exists l. rewrite Hvl. split; [by apply list_elem_of_In|done].
  - unfold zlen in *. rewrite sort_by_length. lia.
  - unfold zlen in *. rewrite sort_by_length. lia.
Qed.

(** An accepted profile is well formed: its one to sixteen inputs and one to sixteen
    outputs have valid dimensions and pairwise distinct names, across both lists; their
    memory is within the limits; its locales are valid, sorted and distinct; and it never
    names its own artifact as the one to roll back to. *)
Theorem accepted_profile_wellformed raw p :
  Forall raw_tensor_width (raw_inputs raw ++ raw_outputs raw) →
  ModelProfile_try_from raw = Ok p →
  profile_ok p.
Proof.
  intros [Hwi Hwo]%Forall_app. unfold ModelProfile_try_from.
  destruct (invalid_names raw) eqn:Hnames; [done|]. intros (ins & Hins & H)%and_then_Ok.
  apply and_then_Ok in H as (outs & Houts & H). apply and_then_Ok in H as (u & Henv & H).
  apply and_then_Ok in H as (locales & Hloc & H). destruct (existsb _ ins) eqn:Hshared; [done|].
  injection H as <-. destruct u.
  apply validate_tensors_Ok in Hins as (Hi & Hin & Hil); [|done].
  apply validate_tensors_Ok in Houts as (Ho & Hon & Hol); [|done].
  assert (Hall : Forall tensor_ok (ins ++ outs)) by by apply Forall_app.
  apply check_envelope_Ok in Henv as [Hmem Htotal]; [|done|done].
  unfold invalid_names in Hnames. rewrite !orb_false_iff, !negb_false_iff in Hnames.
  destruct Hnames as [[[[[[[[_ _] _] Hsha] _] _] _] _] Hroll].
  split; simpl; [done| |done|done|done|done|by apply validate_locales_Ok in Hloc|done|].
  - rewrite fmap_app. apply NoDup_app. split_and!; [done| |done]. intros name Hn Hn'.
    apply list_elem_of_fmap in Hn as (input & -> & Hinput).
    apply list_elem_of_fmap in Hn' as (output & Heq & Houtput).
    assert (existsb (λ input, existsb (λ output, String.eqb (tensor_name output) (tensor_name input)) outs)
              ins = true); [|congruence].
    apply existsb_exists. exists input. split; [by apply list_elem_of_In|].
    apply existsb_exists. exists output. split; [by apply list_elem_of_In|]. by apply String.eqb_eq.
  - intros digest Hd. rewrite Hd in Hroll. simpl in Hroll. apply orb_false_iff in Hroll as [H1 H2].
    apply negb_false_iff in H1. apply String.eqb_neq in H2. done.
Qed.

(** ** Artifacts *)

Section Verifier.
Context {VerifyingKey : Type}.
Context (verify_strict : VerifyingKey → list Z → list Z → bool).
Context (sha256 : list Z → list Z).
Context (parse_profile : list Z → option RawModelProfile).
(** A digest is bytes. *)
Hypothesis digest_bytes : ∀ value, Forall (λ b, 0 ≤ b < 256) (sha256 value).

Lemma profile_sha256_inj a b : profile_sha256 sha256 a = profile_sha256 sha256 b → sha256 a = sha256 b.
Proof. unfold profile_sha256. simpl. intros [= H]. by apply hex_encode_inj. Qed.

Lemma trust_keys_lookup (trusted : gmap string VerifyingKey) keys out id key :
  trust_keys trusted keys = Ok out → out !! id = Some key →
  trusted !! id = Some key ∨ mkTrustedModelKey id key ∈ keys.
Proof.
  revert trusted. induction keys as [|k keys IH]; intros trusted; simpl; [intros [= <-]; by left|].
  case_bool_decide; [done|]. intros Hk Hid. destruct (IH _ Hk Hid) as [Hl|Hin]; [|right; by right].
  destruct (decide (key_id k = id)) as [<-|Hne].
  - rewrite lookup_insert_eq in Hl. injection Hl as <-. right. destruct k. simpl. set_solver.
  - rewrite lookup_insert_ne in Hl by done. by left.
Qed.

(** C34: only a signed model runs: when a profile is verified and an artifact passes it, a
    trusted key with the given identifier signed exactly these bytes of the profile, at
    most 64 KiB of them; the profile is recorded under the digest of its bytes and is
    what they say; the artifact is within its limit and has the digest that the signed
    profile names, so that any two artifacts that pass have the same SHA-256. *)
Theorem verified_artifact_is_signed trusted self id manifest signature vp artifact limits :
  ModelProfileVerifier_new (VerifyingKey := VerifyingKey) trusted = Ok self →
  verify_profile verify_strict sha256 parse_profile self id manifest signature = Ok vp →
  verify_artifact sha256 vp artifact limits = Ok () →
  (∃ key, mkTrustedModelKey id key ∈ trusted ∧ verify_strict key manifest signature = true)
  ∧ zlen manifest ≤ MAXIMUM_MODEL_PROFILE_BYTES
  ∧ profile_digest vp = profile_sha256 sha256 manifest
  ∧ (∃ raw, parse_profile manifest = Some raw ∧ ModelProfile_try_from raw = Ok (verified_profile vp)
     ∧ profile_sha256 sha256 artifact = raw_artifact_digest raw)
  ∧ zlen artifact ≤ maximum_bytes limits
  ∧ ∀ artifact' limits', verify_artifact sha256 vp artifact' limits' = Ok () →
      sha256 artifact' = sha256 artifact.
Proof.
  unfold ModelProfileVerifier_new. destruct (_ =? 0); [done|]. intros (keys & Hkeys & [= <-])%and_then_Ok.
  unfold verify_profile.
  destruct (Z.ltb_spec MAXIMUM_MODEL_PROFILE_BYTES (zlen manifest)) as [|Hsize]; [done|].
  intros (key & Hkey & H)%and_then_Ok. apply ok_or_Ok in Hkey. simpl in Hkey.
  destruct (verify_strict key manifest signature) eqn:Hsig; [|done]. simpl in H.
  apply and_then_Ok in H as (raw & Hraw & H). apply ok_or_Ok in Hraw.
  apply and_then_Ok in H as (p & Hp & [= <-]).
  assert (Hart : ∀ a l, verify_artifact sha256 (mkVerifiedModelProfile p (profile_sha256 sha256 manifest)) a l = Ok () →
    zlen a ≤ maximum_bytes l ∧ profile_sha256 sha256 a = artifact_digest p).
  { intros a l. unfold verify_artifact. destruct (Z.ltb_spec (maximum_bytes l) (zlen a)); [done|].
    destruct (String.eqb _ _) eqn:He; [|done]. apply String.eqb_eq in He. done. }
  intros [Hlen Hdig]%Hart. split_and!; [|done|done| |done|].
  - exists key. split; [|done]. by destruct (trust_keys_lookup _ _ _ _ _ Hkeys Hkey).
  - exists raw. split_and!; [done|done|]. rewrite Hdig. unfold ModelProfile_try_from in Hp.
    destruct (invalid_names raw); [done|]. repeat (apply and_then_Ok in Hp as (? & _ & Hp)).
    destruct (existsb _ _); [done|]. by injection Hp as <-.
  - intros a' l' [_ Hdig']%Hart. apply profile_sha256_inj. congruence.
Qed.
End Verifier.

(** ** Samples *)

Definition sample_tensor (name : string) : RawTensorContract :=
  mkRawTensorContract name Float32 [Dynamic 8; Fixed 3; Fixed 640; Fixed 640].

Definition sample_artifact_digest : string :=
  "sha256:0000000000000000000000000000000000000000000000000000000000000001".

Definition sample_raw_profile : RawModelProfile :=
  mkRawModelProfile 1 "text-detector" Detector "1.2.0" sample_artifact_digest "Apache-2.0" "ocr-set.4"
    "cal-1" Cpu "1.0.0" ["hi-IN"; "en"] None [sample_tensor "image"] [sample_tensor "regions"].

Definition sample_tensors : list TensorContract :=
  [mkTensorContract "image" Float32 [Dynamic 8; Fixed 3; Fixed 640; Fixed 640];
   mkTensorContract "regions" Float32 [Dynamic 8; Fixed 3; Fixed 640; Fixed 640]].

Lemma sample_tensors_ok : Forall tensor_ok sample_tensors.
Proof.
  assert (Hdims : Forall dimension_ok [Dynamic 8; Fixed 3; Fixed 640; Fixed 640]).
  { unfold dimension_ok, MAXIMUM_TENSOR_DIMENSION. do 4 (apply Forall_cons_2; [simpl; lia|]). constructor. }
  do 2 (apply Forall_cons_2; [split; [reflexivity|vm_compute; split; discriminate|exact Hdims]|]).
  constructor.
Qed.

Lemma tensor_memory_bounded_witness :
  validate_tensor_envelope (take 1 sample_tensors) (drop 1 sample_tensors) = Ok ().
Proof.
  apply (tensor_memory_bounded (take 1 sample_tensors) (drop 1 sample_tensors) sample_tensors_ok).
  split; [repeat constructor; vm_compute; discriminate|vm_compute; discriminate].
Defined.

Definition sample_verified : ModelProfile :=
  mkModelProfile "text-detector" Detector "1.2.0" sample_artifact_digest "Apache-2.0" "ocr-set.4" "cal-1"
    Cpu "1.0.0" ["en"; "hi-IN"] None (take 1 sample_tensors) (drop 1 sample_tensors).

Lemma accepted_profile_wellformed_witness :
  ModelProfile_try_from sample_raw_profile = Ok sample_verified ∧ profile_ok sample_verified.
Proof.
  assert (Hp : ModelProfile_try_from sample_raw_profile = Ok sample_verified) by (vm_compute; reflexivity).
  split; [exact Hp|]. apply (accepted_profile_wellformed sample_raw_profile sample_verified); [|exact Hp].
  repeat constructor; vm_compute; discriminate.
Defined.

Definition sample_digest_bytes (value : list Z) : list Z :=
  repeat 0 31 ++ [zlen value mod 256].

Lemma sample_digest_bytes_ok value : Forall (λ b, 0 ≤ b < 256) (sample_digest_bytes value).
Proof.
  apply Forall_app. split; [repeat constructor; done|]. constructor; [|constructor].
  apply Z.mod_pos_bound. done.
Qed.

Lemma verified_artifact_is_signed_witness :
  ∃ vp, verify_profile (λ _ _ _, true) sample_digest_bytes (λ _, Some sample_raw_profile)
          (mkModelProfileVerifier {["release" := ()]}) "release" [1; 2] [3] = Ok vp
  ∧ verify_artifact sample_digest_bytes vp [7] (mkArtifactLimits 10) = Ok ()
  ∧ zlen [1; 2] ≤ MAXIMUM_MODEL_PROFILE_BYTES.
Proof.
  assert (Hnew : ModelProfileVerifier_new [mkTrustedModelKey "release" ()]
    = Ok (mkModelProfileVerifier {["release" := ()]})) by reflexivity.
  assert (Hv : verify_profile (λ _ _ _, true) sample_digest_bytes (λ _, Some sample_raw_profile)
    (mkModelProfileVerifier {["release" := ()]}) "release" [1; 2] [3]
    = Ok (mkVerifiedModelProfile sample_verified (profile_sha256 sample_digest_bytes [1; 2])))
    by (vm_compute; reflexivity).
  assert (Ha : verify_artifact sample_digest_bytes
    (mkVerifiedModelProfile sample_verified (profile_sha256 sample_digest_bytes [1; 2])) [7]
    (mkArtifactLimits 10) = Ok ()) by (vm_compute; reflexivity).
  eexists. split; [exact Hv|]. split; [exact Ha|].
  exact (proj1 (proj2 (verified_artifact_is_signed (λ _ _ _, true) sample_digest_bytes
    (λ _, Some sample_raw_profile) sample_digest_bytes_ok _ _ _ _ _ _ _ _ Hnew Hv Ha))).
Defined.
