(* ===== verification/ImageQuality.v ===== *)
(** * ImageQuality: inspection, preparation and deskewing of page images

    Models [ocr-engine/src/lib.rs] and [deskew.rs]: the quality of a decoded image with its
    warnings and verdict, the preparation of an image, the estimate of its skew and its
    correction.  The image library (format, dimensions, decoding, orientation) and the
    sine, cosine and hypotenuse of the platform are arguments. *)

From Stdlib Require Import SpecFloat.
From S2P Require Import Prelude Text Float64 Engine.

#[local] Open Scope list_scope.
#[local] Open Scope Z_scope.

Definition DEFAULT_MAX_ENCODED_BYTES : Z := 32 * 1024 * 1024.
Definition BLANK_CONTRAST_THRESHOLD : f64 := f64_dec 2 2.
Definition UNDEREXPOSED_LUMINANCE_THRESHOLD : f64 := f64_dec 5 2.
Definition OVEREXPOSED_LUMINANCE_THRESHOLD : f64 := f64_dec 95 2.
Definition SATURATED_LUMINANCE : Z := 250.
Definition GLARE_SATURATED_FRACTION : f64 := f64_dec 1 2.
Definition GLARE_BACKGROUND_CEILING : Z := 217.

Record ImageLimits := mkImageLimits { max_encoded_bytes : Z; max_pixels : Z }.

Definition ImageLimits_new (max_pixels : Z) : EngineResult ImageLimits :=
  if max_pixels =? 0 then Err EngineError.InvalidLimit
  else Ok (mkImageLimits DEFAULT_MAX_ENCODED_BYTES max_pixels).

Inductive QualityWarning := Blank | Blurry | Glare | LowResolution | Overexposed | Underexposed.

#[export] Instance QualityWarning_eq_dec : EqDecision QualityWarning.
Proof. solve_decision. Defined.

Inductive QualityDisposition := Continue | RequestBetterSource.

#[export] Instance QualityDisposition_eq_dec : EqDecision QualityDisposition.
Proof. solve_decision. Defined.

Inductive RetakeReason := MoveCloser | HoldSteady | AvoidGlare | AddLight | ReduceLight.
Inductive QualityVerdict := Usable | Retake (reason : RetakeReason) | Unusable.

Record QualityThresholds := mkQualityThresholds {
  minimum_width : Z;
  minimum_height : Z;
  minimum_sharpness : f64;
}.

Definition QualityThresholds_new (minimum_width minimum_height : Z) : EngineResult QualityThresholds :=
  if (minimum_width =? 0) || (minimum_height =? 0) then Err EngineError.InvalidQualityThreshold
  else Ok (mkQualityThresholds minimum_width minimum_height f64_zero).

Definition with_minimum_sharpness (self : QualityThresholds) (minimum_sharpness : f64)
    : EngineResult QualityThresholds :=
  if negb (is_finite minimum_sharpness) || negb (in_unit minimum_sharpness)
  then Err EngineError.InvalidSharpnessThreshold
  else Ok (mkQualityThresholds (minimum_width self) (minimum_height self) minimum_sharpness).

Record QualityReport := mkQualityReport {
  report_width : Z;
  report_height : Z;
  contrast : f64;
  mean_luminance : f64;
  sharpness : f64;
  quality_score : f64;
  warnings : list QualityWarning;
  disposition : QualityDisposition;
}.

Definition verdict (self : QualityReport) : QualityVerdict :=
  if bool_decide (Blank ∈ warnings self) then Unusable
  else
    match List.find (λ e, bool_decide (e.1 ∈ warnings self))
            [(LowResolution, MoveCloser); (Blurry, HoldSteady); (Glare, AvoidGlare);
             (Underexposed, AddLight); (Overexposed, ReduceLight)] with
    | Some (_, reason) => Retake reason
    | None => Usable
    end.

(** ** Gray images *)

(** The pixels of an image row by row. *)
Record GrayImage := mkGrayImage {
  image_width : Z;
  image_height : Z;
  image_pixels : list Z;
}.

Definition get_pixel (image : GrayImage) (x y : Z) : Z :=
  default 0 (image_pixels image !! Z.to_nat (y * image_width image + x)).

Definition f64_sum (values : list f64) : f64 := fold_left f64_add values f64_zero.

(** [histogram[level]]. *)
Definition count_level (pixels : list Z) (level : Z) : Z := zlen (List.filter (Z.eqb level) pixels).

Definition histogram (pixels : list Z) : list Z := count_level pixels <$> seqZ 0 256.

(** The closure of [position] over the histogram: the first level by which three quarters
    of the pixels were seen. *)
Fixpoint quartile_from (pixels seen level : Z) (histogram : list Z) : option Z :=
  match histogram with
  | [] => None
  | count :: histogram =>
      let seen := seen + count in
      if pixels * 3 <=? seen * 4 then Some level
      else quartile_from pixels seen (level + 1) histogram
  end.

Definition has_glare (image : GrayImage) (pixels : Z) : bool :=
  let histogram := histogram (image_pixels image) in
  let saturated := fold_left Z.add (drop (Z.to_nat SATURATED_LUMINANCE) histogram) 0 in
  let third_quartile := default 255 (quartile_from pixels 0 0 histogram) in
  f64_le GLARE_SATURATED_FRACTION (f64_div (f64_of_Z saturated) (f64_of_Z pixels))
  && (third_quartile <=? GLARE_BACKGROUND_CEILING).

(** What one pixel adds to the total and the comparisons. *)
Definition edge_step (image : GrayImage) (acc : Z * Z) (position : Z * Z) : Z * Z :=
  let '(x, y) := position in
  let current := get_pixel image x y in
  let acc :=
    if x + 1 <? image_width image
    then (acc.1 + Z.abs (current - get_pixel image (x + 1) y), acc.2 + 1) else acc in
  if y + 1 <? image_height image
  then (acc.1 + Z.abs (current - get_pixel image x (y + 1)), acc.2 + 1) else acc.

(** The positions of an image, row by row. *)
Definition positions (width height : Z) : list (Z * Z) :=
  concat ((λ y, (λ x, (x, y)) <$> seqZ 0 width) <$> seqZ 0 height).

Definition edge_difference_score (image : GrayImage) : f64 :=
  let '(total, comparisons) :=
    fold_left (edge_step image) (positions (image_width image) (image_height image)) (0, 0) in
  if comparisons =? 0 then f64_zero
  else f64_div (f64_div (f64_of_Z total) (f64_of_Z comparisons)) (f64_of_Z 255).

(** ** Inspection and preparation *)

Inductive Orientation :=
| NoTransforms | Rotate90 | Rotate180 | Rotate270 | FlipHorizontal_ | FlipVertical_
| Rotate90FlipH | Rotate270FlipH.

(** What the image library makes of encoded bytes: the dimensions, if the format is
    known; the gray image as it is stored; the orientation; and the gray image turned. *)
Record Decoder := mkDecoder {
  decoded_dimensions : list Z → option (Z * Z);
  decoded_luma : list Z → option GrayImage;
  decoded_orientation : list Z → option Orientation;
  oriented_luma : list Z → option GrayImage;
}.

Definition record_orientation (transforms : TransformChain) (orientation : Orientation) : TransformChain :=
  match orientation with
  | NoTransforms => transforms
  | Rotate90 => push transforms (TransformStep.Rotation Clockwise90)
  | Rotate180 => push transforms (TransformStep.Rotation Clockwise180)
  | Rotate270 => push transforms (TransformStep.Rotation Clockwise270)
  | FlipHorizontal_ => push transforms TransformStep.FlipHorizontal
  | FlipVertical_ => push transforms TransformStep.FlipVertical
  | Rotate90FlipH =>
      push (push transforms (TransformStep.Rotation Clockwise90)) TransformStep.FlipHorizontal
  | Rotate270FlipH =>
      push (push transforms (TransformStep.Rotation Clockwise270)) TransformStep.FlipHorizontal
  end.

Definition mean_of (image : GrayImage) (pixels : Z) : f64 :=
  f64_div (f64_div (f64_sum (f64_of_Z <$> image_pixels image)) (f64_of_Z pixels)) (f64_of_Z 255).

Definition contrast_of (image : GrayImage) : f64 :=
  let minimum := fold_left Z.min (image_pixels image) 255 in
  let maximum := fold_left Z.max (image_pixels image) 0 in
  f64_div (f64_of_Z ((maximum - minimum) mod 256)) (f64_of_Z 255).

(** The conditions in the order in which the warnings are pushed. *)
Definition quality_warnings (blank blurry glare low_resolution over under : bool) : list QualityWarning :=
  (if blank then [Blank] else [])
  ++ (if negb blank && blurry then [Blurry] else [])
  ++ (if negb blank && glare then [Glare] else [])
  ++ (if low_resolution then [LowResolution] else [])
  ++ (if negb blank && over then [Overexposed] else [])
  ++ (if negb blank && under then [Underexposed] else []).

(** The report on a decoded image. *)
Definition assess (thresholds : QualityThresholds) (width height : Z) (image : GrayImage) : QualityReport :=
  let pixels := width * height in
  let contrast := contrast_of image in
  let mean_luminance := mean_of image pixels in
  let sharpness := edge_difference_score image in
  let blank := f64_lt contrast BLANK_CONTRAST_THRESHOLD in
  let low_resolution := (width <? minimum_width thresholds) || (height <? minimum_height thresholds) in
  let warnings :=
    quality_warnings blank (f64_lt sharpness (minimum_sharpness thresholds)) (has_glare image pixels)
      low_resolution (f64_lt OVEREXPOSED_LUMINANCE_THRESHOLD mean_luminance)
      (f64_lt mean_luminance UNDEREXPOSED_LUMINANCE_THRESHOLD) in
  let resolution_score :=
    f64_min (f64_min (f64_div (f64_of_Z width) (f64_of_Z (minimum_width thresholds)))
               (f64_div (f64_of_Z height) (f64_of_Z (minimum_height thresholds)))) f64_one in
  let exposure_score :=
    f64_max (f64_sub f64_one (f64_mul (f64_abs (f64_sub mean_luminance f64_half)) (f64_of_Z 2))) f64_zero in
  mkQualityReport width height contrast mean_luminance sharpness
    (if blank then f64_zero else f64_mul (f64_mul contrast resolution_score) exposure_score)
    warnings (match warnings with [] => Continue | _ => RequestBetterSource end).

Record PreparedImage := mkPreparedImage {
  prepared_image : GrayImage;
  prepared_quality : QualityReport;
  prepared_transforms : TransformChain;
}.

Module PreparationOutcome.
Inductive PreparationOutcome :=
| Ready (image : PreparedImage)
| RequestBetterSource (report : QualityReport).
End PreparationOutcome.

Section Inspection.
Context (library : Decoder).

Definition inspect_image_with_thresholds (encoded : list Z) (limits : ImageLimits)
    (thresholds : QualityThresholds) : EngineResult QualityReport :=
  if max_encoded_bytes limits <? zlen encoded
  then Err (EngineError.EncodedByteLimitExceeded (zlen encoded) (max_encoded_bytes limits))
  else
    let? size := ok_or (decoded_dimensions library encoded) EngineError.UnsupportedOrInvalidImage in
    let '(width, height) := size in
    if max_pixels limits <? width * height
    then Err (EngineError.PixelLimitExceeded (width * height) (max_pixels limits))
    else
      let? grayscale := ok_or (decoded_luma library encoded) EngineError.UnsupportedOrInvalidImage in
      Ok (assess thresholds width height grayscale).

Definition inspect_image (encoded : list Z) (limits : ImageLimits) : EngineResult QualityReport :=
  let? thresholds := QualityThresholds_new 1 1 in
  inspect_image_with_thresholds encoded limits thresholds.

Definition prepare_image (encoded : list Z) (limits : ImageLimits) (thresholds : QualityThresholds)
    : EngineResult PreparationOutcome.PreparationOutcome :=
  let? quality := inspect_image_with_thresholds encoded limits thresholds in
  if bool_decide (disposition quality = RequestBetterSource)
  then Ok (PreparationOutcome.RequestBetterSource quality)
  else
    let? orientation := ok_or (decoded_orientation library encoded) EngineError.UnsupportedOrInvalidImage in
    let? image := ok_or (oriented_luma library encoded) EngineError.UnsupportedOrInvalidImage in
    Ok (PreparationOutcome.Ready
          (mkPreparedImage image quality (record_orientation (mkTransformChain []) orientation))).
End Inspection.

(** ** Skew *)

Definition MAXIMUM_SAMPLED_PIXELS : Z := 50000.
Definition MAXIMUM_DEGREES : f64 := f64_of_Z 12.
Definition ANGLE_STEP_DEGREES : f64 := f64_dec 25 2.
Definition CANDIDATE_ANGLES : Z := 97.

Record DeskewPolicy := mkDeskewPolicy { minimum_confidence : f64; minimum_material_degrees : f64 }.

Definition DeskewPolicy_new (minimum_confidence minimum_material_degrees : f64) : EngineResult DeskewPolicy :=
  if negb (is_finite minimum_confidence) || negb (in_unit minimum_confidence)
     || negb (is_finite minimum_material_degrees)
     || negb (f64_within f64_zero MAXIMUM_DEGREES minimum_material_degrees)
  then Err EngineError.InvalidDeskewPolicy
  else Ok (mkDeskewPolicy minimum_confidence minimum_material_degrees).

Inductive DeskewDecision := Applied | BelowConfidence | BelowMaterialAngle.

Record SkewEstimate := mkSkewEstimate {
  correction : DeskewAngle;
  skew_confidence : f64;
  sampled_points : Z;
}.

Record DeskewResult := mkDeskewResult {
  deskewed_image : PreparedImage;
  estimate : SkewEstimate;
  decision : DeskewDecision;
}.

(** [(0..bound).step_by(stride)]. *)
Definition steps_by (bound stride : Z) : list Z :=
  (λ i, i * stride) <$> seqZ 0 ((bound + stride - 1) / stride).

Definition sample_stride (pixels : Z) : Z :=
  Z.max 1
    (as_unsigned usize_max
       (f64_ceil (SFsqrt 53 1024 (f64_div (f64_of_Z pixels) (f64_of_Z MAXIMUM_SAMPLED_PIXELS))))).

(** [sample_pixels]: the two loops stop after the maximum. *)
Definition sample_pixels (image : GrayImage) : list (f64 * f64 * Z) :=
  let stride := sample_stride (image_width image * image_height image) in
  take (Z.to_nat MAXIMUM_SAMPLED_PIXELS)
    (concat
       ((λ y, (λ x, (f64_of_Z x, f64_of_Z y, get_pixel image x y)) <$> steps_by (image_width image) stride)
        <$> steps_by (image_height image) stride)).

Section Trigonometry.
Context (cos sin : f64 → f64) (hypot : f64 → f64 → f64).

(** The bin of a point. *)
Definition projection_bin (width height : Z) (degrees : f64) (bins : Z) (point : f64 * f64) : Z :=
  let diagonal := hypot (f64_of_Z width) (f64_of_Z height) in
  let radians := to_radians degrees in
  let center_x := f64_div (f64_of_Z width) (f64_of_Z 2) in
  let center_y := f64_div (f64_of_Z height) (f64_of_Z 2) in
  let projected :=
    f64_add (f64_mul (sin radians) (f64_sub point.1 center_x))
      (f64_mul (cos radians) (f64_sub point.2 center_y)) in
  as_unsigned usize_max
    (f64_clamp f64_zero (f64_of_Z (Z.max 0 (bins - 1)))
       (f64_round (f64_add projected (f64_div diagonal (f64_of_Z 2))))).

Definition projection_score (ink : list (f64 * f64)) (width height : Z) (degrees : f64) : f64 :=
  let diagonal := hypot (f64_of_Z width) (f64_of_Z height) in
  let bins := as_unsigned usize_max (f64_ceil diagonal) + 3 in
  let indices := projection_bin width height degrees bins <$> ink in
  let counts :=
    fold_left (λ counts index, alter (Z.add 1) (Z.to_nat index) counts) indices
      (replicate (Z.to_nat bins) 0) in
  f64_div (f64_sum ((λ count, f64_mul (f64_of_Z count) (f64_of_Z count)) <$> counts))
    (f64_of_Z (zlen ink)).

Definition candidate_angle (index : Z) : f64 :=
  f64_add (SFopp MAXIMUM_DEGREES) (f64_mul (f64_of_Z index) ANGLE_STEP_DEGREES).

(** The best angle, the best score and the score without a correction so far. *)
Record Search := mkSearch { best_angle : f64; best_score : f64; baseline_score : f64 }.

Definition search_step (score : f64 → f64) (search : Search) (index : Z) : Search :=
  let angle := candidate_angle index in
  let value := score angle in
  let baseline := if f64_eq angle f64_zero then value else baseline_score search in
  let distance := f64_abs angle in
  let best_distance := f64_abs (best_angle search) in
  if f64_lt (best_score search) value
     || (f64_eq value (best_score search) && f64_lt distance best_distance)
     || (f64_eq value (best_score search) && f64_eq distance best_distance
         && f64_lt angle (best_angle search))
  then mkSearch angle value baseline
  else mkSearch (best_angle search) (best_score search) baseline.

Definition search_angles (score : f64 → f64) : Search :=
  fold_left (search_step score) (seqZ 0 CANDIDATE_ANGLES) (mkSearch f64_zero f64_zero f64_zero).

Definition search_confidence (search : Search) : f64 :=
  if f64_eq (f64_abs (best_angle search)) MAXIMUM_DEGREES then f64_zero
  else if f64_lt f64_zero (best_score search)
  then f64_clamp f64_zero f64_one
         (f64_div (f64_sub (best_score search) (baseline_score search)) (best_score search))
  else f64_zero.

Definition estimate_skew (image : PreparedImage) : EngineResult SkewEstimate :=
  let gray := prepared_image image in
  let sampled := sample_pixels gray in
  let values := snd <$> sampled in
  let minimum := default 0 (head (sort_by Z.leb values)) in
  let maximum := default 0 (last (sort_by Z.leb values)) in
  let threshold := Z.min 255 (minimum + Z.max 0 (maximum - minimum) / 2) in
  let ink := fst <$> List.filter (λ e, e.2 <=? threshold) sampled in
  let points := zlen sampled in
  if (zlen ink <? 32) || (minimum =? maximum) then
    let? correction := DeskewAngle_new f64_zero in
    Ok (mkSkewEstimate correction f64_zero points)
  else
    let search := search_angles (projection_score ink (image_width gray) (image_height gray)) in
    let confidence := search_confidence search in
    let? correction := DeskewAngle_new (best_angle search) in
    Ok (mkSkewEstimate correction confidence points).

(** ** Correction *)

Definition bilinear_luma (source : GrayImage) (x y : f64) : Z :=
  let maximum_x := f64_of_Z (Z.max 0 (image_width source - 1)) in
  let maximum_y := f64_of_Z (Z.max 0 (image_height source - 1)) in
  if f64_lt x f64_zero || f64_lt y f64_zero || f64_lt maximum_x x || f64_lt maximum_y y then 255
  else
    let left := as_unsigned u32_max (f64_floor x) in
    let top := as_unsigned u32_max (f64_floor y) in
    let right := Z.min (Z.min u32_max (left + 1)) (image_width source - 1) in
    let bottom := Z.min (Z.min u32_max (top + 1)) (image_height source - 1) in
    let horizontal := f64_sub x (f64_of_Z left) in
    let vertical := f64_sub y (f64_of_Z top) in
    let mix a b t := f64_add (f64_mul a (f64_sub f64_one t)) (f64_mul b t) in
    let luma px py := f64_of_Z (get_pixel source px py) in
    let top_value := mix (luma left top) (luma right top) horizontal in
    let bottom_value := mix (luma left bottom) (luma right bottom) horizontal in
    as_unsigned 255 (f64_round (mix top_value bottom_value vertical)).

(** Where [rotate_bilinear] reads the pixel at [x], [y]. *)
Definition source_position (width height : Z) (angle : DeskewAngle) (x y : f64) : f64 * f64 :=
  let radians := to_radians (degrees angle) in
  let cosine := cos radians in
  let sine := sin radians in
  let center_x := f64_div (f64_of_Z (Z.max 0 (width - 1))) (f64_of_Z 2) in
  let center_y := f64_div (f64_of_Z (Z.max 0 (height - 1))) (f64_of_Z 2) in
  let translated_x := f64_sub x center_x in
  let translated_y := f64_sub y center_y in
  (f64_add (f64_add center_x (f64_mul cosine translated_x)) (f64_mul sine translated_y),
   f64_add (f64_sub center_y (f64_mul sine translated_x)) (f64_mul cosine translated_y)).

Definition rotate_bilinear (source : GrayImage) (angle : DeskewAngle) : GrayImage :=
  mkGrayImage (image_width source) (image_height source)
    ((λ '(x, y),
       let '(source_x, source_y) :=
         source_position (image_width source) (image_height source) angle (f64_of_Z x) (f64_of_Z y) in
       bilinear_luma source source_x source_y)
     <$> positions (image_width source) (image_height source)).

Definition deskew_image (image : PreparedImage) (policy : DeskewPolicy) : EngineResult DeskewResult :=
  let? estimate := estimate_skew image in
  if f64_lt (f64_abs (degrees (correction estimate))) (minimum_material_degrees policy)
  then Ok (mkDeskewResult image estimate BelowMaterialAngle)
  else if f64_lt (skew_confidence estimate) (minimum_confidence policy)
  then Ok (mkDeskewResult image estimate BelowConfidence)
  else
    let turned :=
      mkPreparedImage (rotate_bilinear (prepared_image image) (correction estimate))
        (prepared_quality image)
        (push (prepared_transforms image) (TransformStep.Deskew (correction estimate))) in
    Ok (mkDeskewResult turned estimate Applied).
End Trigonometry.
