(* ===== verification/ImageQualityFacts.v ===== *)
(** * ImageQualityFacts: usable images and corrected skew

    An image is prepared exactly when its verdict is that it is usable; glare is counted
    over the pixels; the estimate of the skew takes the best of the candidate angles, and
    deskewing always gives an image of the same size. *)

From Stdlib Require Import SpecFloat.
From S2P Require Import Prelude Text Float64 Engine ImageQuality.

#[local] Open Scope list_scope.
#[local] Open Scope Z_scope.

(** ** The order of numbers *)

(** Numbers other than NaN compare as these triples do, from the left. *)
Definition order_key (x : f64) : Z * Z * Z :=
  match x with
  | S754_infinity true => (-2, 0, 0)
  | S754_finite true m e => (-1, - e, - Zpos m)
  | S754_finite false m e => (1, e, Zpos m)
  | S754_infinity false => (2, 0, 0)
  | _ => (0, 0, 0)
  end.

Definition key_lt (a b : Z * Z * Z) : Prop :=
  a.1.1 < b.1.1 ∨ a.1.1 = b.1.1 ∧ (a.1.2 < b.1.2 ∨ a.1.2 = b.1.2 ∧ a.2 < b.2).

Lemma f64_lt_key x y :
  f64_lt x y = true ↔ is_nan x = false ∧ is_nan y = false ∧ key_lt (order_key x) (order_key y).
Proof.
  unfold f64_lt, SFltb, key_lt.
  destruct x as [sx|sx| |sx mx ex], y as [sy|sy| |sy my ey]; try destruct sx; try destruct sy;
    cbn [SFcompare order_key is_nan fst snd];
    try (destruct (Z.compare_spec ex ey) as [Hxy|Hxy|Hxy];
         [change (Pos.compare_cont Eq mx my) with (Pos.compare mx my);
          destruct (Pos.compare_spec mx my)| |]);
    cbn [CompOpp]; (split; [intros Hl; try discriminate Hl; split_and!; lia || done|
      intros (Hx & Hy & Hl); first [reflexivity|discriminate|exfalso; lia]]).
Qed.

Lemma f64_lt_trans x y z : f64_lt x y = true → f64_lt y z = true → f64_lt x z = true.
Proof. rewrite !f64_lt_key. unfold key_lt. intros (? & ? & ?) (? & ? & ?). split_and!; [done|done|lia]. Qed.

(** What is not above a number is not above a greater one. *)
Lemma f64_not_lt_trans x y z : f64_lt x y = true → f64_lt x z = false → f64_lt y z = false.
Proof.
  intros Hxy Hxz. destruct (f64_lt y z) eqn:Hyz; [|done]. by rewrite (f64_lt_trans _ _ _ Hxy Hyz) in Hxz.
Qed.

Lemma f64_eq_key x y :
  f64_eq x y = true → is_nan x = false ∧ is_nan y = false ∧ order_key x = order_key y.
Proof.
  unfold f64_eq, SFeqb.
  destruct x as [sx|sx| |sx mx ex], y as [sy|sy| |sy my ey]; try destruct sx; try destruct sy;
    cbn [SFcompare order_key is_nan]; try done;
    (destruct (Z.compare_spec ex ey) as [->|Hxy|Hxy]; [|done..]);
    change (Pos.compare_cont Eq mx my) with (Pos.compare mx my);
    by destruct (Pos.compare_spec mx my) as [->| |].
Qed.

Lemma f64_lt_eq x y z : f64_eq x y = true → f64_lt x z = f64_lt y z ∧ f64_lt z x = f64_lt z y.
Proof.
  intros (Hx & Hy & Hk)%f64_eq_key.
  split; apply eq_true_iff_eq; rewrite !f64_lt_key, Hk, Hx, Hy; done.
Qed.

Lemma f64_eq_not_lt x y : f64_eq x y = true → f64_lt x y = false.
Proof.
  intros H. destruct (f64_lt_eq x y y H) as [-> _]. apply f64_lt_irrefl.
Qed.

Lemma f64_eq_trans_lt x y z : f64_eq z y = true → f64_lt x y = true → f64_lt x z = true.
Proof. intros H Hlt. by destruct (f64_lt_eq z y x H) as [_ ->]. Qed.

Lemma f64_eq_trans x y z : f64_eq x y = true → f64_eq y z = true → f64_eq x z = true.
Proof.
  intros (Hx & _ & Hxy)%f64_eq_key (_ & Hz & Hyz)%f64_eq_key.
  assert (Hk : order_key x = order_key z) by congruence. clear Hxy Hyz. unfold f64_eq, SFeqb.
  destruct x as [sx|sx| |sx mx ex], z as [sz|sz| |sz mz ez]; try destruct sx; try destruct sz;
    cbn [order_key] in Hk; try done; injection Hk as He Hm;
    cbn [SFcompare]; assert (ex = ez) as <- by lia; assert (mx = mz) as <- by lia;
    rewrite Z.compare_refl; change (Pos.compare_cont Eq mx mx) with (Pos.compare mx mx);
    by rewrite Pos.compare_refl.
Qed.

(** ** Verdicts *)

Lemma verdict_usable report : verdict report = Usable ↔ warnings report = [].
Proof.
  unfold verdict. split; [|by intros ->].
  destruct (warnings report) as [|w ws]; [done|]. intros H. exfalso. revert H.
  destruct (bool_decide (Blank ∈ w :: ws)) eqn:Hb; [done|].
  destruct (List.find _ _) as [[w' reason]|] eqn:Hf; [done|].
  pose proof (List.find_none _ _ Hf) as Hnone. intros _.
  assert (Hin : ∀ x, (∃ y, (x, y) ∈ [(LowResolution, MoveCloser); (Blurry, HoldSteady); (Glare, AvoidGlare);
    (Underexposed, AddLight); (Overexposed, ReduceLight)]) → x ≠ w).
  { intros x [y Hxy] ->. specialize (Hnone (w, y) (proj1 (list_elem_of_In _ _) Hxy)). simpl in Hnone.
    apply bool_decide_eq_false in Hnone. apply Hnone. left. }
  apply bool_decide_eq_false in Hb.
  destruct w; [apply Hb; left|apply (Hin Blurry); [exists HoldSteady|done]
    |apply (Hin Glare); [exists AvoidGlare|done]|apply (Hin LowResolution); [exists MoveCloser|done]
    |apply (Hin Overexposed); [exists ReduceLight|done]|apply (Hin Underexposed); [exists AddLight|done]];
    set_solver.
Qed.

Lemma assess_disposition thresholds width height image :
  disposition (assess thresholds width height image) = Continue
  ↔ warnings (assess thresholds width height image) = [].
Proof. unfold assess. simpl. by destruct (quality_warnings _ _ _ _ _ _). Qed.

(** An image is prepared exactly when it is usable: once the report on the encoded
    bytes is made and the library can turn the image, preparation gives the image,
    turned upright, with that report and the turns on record, if the report's verdict is
    that it is usable, without any warning; otherwise it asks for a better source, with
    the same report, and the client is told to retake the image or that it is unusable. *)
Theorem prepared_image_is_usable library encoded limits thresholds quality orientation image :
  inspect_image_with_thresholds library encoded limits thresholds = Ok quality →
  decoded_orientation library encoded = Some orientation →
  oriented_luma library encoded = Some image →
  prepare_image library encoded limits thresholds
  = Ok match verdict quality with
       | Usable =>
           PreparationOutcome.Ready
             (mkPreparedImage image quality (record_orientation (mkTransformChain []) orientation))
       | _ => PreparationOutcome.RequestBetterSource quality
       end
  ∧ (verdict quality = Usable ↔ warnings quality = []).
Proof.
  intros Hq Ho Hi. split; [|apply verdict_usable]. unfold prepare_image. rewrite Hq. simpl.
  assert (Hd : disposition quality = Continue ↔ verdict quality = Usable).
  { rewrite verdict_usable. unfold inspect_image_with_thresholds in Hq. destruct (_ <? _); [done|].
    apply and_then_Ok in Hq as ([w h] & _ & Hq). destruct (_ <? _); [done|].
    apply and_then_Ok in Hq as (g & _ & [= <-]). apply assess_disposition. }
  rewrite Ho, Hi. simpl. destruct (verdict quality) eqn:Hv.
  - rewrite bool_decide_eq_false_2; [done|]. by rewrite (proj2 Hd eq_refl).
  - rewrite bool_decide_eq_true_2; [done|]. destruct (disposition quality); [|done].
    by specialize (proj1 Hd eq_refl).
  - rewrite bool_decide_eq_true_2; [done|]. destruct (disposition quality); [|done].
    by specialize (proj1 Hd eq_refl).
Qed.

(** ** Glare *)

Definition at_most (level : Z) (pixels : list Z) : Z := zlen (List.filter (λ p, p <=? level) pixels).
Definition at_least (level : Z) (pixels : list Z) : Z := zlen (List.filter (λ p, level <=? p) pixels).

Lemma count_step level pixels :
  at_most (level - 1) pixels + count_level pixels level = at_most level pixels.
Proof.
  unfold at_most, count_level. induction pixels as [|p pixels IH]; [done|]. simpl.
  destruct (Z.leb_spec p (level - 1)), (Z.eqb_spec level p), (Z.leb_spec p level);
    rewrite ?zlen_cons; lia.
Qed.

Lemma at_most_mono a b pixels : a ≤ b → at_most a pixels ≤ at_most b pixels.
Proof.
  intros Hab. unfold at_most. induction pixels as [|p pixels IH]; [done|]. simpl.
  destruct (Z.leb_spec p a), (Z.leb_spec p b); rewrite ?zlen_cons; lia.
Qed.

Lemma quartile_from_spec pixels total seen level room :
  0 ≤ level → seen = at_most (level - 1) pixels →
  match quartile_from total seen level (count_level pixels <$> seqZ level (Z.of_nat room)) with
  | Some q => level ≤ q < level + Z.of_nat room ∧ total * 3 ≤ at_most q pixels * 4
      ∧ ∀ l, level ≤ l < q → at_most l pixels * 4 < total * 3
  | None => ∀ l, level ≤ l < level + Z.of_nat room → at_most l pixels * 4 < total * 3
  end.
Proof.
  revert seen level. induction room as [|room IH]; intros seen level Hl Hseen; [simpl; lia|].
  rewrite (seqZ_cons level) by lia. replace (Z.pred (Z.of_nat (S room))) with (Z.of_nat room) by lia.
  cbn [fmap list_fmap quartile_from]. pose proof (count_step level pixels) as Hc. rewrite <- Hseen in Hc.
  rewrite Hc. destruct (Z.leb_spec (total * 3) (at_most level pixels * 4)) as [Hle|Hgt].
  { split; [lia|]. split; [done|lia]. }
  specialize (IH (at_most level pixels) (Z.succ level) ltac:(lia) ltac:(f_equal; lia)).
  replace (level + 1) with (Z.succ level) by lia.
  assert (Hhere : ∀ l, l = level → at_most l pixels * 4 < total * 3) by (intros ? ->; lia).
  destruct (quartile_from _ _ _ _) as [q|].
  - destruct IH as (Hq & Hge & Hlt). split; [lia|]. split; [done|]. intros l Hl'.
    destruct (decide (l = level)); [by apply Hhere|apply Hlt; lia].
  - intros l Hl'. destruct (decide (l = level)); [by apply Hhere|apply IH; lia].
Qed.

Lemma fold_left_add_base zs base : fold_left Z.add zs base = base + fold_left Z.add zs 0.
Proof.
  revert base. induction zs as [|z zs IH]; intros base; cbn [fold_left]; [lia|].
  rewrite (IH (base + z)), (IH (0 + z)). lia.
Qed.

Lemma histogram_tail pixels level room :
  fold_left Z.add (count_level pixels <$> seqZ level (Z.of_nat room)) 0
  = zlen (List.filter (λ p, (level <=? p) && (p <? level + Z.of_nat room)) pixels).
Proof.
  revert level. induction room as [|room IH]; intros level.
  { change (seqZ level (Z.of_nat 0)) with (@nil Z). change (Z.of_nat 0) with 0.
    induction pixels as [|p pixels IHp]; [done|]. cbn [List.filter].
    destruct (Z.leb_spec level p), (Z.ltb_spec p (level + 0)); cbn [andb]; try lia; exact IHp. }
  rewrite (seqZ_cons level) by lia. replace (Z.pred (Z.of_nat (S room))) with (Z.of_nat room) by lia.
  cbn [fmap list_fmap fold_left]. rewrite fold_left_add_base, IH. unfold count_level.
  clear IH. induction pixels as [|p pixels IHp]; [done|]. cbn [List.filter].
  destruct (Z.eqb_spec level p), (Z.leb_spec (Z.succ level) p), (Z.leb_spec level p),
    (Z.ltb_spec p (Z.succ level + Z.of_nat room)), (Z.ltb_spec p (level + Z.of_nat (S room)));
    cbn [andb]; rewrite ?zlen_cons; lia.
Qed.

(** Glare is found by counting: an image, its pixels being bytes, shows glare exactly
    when at least one hundredth of its pixels have luminance 250 or more, as a quotient of
    numbers, while at least three quarters of them have at most 217; the histogram and
    its third quartile are a way to count. *)
Theorem glare_counts_pixels image :
  Forall (contains 0 255) (image_pixels image) →
  let pixels := zlen (image_pixels image) in
  has_glare image pixels
  = f64_le GLARE_SATURATED_FRACTION
      (f64_div (f64_of_Z (at_least SATURATED_LUMINANCE (image_pixels image))) (f64_of_Z pixels))
    && (pixels * 3 <=? at_most GLARE_BACKGROUND_CEILING (image_pixels image) * 4).
Proof.
  intros Hbytes pixels. unfold has_glare. set (ps := image_pixels image) in *.
  assert (Hrange : ∀ p, p ∈ ps → 0 ≤ p ≤ 255).
  { intros p Hp. apply contains_true, Is_true_true. exact (proj1 (Forall_forall _ _) Hbytes p Hp). }
  f_equal.
  - f_equal. f_equal. f_equal. unfold histogram.
    assert (Hsplit : seqZ 0 256 = seqZ 0 250 ++ seqZ 250 (Z.of_nat 6)) by (vm_compute; reflexivity).
    rewrite Hsplit, fmap_app, drop_app_length' by (rewrite length_fmap, length_seqZ; reflexivity).
    rewrite histogram_tail. unfold at_least, SATURATED_LUMINANCE. f_equal. apply filter_ext_in.
    intros p Hp%list_elem_of_In%Hrange. rewrite (proj2 (Z.ltb_lt _ _)) by lia. by rewrite andb_true_r.
  - unfold histogram. pose proof (quartile_from_spec ps pixels 0 0 256 ltac:(lia)) as Hq.
    assert (Hzero : 0 = at_most (0 - 1) ps).
    { unfold at_most. clear -Hrange. induction ps as [|p ps IH]; [done|]. cbn [List.filter].
      pose proof (Hrange p ltac:(left)). destruct (Z.leb_spec p (0 - 1)); [lia|].
      apply IH. intros q Hq. apply Hrange. by right. }
    specialize (Hq Hzero). change (Z.of_nat 256) with 256 in Hq.
    destruct (quartile_from _ _ _ _) as [q|];
      [change (default 255 (Some q)) with q|change (default 255 None) with 255].
    + destruct Hq as (Hr & Hge & Hlt). unfold GLARE_BACKGROUND_CEILING.
      destruct (Z.leb_spec q 217) as [Hle|Hgt]; symmetry.
      * apply Z.leb_le. pose proof (at_most_mono q 217 ps Hle). lia.
      * apply Z.leb_gt. specialize (Hlt 217 ltac:(lia)). lia.
    + unfold GLARE_BACKGROUND_CEILING. symmetry. apply Z.leb_gt. specialize (Hq 217 ltac:(lia)). lia.
Qed.

(** ** Skew *)

Definition candidate_ok (angle : f64) : bool :=
  is_finite angle && f64_within (SFopp MAXIMUM_DESKEW_DEGREES) MAXIMUM_DESKEW_DEGREES angle.

Lemma candidates_ok index : 0 ≤ index < CANDIDATE_ANGLES → candidate_ok (candidate_angle index) = true.
Proof.
  intros Hi. assert (Hall : forallb (λ i, candidate_ok (candidate_angle i)) (seqZ 0 CANDIDATE_ANGLES) = true)
    by (vm_compute; reflexivity).
  rewrite forallb_forall in Hall. apply Hall, list_elem_of_In, elem_of_seqZ. lia.
Qed.

Section Search.
Context (score : f64 → f64).

(** The best of the angles seen: no score is above the best one, and of those equal to it
    none is at a smaller angle. *)
Record best_of (seen : list Z) (search : Search) : Prop := {
  best_candidate : candidate_ok (best_angle search) = true;
  best_beats : ∀ i, i ∈ seen →
    f64_lt (best_score search) (score (candidate_angle i)) = false
    ∧ (f64_eq (score (candidate_angle i)) (best_score search) = true →
       f64_lt (f64_abs (candidate_angle i)) (f64_abs (best_angle search)) = false);
}.

Lemma search_step_best seen search i :
  0 ≤ i < CANDIDATE_ANGLES → best_of seen search → best_of (seen ++ [i]) (search_step score search i).
Proof.
  intros Hi [Hc Hb]. unfold search_step. set (angle := candidate_angle i). set (value := score angle).
  destruct (f64_lt (best_score search) value) eqn:Hlt; cbn [orb].
  { split; simpl; [by apply candidates_ok|]. intros j [Hj| ->%list_elem_of_singleton]%elem_of_app.
    - destruct (Hb j Hj) as [Hnot _]. split; [by eapply f64_not_lt_trans|]. intros Heq.
      by rewrite (f64_eq_trans_lt _ _ _ Heq Hlt) in Hnot.
    - fold angle value. split; [apply f64_lt_irrefl|intros _; apply f64_lt_irrefl]. }
  destruct (f64_eq value (best_score search)) eqn:Heq; cbn [andb orb].
  - assert (Hold : ∀ j, j ∈ seen →
      f64_lt value (score (candidate_angle j)) = false
      ∧ (f64_eq (score (candidate_angle j)) value = true →
         f64_lt (f64_abs (candidate_angle j)) (f64_abs (best_angle search)) = false)).
    { intros j Hj. destruct (Hb j Hj) as [Hnot Hdist]. destruct (f64_lt_eq _ _ (score (candidate_angle j)) Heq) as [-> _].
      split; [done|]. intros Hjv. apply Hdist. by rewrite (f64_eq_trans _ _ _ Hjv Heq). }
    destruct (f64_lt (f64_abs angle) (f64_abs (best_angle search))) eqn:Hd; cbn [orb].
    { split; simpl; [by apply candidates_ok|]. intros j [Hj| ->%list_elem_of_singleton]%elem_of_app.
      - destruct (Hold j Hj) as [Hnot Hdist]. split; [done|]. intros Hjv. specialize (Hdist Hjv).
        destruct (f64_lt (f64_abs (candidate_angle j)) (f64_abs angle)) eqn:Hja; [|done].
        by rewrite (f64_lt_trans _ _ _ Hja Hd) in Hdist.
      - split; [apply f64_lt_irrefl|intros _; apply f64_lt_irrefl]. }
    destruct (f64_eq (f64_abs angle) (f64_abs (best_angle search)) && _) eqn:Hd2.
    { apply andb_true_iff in Hd2 as [Hd2 _]. split; simpl; [by apply candidates_ok|].
      intros j [Hj| ->%list_elem_of_singleton]%elem_of_app.
      - destruct (Hold j Hj) as [Hnot Hdist]. split; [done|]. intros Hjv. specialize (Hdist Hjv).
        destruct (f64_lt_eq _ _ (f64_abs (candidate_angle j)) Hd2) as [_ ->]. done.
      - split; [apply f64_lt_irrefl|intros _; apply f64_lt_irrefl]. }
    split; simpl; [done|]. intros j [Hj| ->%list_elem_of_singleton]%elem_of_app; [by apply Hb|].
    split; [done|]. intros _. done.
  - split; simpl; [done|]. intros j [Hj| ->%list_elem_of_singleton]%elem_of_app; [by apply Hb|].
    fold angle value. split; [done|]. by rewrite Heq.
Qed.

Lemma search_angles_best : best_of (seqZ 0 CANDIDATE_ANGLES) (search_angles score).
Proof.
  unfold search_angles.
  assert (Hfold : ∀ rest seen search, Forall (λ i, 0 ≤ i < CANDIDATE_ANGLES) rest → best_of seen search →
    best_of (seen ++ rest) (fold_left (search_step score) rest search)).
  { induction rest as [|i rest IH]; intros seen search Hrest Hbest; [by rewrite app_nil_r|].
    inversion Hrest; subst. cbn [fold_left].
    replace (seen ++ i :: rest) with ((seen ++ [i]) ++ rest) by by rewrite <- app_assoc.
    apply IH; [done|]. by apply search_step_best. }
  apply (Hfold (seqZ 0 CANDIDATE_ANGLES) []); [|split; [vm_compute; reflexivity|set_solver]].
  apply Forall_forall. intros i Hi%elem_of_seqZ. lia.
Qed.
End Search.

(** ** Deskewing *)

Section Deskew.
Context (cos sin : f64 → f64) (hypot : f64 → f64 → f64).

Lemma sample_pixels_bounded image : zlen (sample_pixels image) ≤ MAXIMUM_SAMPLED_PIXELS.
Proof.
  unfold sample_pixels, zlen. rewrite length_take. unfold MAXIMUM_SAMPLED_PIXELS. lia.
Qed.

Lemma positions_length width height :
  0 ≤ width → 0 ≤ height → zlen (positions width height) = width * height.
Proof.
  intros Hw Hh. unfold positions, zlen.
  assert (Hrows : ∀ ys : list Z,
    Z.of_nat (length (concat ((λ y, (λ x, (x, y)) <$> seqZ 0 width) <$> ys))) = width * Z.of_nat (length ys)).
  { induction ys as [|y ys IH]; cbn [fmap list_fmap concat]; [simpl; lia|].
    rewrite length_app, length_fmap, length_seqZ, Nat2Z.inj_add, IH. simpl. lia. }
  rewrite Hrows, length_seqZ. lia.
Qed.

Lemma bilinear_luma_byte source x y :
  0 ≤ bilinear_luma source x y ≤ 255.
Proof.
  unfold bilinear_luma. case_match; [lia|]. by apply (as_unsigned_range 255).
Qed.

Lemma rotate_bilinear_ok source angle :
  0 ≤ image_width source → 0 ≤ image_height source →
  image_width (rotate_bilinear cos sin source angle) = image_width source
  ∧ image_height (rotate_bilinear cos sin source angle) = image_height source
  ∧ zlen (image_pixels (rotate_bilinear cos sin source angle)) = image_width source * image_height source
  ∧ Forall (contains 0 255) (image_pixels (rotate_bilinear cos sin source angle)).
Proof.
  intros Hw Hh. unfold rotate_bilinear. simpl. split_and!; [done|done| |].
  - unfold zlen. rewrite length_fmap. by apply positions_length.
  - apply Forall_fmap, Forall_forall. intros [x y] _. cbn.
    apply Is_true_true, contains_true. apply bilinear_luma_byte.
Qed.

(** The points that [estimate_skew] scores the angles by. *)
Definition estimate_ok (image : PreparedImage) (e : SkewEstimate) : Prop :=
  sampled_points e ≤ MAXIMUM_SAMPLED_PIXELS ∧ candidate_ok (degrees (correction e)) = true
  ∧ (f64_eq (skew_confidence e) f64_zero = true
     ∨ ∃ ink, 32 ≤ zlen ink ∧ ink ⊆ (fst <$> sample_pixels (prepared_image image))
       ∧ let score := projection_score cos sin hypot ink (image_width (prepared_image image))
                        (image_height (prepared_image image)) in
         ∃ search, best_of score (seqZ 0 CANDIDATE_ANGLES) search
         ∧ best_angle search = degrees (correction e) ∧ search_confidence search = skew_confidence e).

Lemma DeskewAngle_new_candidate angle :
  candidate_ok angle = true → DeskewAngle_new angle = Ok (mkDeskewAngle angle).
Proof. unfold DeskewAngle_new, candidate_ok. by intros ->. Qed.

Lemma estimate_skew_ok image : ∃ e, estimate_skew cos sin hypot image = Ok e ∧ estimate_ok image e.
Proof.
  unfold estimate_skew, estimate_ok. pose proof (sample_pixels_bounded (prepared_image image)) as Hmax.
  set (sampled := sample_pixels (prepared_image image)) in *. clearbody sampled.
  set (values := snd <$> sampled). set (least := default 0 (head _)). set (greatest := default 0 (last _)).
  set (threshold := Z.min 255 _). set (ink := fst <$> List.filter _ sampled).
  assert (Hsub : ink ⊆ (fst <$> sampled)).
  { unfold ink. intros p (e & -> & He)%list_elem_of_fmap. apply list_elem_of_fmap. exists e. split; [done|].
    apply list_elem_of_In, filter_In in He as [He _]. by apply list_elem_of_In. }
  clearbody ink least greatest. clear values threshold.
  destruct ((zlen ink <? 32) || (least =? greatest)) eqn:Hfew.
  { assert (Hz : candidate_ok f64_zero = true) by (vm_compute; reflexivity).
    rewrite (DeskewAngle_new_candidate _ Hz). cbn [and_then].
    eexists. split; [done|]. cbn [sampled_points correction degrees skew_confidence].
    split_and!; [done|done|left; vm_compute; reflexivity]. }
  apply orb_false_iff in Hfew as [Hfew _]. apply Z.ltb_ge in Hfew.
  set (score := projection_score cos sin hypot ink (image_width (prepared_image image))
                  (image_height (prepared_image image))).
  pose proof (search_angles_best score) as Hbest. set (search := search_angles score) in *.
  clearbody search. pose proof (best_candidate _ _ _ Hbest) as Hc.
  rewrite (DeskewAngle_new_candidate _ Hc). cbn [and_then].
  eexists. split; [done|]. cbn [sampled_points correction degrees skew_confidence].
  split_and!; [done|done|]. right. exists ink. split_and!; [done|done|]. by exists search.
Qed.

(** Deskewing always succeeds and never damages an image: the skew is estimated from
    at most fifty thousand pixels, at an angle of at most twelve degrees; unless its
    confidence is zero it is one than which none of the 97 candidates scores more, nor
    as much at a smaller angle; the correction is applied exactly when the angle is
    material and the confidence suffices, and then the image keeps its size, its pixels
    are bytes and the one step put on record is this correction; otherwise the image is
    returned as it was. *)
Theorem deskew_corrects_best_angle image policy :
  0 ≤ image_width (prepared_image image) → 0 ≤ image_height (prepared_image image) →
  ∃ r, deskew_image cos sin hypot image policy = Ok r
  ∧ estimate_ok image (estimate r)
  ∧ let angle := correction (estimate r) in
    if f64_lt (f64_abs (degrees angle)) (minimum_material_degrees policy)
       || f64_lt (skew_confidence (estimate r)) (minimum_confidence policy)
    then decision r ≠ Applied ∧ deskewed_image r = image
    else decision r = Applied
      ∧ prepared_quality (deskewed_image r) = prepared_quality image
      ∧ steps (prepared_transforms (deskewed_image r))
        = steps (prepared_transforms image) ++ [TransformStep.Deskew angle]
      ∧ image_width (prepared_image (deskewed_image r)) = image_width (prepared_image image)
      ∧ image_height (prepared_image (deskewed_image r)) = image_height (prepared_image image)
      ∧ zlen (image_pixels (prepared_image (deskewed_image r)))
        = image_width (prepared_image image) * image_height (prepared_image image)
      ∧ Forall (contains 0 255) (image_pixels (prepared_image (deskewed_image r))).
Proof.
  intros Hw Hh. destruct (estimate_skew_ok image) as (e & He & Hok). unfold deskew_image. rewrite He.
  cbn [and_then]. destruct (f64_lt (f64_abs (degrees (correction e))) (minimum_material_degrees policy)) eqn:Hm.
  { eexists. split; [done|]. cbn [estimate]. rewrite Hm. done. }
  destruct (f64_lt (skew_confidence e) (minimum_confidence policy)) eqn:Hc.
  { eexists. split; [done|]. cbn [estimate]. rewrite Hm, Hc. done. }
  eexists. split; [done|]. cbn [estimate deskewed_image decision]. rewrite Hm, Hc. split; [done|].
  cbn [orb prepared_image prepared_quality prepared_transforms].
  destruct (rotate_bilinear_ok (prepared_image image) (correction e) Hw Hh) as (H1 & H2 & H3 & H4).
  by split_and!.
Qed.
End Deskew.

(** ** Coordinates *)

(** The turn of the pixels and the recorded step agree on square images only: on an image
    twice as wide as it is high, turned by an angle of sine 0.6, the pixel in the middle
    of the right edge comes from outside of the image, and the recorded step maps it to a
    point a fifth from the top. *)
Example deskew_step_ignores_proportions :
  let cos_ _ := f64_dec 8 1 in
  let sin_ _ := f64_dec 6 1 in
  let angle := mkDeskewAngle (f64_of_Z 10) in
  source_position cos_ sin_ 201 101 angle (f64_of_Z 200) (f64_of_Z 50) = (f64_of_Z 180, f64_of_Z (-10))
  ∧ match map_to_original cos_ sin_ (mkTransformChain [TransformStep.Deskew angle]) f64_one f64_half with
    | Ok (x, y) => f64_eq x (f64_dec 9 1) = true ∧ f64_lt (f64_dec 19 2) y = true ∧ f64_lt y (f64_dec 21 2) = true
    | Err _ => False
    end.
Proof. vm_compute. auto. Qed.

(** ** Samples *)

Definition sample_gray : GrayImage := mkGrayImage 8 8 (concat (replicate 4 (replicate 8 10 ++ replicate 8 240))).

Definition sample_decoder : Decoder :=
  mkDecoder (λ _, Some (8, 8)) (λ _, Some sample_gray) (λ _, Some Rotate90) (λ _, Some sample_gray).

#[local] Notation sample_thresholds := (mkQualityThresholds 8 8 f64_zero).
#[local] Notation sample_quality := (assess sample_thresholds 8 8 sample_gray).

Lemma prepared_image_is_usable_witness :
  prepare_image sample_decoder [1; 2; 3] (mkImageLimits 100 100) sample_thresholds
  = Ok (PreparationOutcome.Ready
          (mkPreparedImage sample_gray sample_quality
             (mkTransformChain [TransformStep.Rotation Clockwise90]))).
Proof.
  assert (Hq : inspect_image_with_thresholds sample_decoder [1; 2; 3] (mkImageLimits 100 100) sample_thresholds
    = Ok sample_quality) by reflexivity.
  destruct (prepared_image_is_usable sample_decoder [1; 2; 3] (mkImageLimits 100 100) sample_thresholds
    sample_quality Rotate90 sample_gray Hq eq_refl eq_refl) as [-> _].
  vm_compute. reflexivity.
Defined.

Lemma glare_counts_pixels_witness :
  has_glare sample_gray 64 = false ∧ at_most 217 (image_pixels sample_gray) = 32.
Proof.
  assert (Hb : Forall (contains 0 255) (image_pixels sample_gray)).
  { apply Forall_forall. intros p Hp. assert (Hall : forallb (contains 0 255) (image_pixels sample_gray) = true)
      by reflexivity. rewrite forallb_forall in Hall. apply Is_true_true, Hall, list_elem_of_In, Hp. }
  pose proof (glare_counts_pixels sample_gray Hb) as H. cbv zeta in H.
  change (zlen (image_pixels sample_gray)) with 64 in H. rewrite H. split; vm_compute; reflexivity.
Defined.

Lemma deskew_corrects_best_angle_witness :
  ∃ r, deskew_image (λ _, f64_one) (λ _, f64_zero) (λ x _, x)
         (mkPreparedImage sample_gray sample_quality (mkTransformChain []))
         (mkDeskewPolicy f64_half f64_half) = Ok r
  ∧ sampled_points (estimate r) ≤ MAXIMUM_SAMPLED_PIXELS.
Proof.
  assert (Hw : 0 ≤ 8) by lia.
  destruct (deskew_corrects_best_angle (λ _, f64_one) (λ _, f64_zero) (λ x _, x)
    (mkPreparedImage sample_gray sample_quality (mkTransformChain [])) (mkDeskewPolicy f64_half f64_half) Hw Hw)
    as (r & Hr & Hok & _).
  exists r. split; [exact Hr|exact (proj1 Hok)].
Defined.
