(* ===== verification/Activities.v ===== *)
(** * Activities: what the durable workflows execute

    Models the activities of [ocr-temporal/src/lib.rs]: the executors around the page
    runner and the finalizer, the mapping of their failures, the [select!] loops that run
    them under a heartbeat and a cancellation, their options, and the gateway to the
    Temporal service.  The service itself is a parameter: its client's calls are
    functions on a state, and which branch of a [select!] is taken is the order of the
    events given. *)

From S2P Require Import Prelude Text DomainTypes Identifiers PageWorkflow Document StoreTypes.
From S2P Require Import StoreDb NativePages PageRunner Artifacts Assembly.
From S2P Require Import Finalizer Relay Temporal.

#[local] Open Scope list_scope.
#[local] Open Scope Z_scope.

(** ** Options *)

(** Durations are in seconds. *)
Record ActivityPolicy := mkActivityPolicy {
  start_to_close_timeout : Z;
  heartbeat_timeout : Z;
  maximum_attempts : nat;
  initial_backoff : Z;
  maximum_backoff : Z;
}.

Definition page_ocr : ActivityPolicy :=
  mkActivityPolicy 120 10 MAXIMUM_ACTIVITY_ATTEMPTS 1 30.

Definition non_retryable_errors : list string := ["invalid_document"; "scope_violation"].

Record RetryPolicy := mkRetryPolicy {
  initial_interval : Z;
  maximum_interval : Z;
  retry_attempts : nat;
  non_retryable_error_types : list string;
}.

(** [ActivityOptions]; every activity waits for the end of its cancellation. *)
Record ActivityOptions := mkActivityOptions {
  options_timeout : Z;
  options_activity_id : string;
  options_heartbeat : option Z;
  options_retry : RetryPolicy;
}.

Definition policy_retry (policy : ActivityPolicy) (types : list string) : RetryPolicy :=
  mkRetryPolicy (initial_backoff policy) (maximum_backoff policy) (maximum_attempts policy) types.

Definition activity_options (iteration : Z) (activity_name : string) : option ActivityOptions :=
  if negb (contains 1 MAX_DURABLE_RUNNER_ITERATIONS iteration) then None
  else Some (mkActivityOptions (start_to_close_timeout page_ocr)
               (activity_name +:+ "-" +:+ show_dec4 iteration)
               (Some (heartbeat_timeout page_ocr)) (policy_retry page_ocr [])).

Definition durable_activity_options (iteration : Z) : option ActivityOptions :=
  activity_options iteration "ocr-runner".

Definition finalization_activity_options (iteration : Z) : option ActivityOptions :=
  if negb (contains 1 MAX_DURABLE_RUNNER_ITERATIONS iteration) then None
  else Some (mkActivityOptions 180 ("ocr-finalize-" +:+ show_dec4 iteration) None
               (policy_retry page_ocr [])).

Definition page_activity_options (page : Z) : ActivityOptions :=
  mkActivityOptions (start_to_close_timeout page_ocr) ("ocr-page-" +:+ show_dec4 page)
    (Some (heartbeat_timeout page_ocr)) (policy_retry page_ocr non_retryable_errors).

(** ** Failures *)

(** [ActivityError]; a delay is in seconds. *)
Module ActivityError.
Inductive ActivityError :=
| Retryable (kind : DurableExecutionErrorKind) (next_retry_delay : option Z)
| NonRetryable (kind : DurableExecutionErrorKind)
| Cancelled
| Heartbeat.
End ActivityError.

(** [subsec_nanos] is [None] when the clock is before 1970. *)
Definition into_activity_error (subsec_nanos : option Z) (kind : DurableExecutionErrorKind)
    : ActivityError.ActivityError :=
  match kind with
  | ProviderRateLimited =>
      let jitter := match subsec_nanos with Some nanos => nanos mod 11 | None => 0 end in
      ActivityError.Retryable kind (Some (65 + jitter))
  | _ =>
      if is_retryable kind then ActivityError.Retryable kind None
      else ActivityError.NonRetryable kind
  end.

(** ** The executors *)

(** [DocumentFinalizerExecutor::run] on what the finalizer answers. *)
Definition finalization_kind
    (outcome : FinalizeResult CommitResultOutcome.CommitResultOutcome)
    : result DurableExecutionErrorKind () :=
  match outcome with
  | Ok (CommitResultOutcome.Committed _) | Ok (CommitResultOutcome.Existing _) => Ok tt
  | Ok CommitResultOutcome.Conflict | Ok CommitResultOutcome.NotCommittable => Err InvalidInput
  | Ok CommitResultOutcome.NotFound => Err ScopeNotFound
  | Err error =>
      Err match error with
          | DocumentFinalizeError.Cancelled => ScopeNotFound
          | DocumentFinalizeError.InvalidConfiguration
          | DocumentFinalizeError.InvalidPageArtifact
          | DocumentFinalizeError.UnregisteredSchema
          | DocumentFinalizeError.Assembly _ => InvalidInput
          | DocumentFinalizeError.NotReady
          | DocumentFinalizeError.IncompleteArtifacts
          | DocumentFinalizeError.PageArtifact _
          | DocumentFinalizeError.Publish _
          | DocumentFinalizeError.Store _ => DependencyUnavailable
          end
  end.

Record CheckpointedPageExecutor := mkCheckpointedPageExecutor {
  executor_batch_size : Z;
  executor_concurrency : Z;
}.

Definition CheckpointedPageExecutor_new (batch_size concurrency : Z)
    : result DurableExecutionErrorKind CheckpointedPageExecutor :=
  let? _ := map_err (CheckpointedPageRunner_new batch_size concurrency)
              DurableExecutionError_from_ref in
  Ok (mkCheckpointedPageExecutor batch_size concurrency).

Section Executors.
Context {G Value : Type}.
Context (serde_size jsonb_size : RawPageWorkflow → Z).

Notation World := (Db * NativeDb * G)%type.

(** [process], [complete] and [disturb] are what the processor answers, in which order
    its pages finish and what the other workers do before the first and the second save,
    in a state of the world; [settle] is what the processing does to that state. *)
Definition CheckpointedPageExecutor_run (self : CheckpointedPageExecutor)
    (process : World → PageTask → ProcessResult)
    (complete : World → list (PageTask * ProcessResult) → list (PageTask * ProcessResult))
    (disturb : World → nat → Db → Db) (settle : World → G) (input : DurableActivityInput)
    (world : World)
    : result DurableExecutionErrorKind DurableActivityStatus.DurableActivityStatus * World :=
  match CheckpointedPageRunner_new (executor_batch_size self) (executor_concurrency self) with
  | Err e => (Err (DurableExecutionError_from_ref e), world)
  | Ok runner =>
      let '(db, native, g) := world in
      let (outcome, db) :=
        run_once serde_size jsonb_size runner (dai_tenant_id input) (dai_product_id input)
          (dai_job_id input) (process world) (complete world) (disturb world 0%nat)
          (disturb world 1%nat) db in
      (executor_output outcome, (db, native, settle world))
  end.

Definition DocumentFinalizerExecutor_run
    (finalize_stored : TenantId → ProductId → JobId → World →
       FinalizeResult CommitResultOutcome.CommitResultOutcome * World)
    (input : DurableActivityInput) (world : World) : result DurableExecutionErrorKind () * World :=
  let (outcome, world) :=
    finalize_stored (dai_tenant_id input) (dai_product_id input) (dai_job_id input) world in
  (finalization_kind outcome, world).
End Executors.

(** ** The activities *)

(** The branch that a round of [select!] takes: the execution is done with this result,
    the activity is cancelled, or a heartbeat is due and is recorded or not. *)
Inductive Branch (A : Type) :=
| Done (result : result DurableExecutionErrorKind A)
| CancelRequested
| Tick (recorded : bool).
Arguments Done {A}.
Arguments CancelRequested {A}.
Arguments Tick {A}.

(** [run_checkpointed_pages], with the number of heartbeats recorded; [None] while it
    goes on. *)
Fixpoint run_checkpointed_pages {A : Type} (subsec_nanos : option Z) (heartbeats : nat)
    (branches : list (Branch A)) : option (result ActivityError.ActivityError A) * nat :=
  match branches with
  | [] => (None, heartbeats)
  | Done r :: _ => (Some (map_err r (into_activity_error subsec_nanos)), heartbeats)
  | CancelRequested :: _ => (Some (Err ActivityError.Cancelled), heartbeats)
  | Tick true :: rest => run_checkpointed_pages subsec_nanos (S heartbeats) rest
  | Tick false :: _ => (Some (Err ActivityError.Heartbeat), heartbeats)
  end.

(** [finalize_document] has no heartbeat: [None] is a cancellation. *)
Definition finalize_document (subsec_nanos : option Z)
    (branch : option (result DurableExecutionErrorKind ()))
    : result ActivityError.ActivityError () :=
  match branch with
  | Some r => map_err r (into_activity_error subsec_nanos)
  | None => Err ActivityError.Cancelled
  end.

(** ** The qualification activity *)

Record PageActivityInput := mkPageActivityInput {
  pai_product_id : ProductId;
  pai_tenant_id : TenantId;
  pai_job_id : JobId;
  pai_page : Z;
}.

Definition PageActivityInput_deserialize (wire : PageActivityInput) : option PageActivityInput :=
  if negb (contains 1 MAXIMUM_PAGE_COUNT (pai_page wire)) then None else Some wire.

Definition page_activity_input (self : WorkflowRunInput) (page : Z) : PageActivityInput :=
  mkPageActivityInput (wri_product_id self) (wri_tenant_id self) (wri_job_id self) page.

(** [started] and [started_endpoint] are observers: only whether they are set counts. *)
Record QualificationPageActivities := mkQualificationPageActivities {
  started : bool;
  started_page : option Z;
  started_endpoint : bool;
  heartbeat_steps : Z;
}.

Definition qualification_default : QualificationPageActivities :=
  mkQualificationPageActivities false None false 1.

Definition with_started_notifier : QualificationPageActivities :=
  mkQualificationPageActivities true (Some 1) false 100.

Definition with_page_started_notifier (page : Z) : option QualificationPageActivities :=
  if contains 1 MAXIMUM_PAGE_COUNT page
  then Some (mkQualificationPageActivities true (Some page) false 100) else None.

Definition held_for_process_loss : QualificationPageActivities :=
  mkQualificationPageActivities false None true 1000.

(** The [for] loop: [is_cancelled k] after the [k]-th step, and the heartbeats recorded. *)
Fixpoint heartbeats_from (is_cancelled recorded : Z → bool) (progress : Z) (steps : nat)
    : result ActivityError.ActivityError () * Z :=
  match steps with
  | O => (Ok tt, progress)
  | S steps =>
      if negb (recorded (progress + 1)) then (Err ActivityError.Heartbeat, progress)
      else if is_cancelled (progress + 1) then (Err ActivityError.Cancelled, progress + 1)
      else heartbeats_from is_cancelled recorded (progress + 1) steps
  end.

(** The page, whether its start was notified, and the heartbeats recorded. *)
Definition qualify_page (self : QualificationPageActivities) (is_cancelled recorded : Z → bool)
    (input : PageActivityInput) : result ActivityError.ActivityError Z * bool * Z :=
  let is_observed_page := bool_decide (started_page self = Some (pai_page input)) in
  let notified := started self && is_observed_page in
  if is_cancelled 0 then (Err ActivityError.Cancelled, notified, 0)
  else
    let steps :=
      if is_observed_page || started_endpoint self then heartbeat_steps self else 1 in
    let (outcome, progress) := heartbeats_from is_cancelled recorded 0 (Z.to_nat steps) in
    ((let? _ := outcome in Ok (pai_page input)), notified, progress).

(** ** The gateway *)

Module WorkflowStartError.
Inductive WorkflowStartError := AlreadyStarted | Other.
End WorkflowStartError.

Module WorkflowInteractionError.
Inductive WorkflowInteractionError := NotFound | Other.
End WorkflowInteractionError.

Section Gateway.
Context {G : Type}.
(** [Client::start_workflow] of the durable workflow with
    [WorkflowIdReusePolicy::RejectDuplicate], and [WorkflowHandle::cancel]. *)
Context (start_workflow : string → string → DurableWorkflowRunInput → G →
  result WorkflowStartError.WorkflowStartError () * G).
Context (cancel_workflow : string → string → G →
  result WorkflowInteractionError.WorkflowInteractionError () * G).

Definition OfficialTemporalGateway_execute (command : TemporalCommand) (g : G)
    : result GatewayError.GatewayError GatewayOutcome.GatewayOutcome * G :=
  match command with
  | StartCommand workflow_id _ task_queue input =>
      let run_input :=
        DurableWorkflowRunInput_first
          (DurableActivityInput_new (wi_product_id input) (wi_tenant_id input)
             (wi_job_id input)) in
      let (started, g) := start_workflow task_queue workflow_id run_input g in
      (match started with
       | Ok _ => Ok GatewayOutcome.Accepted
       | Err WorkflowStartError.AlreadyStarted => Ok GatewayOutcome.AlreadyExists
       | Err WorkflowStartError.Other => Err GatewayError.Unavailable
       end, g)
  | CancelCommand workflow_id request_id =>
      let (cancelled, g) := cancel_workflow workflow_id request_id g in
      (match cancelled with
       | Ok _ => Ok GatewayOutcome.Accepted
       | Err WorkflowInteractionError.NotFound => Ok GatewayOutcome.AlreadyExists
       | Err WorkflowInteractionError.Other => Err GatewayError.Unavailable
       end, g)
  end.
End Gateway.

(** The input of the activities of a run. *)
Definition activity_input (self : DurableWorkflowRunInput) : DurableActivityInput :=
  DurableActivityInput_new (dri_product_id self) (dri_tenant_id self) (dri_job_id self).
