(* ===== verification/ActivitiesFacts.v ===== *)
(** * ActivitiesFacts: what the executed activities achieve

    A workflow that is started by the dispatcher and finishes has delivered the job's
    result; and which failures of an activity are tried again. *)

From S2P Require Import Prelude Text DomainTypes Identifiers Digest Geometry PageWorkflow.
From S2P Require Import PageWorkflowFacts Document DocumentFacts StoreTypes StoreChecks StoreDb.
From S2P Require Import StoreJobs StorePages StoreUploads StoreOutbox StoreRun StoreJobsFacts.
From S2P Require Import StorePagesFacts PageRunner PageRunnerFacts Temporal TemporalFacts.
From S2P Require Import Artifacts Assembly AssemblyFacts NativePages Recognition Finalizer.
From S2P Require Import FinalizerFacts Relay Activities.

#[local] Open Scope list_scope.
#[local] Open Scope Z_scope.

#[local] Arguments contains : simpl never.
#[local] Arguments String.eqb : simpl never.

(** ** Runs that finish *)

Section Runs.
Context {World : Type} (R : World → World → Prop).
Context (Rrefl : ∀ w, R w w) (Rtrans : ∀ w1 w2 w3, R w1 w2 → R w2 w3 → R w1 w3).

(** A successful activity is a successful execution after earlier ones. *)
Lemma with_retries_Ok {A} attempts (execute : World → result DurableExecutionErrorKind A * World)
    world a world' :
  (∀ w, R w (execute w).2) →
  with_retries attempts execute world = (Ok a, world') →
  ∃ w, R world w ∧ execute w = (Ok a, world').
Proof.
  intros Hex. revert world. induction attempts as [|attempts IH]; intros world; simpl;
    pose proof (Hex world) as HR; destruct (execute world) as [[b|kind] w1] eqn:He; simpl in HR.
  - intros [= <- <-]. by exists world.
  - done.
  - intros [= <- <-]. by exists world.
  - destruct attempts as [|attempts]; [done|]. destruct (is_retryable kind); [|done].
    intros (w & Hw & Hew)%IH. exists w. split; [by eapply Rtrans|done].
Qed.

Lemma with_retries_R {A} attempts (execute : World → result DurableExecutionErrorKind A * World) world :
  (∀ w, R w (execute w).2) → R world (with_retries attempts execute world).2.
Proof.
  intros Hex. revert world. induction attempts as [|attempts IH]; intros world; simpl;
    pose proof (Hex world) as HR; destruct (execute world) as [[b|kind] w1]; simpl in *; try done.
  destruct attempts as [|attempts]; [done|]. destruct (is_retryable kind); [|done].
  by eapply Rtrans.
Qed.

Context (activity : Z → World →
  result DurableExecutionErrorKind DurableActivityStatus.DurableActivityStatus * World).
Context (finalize : Z → World → result DurableExecutionErrorKind () * World).
Context (activity_R : ∀ i w, R w (activity i w).2).

(** A job that a run leaves with results was finalized by it. *)
Lemma run_iterations_R run iterations world finish world' :
  run_iterations activity finalize run iterations world = (finish, world') →
  (finish = None → R world world')
  ∧ (∀ next, finish ≠ Some (ContinueAsNew next))
  ∧ ∀ m, finish = Some (Finished m) → metadata_status m ≠ DurableActivityStatus.Cancelled →
      ∃ i w, R world w ∧ finalize i w = (Ok tt, world').
Proof.
  revert world. induction iterations as [|i iterations IH]; intros world; simpl.
  - intros [= <- <-]. by split_and!.
  - destruct (negb _); [by intros [= <- <-]; split_and!|]. pose proof (activity_R i world) as HR.
    destruct (activity i world) as [[status|kind] w1]; simpl in HR;
      [|by intros [= <- <-]; split_and!].
    destruct status.
    + intros (Hnone & Hcont & Hsome)%IH.
      split; [intros Hf; eapply Rtrans; [exact HR|by apply Hnone]|]. split; [exact Hcont|].
      intros m Hm Hs. destruct (Hsome m Hm Hs) as (k & w & Hw & Hk). exists k, w.
      split; [by eapply Rtrans|done].
    + destruct (finalize i w1) as [[[]|kind] w2] eqn:Hf; intros [= <- <-]; (split; [done|split; [done|]]);
        intros m Hm _; [by exists i, w1|done].
    + destruct (finalize i w1) as [[[]|kind] w2] eqn:Hf; intros [= <- <-]; (split; [done|split; [done|]]);
        intros m Hm _; [by exists i, w1|done].
    + intros [= <- <-]. split; [done|]. split; [done|]. intros m [= <-] Hs. by destruct Hs.
Qed.

Lemma execute_workflow_finalized fuel input world m world' :
  execute_workflow activity finalize fuel input world = (Some (Finished m), world') →
  metadata_status m ≠ DurableActivityStatus.Cancelled →
  ∃ i w, R world w ∧ finalize i w = (Ok tt, world').
Proof.
  revert input world. induction fuel as [|fuel IH]; intros input world; [done|].
  simpl. unfold DurableDocumentWorkflow_run.
  destruct (run_iterations _ _ _ _ world) as [finish w1] eqn:Hrun.
  apply run_iterations_R in Hrun as (Hnone & Hcont & Hsome). destruct finish as [finish|].
  - intros Hfin Hs. destruct finish as [m'| |next]; [|by injection Hfin|].
    + injection Hfin as <- <-. by apply (Hsome m').
    + by destruct (Hcont next).
  - destruct (DurableWorkflowRunInput_next_run input) as [next|]; [|by intros [= <-]].
    destruct (DurableWorkflowRunInput_deserialize next) as [next'|]; [|done].
    intros Hfin Hs. destruct (IH _ _ Hfin Hs) as (i & w & Hw & Hi). exists i, w.
    split; [eapply Rtrans; [by apply Hnone|done]|done].
Qed.
End Runs.

(** ** A result stays *)

Section Delivery.
Context {G Value : Type} {ss js : RawPageWorkflow → Z}.

Lemma ready_later t p j db db2 l :
  reachable ss js db → find_result t p j db = Ok (ResultLookup.Ready l) →
  effect_of_ops ss js db db2 →
  find_result t p j db2 = find_result t p j db ∧ find t p j db2 = find t p j db.
Proof.
  intros Hreach Hf (ops & Hops & ->). apply reachable_jobs_ok in Hreach as Hok.
  unfold find_result in Hf. destruct (select_job t p j db) as [row|] eqn:Hj; [|done].
  apply and_then_Ok in Hf as (state & Hstate & Hf).
  destruct (select_result t p j db) as [res|] eqn:Hres; [|by destruct state].
  destruct (is_result_state state) eqn:Hrs; [|done].
  assert (Hs : jr_status row = job_state_text state) by (by apply parse_job_state_Ok).
  destruct (delivered_later ss js db ops t p j row state Hok Hops Hj Hs) as [Hj2 Hres2];
    [by destruct state|].
  assert (Hsel : select_result t p j (run_ops ss js ops db) = select_result t p j db)
    by (unfold select_result; by rewrite Hres2).
  unfold find_result, find. by rewrite Hj2, Hj, Hsel.
Qed.

(** From [db] on, the job has a result, of state [sj_state job]. *)
Definition delivered (t : TenantId) (p : ProductId) (j : JobId) (db : Db) : Prop :=
  ∃ l job, ∀ db2, effect_of_ops ss js db db2 →
    find_result t p j db2 = Ok (ResultLookup.Ready l) ∧ find t p j db2 = Ok (Some job).

Lemma ready_delivered t p j db l job :
  reachable ss js db → find_result t p j db = Ok (ResultLookup.Ready l) →
  find t p j db = Ok (Some job) → delivered t p j db.
Proof.
  intros Hreach Hr Hf. exists l, job. intros db2 He.
  destruct (ready_later _ _ _ _ _ _ Hreach Hr He) as [-> ->]. done.
Qed.

Lemma commit_existing now t p j c db job db' :
  commit_result now t p j c db = Ok (CommitResultOutcome.Existing job, db') →
  db' = db ∧ (∃ l, find_result t p j db = Ok (ResultLookup.Ready l))
  ∧ find t p j db = Ok (Some job).
Proof.
  unfold commit_result. intros (_ & _ & H)%and_then_Ok.
  destruct (is_result_state (terminal_state c)) eqn:Hrs; simpl in H; [|done].
  destruct (select_job t p j db) as [row|] eqn:Hj; [|done].
  apply and_then_Ok in H as (found & Hst & H).
  destruct (select_result t p j db) as [res|] eqn:Hres.
  - apply and_then_Ok in H as (l & Hl & H).
    destruct (_ && _) eqn:Heq; [|done]. injection H as <- <-.
    apply andb_true_iff in Heq as [_ Hstate%bool_decide_eq_true].
    split; [done|]. split; [exists l|unfold find; by rewrite Hj, Hst].
    unfold find_result. rewrite Hj. apply stored_job_Ok in Hst as (? & _ & Hs & _).
    rewrite Hs, parse_job_state_text. simpl. by rewrite Hres, Hstate, Hrs, Hl.
  - exfalso. destruct (negb _); [done|]. apply and_then_Ok in H as (? & _ & H).
    apply and_then_Ok in H as (? & _ & H). apply and_then_Ok in H as ([completed db1] & _ & H).
    apply and_then_Ok in H as (? & _ & H). destruct (jr_webhook_subscription_id row); [|done].
    by apply and_then_Ok in H as (? & _ & H).
Qed.

(** ** What the executors do to the store *)

Lemma save_effect t p j rev w artifacts db out db' :
  workflow_ok w →
  save_page_workflow_with_artifacts ss js t p j rev w artifacts db = Ok (out, db') →
  effect_of_ops ss js db db'.
Proof.
  intros Hw Hs. rewrite <- (db_after_Ok _ _ _ _ Hs).
  exact (effect_op (OpSavePageWorkflow t p j rev w artifacts) db Hw).
Qed.

Lemma claim_batch_effect self t p j between db :
  reachable ss js db → (∀ db, effect_of_ops ss js db (between db)) →
  effect_of_ops ss js db (claim_batch ss js self t p j between db).2.
Proof.
  intros Hreach Hbetween. pose proof (reachable_pages_ok _ _ _ Hreach) as Hok.
  pose proof (reachable_pages_ok _ _ _ (effect_reachable _ _ Hreach (Hbetween db))) as Hok'.
  destruct (claim_batch ss js self t p j between db) as [[[outcome|[stored tasks]]|e] db1] eqn:Hc.
  - revert Hc. unfold claim_batch.
    destruct (load_page_workflow _ _ _ _ _) as [[found|]|]; [|done|done].
    destruct (claim_ready _ _) as [[w1 [|task tasks]]|]; [intros [= _ <-]; apply effect_none| |done].
    by destruct (save_page_workflow _ _ _ _ _ _ _ _) as [[[]?]|].
  - destruct (claim_batch_spec ss js _ _ _ _ _ _ _ _ _ Hok Hc)
      as (w0 & w1 & rev & _ & Hw1 & _ & _ & _ & _ & Hsave).
    eapply effect_trans; [apply Hbetween|]. exact (save_effect _ _ _ _ _ _ _ _ _ Hw1 Hsave).
  - revert Hc. unfold claim_batch.
    destruct (load_page_workflow _ _ _ _ _) as [[found|]|];
      [|intros [= _ <-]; apply effect_none|intros [= _ <-]; apply effect_none].
    destruct (claim_ready _ _) as [[w1 [|task tasks]]|]; [done| |intros [= _ <-]; apply effect_none].
    destruct (save_page_workflow _ _ _ _ _ _ _ _) as [[[]?]|] eqn:Hs; [done|..];
      intros [= _ <-]; try (apply save_unchanged in Hs as ->; [|done]); apply Hbetween.
Qed.

Lemma run_once_effect self t p j process complete between disturb db :
  reachable ss js db → (∀ l, complete l ≡ₚ l) → (∀ db, effect_of_ops ss js db (between db)) →
  (∀ db, effect_of_ops ss js db (disturb db)) →
  effect_of_ops ss js db (run_once ss js self t p j process complete between disturb db).2.
Proof.
  intros Hreach Hcomplete Hbetween Hdisturb.
  pose proof (claim_batch_effect self t p j between db Hreach Hbetween) as He.
  unfold run_once.
  destruct (claim_batch ss js self t p j between db) as [[[outcome|[stored tasks]]|e] db1] eqn:Hc;
    simpl in He; [done| |done].
  destruct (claim_batch_spec ss js _ _ _ _ _ _ _ _ _ (reachable_pages_ok _ _ _ Hreach) Hc)
    as (w0 & w1 & rev & Hw0 & Hw1 & _ & _ & Hcl & -> & _).
  eapply effect_trans; [exact He|]. eapply effect_trans; [apply Hdisturb|].
  destruct (claimed_batch_recorded w0 (batch_size self) w1 tasks process
    (complete (map (λ task, (task, process task)) tasks)))
    as (w & Hw & _ & Hrec); [done|done|by apply Hcomplete|].
  unfold save_batch. cbn [stored_workflow]. rewrite record_outcomes_spec, Hrec.
  destruct (save_page_workflow_with_artifacts _ _ _ _ _ _ _ _ _) as [[out db2]|] eqn:Hs;
    [|apply effect_none].
  pose proof (save_effect _ _ _ _ _ _ _ _ _ Hw Hs). by destruct out.
Qed.

(** ** What the finalizer does to the store *)

Context (write : ProductId → TenantId → JobId → DocumentResult Value → G →
  result ResultArtifactWriteError.ResultArtifactWriteError StoredResultLocator * G).
Context (read : StoredPageArtifact → Z → G →
  result PageArtifactReadError.PageArtifactReadError (list Z) * G).
Context (page_from_slice : list Z → option RawDocumentPage).
Context (extract : ExtractionSchema → list DocumentPage → ExtractedFields Value).
Context (result_to_vec : DocumentResult Value → option (list Z)).
Context (now : Z) (meanwhile : nat → Db * NativeDb → Db * NativeDb).
Context (arrange : list StoredPageArtifact → list StoredPageArtifact).
Context (Hmeanwhile : ∀ k db native, effect_of_ops ss js db (meanwhile k (db, native)).1).
Context (Hchecked : checked_pages page_from_slice).

#[local] Notation finalize_pages :=
  (finalize_pages js write read page_from_slice extract result_to_vec now meanwhile arrange).
#[local] Notation finalize :=
  (finalize js write read page_from_slice extract result_to_vec now meanwhile arrange).
#[local] Notation finalize_stored :=
  (finalize_stored js write read page_from_slice extract result_to_vec now meanwhile arrange).

(** A step of the finalizer from [db]: an effect on the store and, when it succeeds, a
    result for good. *)
Definition finalizing (t : TenantId) (p : ProductId) (j : JobId) (db : Db)
    (step : FinalizeResult CommitResultOutcome.CommitResultOutcome * (Db * NativeDb * G)) : Prop :=
  effect_of_ops ss js db step.2.1.1
  ∧ (finalization_kind step.1 = Ok tt → delivered t p j step.2.1.1).

Lemma finalizing_error t p j db e native g :
  finalizing t p j db (Err e, (db, native, g)).
Proof. split; [apply effect_none|done]. Qed.

Lemma finalizing_later t p j db db1 step :
  effect_of_ops ss js db db1 → finalizing t p j db1 step → finalizing t p j db step.
Proof. intros He [H1 H2]. split; [by eapply effect_trans|done]. Qed.

Lemma meanwhile_finalizing t p j k db native
    (step : Db * NativeDb → FinalizeResult CommitResultOutcome.CommitResultOutcome
                            * (Db * NativeDb * G)) :
  reachable ss js db →
  (∀ db1 native1, effect_of_ops ss js db db1 → reachable ss js db1 →
     finalizing t p j db1 (step (db1, native1))) →
  finalizing t p j db (step (meanwhile k (db, native))).
Proof.
  intros Hreach Hstep. pose proof (Hmeanwhile k db native) as He.
  destruct (meanwhile k (db, native)) as [db1 native1]. simpl in He.
  eapply finalizing_later; [exact He|]. apply Hstep; [done|]. by eapply effect_reachable.
Qed.

Lemma publish_finalizing disturb t p j state document db native native' g :
  reachable ss js db → (∀ db, effect_of_ops ss js db (disturb db)) →
  id_valid (document_id document) → id_valid (document_version document) →
  finalizing t p j db
    (let '(outcome, db, g) := publish write now disturb t p j state document db g in
     match outcome with
     | Err e => (Err (DocumentFinalizeError.Publish e), (db, native, g))
     | Ok outcome => (Ok outcome, (db, native' outcome, g))
     end).
Proof.
  intros Hreach Hdisturb Hid Hver. unfold publish.
  destruct (write p t j document g) as [[l|e] g1]; [|apply finalizing_error].
  destruct (_ || _) eqn:Hids; [apply finalizing_error|].
  rewrite orb_false_iff, !negb_false_iff, !bool_decide_eq_true in Hids. destruct Hids as [Hi Hv].
  pose proof (Hdisturb db) as Hd. apply (finalizing_later _ _ _ _ _ _ Hd).
  pose proof (effect_reachable _ _ Hreach Hd) as Hr.
  destruct (commit_result _ _ _ _ _ _) as [[outcome db2]|] eqn:Hc; [|apply finalizing_error].
  assert (Hval : op_valid (OpCommitResult now t p j (mkCommitResult state l)))
    by (simpl; by rewrite Hi, Hv).
  assert (He : effect_of_ops ss js (disturb db) db2).
  { rewrite <- (db_after_Ok _ _ _ _ Hc). exact (effect_op (OpCommitResult now t p j _) _ Hval). }
  split; [exact He|]. cbn [fst snd]. destruct outcome as [job|job| | |]; intros Hk; try done.
  - exists l, job. intros db3 He3.
    destruct (committed_result_kept (ss := ss) (js := js) now t p j _ _ job _ _ Hr Hval Hc He3) as (? & ? & _).
    done.
  - apply commit_existing in Hc as (-> & (l' & Hl) & Hf). by eapply ready_delivered.
Qed.

Lemma finalize_pages_finalizing self t p j id version schema db native g :
  reachable ss js db → id_valid id → id_valid version →
  finalizing t p j db (finalize_pages self t p j id version schema (db, native, g)).
Proof.
  intros Hreach Hid Hver. unfold finalize_pages, Finalizer.finalize_pages.
  apply (meanwhile_finalizing t p j 2 db native (λ '(db, native), _)); [done|].
  intros db1 native1 _ Hreach1.
  destruct (load_page_workflow js t p j db1) as [[stored|]|]; [|apply finalizing_error..].
  destruct (settled_state _) as [state|]; [|apply finalizing_error].
  apply (meanwhile_finalizing t p j 3 db1 native1 (λ '(db, native), _)); [done|].
  intros db2 native2 _ Hreach2.
  destruct (load_page_artifacts t p j db2) as [artifacts|]; [|apply finalizing_error].
  destruct (plan_pages _ _) as [[]|]; [|apply finalizing_error].
  destruct (read_pages _ _ _ g) as [[pages|] g1] eqn:Hread; [|apply finalizing_error].
  apply read_pages_Ok in Hread. pose proof (held_readable _ _ _ _ Hchecked Hread) as Hr.
  apply (meanwhile_finalizing t p j 4 db2 native2 (λ '(db, native), _)); [done|].
  intros db3 native3 _ Hreach3.
  destruct (assemble _ _ _ _ _ _ _ _ _ _ _ _) as [document|] eqn:Hdoc; [|apply finalizing_error].
  destruct (assemble_Ok _ _ _ _ _ _ _ _ _ _ _ _ _ Hr Hdoc) as (provenance & Href).
  destruct (reference_identity _ _ _ _ _ _ _ _ Href) as (<- & <- & _).
  apply (publish_finalizing (λ db, (meanwhile 5 (db, native3)).1)); [done| |done|done].
  intros db4. apply Hmeanwhile.
Qed.

Lemma finalize_stored_finalizing self t p j db native g :
  reachable ss js db →
  finalizing t p j db (finalize_stored self t p j (db, native, g)).
Proof.
  intros Hreach. unfold finalize_stored, Finalizer.finalize_stored.
  destruct (load_document_identity t p j db) as [[identity|]|] eqn:Hi; [|apply finalizing_error..].
  destruct (identity_valid _ _ _ _ _ Hi) as [Hid Hver].
  destruct (match identity_extraction identity with None => _ | Some _ => _ end) as [schema|];
    [|apply finalizing_error].
  apply (meanwhile_finalizing t p j 0 db native (λ '(db, native), _)); [done|].
  intros db1 native1 _ Hreach1. unfold Finalizer.finalize.
  destruct (native_processing self); [|by apply finalize_pages_finalizing].
  destruct (find_result t p j db1) as [[l| | |]|] eqn:Hf; try by apply finalize_pages_finalizing.
  - apply (meanwhile_finalizing t p j 1 db1 native1 (λ '(db, native), _)); [done|].
    intros db2 native2 He Hreach2. destruct (ready_later _ _ _ _ _ _ Hreach1 Hf He) as [Hf2 _].
    rewrite Hf in Hf2. destruct (find t p j db2) as [[job|]|] eqn:Hj; [|apply finalizing_error..].
    split; [apply effect_none|]. intros _. by eapply ready_delivered.
  - apply finalizing_error.
Qed.

(** ** The deployed workflow *)

Context (sha256 : list Z → list Z) (encoded_len : WorkflowInput → Z).
Context {T : Type}.
Context (start_workflow : string → string → DurableWorkflowRunInput → T →
  result WorkflowStartError.WorkflowStartError () * T).
Context (cancel_workflow : string → string → T →
  result WorkflowInteractionError.WorkflowInteractionError () * T).
Context (executor : CheckpointedPageExecutor) (finalizer : DocumentFinalizer).
Context (process : Db * NativeDb * G → PageTask → ProcessResult).
Context (complete : Db * NativeDb * G → list (PageTask * ProcessResult) → list (PageTask * ProcessResult)).
Context (disturb : Db * NativeDb * G → nat → Db → Db) (settle : Db * NativeDb * G → G).

(** The workflow with the executors behind its activities. *)
Definition deployed_workflow (fuel : nat) (input : DurableWorkflowRunInput)
    (world : Db * NativeDb * G) : option RunEnd * (Db * NativeDb * G) :=
  execute_workflow
    (λ _, with_retries (maximum_attempts page_ocr)
       (CheckpointedPageExecutor_run ss js executor process complete disturb settle
          (activity_input input)))
    (λ _, with_retries (maximum_attempts page_ocr)
       (DocumentFinalizerExecutor_run (finalize_stored finalizer) (activity_input input)))
    fuel input world.

Definition store_step (w w' : Db * NativeDb * G) : Prop :=
  reachable ss js w.1.1 → effect_of_ops ss js w.1.1 w'.1.1.

Lemma store_step_refl w : store_step w w.
Proof. intros _. apply effect_none. Qed.

Lemma store_step_trans w1 w2 w3 : store_step w1 w2 → store_step w2 w3 → store_step w1 w3.
Proof.
  intros H1 H2 Hr. specialize (H1 Hr). eapply effect_trans; [exact H1|]. apply H2.
  by eapply effect_reachable.
Qed.

Lemma executor_step input w :
  (∀ w l, complete w l ≡ₚ l) → (∀ w k db, effect_of_ops ss js db (disturb w k db)) →
  store_step w (CheckpointedPageExecutor_run ss js executor process complete disturb settle input w).2.
Proof.
  intros Hc Hd Hr. unfold CheckpointedPageExecutor_run. destruct w as [[db native] g].
  destruct (CheckpointedPageRunner_new _ _) as [runner|]; [|apply effect_none].
  pose proof (run_once_effect runner (dai_tenant_id input) (dai_product_id input) (dai_job_id input)
    (process (db, native, g)) (complete (db, native, g)) (disturb (db, native, g) 0%nat)
    (disturb (db, native, g) 1%nat) db Hr (Hc _) (Hd _ _) (Hd _ _)) as He.
  by destruct (run_once _ _ _ _ _ _ _ _ _ _ _).
Qed.

Lemma finalizer_step input w :
  store_step w (DocumentFinalizerExecutor_run (finalize_stored finalizer) input w).2.
Proof.
  intros Hr. unfold DocumentFinalizerExecutor_run. destruct w as [[db native] g].
  destruct (finalize_stored_finalizing finalizer (dai_tenant_id input) (dai_product_id input)
    (dai_job_id input) db native g Hr) as [He _]. by destruct (finalize_stored _ _ _ _ _).
Qed.

Lemma deployed_workflow_delivers fuel input db native g m db' native' g' :
  (∀ w l, complete w l ≡ₚ l) → (∀ w k db, effect_of_ops ss js db (disturb w k db)) →
  reachable ss js db →
  deployed_workflow fuel input (db, native, g) = (Some (Finished m), (db', native', g')) →
  metadata_status m ≠ DurableActivityStatus.Cancelled →
  delivered (dri_tenant_id input) (dri_product_id input) (dri_job_id input) db'.
Proof.
  intros Hc Hd Hr Hrun Hm.
  destruct (execute_workflow_finalized store_step store_step_refl store_step_trans _ _
    (λ _ w, with_retries_R store_step store_step_trans _ _ w
       (λ w', executor_step _ w' Hc Hd)) _ _ _ _ _ Hrun Hm) as (i & w1 & H1 & Hf).
  destruct (with_retries_Ok store_step store_step_refl store_step_trans _ _ _ _ _
    (finalizer_step _) Hf) as ([[db2 native2] g2] & H2 & Hex).
  assert (Hr2 : reachable ss js db2).
  { pose proof (store_step_trans _ _ _ H1 H2 Hr) as He. by eapply effect_reachable. }
  revert Hex. unfold DocumentFinalizerExecutor_run.
  destruct (finalize_stored_finalizing finalizer (dri_tenant_id input) (dri_product_id input)
    (dri_job_id input) db2 native2 g2 Hr2) as [_ Hdel].
  cbn [activity_input DurableActivityInput_new dai_tenant_id dai_product_id dai_job_id].
  destruct (finalize_stored finalizer _ _ _ _) as [outcome w3]. intros [= Hk ->]. by apply Hdel.
Qed.

(** C7: a dispatched job is delivered.  When the starter reports a job's workflow as
    started, Temporal was asked, on the worker's queue and under the job's workflow
    identifier, to run an input that the workflow reads back and whose activities are
    those of exactly that job.  And if that workflow, with the page runner and the
    finalizer behind its activities, each with its retries, and with other workers
    changing the store at any point, finishes with any status but cancelled, then the job
    has a result and keeps it, whatever happens to the store later. *)
Theorem started_workflow_delivers_result queue dispatch g0 g1 :
  (∀ w l, complete w l ≡ₚ l) → (∀ w k db, effect_of_ops ss js db (disturb w k db)) →
  action dispatch = WorkflowAction.Start →
  TemporalStarter_dispatch sha256 encoded_len
    (OfficialTemporalGateway_execute start_workflow cancel_workflow) queue dispatch g0
    = (Ok WorkflowDispatchOutcome.Started, g1) →
  ∃ input, start_workflow queue (workflow_id dispatch) input g0 = (Ok tt, g1)
    ∧ workflow_id dispatch
      = scoped_workflow_id sha256 (dispatch_product_id dispatch) (dispatch_tenant_id dispatch)
          (dispatch_job_id dispatch)
    ∧ DurableWorkflowRunInput_deserialize input = Some input
    ∧ DurableActivityInput_deserialize (activity_input input)
      = Some (DurableActivityInput_new (dispatch_product_id dispatch)
                (dispatch_tenant_id dispatch) (dispatch_job_id dispatch))
    ∧ ∀ fuel db native g m db' native' g',
        reachable ss js db →
        deployed_workflow fuel input (db, native, g) = (Some (Finished m), (db', native', g')) →
        metadata_status m ≠ DurableActivityStatus.Cancelled →
        delivered (dispatch_tenant_id dispatch) (dispatch_product_id dispatch)
          (dispatch_job_id dispatch) db'.
Proof.
  intros Hc Hd Hstart. unfold TemporalStarter_dispatch.
  destruct (String.eqb_spec (workflow_id dispatch) (scoped_workflow_id sha256
    (dispatch_product_id dispatch) (dispatch_tenant_id dispatch) (dispatch_job_id dispatch)))
    as [Hid|]; [|done]. simpl.
  destruct (WorkflowInput_new _ _ _ _ _) as [wi|] eqn:Hnew; [|done]. rewrite Hstart. simpl.
  unfold WorkflowInput_new in Hnew. destruct (negb _); [done|]. destruct (_ <? _); [done|].
  injection Hnew as <-. simpl.
  destruct (start_workflow _ _ _ _) as [[[]|[]] g2] eqn:Hs; try done. intros [= ->].
  eexists. split; [exact Hs|]. split; [exact Hid|]. split; [done|]. split; [done|].
  intros fuel db native g m db' native' g' Hr Hrun Hm.
  exact (deployed_workflow_delivers fuel _ _ _ _ _ _ _ _ Hc Hd Hr Hrun Hm).
Qed.
End Delivery.

(** C40: a page activity reports what its execution did, and its failures are tried again
    as they should be.  An activity that ends had all the heartbeats before its end
    recorded; it succeeds only with the result of its execution; it is cancelled only on
    request; and a failure is retryable exactly for the kinds that are, after 65 to 75
    seconds exactly when the provider limits the rate. *)
Theorem activity_failures_retried {A} subsec_nanos (branches : list (Branch A)) outcome beats :
  run_checkpointed_pages subsec_nanos 0 branches = (Some outcome, beats) →
  ∃ last rest, branches = replicate beats (Tick true) ++ last :: rest
    ∧ match outcome with
      | Ok a => last = Done (Ok a)
      | Err (ActivityError.Retryable kind delay) =>
          last = Done (Err kind) ∧ is_retryable kind = true
          ∧ match delay with
            | Some seconds => kind = ProviderRateLimited ∧ 65 ≤ seconds ≤ 75
            | None => kind ≠ ProviderRateLimited
            end
      | Err (ActivityError.NonRetryable kind) => last = Done (Err kind) ∧ is_retryable kind = false
      | Err ActivityError.Cancelled => last = CancelRequested
      | Err ActivityError.Heartbeat => last = Tick false
      end.
Proof.
  assert (H : ∀ n, run_checkpointed_pages subsec_nanos n branches = (Some outcome, beats) →
    ∃ k last rest, beats = (n + k)%nat ∧ branches = replicate k (Tick true) ++ last :: rest
      ∧ run_checkpointed_pages subsec_nanos 0 [last] = (Some outcome, 0%nat)).
  { induction branches as [|b branches IH]; intros n; simpl; [done|].
    destruct b as [r| |[]].
    - intros [= <- <-]. exists 0%nat, (Done r), branches. by rewrite Nat.add_0_r.
    - intros [= <- <-]. exists 0%nat, CancelRequested, branches. by rewrite Nat.add_0_r.
    - intros (k & last & rest & -> & -> & Hl)%IH. exists (S k), last, rest. split; [lia|done].
    - intros [= <- <-]. exists 0%nat, (Tick false), branches. by rewrite Nat.add_0_r. }
  intros (k & last & rest & -> & -> & Hl)%H. exists last, rest. split; [done|].
  destruct last as [[a|kind]| |[]]; simpl in Hl; try (by injection Hl as <-); try done.
  injection Hl as <-. destruct kind; simpl; try done. split_and!; try done;
    destruct subsec_nanos as [nanos|]; try lia; pose proof (Z.mod_pos_bound nanos 11); lia.
Qed.

Lemma activity_failures_retried_witness :
  run_checkpointed_pages (A := ()) (Some 21) 0 [Tick true; Done (Err ProviderRateLimited)]
    = (Some (Err (ActivityError.Retryable ProviderRateLimited (Some 75))), 1%nat)
  ∧ 65 ≤ 75 ≤ 75.
Proof.
  split; [reflexivity|].
  destruct (activity_failures_retried (A := ()) (Some 21)
    [Tick true; Done (Err ProviderRateLimited)] _ _ eq_refl) as (last & rest & _ & _ & _ & _ & H).
  exact H.
Defined.

(** ** A sample delivery *)

Definition sample_dispatched : WorkflowDispatch :=
  {| dispatch_event_id := 1;
     workflow_id := scoped_workflow_id (λ bytes, bytes) sample_product sample_tenant sample_job;
     dispatch_product_id := sample_product; dispatch_tenant_id := sample_tenant;
     dispatch_job_id := sample_job; dispatch_page_count := 1; action := WorkflowAction.Start |}.

Definition sample_run_input : DurableWorkflowRunInput :=
  DurableWorkflowRunInput_first (DurableActivityInput_new sample_product sample_tenant sample_job).

#[local] Notation sample_deployed :=
  (deployed_workflow (ss := sample_size) (js := sample_size) sample_write
     (λ _ _ g, (Ok [], g)) sample_page_json (λ _ _, ExtractedFields_default) (λ _, Some [0]) 9
     (λ _ world, world) (λ artifacts, artifacts) (mkCheckpointedPageExecutor 1 1)
     (mkDocumentFinalizer 1 false) (λ _, sample_process) (λ _ l, l) (λ _ _ db, db) (λ w, w.2)
     1 sample_run_input (sample_db sample_final_ops, (∅ : NativeDb), ())).

Lemma sample_deployed_runs :
  ∃ w, sample_deployed
    = (Some (Finished (mkDurableWorkflowResultMetadata DurableActivityStatus.Completed 1 1)), w).
Proof.
  assert (H : sample_deployed.1
    = Some (Finished (mkDurableWorkflowResultMetadata DurableActivityStatus.Completed 1 1)))
    by (vm_compute; reflexivity).
  destruct sample_deployed as [finish w]. exists w. cbn [fst] in H. by rewrite H.
Qed.

Lemma started_workflow_delivers_result_witness :
  ∃ w, sample_deployed
      = (Some (Finished (mkDurableWorkflowResultMetadata DurableActivityStatus.Completed 1 1)), w)
    ∧ delivered (ss := sample_size) (js := sample_size) sample_tenant sample_product sample_job w.1.1.
Proof.
  destruct sample_deployed_runs as [[[db native] []] Hrun]. exists (db, native, ()).
  split; [exact Hrun|].
  assert (Hkeep : ∀ (k : nat) (db : Db) (native : NativeDb),
    effect_of_ops sample_size sample_size db ((λ _ world, world) k (db, native)).1)
    by (intros; apply effect_none).
  assert (Hdispatch : TemporalStarter_dispatch (λ bytes, bytes) (λ _, 100)
    (OfficialTemporalGateway_execute (λ _ _ input g, (Ok tt, input :: g)) (λ _ _ g, (Ok tt, g)))
    "queue" sample_dispatched [] = (Ok WorkflowDispatchOutcome.Started, [sample_run_input]))
    by (vm_compute; reflexivity).
  assert (Horder : ∀ (w : Db * NativeDb * ()) (l : list (PageTask * ProcessResult)), l ≡ₚ l) by done.
  assert (Hquiet : ∀ (w : Db * NativeDb * ()) (k : nat) db,
    effect_of_ops sample_size sample_size db db)
    by (intros; apply effect_none).
  destruct (started_workflow_delivers_result (ss := sample_size) (js := sample_size) sample_write
    (λ _ _ g, (Ok [], g)) sample_page_json (λ _ _, ExtractedFields_default) (λ _, Some [0]) 9
    (λ _ world, world) (λ artifacts, artifacts) Hkeep sample_page_checked (λ bytes, bytes) (λ _, 100)
    (λ _ _ input g, (Ok tt, input :: g)) (λ _ _ g, (Ok tt, g)) (mkCheckpointedPageExecutor 1 1)
    (mkDocumentFinalizer 1 false) (λ _, sample_process) (λ _ l, l) (λ _ _ db, db) (λ w, w.2)
    "queue" sample_dispatched [] [sample_run_input] Horder Hquiet eq_refl Hdispatch)
    as (input & Hin & _ & _ & _ & H).
  assert (input = sample_run_input) as -> by congruence.
  exact (H 1%nat _ _ _ _ _ _ _ sample_final_reachable Hrun (λ e, ltac:(discriminate e))).
Defined.
