(* ===== verification/Configuration.v ===== *)
(** * Configuration: what the programs are built from

    Models the binaries [ocr-service/src/main.rs] (the HTTP API), [ocr-execution-worker],
    [ocr-dispatch-worker] and [temporal-qualification-worker] of [ocr-temporal/src/bin/],
    [document-intelligence-mcp] and [ocr-healthcheck] of [ocr-service/src/bin/], and the
    configuration of [ocr-service/src/telemetry.rs].  The environment is a function [var]
    as in [WorkloadIdentity]; an [anyhow] error is [None].  The URL parser, the parser of
    connection strings and socket addresses and the builders of the storage clients are
    arguments, [arrange] is the order in which a [HashMap] yields its entries.  Tracing,
    pools, sockets and the Temporal connection are not modelled. *)

From S2P Require Import Prelude Text DomainTypes Identifiers Digest PageWorkflow StoreTypes.
From S2P Require Import Storage.
From S2P Require Import Promotion PageRunner Artifacts UploadIntents DocumentAi Malware.
From S2P Require Import ParserProcess Finalizer Relay Dispatcher Temporal Activities.
From S2P Require Import StatusCache WorkloadIdentity Mcp Api.

#[local] Open Scope list_scope.
#[local] Open Scope Z_scope.

Module AcceptedSourceReaderConfigurationError.
Inductive AcceptedSourceReaderConfigurationError := MissingRoutes | InvalidRoute | Client.
End AcceptedSourceReaderConfigurationError.

Module GcsDocumentReaderConfigurationError.
Inductive GcsDocumentReaderConfigurationError := MissingBuckets | InvalidBucket | Client.
End GcsDocumentReaderConfigurationError.

Module TelemetryConfigError.
Inductive TelemetryConfigError :=
| CredentialsNotAllowed | UntrustedEndpoint | InvalidEnvironment | InvalidEncoding.
End TelemetryConfigError.

Notation TelemetryResult := (result TelemetryConfigError.TelemetryConfigError).

(** ** Reading values *)

Definition utf8_len (c : Z) : nat :=
  if c <? 128 then 1%nat else if c <? 2048 then 2%nat else if c <? 65536 then 3%nat else 4%nat.

Fixpoint drop_whitespace (text : list Z) : list Z :=
  match text with
  | c :: rest => if is_whitespace c then drop_whitespace rest else text
  | [] => []
  end.

Definition bytes_of (text : list Z) : nat := sum_list (utf8_len <$> text).

(** [value.trim()]: the bytes between the white space at both ends. *)
Definition trim (value : string) : string :=
  let text := chars value in
  let from := drop_whitespace text in
  String.substring (bytes_of text - bytes_of from) (bytes_of (reverse (drop_whitespace (reverse from))))
    value.

Section Environment.
Context (var : string → result VarError string).

Definition required (name : string) : option string :=
  match var name with
  | Ok value => if trim_is_empty value then None else Some value
  | Err _ => None
  end.

(** [Some None]: the setting is absent. *)
Definition setting (name : string) : option (option string) :=
  match var name with
  | Ok value => Some (if trim_is_empty value then None else Some value)
  | Err NotPresent => Some None
  | Err NotUnicode => None
  end.

(** [bounded] of the execution worker: a value that is not Unicode counts as absent. *)
Definition bounded (name : string) (default_value minimum maximum : Z) : option Z :=
  value ← match var name with
          | Ok value => parse_unsigned usize_max value
          | Err _ => Some default_value
          end;
  if contains minimum maximum value then Some value else None.

(** [bounded] of the dispatch worker. *)
Definition bounded_batch (name : string) (default_value : Z) : option Z :=
  match var name with
  | Ok value => parse_i64 value
  | Err NotPresent => Some default_value
  | Err NotUnicode => None
  end.

(** ** Buckets *)

(** The loop over the entries. *)
Fixpoint insert_entries (buckets : gmap string string) (entries : list string)
    : option (gmap string string) :=
  match entries with
  | [] => Some buckets
  | value :: rest =>
      '(product, bucket) ← split_once "=" (trim value);
      if is_empty product || is_empty bucket || bool_decide (is_Some (buckets !! product))
      then None else insert_entries (<[product := bucket]> buckets) rest
  end.

(** [product_buckets] of both workers. *)
Definition product_buckets (name : string) : option (gmap string string) :=
  value ← required name;
  buckets ← insert_entries ∅ (split_on "," value);
  if bool_decide (buckets = ∅) then None else Some buckets.

Definition require_matching_products (left right : gmap string string) : bool :=
  bool_decide (dom left = dom right).

(** The loop of [source_routes] over the entries of [quarantine]. *)
Fixpoint insert_routes (sources routes : gmap string string) (quarantine : list (string * string))
    : option (gmap string string) :=
  match quarantine with
  | [] => Some routes
  | (product, quarantine_bucket) :: rest =>
      source_bucket ← sources !! product;
      if bool_decide (is_Some (routes !! quarantine_bucket)) then None
      else insert_routes sources (<[quarantine_bucket := source_bucket]> routes) rest
  end.

Definition source_routes (quarantine sources : gmap string string) : option (gmap string string) :=
  if negb (bool_decide (size quarantine = size sources)) then None
  else insert_routes sources ∅ (map_to_list quarantine).

(** The API: [optional_csv_env] and [parse_product_buckets]. *)
Definition optional_csv_env (name : string) : option (option (list string)) :=
  match var name with
  | Ok value =>
      let values := filter (λ value, is_empty value = false) (trim <$> split_on "," value) in
      if bool_decide (values = []) then None else Some (Some values)
  | Err NotPresent => Some None
  | Err NotUnicode => None
  end.

Fixpoint parse_product_buckets (buckets : gmap string string) (values : list string)
    : option (gmap string string) :=
  match values with
  | [] => Some buckets
  | value :: rest =>
      '(product, bucket) ← split_once "=" value;
      if negb (is_ok (ProductId_new product)) || is_empty bucket
         || bool_decide (is_Some (buckets !! product))
      then None else parse_product_buckets (<[product := bucket]> buckets) rest
  end.

Definition optional_product_buckets_env (name : string) : option (option (gmap string string)) :=
  values ← optional_csv_env name;
  match values with
  | None => Some None
  | Some values => Some <$> parse_product_buckets ∅ values
  end.

(** ** The execution worker *)

Definition temporal_namespace (value : string) : option string :=
  environment ← Text.strip_prefix "document-intelligence-" value;
  if negb (contains 2 32 (strlen environment))
     || negb (all_bytes (λ byte, is_ascii_lowercase byte || is_ascii_digit byte || byte_in "-" byte)
                environment)
     || starts_with_str "-" environment
     || is_some_and (byte_in "-") (last_byte environment)
  then None else Some value.

(** The parts of a [Url]. *)
Record Url := mkUrl {
  scheme : string;
  host_str : option string;
  port : option Z;
  username : string;
  password : option string;
  query : option string;
  fragment : option string;
  url_path : string;
}.

Definition is_http (url : Url) : bool :=
  String.eqb (scheme url) "http" || String.eqb (scheme url) "https".

(** Nothing but a scheme, a host and a port. *)
Definition is_bare (url : Url) : bool :=
  is_empty (username url) && bool_decide (password url = None) && bool_decide (query url = None)
  && bool_decide (fragment url = None)
  && (is_empty (url_path url) || String.eqb (url_path url) "/").

Definition temporal_target (parse_url : string → option Url) (value : string) : option Url :=
  target ← parse_url value;
  if is_http target && bool_decide (is_Some (host_str target)) && is_bare target
  then Some target else None.

(** [Some None] keeps the worker to native text. *)
Definition document_ai (project location processor : option string)
    : option (option DocumentAiConfiguration) :=
  match project, location, processor with
  | None, None, None => Some None
  | Some project, Some location, Some processor =>
      match DocumentAiConfiguration_new project location processor with
      | Ok configuration => Some (Some configuration)
      | Err _ => None
      end
  | _, _, _ => None
  end.

Section Workers.
Context {G : Type} (build : Location → option (ObjectStore G)).
Context (parse_url : string → option Url) (valid_database_url : string → bool).
Context (arrange : gmap string string → list (string * string)).

(** The loop of [GcsAcceptedSourceReader::new]. *)
Fixpoint configure_sources (configured : gmap string (SourceRoute (G := G))) (routes : list (string * string))
    : result AcceptedSourceReaderConfigurationError.AcceptedSourceReaderConfigurationError
        (gmap string (SourceRoute (G := G))) :=
  match routes with
  | [] => Ok configured
  | (product, bucket) :: rest =>
      let? _ := map_err (ProductId_new product)
                  (λ _, AcceptedSourceReaderConfigurationError.InvalidRoute) in
      if negb (is_bucket_name bucket) || bool_decide (is_Some (configured !! product))
      then Err AcceptedSourceReaderConfigurationError.InvalidRoute
      else
        let? store := ok_or (StorageClient_new build bucket)
                        AcceptedSourceReaderConfigurationError.Client in
        configure_sources (<[product := mkSourceRoute bucket store]> configured) rest
  end.

Definition GcsAcceptedSourceReader_new (routes : list (string * string))
    : result AcceptedSourceReaderConfigurationError.AcceptedSourceReaderConfigurationError
        (gmap string (SourceRoute (G := G))) :=
  if zlen routes =? 0 then Err AcceptedSourceReaderConfigurationError.MissingRoutes
  else configure_sources ∅ routes.

Definition GcsUploadDocumentReader_new (buckets : list string)
    : result GcsDocumentReaderConfigurationError.GcsDocumentReaderConfigurationError
        (gmap string (ObjectStore G)) :=
  if zlen buckets =? 0 then Err GcsDocumentReaderConfigurationError.MissingBuckets
  else configure_buckets GcsDocumentReaderConfigurationError.InvalidBucket
         GcsDocumentReaderConfigurationError.Client build ∅ buckets.

Definition ok {E A : Type} (r : result E A) : option A :=
  match r with Ok a => Some a | Err _ => None end.

(** The recognizer of pages without native text, and its preprocessor. *)
Record ManagedRecognizer := mkManagedRecognizer {
  managed_transport : MetadataDocumentAiTransport;
  managed_preprocessor : ParserProcess;
}.

(** The [match document_ai(..)] of [run]; [available] is the credential library. *)
Definition managed_recognizer (available : DocumentAiIdentity.DocumentAiIdentity → bool)
    (found : option DocumentAiConfiguration) : option (option ManagedRecognizer) :=
  match found with
  | None => Some None
  | Some configuration =>
      let mode := default "metadata" (ok (var "DOCUMENT_AI_AUTH_MODE")) in
      transport ← ok (MetadataDocumentAiTransport_new_with_auth available configuration mode);
      preprocessor ← ok (ParserProcess_new "/app/ocr-parser-sandbox" (5 * 1000000000));
      Some (Some {| managed_transport := transport; managed_preprocessor := preprocessor |})
  end.

Record ExecutionWorker := mkExecutionWorker {
  worker_sources : gmap string (SourceRoute (G := G));
  worker_page_routes : gmap string (WriteRoute G);
  worker_page_stores : gmap string (ObjectStore G);
  worker_result_routes : gmap string (WriteRoute G);
  worker_parser : ParserProcess;
  worker_document_ai : option ManagedRecognizer;
  worker_executor : CheckpointedPageExecutor;
  worker_finalizer : DocumentFinalizer;
  worker_namespace : string;
  worker_task_queue : string;
  worker_id : string;
}.

(** [run] of the execution worker, without the connections it opens. *)
Definition execution_worker (available : DocumentAiIdentity.DocumentAiIdentity → bool)
    : option ExecutionWorker :=
  database_url ← required "DATABASE_URL";
  if negb (valid_database_url database_url) then None
  else
    source_buckets ← product_buckets "SOURCE_BUCKETS";
    page_buckets ← product_buckets "PAGE_BUCKETS";
    result_buckets ← product_buckets "RESULT_BUCKETS";
    if negb (require_matching_products source_buckets page_buckets)
       || negb (require_matching_products source_buckets result_buckets)
    then None
    else
      sources ← ok (GcsAcceptedSourceReader_new (arrange source_buckets));
      pages ← ok (GcsPageArtifactWriter_new build (arrange page_buckets));
      parser ← ok (ParserProcess_new "/app/ocr-parser-sandbox" (60 * 1000000000));
      project ← setting "DOCUMENT_AI_PROJECT_ID";
      location ← setting "DOCUMENT_AI_LOCATION";
      processor ← setting "DOCUMENT_AI_PROCESSOR_ID";
      configuration ← document_ai project location processor;
      managed ← managed_recognizer available configuration;
      pages_at_once ← bounded "PAGE_BATCH_SIZE" 8 1 64;
      concurrency ← bounded "PAGE_CONCURRENCY" 4 1 64;
      executor ← ok (CheckpointedPageExecutor_new pages_at_once concurrency);
      page_stores ← ok (GcsPageArtifactReader_new build (arrange page_buckets).*2);
      results ← ok (GcsResultWriter_new build (arrange result_buckets));
      finalization_concurrency ← bounded "FINALIZATION_CONCURRENCY" 4 1 64;
      finalizer ← ok (DocumentFinalizer_new finalization_concurrency);
      namespace_value ← required "TEMPORAL_NAMESPACE";
      namespace ← temporal_namespace namespace_value;
      task_queue ← required "TEMPORAL_TASK_QUEUE";
      id ← required "WORKER_ID";
      target ← required "TEMPORAL_TARGET";
      _ ← temporal_target parse_url target;
      Some {| worker_sources := sources; worker_page_routes := pages;
              worker_page_stores := page_stores; worker_result_routes := results;
              worker_parser := parser; worker_document_ai := managed; worker_executor := executor;
              worker_finalizer := with_native_processing finalizer;
              worker_namespace := namespace; worker_task_queue := task_queue; worker_id := id |}.

(** ** The dispatch worker *)

Context (parse_socket : string → option SocketAddr).

Definition loopback_socket (name : string) : option SocketAddr :=
  value ← required name;
  address ← parse_socket value;
  if is_loopback (ip address) then Some address else None.

Definition absolute_path (name : string) : option string :=
  path ← required name;
  if is_absolute path then Some path else None.

Record DispatchWorker := mkDispatchWorker {
  dispatch_scanner : ClamdScanner;
  dispatch_parser : ParserProcess;
  dispatch_inspected : gmap string (ObjectStore G);
  dispatch_documents : gmap string (ObjectStore G);
  dispatch_routes : gmap string (PromotionRoute G);
  dispatch_task_queue : string;
  dispatch_attempts : Z;
  dispatch_dispatcher : WorkScopeDispatcher;
}.

(** [run] of the dispatch worker up to its loop, without the connections it opens. *)
Definition dispatch_worker : option DispatchWorker :=
  database_url ← required "DATABASE_URL";
  scope_database_url ← required "WORK_SCOPE_DATABASE_URL";
  if negb (valid_database_url database_url) || negb (valid_database_url scope_database_url)
  then None
  else
    quarantine ← product_buckets "QUARANTINE_BUCKETS";
    sources ← product_buckets "SOURCE_BUCKETS";
    routes ← source_routes quarantine sources;
    address ← loopback_socket "CLAMD_ADDRESS";
    scanner ← ok (ClamdScanner_new address (30 * 1000000000) (100 * 1024 * 1024));
    path ← absolute_path "PARSER_EXECUTABLE";
    parser ← ok (ParserProcess_new path (60 * 1000000000));
    inspected ← ok (GcsUploadMalwareInspector_new build (arrange quarantine).*2);
    documents ← ok (GcsUploadDocumentReader_new (arrange quarantine).*2);
    promoter ← ok (GcsSourcePromoter_new build (arrange routes));
    target ← required "TEMPORAL_TARGET";
    _ ← temporal_target parse_url target;
    namespace ← required "TEMPORAL_NAMESPACE";
    _ ← temporal_namespace namespace;
    queue ← required "TEMPORAL_TASK_QUEUE";
    task_queue ← TemporalStarter_new queue;
    attempts ← DurableWorkflowStarter_new 3;
    id ← required "WORKER_ID";
    scope_limit ← bounded_batch "WORK_SCOPE_BATCH_SIZE" 10;
    upload_limit ← bounded_batch "UPLOAD_BATCH_SIZE" 10;
    dispatcher ← ok (WorkScopeDispatcher_new id scope_limit upload_limit);
    Some {| dispatch_scanner := scanner; dispatch_parser := parser;
            dispatch_inspected := inspected; dispatch_documents := documents;
            dispatch_routes := promoter; dispatch_task_queue := task_queue; dispatch_attempts := attempts;
            dispatch_dispatcher := dispatcher |}.

(** ** The API *)

Definition parse_api_capability (value : string) : option ApiCapability.ApiCapability :=
  if String.eqb value "uploads" then Some ApiCapability.Uploads
  else if String.eqb value "jobs" then Some ApiCapability.Jobs
  else if String.eqb value "full" then Some ApiCapability.Full
  else None.

Definition required_api_capability : option ApiCapability.ApiCapability :=
  value ← ok (var "OCR_API_CAPABILITY");
  parse_api_capability value.

Definition parse_bounded_number (maximum : Z) (value : option string) (default_value : Z) : option Z :=
  match value with
  | Some value => parse_unsigned maximum value
  | None => Some default_value
  end.

(** Durations are in nanoseconds. *)
Definition parse_job_status_cache_policy
    (active_ttl_seconds terminal_ttl_seconds timeout_milliseconds maximum_record_bytes : option string)
    : option CachePolicy :=
  active_ttl ← parse_bounded_number u64_max active_ttl_seconds 10;
  terminal_ttl ← parse_bounded_number u64_max terminal_ttl_seconds 300;
  timeout ← parse_bounded_number u64_max timeout_milliseconds 25;
  record_bytes ← parse_bounded_number usize_max maximum_record_bytes 512;
  ok (CachePolicy_new (active_ttl * 1000000000) (terminal_ttl * 1000000000) (timeout * 1000000)
        record_bytes).

(** [optional_job_status_cache], up to the connection: the address and the policy. *)
Definition optional_job_status_cache : option (option (string * CachePolicy)) :=
  match var "VALKEY_URL" with
  | Ok url =>
      if trim_is_empty url then None
      else
        policy ← parse_job_status_cache_policy
                   (ok (var "JOB_STATUS_CACHE_ACTIVE_TTL_SECONDS"))
                   (ok (var "JOB_STATUS_CACHE_TERMINAL_TTL_SECONDS"))
                   (ok (var "JOB_STATUS_CACHE_TIMEOUT_MILLISECONDS"))
                   (ok (var "JOB_STATUS_CACHE_MAXIMUM_RECORD_BYTES"));
        Some (Some (url, policy))
  | Err NotPresent => Some None
  | Err NotUnicode => None
  end.

Record ApiConfiguration := mkApiConfiguration {
  api_capability : ApiCapability.ApiCapability;
  api_results : option (gmap string (ObjectStore G));
  api_upload_buckets : gmap string string;
  api_uploads : option (gmap string (ObjectStore G));
  api_upload_artifacts : option (gmap string (ObjectStore G));
  api_cache : option (string * CachePolicy);
}.

(** [main] of the API, from its capability to the dependencies of its router. *)
Definition api_configuration : option ApiConfiguration :=
  capability ← required_api_capability;
  database_url ← ok (var "DATABASE_URL");
  if negb (valid_database_url database_url) then None
  else
    result_buckets ← optional_csv_env "RESULT_BUCKETS";
    upload_buckets ← optional_product_buckets_env "QUARANTINE_BUCKETS";
    results ← match result_buckets with
              | Some buckets => Some <$> ok (GcsResultReader_new build buckets)
              | None => Some None
              end;
    '(buckets, uploads, artifacts) ←
      match upload_buckets with
      | Some upload_buckets =>
          let buckets := (arrange upload_buckets).*2 in
          issuer ← ok (GcsUploadIssuer_new build buckets);
          reader ← ok (GcsUploadArtifactReader_new build buckets);
          Some (upload_buckets, Some issuer, Some reader)
      | None => Some (∅, None, None)
      end;
    cache ← optional_job_status_cache;
    Some {| api_capability := capability; api_results := results; api_upload_buckets := buckets;
            api_uploads := uploads; api_upload_artifacts := artifacts; api_cache := cache |}.

(** *** The MCP server *)

Record McpConfiguration := mkMcpConfiguration {
  mcp_result_stores : gmap string (ObjectStore G);
  mcp_configured_upstream_keys : McpUpstreamKeyVerifier;
  mcp_configured_access_grants : McpAccessGrantVerifier;
}.

(** [main] of the MCP server, from its database to the state of its router. *)
Definition mcp_configuration : option McpConfiguration :=
  database_url ← ok (var "DATABASE_URL");
  if negb (valid_database_url database_url) then None
  else
    value ← ok (var "RESULT_BUCKETS");
    let result_buckets := filter (λ bucket, is_empty bucket = false) (trim <$> split_on "," value) in
    results ← ok (GcsResultReader_new build result_buckets);
    upstream_keys ← ok (upstream_from_process_environment var);
    access_grants ← ok (grants_from_process_environment var);
    Some {| mcp_result_stores := results; mcp_configured_upstream_keys := upstream_keys;
            mcp_configured_access_grants := access_grants |}.
End Workers.

(** ** The qualification worker *)

Section Qualification.
Context (parse_url : string → option Url) (parse_socket : string → option SocketAddr).

Record QualificationWorker := mkQualificationWorker {
  qualification_target : Url;
  qualification_task_queue : string;
  qualification_endpoint : option SocketAddr;
  qualification_activities : QualificationPageActivities;
}.

(** Plain HTTP on the local machine, at a given port. *)
Definition qualification_url (target : Url) : bool :=
  String.eqb (scheme target) "http" && bool_decide (host_str target = Some "127.0.0.1")
  && bool_decide (is_Some (port target)) && String.eqb (url_path target) "/"
  && bool_decide (query target = None) && bool_decide (fragment target = None)
  && is_empty (username target) && bool_decide (password target = None).

Definition valid_qualification_queue (task_queue : string) : bool :=
  negb (is_empty task_queue) && negb (127 <? strlen task_queue)
  && all_bytes (λ byte, is_ascii_alphanumeric byte || byte_in "-_." byte) task_queue.

(** [main], from its arguments (the program's name first) to its activities. *)
Definition qualification_worker (args : list string) : option QualificationWorker :=
  match args with
  | _ :: target :: task_queue :: mode :: rest =>
      started_endpoint ← match rest with
                         | [] => Some None
                         | [endpoint] => Some (Some endpoint)
                         | _ => None
                         end;
      target ← parse_url target;
      if negb (qualification_url target) || negb (valid_qualification_queue task_queue) then None
      else if String.eqb mode "hold" then
        endpoint ← started_endpoint;
        address ← parse_socket endpoint;
        if is_loopback (ip address)
        then Some (mkQualificationWorker target task_queue (Some address) held_for_process_loss)
        else None
      else if String.eqb mode "normal" && bool_decide (started_endpoint = None)
      then Some (mkQualificationWorker target task_queue None qualification_default)
      else None
  | _ => None
  end.
End Qualification.

(** ** Telemetry *)

Record TelemetryConfig := mkTelemetryConfig {
  telemetry_endpoint : option string;
  telemetry_environment : string;
}.

Definition optional_environment_value (name : string) : TelemetryResult (option string) :=
  match var name with
  | Ok value => Ok (if is_empty value then None else Some value)
  | Err NotPresent => Ok None
  | Err NotUnicode => Err TelemetryConfigError.InvalidEncoding
  end.

Definition valid_environment (value : string) : bool :=
  contains 1 32 (strlen value)
  && all_bytes (λ byte, is_ascii_lowercase byte || is_ascii_digit byte || byte_in "-" byte) value
  && is_some_and is_ascii_alphanumeric (first_byte value)
  && is_some_and is_ascii_alphanumeric (last_byte value).

Definition to_ascii_lowercase (a : ascii) : ascii :=
  if is_ascii_uppercase a then ascii_of_N (Z.to_N (code a + 32)) else a.

Definition eq_ignore_ascii_case (s t : string) : bool :=
  bool_decide (to_ascii_lowercase <$> list_ascii_of_string s
               = to_ascii_lowercase <$> list_ascii_of_string t).

Definition ends_with_str (suffix s : string) : bool :=
  (String.length suffix <=? String.length s)%nat
  && String.eqb (String.substring (String.length s - String.length suffix)
                   (String.length suffix) s) suffix.

(** The host of a URL parses as an address only in the form of version 4, one of version 6
    stands in brackets; of those, [127.0.0.0/8] is the loopback. *)
Definition is_loopback_ip (host : string) : bool :=
  is_ipv4 host && is_some_and (λ first, String.eqb first "127") (head (split_on "." host)).

Definition trusted_gateway_host (endpoint : Url) : bool :=
  match host_str endpoint with
  | None => false
  | Some host =>
      eq_ignore_ascii_case host "localhost" || ends_with_str ".svc.cluster.local" host
      || is_loopback_ip host
  end.

(** [url_to_string] is [Url::to_string]. *)
Definition validate_endpoint (parse_url : string → option Url) (url_to_string : Url → string)
    (value : string) : TelemetryResult string :=
  let? url := ok_or (parse_url value) TelemetryConfigError.UntrustedEndpoint in
  if negb (is_http url) || negb (is_bare url) || negb (trusted_gateway_host url)
  then Err TelemetryConfigError.UntrustedEndpoint else Ok (url_to_string url).

Definition telemetry_from_values (parse_url : string → option Url) (url_to_string : Url → string)
    (endpoint : option string) (environment : string) (has_generic_headers has_trace_headers : bool)
    : TelemetryResult TelemetryConfig :=
  if has_generic_headers || has_trace_headers then Err TelemetryConfigError.CredentialsNotAllowed
  else if negb (valid_environment environment) then Err TelemetryConfigError.InvalidEnvironment
  else
    let? endpoint :=
      match endpoint with
      | Some value => let? value := validate_endpoint parse_url url_to_string value in Ok (Some value)
      | None => Ok None
      end in
    Ok (mkTelemetryConfig endpoint environment).

Definition telemetry_from_process_environment (parse_url : string → option Url)
    (url_to_string : Url → string) : TelemetryResult TelemetryConfig :=
  let? endpoint := optional_environment_value "OTEL_EXPORTER_OTLP_ENDPOINT" in
  let? configured := optional_environment_value "DEPLOYMENT_ENVIRONMENT" in
  let? environment :=
    match configured, endpoint with
    | Some value, _ => Ok value
    | None, None => Ok "development"
    | None, Some _ => Err TelemetryConfigError.InvalidEnvironment
    end in
  let? generic := optional_environment_value "OTEL_EXPORTER_OTLP_HEADERS" in
  let? traces := optional_environment_value "OTEL_EXPORTER_OTLP_TRACES_HEADERS" in
  telemetry_from_values parse_url url_to_string endpoint environment
    (bool_decide (is_Some generic)) (bool_decide (is_Some traces)).
End Environment.

(** ** The health check *)

(** The first line, with its end, of the first 128 bytes. *)
Fixpoint status_line (budget : nat) (response : list Z) : list Z :=
  match budget, response with
  | S budget, byte :: rest => if byte =? 10 then [byte] else byte :: status_line budget rest
  | _, _ => []
  end.

(** [response] is what the server sends, [None] when the connection fails. *)
Definition healthy (response : option (list Z)) : bool :=
  match response with
  | None => false
  | Some response =>
      let status := status_line 128 response in
      ends_with_bytes (string_bytes (String "013" (String "010" ""))) status
      && (starts_with_bytes (string_bytes "HTTP/1.1 200 ") status
          || starts_with_bytes (string_bytes "HTTP/1.0 200 ") status)
  end.
