(* ===== verification/ConfigurationFacts.v ===== *)
(** * ConfigurationFacts: the programs agree on where a product's data lives

    The API, the dispatch worker and the execution worker read their buckets separately;
    when all three start, the data of a product stays in the product's buckets from its
    upload to its result.  The qualification worker reaches nothing but its own machine. *)

From S2P Require Import Prelude Text DomainTypes Identifiers PageWorkflow StoreTypes Storage.
From S2P Require Import Promotion PageRunner Artifacts UploadIntents DocumentAi Malware.
From S2P Require Import ParserProcess Finalizer Relay Dispatcher Temporal Activities.
From S2P Require Import StatusCache WorkloadIdentity Api Configuration.

#[local] Open Scope list_scope.
#[local] Open Scope Z_scope.

#[local] Arguments is_bucket_name : simpl never.
#[local] Arguments StorageClient_new : simpl never.

(** ** Maps built entry by entry *)

Fixpoint insert_all {A : Type} (m : gmap string A) (entries : list (string * A)) : gmap string A :=
  match entries with
  | [] => m
  | (k, v) :: rest => insert_all (<[k := v]> m) rest
  end.

Lemma insert_all_lookup {A} (m : gmap string A) entries k :
  NoDup entries.*1 →
  ∀ v, insert_all m entries !! k = Some v ↔ (k, v) ∈ entries ∨ k ∉ entries.*1 ∧ m !! k = Some v.
Proof.
  revert m. induction entries as [|[k' v'] entries IH]; intros m; simpl.
  - intros _ v. rewrite elem_of_nil. split; [intros H; right; by split; [apply not_elem_of_nil|]|by intros [[]|[_ H]]].
  - intros [Hk Hnd]%NoDup_cons v. rewrite IH by done. rewrite elem_of_cons, not_elem_of_cons.
    rewrite lookup_insert_Some. split.
    + intros [H|[Hn [[<- <-]|[Hne H]]]]; [by left; right|by left; left|by right].
    + intros [[[= -> ->]|H]|[[Hne Hn] H]]; [right; split; [done|by left]|by left|].
      right. split; [done|right; done].
Qed.

(** In whatever order its entries come. *)
Lemma insert_all_arranged {A} (m : gmap string A) entries :
  entries ≡ₚ map_to_list m → insert_all ∅ entries = m.
Proof.
  intros Hp. apply map_eq. intros k. apply option_eq. intros v. rewrite insert_all_lookup.
  - rewrite Hp, elem_of_map_to_list, lookup_empty. naive_solver.
  - rewrite Hp. apply NoDup_fst_map_to_list.
Qed.

Lemma arranged_values {A} `{Countable A} (m : gmap string A) entries :
  entries ≡ₚ map_to_list m → ∀ v, v ∈ entries.*2 ↔ ∃ k, m !! k = Some v.
Proof.
  intros Hp v. rewrite Hp, list_elem_of_fmap. split.
  - intros ([k w] & -> & Hk%elem_of_map_to_list). by exists k.
  - intros (k & Hk%elem_of_map_to_list). by exists (k, v).
Qed.

Lemma NoDup_snd_inj {A} (entries : list (string * A)) k k' v :
  NoDup entries.*2 → (k, v) ∈ entries → (k', v) ∈ entries → k = k'.
Proof.
  intros Hnd (i & Hi)%list_elem_of_lookup (i' & Hi')%list_elem_of_lookup.
  assert (i = i') as ->; [|congruence].
  apply (NoDup_lookup entries.*2 i i' v Hnd); rewrite list_lookup_fmap; [by rewrite Hi|by rewrite Hi'].
Qed.

(** ** The constructors *)

Section Constructors.
Context {G : Type} (build : Location → option (ObjectStore G)).

Lemma configure_sources_buckets configured entries out :
  configure_sources build configured entries = Ok out →
  source_route_bucket <$> out = insert_all (source_route_bucket <$> configured) entries.
Proof.
  revert configured. induction entries as [|[product bucket] entries IH]; intros configured; simpl;
    [by intros [= ->]|].
  rewrite and_then_Ok. intros (_ & _ & H). destruct (_ || _); [done|].
  apply and_then_Ok in H as (store & _ & H). by rewrite (IH _ H), fmap_insert.
Qed.

Lemma configure_writers_buckets {E : Type} (e1 e2 e3 : E) routes (buckets : gset string) entries out :
  configure_writers e1 e2 e3 build routes buckets entries = Ok out →
  write_bucket <$> out = insert_all (write_bucket <$> routes) entries.
Proof.
  revert routes buckets. induction entries as [|[product bucket] entries IH];
    intros routes buckets; simpl; [by intros [= ->]|].
  rewrite and_then_Ok. intros (_ & _ & H). destruct (_ || _); [done|].
  apply and_then_Ok in H as (store & _ & H). by rewrite (IH _ _ H), fmap_insert.
Qed.

Lemma configure_readers_dom {E : Type} (e1 e2 : E) (stores : gmap string (ObjectStore G)) buckets out :
  configure_readers e1 e2 build stores buckets = Ok out →
  ∀ bucket, is_Some (out !! bucket) ↔ bucket ∈ buckets ∨ is_Some (stores !! bucket).
Proof.
  revert stores. induction buckets as [|b buckets IH]; intros stores; simpl.
  - intros [= ->] bucket. rewrite elem_of_nil. naive_solver.
  - destruct (_ || _); [done|]. rewrite and_then_Ok. intros (store & _ & H) bucket.
    rewrite (IH _ H bucket), elem_of_cons, lookup_insert_is_Some'. naive_solver.
Qed.

Lemma configure_buckets_dom {E : Type} (e1 e2 : E) (stores : gmap string (ObjectStore G)) buckets out :
  configure_buckets e1 e2 build stores buckets = Ok out →
  ∀ bucket, is_Some (out !! bucket) ↔ bucket ∈ buckets ∨ is_Some (stores !! bucket).
Proof.
  revert stores. induction buckets as [|b buckets IH]; intros stores; simpl.
  - intros [= ->] bucket. rewrite elem_of_nil. naive_solver.
  - destruct (_ || _); [done|]. rewrite and_then_Ok. intros (store & _ & H) bucket.
    rewrite (IH _ H bucket), elem_of_cons, lookup_insert_is_Some'. naive_solver.
Qed.

(** The promoter's destinations are distinct. *)
Lemma configure_routes_buckets (configured : gmap string (PromotionRoute G)) destinations routes out :
  (∀ k r, configured !! k = Some r → destination_bucket r ∈ destinations) →
  (∀ k k' r r', configured !! k = Some r → configured !! k' = Some r' →
     destination_bucket r = destination_bucket r' → k = k') →
  configure_routes build configured destinations routes = Ok out →
  destination_bucket <$> out = insert_all (destination_bucket <$> configured) routes
  ∧ ∀ k k' r r', out !! k = Some r → out !! k' = Some r' →
      destination_bucket r = destination_bucket r' → k = k'.
Proof.
  revert configured destinations. induction routes as [|[a b] routes IH];
    intros configured destinations Hin Happart; simpl; [by intros [= <-]|].
  destruct (_ || _) eqn:Hbad; [done|].
  rewrite !orb_false_iff, !bool_decide_eq_false in Hbad. destruct Hbad as [[_ Hfresh] Hnew].
  intros H. apply and_then_Ok in H as (source & _ & H). apply and_then_Ok in H as (store & _ & H).
  apply IH in H as [Hout Hap].
  - by rewrite Hout, fmap_insert.
  - intros k r [[<- <-]|[_ Hk]]%lookup_insert_Some; simpl; [set_solver|].
    apply Hin in Hk. set_solver.
  - intros k k' r r' [[<- <-]|[Hn Hk]]%lookup_insert_Some [[<- <-]|[Hn' Hk']]%lookup_insert_Some;
      simpl; intros He; [done| | |by eapply Happart].
    + apply Hin in Hk'. by subst.
    + apply Hin in Hk. by subst.
Qed.
End Constructors.

(** ** The maps that are read *)

Section Environment.
Context (var : string → result VarError string).

(** The promotion routes of the dispatch worker. *)
Lemma insert_routes_Some sources routes entries out :
  insert_routes sources routes entries = Some out →
  (∀ product bucket, (product, bucket) ∈ entries →
     ∃ source, sources !! product = Some source ∧ out !! bucket = Some source)
  ∧ (∀ bucket source, routes !! bucket = Some source → out !! bucket = Some source).
Proof.
  revert routes. induction entries as [|[product bucket] entries IH]; intros routes; simpl.
  - intros [= ->]. split; [by intros ?? ?%elem_of_nil|done].
  - destruct (sources !! product) as [source|] eqn:Hs; [|done]. simpl.
    case_bool_decide as Hnew; [done|]. intros (Hin & Hkept)%IH. split.
    + intros p b [[= -> ->]|H]%elem_of_cons; [|by apply Hin].
      exists source. split; [done|]. apply Hkept. apply lookup_insert_eq.
    + intros b s Hb. apply Hkept. rewrite lookup_insert_ne; [done|]. intros ->. apply Hnew. by exists s.
Qed.

Lemma source_routes_Some quarantine sources routes product bucket :
  source_routes quarantine sources = Some routes → quarantine !! product = Some bucket →
  ∃ source, sources !! product = Some source ∧ routes !! bucket = Some source.
Proof.
  unfold source_routes. destruct (negb _); [done|]. intros [Hin _]%insert_routes_Some Hq.
  apply Hin. by apply elem_of_map_to_list.
Qed.

(** Products with distinct quarantine buckets. *)
Lemma insert_routes_apart sources routes entries out :
  insert_routes sources routes entries = Some out →
  NoDup entries.*2 ∧ ∀ product bucket, (product, bucket) ∈ entries → routes !! bucket = None.
Proof.
  revert routes. induction entries as [|[product bucket] entries IH]; intros routes; simpl.
  - intros _. split; [constructor|by intros ?? ?%elem_of_nil].
  - destruct (sources !! product) as [source|]; [|done]. simpl.
    case_bool_decide as Hnew; [done|]. intros (Hnd & Hfresh)%IH. split.
    + constructor; [|done]. intros ([p b] & -> & Hb)%list_elem_of_fmap. simpl in *.
      specialize (Hfresh p b Hb). by rewrite lookup_insert_eq in Hfresh.
    + intros p b [[= -> ->]|H]%elem_of_cons; [by apply eq_None_not_Some|].
      specialize (Hfresh p b H). by apply lookup_insert_None in Hfresh as [? _].
Qed.

(** The API and the dispatch worker read one map. *)
Lemma bucket_maps_agree values m m' (buckets : gmap string string) :
  insert_entries buckets values = Some m →
  parse_product_buckets buckets (filter (λ value, is_empty value = false) (trim <$> values)) = Some m' →
  m = m'.
Proof.
  revert buckets. induction values as [|value values IH]; intros buckets; simpl;
    [by intros [= <-] [= <-]|].
  destruct (split_once "=" (trim value)) as [[product bucket]|] eqn:Hs; [|done]. simpl.
  destruct (_ || _) eqn:Hbad; [done|]. intros Hm.
  rewrite filter_cons. destruct (decide (is_empty (trim value) = false)) as [|Hempty].
  - simpl. rewrite Hs. simpl. destruct (negb (is_ok _) || _ || _); [done|]. by apply IH.
  - exfalso. apply not_false_iff_true, is_empty_true in Hempty. by rewrite Hempty in Hs.
Qed.

Lemma api_buckets_agree name m m' :
  product_buckets var name = Some m → optional_product_buckets_env var name = Some (Some m') → m = m'.
Proof.
  unfold product_buckets, required, optional_product_buckets_env, optional_csv_env.
  destruct (var name) as [value|]; [|done]. destruct (trim_is_empty value); [done|]. simpl.
  destruct (insert_entries ∅ (split_on "," value)) as [buckets|] eqn:He; simpl; [|done].
  case_bool_decide; [done|]. intros [= <-]. case_bool_decide; [done|]. simpl.
  destruct (parse_product_buckets _ _) as [parsed|] eqn:Hp; simpl; [|done]. intros [= <-].
  by eapply bucket_maps_agree.
Qed.
End Environment.

(** ** The three programs *)

Section Programs.
Context {G : Type} (parse_url : string → option Url) (valid_database_url : string → bool).
Context (parse_socket : string → option SocketAddr).
Context (build : Location → option (ObjectStore G)).
Context (arrange : gmap string string → list (string * string)).
Context (arranged : ∀ m, arrange m ≡ₚ map_to_list m).
Context (available : DocumentAiIdentity.DocumentAiIdentity → bool).

#[local] Notation execution_worker var :=
  (execution_worker var build parse_url valid_database_url arrange available).
#[local] Notation dispatch_worker var :=
  (dispatch_worker var build parse_url valid_database_url arrange parse_socket).
#[local] Notation api_configuration var := (api_configuration var build valid_database_url arrange).
#[local] Notation mcp_configuration var := (mcp_configuration var build valid_database_url).

Lemma execution_worker_buckets var w :
  execution_worker var = Some w →
  ∃ sources pages results, product_buckets var "SOURCE_BUCKETS" = Some sources
    ∧ dom sources = dom pages ∧ dom sources = dom results
    ∧ source_route_bucket <$> worker_sources w = sources
    ∧ write_bucket <$> worker_page_routes w = pages
    ∧ write_bucket <$> worker_result_routes w = results
    ∧ ∀ product bucket, pages !! product = Some bucket → is_Some (worker_page_stores w !! bucket).
Proof.
  unfold Configuration.execution_worker. intros (url & _ & H)%bind_Some. destruct (negb _); [done|].
  apply bind_Some in H as (sources & Hsources & H). apply bind_Some in H as (pages & Hpages & H).
  apply bind_Some in H as (results & Hresults & H).
  destruct (_ || _) eqn:Hmatch; [done|].
  apply orb_false_iff in Hmatch as [Hp%negb_false_iff%bool_decide_eq_true
                                    Hr%negb_false_iff%bool_decide_eq_true].
  apply bind_Some in H as (s & Hs & H). apply bind_Some in H as (p & Hpw & H).
  do 8 apply bind_Some in H as (? & _ & H). apply bind_Some in H as (executor & _ & H).
  apply bind_Some in H as (stores & Hst & H). apply bind_Some in H as (r & Hrw & H).
  do 8 apply bind_Some in H as (? & _ & H). injection H as <-. simpl.
  exists sources, pages, results. split_and!; [done..| | | |].
  - destruct (GcsAcceptedSourceReader_new _ _) as [s'|] eqn:Hnew; [|done]. injection Hs as ->.
    unfold GcsAcceptedSourceReader_new in Hnew. destruct (_ =? 0); [done|].
    rewrite (configure_sources_buckets _ _ _ _ Hnew), fmap_empty. by apply insert_all_arranged.
  - destruct (GcsPageArtifactWriter_new _ _) as [p'|] eqn:Hnew; [|done]. injection Hpw as ->.
    unfold GcsPageArtifactWriter_new in Hnew. destruct (_ =? 0); [done|].
    rewrite (configure_writers_buckets _ _ _ _ _ _ _ _ Hnew), fmap_empty.
    by apply insert_all_arranged.
  - destruct (GcsResultWriter_new _ _) as [r'|] eqn:Hnew; [|done]. injection Hrw as ->.
    unfold GcsResultWriter_new in Hnew. destruct (_ =? 0); [done|].
    rewrite (configure_writers_buckets _ _ _ _ _ _ _ _ Hnew), fmap_empty.
    by apply insert_all_arranged.
  - intros product bucket Hb. destruct (GcsPageArtifactReader_new _ _) as [st|] eqn:Hnew; [|done].
    injection Hst as ->. unfold GcsPageArtifactReader_new in Hnew. destruct (_ =? 0); [done|].
    apply (configure_readers_dom _ _ _ _ _ _ Hnew). left.
    apply (arranged_values pages); [done|by exists product].
Qed.

Lemma dispatch_worker_buckets var d :
  dispatch_worker var = Some d →
  ∃ quarantine sources routes, product_buckets var "QUARANTINE_BUCKETS" = Some quarantine
    ∧ product_buckets var "SOURCE_BUCKETS" = Some sources
    ∧ source_routes quarantine sources = Some routes
    ∧ destination_bucket <$> dispatch_routes d = routes
    ∧ (∀ k k' r r', dispatch_routes d !! k = Some r → dispatch_routes d !! k' = Some r' →
         destination_bucket r = destination_bucket r' → k = k')
    ∧ ∀ product bucket, quarantine !! product = Some bucket →
        is_Some (dispatch_inspected d !! bucket) ∧ is_Some (dispatch_documents d !! bucket).
Proof.
  unfold Configuration.dispatch_worker. intros (url & _ & H)%bind_Some.
  apply bind_Some in H as (scope & _ & H). destruct (_ || _); [done|].
  apply bind_Some in H as (quarantine & Hq & H). apply bind_Some in H as (sources & Hs & H).
  apply bind_Some in H as (routes & Hr & H). do 4 apply bind_Some in H as (? & _ & H).
  apply bind_Some in H as (inspected & Hi & H). apply bind_Some in H as (documents & Hdoc & H).
  apply bind_Some in H as (promoter & Hp & H).
  do 11 apply bind_Some in H as (? & _ & H). injection H as <-. simpl.
  exists quarantine, sources, routes. split; [done|]. split; [done|]. split; [done|].
  destruct (GcsSourcePromoter_new _ _) as [p'|] eqn:Hnew; [|done]. injection Hp as ->.
  unfold GcsSourcePromoter_new in Hnew. destruct (_ =? 0); [done|].
  apply configure_routes_buckets in Hnew as [Hdest Hapart];
    [|intros *; by rewrite lookup_empty|intros *; by rewrite lookup_empty].
  split; [rewrite Hdest, fmap_empty; by apply insert_all_arranged|]. split; [exact Hapart|].
  intros product bucket Hb.
  assert (Hin : bucket ∈ (arrange quarantine).*2)
    by (apply (arranged_values quarantine); [done|by exists product]). split.
  - destruct (GcsUploadMalwareInspector_new _ _) as [st|] eqn:Hi'; [|done]. injection Hi as ->.
    unfold GcsUploadMalwareInspector_new in Hi'. destruct (_ =? 0); [done|].
    apply (configure_buckets_dom _ _ _ _ _ _ Hi'). by left.
  - destruct (GcsUploadDocumentReader_new _ _) as [st|] eqn:Hd'; [|done]. injection Hdoc as ->.
    unfold GcsUploadDocumentReader_new in Hd'. destruct (_ =? 0); [done|].
    apply (configure_buckets_dom _ _ _ _ _ _ Hd'). by left.
Qed.

Lemma api_upload_buckets_read var a product bucket :
  api_configuration var = Some a → api_upload_buckets a !! product = Some bucket →
  optional_product_buckets_env var "QUARANTINE_BUCKETS" = Some (Some (api_upload_buckets a)).
Proof.
  unfold Configuration.api_configuration. intros (capability & _ & H)%bind_Some.
  apply bind_Some in H as (url & _ & H). destruct (negb _); [done|].
  apply bind_Some in H as (rb & _ & H). apply bind_Some in H as (ub & Hub & H).
  apply bind_Some in H as (results & _ & H). apply bind_Some in H as ([[buckets up] ar] & Hb & H).
  apply bind_Some in H as (cache & _ & H). injection H as <-. simpl.
  destruct ub as [ub|]; [|by injection Hb as <- _ _].
  apply bind_Some in Hb as (? & _ & Hb). apply bind_Some in Hb as (? & _ & Hb).
  by injection Hb as <- _ _.
Qed.

(** The MCP server reads results where the API does, when both get the same buckets. *)
Theorem mcp_reads_api_results api mcp a m :
  api_configuration api = Some a → mcp_configuration mcp = Some m →
  api "RESULT_BUCKETS" = mcp "RESULT_BUCKETS" → api_results a = Some (mcp_result_stores m).
Proof.
  unfold Configuration.api_configuration, Configuration.mcp_configuration.
  intros (capability & _ & Ha)%bind_Some (url & _ & Hm)%bind_Some Hsame.
  apply bind_Some in Ha as (url' & _ & Ha). destruct (negb _); [done|]. destruct (negb _) in Hm; [done|].
  apply bind_Some in Ha as (rb & Hrb & Ha). apply bind_Some in Ha as (ub & _ & Ha).
  apply bind_Some in Ha as (results & Hresults & Ha). apply bind_Some in Ha as ([[buckets up] ar] & _ & Ha).
  apply bind_Some in Ha as (cache & _ & [= <-]). simpl.
  apply bind_Some in Hm as (value & Hvalue & Hm). apply bind_Some in Hm as (stores & Hstores & Hm).
  apply bind_Some in Hm as (keys & _ & Hm). apply bind_Some in Hm as (grants & _ & [= <-]). simpl.
  unfold optional_csv_env in Hrb. rewrite Hsame in Hrb.
  destruct (mcp "RESULT_BUCKETS") as [text|]; [|done]. injection Hvalue as ->.
  case_bool_decide; [done|]. injection Hrb as <-. rewrite Hstores in Hresults. by injection Hresults as <-.
Qed.

End Programs.

(** ** The qualification worker stays on the local machine *)

Theorem qualification_worker_local parse_url parse_socket args w :
  qualification_worker parse_url parse_socket args = Some w →
  host_str (qualification_target w) = Some "127.0.0.1"
  ∧ password (qualification_target w) = None
  ∧ contains 1 127 (strlen (qualification_task_queue w)) = true
  ∧ match qualification_endpoint w with
    | Some address => is_loopback (ip address) = true
                      ∧ qualification_activities w = held_for_process_loss
    | None => qualification_activities w = qualification_default
    end.
Proof.
  unfold qualification_worker.
  destruct args as [|program [|target [|task_queue [|mode rest]]]]; [done..|].
  intros (endpoint & _ & Hw)%bind_Some. apply bind_Some in Hw as (url & _ & Hw).
  destruct (qualification_url url) eqn:Hurl; [|done].
  destruct (valid_qualification_queue task_queue) eqn:Hqueue; [|done]. simpl in Hw.
  unfold qualification_url in Hurl. rewrite !andb_true_iff, !bool_decide_eq_true in Hurl.
  assert (Hlen : contains 1 127 (strlen task_queue) = true).
  { unfold valid_qualification_queue in Hqueue. rewrite !andb_true_iff, !negb_true_iff in Hqueue.
    destruct Hqueue as [[Hne Hlong] _]. apply contains_true. apply Z.ltb_ge in Hlong.
    destruct task_queue; [done|]. unfold strlen in *. simpl in *. lia. }
  destruct (String.eqb mode "hold").
  - apply bind_Some in Hw as (text & _ & Hw). apply bind_Some in Hw as (address & _ & Hw).
    destruct (is_loopback (ip address)) eqn:Hloop; [|done]. injection Hw as <-. simpl. tauto.
  - destruct (_ && _); [|done]. injection Hw as <-. simpl. tauto.
Qed.

(** ** A sample environment *)

Definition sample_settings : list (string * string) :=
  [("DATABASE_URL", "postgres://db"); ("WORK_SCOPE_DATABASE_URL", "postgres://db");
   ("QUARANTINE_BUCKETS", "kora=kora-quarantine, other=other-quarantine");
   ("SOURCE_BUCKETS", "other=other-source,kora=kora-source");
   ("PAGE_BUCKETS", "kora=kora-pages,other=other-pages");
   ("RESULT_BUCKETS", "kora=kora-results,other=other-results");
   ("CLAMD_ADDRESS", "127.0.0.1:3310"); ("PARSER_EXECUTABLE", "/app/ocr-parser-sandbox");
   ("TEMPORAL_TARGET", "http://temporal:7233");
   ("TEMPORAL_NAMESPACE", "document-intelligence-sandbox");
   ("TEMPORAL_TASK_QUEUE", "ocr-sandbox"); ("WORKER_ID", "worker-1")].

(** The variables of the workers; the API reads its result buckets without products. *)
Definition sample_var (name : string) : result VarError string :=
  match list_to_map (M := gmap string string) sample_settings !! name with
  | Some value => Ok value
  | None => Err NotPresent
  end.

Definition sample_api_var (name : string) : result VarError string :=
  if String.eqb name "OCR_API_CAPABILITY" then Ok "full"
  else if String.eqb name "RESULT_BUCKETS" then Ok "kora-results,other-results"
  else sample_var name.

Definition sample_build (found : Location) : option (ObjectStore ()) :=
  Some (mkObjectStore _ found (λ _ _ g, (Err ObjectError.NotFound, g)) (λ _ _ g, (Ok (), g))).

Definition sample_url (_ : string) : option Url :=
  Some (mkUrl "http" (Some "temporal") (Some 7233) "" None None None "/").

Definition sample_socket (_ : string) : option SocketAddr := Some (mkSocketAddr (V4 127 0 0 1) 3310).

#[local] Notation sample_execution :=
  (execution_worker sample_var sample_build sample_url (λ _, true) map_to_list (λ _, true)).
#[local] Notation sample_dispatching :=
  (dispatch_worker sample_var sample_build sample_url (λ _, true) map_to_list sample_socket).
#[local] Notation sample_api :=
  (api_configuration sample_api_var sample_build (λ _, true) map_to_list).

Example qualification_sample :
  option_map qualification_activities
    (qualification_worker (λ _, Some (mkUrl "http" (Some "127.0.0.1") (Some 7233) "" None None None "/"))
       sample_socket ["worker"; "http://127.0.0.1:7233"; "ocr-q"; "hold"; "127.0.0.1:3310"])
  = Some held_for_process_loss.
Proof. vm_compute. reflexivity. Qed.

