(* ===== verification/Router.v ===== *)
(** * Router: from a request to its response

    Models the rest of [ocr-service/src/lib.rs] and its composition in [main.rs]: the
    constructors of a router, its routes, what a route does with the identity that the
    middleware verified, and the application behind [with_workload_identity].

    The web framework is an argument: [matched] finds the route of a target in a table,
    with the path's parameter or the status that the framework answers when it has no
    text; [set_request_id] is [SetRequestIdLayer] with the identifier the factory made,
    the headers and the [RequestId] it hands on; [upload_payload] and [job_payload] are
    the [Json] extractor on a body below the limit.  The timeout of a request, spans and
    the header of the response are not modelled, nor is the text of a JSON body. *)

From S2P Require Import Prelude Text DomainTypes Identifiers Document StoreTypes.
From S2P Require Import StoreDb StoreJobs StoreUploads Storage Promotion Artifacts Assembly.
From S2P Require Import Finalizer.
From S2P Require Import ApiTypes WorkloadIdentity StatusCache UploadIntents Api.

#[local] Open Scope list_scope.
#[local] Open Scope Z_scope.

(** ** Routes *)

Inductive Endpoint :=
| Healthz | Readyz | CreateUpload | GetUpload | CompleteUpload | CreateJob | GetJob | GetResult
| CancelJob.

(** A route: its method, its path and its handler. *)
Record Route := mkRoute {
  route_method : string;
  route_path : string;
  route_endpoint : Endpoint;
}.

(** The routes that [build_router] adds. *)
Definition routes (capability : ApiCapability.ApiCapability) : list Route :=
  [mkRoute "GET" "/healthz" Healthz; mkRoute "GET" "/readyz" Readyz]
  ++ (if ApiCapability.serves_uploads capability
      then [mkRoute "POST" "/v1/ocr/uploads" CreateUpload;
            mkRoute "GET" "/v1/ocr/uploads/{upload_id}" GetUpload;
            mkRoute "POST" "/v1/ocr/uploads/{upload_id}/complete" CompleteUpload]
      else [])
  ++ (if ApiCapability.serves_jobs capability
      then [mkRoute "POST" "/v1/ocr/jobs" CreateJob;
            mkRoute "GET" "/v1/ocr/jobs/{job_id}" GetJob;
            mkRoute "GET" "/v1/ocr/jobs/{job_id}/result" GetResult;
            mkRoute "POST" "/v1/ocr/jobs/{job_id}/cancel" CancelJob]
      else []).

(** ** Requests and responses *)

Record HttpRequest := mkHttpRequest {
  request_headers : HeaderMap;
  request_target : Target;
  request_body : list Z;
}.

Inductive ResponseBody (Value : Type) :=
| NoBody
| ErrorJson (body : ErrorBody)
| UploadIntentJson (body : UploadIntentResponse)
| UploadStatusJson (body : UploadStatusResponse)
| JobJson (body : JobResponse)
| DocumentJson (body : DocumentResult Value).
Arguments NoBody {Value}.
Arguments ErrorJson {Value}.
Arguments UploadIntentJson {Value}.
Arguments UploadStatusJson {Value}.
Arguments JobJson {Value}.
Arguments DocumentJson {Value}.

Record Response (Value : Type) := mkResponse {
  response_status_code : Z;
  response_body : ResponseBody Value;
}.
Arguments mkResponse {Value}.
Arguments response_status_code {Value}.
Arguments response_body {Value}.

(** [IntoResponse] for [ApiError], and for the [Result] of a handler. *)
Definition into_response {Value : Type} (self : ApiError) : Response Value :=
  mkResponse (error_status self) (ErrorJson (error_body self)).

Definition respond {Value A : Type} (success : A → Response Value) (answer : result ApiError A)
    : Response Value :=
  match answer with
  | Ok a => success a
  | Err e => into_response e
  end.

(** The [VerifiedIdentity] extractor. *)
Definition VerifiedIdentity_from_request_parts (identity : option TrustedIdentity) (request_id : string)
    : result ApiError TrustedIdentity :=
  ok_or identity (ApiError.authentication_required request_id).

(** ** Constructors *)

Section Constructors.
Context {G : Type}.
Notation Results := (StoredResultLocator → Z → G → result ResultArtifactError (list Z) * G).
Notation Uploads := (StoredUpload → G → result UploadIssueError IssuedUpload * G).
Notation Artifacts :=
  (StoredUpload → G → result UploadArtifactError.UploadArtifactError VerifiedUploadArtifact * G).

Definition router : AppState :=
  {| capability := ApiCapability.Full; job_status_cache := UnavailableJobStatusCache (G := G);
     job_status_cache_policy := default_job_status_cache_policy;
     results := UnavailableResultReader; result_artifacts_configured := false;
     uploads := UnavailableUploadIssuer; upload_buckets := ∅; upload_intents_configured := false;
     upload_artifacts := UnavailableUploadArtifactReader; upload_artifacts_configured := false |}.

Definition router_with_result_reader (results : Results) : AppState :=
  {| capability := ApiCapability.Jobs; job_status_cache := UnavailableJobStatusCache;
     job_status_cache_policy := default_job_status_cache_policy;
     results := results; result_artifacts_configured := true;
     uploads := UnavailableUploadIssuer; upload_buckets := ∅; upload_intents_configured := false;
     upload_artifacts := UnavailableUploadArtifactReader; upload_artifacts_configured := false |}.

Definition router_with_upload_issuer (upload_buckets : gmap string string) (uploads : Uploads) : AppState :=
  {| capability := ApiCapability.Uploads; job_status_cache := UnavailableJobStatusCache;
     job_status_cache_policy := default_job_status_cache_policy;
     results := UnavailableResultReader; result_artifacts_configured := false;
     uploads := uploads; upload_buckets := upload_buckets; upload_intents_configured := true;
     upload_artifacts := UnavailableUploadArtifactReader; upload_artifacts_configured := false |}.

Definition router_with_upload_services (upload_buckets : gmap string string) (uploads : Uploads)
    (upload_artifacts : Artifacts) : AppState :=
  {| capability := ApiCapability.Uploads; job_status_cache := UnavailableJobStatusCache;
     job_status_cache_policy := default_job_status_cache_policy;
     results := UnavailableResultReader; result_artifacts_configured := false;
     uploads := uploads; upload_buckets := upload_buckets; upload_intents_configured := true;
     upload_artifacts := upload_artifacts; upload_artifacts_configured := true |}.

Definition router_with_dependencies (results : Results) (upload_buckets : gmap string string)
    (uploads : Uploads) (upload_artifacts : Artifacts) : AppState :=
  {| capability := ApiCapability.Full; job_status_cache := UnavailableJobStatusCache;
     job_status_cache_policy := default_job_status_cache_policy;
     results := results; result_artifacts_configured := true;
     uploads := uploads; upload_buckets := upload_buckets; upload_intents_configured := true;
     upload_artifacts := upload_artifacts; upload_artifacts_configured := true |}.

Definition router_with_job_status_cache (job_status_cache : JobStatusCache G)
    (job_status_cache_policy : CachePolicy) : AppState :=
  {| capability := ApiCapability.Jobs; job_status_cache := job_status_cache;
     job_status_cache_policy := job_status_cache_policy;
     results := UnavailableResultReader; result_artifacts_configured := false;
     uploads := UnavailableUploadIssuer; upload_buckets := ∅; upload_intents_configured := false;
     upload_artifacts := UnavailableUploadArtifactReader; upload_artifacts_configured := false |}.
End Constructors.

(** ** Serving a request *)

Section Serve.
Context {G Value : Type}.
Context (sha256 : list Z → list Z).
Context (upload_to_vec : CreateUploadRequest → option (list Z)).
Context (job_to_vec : CreateJobRequest → option (list Z)).
Context (result_from_slice : list Z → option (DocumentResult Value)).
Context (parse_uri : string → option UriParts).
Context (hmac : list Z → list Z → option (list Z)) (timestamp_in_range : Z → bool).
Context (matched : list Route → Target → result Z (Endpoint * result Z string)).
Context (set_request_id : HeaderMap → string → HeaderMap * option string).
Context (upload_payload : HeaderMap → list Z → option CreateUploadRequest).
Context (job_payload : HeaderMap → list Z → option CreateJobRequest).

Notation World := (Db * G)%type.

(** What a request finds when it is served: the times of the database, of the handler
    and of the middleware (in nanoseconds), new UUIDs, whether the database answers, and
    what others do between the statements of the handler. *)
Record Circumstances := mkCircumstances {
  database_now : Z;
  handler_clock : nat → Z;
  middleware_now : Z;
  uuid : nat → string;
  database_ready : bool;
  meanwhile : nat → World → World;
}.

(** The [Path] extractor, after the identity's. *)
Definition with_path (parameter : result Z string) (world : World)
    (handler : string → Response Value * World) : Response Value * World :=
  match parameter with
  | Ok value => handler value
  | Err status => (mkResponse status NoBody, world)
  end.

(** A handler behind the [VerifiedIdentity] extractor. *)
Definition with_identity (identity : option TrustedIdentity) (request_id : string) (world : World)
    (handler : TrustedIdentity → Response Value * World) : Response Value * World :=
  match VerifiedIdentity_from_request_parts identity request_id with
  | Ok identity => handler identity
  | Err e => (into_response e, world)
  end.

Definition on_create_upload (state : AppState) (c : Circumstances) (headers : HeaderMap) (body : list Z)
    (identity : TrustedIdentity) (world : World) : Response Value * World :=
  let '(answer, world) :=
    Api.create_upload sha256 upload_to_vec parse_uri state identity headers (upload_payload headers body)
      (uuid c 1%nat) (request_id_from_headers (uuid c 2%nat) headers) (database_now c)
      (handler_clock c 0%nat) (meanwhile c 0%nat) world in
  (respond (λ a, mkResponse a.1 (UploadIntentJson a.2)) answer, world).

Definition on_get_upload (upload_id request_id : string) (identity : TrustedIdentity) (world : World)
    : Response Value * World :=
  (respond (λ a, mkResponse 200 (UploadStatusJson a)) (get_upload identity upload_id request_id world.1),
   world).

Definition on_complete_upload (state : AppState) (c : Circumstances) (upload_id request_id : string)
    (identity : TrustedIdentity) (world : World) : Response Value * World :=
  let '(answer, world) :=
    complete_upload state identity upload_id request_id (database_now c) (handler_clock c)
      (meanwhile c 0%nat) world in
  (respond (λ a, mkResponse 200 (UploadStatusJson a)) answer, world).

Definition on_create_job (state : AppState) (c : Circumstances) (headers : HeaderMap) (body : list Z)
    (identity : TrustedIdentity) (world : World) : Response Value * World :=
  let '(answer, world) :=
    create_job sha256 job_to_vec state identity headers (job_payload headers body)
      (uuid c 1%nat) (request_id_from_headers (uuid c 2%nat) headers) (database_now c)
      (meanwhile c 0%nat) world in
  (respond (λ a, mkResponse a.1 (JobJson a.2)) answer, world).

Definition on_get_job (state : AppState) (c : Circumstances) (job_id request_id : string)
    (identity : TrustedIdentity) (world : World) : Response Value * World :=
  let '(answer, world) := get_job state identity job_id request_id (meanwhile c) world in
  (respond (λ a, mkResponse 200 (JobJson a)) answer, world).

Definition on_get_result (state : AppState) (job_id request_id : string) (identity : TrustedIdentity)
    (world : World) : Response Value * World :=
  let '(answer, g) :=
    get_result_response sha256 result_from_slice state identity job_id request_id world.1 world.2 in
  (respond (λ a, mkResponse 200 (DocumentJson a)) answer, (world.1, g)).

Definition on_cancel_job (state : AppState) (c : Circumstances) (job_id request_id : string)
    (identity : TrustedIdentity) (world : World) : Response Value * World :=
  let '(answer, world) :=
    cancel_job state identity job_id request_id (database_now c) (meanwhile c 0%nat) world in
  (respond (λ a, mkResponse 200 (JobJson a)) answer, world).

(** What an endpoint answers, its extractors first. *)
Definition handle (state : AppState) (c : Circumstances) (identity : option TrustedIdentity)
    (headers : HeaderMap) (body : list Z) (request_id : string) (endpoint : Endpoint)
    (parameter : result Z string) (world : World) : Response Value * World :=
  let verified := with_identity identity request_id world in
  let at_path handler :=
    verified (λ identity, with_path parameter world (λ value, handler value identity world)) in
  match endpoint with
  | Healthz => (mkResponse 200 NoBody, world)
  | Readyz =>
      (respond (λ status, mkResponse status NoBody)
         (readiness state (database_ready c) request_id), world)
  | CreateUpload => verified (λ identity, on_create_upload state c headers body identity world)
  | GetUpload => at_path (λ upload_id, on_get_upload upload_id request_id)
  | CompleteUpload => at_path (λ upload_id, on_complete_upload state c upload_id request_id)
  | CreateJob => verified (λ identity, on_create_job state c headers body identity world)
  | GetJob => at_path (λ job_id, on_get_job state c job_id request_id)
  | GetResult => at_path (λ job_id, on_get_result state job_id request_id)
  | CancelJob => at_path (λ job_id, on_cancel_job state c job_id request_id)
  end.

(** [build_router]: the request of the router behind the middleware. *)
Definition build_router (state : AppState) (c : Circumstances) (identity : option TrustedIdentity)
    (request : HttpRequest) (world : World) : Response Value * World :=
  let '(headers, extension) := set_request_id (request_headers request) (uuid c 0%nat) in
  let request_id := request_id_from_extensions (uuid c 2%nat) extension in
  match matched (routes (capability state)) (request_target request) with
  | Err status => (mkResponse status NoBody, world)
  | Ok (endpoint, parameter) =>
      handle state c identity headers (request_body request) request_id endpoint parameter world
  end.

(** [with_workload_identity], as [main] composes it with the router. *)
Definition with_workload_identity (verifier : WorkloadIdentityVerifier) (state : AppState)
    (c : Circumstances) (request : HttpRequest) (world : World) : Response Value * World :=
  match verify_workload_identity hmac timestamp_in_range verifier (request_headers request)
          (request_target request) (middleware_now c) (uuid c 3%nat) with
  | Respond e => (into_response e, world)
  | Next identity => build_router state c identity request world
  end.
End Serve.
Arguments mkCircumstances {G}.
Arguments database_now {G}.
Arguments handler_clock {G}.
Arguments middleware_now {G}.
Arguments uuid {G}.
Arguments database_ready {G}.
Arguments meanwhile {G}.
