(* ===== verification/RouterFacts.v ===== *)
(** * RouterFacts: a request acts for the tenant that signed it, and sees its rows only

    Whatever a request changes in the database, it changes by operations of the store in
    the scope of the identity that signed it, of the kinds that the capability of the
    router serves; and its response is determined by the rows of that scope and the
    services, whatever the rows of other tenants are. *)

From S2P Require Import Prelude Text DomainTypes Identifiers Digest PageWorkflow StoreTypes.
From S2P Require Import StoreDb StoreJobs.
From S2P Require Import StoreUploads StoreRun StoreJobsFacts StoreUploadsFacts Storage Promotion.
From S2P Require Import Artifacts.
From S2P Require Import Finalizer ApiTypes WorkloadIdentity StatusCache UploadIntents Api.
From S2P Require Import ApiFacts.
From S2P Require Import Isolation Router.

#[local] Open Scope list_scope.
#[local] Open Scope Z_scope.

(** The framework routes to a handler that the table lists. *)
Class Routing (matched : list Route → Target → result Z (Endpoint * result Z string)) :=
  matched_listed table target endpoint parameter :
    matched table target = Ok (endpoint, parameter) → ∃ route, route ∈ table ∧ route_endpoint route = endpoint.

Lemma listed_serves capability route :
  route ∈ routes capability →
  match route_endpoint route with
  | Healthz | Readyz => True
  | Router.CreateUpload | GetUpload | CompleteUpload => ApiCapability.serves_uploads capability = true
  | Router.CreateJob | GetJob | GetResult | CancelJob => ApiCapability.serves_jobs capability = true
  end.
Proof. destruct capability; simpl; intros Hin; repeat (apply elem_of_cons in Hin as [->|Hin]; [done|]); by apply elem_of_nil in Hin. Qed.

(** The operations that the requests of an identity may run. *)
Definition request_op (identity : TrustedIdentity) (capability : ApiCapability.ApiCapability) (op : StoreOp)
    : Prop :=
  op_scope op = Some (identity_tenant identity, identity_product identity)
  ∧ match op with
    | OpCreate _ _ | OpCancel _ _ _ _ => ApiCapability.serves_jobs capability = true
    | OpCreateUpload _ _ | OpRecordUploaded _ _ _ _ _ _ => ApiCapability.serves_uploads capability = true
    | _ => False
    end.

Section Requests.
Context {G Value : Type} (ss js : RawPageWorkflow → Z).
Context (sha256 : list Z → list Z).
Context (upload_to_vec : CreateUploadRequest → option (list Z)).
Context (job_to_vec : CreateJobRequest → option (list Z)).
Context (result_from_slice : list Z → option (Document.DocumentResult Value)).
Context (parse_uri : string → option UriParts).
Context (hmac : list Z → list Z → option (list Z)) (timestamp_in_range : Z → bool).
Context (matched : list Route → Target → result Z (Endpoint * result Z string)) `{!Routing matched}.
Context (set_request_id : HeaderMap → string → HeaderMap * option string).
Context (upload_payload : HeaderMap → list Z → option CreateUploadRequest).
Context (job_payload : HeaderMap → list Z → option CreateJobRequest).
Context (state : @AppState G) (c : Circumstances (G := G)).

#[local] Notation World := (Db * G)%type.
#[local] Notation apply_op := (apply_op ss js).
#[local] Notation reachable := (reachable ss js).
#[local] Notation handled :=
  (handle sha256 upload_to_vec job_to_vec result_from_slice parse_uri upload_payload job_payload state c).
#[local] Notation routed :=
  (build_router sha256 upload_to_vec job_to_vec result_from_slice parse_uri matched set_request_id
     upload_payload job_payload state c).
#[local] Notation application :=
  (λ verifier, with_workload_identity sha256 upload_to_vec job_to_vec result_from_slice parse_uri hmac
     timestamp_in_range matched set_request_id upload_payload job_payload verifier state c).

(** ** What a request changes *)

Section Acts.
Context (identity : TrustedIdentity).

(** Operations of the identity, and whatever others do in between. *)
Definition acts_step (db db' : Db) : Prop :=
  (∃ op, request_op identity (capability state) op ∧ db' = apply_op op db)
  ∨ ∃ k g, db' = (meanwhile c k (db, g)).1.

Definition acts : relation Db := rtc acts_step.

Lemma acts_op {A} op (tx : Tx A) out db db' :
  tx db = Ok (out, db') → (∀ db, apply_op op db = db_after tx db) →
  request_op identity (capability state) op → acts db db'.
Proof.
  intros Htx Hop Hreq. apply rtc_once. left. exists op. split; [done|].
  by rewrite Hop, (db_after_Ok _ _ _ _ Htx).
Qed.

Lemma acts_meanwhile k db g : acts db (meanwhile c k (db, g)).1.
Proof. apply rtc_once. right. by exists k, g. Qed.

Lemma acts_foreign db db' :
  (∀ k w, foreign (identity_tenant identity) (identity_product identity) (meanwhile c k w).1
          = foreign (identity_tenant identity) (identity_product identity) w.1) →
  acts db db' →
  foreign (identity_tenant identity) (identity_product identity) db'
  = foreign (identity_tenant identity) (identity_product identity) db.
Proof.
  intros Hothers. induction 1 as [db|db db1 db' [(op & [Hscope _] & ->)|(k & g & ->)] _ IH]; [done|..];
    (etrans; [exact IH|]).
  - by apply apply_op_isolated.
  - apply (Hothers k (db, g)).
Qed.

Lemma upload_command_spec headers payload fresh rid clock command :
  upload_command sha256 upload_to_vec state identity headers payload fresh rid clock = Ok command →
  cu_tenant_id command = identity_tenant identity ∧ cu_product_id command = identity_product identity
  ∧ UploadId_str (cu_upload_id command) = "upl_" +:+ fresh
  ∧ cu_object_name command
    = "products/" +:+ ProductId_str (identity_product identity) +:+ "/tenants/"
      +:+ TenantId_str (identity_tenant identity) +:+ "/quarantine/" +:+ "upl_" +:+ fresh.
Proof.
  unfold upload_command. intros (key & _ & (request & _ & Hc)%and_then_Ok)%and_then_Ok.
  destruct (_ || _) in Hc; [done|].
  apply and_then_Ok in Hc as (bucket & _ & (canonical & _ & (digest & _ & (id & Hid%map_err_Ok
    & [= <-])%and_then_Ok)%and_then_Ok)%and_then_Ok).
  assert (Hs : UploadId_str id = "upl_" +:+ fresh) by exact (id_new_str (T := UploadId) _ _ Hid).
  simpl. by rewrite Hs.
Qed.

Lemma create_upload_acts headers payload fresh rid now clock k db g answer world' :
  ApiCapability.serves_uploads (capability state) = true →
  Api.create_upload sha256 upload_to_vec parse_uri state identity headers payload fresh rid now clock
    (meanwhile c k) (db, g) = (answer, world') →
  acts db world'.1.
Proof.
  intros Hcap. unfold Api.create_upload.
  destruct (upload_command _ _ _ _ _ _ _ _ _) as [command|] eqn:Hc; [|intros [= _ <-]; apply rtc_refl].
  apply upload_command_spec in Hc as (Ht & Hp & _).
  destruct (StoreUploads.create_upload now command db) as [[out db1]|e] eqn:Htx;
    [|destruct e; intros [= _ <-]; apply rtc_refl].
  assert (Hop : acts db db1).
  { eapply (acts_op (OpCreateUpload now command)); [done|done|]. split; [|done]. simpl. by rewrite Ht, Hp. }
  pose proof (acts_meanwhile k db1 g) as Hmean. destruct (meanwhile c k (db1, g)) as [db2 g2]. simpl in Hmean.
  destruct out as [upload|upload]; (destruct (uploads state upload g2) as [[issued|] g3];
    intros [= _ <-]; (etrans; [exact Hop|exact Hmean])).
Qed.

Lemma complete_upload_acts upload_id rid now clock k db g answer world' :
  ApiCapability.serves_uploads (capability state) = true →
  complete_upload state identity upload_id rid now clock (meanwhile c k) (db, g) = (answer, world') →
  acts db world'.1.
Proof.
  intros Hcap. unfold complete_upload.
  destruct (UploadId_new upload_id) as [u|]; [|intros [= _ <-]; apply rtc_refl].
  destruct (find_upload _ _ u db) as [[upload|]|]; [|intros [= _ <-]; apply rtc_refl..].
  destruct (su_state upload); try (intros [= _ <-]; apply rtc_refl).
  destruct (_ <=? _); [intros [= _ <-]; apply rtc_refl|].
  destruct (upload_artifacts state upload g) as [[artifact|[]] g1]; try (intros [= _ <-]; apply rtc_refl).
  pose proof (acts_meanwhile k db g1) as Hmean. destruct (meanwhile c k (db, g1)) as [db1 g2]. simpl in Hmean.
  set (record := mkRecordUpload _ _ _ _).
  destruct (record_uploaded _ _ _ _ _ record db1) as [[out db2]|] eqn:Htx; [|intros [= _ <-]; exact Hmean].
  intros [= _ <-]. etrans; [exact Hmean|].
  eapply (acts_op (OpRecordUploaded now (clock 1%nat) (identity_tenant identity) (identity_product identity) u record));
    [done|done|by split].
Qed.

Lemma create_job_acts headers payload fresh rid now k db g answer world' :
  ApiCapability.serves_jobs (capability state) = true →
  create_job sha256 job_to_vec state identity headers payload fresh rid now (meanwhile c k) (db, g)
    = (answer, world') →
  acts db world'.1.
Proof.
  intros Hcap. unfold create_job.
  destruct (job_command _ _ _ _ _ _ _) as [command|] eqn:Hc; [|intros [= _ <-]; apply rtc_refl].
  apply job_command_spec in Hc as (? & ? & ? & _ & _ & _ & _ & _ & _ & _ & _ & Ht & Hp).
  destruct (create now command db) as [[out db1]|e] eqn:Htx; [|destruct e; intros [= _ <-]; apply rtc_refl].
  assert (Hop : acts db db1).
  { eapply (acts_op (OpCreate now command)); [done|done|]. split; [|done]. simpl. by rewrite Ht, Hp. }
  pose proof (acts_meanwhile k db1 g) as Hmean. destruct (meanwhile c k (db1, g)) as [db2 g2]. simpl in Hmean.
  intros [= _ <-]. etrans; [exact Hop|exact Hmean].
Qed.

Lemma get_job_acts job_id rid db g answer world' :
  get_job state identity job_id rid (meanwhile c) (db, g) = (answer, world') → acts db world'.1.
Proof.
  unfold get_job. destruct (JobId_new job_id) as [j|]; [|intros [= _ <-]; apply rtc_refl].
  destruct (read_cached_job_status state _ g) as [[record|] g1]; [intros [= _ <-]; apply rtc_refl|].
  pose proof (acts_meanwhile 0 db g1) as Hm0. destruct (meanwhile c 0%nat (db, g1)) as [db1 g2]. simpl in Hm0.
  destruct (StoreJobs.find _ _ j db1) as [[job|]|]; [|intros [= _ <-]; exact Hm0..].
  pose proof (acts_meanwhile 1 db1 g2) as Hm1. destruct (meanwhile c 1%nat (db1, g2)) as [db2 g3]. simpl in Hm1.
  intros [= _ <-]. etrans; [exact Hm0|exact Hm1].
Qed.

Lemma cancel_job_acts job_id rid now k db g answer world' :
  ApiCapability.serves_jobs (capability state) = true →
  cancel_job state identity job_id rid now (meanwhile c k) (db, g) = (answer, world') → acts db world'.1.
Proof.
  intros Hcap. unfold cancel_job. destruct (JobId_new job_id) as [j|]; [|intros [= _ <-]; apply rtc_refl].
  destruct (cancel _ _ _ j db) as [[out db1]|] eqn:Htx; [|intros [= _ <-]; apply rtc_refl].
  assert (Hop : acts db db1).
  { eapply (acts_op (OpCancel now (identity_tenant identity) (identity_product identity) j)); [done|done|by split]. }
  pose proof (acts_meanwhile k db1 g) as Hmean. destruct (meanwhile c k (db1, g)) as [db2 g2]. simpl in Hmean.
  destruct out; intros [= _ <-]; first [exact Hop|etrans; [exact Hop|exact Hmean]].
Qed.
End Acts.

Lemma handle_acts identity headers body rid endpoint parameter db g response world' route :
  route ∈ routes (capability state) → route_endpoint route = endpoint →
  handled (Some identity) headers body rid endpoint parameter (db, g) = (response, world') →
  acts identity db world'.1.
Proof.
  intros Hin%listed_serves <-. unfold handle, with_identity, with_path. simpl.
  destruct (route_endpoint route), parameter as [value|]; try (intros [= _ <-]; apply rtc_refl);
    unfold on_create_upload, on_complete_upload, on_create_job, on_get_job, on_get_result, on_cancel_job;
    match goal with |- context [let '(_, _) := ?x in _] => destruct x as [answer w] eqn:Ha end;
    intros [= _ <-]; try apply rtc_refl;
    eauto using create_upload_acts, complete_upload_acts, create_job_acts, get_job_acts, cancel_job_acts.
Qed.

(** Without an identity every endpoint answers the same in every world. *)
Lemma handle_anonymous headers body rid endpoint parameter :
  ∃ response, ∀ world, handled None headers body rid endpoint parameter world = (response, world).
Proof. destruct endpoint; eexists; intros world; reflexivity. Qed.

Lemma build_router_anonymous request :
  ∃ response, ∀ world, routed None request world = (response, world).
Proof.
  unfold build_router. destruct (set_request_id _ _) as [headers extension].
  destruct (matched _ _) as [[endpoint parameter]|status]; [apply handle_anonymous|by eexists].
Qed.

(** C4: a request acts for the tenant that signed it.  Either it is answered without an
    identity, then it changes nothing and the answer is the same whatever the state of
    the world; or the signature of an identity was verified on it, then it changes the
    database by operations of the store only, in the scope of that identity and of the
    kinds that the capability of the program serves, so that every row of another
    product or tenant stays as it is unless someone else changes it meanwhile. *)
Theorem requests_act_for_signer verifier request world response world' :
  application verifier request world = (response, world') →
  (∀ w, application verifier request w = (response, w))
  ∨ ∃ identity,
      verify hmac timestamp_in_range verifier (request_headers request) (request_target request)
        (middleware_now c) = Some identity
      ∧ acts identity world.1 world'.1
      ∧ ((∀ k w, foreign (identity_tenant identity) (identity_product identity) (meanwhile c k w).1
                 = foreign (identity_tenant identity) (identity_product identity) w.1) →
         foreign (identity_tenant identity) (identity_product identity) world'.1
         = foreign (identity_tenant identity) (identity_product identity) world.1).
Proof.
  unfold with_workload_identity, verify_workload_identity. destruct (_ || _).
  - destruct (build_router_anonymous request) as [answer Hanswer].
    rewrite Hanswer. intros [= <- <-]. left. intros w. by rewrite Hanswer.
  - destruct (verify _ _ _ _ _ _) as [identity|]; [|intros [= <- <-]; by left].
    intros Hrun. right. exists identity. split; [done|].
    assert (Hacts : acts identity world.1 world'.1);
      [|split; [done|intros Hothers; by apply (acts_foreign identity)]].
    revert Hrun. unfold build_router. destruct (set_request_id _ _) as [headers extension].
    destruct (matched _ _) as [[endpoint parameter]|status] eqn:Hm; [|intros [= _ <-]; apply rtc_refl].
    apply matched_listed in Hm as (route & Hin & He). destruct world as [db g]. by apply (handle_acts _ _ _ _ _ _ _ _ _ _ route).
Qed.

(** ** What a request sees *)

Section Sees.
Context (identity : TrustedIdentity).
#[local] Notation visible := (visible (identity_tenant identity) (identity_product identity)).

(** Two worlds that hold the same rows of the scope, with the same services. *)
Definition alike (w1 w2 : World) : Prop := visible w1.1 = visible w2.1 ∧ w1.2 = w2.2.

(** The identifiers and the object that the request would create are in no row. *)
Definition unused (fresh : string) (db : Db) : Prop :=
  ocr_jobs db !! ("job_" +:+ fresh) = None ∧ ocr_uploads db !! ("upl_" +:+ fresh) = None
  ∧ ∀ id row, ocr_uploads db !! id = Some row →
      ur_object_name row
      ≠ "products/" +:+ ProductId_str (identity_product identity) +:+ "/tenants/"
        +:+ TenantId_str (identity_tenant identity) +:+ "/quarantine/" +:+ "upl_" +:+ fresh.

(** Equal answers in alike worlds. *)
Definition same_outcome {A} (left right : A * World) : Prop := left.1 = right.1 ∧ alike left.2 right.2.

Lemma answered_alike {A} (f : A → Response Value) (left right : A * World) :
  same_outcome left right →
  same_outcome (let '(answer, world) := left in (f answer, world))
    (let '(answer, world) := right in (f answer, world)).
Proof. destruct left as [a w1], right as [b w2]. intros [Hab Hw]. simpl in *. by subst. Qed.

Context (Hothers : ∀ k w1 w2, alike w1 w2 → alike (meanwhile c k w1) (meanwhile c k w2)).

Lemma others_alike k db1 db2 g :
  visible db1 = visible db2 →
  ∃ db1' db2' g', meanwhile c k (db1, g) = (db1', g') ∧ meanwhile c k (db2, g) = (db2', g')
    ∧ visible db1' = visible db2'.
Proof.
  intros Hv. destruct (Hothers k (db1, g) (db2, g)) as [Hv' Hg']; [done|].
  destruct (meanwhile c k (db1, g)) as [db1' g1], (meanwhile c k (db2, g)) as [db2' g2]. simpl in *. subst.
  by exists db1', db2', g2.
Qed.

Lemma get_job_alike job_id rid db1 db2 g :
  visible db1 = visible db2 →
  same_outcome (get_job state identity job_id rid (meanwhile c) (db1, g))
    (get_job state identity job_id rid (meanwhile c) (db2, g)).
Proof.
  intros Hv. unfold get_job. destruct (JobId_new job_id) as [j|]; [|done].
  destruct (read_cached_job_status state _ g) as [[record|] g1]; [done|].
  destruct (others_alike 0 db1 db2 g1 Hv) as (d1 & d2 & g2 & -> & -> & Hv1).
  rewrite (find_visible _ _ j d1 d2 Hv1).
  destruct (StoreJobs.find _ _ j d2) as [[job|]|]; [|done..].
  destruct (others_alike 1 d1 d2 g2 Hv1) as (e1 & e2 & g3 & -> & -> & Hv2). done.
Qed.

Lemma cancel_job_alike job_id rid now k db1 db2 g :
  visible db1 = visible db2 →
  same_outcome (cancel_job state identity job_id rid now (meanwhile c k) (db1, g))
    (cancel_job state identity job_id rid now (meanwhile c k) (db2, g)).
Proof.
  intros Hv. unfold cancel_job. destruct (JobId_new job_id) as [j|]; [|done].
  pose proof (cancel_visible _ _ now j db1 db2 Hv) as Hc.
  destruct (cancel _ _ _ j db1) as [[out d1]|e], (cancel _ _ _ j db2) as [[out' d2]|e']; try done.
  destruct Hc as [<- Hv1].
  destruct out; try done; destruct (others_alike k d1 d2 g Hv1) as (e1 & e2 & g2 & -> & -> & Hv2); done.
Qed.

Lemma complete_upload_alike upload_id rid now clock k db1 db2 g :
  visible db1 = visible db2 →
  same_outcome (complete_upload state identity upload_id rid now clock (meanwhile c k) (db1, g))
    (complete_upload state identity upload_id rid now clock (meanwhile c k) (db2, g)).
Proof.
  intros Hv. unfold complete_upload. destruct (UploadId_new upload_id) as [u|]; [|done].
  rewrite (find_upload_visible _ _ u db1 db2 Hv). destruct (find_upload _ _ u db2) as [[upload|]|]; [|done..].
  destruct (su_state upload); try done. destruct (_ <=? _); [done|].
  destruct (upload_artifacts state upload g) as [[artifact|[]] g1]; try done.
  destruct (others_alike k db1 db2 g1 Hv) as (d1 & d2 & g2 & -> & -> & Hv1).
  set (record := mkRecordUpload _ _ _ _).
  pose proof (record_uploaded_visible _ _ now (clock 1%nat) u record d1 d2 Hv1) as Hr.
  destruct (record_uploaded _ _ _ _ _ record d1) as [[out e1]|e], (record_uploaded _ _ _ _ _ record d2) as [[out' e2]|e'];
    try done.
  by destruct Hr as [<- Hv2].
Qed.

Lemma create_job_alike headers payload fresh rid now k db1 db2 g :
  jobs_ok db1 → jobs_ok db2 → visible db1 = visible db2 → unused fresh db1 → unused fresh db2 →
  same_outcome (create_job sha256 job_to_vec state identity headers payload fresh rid now (meanwhile c k) (db1, g))
    (create_job sha256 job_to_vec state identity headers payload fresh rid now (meanwhile c k) (db2, g)).
Proof.
  intros H1 H2 Hv (Hn1 & _) (Hn2 & _). unfold create_job.
  destruct (job_command _ _ _ _ _ _ _) as [command|] eqn:Hc; [|done].
  apply job_command_spec in Hc as (? & ? & ? & _ & _ & _ & _ & _ & _ & Hj & _ & Ht & Hp).
  assert (Hid : JobId_str (cj_job_id command) = "job_" +:+ fresh) by exact (id_new_str (T := JobId) _ _ Hj).
  rewrite <- Hid in Hn1, Hn2.
  pose proof (create_visible _ _ now command db1 db2 Ht Hp H1 H2 Hv Hn1 Hn2) as Hcreate.
  destruct (create now command db1) as [[out d1]|e], (create now command db2) as [[out' d2]|e']; try done.
  - destruct Hcreate as [<- Hv1].
    destruct (others_alike k d1 d2 g Hv1) as (e1 & e2 & g2 & -> & -> & Hv2). done.
  - simpl in Hcreate. subst e'. by destruct e.
Qed.

Lemma create_upload_alike headers payload fresh rid now clock k db1 db2 g :
  upload_keys_unique db1 → upload_keys_unique db2 → visible db1 = visible db2 →
  unused fresh db1 → unused fresh db2 →
  same_outcome
    (Api.create_upload sha256 upload_to_vec parse_uri state identity headers payload fresh rid now clock
       (meanwhile c k) (db1, g))
    (Api.create_upload sha256 upload_to_vec parse_uri state identity headers payload fresh rid now clock
       (meanwhile c k) (db2, g)).
Proof.
  intros H1 H2 Hv (_ & Hn1 & Ho1) (_ & Hn2 & Ho2). unfold Api.create_upload.
  destruct (upload_command _ _ _ _ _ _ _ _ _) as [command|] eqn:Hc; [|done].
  apply upload_command_spec in Hc as (Ht & Hp & Hid & Hobj).
  assert (Hun : ∀ db, ocr_uploads db !! ("upl_" +:+ fresh) = None →
    (∀ id row, ocr_uploads db !! id = Some row → ur_object_name row ≠ cu_object_name command) →
    upload_unused command db) by (intros db Hn Ho; split; [by rewrite Hid|done]).
  rewrite <- Hobj in Ho1, Ho2.
  pose proof (create_upload_visible _ _ now command db1 db2 Ht Hp H1 H2 Hv (Hun _ Hn1 Ho1) (Hun _ Hn2 Ho2)) as Hcreate.
  destruct (StoreUploads.create_upload now command db1) as [[out d1]|e],
    (StoreUploads.create_upload now command db2) as [[out' d2]|e']; try done.
  - destruct Hcreate as [<- Hv1].
    destruct out; destruct (others_alike k d1 d2 g Hv1) as (e1 & e2 & g2 & -> & -> & Hv2);
      by destruct (uploads state _ g2) as [[issued|] g3].
  - simpl in Hcreate. subst e'. by destruct e.
Qed.

Lemma get_result_alike job_id rid db1 db2 g :
  visible db1 = visible db2 →
  get_result_response sha256 result_from_slice state identity job_id rid db1 g
  = get_result_response sha256 result_from_slice state identity job_id rid db2 g.
Proof.
  intros Hv. unfold get_result_response, Finalizer.get_result. destruct (JobId_new job_id) as [j|]; [|done].
  by rewrite (find_result_visible _ _ j db1 db2 Hv).
Qed.

Lemma handle_alike headers body rid endpoint parameter w1 w2 :
  reachable w1.1 → reachable w2.1 → alike w1 w2 → unused (uuid c 1%nat) w1.1 → unused (uuid c 1%nat) w2.1 →
  same_outcome (handled (Some identity) headers body rid endpoint parameter w1)
    (handled (Some identity) headers body rid endpoint parameter w2).
Proof.
  destruct w1 as [db1 g], w2 as [db2 g']. intros H1 H2 [Hv Hg] Hn1 Hn2. simpl in Hv, Hg, H1, H2, Hn1, Hn2. subst g'.
  pose proof (reachable_jobs_ok _ _ _ H1) as Hj1. pose proof (reachable_jobs_ok _ _ _ H2) as Hj2.
  pose proof (reachable_upload_keys _ _ _ H1) as Hu1. pose proof (reachable_upload_keys _ _ _ H2) as Hu2.
  unfold handle, with_identity, with_path. simpl. destruct endpoint, parameter as [value|]; try done;
    try (unfold on_create_upload; by apply answered_alike, create_upload_alike);
    try (unfold on_create_job; by apply answered_alike, create_job_alike).
  - unfold on_get_upload, get_upload. destruct (UploadId_new value) as [u|]; [|done]. simpl.
    by rewrite (find_upload_visible _ _ u db1 db2 Hv).
  - unfold on_complete_upload. by apply answered_alike, complete_upload_alike.
  - unfold on_get_job. by apply answered_alike, get_job_alike.
  - unfold on_get_result. simpl. rewrite (get_result_alike value rid db1 db2 g Hv).
    by destruct (get_result_response _ _ _ _ _ _ db2 g) as [answer g'].
  - unfold on_cancel_job. by apply answered_alike, cancel_job_alike.
Qed.
End Sees.

(** C10: a response shows a tenant its own rows only.  Take two states of the store that
    hold the same jobs, uploads and results of the tenant whose signature was verified,
    and anything of others, with the same services, where the new identifiers of the
    request are fresh: the responses are equal, and what the tenant can see afterwards
    is again the same, as long as what others do meanwhile treats alike what is alike. *)
Theorem responses_show_own_rows verifier identity request w1 w2 :
  verify hmac timestamp_in_range verifier (request_headers request) (request_target request)
    (middleware_now c) = Some identity →
  (∀ k w1 w2, alike identity w1 w2 → alike identity (meanwhile c k w1) (meanwhile c k w2)) →
  reachable w1.1 → reachable w2.1 → alike identity w1 w2 →
  unused identity (uuid c 1%nat) w1.1 → unused identity (uuid c 1%nat) w2.1 →
  same_outcome identity (application verifier request w1) (application verifier request w2).
Proof.
  intros Hverify Hothers H1 H2 Halike Hn1 Hn2. unfold with_workload_identity, verify_workload_identity.
  destruct (_ || _).
  - destruct (build_router_anonymous request) as [answer Hanswer]. by rewrite !Hanswer.
  - rewrite Hverify. unfold build_router. destruct (set_request_id _ _) as [headers extension].
    destruct (matched _ _) as [[endpoint parameter]|status]; [|done]. by apply handle_alike.
Qed.
End Requests.

(** ** Samples *)

Definition sample_matched (table : list Route) (target : Target) : result Z (Endpoint * result Z string) :=
  let path := if String.eqb (target_path target) "/v1/ocr/jobs/job_1/cancel"
              then "/v1/ocr/jobs/{job_id}/cancel" else "/v1/ocr/jobs/{job_id}" in
  match List.find (λ route, String.eqb (route_path route) path) table with
  | Some route => Ok (route_endpoint route, Ok "job_1")
  | None => Err 404
  end.

#[local] Instance sample_routing : Routing sample_matched.
Proof.
  intros table target endpoint parameter. unfold sample_matched.
  destruct (List.find _ table) as [route|] eqn:Hf; [|done]. intros [= <- _].
  exists route. by apply find_Some_spec in Hf as [Hin _].
Qed.

Definition signed_headers (target : Target) : HeaderMap :=
  mkHeaderMap (λ _, None) (λ name,
    if String.eqb name KEY_ID_HEADER then Some "key-1"
    else if String.eqb name TENANT_ID_HEADER then Some "ten_a"
    else if String.eqb name TIMESTAMP_HEADER then Some "1000"
    else if String.eqb name SIGNATURE_HEADER then
      Some (hex_encode (take 32 (string_bytes (canonical_message "key-1" "ten_a" 1000 target)
                                 ++ replicate 32 0)))
    else None).

Definition sample_http (method path : string) : HttpRequest :=
  let target := mkTarget method path (Some path) in mkHttpRequest (signed_headers target) target [].

Definition quiet_circumstances : Circumstances (G := ()) :=
  mkCircumstances 10 (λ _, 10) (from_secs 1010) (λ _, "9") true (λ _ w, w).

#[local] Notation sample_application :=
  (with_workload_identity (Value := ()) (λ _, replicate 32 0) (λ _, None) (λ _, None) (λ _, None) (λ _, None)
     WorkloadIdentity.sample_hmac (λ _, true) sample_matched (λ headers _, (headers, None)) (λ _ _, None) (λ _ _, None)
     sample_verifier (router_with_runtime_dependencies ApiCapability.Full None ∅ None None None)
     quiet_circumstances).

#[local] Notation sample_foreign := (foreign sample_tenant sample_product).

Theorem requests_act_for_signer_witness :
  let request := sample_http "POST" "/v1/ocr/jobs/job_1/cancel" in
  let after := sample_application request (sample_db sample_processing_ops, ()) in
  response_status_code after.1 = 200
  ∧ sample_foreign after.2.1 = sample_foreign (sample_db sample_processing_ops).
Proof.
  intros request after.
  assert (H200 : response_status_code after.1 = 200) by (vm_compute; reflexivity).
  split; [exact H200|].
  destruct after as [response world'] eqn:Hrun.
  destruct (requests_act_for_signer (Value := ()) sample_size sample_size (λ _, replicate 32 0) (λ _, None) (λ _, None)
    (λ _, None) (λ _, None) WorkloadIdentity.sample_hmac (λ _, true) sample_matched (λ headers _, (headers, None))
    (λ _ _, None) (λ _ _, None) (router_with_runtime_dependencies ApiCapability.Full None ∅ None None None)
    quiet_circumstances sample_verifier request (sample_db sample_processing_ops, ()) response world' Hrun)
    as [Hall|(identity & Hv & _ & Hforeign)].
  - exfalso. specialize (Hall (empty_db, ())). apply (f_equal (λ out, response_status_code out.1)) in Hall.
    simpl in H200, Hall. rewrite H200 in Hall. vm_compute in Hall. discriminate Hall.
  - assert (Hid : verify WorkloadIdentity.sample_hmac (λ _, true) sample_verifier (request_headers request)
      (request_target request) (from_secs 1010) = Some (mkTrustedIdentity sample_product sample_tenant))
      by (vm_compute; reflexivity).
    pose proof (eq_trans (eq_sym Hv) Hid) as [= ->].
    apply Hforeign. intros k w. reflexivity.
Defined.

(** The sample history, and the same with a reservation of another tenant. *)
Definition sample_other_upload : StoreTypes.CreateUpload :=
  {| cu_upload_id := sample_upload "other"; cu_tenant_id := mkTenantId "ten_b"; cu_product_id := sample_product;
     cu_idempotency_key := mkIdempotencyKey "key-other"; cu_request_digest := mkRequestDigest sample_digest;
     cu_object_bucket := "quarantine"; cu_object_name := "object-other";
     cu_expected_content_type := "application/pdf"; cu_expected_content_length := 10;
     cu_expected_digest := sample_digest; cu_expires_at := 1000 |}.

Definition sample_more_ops : list StoreOp := sample_processing_ops ++ [OpCreateUpload 7 sample_other_upload].

Lemma sample_more_reachable : reachable sample_size sample_size (sample_db sample_more_ops).
Proof.
  exists sample_more_ops. split; [|done]. apply Forall_app. split; [apply sample_processing_valid|].
  apply Forall_singleton. simpl. by split_and!.
Qed.

Lemma sample_more_alike :
  alike (G := ()) (mkTrustedIdentity sample_product sample_tenant) (sample_db sample_processing_ops, ())
    (sample_db sample_more_ops, ()).
Proof.
  split; [|change (() = ()); reflexivity]. apply (foreign_visible (mkTenantId "ten_b") sample_product); [left; discriminate|].
  change (sample_db sample_more_ops, ()).1 with (sample_db sample_more_ops).
  unfold sample_db, sample_more_ops. rewrite run_ops_app. symmetry.
  exact (apply_op_isolated sample_size sample_size (OpCreateUpload 7 sample_other_upload) _ _ _ eq_refl).
Qed.

Definition sample_unused (db : Db) : bool :=
  bool_decide (ocr_jobs db !! "job_9" = None) && bool_decide (ocr_uploads db !! "upl_9" = None)
  && forallb (λ '(_, row), negb (String.eqb (ur_object_name row) "products/prod/tenants/ten_a/quarantine/upl_9"))
       (map_to_list (ocr_uploads db)).

Lemma sample_unused_spec db :
  sample_unused db = true → unused (mkTrustedIdentity sample_product sample_tenant) "9" db.
Proof.
  unfold sample_unused. rewrite !andb_true_iff, !bool_decide_eq_true, forallb_forall.
  intros [[Hj Hu] Ho]. split_and!; [done|done|]. intros id row Hl%elem_of_map_to_list%list_elem_of_In.
  specialize (Ho _ Hl). simpl in Ho. by apply negb_true_iff, String.eqb_neq in Ho.
Qed.

Theorem responses_show_own_rows_witness :
  let request := sample_http "GET" "/v1/ocr/jobs/job_1" in
  response_status_code (sample_application request (sample_db sample_processing_ops, ())).1 = 200
  ∧ (sample_application request (sample_db sample_processing_ops, ())).1
    = (sample_application request (sample_db sample_more_ops, ())).1.
Proof.
  intros request. split; [vm_compute; reflexivity|].
  assert (Hid : verify WorkloadIdentity.sample_hmac (λ _, true) sample_verifier (request_headers request)
    (request_target request) (from_secs 1010) = Some (mkTrustedIdentity sample_product sample_tenant))
    by (vm_compute; reflexivity).
  assert (H1 : reachable sample_size sample_size (sample_db sample_processing_ops))
    by (exists sample_processing_ops; split; [apply sample_processing_valid|reflexivity]).
  assert (Hn1 : unused (mkTrustedIdentity sample_product sample_tenant) "9" (sample_db sample_processing_ops))
    by (apply sample_unused_spec; vm_compute; reflexivity).
  assert (Hn2 : unused (mkTrustedIdentity sample_product sample_tenant) "9" (sample_db sample_more_ops))
    by (apply sample_unused_spec; vm_compute; reflexivity).
  exact (proj1 (responses_show_own_rows (Value := ()) sample_size sample_size (λ _, replicate 32 0) (λ _, None)
    (λ _, None) (λ _, None) (λ _, None) WorkloadIdentity.sample_hmac (λ _, true) sample_matched
    (λ headers _, (headers, None)) (λ _ _, None) (λ _ _, None)
    (router_with_runtime_dependencies ApiCapability.Full None ∅ None None None) quiet_circumstances sample_verifier
    (mkTrustedIdentity sample_product sample_tenant) request (sample_db sample_processing_ops, ())
    (sample_db sample_more_ops, ()) Hid (λ _ _ _ H, H) H1 sample_more_reachable sample_more_alike Hn1 Hn2)).
Defined.
